(* ===== verification/_CoqProject ===== *)
-Q . S2P
Prelude.v
JSNum.v
JSValue.v
JSON.v
JSDate.v
StatObj.v
NodeLib.v
MonitorLog.v
LogFiles.v
LogFacts.v
MergedFacts.v
DailyFacts.v
Monitor.v
MonitorFacts.v
Polling.v
Recording.v
MonitorApp.v
AppFacts.v
PageBase.v
PageFacts.v
NodeUrl.v
Admin.v
WhiteBoard.v
JSocket.v
JSocketFacts.v
Regex.v
ParseUri.v
WebSocketWrapper.v
WebSocketFacts.v
JQueryCore.v
JQueryParam.v
Forms.v
FormFacts.v
JQueryDeferred.v
DeferredFacts.v
AjaxSubmit.v
SubmitFacts.v
Upload.v
UploadFacts.v
AjaxBase.v
Ajax.v
AjaxFacts.v
AjaxRules.v
AjaxHeaders.v
AjaxReport.v
XhrTransport.v
Jsonp.v
SwfBase.v
DomTree.v
SwfObject.v
SwfFacts.v
EmbedFacts.v
SyntaxTree.v
SyntaxTreeFacts.v
SyntaxCut.v
Patterns.v
PatternFacts.v
SyntaxBrush.v
SyntaxClang.v
SyntaxBrushFacts.v
SyntaxTabs.v
SyntaxAnnotate.v
SyntaxHighlight.v
SyntaxTokens.v
ResourceLoader.v
LoaderFacts.v
SyntaxPage.v
JQueryData.v
DataFacts.v
JQueryQueue.v
QueueFacts.v
JQueryEvents.v
NamespaceFacts.v
EventFacts.v
EventPages.v
Sizzle.v
SizzleFacts.v
SizzleTokens.v
TokenFacts.v
SizzleEngine.v
