(* ===== verification/Prelude.v ===== *)
(** * The JavaScript programs of ipush

    ipush is a push server with tools around it.  This development models the
    programs of the repository that are written in JavaScript and proves what
    makes them correct:

    - the monitor (src/tools/monitor): [monitor.js] polls the push servers once
      a minute, appends their statistics to one log file per day and tells the
      connected browsers; it also reads the log files back.  [app.js] starts it
      from [config.js] and serves pages and data; [public/js/base.js] and
      [chart.js] run in these pages;
    - the publishing client (src/tools/node-xcomet-admin): [index.js] sends a
      message to the node of its receiver;
    - the white board (src/tools/white_board): [app.js] stores uploaded images
      and serves the policy file of Flash; in its pages [jsocket.js],
      [jsocket.advanced.js] and [jquery.socket.js] make sockets of a Flash
      movie, and [WebSocket-wrapper.js] makes a WebSocket of such a socket;
      [swfobject.js] puts the movie into the page; [jquery.form.js] submits forms
      in the background, on top of [jquery-1.9.1.js];
    - the syntax highlighter of the help pages (src/deps/mongo-c-driver-1.1.4/doc/html):
      [jquery.syntax.js] loads brushes, [jquery.syntax.core.js] makes trees of matches
      and elements of them, [jquery.syntax.brush.clang.js] is the brush for C.

    ** Files

    The language:
    - [Prelude]: outcomes [res] (a value or an exception) and stateful code
      [M St A], which keeps the state also when it throws; strings,
      association lists, decimal numerals, and the tactics used everywhere.
    - [JSNum]: numbers as IEEE doubles (SpecFloat), exact on integers below
      2^53, and their printed form.  [JSValue]: values as trees with ordered
      properties, property access, conversions, [+], [-] and [==].
    - [JSON]: [JSON.parse] and [JSON.stringify] with their round trip.
      [JSDate]: [Date] over a constant offset of the time zone.
    - [NodeLib], [NodeUrl]: what is used of node's [path], [querystring] and [url].
    - [Regex]: regular expressions with captures, by backtracking.

    The monitor:
    - [StatObj]: [accumulateObj], [subtractObj], [cloneObjTemplate].
    - [MonitorLog]: the readers [parseDailyStat], [getDailyStats],
      [getStatsOfDay], with the loop over lines, the variables the lines
      update and the exceptions that skip a line.  [getStatsOfDay] writes through
      two variables that may hold the same object; the model keeps track of it.
    - [LogFiles]: log files and days.  [LogFacts], [MergedFacts], [DailyFacts]:
      what the readers return on the log of a run.
    - [Monitor]: the global variables, [addNode], [fireEvent], [queryNode] and
      its callback, [queryNodes], the client handlers, [start], as a machine over
      events (timer ticks, responses, connections, write errors), with a trace of
      its effects.  [MonitorFacts], [Polling], [Recording]: its properties.
    - [MonitorApp]: configuration, start-up, routes, socket wiring.  [AppFacts].
    - [PageBase], [PageFacts]: the scripts of the pages.

    The publishing client: [Admin].  The white board: [WhiteBoard] (server),
    [JSocket] and [JSocketFacts] (Flash sockets), [ParseUri], [WebSocketWrapper]
    and [WebSocketFacts] (the WebSocket object).

    The libraries of the white board's pages:
    - [JQueryCore]: [extend], [each], [map], [grep], [merge] and the like of
      jQuery; [JQueryParam]: [param] and [buildParams]; [JQueryDeferred]:
      callback lists that may be changed while they fire, [Deferred], [then] and
      [when], as an interpreter of operations over a world of lists; its loop
      runs on fuel.  [DeferredFacts]: the refinement of an abstract promise.
    - [JQueryData]: the data of elements and objects: the cache, the numbers on elements that
      are given away again, data in attributes.  [DataFacts].  [JQueryQueue]: queues of
      functions over an interface for private data, which the data of jQuery
      implements; what the functions do is a parameter.  [QueueFacts].
    - [JQueryEvents]: handlers bound and unbound by type, namespaces, selector and function,
      the dispatch of an event and events that the page triggers; what the handlers do
      is a parameter.  [NamespaceFacts]: the patterns for namespaces;
      [EventFacts], [EventPages]: its properties.
    - The selector engine, asked about given elements as delegated events do.  [Sizzle]:
      the matchers of a compiled selector over a document, with what they write on the
      elements they pass; [SizzleFacts]: what a selector says of an element, and that runs find it.
      [SizzleTokens]: selectors cut into tokens by patterns put together from their sources,
      compiled into matchers, and the caches of both; [TokenFacts]: tokens and their text;
      [SizzleEngine]: the engine over many calls.
    - [Forms]: the document as a list of elements, the getters of [val],
      [serializeArray], and the functions of the form plugin on fields.
      [FormFacts].
    - [AjaxSubmit]: [ajaxSubmit] and [ajaxForm] up to the request; the functions of
      the page and its event handlers are the parameter [user].  [SubmitFacts].
    - [AjaxBase]: the settings of [jQuery.ajax], prefilters and transports, headers of
      responses, [ajaxHandleResponses] and [ajaxConvert].  [Ajax]: requests as records
      of the variables of their closure, from the options to [done], on a page
      with many of them; transports and functions of the page are parameters.
      [AjaxFacts]: counting and settling; [AjaxReport]: the order of callbacks;
      [AjaxHeaders]: headers; [AjaxRules]: conversions, prefilters and addresses.
      [XhrTransport], [Jsonp]: the transports and prefilters of the library.
    - [Upload]: [fileUpload] with its inner functions, as a machine over timers,
      [load] events of the frame and aborts; its local variables are the state.
      [UploadFacts].
    - [SwfBase]: what swfobject finds out about browser and player, versions, and
      the query; [DomTree]: a document as a tree; [SwfObject]: the closure of
      swfobject, with embedding, registered objects, express install, style
      sheets and the functions for the end of loading.  [SwfFacts], [EmbedFacts].

    The syntax highlighter:
    - [SyntaxTree]: [Syntax.Match], nodes with the range and the text they stand for:
      insertion at the end and in the middle, cutting at offsets, lines, [reduce].
      [SyntaxTreeFacts]: well-formed trees and the classes they give to characters;
      [SyntaxCut]: cutting.
    - [Patterns]: the pattern language of the brushes, parsed from its source as
      [RegExp] does and matched by backtracking, with back references; the selector engine
      uses it too.  [PatternFacts]: what a match can reach, where its captures are, what
      characters it starts with and is made of.
    - [SyntaxBrush]: brushes with their rules, [push], [extractMatches], [getMatches],
      [buildTree] and [process]; its work carries the global variable [match], which
      the code shares between nested calls.  [SyntaxClang]: the rules of the library and
      the brush for C, as its file registers it.  [SyntaxBrushFacts], [SyntaxTokens].
    - [SyntaxTabs]: tab stops and the offsets they move.  [SyntaxAnnotate]: elements inside
      of the code as annotations.  [SyntaxHighlight]: [highlightText] and links.
    - [ResourceLoader]: the loader of brushes and layouts, as steps of the page and of the
      browser.  [LoaderFacts].  [SyntaxPage]: the names of brushes, the line for
      editors, and the highlighting of an element of a page.

    Record fields and definitions keep the names of the source where they can;
    a handler is one definition with the conditions and early returns of the
    code.  Requests, file writes, messages to browsers and calls into Flash are
    effects in a trace, their answers are events or parameters.

    ** What is proved

    - The monitor: from every configuration and under every sequence of events
      its state stays well formed and no handler throws; it asks every node
      at most once a minute, and at least once when the timer is on time; a good
      reply is recorded and announced, a bad one marks the node dead; the current
      file is the file of the day; everything it writes is a readable log.
    - The readers: on the log of any run the statistics of a node are its last
      record of every minute, those of all nodes the sums by minute, with
      placeholders in between; a daily report is the growth of the counters.
      Together with the routes: what a browser asks for is what was recorded.
    - The trees: counters are added, subtracted and zeroed at every path.
    - The pages: templates, row sums, dates.
    - The client: one request or none, to the right node, with a query that
      decodes to what was given.
    - The white board: an upload stores exactly the image.  Flash sockets: fresh
      ids, guarded operations, callbacks in order, ready once.  The WebSocket: an
      address is parsed into its parts, the handshake is sent to its host for
      its path, frames are written whole, and events come in their order.
    - jQuery: a [Deferred] refines a promise that is settled once and calls every
      callback once, in order; callbacks can be removed while a list fires;
      [extend] goes key by key.  The data of elements refines a table by element and
      name.  Queues are first in, first out, whatever their functions do, and come to
      an end.  With well-formed types every operation on events ends; an element
      listens exactly for the types it has handlers for; an event reaches the
      handlers that are there when it comes, in order; unbinding removes
      exactly the handlers that are meant, and undoes binding.
    - Selectors: the tokens of a selector make up its text, and cutting it ends, with tokens or the
      syntax error; a run of compiled matchers, which trusts what it wrote on elements
      before, finds the elements for which the selector holds; what the engine was asked before,
      and how the document was then, makes no difference, and its caches stay small.
    - Forms: the plugin collects the fields jQuery collects, the query reads back
      as the fields, [clearForm] leaves nothing typed.  A submission makes one
      request or none, with the fields of the form.  An upload reports one
      outcome and one completion, restores the form, and does not wait for ever.
    - Requests: [jQuery.active] counts the requests in progress, each of which is
      settled once and reports in order; headers are not doubled, the data of a
      request can be read back, conversions and prefilters come to an end.  The
      transport reports one reading or none, and JSONP restores the window.
    - swfobject: versions are compared lexicographically, query values are
      filtered, functions for the end of loading are run once and in order, an
      embedded movie takes exactly the place of its element, and the express
      install gives the document back.
    - The highlighter: insertion keeps trees well formed and gives the characters of a match
      its class and changes nothing else; cutting a tree into pieces or lines keeps text and
      classes; words given to a brush match exactly where they stand alone; whatever
      the brushes, the lines that are shown are those of the text, and the brush for
      C ends on every text.  Tabs go to their stops and annotations with them.  The
      code of a help page is shown by the brush its class names.  The loader ends its calls,
      forgets no function and calls none before its resource is there.
    - Where the code does something else than it means to, a theorem says what
      it does (for instance [AppFacts.app_never_disconnects],
      [WhiteBoard.upload_escapes], [WebSocketFacts.close_in_onopen_lost],
      [SubmitFacts.no_browser_no_request], [UploadFacts.upload_active],
      [EventPages.malformed_never_ends], [QueueFacts.cleared_queue_overlaps],
      [TokenFacts.nth_child_case], [TokenFacts.of_type_case],
      [SyntaxAnnotate.annotation_at_the_start_fails], [LoaderFacts.dependency_not_waited_for]).

    ** Bounds

    Recursion that is not structural runs on fuel that is always enough: the
    JSON parser takes 2 * length + 2 (the round trip and the rejection of other
    text are proved with that fuel), [format] the length of the template, a
    starred expression as many rounds as characters are left (a round that does
    not move fails), and the search for all matches the length plus two.
    The interpreter of deferred objects takes fuel; more fuel never changes a
    result, and the refinement theorem gives fuel that is enough for every
    sequence of requests.  The conversion of a response takes three rounds for
    each type and the inspection of prefilters one for each type of the table
    and one more; [AjaxRules] shows that this is enough.
    Patterns are parsed with 4 * length + 4 (the brush for C is checked to be parsed
    in full).  The matches of a rule are looked for length + 2 times, enough as each moves
    on; a rule that can match nothing is shown not to end.  Brushes call
    each other to a depth that is an argument: beyond it the work is [Unfinished], and
    the brush for C needs depth 1.  Cutting takes as many rounds as there are splits and
    children; [SyntaxCut.bisection_pieces] says that it comes to a result.  The calls of
    the loader take as many steps as the sizes of the functions that wait, which
    [LoaderFacts] shows to be enough, and the settings of a line for editors as many as
    it has characters ([SyntaxPage.read_settings_enough]).
    The steps of queues are counted by [run_steps]; [QueueFacts.queue_drains] gives a number
    that is enough.  The removal of handlers calls itself to depth [remove_depth], which
    [EventPages.bindings_kept] shows to be enough when types are well formed, and [EventPages]
    shows that no depth is enough otherwise; the ancestors of a node are looked
    for as many times as there are parents.
    A selector is cut in as many rounds as it has characters and one more; [TokenFacts.tokenize_ends]
    shows that more rounds make no difference and, when nothing is escaped, that the end is reached.  The nodes
    above or before a node are looked for as many times as its position in the document
    says, which [SizzleFacts.steps_enough] shows to be enough.  Trimming and unescaping take
    as many rounds as there are characters and one more, as each takes one at least.
    Counters are exact while their sums stay below 2^53, which the theorems
    about sums state as a hypothesis.

    ** Limits

    Characters are 8-bit code units.  The time zone has a constant offset.
    Objects have no property called [__proto__].  Messages of the log below
    warnings are not in the trace.  express, ejs, socket.io, winston, request,
    EventProxy, the sharding module, the Flash movie and Highcharts are
    parameters or effects.  Of the DOM only the properties and calls that the
    scripts use are modelled, and the HTML and XML parsers of the browser are
    parameters.  The push server is C++ and not part of this development.
    Of the highlighter, [Match._insert] is left out, as no match has the property that
    calls it, and so is a call for several elements at once, as these share their match
    objects; [jQuery.syntax] calls it for one at a time.
    The data of elements has no names that every object inherits.  Of events the copying of
    native ones, those that old browsers lack, and events triggered by handlers while another is
    dispatched are left out.
    Of the selector engine the pseudo-classes other than those of children, which call it again
    or ask the browser, the matchers for sets, the search for candidates when no elements are
    given, [querySelectorAll] and documents in XML are left out; compiling a selector with such
    a pseudo-class, and a character above 255 that is escaped, are [Unfinished].  The value of an
    attribute is part of the document.
    The effects of jQuery and the other
    libraries shipped as they are (Highcharts, bootstrap, socket.io, [yelp.js] of
    the help pages) are not modelled. *)

From Stdlib Require Export Ascii String DecimalString DecimalN ZArith Lia.
From stdpp Require Export prelude strings list gmap.

(** ** Outcomes: a JavaScript expression either has a value or throws. *)

Inductive exn :=
| TypeError
| SyntaxError
| RangeError
| ReferenceError
| Raised (msg : string).

#[export] Instance exn_eq_dec : EqDecision exn.
Proof. solve_decision. Defined.

Inductive res (A : Type) :=
| Ret (a : A)
| Throw (e : exn).
Arguments Ret {A} a.
Arguments Throw {A} e.

#[export] Instance res_ret : MRet res := @Ret.
#[export] Instance res_bind : MBind res := λ A B f m,
  match m with Ret a => f a | Throw e => Throw e end.

(** ** Stateful code that may throw: effects made before a [throw] persist,
    which is how a [try] block behaves. *)

Definition M (St A : Type) : Type := St → res A * St.

#[export] Instance M_ret {St} : MRet (M St) := λ A a s, (Ret a, s).
#[export] Instance M_bind {St} : MBind (M St) := λ A B f m s,
  match m s with
  | (Ret a, s') => f a s'
  | (Throw e, s') => (Throw e, s')
  end.

Definition raise {St A} (e : exn) : M St A := λ s, (Throw e, s).
Definition lift {St A} (r : res A) : M St A := λ s, (r, s).
Definition gets {St A} (f : St → A) : M St A := λ s, (Ret (f s), s).
Definition modify {St} (f : St → St) : M St unit := λ s, (Ret tt, f s).
Definition try_catch {St A} (m : M St A) (h : exn → M St A) : M St A := λ s,
  match m s with
  | (Throw e, s') => h e s'
  | r => r
  end.

Lemma M_bind_ret_l {St A B} (a : A) (f : A → M St B) s :
  (mret a ≫= f) s = f a s.
Proof. done. Qed.

Lemma M_bind_assoc {St A B C} (m : M St A) (f : A → M St B) (g : B → M St C) s :
  ((m ≫= f) ≫= g) s = (m ≫= λ x, f x ≫= g) s.
Proof. unfold mbind, M_bind. by destruct (m s) as [[?|?] ?]. Qed.

(** A [try] whose handler returns normally never throws. *)
Lemma try_catch_total {St A} (m : M St A) (h : exn → M St A) s :
  (∀ e s', ∃ a s'', h e s' = (Ret a, s'')) →
  ∃ a s', try_catch m h s = (Ret a, s').
Proof. intros Hh. unfold try_catch. destruct (m s) as [[?|?] ?]; eauto. Qed.

(** ** Tactics of the development *)

Ltac case_if :=
  match goal with
  | |- context [if ?b then _ else _] => destruct b eqn:?
  | H : context [if ?b then _ else _] |- _ => destruct b eqn:?
  end.

Ltac bool_prop :=
  repeat match goal with
  | H : (_ && _)%bool = true |- _ => apply andb_true_iff in H; destruct H
  | H : (_ || _)%bool = false |- _ => apply orb_false_iff in H; destruct H
  | H : negb _ = true |- _ => apply negb_true_iff in H
  | H : negb _ = false |- _ => apply negb_false_iff in H
  | H : String.eqb _ _ = true |- _ => apply String.eqb_eq in H
  | H : String.eqb _ _ = false |- _ => apply String.eqb_neq in H
  | H : Z.eqb _ _ = true |- _ => apply Z.eqb_eq in H
  | H : Z.eqb _ _ = false |- _ => apply Z.eqb_neq in H
  | H : Z.ltb _ _ = true |- _ => apply Z.ltb_lt in H
  | H : Z.ltb _ _ = false |- _ => apply Z.ltb_ge in H
  | H : Z.leb _ _ = true |- _ => apply Z.leb_le in H
  | H : Z.leb _ _ = false |- _ => apply Z.leb_gt in H
  end.

(** ** Decimal numerals *)

(** The decimal digits of a natural number, without leading zeros. *)
Definition dec_of_N (n : N) : string := NilEmpty.string_of_uint (N.to_uint n).

Definition dec_of_Z (z : Z) : string :=
  match z with
  | Z0 => "0"
  | Zpos p => dec_of_N (Npos p)
  | Zneg p => "-" +:+ dec_of_N (Npos p)
  end.

Definition N_of_dec (s : string) : option N :=
  match s with
  | EmptyString => None
  | _ => N.of_uint <$> NilEmpty.uint_of_string s
  end.

Lemma dec_of_N_nonempty n : dec_of_N n ≠ "".
Proof.
  unfold dec_of_N. intros H.
  assert (N.to_uint n = Decimal.Nil) as Hn.
  { destruct (N.to_uint n); simpl in H; congruence. }
  assert (n = 0%N) as ->.
  { rewrite <-(DecimalN.Unsigned.of_to n), Hn. done. }
  simpl in Hn. congruence.
Qed.

Lemma N_of_dec_of_N n : N_of_dec (dec_of_N n) = Some n.
Proof.
  unfold N_of_dec. pose proof (dec_of_N_nonempty n).
  destruct (dec_of_N n) eqn:E; [done|]. rewrite <-E.
  unfold dec_of_N. rewrite NilEmpty.usu. simpl. f_equal. apply DecimalN.Unsigned.of_to.
Qed.

#[export] Instance dec_of_N_inj : Inj (=) (=) dec_of_N.
Proof. intros n m H. apply (f_equal N_of_dec) in H. rewrite !N_of_dec_of_N in H. by simplify_eq. Qed.

Definition is_digit (c : ascii) : bool :=
  let n := N_of_ascii c in (48 <=? n)%N && (n <=? 57)%N.

(** ** Strings as character sequences *)

#[global] Arguments String.append !s1 s2 : simpl nomatch, rename.

Fixpoint str_forallb (f : ascii → bool) (s : string) : bool :=
  match s with
  | EmptyString => true
  | String c s' => f c && str_forallb f s'
  end.

Lemma str_forallb_app f s t :
  str_forallb f (s +:+ t) = str_forallb f s && str_forallb f t.
Proof. induction s as [|c s IH]; simpl; [done|]. by rewrite IH, andb_assoc. Qed.

Lemma str_app_nil_r s : s +:+ "" = s.
Proof. induction s as [|c s IH]; simpl; [done|]. by rewrite IH. Qed.

Lemma str_app_assoc s t u : (s +:+ t) +:+ u = s +:+ (t +:+ u).
Proof. induction s as [|c s IH]; simpl; [done|]. by rewrite IH. Qed.

Lemma str_length_app s t : String.length (s +:+ t) = String.length s + String.length t.
Proof. induction s as [|c s IH]; simpl; [done|]. by rewrite IH. Qed.

Lemma digits_string_of_uint d : str_forallb is_digit (NilEmpty.string_of_uint d) = true.
Proof. induction d; simpl; auto. Qed.

Lemma digits_dec_of_N n : str_forallb is_digit (dec_of_N n) = true.
Proof. apply digits_string_of_uint. Qed.

Lemma list_ascii_app s t : list_ascii_of_string (s +:+ t) = list_ascii_of_string s ++ list_ascii_of_string t.
Proof. induction s as [|c s IH]; cbn; [done|by rewrite IH]. Qed.
Lemma chars_inj s s' : list_ascii_of_string s = list_ascii_of_string s' → s = s'.
Proof. intros E. rewrite <- (string_of_list_ascii_of_string s), <- (string_of_list_ascii_of_string s'). by rewrite E. Qed.

(** The value of a hexadecimal digit *)
Definition hex_digit_value (c : ascii) : option N :=
  let n := N_of_ascii c in
  if ((48 <=? n)%N && (n <=? 57)%N)%bool then Some (n - 48)%N
  else if ((97 <=? n)%N && (n <=? 102)%N)%bool then Some (n - 87)%N
  else if ((65 <=? n)%N && (n <=? 70)%N)%bool then Some (n - 55)%N
  else None.

(** [s.split(c)] for a one-character separator. *)
Fixpoint split_char (c : ascii) (s : string) : list string :=
  match s with
  | EmptyString => [EmptyString]
  | String a s' =>
      if Ascii.eqb a c then EmptyString :: split_char c s'
      else match split_char c s' with
           | [] => [String a EmptyString]
           | l :: ls => String a l :: ls
           end
  end.

Definition newline : ascii := "010".

(** Splitting a text of newline-terminated lines gives back the lines, and
    the empty string after the last newline. *)
Lemma split_char_line c l s :
  str_forallb (λ a, negb (Ascii.eqb a c)) l = true →
  split_char c (l +:+ String c s) = l :: split_char c s.
Proof.
  induction l as [|a l IH]; simpl; intros H.
  - by rewrite Ascii.eqb_refl.
  - apply andb_true_iff in H as [Ha Hl]. apply negb_true_iff in Ha. rewrite Ha.
    rewrite IH by done. done.
Qed.

Fixpoint concat_lines (ls : list string) : string :=
  match ls with
  | [] => ""
  | l :: ls' => l +:+ String newline (concat_lines ls')
  end.

Lemma split_concat_lines ls :
  Forall (λ l, str_forallb (λ a, negb (Ascii.eqb a newline)) l = true) ls →
  split_char newline (concat_lines ls) = ls ++ [""].
Proof.
  induction 1 as [|l ls Hl _ IH]; simpl; [done|].
  rewrite split_char_line by done. by rewrite IH.
Qed.

(** [t.indexOf(s) >= 0] *)
Fixpoint occurs (s t : string) : bool :=
  String.prefix s t || match t with EmptyString => false | String _ t' => occurs s t' end.

Lemma prefix_app s t : String.prefix s (s +:+ t) = true.
Proof. induction s as [|c s IH]; [by destruct t|]. simpl. by destruct (ascii_dec c c). Qed.

Lemma prefix_inv s t : String.prefix s t = true → ∃ u, t = s +:+ u.
Proof.
  revert t. induction s as [|c s IH]; intros t H; [by exists t|]. destruct t as [|c' t]; [done|]. simpl in H.
  destruct (ascii_dec c c') as [<-|]; [|done]. destruct (IH t H) as [u ->]. by exists u.
Qed.

Lemma occurs_spec s t : occurs s t = true ↔ ∃ pre post, t = pre +:+ s +:+ post.
Proof.
  split.
  - induction t as [|c t IH]; cbn [occurs]; intros H; apply orb_true_iff in H as [H|H]; try done.
    + destruct (prefix_inv _ _ H) as [u Hu]. by exists "", u.
    + destruct (prefix_inv _ _ H) as [u Hu]. by exists "", u.
    + destruct (IH H) as (pre & post & ->). by exists (String c pre), post.
  - intros (pre & post & ->). induction pre as [|c pre IH].
    + cbn [append]. pose proof (prefix_app s post) as H. destruct (s +:+ post); cbn [occurs]; by rewrite H.
    + cbn [append occurs]. by rewrite IH, orb_true_r.
Qed.

(** ** Outcomes of work that may not end *)

Inductive outcome (A : Type) :=
| Done (a : A)
| Fails (e : exn)
| Unfinished.
Arguments Done {A} a.
Arguments Fails {A} e.
Arguments Unfinished {A}.

#[export] Instance outcome_ret : MRet outcome := @Done.
#[export] Instance outcome_bind : MBind outcome := λ A B f o,
  match o with Done a => f a | Fails e => Fails e | Unfinished => Unfinished end.

Lemma Done_bind {A B} (a : A) (f : A → outcome B) : Done a ≫= f = f a.
Proof. done. Qed.

Definition of_res {A} (r : res A) : outcome A := match r with Ret a => Done a | Throw e => Fails e end.

(** ** Association lists with unique keys *)

Section assoc.
Context {V : Type}.
Implicit Types (ps : list (string * V)).

Fixpoint assoc (k : string) ps : option V :=
  match ps with
  | [] => None
  | (k', v) :: ps' => if String.eqb k k' then Some v else assoc k ps'
  end.

Fixpoint assoc_update (k : string) (v : V) ps : list (string * V) :=
  match ps with
  | [] => []
  | (k', v') :: ps' =>
      if String.eqb k k' then (k', v) :: ps' else (k', v') :: assoc_update k v ps'
  end.

Lemma assoc_None k ps : assoc k ps = None ↔ k ∉ ps.*1.
Proof.
  induction ps as [|[k' v] ps IH]; csimpl; [set_solver|].
  destruct (String.eqb k k') eqn:E; bool_prop; subst; set_solver.
Qed.

Lemma assoc_elem k v ps : assoc k ps = Some v → (k, v) ∈ ps.
Proof.
  induction ps as [|[k' v'] ps IH]; csimpl; [done|].
  destruct (String.eqb k k') eqn:E; bool_prop; intros; simplify_eq; set_solver.
Qed.

Lemma assoc_update_keys k v ps : (assoc_update k v ps).*1 = ps.*1.
Proof.
  induction ps as [|[k' v'] ps IH]; csimpl; [done|].
  destruct (String.eqb k k'); csimpl; congruence.
Qed.

Lemma assoc_update_eq k v ps :
  assoc k (assoc_update k v ps) = match assoc k ps with Some _ => Some v | None => None end.
Proof.
  induction ps as [|[k' v'] ps IH]; csimpl; [done|].
  destruct (String.eqb k k') eqn:E; csimpl; rewrite E; done.
Qed.

Lemma assoc_update_ne k k' v ps : k ≠ k' → assoc k' (assoc_update k v ps) = assoc k' ps.
Proof.
  intros Hne. induction ps as [|[k'' v'] ps IH]; csimpl; [done|].
  destruct (String.eqb k k'') eqn:E; csimpl; bool_prop; subst.
  - by rewrite (proj2 (String.eqb_neq _ _)) by done.
  - by rewrite IH.
Qed.

Lemma assoc_app k ps qs :
  assoc k (ps ++ qs) = match assoc k ps with Some v => Some v | None => assoc k qs end.
Proof.
  induction ps as [|[k' v'] ps IH]; csimpl; [done|]. by destruct (String.eqb k k').
Qed.
End assoc.

Lemma assoc_deleted {V} k k' (ps : list (string * V)) :
  assoc k' (List.filter (λ kv, negb (String.eqb kv.1 k)) ps) = if String.eqb k' k then None else assoc k' ps.
Proof.
  induction ps as [|[x v] ps IH]; cbn [List.filter assoc fst]; [by case_match|].
  destruct (String.eqb x k) eqn:E; cbn [negb assoc].
  - rewrite IH. apply String.eqb_eq in E as ->. by destruct (String.eqb k' k).
  - rewrite IH. destruct (String.eqb k' x) eqn:E2; [|done]. apply String.eqb_eq in E2 as ->. by rewrite E.
Qed.
