(* ===== verification/JSNum.v ===== *)
(** * JavaScript numbers

    The Number type of the language is IEEE 754 binary64.  Numbers are the
    [spec_float] values of the Standard Library at precision 53 and maximal
    exponent 1024, so that every operation rounds as the hardware does.  The
    integers below [2^53] in magnitude ("safe" integers) embed exactly, and
    addition and subtraction of safe integers with a safe result are exact;
    these are the facts the counters of the monitor rely on. *)

From Stdlib Require Import SpecFloat.
From S2P Require Import Prelude.

Local Open Scope Z_scope.

Abbreviation num := spec_float.

Definition num_add : num → num → num := SFadd 53 1024.
Definition num_sub : num → num → num := SFsub 53 1024.
Definition num_eqb : num → num → bool := SFeqb.
Definition num_ltb : num → num → bool := SFltb.
Definition num_leb : num → num → bool := SFleb.
Definition NaN : num := S754_nan.
Definition is_NaN (n : num) : bool := match n with S754_nan => true | _ => false end.

Definition num_of_Z (z : Z) : num := binary_normalize 53 1024 z 0 false.

#[export] Instance num_eq_dec : EqDecision num.
Proof. solve_decision. Defined.

(** The integer a number denotes, when it denotes one. *)
Definition num_to_Z (n : num) : option Z :=
  match n with
  | S754_zero _ => Some 0
  | S754_finite s m e =>
      let m' := if s then Z.neg m else Z.pos m in
      if 0 <=? e then Some (m' * 2 ^ e)
      else if m' mod 2 ^ (- e) =? 0 then Some (m' / 2 ^ (- e)) else None
  | _ => None
  end.

Definition safe (z : Z) : Prop := Z.abs z < 2 ^ 53.

#[export] Instance safe_dec z : Decision (safe z).
Proof. unfold safe. apply _. Defined.

(** ** Exactness on safe integers *)

Lemma digits2_log2 p : Z.pos (digits2_pos p) = Z.log2 (Z.pos p) + 1.
Proof.
  induction p as [p IH|p IH|]; cbn [digits2_pos]; [..|done].
  - rewrite Pos2Z.inj_succ, IH, (Pos2Z.inj_xI p), Z.log2_succ_double by lia. lia.
  - rewrite Pos2Z.inj_succ, IH, (Pos2Z.inj_xO p), Z.log2_double by lia. lia.
Qed.

Lemma Zdigits2_log2 m : 0 < m → Zdigits2 m = Z.log2 m + 1.
Proof. destruct m; try lia. intros _. apply digits2_log2. Qed.

Lemma iter_xO_pow m d : Z.pos (Pos.iter xO m d) = Z.pos m * 2 ^ Z.pos d.
Proof.
  induction d as [|d IH] using Pos.peano_ind; [simpl; lia|].
  rewrite Pos.iter_succ, (Pos2Z.inj_xO (Pos.iter _ _ _)), IH, Pos2Z.inj_succ, Z.pow_succ_r by lia. lia.
Qed.

Lemma shl_align_fst m e e' :
  e' ≤ e → Z.pos (shl_align m e e').1 = Z.pos m * 2 ^ (e - e') ∧ (shl_align m e e').2 = e'.
Proof.
  intros H. unfold shl_align. destruct (e' - e) as [|d|d] eqn:E; simpl; [|lia|].
  - replace (e - e') with 0 by lia. rewrite Z.pow_0_r. lia.
  - split; [|done]. rewrite iter_xO_pow. do 2 f_equal. lia.
Qed.

Lemma shl_align_none m e e' : e ≤ e' → shl_align m e e' = (m, e).
Proof. intros H. unfold shl_align. destruct (e' - e) eqn:E; [done|done|lia]. Qed.

Lemma iter_pos_comm {A} (f : A → A) n x :
  SpecFloat.iter_pos f n (f x) = f (SpecFloat.iter_pos f n x).
Proof. revert x. induction n as [n IH|n IH|]; intros x; simpl; by rewrite ?IH. Qed.

Lemma iter_pos_succ {A} (f : A → A) n x : SpecFloat.iter_pos f (Pos.succ n) x = SpecFloat.iter_pos f n (f x).
Proof.
  revert x. induction n as [n IH|n IH|]; intros x; simpl; [|done|done].
  by rewrite !IH, <-iter_pos_comm.
Qed.

Lemma shr_1_exact m : 0 < m → shr_1 (Build_shr_record (2 * m) false false) = Build_shr_record m false false.
Proof. by destruct m. Qed.

Lemma iter_shr_1_exact n m :
  0 < m → SpecFloat.iter_pos shr_1 n (Build_shr_record (m * 2 ^ Z.pos n) false false) = Build_shr_record m false false.
Proof.
  revert m. induction n as [|n IH] using Pos.peano_ind; intros m Hm.
  - simpl SpecFloat.iter_pos. rewrite Z.mul_comm. by apply shr_1_exact.
  - rewrite iter_pos_succ, Pos2Z.inj_succ, Z.pow_succ_r by lia.
    replace (m * (2 * 2 ^ Z.pos n)) with (2 * (m * 2 ^ Z.pos n)) by lia.
    rewrite shr_1_exact by (pose proof (Z.pow_pos_nonneg 2 (Z.pos n)); nia). by apply IH.
Qed.

(** Rounding a mantissa that is an exact multiple of the target exponent's
    unit changes nothing but the representation. *)
Lemma shr_fexp_exact m e n :
  0 < m → 0 ≤ n → fexp 53 1024 (Z.log2 m + 1 + e) = e →
  shr_fexp 53 1024 (m * 2 ^ n) (e - n) loc_Exact = (Build_shr_record m false false, e).
Proof.
  intros Hm Hn He. unfold shr_fexp. pose proof (Z.pow_pos_nonneg 2 n).
  rewrite Zdigits2_log2 by nia. rewrite Z.log2_mul_pow2 by lia.
  replace (n + Z.log2 m + 1 + (e - n)) with (Z.log2 m + 1 + e) by lia. rewrite He.
  replace (e - (e - n)) with n by lia. unfold shr. destruct n as [|n|n]; [| |lia].
  - rewrite Z.pow_0_r, Z.mul_1_r, Z.sub_0_r. done.
  - cbn [shr_record_of_loc]. rewrite iter_shr_1_exact by done. f_equal. lia.
Qed.

Lemma binary_round_aux_exact s p e n :
  0 ≤ n → e ≤ 971 → fexp 53 1024 (Z.log2 (Z.pos p) + 1 + e) = e →
  binary_round_aux 53 1024 s (Z.pos p * 2 ^ n) (e - n) loc_Exact = S754_finite s p e.
Proof.
  intros Hn He Hf. unfold binary_round_aux. rewrite shr_fexp_exact by done.
  cbn [shr_m loc_of_shr_record round_nearest_even].
  pose proof (shr_fexp_exact (Z.pos p) e 0 ltac:(lia) ltac:(lia) Hf) as H0.
  rewrite Z.pow_0_r, Z.mul_1_r, Z.sub_0_r in H0. rewrite H0. cbn [shr_m].
  rewrite (proj2 (Z.leb_le e (1024 - 53))) by lia. done.
Qed.

Definition mant (z : Z) : positive := Z.to_pos (Z.abs z * 2 ^ (52 - Z.log2 (Z.abs z))).
Definition expo (z : Z) : Z := Z.log2 (Z.abs z) - 52.

Lemma safe_log2 z : z ≠ 0 → safe z → 0 ≤ Z.log2 (Z.abs z) ≤ 52.
Proof.
  unfold safe. intros Hz Hs. split; [apply Z.log2_nonneg|].
  enough (Z.log2 (Z.abs z) < 53) by lia. apply Z.log2_lt_pow2; lia.
Qed.

Lemma mant_pos z : z ≠ 0 → safe z → Z.pos (mant z) = Z.abs z * 2 ^ (52 - Z.log2 (Z.abs z)).
Proof.
  intros Hz Hs. pose proof (safe_log2 z Hz Hs). unfold mant.
  rewrite Z2Pos.id; [done|]. pose proof (Z.pow_pos_nonneg 2 (52 - Z.log2 (Z.abs z))). nia.
Qed.

Lemma mant_canonical z :
  z ≠ 0 → safe z → fexp 53 1024 (Z.log2 (Z.pos (mant z)) + 1 + expo z) = expo z.
Proof.
  intros Hz Hs. pose proof (safe_log2 z Hz Hs). rewrite mant_pos by done.
  rewrite Z.log2_mul_pow2 by lia. unfold fexp, emin, expo. lia.
Qed.

(** A scaled safe integer is represented like the integer itself. *)
Lemma binary_round_scaled s z k p :
  z ≠ 0 → safe z → 0 ≤ k ≤ 52 → Z.pos p = Z.abs z * 2 ^ k →
  binary_round 53 1024 s p (- k) = S754_finite s (mant z) (expo z).
Proof.
  intros Hz Hs Hk Hp. pose proof (safe_log2 z Hz Hs) as Hl. unfold binary_round.
  rewrite digits2_log2, Hp, Z.log2_mul_pow2 by lia.
  replace (fexp 53 1024 (k + Z.log2 (Z.abs z) + 1 + - k)) with (expo z)
    by (unfold fexp, emin, expo; lia).
  destruct (decide (expo z ≤ - k)) as [Hle|Hgt].
  - destruct (shl_align_fst p (- k) (expo z) Hle) as [H1 H2].
    destruct (shl_align p (- k) (expo z)) as [mz ez]. simpl in *. subst ez.
    assert (mz = mant z) as ->.
    { apply Pos2Z.inj. rewrite H1, mant_pos, Hp, <-Z.mul_assoc, <-Z.pow_add_r by (done || lia).
      do 2 f_equal. unfold expo. lia. }
    pose proof (binary_round_aux_exact s (mant z) (expo z) 0 ltac:(lia)
      ltac:(unfold expo; lia) (mant_canonical z Hz Hs)) as H0.
    rewrite Z.pow_0_r, Z.mul_1_r, Z.sub_0_r in H0. done.
  - rewrite shl_align_none by lia.
    replace (Z.pos p) with (Z.pos (mant z) * 2 ^ (expo z + k)).
    + replace (- k) with (expo z - (expo z + k)) by lia.
      apply binary_round_aux_exact; [lia|unfold expo; lia|by apply mant_canonical].
    + rewrite mant_pos, Hp, <-Z.mul_assoc, <-Z.pow_add_r by (done || lia).
      do 2 f_equal. unfold expo. lia.
Qed.

Lemma binary_normalize_scaled z k :
  safe z → 0 ≤ k ≤ 52 →
  binary_normalize 53 1024 (z * 2 ^ k) (- k) false =
    if decide (z = 0) then S754_zero false else S754_finite (z <? 0) (mant z) (expo z).
Proof.
  intros Hs Hk. pose proof (Z.pow_pos_nonneg 2 k ltac:(lia) ltac:(lia)) as Hp.
  case_decide as Hz; [by subst|]. unfold binary_normalize.
  destruct (z * 2 ^ k) as [|p|p] eqn:E; [nia|..].
  - rewrite (binary_round_scaled _ z) by (done || nia).
    by replace (z <? 0) with false by nia.
  - rewrite (binary_round_scaled _ z) by (done || nia).
    by replace (z <? 0) with true by nia.
Qed.

Lemma num_of_Z_safe z :
  safe z → num_of_Z z =
    if decide (z = 0) then S754_zero false else S754_finite (z <? 0) (mant z) (expo z).
Proof.
  intros Hs. rewrite <-(binary_normalize_scaled z 0) by (done || lia).
  unfold num_of_Z. do 2 f_equal; lia.
Qed.

(** The signed, aligned mantissa of a safe integer. *)
Lemma align_mant z ez :
  z ≠ 0 → safe z → ez ≤ expo z →
  cond_Zopp (z <? 0) (Z.pos (shl_align (mant z) (expo z) ez).1) = z * 2 ^ (- ez).
Proof.
  intros Hz Hs He. destruct (shl_align_fst (mant z) (expo z) ez He) as [-> _].
  rewrite mant_pos, <-Z.mul_assoc, <-Z.pow_add_r by
    (done || pose proof (safe_log2 z Hz Hs); unfold expo in *; lia).
  replace (52 - Z.log2 (Z.abs z) + (expo z - ez)) with (- ez) by (unfold expo; lia).
  unfold cond_Zopp. destruct (Z.ltb_spec z 0); lia.
Qed.

Lemma expo_min_bounds a b :
  a ≠ 0 → b ≠ 0 → safe a → safe b → 0 ≤ - Z.min (expo a) (expo b) ≤ 52.
Proof.
  intros Ha Hb Sa Sb. pose proof (safe_log2 a Ha Sa). pose proof (safe_log2 b Hb Sb).
  unfold expo. lia.
Qed.

(** Addition of safe integers with a safe sum is exact. *)
Lemma num_add_safe a b :
  safe a → safe b → safe (a + b) → num_add (num_of_Z a) (num_of_Z b) = num_of_Z (a + b).
Proof.
  intros Sa Sb Sc. rewrite (num_of_Z_safe a), (num_of_Z_safe b) by done.
  case_decide as Ha; case_decide as Hb; subst; simpl.
  - done.
  - by rewrite num_of_Z_safe, decide_False by done.
  - by rewrite Z.add_0_r, num_of_Z_safe, decide_False by done.
  - unfold num_add, SFadd. rewrite !align_mant, <-Z.mul_add_distr_r by (done || lia).
    pose proof (expo_min_bounds a b Ha Hb Sa Sb) as Hez.
    rewrite <-(Z.opp_involutive (Z.min (expo a) (expo b))) at 2.
    rewrite binary_normalize_scaled, num_of_Z_safe by done. done.
Qed.

(** Subtraction of safe integers with a safe difference is exact. *)
Lemma num_sub_safe a b :
  safe a → safe b → safe (a - b) → num_sub (num_of_Z a) (num_of_Z b) = num_of_Z (a - b).
Proof.
  intros Sa Sb Sc. rewrite (num_of_Z_safe a), (num_of_Z_safe b) by done.
  case_decide as Ha; case_decide as Hb; subst; simpl.
  - done.
  - rewrite num_of_Z_safe, decide_False by (done || lia).
    unfold mant, expo. rewrite Z.sub_0_l, Z.abs_opp. f_equal.
    destruct (Z.ltb_spec b 0), (Z.ltb_spec (- b) 0); simpl; (done || lia).
  - by rewrite Z.sub_0_r, num_of_Z_safe, decide_False by done.
  - unfold num_sub, SFsub. rewrite !align_mant, <-Z.mul_sub_distr_r by (done || lia).
    pose proof (expo_min_bounds a b Ha Hb Sa Sb) as Hez.
    rewrite <-(Z.opp_involutive (Z.min (expo a) (expo b))) at 2.
    rewrite binary_normalize_scaled, num_of_Z_safe by done. done.
Qed.

Lemma num_to_of_Z z : safe z → num_to_Z (num_of_Z z) = Some z.
Proof.
  intros Hs. rewrite num_of_Z_safe by done. case_decide as Hz; [by subst|].
  pose proof (safe_log2 z Hz Hs) as Hl. unfold num_to_Z.
  assert ((if z <? 0 then Z.neg (mant z) else Z.pos (mant z)) = z * 2 ^ (52 - Z.log2 (Z.abs z))) as ->.
  { rewrite <-Pos2Z.opp_pos, !mant_pos by done. destruct (Z.ltb_spec z 0); lia. }
  unfold expo. destruct (Z.leb_spec 0 (Z.log2 (Z.abs z) - 52)).
  - replace (Z.log2 (Z.abs z)) with 52 by lia. f_equal. lia.
  - replace (- (Z.log2 (Z.abs z) - 52)) with (52 - Z.log2 (Z.abs z)) by lia.
    pose proof (Z.pow_pos_nonneg 2 (52 - Z.log2 (Z.abs z))).
    rewrite Z.mod_mul, Z.div_mul by lia. done.
Qed.

Lemma num_of_Z_inj a b : safe a → safe b → num_of_Z a = num_of_Z b → a = b.
Proof.
  intros Ha Hb H. apply (f_equal num_to_Z) in H. rewrite !num_to_of_Z in H by done. by simplify_eq.
Qed.

(** ** Comparison of safe integers *)

Lemma abs_compare_mant a b :
  a ≠ 0 → b ≠ 0 → safe a → safe b →
  match Z.compare (expo a) (expo b) with
  | Eq => Pos.compare_cont Eq (mant a) (mant b)
  | c => c
  end = Z.compare (Z.abs a) (Z.abs b).
Proof.
  intros Ha Hb Sa Sb. unfold expo. destruct (Z.compare_spec (Z.log2 (Z.abs a) - 52) (Z.log2 (Z.abs b) - 52)) as [E|E|E].
  - change (Pos.compare_cont Eq (mant a) (mant b)) with (Z.compare (Z.pos (mant a)) (Z.pos (mant b))).
    rewrite !mant_pos by done. replace (Z.log2 (Z.abs a)) with (Z.log2 (Z.abs b)) by lia.
    pose proof (safe_log2 b Hb Sb).
    symmetry. apply Zmult_compare_compat_r. pose proof (Z.pow_pos_nonneg 2 (52 - Z.log2 (Z.abs b))). lia.
  - symmetry. apply Z.compare_lt_iff. apply Z.log2_lt_cancel. lia.
  - symmetry. apply Z.compare_gt_iff. apply Z.log2_lt_cancel. lia.
Qed.

Lemma num_compare_safe a b :
  safe a → safe b → SFcompare (num_of_Z a) (num_of_Z b) = Some (Z.compare a b).
Proof.
  intros Sa Sb. rewrite !num_of_Z_safe by done.
  case_decide as Ha; case_decide as Hb; subst; simpl.
  - done.
  - destruct (Z.ltb_spec b 0), b; (done || lia).
  - destruct (Z.ltb_spec a 0), a; (done || lia).
  - pose proof (abs_compare_mant a b Ha Hb Sa Sb) as Hc. f_equal.
    destruct (Z.ltb_spec a 0) as [La|La], (Z.ltb_spec b 0) as [Lb|Lb].
    + rewrite (Z.compare_antisym b a).
      replace (Z.compare b a) with (Z.compare (Z.abs a) (Z.abs b)) by
        (destruct (Z.compare_spec (Z.abs a) (Z.abs b)), (Z.compare_spec b a); (done || lia)).
      rewrite <-Hc. by destruct (Z.compare (expo a) (expo b)).
    + symmetry. apply Z.compare_lt_iff. lia.
    + symmetry. apply Z.compare_gt_iff. lia.
    + rewrite !Z.abs_eq in Hc by lia. rewrite <-Hc. by destruct (Z.compare (expo a) (expo b)).
Qed.

Lemma num_eqb_safe a b : safe a → safe b → num_eqb (num_of_Z a) (num_of_Z b) = (a =? b).
Proof.
  intros Sa Sb. unfold num_eqb, SFeqb. rewrite num_compare_safe by done.
  destruct (Z.compare_spec a b), (Z.eqb_spec a b); (done || lia).
Qed.

Lemma num_ltb_safe a b : safe a → safe b → num_ltb (num_of_Z a) (num_of_Z b) = (a <? b).
Proof.
  intros Sa Sb. unfold num_ltb, SFltb. rewrite num_compare_safe by done.
  destruct (Z.compare_spec a b), (Z.ltb_spec a b); (done || lia).
Qed.

Lemma num_leb_safe a b : safe a → safe b → num_leb (num_of_Z a) (num_of_Z b) = (a <=? b).
Proof.
  intros Sa Sb. unfold num_leb, SFleb. rewrite num_compare_safe by done.
  destruct (Z.compare_spec a b), (Z.leb_spec a b); (done || lia).
Qed.

(** ** Decimal literals and Number.prototype.toString *)

(** The number nearest to [m * 10^e] (ties to even). *)
Definition num_of_decimal (neg : bool) (m : N) (e : Z) : num :=
  match m with
  | N0 => S754_zero neg
  | Npos p =>
      if 0 <=? e then binary_round 53 1024 neg (p * Z.to_pos (10 ^ e)) 0
      else let '(mz, ez, lz) := SFdiv_core_binary 53 1024 (Z.pos p) 0 (10 ^ (- e)) 0 in
           binary_round_aux 53 1024 neg mz ez lz
  end.

(** The smallest [n] with [m * 2^e < 10^n], found by search from below. *)
Fixpoint dec_exponent (fuel : nat) (m e n : Z) : Z :=
  match fuel with
  | O => n
  | S f =>
      let below :=
        if 0 <=? n then m * 2 ^ Z.max e 0 <? 10 ^ n * 2 ^ Z.max (- e) 0
        else m * 2 ^ Z.max e 0 * 10 ^ (- n) <? 2 ^ Z.max (- e) 0 in
      if below then n else dec_exponent f m e (n + 1)
  end.

(** [m * 2^e / 10^q] rounded to an integer. *)
Definition dec_mantissa (m e q : Z) : Z :=
  let num := m * 2 ^ Z.max e 0 * 10 ^ Z.max (- q) 0 in
  let den := 2 ^ Z.max (- e) 0 * 10 ^ Z.max q 0 in
  (2 * num + den) / (2 * den).

(** The shortest digits [d] and the decimal exponent [n] such that
    [d * 10^(n-k)], with [k] digits in [d], reads back as the number; [k] is
    searched upwards from [k0], and 17 digits always read back. *)
Fixpoint shortest (fuel : nat) (m : positive) (e n k : Z) : N * Z :=
  let d := Z.to_N (dec_mantissa (Z.pos m) e (n - k)) in
  match fuel with
  | O => (d, k)
  | S f =>
      if bool_decide (num_of_decimal false d (n - k) = S754_finite false m e) then (d, k)
      else shortest f m e n (k + 1)
  end.

Fixpoint zeros (n : nat) : string := match n with O => "" | S n' => String "0" (zeros n') end.

Definition format_digits (ds : string) (k n : Z) : string :=
  if (k <=? n) && (n <=? 21) then ds +:+ zeros (Z.to_nat (n - k))
  else if (0 <? n) && (n <=? 21) then
    String.substring 0 (Z.to_nat n) ds +:+ "." +:+ String.substring (Z.to_nat n) (Z.to_nat (k - n)) ds
  else if (-6 <? n) && (n <=? 0) then "0." +:+ zeros (Z.to_nat (- n)) +:+ ds
  else
    let ex := (if 0 <=? n - 1 then "+" else "-") +:+ dec_of_Z (Z.abs (n - 1)) in
    if k =? 1 then ds +:+ "e" +:+ ex
    else String.substring 0 1 ds +:+ "." +:+ String.substring 1 (Z.to_nat (k - 1)) ds +:+ "e" +:+ ex.

Definition num_to_string (x : num) : string :=
  match x with
  | S754_nan => "NaN"
  | S754_zero _ => "0"
  | S754_infinity s => (if s then "-" else "") +:+ "Infinity"
  | S754_finite s m e =>
      match num_to_Z x with
      | Some z => if Z.abs z <? 2 ^ 53 then dec_of_Z z else
                    let n := dec_exponent 700 (Z.pos m) e (-330) in
                    let '(d, k) := shortest 17 m e n 1 in
                    (if s then "-" else "") +:+ format_digits (dec_of_N d) k n
      | None =>
          let n := dec_exponent 700 (Z.pos m) e (-330) in
          let '(d, k) := shortest 17 m e n 1 in
          (if s then "-" else "") +:+ format_digits (dec_of_N d) k n
      end
  end.

Lemma num_to_string_safe z : safe z → num_to_string (num_of_Z z) = dec_of_Z z.
Proof.
  intros Hs. pose proof (num_to_of_Z z Hs) as Hz. rewrite num_of_Z_safe in * by done.
  case_decide as H0; [by subst|]. unfold num_to_string. rewrite Hz.
  unfold safe in Hs. by rewrite (proj2 (Z.ltb_lt _ _)) by lia.
Qed.

Lemma num_of_decimal_int neg p :
  num_of_decimal neg (Npos p) 0 = num_of_Z (if neg then Z.neg p else Z.pos p).
Proof. unfold num_of_decimal, num_of_Z. cbn. rewrite Pos.mul_1_r. by destruct neg. Qed.

(** Sanity checks of the rounding and printing on doubles that are not safe
    integers. *)
Example num_tenth : num_to_string (num_of_decimal false 1 (-1)) = "0.1".
Proof. vm_compute. reflexivity. Qed.
Example num_sum : num_to_string (num_add (num_of_decimal false 1 (-1)) (num_of_decimal false 2 (-1)))
  = "0.30000000000000004".
Proof. vm_compute. reflexivity. Qed.
Example num_timestamp : num_to_string (num_of_Z 13073649717331811) = "13073649717331812".
Proof. vm_compute. reflexivity. Qed.
Example num_big : num_to_string (num_of_decimal true 12345 20) = "-1.2345e+24".
Proof. vm_compute. reflexivity. Qed.
Example num_small : num_to_string (num_of_decimal false 5 (-324)) = "5e-324".
Proof. vm_compute. reflexivity. Qed.
