(* ===== verification/JSValue.v ===== *)
(** * JavaScript values

    The value type of the language as the modelled programs use it, and the
    abstract operations of the language on it: property order, [typeof],
    truthiness, property access with its [TypeError] on [undefined] and [null],
    conversion to strings and numbers, [+] and [==].

    Objects are trees: an object is its list of own enumerable properties in
    enumeration order.  Strings hold code units below 256.  Two objects
    compared with [==] are taken to be distinct, which holds wherever the
    modelled programs compare values parsed from different texts. *)

From Stdlib Require Import SpecFloat.
From S2P Require Import Prelude JSNum.

(** ** Property lists

    Own properties enumerate in the order of the language: array indices
    ascending, then the other names in order of creation. *)

Definition index_of (k : string) : option N :=
  match N_of_dec k with
  | Some n => if String.eqb (dec_of_N n) k && (n <? 2 ^ 32 - 1)%N then Some n else None
  | None => None
  end.

Section props.
Context {V : Type}.
Implicit Types (ps : list (string * V)) (v : V).

Fixpoint insert_index (n : N) (k : string) v ps : list (string * V) :=
  match ps with
  | [] => [(k, v)]
  | (k', v') :: ps' =>
      match index_of k' with
      | Some m => if (m <? n)%N then (k', v') :: insert_index n k v ps' else (k, v) :: ps
      | None => (k, v) :: ps
      end
  end.

Definition prop_put (k : string) v ps : list (string * V) :=
  match assoc k ps with
  | Some _ => assoc_update k v ps
  | None => match index_of k with
            | Some n => insert_index n k v ps
            | None => ps ++ [(k, v)]
            end
  end.

(** A key that enumerates after all of [ks]. *)
Definition appends (ks : list string) (k : string) : bool :=
  bool_decide (k ∉ ks) &&
  match index_of k with
  | None => true
  | Some n => forallb (λ k', match index_of k' with Some m => (m <? n)%N | None => false end) ks
  end.

Fixpoint canonical_from (ks : list string) (l : list string) : bool :=
  match l with
  | [] => true
  | k :: l' => appends ks k && canonical_from (ks ++ [k]) l'
  end.

Lemma assoc_insert_index n k k' v ps :
  assoc k ps = None →
  assoc k' (insert_index n k v ps) = if String.eqb k' k then Some v else assoc k' ps.
Proof.
  induction ps as [|[k'' v''] ps IH]; csimpl; [done|].
  destruct (String.eqb k k'') eqn:E; [done|]. intros Hk. specialize (IH Hk).
  destruct (index_of k'') as [m|]; [|done]. destruct (m <? n)%N; [|done].
  csimpl. rewrite IH. destruct (String.eqb k' k'') eqn:E'; [|done].
  bool_prop. subst. destruct (String.eqb k'' k) eqn:E''; bool_prop; congruence.
Qed.

Lemma assoc_prop_put k k' v ps :
  assoc k' (prop_put k v ps) = if String.eqb k' k then Some v else assoc k' ps.
Proof.
  unfold prop_put. destruct (assoc k ps) eqn:E.
  - destruct (String.eqb k' k) eqn:E'; bool_prop; subst.
    + by rewrite assoc_update_eq, E.
    + by rewrite assoc_update_ne.
  - destruct (index_of k) as [n|]; [by apply assoc_insert_index|].
    rewrite assoc_app. csimpl. destruct (String.eqb k' k) eqn:E'; bool_prop; subst.
    + by rewrite E.
    + by destruct (assoc k' ps).
Qed.

Lemma insert_index_last n k v ps :
  forallb (λ k', match index_of k' with Some m => (m <? n)%N | None => false end) ps.*1 = true →
  insert_index n k v ps = ps ++ [(k, v)].
Proof.
  induction ps as [|[k' v'] ps IH]; csimpl; [done|]. intros H. apply andb_true_iff in H as [H1 H2].
  destruct (index_of k') as [m|]; [|done]. rewrite H1. f_equal. by apply IH.
Qed.

Lemma prop_put_appends k v ps : appends ps.*1 k = true → prop_put k v ps = ps ++ [(k, v)].
Proof.
  unfold appends, prop_put. intros H. apply andb_true_iff in H as [Hn Hi].
  apply bool_decide_eq_true in Hn. rewrite (proj2 (assoc_None k ps)) by done.
  destruct (index_of k); [|done]. by apply insert_index_last.
Qed.

Lemma insert_index_perm n k v ps : insert_index n k v ps ≡ₚ (k, v) :: ps.
Proof.
  induction ps as [|[k' v'] ps IH]; csimpl; [done|].
  destruct (index_of k') as [m|]; [|done]. destruct (m <? n)%N; [|done].
  rewrite IH. apply Permutation_swap.
Qed.

Lemma prop_put_NoDup k v ps : NoDup ps.*1 → NoDup (prop_put k v ps).*1.
Proof.
  intros Hnd. unfold prop_put. destruct (assoc k ps) eqn:E; [by rewrite assoc_update_keys|].
  apply assoc_None in E. destruct (index_of k).
  - rewrite insert_index_perm. csimpl. by constructor.
  - rewrite fmap_app. csimpl. apply NoDup_app. split_and!; [done|set_solver|apply NoDup_singleton].
Qed.

Lemma canonical_from_NoDup ks l : NoDup ks → canonical_from ks l = true → NoDup (ks ++ l).
Proof.
  revert ks. induction l as [|k l IH]; intros ks Hk; simpl.
  - by rewrite app_nil_r.
  - intros H. apply andb_true_iff in H as [Ha Hl]. unfold appends in Ha.
    apply andb_true_iff in Ha as [Ha _]. apply bool_decide_eq_true in Ha.
    replace (ks ++ k :: l) with ((ks ++ [k]) ++ l) by (rewrite <-app_assoc; done).
    apply IH; [|done]. apply NoDup_app. split_and!; [done|set_solver|apply NoDup_singleton].
Qed.
End props.

(** ** Values *)

Unset Elimination Schemes.
Inductive value :=
| VUndef
| VNull
| VBool (b : bool)
| VNum (n : num)
| VStr (s : string)
| VFun (name : string)                            (* a built-in function object *)
| VObj (arr : bool) (ps : list (string * value)). (* [arr]: created as an array *)
Set Elimination Schemes.

Section value_ind.
Context (P : value → Prop).
Context (Hundef : P VUndef) (Hnull : P VNull) (Hbool : ∀ b, P (VBool b)) (Hnum : ∀ n, P (VNum n))
        (Hstr : ∀ s, P (VStr s)) (Hfun : ∀ f, P (VFun f))
        (Hobj : ∀ arr ps, Forall (λ kv, P kv.2) ps → P (VObj arr ps)).

Definition value_ind : ∀ v, P v :=
  fix go v :=
    match v with
    | VUndef => Hundef
    | VNull => Hnull
    | VBool b => Hbool b
    | VNum n => Hnum n
    | VStr s => Hstr s
    | VFun f => Hfun f
    | VObj arr ps =>
        Hobj arr ps ((fix gol l : Forall (λ kv, P kv.2) l :=
          match l with
          | [] => List.Forall_nil _
          | kv :: l' => List.Forall_cons _ _ _ (go kv.2) (gol l')
          end) ps)
    end.
End value_ind.

Definition empty_object : value := VObj false [].
Definition VInt (z : Z) : value := VNum (num_of_Z z).

Definition typeof (v : value) : string :=
  match v with
  | VUndef => "undefined"
  | VNull => "object"
  | VBool _ => "boolean"
  | VNum _ => "number"
  | VStr _ => "string"
  | VFun _ => "function"
  | VObj _ _ => "object"
  end.

Definition truthy (v : value) : bool :=
  match v with
  | VUndef | VNull => false
  | VBool b => b
  | VNum n => negb (is_NaN n || num_eqb n (S754_zero false))
  | VStr s => negb (String.eqb s "")
  | VFun _ | VObj _ _ => true
  end.

(** The names every object inherits from [Object.prototype] ([__proto__],
    which is not a function, is left out: no modelled text uses it). *)
Definition object_proto : list string :=
  ["constructor"; "toString"; "toLocaleString"; "valueOf"; "hasOwnProperty";
   "isPrototypeOf"; "propertyIsEnumerable";
   "__defineGetter__"; "__defineSetter__"; "__lookupGetter__"; "__lookupSetter__"].

Definition inherited (k : string) : value :=
  if bool_decide (k ∈ object_proto) then VFun k else VUndef.

Definition arr_len {V} (ps : list (string * V)) : N :=
  fold_right (λ kv n, match index_of kv.1 with Some i => N.max (i + 1) n | None => n end) 0%N ps.

(** [v[k]] *)
Definition get (v : value) (k : string) : res value :=
  match v with
  | VUndef | VNull => Throw TypeError
  | VObj arr ps =>
      Ret (match assoc k ps with
           | Some w => w
           | None => if arr && String.eqb k "length" then VNum (num_of_Z (Z.of_N (arr_len ps)))
                     else inherited k
           end)
  | VStr s =>
      Ret (if String.eqb k "length" then VInt (Z.of_nat (String.length s))
           else match index_of k with
                | Some i => match String.get (N.to_nat i) s with
                            | Some c => VStr (String c EmptyString)
                            | None => VUndef
                            end
                | None => inherited k
                end)
  | VBool _ | VNum _ | VFun _ => Ret (inherited k)
  end.

(** [v[k] = w] for a base that is neither [undefined] nor [null]; assignment
    to a property of a primitive is silently ignored in sloppy mode. *)
Definition put (v : value) (k : string) (w : value) : value :=
  match v with
  | VObj arr ps => VObj arr (prop_put k w ps)
  | _ => v
  end.

(** Write back a child object that was mutated in place. *)
Definition put_back (v : value) (k : string) (w : value) : value :=
  match v with
  | VObj arr ps => VObj arr (assoc_update k w ps)
  | _ => v
  end.

(** ** Conversions *)

Definition fun_source (name : string) : string := "function " +:+ name +:+ "() { [native code] }".

Fixpoint join (sep : string) (l : list string) : string :=
  match l with
  | [] => ""
  | [s] => s
  | s :: l' => s +:+ sep +:+ join sep l'
  end.
Lemma split_char_join c l : l ≠ [] → Forall (λ s, str_forallb (λ a, negb (Ascii.eqb a c)) s = true) l →
  split_char c (join (String c "") l) = l.
Proof.
  intros Hne H. induction H as [|s l Hs Hl IH]; [done|]. destruct l as [|s' l].
  - cbn [join]. clear -Hs. induction s as [|a s IH]; [done|]. cbn [str_forallb split_char] in *.
    apply andb_true_iff in Hs as [Ha Hs]. apply negb_true_iff in Ha. by rewrite Ha, IH.
  - change (join (String c "") (s :: s' :: l)) with (s +:+ String c "" +:+ join (String c "") (s' :: l)).
    cbn [append]. rewrite split_char_line by done. by rewrite IH.
Qed.

Fixpoint repeat_str (s : string) (n : nat) : string :=
  match n with O => "" | S n' => s +:+ repeat_str s n' end.

(** ToString; an array joins its elements, holes and [null] reading as empty,
    and a plain object whose own [toString] is data has no string. *)
Fixpoint to_string (v : value) : res string :=
  match v with
  | VUndef => Ret "undefined"
  | VNull => Ret "null"
  | VBool b => Ret (if b then "true" else "false")
  | VNum n => Ret (num_to_string n)
  | VStr s => Ret s
  | VFun f => Ret (fun_source f)
  | VObj false ps => match assoc "toString" ps with
                     | Some _ => Throw TypeError
                     | None => Ret "[object Object]"
                     end
  | VObj true ps =>
      (fix elems (i : N) (l : list (string * value)) : res string :=
        match l with
        | [] => Ret ""
        | (k, w) :: l' =>
            match index_of k with
            | None => Ret ""
            | Some j =>
                s ← match w with VUndef | VNull => Ret "" | _ => to_string w end;
                rest ← elems (j + 1)%N l';
                let commas := if (i =? 0)%N && (j =? 0)%N then O
                              else N.to_nat (j - i + if (i =? 0)%N then 0 else 1)%N in
                Ret (repeat_str "," commas +:+ s +:+ rest)
            end
        end) 0%N ps
  end.

Definition is_space (c : ascii) : bool :=
  let n := N_of_ascii c in
  (n =? 32)%N || ((9 <=? n)%N && (n <=? 13)%N) || (n =? 160)%N.

Fixpoint ltrim (s : string) : string :=
  match s with
  | String c s' => if is_space c then ltrim s' else s
  | EmptyString => s
  end.

Fixpoint rtrim (s : string) : string :=
  match s with
  | EmptyString => EmptyString
  | String c s' => match rtrim s' with
                   | EmptyString => if is_space c then EmptyString else String c EmptyString
                   | t => String c t
                   end
  end.

(** The words of a text: [s.match(/\S+/g)]. *)
Fixpoint words_from (cur : string) (s : string) : list string :=
  match s with
  | EmptyString => if String.eqb cur "" then [] else [cur]
  | String c s' =>
      if is_space c then (if String.eqb cur "" then [] else [cur]) ++ words_from "" s'
      else words_from (cur +:+ String c "") s'
  end.

(** The longest prefix of digits, and the rest. *)
Fixpoint span_digits (s : string) : string * string :=
  match s with
  | String c s' => if is_digit c then let '(d, r) := span_digits s' in (String c d, r) else ("", s)
  | EmptyString => ("", s)
  end.

(** An optional exponent part [e[+-]ddd]; nothing is consumed if it is malformed. *)
Definition scan_exponent (s : string) : Z * string :=
  match s with
  | String c s' =>
      if (Ascii.eqb c "e" || Ascii.eqb c "E")%bool then
        let '(neg, t) := match s' with
                         | String "-" t => (true, t)
                         | String "+" t => (false, t)
                         | t => (false, t)
                         end in
        let '(d, r) := span_digits t in
        match N_of_dec d with
        | Some n => ((if neg then - Z.of_N n else Z.of_N n)%Z, r)
        | None => (0%Z, s)
        end
      else (0%Z, s)
  | EmptyString => (0%Z, s)
  end.

Definition nat_of_digits (d : string) : N := match N_of_dec d with Some n => n | None => 0%N end.

(** StringNumericLiteral, for Number(s): decimal, hexadecimal and Infinity. *)
Fixpoint hex_value (acc : N) (s : string) : option N :=
  match s with
  | EmptyString => Some acc
  | String c s' => match hex_digit_value c with Some d => hex_value (16 * acc + d)%N s' | None => None end
  end.

Definition unsigned_decimal (neg : bool) (s : string) : num :=
  if String.eqb s "Infinity" then S754_infinity neg else
  let '(i, r) := span_digits s in
  let '(f, r') := match r with
                  | String "." t => span_digits t
                  | _ => ("", r)
                  end in
  if String.eqb i "" && String.eqb f "" then NaN else
  let '(e, r'') := scan_exponent r' in
  if String.eqb r'' "" then
    num_of_decimal neg (nat_of_digits (i +:+ f)) (e - Z.of_nat (String.length f))
  else NaN.

Definition string_to_num (s : string) : num :=
  match rtrim (ltrim s) with
  | EmptyString => S754_zero false
  | String "0" (String "x" (String c h)) | String "0" (String "X" (String c h)) =>
      match hex_value 0 (String c h) with Some n => num_of_Z (Z.of_N n) | None => NaN end
  | String "-" t => unsigned_decimal true t
  | String "+" t => unsigned_decimal false t
  | t => unsigned_decimal false t
  end.

Definition to_primitive (v : value) : res value :=
  match v with
  | VObj _ _ | VFun _ => s ← to_string v; Ret (VStr s)
  | _ => Ret v
  end.

Definition prim_to_num (v : value) : num :=
  match v with
  | VNull => S754_zero false
  | VBool b => num_of_Z (if b then 1 else 0)
  | VNum n => n
  | VStr s => string_to_num s
  | _ => NaN
  end.

(** [a + b] *)
Definition js_add (a b : value) : res value :=
  pa ← to_primitive a;
  pb ← to_primitive b;
  match pa, pb with
  | VStr _, _ | _, VStr _ =>
      sa ← to_string pa; sb ← to_string pb; Ret (VStr (sa +:+ sb))
  | _, _ => Ret (VNum (num_add (prim_to_num pa) (prim_to_num pb)))
  end.

(** [a - b] *)
Definition js_sub (a b : value) : res value :=
  pa ← to_primitive a;
  pb ← to_primitive b;
  Ret (VNum (num_sub (prim_to_num pa) (prim_to_num pb))).

(** [a == b] on values that are not both objects, by the steps of the
    abstract equality comparison. *)
Definition prim_loose_eq (a b : value) : bool :=
  match a, b with
  | (VUndef | VNull), (VUndef | VNull) => true
  | (VUndef | VNull), _ | _, (VUndef | VNull) => false
  | VStr s, VStr t => String.eqb s t
  | VBool x, VBool y => Bool.eqb x y
  | _, _ => num_eqb (prim_to_num a) (prim_to_num b)
  end.

Definition loose_eq (a b : value) : res bool :=
  match a, b with
  | (VObj _ _ | VFun _), (VObj _ _ | VFun _) => Ret false
  | (VObj _ _ | VFun _), (VUndef | VNull) | (VUndef | VNull), (VObj _ _ | VFun _) => Ret false
  | _, _ => pa ← to_primitive a; pb ← to_primitive b; Ret (prim_loose_eq pa pb)
  end.

(** ** Facts shared by the components *)

Lemma get_put_eq arr ps k w : get (put (VObj arr ps) k w) k = Ret w.
Proof. simpl. by rewrite assoc_prop_put, String.eqb_refl. Qed.

Lemma truthy_VInt z : safe z → truthy (VInt z) = negb (z =? 0)%Z.
Proof.
  intros Hs. unfold truthy, VInt. f_equal.
  change (S754_zero false) with (num_of_Z 0). rewrite num_eqb_safe by (done || by vm_compute).
  rewrite num_of_Z_safe by done. case_decide; subst; simpl; [done|].
  by rewrite (proj2 (Z.eqb_neq z 0)).
Qed.

Lemma js_add_VInt a b : safe a → safe b → safe (a + b)%Z → js_add (VInt a) (VInt b) = Ret (VInt (a + b)).
Proof. intros. unfold js_add, VInt. simpl. by rewrite num_add_safe. Qed.

Lemma loose_eq_VInt a b : safe a → safe b → loose_eq (VInt a) (VInt b) = Ret (a =? b)%Z.
Proof. intros. unfold loose_eq, VInt. simpl. by rewrite num_eqb_safe. Qed.

Example to_string_array : to_string (VObj true [("0", VInt 1); ("1", VNull); ("2", VInt 3)]) = Ret "1,,3".
Proof. vm_compute. reflexivity. Qed.
Example loose_eq_string_number : loose_eq (VStr "0") (VInt 0) = Ret true.
Proof. vm_compute. reflexivity. Qed.
Example string_to_num_abc : string_to_num "abc" = NaN.
Proof. vm_compute. reflexivity. Qed.
