(* ===== verification/JSON.v ===== *)
(** * JSON.parse and JSON.stringify

    The two functions of the language the monitor uses to write its log and
    to read it back, on the values of [JSValue].  [parse] runs on fuel; twice
    the length of the text plus two is enough ([parse_fuel_enough]).  The main
    facts are the round trip on well-formed documents ([parse_stringify]) and
    that a printed document holds no newline ([stringify_no_newline]), which
    together make a file of printed lines readable line by line. *)

From Stdlib Require Import SpecFloat DecimalFacts.
From S2P Require Import Prelude JSNum JSValue.

(** ** Printing *)

Definition hex_char (n : N) : ascii :=
  if (n <? 10)%N then ascii_of_N (48 + n) else ascii_of_N (87 + n).

Definition dquote : ascii := "034".
Definition backslash : ascii := "092".

Definition esc_char (c : ascii) : string :=
  let n := N_of_ascii c in
  if (n =? 34)%N then String backslash (String dquote "")
  else if (n =? 92)%N then String backslash (String backslash "")
  else if (n =? 8)%N then String backslash "b"
  else if (n =? 12)%N then String backslash "f"
  else if (n =? 10)%N then String backslash "n"
  else if (n =? 13)%N then String backslash "r"
  else if (n =? 9)%N then String backslash "t"
  else if (n <? 32)%N then
    String backslash ("u00" +:+ String (hex_char (n / 16)) (String (hex_char (n mod 16)) ""))
  else String c "".

Fixpoint escape (s : string) : string :=
  match s with
  | EmptyString => ""
  | String c s' => esc_char c +:+ escape s'
  end.

Definition quote (s : string) : string := String dquote (escape s +:+ String dquote "").

Definition finite (n : num) : bool :=
  match n with S754_zero _ | S754_finite _ _ _ => true | _ => false end.

Definition or_null (o : option string) : string := match o with Some s => s | None => "null" end.

(** [undefined] and functions have no JSON text; they vanish as members and
    print as [null] as array elements, like the holes of an array. *)
Fixpoint stringify (v : value) : option string :=
  match v with
  | VUndef | VFun _ => None
  | VNull => Some "null"
  | VBool b => Some (if b then "true" else "false")
  | VNum n => Some (if finite n then num_to_string n else "null")
  | VStr s => Some (quote s)
  | VObj false ps =>
      let members :=
        (fix go (l : list (string * value)) : list string :=
          match l with
          | [] => []
          | (k, w) :: l' => match stringify w with
                            | Some t => (quote k +:+ ":" +:+ t) :: go l'
                            | None => go l'
                            end
          end) ps in
      Some ("{" +:+ join "," members +:+ "}")
  | VObj true ps =>
      let elems :=
        (fix go (i : N) (l : list (string * value)) : list string :=
          match l with
          | [] => []
          | (k, w) :: l' =>
              match index_of k with
              | Some j => replicate (N.to_nat (j - i)) "null" ++ or_null (stringify w) :: go (j + 1)%N l'
              | None => []
              end
          end) 0%N ps in
      Some ("[" +:+ join "," elems +:+ "]")
  end.

(** ** Reading *)

Definition is_ws (c : ascii) : bool :=
  let n := N_of_ascii c in (n =? 32)%N || (n =? 9)%N || (n =? 10)%N || (n =? 13)%N.

Fixpoint skip_ws (s : string) : string :=
  match s with
  | String c s' => if is_ws c then skip_ws s' else s
  | EmptyString => s
  end.

(** The characters of a string literal up to its closing quote.  An escape
    above [u00ff] denotes a code unit outside the modelled strings. *)
Fixpoint parse_chars (s : string) : option (string * string) :=
  match s with
  | EmptyString => None
  | String "034" r => Some ("", r)
  | String "092" (String e r) =>
      if Ascii.eqb e "u" then
        match r with
        | String a (String b (String c (String d r'))) =>
            match hex_value 0 (String a (String b (String c (String d "")))) with
            | Some n => if (n <? 256)%N then
                          match parse_chars r' with
                          | Some (t, q) => Some (String (ascii_of_N n) t, q)
                          | None => None
                          end
                        else None
            | None => None
            end
        | _ => None
        end
      else
        match
          (if Ascii.eqb e dquote then Some dquote
           else if Ascii.eqb e backslash then Some backslash
           else if Ascii.eqb e "/" then Some "/"%char
           else if Ascii.eqb e "b" then Some "008"%char
           else if Ascii.eqb e "f" then Some "012"%char
           else if Ascii.eqb e "n" then Some "010"%char
           else if Ascii.eqb e "r" then Some "013"%char
           else if Ascii.eqb e "t" then Some "009"%char
           else None)
        with
        | Some x => match parse_chars r with
                    | Some (t, q) => Some (String x t, q)
                    | None => None
                    end
        | None => None
        end
  | String c r =>
      if (N_of_ascii c <? 32)%N then None
      else match parse_chars r with
           | Some (t, q) => Some (String c t, q)
           | None => None
           end
  end.

Definition leading_zero (i : string) : bool :=
  match i with
  | String "0" (String _ _) => true
  | _ => false
  end.

Definition parse_number (s : string) : option (num * string) :=
  let '(neg, t) := match s with String "-" t => (true, t) | _ => (false, s) end in
  let '(i, r) := span_digits t in
  if String.eqb i "" || leading_zero i then None else
  let frac := match r with
              | String "." t' => let '(f, r') := span_digits t' in
                                 if String.eqb f "" then None else Some (f, r')
              | _ => Some ("", r)
              end in
  match frac with
  | None => None
  | Some (f, r') =>
      let '(e, r'') := scan_exponent r' in
      Some (num_of_decimal neg (nat_of_digits (i +:+ f)) (e - Z.of_nat (String.length f)), r'')
  end.

Definition parse_word (w : string) (v : value) (s : string) : option (value * string) :=
  if String.prefix w s
  then Some (v, String.substring (String.length w) (String.length s - String.length w) s)
  else None.

Definition index_props (vs : list value) : list (string * value) :=
  imap (λ i v, (dec_of_N (N.of_nat i), v)) vs.

Fixpoint parse_value (fuel : nat) (s : string) : option (value * string) :=
  match fuel with
  | O => None
  | S f =>
      match skip_ws s with
      | EmptyString => None
      | String c r =>
          if Ascii.eqb c dquote then
            match parse_chars r with Some (t, q) => Some (VStr t, q) | None => None end
          else if Ascii.eqb c "{" then
            match skip_ws r with
            | String "}" q => Some (VObj false [], q)
            | r' => parse_members f [] r'
            end
          else if Ascii.eqb c "[" then
            match skip_ws r with
            | String "]" q => Some (VObj true [], q)
            | r' => parse_elements f [] r'
            end
          else if Ascii.eqb c "t" then parse_word "true" (VBool true) (String c r)
          else if Ascii.eqb c "f" then parse_word "false" (VBool false) (String c r)
          else if Ascii.eqb c "n" then parse_word "null" VNull (String c r)
          else match parse_number (String c r) with
               | Some (n, q) => Some (VNum n, q)
               | None => None
               end
      end
  end
with parse_members (fuel : nat) (acc : list (string * value)) (s : string) : option (value * string) :=
  match fuel with
  | O => None
  | S f =>
      match skip_ws s with
      | String "034" r =>
          match parse_chars r with
          | Some (k, q) =>
              match skip_ws q with
              | String ":" q' =>
                  match parse_value f q' with
                  | Some (v, u) =>
                      match skip_ws u with
                      | String "," u' => parse_members f (prop_put k v acc) u'
                      | String "}" u' => Some (VObj false (prop_put k v acc), u')
                      | _ => None
                      end
                  | None => None
                  end
              | _ => None
              end
          | None => None
          end
      | _ => None
      end
  end
with parse_elements (fuel : nat) (acc : list value) (s : string) : option (value * string) :=
  match fuel with
  | O => None
  | S f =>
      match parse_value f s with
      | Some (v, u) =>
          match skip_ws u with
          | String "," u' => parse_elements f (acc ++ [v]) u'
          | String "]" u' => Some (VObj true (index_props (acc ++ [v])), u')
          | _ => None
          end
      | None => None
      end
  end.

(** JSON.parse: a SyntaxError is [None]. *)
Definition parse (s : string) : option value :=
  match parse_value (2 * String.length s + 2) s with
  | Some (v, r) => if String.eqb (skip_ws r) "" then Some v else None
  | None => None
  end.

Example parse_ex1 :
  parse ("{" +:+ quote "b" +:+ ": [1, -2.5e1, true], " +:+ quote "0" +:+ ":null}") =
  Some (VObj false [("0", VNull); ("b", VObj true [("0", VInt 1); ("1", VInt (-25)); ("2", VBool true)])]).
Proof. vm_compute. reflexivity. Qed.

(** ** Well-formed documents: what [parse] itself builds, with numbers that
    are safe integers. *)

Definition safe_num (n : num) : bool :=
  match num_to_Z n with
  | Some z => bool_decide (safe z) && bool_decide (n = num_of_Z z)
  | None => false
  end.

Definition array_keys (ks : list string) : bool :=
  bool_decide (ks = (λ i, dec_of_N (N.of_nat i)) <$> seq 0 (length ks)) &&
  (N.of_nat (length ks) <? 2 ^ 32 - 1)%N.

Fixpoint wf_json (v : value) : bool :=
  match v with
  | VUndef | VFun _ => false
  | VNull | VBool _ | VStr _ => true
  | VNum n => safe_num n
  | VObj arr ps =>
      (if arr then array_keys ps.*1 else canonical_from [] ps.*1) &&
      forallb (λ kv, wf_json kv.2) ps
  end.

Lemma safe_num_inv n : safe_num n = true → ∃ z, safe z ∧ n = num_of_Z z.
Proof.
  unfold safe_num. destruct (num_to_Z n) as [z|]; [|done]. intros H. bool_prop.
  exists z. split; by eapply bool_decide_eq_true.
Qed.

Lemma safe_num_VInt z : safe z → safe_num (num_of_Z z) = true.
Proof.
  intros Hz. unfold safe_num. rewrite num_to_of_Z by done. by rewrite !bool_decide_eq_true_2.
Qed.

(** ** Tokens *)

Lemma parse_chars_esc c t :
  parse_chars (esc_char c +:+ t) =
    match parse_chars t with Some (s, q) => Some (String c s, q) | None => None end.
Proof. destruct c as [[] [] [] [] [] [] [] []]; reflexivity. Qed.

Lemma parse_chars_escape s t : parse_chars (escape s +:+ String dquote t) = Some (s, t).
Proof.
  induction s as [|c s IH]; simpl; [done|].
  by rewrite str_app_assoc, parse_chars_esc, IH.
Qed.

(** What may follow a token: the end of the text, or a separator. *)
Definition stops (r : string) : bool :=
  match r with
  | EmptyString => true
  | String c _ => Ascii.eqb c "," || Ascii.eqb c "}" || Ascii.eqb c "]"
  end.

Lemma span_digits_app d r :
  str_forallb is_digit d = true → stops r = true → span_digits (d +:+ r) = (d, r).
Proof.
  intros Hd Hr. induction d as [|c d IH]; simpl in *.
  - destruct r as [|c r]; simpl; [done|]. simpl in Hr.
    destruct (is_digit c) eqn:E; [|done].
    apply orb_true_iff in Hr as [Hr|Hr]; [apply orb_true_iff in Hr as [Hr|Hr]|];
      apply Ascii.eqb_eq in Hr; subst; done.
  - apply andb_true_iff in Hd as [Hc Hd]. rewrite Hc, IH by done. done.
Qed.

Lemma stops_cases r :
  stops r = true → r = "" ∨ ∃ r', r = String "," r' ∨ r = String "}" r' ∨ r = String "]" r'.
Proof.
  destruct r as [|c r]; [by left|]. simpl. intros H. right. exists r.
  apply orb_true_iff in H as [H|H]; [apply orb_true_iff in H as [H|H]|];
    apply Ascii.eqb_eq in H; subst; eauto.
Qed.

Lemma dec_of_N_no_leading_zero n : leading_zero (dec_of_N n) = false.
Proof.
  unfold dec_of_N. pose proof (DecimalN.Unsigned.to_of (N.to_uint n)) as H.
  rewrite DecimalN.Unsigned.of_to in H. rewrite H. unfold Decimal.unorm.
  destruct (Decimal.nzhead (N.to_uint n)) eqn:E; try done.
  exfalso. by apply nzhead_nonzero in E.
Qed.

Lemma nat_of_digits_dec n : nat_of_digits (dec_of_N n) = n.
Proof. unfold nat_of_digits. by rewrite N_of_dec_of_N. Qed.

Lemma parse_number_unsigned neg p r :
  stops r = true →
  (let '(i, q) := span_digits (dec_of_N (Npos p) +:+ r) in
   if String.eqb i "" || leading_zero i then None else
   match (match q with
          | String "." t' => let '(f, r') := span_digits t' in
                             if String.eqb f "" then None else Some (f, r')
          | _ => Some ("", q)
          end) with
   | None => None
   | Some (f, r') =>
       let '(e, r'') := scan_exponent r' in
       Some (num_of_decimal neg (nat_of_digits (i +:+ f)) (e - Z.of_nat (String.length f)), r'')
   end) = Some (num_of_Z (if neg then Z.neg p else Z.pos p), r).
Proof.
  intros Hr. rewrite span_digits_app by (done || apply digits_dec_of_N).
  rewrite dec_of_N_no_leading_zero.
  replace (String.eqb (dec_of_N (N.pos p)) "") with false
    by (symmetry; apply String.eqb_neq, dec_of_N_nonempty).
  assert (Some (num_of_decimal neg (nat_of_digits (dec_of_N (N.pos p) +:+ "")) 0, r) =
          Some (num_of_Z (if neg then Z.neg p else Z.pos p), r)) as <-.
  { by rewrite str_app_nil_r, nat_of_digits_dec, num_of_decimal_int. }
  destruct (stops_cases r Hr) as [->|(r' & [->|[->| ->]])]; reflexivity.
Qed.

Lemma parse_number_dec z r : stops r = true → parse_number (dec_of_Z z +:+ r) = Some (num_of_Z z, r).
Proof.
  intros Hr. unfold parse_number. destruct z as [|p|p].
  - destruct (stops_cases r Hr) as [->|(r' & [->|[->| ->]])]; reflexivity.
  - rewrite <-(parse_number_unsigned false p r Hr).
    pose proof (digits_dec_of_N (Npos p)) as Hd. pose proof (dec_of_N_nonempty (Npos p)) as Hn.
    cbn [dec_of_Z]. destruct (dec_of_N (Npos p)) as [|c d] eqn:E; [done|].
    destruct (Ascii.eqb_spec c "-") as [->|Hc]; [done|].
    cbn [append]. destruct c as [[] [] [] [] [] [] [] []]; try reflexivity. done.
  - rewrite <-(parse_number_unsigned true p r Hr). reflexivity.
Qed.

Lemma parse_word_app w v r : parse_word w v (w +:+ r) = Some (v, r).
Proof.
  unfold parse_word.
  assert (String.prefix w (w +:+ r) = true) as ->.
  { induction w as [|c w IH]; simpl; [by destruct r|]. by destruct (ascii_dec c c). }
  do 2 f_equal. rewrite str_length_app, Nat.add_comm, Nat.add_sub.
  induction w as [|c w IH]; simpl; [|done].
  induction r as [|c r IH]; simpl; [done|]. by rewrite IH.
Qed.

(** ** The members and the elements of a printed document *)

Fixpoint members_of (l : list (string * value)) : list string :=
  match l with
  | [] => []
  | (k, w) :: l' => match stringify w with
                    | Some t => (quote k +:+ ":" +:+ t) :: members_of l'
                    | None => members_of l'
                    end
  end.

Fixpoint elems_of (i : N) (l : list (string * value)) : list string :=
  match l with
  | [] => []
  | (k, w) :: l' =>
      match index_of k with
      | Some j => replicate (N.to_nat (j - i)) "null" ++ or_null (stringify w) :: elems_of (j + 1)%N l'
      | None => []
      end
  end.

Lemma stringify_object ps : stringify (VObj false ps) = Some ("{" +:+ join "," (members_of ps) +:+ "}").
Proof. reflexivity. Qed.

Lemma stringify_array ps : stringify (VObj true ps) = Some ("[" +:+ join "," (elems_of 0 ps) +:+ "]").
Proof. reflexivity. Qed.

Lemma index_of_dec n : (n < 2 ^ 32 - 1)%N → index_of (dec_of_N n) = Some n.
Proof.
  intros Hn. unfold index_of. rewrite N_of_dec_of_N, String.eqb_refl.
  by rewrite (proj2 (N.ltb_lt _ _)).
Qed.

Lemma elems_of_dense ps i :
  ps.*1 = (λ j, dec_of_N (N.of_nat j)) <$> seq i (length ps) →
  (N.of_nat (i + length ps) < 2 ^ 32 - 1)%N →
  elems_of (N.of_nat i) ps = (λ kv, or_null (stringify kv.2)) <$> ps.
Proof.
  revert i. induction ps as [|[k v] ps IH]; intros i Hk Hb; [done|].
  cbn [length seq] in *. csimpl in *. injection Hk as Hk1 Hk2.
  rewrite Hk1, index_of_dec by lia. rewrite N.sub_diag. simpl. f_equal.
  replace (N.of_nat i + 1)%N with (N.of_nat (S i)) by lia. apply IH; [done|lia].
Qed.

Lemma index_props_keys (ps : list (string * value)) :
  ps.*1 = (λ j, dec_of_N (N.of_nat j)) <$> seq 0 (length ps) → index_props ps.*2 = ps.
Proof.
  unfold index_props. intros H. apply list_eq. intros i.
  rewrite list_lookup_imap, list_lookup_fmap.
  destruct (ps !! i) as [[k v]|] eqn:E; simpl; [|done]. do 2 f_equal.
  assert (ps.*1 !! i = Some k) as Hk by (by rewrite list_lookup_fmap, E).
  rewrite H, list_lookup_fmap, lookup_seq_lt in Hk by (by eapply lookup_lt_Some).
  simpl in Hk. by simplify_eq.
Qed.

Lemma skip_ws_nonws c r : is_ws c = false → skip_ws (String c r) = String c r.
Proof. simpl. by intros ->. Qed.

(** A printed document starts with a character that is not blank. *)
Definition starts_ok (t : string) : bool :=
  match t with EmptyString => false | String c _ => negb (is_ws c) && negb (Ascii.eqb c "]") end.

Lemma skip_ws_starts t r : starts_ok t = true → skip_ws (t +:+ r) = t +:+ r.
Proof.
  destruct t as [|c t]; simpl; [done|]. intros H. bool_prop.
  by match goal with E : is_ws c = false |- _ => rewrite E end.
Qed.

Lemma dec_of_Z_head z :
  ∃ c d, dec_of_Z z = String c d ∧ (is_digit c = true ∨ c = "-"%char).
Proof.
  destruct z as [|p|p]; [by exists "0"%char, ""; auto| |by eexists "-"%char, _; auto].
  pose proof (digits_dec_of_N (Npos p)) as Hd. pose proof (dec_of_N_nonempty (Npos p)).
  cbn [dec_of_Z]. destruct (dec_of_N (Npos p)) as [|c d]; [done|].
  simpl in Hd. bool_prop. eauto.
Qed.

Lemma stringify_starts v t : wf_json v = true → stringify v = Some t → starts_ok t = true.
Proof.
  destruct v as [| |[]|n|s|f|[] ps]; simpl; intros Hw Ht; simplify_eq; try done.
  apply safe_num_inv in Hw as (z & Hz & ->).
  assert (finite (num_of_Z z) = true) as ->.
  { rewrite num_of_Z_safe by done. by case_decide. }
  rewrite num_to_string_safe by done. destruct (dec_of_Z_head z) as (c & d & -> & [Hc| ->]); [|done].
  simpl. destruct c as [[] [] [] [] [] [] [] []]; done.
Qed.

Lemma wf_stringify v : wf_json v = true → ∃ t, stringify v = Some t.
Proof. destruct v as [| |b|n|s|f|[] ps]; simpl; intros H; eauto; done. Qed.

(** ** The round trip *)

Definition reads_back (v : value) : Prop :=
  wf_json v = true → ∀ t f r, stringify v = Some t → stops r = true → 2 * String.length t ≤ f →
  parse_value f (t +:+ r) = Some (v, r).

Lemma join_cons2 sep s s' l : join sep (s :: s' :: l) = s +:+ sep +:+ join sep (s' :: l).
Proof. done. Qed.

Lemma join_1 sep s : join sep [s] = s.
Proof. done. Qed.

#[local] Arguments join sep l : simpl never.

(** Step over the separator the text starts with. *)
Ltac next_token := rewrite skip_ws_nonws by reflexivity; cbv beta iota delta [dquote]; try fold dquote.

Lemma parse_elements_ok vs : ∀ acc f r,
  vs ≠ [] → Forall reads_back vs → forallb wf_json vs = true →
  2 * String.length (join "," ((λ v, or_null (stringify v)) <$> vs)) + 1 ≤ f →
  parse_elements f acc (join "," ((λ v, or_null (stringify v)) <$> vs) +:+ String "]" r) =
    Some (VObj true (index_props (acc ++ vs)), r).
Proof.
  induction vs as [|v vs IH]; intros acc f r Hne Hrb Hwf Hf; [done|].
  apply Forall_cons in Hrb as [Hv Hvs]. simpl in Hwf. apply andb_true_iff in Hwf as [Wv Wvs].
  destruct (wf_stringify v Wv) as [t Ht].
  destruct f as [|f]; [lia|]. cbn [parse_elements]. csimpl in *. rewrite Ht in *. cbn [or_null] in *.
  destruct vs as [|v' vs'].
  - csimpl in *. rewrite join_1 in *. rewrite (Hv Wv t f (String "]" r) Ht) by (done || simpl in *; lia). done.
  - csimpl in *. rewrite join_cons2 in *. rewrite !str_app_assoc. rewrite !str_length_app in Hf. simpl in Hf.
    rewrite (Hv Wv t f) by (done || lia). cbn [append].
    next_token.
    rewrite (IH (acc ++ [v]) f r) by (done || lia). by rewrite <-app_assoc.
Qed.

Lemma parse_members_ok ps : ∀ acc f r,
  ps ≠ [] → Forall (λ kv, reads_back kv.2) ps → forallb (λ kv, wf_json kv.2) ps = true →
  canonical_from acc.*1 ps.*1 = true →
  2 * String.length (join "," (members_of ps)) + 1 ≤ f →
  parse_members f acc (join "," (members_of ps) +:+ String "}" r) = Some (VObj false (acc ++ ps), r).
Proof.
  induction ps as [|[k v] ps IH]; intros acc f r Hne Hrb Hwf Hcan Hf; [done|].
  apply Forall_cons in Hrb as [Hv Hvs]. simpl in Hwf. apply andb_true_iff in Hwf as [Wv Wvs].
  cbn [fmap list_fmap canonical_from fst] in Hcan. apply andb_true_iff in Hcan as [Hk Hcan].
  cbn [snd] in *. destruct (wf_stringify v Wv) as [t Ht].
  destruct f as [|f]; [lia|]. cbn [parse_members members_of] in *. rewrite Ht in *. unfold quote in *.
  destruct ps as [|[k' v'] ps'].
  - cbn [members_of] in *. rewrite join_1 in *. cbn [append] in *. rewrite !str_app_assoc. cbn [append] in *. simpl in Hf.
    rewrite !str_length_app in Hf. simpl in Hf.
    next_token.
    rewrite parse_chars_escape.
    next_token.
    rewrite (Hv Wv t f (String "}" r) Ht) by (done || lia).
    next_token.
    by rewrite prop_put_appends.
  - assert (∃ m ms, members_of ((k', v') :: ps') = m :: ms) as (m & ms & Hm).
    { cbn [members_of]. simpl in Wvs. apply andb_true_iff in Wvs as [W' _].
      destruct (wf_stringify v' W') as [t' ->]. eauto. }
    rewrite Hm, join_cons2 in *. rewrite !str_length_app in Hf. simpl in Hf. rewrite !str_length_app in Hf. simpl in Hf.
    cbn [append]. rewrite !str_app_assoc. cbn [append].
    next_token.
    rewrite parse_chars_escape.
    next_token.
    rewrite (Hv Wv t f) by (done || lia).
    next_token.
    rewrite prop_put_appends by done.
    rewrite (IH (acc ++ [(k, v)]) f r); [by rewrite <-app_assoc|done|done|done| |lia].
    by rewrite fmap_app.
Qed.

Lemma join_starts t ts : starts_ok t = true → starts_ok (join "," (t :: ts)) = true.
Proof. destruct t as [|c t]; [done|]. by destruct ts. Qed.

Lemma parse_value_object f r t :
  starts_ok t = true → Ascii.eqb "}" (match t with String c _ => c | _ => " "%char end) = false →
  parse_value (S f) (String "{" (t +:+ r)) = parse_members f [] (t +:+ r).
Proof.
  intros Ht Hc. cbn [parse_value]. rewrite (skip_ws_nonws "{") by done. cbn [Ascii.eqb Bool.eqb dquote].
  cbv beta iota. rewrite skip_ws_starts by done. destruct t as [|c t]; [done|].
  cbn [append]. by destruct c as [[] [] [] [] [] [] [] []].
Qed.

Lemma parse_value_array f r t :
  starts_ok t = true →
  parse_value (S f) (String "[" (t +:+ r)) = parse_elements f [] (t +:+ r).
Proof.
  intros Ht. cbn [parse_value]. rewrite (skip_ws_nonws "[") by done. cbn [Ascii.eqb Bool.eqb dquote].
  cbv beta iota. rewrite skip_ws_starts by done. destruct t as [|c t]; [done|].
  cbn [append]. by destruct c as [[] [] [] [] [] [] [] []].
Qed.

Lemma reads_back_num n : reads_back (VNum n).
Proof.
  intros Hw t f r Ht Hr Hf. simpl in Hw, Ht. apply safe_num_inv in Hw as (z & Hz & ->).
  assert (finite (num_of_Z z) = true) as Hfin.
  { rewrite num_of_Z_safe by done. by case_decide. }
  rewrite Hfin, num_to_string_safe in Ht by done. injection Ht as <-.
  destruct (dec_of_Z_head z) as (c & d & E & Hc). pose proof (parse_number_dec z r Hr) as Hp.
  rewrite E in *. destruct f as [|f]; [simpl in Hf; lia|]. cbn [append parse_value] in *.
  rewrite skip_ws_nonws by (destruct Hc as [Hc| ->]; [|done]; by destruct c as [[] [] [] [] [] [] [] []]).
  rewrite Hp. destruct Hc as [Hc| ->]; [|done]. by destruct c as [[] [] [] [] [] [] [] []].
Qed.

Lemma reads_back_object ps : Forall (λ kv, reads_back kv.2) ps → reads_back (VObj false ps).
Proof.
  intros IH Hw t f r Ht Hr Hf. cbn [wf_json] in Hw. apply andb_true_iff in Hw as [Hcan Hwf].
  rewrite stringify_object in Ht. injection Ht as <-. cbn [append] in *.
  rewrite str_app_assoc. cbn [append]. simpl in Hf. rewrite str_length_app in Hf. simpl in Hf.
  destruct f as [|f]; [lia|].
  destruct ps as [|[k v] ps]; [reflexivity|].
  assert (∃ t ms, members_of ((k, v) :: ps) = String dquote t :: ms) as (t & ms & Hm).
  { cbn [members_of]. simpl in Hwf. apply andb_true_iff in Hwf as [W _].
    destruct (wf_stringify v W) as [u ->]. unfold quote. eauto. }
  rewrite parse_value_object.
  - apply (parse_members_ok _ []); [done|done|done|done|lia].
  - rewrite Hm. by apply join_starts.
  - rewrite Hm. destruct ms; done.
Qed.

Lemma reads_back_array ps : Forall (λ kv, reads_back kv.2) ps → reads_back (VObj true ps).
Proof.
  intros IH Hw t f r Ht Hr Hf. cbn [wf_json] in Hw. apply andb_true_iff in Hw as [Hk Hwf].
  unfold array_keys in Hk. apply andb_true_iff in Hk as [Hk Hlen].
  apply bool_decide_eq_true in Hk. rewrite length_fmap in Hk, Hlen. apply N.ltb_lt in Hlen.
  rewrite stringify_array in Ht. injection Ht as <-.
  pose proof (elems_of_dense ps 0 Hk ltac:(lia)) as He. change (N.of_nat 0) with 0%N in He.
  rewrite He in Hf |- *. cbn [append] in *.
  rewrite str_app_assoc. cbn [append]. simpl in Hf. rewrite str_length_app in Hf. simpl in Hf.
  destruct f as [|f]; [lia|].
  replace (VObj true ps) with (VObj true (index_props ps.*2)) by (by rewrite index_props_keys).
  revert IH Hwf Hf.
  replace ((λ kv, or_null (stringify kv.2)) <$> ps) with ((λ v, or_null (stringify v)) <$> ps.*2)
    by (by rewrite <-list_fmap_compose).
  rewrite <-(Forall_fmap snd reads_back).
  replace (forallb (λ kv, wf_json kv.2) ps) with (forallb wf_json ps.*2)
    by (clear; induction ps; csimpl; congruence).
  generalize ps.*2 as vs. intros vs IH Hwf Hf. destruct vs as [|v vs]; [reflexivity|].
  rewrite parse_value_array; [by apply (parse_elements_ok _ []); (done || lia)|].
  csimpl. apply join_starts. simpl in Hwf. apply andb_true_iff in Hwf as [W _].
  destruct (wf_stringify v W) as [u E]. rewrite E. by eapply stringify_starts.
Qed.

Lemma parse_value_stringify v : reads_back v.
Proof.
  induction v as [| |b|n|s|f|arr ps IH] using value_ind; try done.
  - intros _ t f r Ht Hr Hf. simpl in Ht. simplify_eq. destruct f as [|f]; [simpl in Hf; lia|].
    apply (parse_word_app "null" VNull r).
  - intros _ t f r Ht Hr Hf. simpl in Ht. simplify_eq.
    destruct f as [|f]; [destruct b; simpl in Hf; lia|].
    destruct b; [apply (parse_word_app "true" (VBool true) r)|apply (parse_word_app "false" (VBool false) r)].
  - apply reads_back_num.
  - intros _ t f r Ht Hr Hf. simpl in Ht. injection Ht as <-. unfold quote in *.
    destruct f as [|f]; [simpl in Hf; lia|]. cbn [append parse_value]. rewrite str_app_assoc. cbn [append].
    rewrite skip_ws_nonws by done. cbn [Ascii.eqb Bool.eqb dquote]. cbv beta iota.
    fold dquote. by rewrite parse_chars_escape.
  - destruct arr; [by apply reads_back_array|by apply reads_back_object].
Qed.

(** [JSON.parse(JSON.stringify(v))] gives [v] back. *)
Lemma parse_stringify v t : wf_json v = true → stringify v = Some t → parse t = Some v.
Proof.
  intros Hw Ht. unfold parse. pose proof (parse_value_stringify v Hw t (2 * String.length t + 2) "" Ht) as H.
  rewrite str_app_nil_r in H. rewrite H by (done || lia). done.
Qed.

(** ** Printed documents are single lines *)

Definition no_newline (s : string) : bool := str_forallb (λ a, negb (Ascii.eqb a newline)) s.

Lemma no_newline_app s t : no_newline (s +:+ t) = no_newline s && no_newline t.
Proof. apply str_forallb_app. Qed.

Lemma no_newline_cons c s : no_newline (String c s) = negb (Ascii.eqb c newline) && no_newline s.
Proof. done. Qed.

Lemma no_newline_quote s : no_newline (quote s) = true.
Proof.
  unfold quote. cbn. change (str_forallb _ ?t) with (no_newline t). rewrite no_newline_app, andb_true_r.
  induction s as [|c s IH]; [done|]. cbn [escape]. rewrite no_newline_app, IH, andb_true_r.
  destruct c as [[] [] [] [] [] [] [] []]; reflexivity.
Qed.

Lemma no_newline_join l : Forall (λ s, no_newline s = true) l → no_newline (join "," l) = true.
Proof.
  induction 1 as [|s [|s' l] Hs _ IH]; [done|by rewrite join_1|].
  rewrite join_cons2, !no_newline_app, Hs, IH. done.
Qed.

Lemma no_newline_digits s : str_forallb is_digit s = true → no_newline s = true.
Proof.
  induction s as [|c s IH]; [done|]. cbn. intros H. apply andb_true_iff in H as [Hc Hs].
  change (str_forallb _ s) with (no_newline s). rewrite IH, andb_true_r by done.
  by destruct c as [[] [] [] [] [] [] [] []].
Qed.

Definition prints_one_line (v : value) : Prop := ∀ t, stringify v = Some t → no_newline t = true.

Lemma elems_no_newline ps i :
  Forall (λ kv, prints_one_line kv.2) ps → Forall (λ s, no_newline s = true) (elems_of i ps).
Proof.
  intros H. revert i. induction H as [|[k v] ps Hv _ IH]; intros i; cbn [elems_of]; [done|].
  destruct (index_of k) as [j|]; [|done]. apply Forall_app. split; [by apply Forall_replicate|].
  constructor; [|apply IH]. destruct (stringify v) eqn:E; [by apply Hv|done].
Qed.

Lemma members_no_newline ps :
  Forall (λ kv, prints_one_line kv.2) ps → Forall (λ s, no_newline s = true) (members_of ps).
Proof.
  induction 1 as [|[k v] ps Hv _ IH]; cbn [members_of]; [done|].
  destruct (stringify v) eqn:E; [|done]. constructor; [|done].
  rewrite !no_newline_app, no_newline_quote. by apply Hv.
Qed.

Lemma stringify_no_newline v : wf_json v = true → prints_one_line v.
Proof.
  induction v as [| |[]|n|s|f|arr ps IH] using value_ind; intros Hw t Ht; try done;
    try (by simpl in Ht; simplify_eq).
  - simpl in *. apply safe_num_inv in Hw as (z & Hz & ->).
    assert (finite (num_of_Z z) = true) as Hf by (rewrite num_of_Z_safe by done; by case_decide).
    rewrite Hf, num_to_string_safe in Ht by done. injection Ht as <-.
    destruct z; [done|apply no_newline_digits, digits_dec_of_N|].
    cbn [dec_of_Z]. rewrite no_newline_app. simpl. apply no_newline_digits, digits_dec_of_N.
  - simpl in Ht. injection Ht as <-. apply no_newline_quote.
  - cbn [wf_json] in Hw. apply andb_true_iff in Hw as [_ Hw].
    assert (Forall (λ kv, prints_one_line kv.2) ps) as Hps.
    { clear Ht. induction IH as [|kv ps Hkv _ IHps]; [done|].
      simpl in Hw. apply andb_true_iff in Hw as [? ?]. constructor; auto. }
    destruct arr; [rewrite stringify_array in Ht|rewrite stringify_object in Ht]; injection Ht as <-;
      cbn [append]; rewrite no_newline_cons, no_newline_app, no_newline_join; try done.
    + by apply elems_no_newline.
    + by apply members_no_newline.
Qed.

(** ** The fuel of [parse] is enough *)

Lemma skip_ws_length s : String.length (skip_ws s) ≤ String.length s.
Proof. induction s as [|c s IH]; simpl; [done|]. destruct (is_ws c); simpl; lia. Qed.

Lemma parse_chars_length s : ∀ t q, parse_chars s = Some (t, q) → String.length q < String.length s.
Proof.
  induction s as [s IH] using (induction_ltof1 _ String.length). unfold ltof in IH.
  assert (∀ r x, String.length r < String.length s →
    ∀ t q, match parse_chars r with Some (t, q) => Some (String x t, q) | None => None end = Some (t, q) →
    String.length q < String.length s) as Hrec.
  { intros r x Hr t q H. destruct (parse_chars r) as [[t' q']|] eqn:E; [|done]. simplify_eq.
    pose proof (IH r Hr _ _ E). lia. }
  intros t q H. destruct s as [|c s]; [done|]. cbn [parse_chars] in H.
  destruct (Ascii.eqb_spec c "034") as [->|Hq]; [simplify_eq; simpl; lia|].
  destruct (Ascii.eqb_spec c "092") as [->|Hb].
  - destruct s as [|e r]; [done|]. destruct (Ascii.eqb e "u").
    + do 4 (destruct r as [|? r]; [done|]). destruct (hex_value _ _) as [n|]; [|done].
      destruct (n <? 256)%N; [|done]. by eapply Hrec in H; simpl in *; lia.
    + repeat case_match; simplify_eq; by match goal with
        E : parse_chars _ = Some _ |- _ => apply IH in E; simpl in *; lia end.
  - assert ((if (N_of_ascii c <? 32)%N then None else
       match parse_chars s with Some (t, q) => Some (String c t, q) | None => None end) = Some (t, q)) as H'.
    { destruct c as [[] [] [] [] [] [] [] []]; done. }
    destruct (N_of_ascii c <? 32)%N; [done|]. by eapply Hrec in H'; simpl in *; lia.
Qed.

Lemma span_digits_length s :
  String.length (span_digits s).1 + String.length (span_digits s).2 = String.length s.
Proof.
  induction s as [|c s IH]; simpl; [done|]. destruct (is_digit c); simpl; [|done].
  destruct (span_digits s). simpl in *. lia.
Qed.

Lemma scan_exponent_length s : String.length (scan_exponent s).2 ≤ String.length s.
Proof.
  destruct s as [|c s]; simpl; [done|]. case_if; [|done].
  assert (∀ b t, String.length t ≤ String.length s →
    String.length ((let '(d, r) := span_digits t in
      match N_of_dec d with
      | Some n => ((if b : bool then - Z.of_N n else Z.of_N n)%Z, r)
      | None => (0%Z, String c s)
      end)).2 ≤ S (String.length s)) as H.
  { intros b t Ht. pose proof (span_digits_length t). destruct (span_digits t) as [d r]. simpl in *.
    destruct (N_of_dec d); simpl; lia. }
  destruct s as [|e s]; [by apply (H false)|].
  destruct e as [[] [] [] [] [] [] [] []]; first [by apply (H false); simpl; lia|by apply (H true); simpl; lia].
Qed.

Lemma parse_number_length s n r : parse_number s = Some (n, r) → String.length r < String.length s.
Proof.
  unfold parse_number. intros H.
  assert (∃ neg t, String.length t ≤ String.length s ∧
    match s with String "-" t => (true, t) | _ => (false, s) end = (neg, t)) as (neg & t & Ht & E).
  { destruct s as [|c s]; [by exists false, ""|].
    destruct c as [[] [] [] [] [] [] [] []]; eexists _, _; (split; [|reflexivity]; simpl; lia). }
  rewrite E in H. pose proof (span_digits_length t) as Hi.
  destruct (span_digits t) as [i q]. simpl in Hi.
  destruct (String.eqb i "") eqn:Ei; [done|]. destruct (leading_zero i); [done|]. simpl in H.
  assert (String.length i ≠ 0) by (destruct i; simpl in *; congruence || lia).
  assert (∀ f r', String.length r' ≤ String.length q →
    (let '(e, r'') := scan_exponent r' in
     Some (num_of_decimal neg (nat_of_digits (i +:+ f)) (e - Z.of_nat (String.length f)), r'')) = Some (n, r) →
    String.length r < String.length s) as Hexp.
  { intros f r' Hr' Hs. pose proof (scan_exponent_length r'). destruct (scan_exponent r').
    simpl in *. simplify_eq. lia. }
  destruct q as [|c q]; [by apply (Hexp "" "")|].
  assert (c = "."%char ∨ match String c q with
      | String "." t' => let '(f, r') := span_digits t' in if String.eqb f "" then None else Some (f, r')
      | _ => Some ("", String c q) end = Some ("", String c q)) as [->|E2].
  { destruct c as [[] [] [] [] [] [] [] []]; auto. }
  - pose proof (span_digits_length q). destruct (span_digits q) as [f r']. simpl in *.
    destruct (String.eqb f ""); [done|]. eapply (Hexp f r'); [lia|done].
  - rewrite E2 in H. by eapply (Hexp "").
Qed.

Lemma parse_word_length c w v s x r :
  parse_word (String c w) v s = Some (x, r) → String.length r < String.length s.
Proof.
  unfold parse_word. case_if; [|done]. intros. simplify_eq.
  assert (∀ n m t, String.length (String.substring n m t) ≤ String.length t - n) as Hsub.
  { intros n m t. revert n m. induction t as [|a t IH]; intros [|n] [|m]; simpl; try lia.
    - specialize (IH 0 m). lia.
    - apply (IH n 0).
    - apply (IH n (S m)). }
  destruct s as [|a s]; [done|]. eapply Nat.le_lt_trans; [apply Hsub|]. simpl. lia.
Qed.

Lemma parse_length f :
  (∀ s v r, parse_value f s = Some (v, r) → String.length r < String.length s) ∧
  (∀ acc s v r, parse_members f acc s = Some (v, r) → String.length r < String.length s) ∧
  (∀ acc s v r, parse_elements f acc s = Some (v, r) → String.length r < String.length s).
Proof.
  induction f as [|f (IHv & IHm & IHe)]; [done|]. split_and!.
  - intros s v r. cbn [parse_value]. pose proof (skip_ws_length s) as Hs.
    destruct (skip_ws s) as [|c t]; [done|]. simpl in Hs. intros H.
    pose proof (skip_ws_length t) as Ht.
    repeat (case_match; simplify_eq/=; try done);
      repeat match goal with
      | E : parse_chars _ = Some _ |- _ => apply parse_chars_length in E
      | E : parse_members f _ _ = Some _ |- _ => apply IHm in E
      | E : parse_elements f _ _ = Some _ |- _ => apply IHe in E
      | E : parse_word _ _ _ = Some _ |- _ => apply parse_word_length in E
      | E : parse_number _ = Some _ |- _ => apply parse_number_length in E
      end; simpl in *; lia.
  - intros acc s v r. cbn [parse_members]. pose proof (skip_ws_length s) as Hs. intros H.
    destruct (skip_ws s) as [|c t]; [done|].
    destruct (Ascii.eqb_spec c "034") as [->|Hc]; [|by destruct c as [[] [] [] [] [] [] [] []]].
    destruct (parse_chars t) as [[k q]|] eqn:Ec; [|done]. apply parse_chars_length in Ec.
    pose proof (skip_ws_length q) as Hq. destruct (skip_ws q) as [|c q']; [done|].
    destruct (Ascii.eqb_spec c ":") as [->|Hc]; [|by destruct c as [[] [] [] [] [] [] [] []]].
    destruct (parse_value f q') as [[w u]|] eqn:Ev; [|done]. apply IHv in Ev.
    pose proof (skip_ws_length u) as Hu. destruct (skip_ws u) as [|c u']; [done|]. simpl in *.
    destruct (Ascii.eqb_spec c ",") as [->|Hc1]; [apply IHm in H; lia|].
    destruct (Ascii.eqb_spec c "}") as [->|Hc2]; [simplify_eq; lia|].
    by destruct c as [[] [] [] [] [] [] [] []].
  - intros acc s v r. cbn [parse_elements]. intros H.
    destruct (parse_value f s) as [[w u]|] eqn:Ev; [|done]. apply IHv in Ev.
    pose proof (skip_ws_length u) as Hu. destruct (skip_ws u) as [|c u']; [done|]. simpl in *.
    destruct (Ascii.eqb_spec c ",") as [->|Hc1]; [apply IHe in H; lia|].
    destruct (Ascii.eqb_spec c "]") as [->|Hc2]; [simplify_eq; lia|].
    by destruct c as [[] [] [] [] [] [] [] []].
Qed.

Lemma parse_fuel n :
  (∀ s f g, String.length s ≤ n → 2 * n + 2 ≤ f → 2 * n + 2 ≤ g → parse_value f s = parse_value g s) ∧
  (∀ acc s f g, String.length s ≤ n → 2 * n + 2 ≤ f → 2 * n + 2 ≤ g →
    parse_members f acc s = parse_members g acc s) ∧
  (∀ acc s f g, String.length s ≤ n → 2 * n + 3 ≤ f → 2 * n + 3 ≤ g →
    parse_elements f acc s = parse_elements g acc s).
Proof.
  induction n as [n IH] using lt_wf_ind.
  assert (∀ s f g, String.length s ≤ n → 2 * n + 2 ≤ f → 2 * n + 2 ≤ g →
    parse_value f s = parse_value g s) as Hv.
  { intros s [|f] [|g] Hs Hf Hg; [lia..|]. cbn [parse_value]. pose proof (skip_ws_length s).
    destruct (skip_ws s) as [|c t]; [done|]. simpl in *. pose proof (skip_ws_length t).
    destruct (IH (n - 1) ltac:(lia)) as (_ & Hm & He).
    repeat case_if; try done.
    - destruct (skip_ws t) as [|c' t'] eqn:E; [apply Hm; simpl; lia|].
      destruct c' as [[] [] [] [] [] [] [] []]; (done || apply Hm; simpl in *; lia).
    - destruct (skip_ws t) as [|c' t'] eqn:E; [apply He; simpl; lia|].
      destruct c' as [[] [] [] [] [] [] [] []]; (done || apply He; simpl in *; lia). }
  split_and!; [done|..].
  - intros acc s [|f] [|g] Hs Hf Hg; [lia..|]. cbn [parse_members]. pose proof (skip_ws_length s).
    destruct (skip_ws s) as [|c t]; [done|].
    destruct (Ascii.eqb_spec c "034") as [->|Hc]; [|by destruct c as [[] [] [] [] [] [] [] []]].
    destruct (parse_chars t) as [[k q]|] eqn:Ec; [|done]. apply parse_chars_length in Ec.
    pose proof (skip_ws_length q). destruct (skip_ws q) as [|c q']; [done|].
    destruct (Ascii.eqb_spec c ":") as [->|Hc]; [|by destruct c as [[] [] [] [] [] [] [] []]].
    simpl in *. destruct (IH (n - 1) ltac:(lia)) as (Hv' & Hm & _).
    rewrite (Hv' q' f g) by lia. destruct (parse_value g q') as [[w u]|] eqn:Ev; [|done].
    apply parse_length in Ev. pose proof (skip_ws_length u). destruct (skip_ws u) as [|c u']; [done|].
    destruct (Ascii.eqb_spec c ",") as [->|Hc1]; [apply Hm; simpl in *; lia|].
    by destruct c as [[] [] [] [] [] [] [] []].
  - intros acc s [|f] [|g] Hs Hf Hg; [lia..|]. cbn [parse_elements].
    rewrite (Hv s f g) by lia. destruct (parse_value g s) as [[w u]|] eqn:Ev; [|done].
    apply parse_length in Ev. pose proof (skip_ws_length u). destruct (skip_ws u) as [|c u']; [done|].
    simpl in *. destruct (IH (n - 1) ltac:(lia)) as (_ & _ & He).
    destruct (Ascii.eqb_spec c ",") as [->|Hc1]; [apply He; simpl in *; lia|].
    by destruct c as [[] [] [] [] [] [] [] []].
Qed.

(** More fuel than [parse] uses never changes what is read. *)
Lemma parse_fuel_enough s f :
  2 * String.length s + 2 ≤ f → parse_value f s = parse_value (2 * String.length s + 2) s.
Proof. intros Hf. by apply (parse_fuel (String.length s)). Qed.
