(* ===== verification/JSDate.v ===== *)
(** * JavaScript dates

    A Date object holds a time value: milliseconds since the epoch, or [None]
    for an Invalid Date.  Local time is UTC plus an offset [tz] (in
    milliseconds), a parameter taken to be constant.  The calendar is the
    proleptic Gregorian calendar, computed by 400-year eras; that it is right
    on one era ([era_ok]) rests on a check of its 400 years and 366 days of a year.
    [toISOString] and the reading of its format are each other's inverse
    ([parse_iso_string]); other texts go to the implementation's own parser,
    the parameter [legacy_parse]. *)

From Stdlib Require Import SpecFloat.
From S2P Require Import Prelude JSNum.

Local Open Scope Z_scope.

Definition ms_per_day : Z := 86400000.

(** Linear arithmetic with division by constants. *)
Ltac divlia := Z.to_euclidean_division_equations; lia.

(** ** The calendar *)

Definition days_of_civil (y m d : Z) : Z :=
  let y' := if m <=? 2 then y - 1 else y in
  let era := y' / 400 in
  let yoe := y' - era * 400 in
  let mp := (m + 9) mod 12 in
  let doy := (153 * mp + 2) / 5 + d - 1 in
  let doe := yoe * 365 + yoe / 4 - yoe / 100 + doy in
  era * 146097 + doe - 719468.

Definition yoe_of_doe (doe : Z) : Z := (doe - doe / 1460 + doe / 36524 - doe / 146096) / 365.

Definition doy_of_doe (doe : Z) : Z :=
  let yoe := yoe_of_doe doe in doe - (365 * yoe + yoe / 4 - yoe / 100).

(** The month counted from March and the day of the month. *)
Definition mp_of_doe (doe : Z) : Z := (5 * doy_of_doe doe + 2) / 153.
Definition mday_of_doe (doe : Z) : Z := doy_of_doe doe - (153 * mp_of_doe doe + 2) / 5 + 1.
Definition month_of_doe (doe : Z) : Z :=
  if mp_of_doe doe <? 10 then mp_of_doe doe + 3 else mp_of_doe doe - 9.

(** Year, month (1 to 12) and day of the month of a day number. *)
Definition civil_of_days (z : Z) : Z * Z * Z :=
  let era := (z + 719468) / 146097 in
  let doe := (z + 719468) mod 146097 in
  let m := month_of_doe doe in
  (yoe_of_doe doe + era * 400 + (if m <=? 2 then 1 else 0), m, mday_of_doe doe).

Definition era_day_ok (doe : Z) : bool :=
  let yoe := yoe_of_doe doe in
  let m := month_of_doe doe in
  (0 <=? yoe) && (yoe <? 400) && (1 <=? m) && (m <=? 12) &&
  (1 <=? mday_of_doe doe) && (mday_of_doe doe <=? 31) &&
  ((m + 9) mod 12 =? mp_of_doe doe) &&
  (yoe * 365 + yoe / 4 - yoe / 100 + ((153 * mp_of_doe doe + 2) / 5 + mday_of_doe doe - 1) =? doe).

Fixpoint check_from (p : Z → bool) (n : nat) (z : Z) : bool :=
  match n with O => true | S n' => p z && check_from p n' (z + 1) end.

Lemma check_from_spec p n z : check_from p n z = true → ∀ d, z ≤ d < z + Z.of_nat n → p d = true.
Proof.
  revert z. induction n as [|n IH]; intros z H d Hd; [lia|].
  simpl in H. apply andb_true_iff in H as [H1 H2].
  destruct (decide (d = z)) as [->|]; [done|]. apply (IH (z + 1)); [done|lia].
Qed.

(** The first day of year [k] of an era. *)
Definition year_start (k : Z) : Z := k * 365 + k / 4 - k / 100 + k / 400.

Lemma yoe_mono a b : 0 ≤ a ≤ b → yoe_of_doe a ≤ yoe_of_doe b.
Proof.
  intros H. unfold yoe_of_doe. apply Z.div_le_mono; [lia|].
  replace b with (a + Z.of_nat (Z.to_nat (b - a))) by lia.
  induction (Z.to_nat (b - a)) as [|n IH]; [rewrite Z.add_0_r; lia|].
  etransitivity; [exact IH|]. rewrite Nat2Z.inj_succ, <-Z.add_1_r, Z.add_assoc.
  generalize (a + Z.of_nat n). intros c.
  change 146096 with (36524 * 4). rewrite <-!Z.div_div by lia. divlia.
Qed.

Lemma year_of_day d n : 0 ≤ d < year_start (Z.of_nat n) →
  ∃ k, 0 ≤ k < Z.of_nat n ∧ year_start k ≤ d < year_start (k + 1).
Proof.
  induction n as [|n IH]; intros Hd; [change (year_start (Z.of_nat 0)) with 0 in Hd; lia|].
  destruct (decide (d < year_start (Z.of_nat n))) as [Hlt|Hge].
  - destruct IH as (k & Hk & ?); [lia|]. exists k. split; [lia|done].
  - exists (Z.of_nat n). rewrite Nat2Z.inj_succ, <-Z.add_1_r in Hd. lia.
Qed.

Definition year_ok (k : Z) : bool :=
  (yoe_of_doe (year_start k) =? k) && (yoe_of_doe (year_start (k + 1) - 1) =? k) &&
  (year_start k =? k * 365 + k / 4 - k / 100) && (year_start (k + 1) - year_start k <=? 366).

Definition yday_ok (doy : Z) : bool :=
  let mp := (5 * doy + 2) / 153 in
  let d := doy - (153 * mp + 2) / 5 + 1 in
  let m := if mp <? 10 then mp + 3 else mp - 9 in
  (1 <=? m) && (m <=? 12) && (1 <=? d) && (d <=? 31) && ((m + 9) mod 12 =? mp).

Lemma years_ok k : 0 ≤ k < 400 → year_ok k = true.
Proof. intros Hk. apply (check_from_spec _ 400 0); [by vm_compute|lia]. Qed.

Lemma ydays_ok k : 0 ≤ k < 366 → yday_ok k = true.
Proof. intros Hk. apply (check_from_spec _ 366 0); [by vm_compute|lia]. Qed.

Lemma era_ok d : 0 ≤ d < 146097 → era_day_ok d = true.
Proof.
  intros Hd. destruct (year_of_day d 400) as (k & Hk & Hlo & Hhi).
  { change (year_start (Z.of_nat 400)) with 146097. lia. }
  pose proof (years_ok k Hk) as Hy. unfold year_ok in Hy. bool_prop.
  assert (yoe_of_doe d = k) as Ek.
  { assert (0 ≤ year_start k) by (unfold year_start; divlia).
    pose proof (yoe_mono (year_start k) d ltac:(lia)).
    pose proof (yoe_mono d (year_start (k + 1) - 1) ltac:(lia)). lia. }
  pose proof (ydays_ok (d - year_start k) ltac:(lia)) as Hyd.
  assert (doy_of_doe d = d - year_start k) as Ed by (unfold doy_of_doe; rewrite Ek; lia).
  unfold yday_ok in Hyd. rewrite <-Ed in Hyd. bool_prop.
  unfold era_day_ok, mday_of_doe, month_of_doe, mp_of_doe. rewrite Ek.
  repeat (apply andb_true_iff; split); lia.
Qed.

Lemma civil_of_days_spec z y m d :
  civil_of_days z = (y, m, d) → days_of_civil y m d = z ∧ 1 ≤ m ≤ 12 ∧ 1 ≤ d ≤ 31.
Proof.
  unfold civil_of_days. intros H. injection H as <- <- <-.
  pose proof (Z.div_mod (z + 719468) 146097 ltac:(lia)) as Hdm.
  pose proof (Z.mod_pos_bound (z + 719468) 146097 ltac:(lia)) as Hb.
  pose proof (era_ok _ Hb) as Hok. unfold era_day_ok in Hok. bool_prop.
  set (doe := (z + 719468) mod 146097) in *. set (era := (z + 719468) / 146097) in *.
  split; [|lia]. unfold days_of_civil.
  assert (∀ b : bool, (if b then yoe_of_doe doe + era * 400 + (if b then 1 else 0) - 1
           else yoe_of_doe doe + era * 400 + (if b then 1 else 0)) = yoe_of_doe doe + era * 400) as ->
    by (intros []; lia).
  replace ((yoe_of_doe doe + era * 400) / 400) with era by (rewrite Z.div_add by lia; rewrite Z.div_small; lia).
  replace (yoe_of_doe doe + era * 400 - era * 400) with (yoe_of_doe doe) by lia.
  match goal with E : (_ + 9) mod 12 = _ |- _ => rewrite E end. lia.
Qed.

Lemma civil_of_days_inj a b : civil_of_days a = civil_of_days b → a = b.
Proof.
  intros H. destruct (civil_of_days a) as [[y m] d] eqn:Ea. symmetry in H.
  apply civil_of_days_spec in Ea as [<- _]. apply civil_of_days_spec in H as [<- _]. done.
Qed.

Lemma days_of_civil_day y m d : days_of_civil y m d = days_of_civil y m 1 + d - 1.
Proof. unfold days_of_civil. lia. Qed.

(** ** Date objects *)

Definition date := option Z.

(** TimeClip: a time value further than [8.64e15] from the epoch is invalid. *)
Definition time_clip (t : Z) : date := if Z.abs t <=? 8640000000000000 then Some t else None.

(** ToInteger on a finite number. *)
Definition num_trunc (n : num) : option Z :=
  match n with
  | S754_zero _ => Some 0
  | S754_finite s m e =>
      let a := if 0 <=? e then Z.pos m * 2 ^ e else Z.pos m / 2 ^ (- e) in
      Some (if s then - a else a)
  | _ => None
  end.

Lemma num_trunc_safe z : safe z → num_trunc (num_of_Z z) = Some z.
Proof.
  intros Hs. rewrite num_of_Z_safe by done. case_decide as Hz; [by subst|].
  pose proof (safe_log2 z Hz Hs) as Hl. unfold num_trunc.
  rewrite mant_pos by done. unfold expo.
  assert ((if 0 <=? Z.log2 (Z.abs z) - 52
           then Z.abs z * 2 ^ (52 - Z.log2 (Z.abs z)) * 2 ^ (Z.log2 (Z.abs z) - 52)
           else Z.abs z * 2 ^ (52 - Z.log2 (Z.abs z)) / 2 ^ (- (Z.log2 (Z.abs z) - 52))) = Z.abs z) as ->.
  { destruct (Z.leb_spec 0 (Z.log2 (Z.abs z) - 52)).
    - replace (Z.log2 (Z.abs z)) with 52 by lia. lia.
    - replace (- (Z.log2 (Z.abs z) - 52)) with (52 - Z.log2 (Z.abs z)) by lia.
      apply Z.div_mul. pose proof (Z.pow_pos_nonneg 2 (52 - Z.log2 (Z.abs z))). lia. }
  f_equal. destruct (Z.ltb_spec z 0); lia.
Qed.

Section local_time.
Context (tz : Z).

Definition local_day (t : Z) : Z := (t + tz) / ms_per_day.
Definition local_ms (t : Z) : Z := (t + tz) mod ms_per_day.

Definition field (f : Z → Z) (d : date) : num :=
  match d with Some t => num_of_Z (f t) | None => NaN end.

Definition year_of (t : Z) : Z := (civil_of_days (local_day t)).1.1.
Definition month_of (t : Z) : Z := (civil_of_days (local_day t)).1.2 - 1.
Definition mday_of (t : Z) : Z := (civil_of_days (local_day t)).2.
Definition hours_of (t : Z) : Z := local_ms t / 3600000.
Definition minutes_of (t : Z) : Z := local_ms t / 60000 mod 60.
Definition seconds_of (t : Z) : Z := local_ms t / 1000 mod 60.

Definition getFullYear : date → num := field year_of.
Definition getMonth : date → num := field month_of.
Definition getDate : date → num := field mday_of.
Definition getHours : date → num := field hours_of.
Definition getMinutes : date → num := field minutes_of.
Definition getSeconds : date → num := field seconds_of.

(** [d.setDate(dt)]: the day of the month is replaced, overflowing into the
    neighbouring months; the time within the day is kept. *)
Definition setDate (d : date) (dt : num) : date :=
  match d, num_trunc dt with
  | Some t, Some k =>
      let '(y, m, _) := civil_of_days (local_day t) in
      time_clip ((days_of_civil y m 1 + k - 1) * ms_per_day + local_ms t - tz)
  | _, _ => None
  end.

Lemma local_split t : t + tz = local_day t * ms_per_day + local_ms t ∧ 0 ≤ local_ms t < ms_per_day.
Proof.
  unfold local_day, local_ms, ms_per_day. split; [|apply Z.mod_pos_bound; lia].
  pose proof (Z.div_mod (t + tz) 86400000). lia.
Qed.

Lemma local_day_shift t k : local_day (t + k * ms_per_day) = local_day t + k.
Proof.
  unfold local_day, ms_per_day. replace (t + k * 86400000 + tz) with (t + tz + k * 86400000) by lia.
  rewrite Z.div_add by lia. done.
Qed.

Lemma mday_bounds t : 1 ≤ mday_of t ≤ 31.
Proof.
  unfold mday_of. destruct (civil_of_days (local_day t)) as [[y m] d] eqn:E.
  apply civil_of_days_spec in E as (_ & _ & ?). done.
Qed.

(** [d.setDate(d.getDate() + k)] moves [k] days. *)
Lemma setDate_getDate t k :
  safe (mday_of t + k) →
  setDate (Some t) (num_of_Z (mday_of t + k)) = time_clip (t + k * ms_per_day).
Proof.
  intros Hs. unfold setDate. rewrite num_trunc_safe by done.
  unfold mday_of. destruct (civil_of_days (local_day t)) as [[y m] d] eqn:E. simpl.
  apply civil_of_days_spec in E as (E & _). f_equal.
  pose proof (local_split t) as [Ht _]. rewrite days_of_civil_day in E. nia.
Qed.

Lemma hours_minutes_bounds t : 0 ≤ hours_of t < 24 ∧ 0 ≤ minutes_of t < 60.
Proof.
  pose proof (local_split t) as [_ Hb]. unfold hours_of, minutes_of, ms_per_day in *.
  split; [split|apply Z.mod_pos_bound; lia].
  - apply Z.div_pos; lia.
  - apply Z.div_lt_upper_bound; lia.
Qed.

(** ** ISO format *)

Definition digit (n : Z) : ascii := ascii_of_N (48 + Z.to_N n).
Definition pad2 (n : Z) : string := String (digit (n / 10 mod 10)) (String (digit (n mod 10)) "").
Definition pad3 (n : Z) : string := String (digit (n / 100 mod 10)) (pad2 n).
Definition pad4 (n : Z) : string := String (digit (n / 1000 mod 10)) (pad3 n).
Definition pad6 (n : Z) : string :=
  String (digit (n / 100000 mod 10)) (String (digit (n / 10000 mod 10)) (pad4 n)).

Definition iso_year (y : Z) : string :=
  if (0 <=? y) && (y <=? 9999) then pad4 y
  else if 0 <=? y then String "+" (pad6 y) else String "-" (pad6 (- y)).

(** [d.toISOString()] of a valid date. *)
Definition toISOString (t : Z) : string :=
  let '(y, m, d) := civil_of_days (t / ms_per_day) in
  let ms := t mod ms_per_day in
  iso_year y +:+ "-" +:+ pad2 m +:+ "-" +:+ pad2 d +:+ "T" +:+ pad2 (ms / 3600000) +:+ ":" +:+
  pad2 (ms / 60000 mod 60) +:+ ":" +:+ pad2 (ms / 1000 mod 60) +:+ "." +:+ pad3 (ms mod 1000) +:+ "Z".

Definition undigit (c : ascii) : option Z := if is_digit c then Some (Z.of_N (N_of_ascii c) - 48) else None.

Definition unpad2 (a b : ascii) : option Z :=
  x ← undigit a; y ← undigit b; Some (10 * x + y).

(** The format of [toISOString] for the years 0 to 9999, with its fields in range. *)
Definition parse_iso (s : string) : option Z :=
  match s with
  | String y1 (String y2 (String y3 (String y4 (String "-" (String m1 (String m2 (String "-"
    (String d1 (String d2 (String "T" (String h1 (String h2 (String ":" (String n1 (String n2 (String ":"
    (String s1 (String s2 (String "." (String u1 (String u2 (String u3 (String "Z" "")
    )))))))))))))))))))))) =>
      yh ← unpad2 y1 y2; yl ← unpad2 y3 y4; mo ← unpad2 m1 m2; d ← unpad2 d1 d2;
      h ← unpad2 h1 h2; mi ← unpad2 n1 n2; se ← unpad2 s1 s2; u ← undigit u1; ul ← unpad2 u2 u3;
      if (1 <=? mo) && (mo <=? 12) && (1 <=? d) && (d <=? 31) && (h <? 24) && (mi <? 60) && (se <? 60)
         && bool_decide (civil_of_days (days_of_civil (100 * yh + yl) mo d) = (100 * yh + yl, mo, d))
      then Some (days_of_civil (100 * yh + yl) mo d * ms_per_day +
                 h * 3600000 + mi * 60000 + se * 1000 + 100 * u + ul)
      else None
  | _ => None
  end.

Context (legacy_parse : string → date).

(** [new Date(s)] for a string [s]. *)
Definition parse_date (s : string) : date :=
  match parse_iso s with Some t => Some t | None => legacy_parse s end.
End local_time.

(** ** Reading back the ISO format *)

Lemma undigit_digit n : 0 ≤ n < 10 → undigit (digit n) = Some n.
Proof.
  intros Hn. assert (n = 0 ∨ n = 1 ∨ n = 2 ∨ n = 3 ∨ n = 4 ∨ n = 5 ∨ n = 6 ∨ n = 7 ∨ n = 8 ∨ n = 9) as Hc by lia.
  by destruct_or!; subst.
Qed.

Lemma unpad2_pad2 n : 0 ≤ n < 100 → unpad2 (digit (n / 10 mod 10)) (digit (n mod 10)) = Some n.
Proof.
  intros Hn. unfold unpad2. rewrite !undigit_digit by (apply Z.mod_pos_bound; lia). simpl. f_equal. divlia.
Qed.

Lemma unpad2_high n : 0 ≤ n < 10000 →
  unpad2 (digit (n / 1000 mod 10)) (digit (n / 100 mod 10)) = Some (n / 100).
Proof.
  intros Hn. unfold unpad2. rewrite !undigit_digit by (apply Z.mod_pos_bound; lia). simpl. f_equal. divlia.
Qed.

Lemma unpad2_low n : 0 ≤ n → unpad2 (digit (n / 10 mod 10)) (digit (n mod 10)) = Some (n mod 100).
Proof.
  intros Hn. unfold unpad2. rewrite !undigit_digit by (apply Z.mod_pos_bound; lia). simpl. f_equal. divlia.
Qed.

Definition iso_range (t : Z) : Prop := 0 ≤ (civil_of_days (t / ms_per_day)).1.1 ≤ 9999.

#[export] Instance iso_range_dec t : Decision (iso_range t).
Proof. unfold iso_range. apply _. Defined.

Lemma parse_iso_string t : iso_range t → parse_iso (toISOString t) = Some t.
Proof.
  unfold iso_range, toISOString. destruct (civil_of_days (t / ms_per_day)) as [[y m] d] eqn:E. simpl fst. simpl snd.
  intros Hy. pose proof (civil_of_days_spec _ _ _ _ E) as (Hz & Hm & Hd).
  pose proof (Z.mod_pos_bound t ms_per_day ltac:(done)) as Hms.
  pose proof (Z.div_mod t ms_per_day ltac:(done)) as Hdm.
  unfold ms_per_day in *. set (ms := t mod 86400000) in *.
  unfold iso_year. rewrite (proj2 (Z.leb_le 0 y)), (proj2 (Z.leb_le y 9999)) by lia. cbn [andb].
  unfold pad4, pad3, pad2. cbn [append]. unfold parse_iso.
  rewrite (unpad2_high y), (unpad2_low y), (unpad2_pad2 m), (unpad2_pad2 d), (unpad2_pad2 (ms / 3600000)),
    (unpad2_pad2 (ms / 60000 mod 60)), (unpad2_pad2 (ms / 1000 mod 60)), (unpad2_low (ms mod 1000)),
    undigit_digit by divlia.
  cbn [mbind option_bind].
  replace (100 * (y / 100) + y mod 100) with y by divlia.
  rewrite Hz, E, bool_decide_eq_true_2 by done.
  rewrite (proj2 (Z.leb_le 1 m)), (proj2 (Z.leb_le m 12)), (proj2 (Z.leb_le 1 d)), (proj2 (Z.leb_le d 31)),
    !(proj2 (Z.ltb_lt _ _)) by divlia.
  cbn [andb]. f_equal. unfold ms_per_day. divlia.
Qed.
