(* ===== verification/StatObj.v ===== *)
(** * Arithmetic on trees of counters (monitor.js)

    [accumulateObj], [subtractObj] and [cloneObjTemplate] of
    src/tools/monitor/monitor.js walk the statistics objects the push servers
    report.  [accumulateObj] mutates its first argument in place, so it is a
    computation on that object as state: what was changed before an exception
    stays changed.  The theorems read a tree through its numeric leaves. *)

From Stdlib Require Import SpecFloat.
From S2P Require Import Prelude JSNum JSValue JSON.

(** ** In-place computations on an object *)

Definition get_prop (k : string) : M value value := λ d, (get d k, d).
Definition set_prop (k : string) (w : value) : M value unit := modify (λ d, put d k w).

(** Run a computation on the object stored under [k]. *)
Definition at_prop (k : string) (m : M value unit) : M value unit := λ d,
  match get d k with
  | Ret c => let '(r, c') := m c in (r, put_back d k c')
  | Throw e => (Throw e, d)
  end.

Definition default_prop (k : string) (w : value) : M value unit :=
  d ← get_prop k;
  if truthy d then mret tt else set_prop k w.

(** [accumulateObj(dst, src)], as a computation on [dst]. *)
Fixpoint accumulateObj (src : value) : M value unit :=
  match src with
  | VObj _ ps =>
      (fix loop (ps : list (string * value)) : M value unit :=
        match ps with
        | [] => mret tt
        | (i, v) :: ps' =>
            (if String.eqb (typeof v) "number" then
               default_prop i (VInt 0);;
               d ← get_prop i;
               s ← lift (js_add d v);
               set_prop i s
             else if String.eqb (typeof v) "object" then
               default_prop i empty_object;;
               at_prop i (accumulateObj v)
             else if String.eqb (typeof v) "array" then
               default_prop i (VObj true []);;
               at_prop i (accumulateObj v)
             else mret tt);;
            loop ps'
        end) ps
  | _ => mret tt
  end.

(** [subtractObj(minuend, subtractor)] *)
Fixpoint subtractObj (minuend subtractor : value) : res value :=
  match minuend with
  | VObj _ ps =>
      (fix loop (ps : list (string * value)) (result : value) : res value :=
        match ps with
        | [] => Ret result
        | (i, v) :: ps' =>
            if String.eqb (typeof v) "number" then
              s ← get subtractor i;
              if truthy s then (x ← js_sub v s; loop ps' (put result i x))
              else loop ps' (put result i v)
            else if String.eqb (typeof v) "object" || String.eqb (typeof v) "array" then
              s ← get subtractor i;
              if truthy s then (x ← subtractObj v s; loop ps' (put result i x))
              else loop ps' (put result i empty_object)
            else loop ps' result
        end) ps empty_object
  | _ => Ret empty_object
  end.

(** [cloneObjTemplate(src)], with the messages it logs. *)
Fixpoint cloneObjTemplate (src : value) : value * list string :=
  match src with
  | VObj _ ps =>
      (fix loop (ps : list (string * value)) (dst : value) (logs : list string) : value * list string :=
        match ps with
        | [] => (dst, logs)
        | (key, v) :: ps' =>
            let type := typeof v in
            if String.eqb type "object" || String.eqb type "array" then
              let '(c, l) := cloneObjTemplate v in loop ps' (put dst key c) (logs ++ l)
            else if String.eqb type "number" then loop ps' (put dst key (VInt 0)) logs
            else if String.eqb type "string" then loop ps' (put dst key (VStr "")) logs
            else if String.eqb type "boolean" then loop ps' (put dst key (VBool false)) logs
            else loop ps' dst (logs ++ ["failed to clone type: " +:+ type])
        end) ps empty_object []
  | _ => (empty_object, [])
  end.

(** ** Specification: numeric leaves *)

(** The integer at a path of property names; anything else counts as 0. *)
Fixpoint leaf (v : value) (p : list string) : Z :=
  match p with
  | [] => match v with VNum n => default 0%Z (num_to_Z n) | _ => 0%Z end
  | k :: p' => match v with
               | VObj _ ps => match assoc k ps with Some w => leaf w p' | None => 0%Z end
               | _ => 0%Z
               end
  end.

Definition own_key (arr : bool) (k : string) : bool :=
  bool_decide (k ∉ object_proto) && negb (arr && String.eqb k "length").

Definition sum_safe (d : value) (n : num) : bool :=
  negb (truthy d) ||
  match d with
  | VNum m => safe_num m && bool_decide (safe (leaf d [] + leaf (VNum n) [])%Z)
  | _ => false
  end.

(** [src] can be added into [dst]: names are data, counters are safe integers
    with safe sums, and objects meet objects. *)
Fixpoint addable (dst src : value) : bool :=
  match src with
  | VObj _ ps =>
      match dst with
      | VObj arr ds =>
          bool_decide (NoDup ps.*1) &&
          (fix go (ps : list (string * value)) : bool :=
            match ps with
            | [] => true
            | (k, v) :: ps' =>
                own_key arr k &&
                let d := default VUndef (assoc k ds) in
                match v with
                | VNum n => safe_num n && sum_safe d n
                | VObj _ _ => addable (if truthy d then d else empty_object) v
                | _ => true
                end && go ps'
            end) ps
      | _ => false
      end
  | _ => true
  end.

Example accumulate_ex :
  accumulateObj (VObj false [("a", VInt 2); ("s", VStr "x"); ("o", VObj false [("b", VInt 3)])])
    (VObj false [("a", VInt 5)]) =
  (Ret tt, VObj false [("a", VInt 7); ("o", VObj false [("b", VInt 3)])]).
Proof. vm_compute. reflexivity. Qed.

(** ** Accumulation adds leaf by leaf *)

Definition acc_step (i : string) (v : value) : M value unit :=
  if String.eqb (typeof v) "number" then
    default_prop i (VInt 0);;
    d ← get_prop i;
    s ← lift (js_add d v);
    set_prop i s
  else if String.eqb (typeof v) "object" then
    default_prop i empty_object;;
    at_prop i (accumulateObj v)
  else if String.eqb (typeof v) "array" then
    default_prop i (VObj true []);;
    at_prop i (accumulateObj v)
  else mret tt.

Fixpoint acc_loop (ps : list (string * value)) : M value unit :=
  match ps with
  | [] => mret tt
  | (i, v) :: ps' => acc_step i v;; acc_loop ps'
  end.

Lemma accumulateObj_eq arr ps : accumulateObj (VObj arr ps) = acc_loop ps.
Proof. reflexivity. Qed.

Definition addable_slot (arr : bool) (ds : list (string * value)) (k : string) (v : value) : bool :=
  own_key arr k &&
  let d := default VUndef (assoc k ds) in
  match v with
  | VNum n => safe_num n && sum_safe d n
  | VObj _ _ => addable (if truthy d then d else empty_object) v
  | _ => true
  end.

Fixpoint addable_slots (arr : bool) (ds ps : list (string * value)) : bool :=
  match ps with
  | [] => true
  | (k, v) :: ps' => addable_slot arr ds k v && addable_slots arr ds ps'
  end.

Lemma addable_eq arr ds arr' ps :
  addable (VObj arr ds) (VObj arr' ps) = bool_decide (NoDup ps.*1) && addable_slots arr ds ps.
Proof.
  cbn [addable]. f_equal. induction ps as [|[k v] ps IH]; [done|]. cbn [addable_slots].
  rewrite <-IH. unfold addable_slot. cbn [typeof]. by rewrite andb_assoc.
Qed.

Definition leaf_of (o : option value) (p : list string) : Z :=
  match o with Some w => leaf w p | None => 0%Z end.

Lemma falsy_leaf d p : truthy d = false → leaf d p = 0%Z.
Proof.
  intros H. destruct p as [|k p]; destruct d as [| |b|n|s|f|arr ps]; try done.
  simpl in *. destruct n as [s|s| |s m e]; try done; by destruct s.
Qed.

Lemma leaf_of_default o p : leaf_of o p = leaf (default VUndef o) p.
Proof. destruct o; [done|]. by destruct p. Qed.

Lemma get_own arr ds k : own_key arr k = true → get (VObj arr ds) k = Ret (default VUndef (assoc k ds)).
Proof.
  unfold own_key. intros H. apply andb_true_iff in H as [Hk Hl]. apply negb_true_iff in Hl.
  apply bool_decide_eq_true in Hk. simpl. destruct (assoc k ds); [done|]. rewrite Hl.
  unfold inherited. by rewrite bool_decide_eq_false_2.
Qed.

Lemma default_prop_own arr ds k w :
  own_key arr k = true →
  ∃ ds', default_prop k w (VObj arr ds) = (Ret tt, VObj arr ds') ∧
    assoc k ds' = Some (if truthy (default VUndef (assoc k ds)) then default VUndef (assoc k ds) else w) ∧
    (∀ k', k' ≠ k → assoc k' ds' = assoc k' ds).
Proof.
  intros Hk. unfold default_prop, get_prop. unfold mbind, M_bind. rewrite get_own by done.
  destruct (truthy (default VUndef (assoc k ds))) eqn:E.
  - exists ds. split_and!; [done| |done]. by destruct (assoc k ds).
  - exists (prop_put k w ds). split_and!; [done|by rewrite assoc_prop_put, String.eqb_refl|].
    intros k' Hne. rewrite assoc_prop_put. by rewrite (proj2 (String.eqb_neq _ _)).
Qed.

Definition accumulates (v : value) : Prop :=
  ∀ dst, addable dst v = true → String.eqb (typeof v) "object" = true →
  ∃ dst', accumulateObj v dst = (Ret tt, dst') ∧ ∀ p, leaf dst' p = (leaf dst p + leaf v p)%Z.

Lemma acc_number arr ds k n :
  own_key arr k = true → safe_num n = true → sum_safe (default VUndef (assoc k ds)) n = true →
  ∃ ds', acc_step k (VNum n) (VObj arr ds) = (Ret tt, VObj arr ds') ∧
    (∀ p, leaf_of (assoc k ds') p = (leaf_of (assoc k ds) p + leaf (VNum n) p)%Z) ∧
    (∀ k', k' ≠ k → assoc k' ds' = assoc k' ds).
Proof.
  intros Hk Hn Hs. apply safe_num_inv in Hn as (b & Hb & ->).
  destruct (default_prop_own arr ds k (VInt 0) Hk) as (d1 & E1 & Hd1 & Hne1).
  unfold acc_step. cbn [typeof String.eqb Ascii.eqb Bool.eqb]. cbv beta iota.
  unfold mbind at 1, M_bind at 1. rewrite E1. unfold mbind at 1, M_bind at 1, get_prop.
  rewrite get_own, Hd1 by done. cbn [from_option id].
  set (d := default VUndef (assoc k ds)) in *.
  assert (∃ a, safe a ∧ (if truthy d then d else VInt 0) = VInt a ∧ leaf d [] = a ∧ safe (a + b)%Z ∧
          ∀ k p, leaf d (k :: p) = 0%Z) as (a & Ha & -> & Hl & Hab & Hp).
  { unfold sum_safe in Hs. destruct (truthy d) eqn:Et; simpl in Hs.
    - destruct d as [| |[]|m| | |]; try done. apply andb_true_iff in Hs as [Hm Hab].
      apply safe_num_inv in Hm as (a & Ha & ->). apply bool_decide_eq_true in Hab. simpl in *.
      rewrite !num_to_of_Z in * by done. exists a. done.
    - exists 0%Z. split_and!; [done|done|by apply falsy_leaf|done|intros; by apply falsy_leaf]. }
  change (VNum (num_of_Z b)) with (VInt b). rewrite js_add_VInt by done. unfold mbind, M_bind, lift, set_prop, modify.
  exists (prop_put k (VInt (a + b)) d1). split_and!; [done|..].
  - intros p. rewrite assoc_prop_put, String.eqb_refl, (leaf_of_default (assoc k ds)). fold d. cbn [leaf_of].
    destruct p as [|k' p]; [|by rewrite Hp].
    rewrite Hl. simpl. by rewrite !num_to_of_Z by done.
  - intros k' Hne. rewrite assoc_prop_put, (proj2 (String.eqb_neq _ _)) by done. by apply Hne1.
Qed.

Lemma acc_object arr ds k v :
  own_key arr k = true → String.eqb (typeof v) "object" = true → accumulates v →
  addable (if truthy (default VUndef (assoc k ds)) then default VUndef (assoc k ds) else empty_object) v = true →
  ∃ ds', acc_step k v (VObj arr ds) = (Ret tt, VObj arr ds') ∧
    (∀ p, leaf_of (assoc k ds') p = (leaf_of (assoc k ds) p + leaf v p)%Z) ∧
    (∀ k', k' ≠ k → assoc k' ds' = assoc k' ds).
Proof.
  intros Hk Ht Hv Hadd. destruct (default_prop_own arr ds k empty_object Hk) as (d1 & E1 & Hd1 & Hne1).
  unfold acc_step. rewrite Ht. replace (String.eqb (typeof v) "number") with false by (by destruct v).
  unfold mbind, M_bind. rewrite E1. unfold at_prop. rewrite get_own, Hd1 by done. cbn [from_option id].
  destruct (Hv _ Hadd Ht) as (c' & -> & Hc). cbn [put_back].
  exists (assoc_update k c' d1). split_and!; [done|..].
  - intros p. rewrite assoc_update_eq, Hd1, (leaf_of_default (assoc k ds)). cbn [leaf_of]. rewrite Hc.
    destruct (truthy _) eqn:Et; [done|]. rewrite (falsy_leaf (default VUndef (assoc k ds))) by done.
    f_equal. by destruct p.
  - intros k' Hne. rewrite assoc_update_ne by done. by apply Hne1.
Qed.

Lemma acc_step_ok arr ds k v :
  accumulates v → addable_slot arr ds k v = true →
  ∃ ds', acc_step k v (VObj arr ds) = (Ret tt, VObj arr ds') ∧
    (∀ p, leaf_of (assoc k ds') p = (leaf_of (assoc k ds) p + leaf v p)%Z) ∧
    (∀ k', k' ≠ k → assoc k' ds' = assoc k' ds).
Proof.
  intros Hv H. unfold addable_slot in H. apply andb_true_iff in H as [Hk H].
  destruct v as [| |b|n|s|f|arr' ps].
  - exists ds. split_and!; [done|intros []; simpl; lia|done].
  - by apply acc_object.
  - exists ds. split_and!; [done|intros []; simpl; lia|done].
  - apply andb_true_iff in H as [? ?]. by apply acc_number.
  - exists ds. split_and!; [done|intros []; simpl; lia|done].
  - exists ds. split_and!; [done|intros []; simpl; lia|done].
  - by apply acc_object.
Qed.

Lemma addable_slots_ext arr ds ds' ps :
  (∀ k, k ∈ ps.*1 → assoc k ds' = assoc k ds) → addable_slots arr ds' ps = addable_slots arr ds ps.
Proof.
  induction ps as [|[k v] ps IH]; intros H; [done|]. cbn [addable_slots]. f_equal.
  - unfold addable_slot. rewrite (H k) by (csimpl; set_solver). done.
  - apply IH. intros k' Hk'. apply H. csimpl. set_solver.
Qed.

Lemma acc_loop_ok ps : Forall (λ kv, accumulates kv.2) ps → ∀ arr ds,
  NoDup ps.*1 → addable_slots arr ds ps = true →
  ∃ ds', acc_loop ps (VObj arr ds) = (Ret tt, VObj arr ds') ∧
    ∀ k p, leaf_of (assoc k ds') p = (leaf_of (assoc k ds) p + leaf_of (assoc k ps) p)%Z.
Proof.
  induction 1 as [|[k v] ps Hv _ IH]; intros arr ds Hnd Hadd.
  - exists ds. split; [done|]. intros; simpl; lia.
  - cbn [addable_slots] in Hadd. apply andb_true_iff in Hadd as [Hk Hps]. csimpl in Hnd.
    apply NoDup_cons in Hnd as [Hnin Hnd].
    destruct (acc_step_ok arr ds k v Hv Hk) as (d1 & E1 & Hl & Hne).
    destruct (IH arr d1 Hnd) as (d2 & E2 & Hl2).
    { rewrite <-Hps. apply addable_slots_ext. intros k' Hk'. apply Hne. set_solver. }
    exists d2. split; [cbn [acc_loop]; unfold mbind, M_bind; rewrite E1; exact E2|].
    intros k' p. rewrite Hl2. cbn [assoc]. destruct (String.eqb k' k) eqn:E; bool_prop.
    + subst. rewrite Hl. rewrite (proj2 (assoc_None k ps)) by done. simpl. lia.
    + by rewrite Hne.
Qed.

Lemma accumulates_all v : accumulates v.
Proof.
  induction v as [| |b|n|s|f|arr' ps IH] using value_ind; intros dst Hadd Ht; try done.
  - exists dst. split; [done|]. intros []; simpl; lia.
  - destruct dst as [| | | | | |arr ds]; try done. rewrite addable_eq in Hadd.
    apply andb_true_iff in Hadd as [Hnd Hadd]. apply bool_decide_eq_true in Hnd.
    destruct (acc_loop_ok ps IH arr ds Hnd Hadd) as (ds' & E & Hl). rewrite accumulateObj_eq.
    exists (VObj arr ds'). split; [done|]. intros [|k p]; [done|]. apply (Hl k p).
Qed.

(** [accumulateObj] adds its source into its destination counter by
    counter: on compatible trees it returns normally, and every numeric leaf
    of the mutated destination is the sum of the two leaves at that path, an
    absent counter counting as zero. *)
Theorem accumulateObj_adds arr ps dst :
  addable dst (VObj arr ps) = true →
  ∃ dst', accumulateObj (VObj arr ps) dst = (Ret tt, dst') ∧
    ∀ p, leaf dst' p = (leaf dst p + leaf (VObj arr ps) p)%Z.
Proof. intros H. by apply accumulates_all. Qed.

Definition sample_a : value :=
  VObj false [("error_number", VInt 4); ("recv_type", VObj false [("ack", VInt 10); ("msg", VInt 2)]);
              ("server_start_datetime", VStr "2015/04/16 17:21:57")].
Definition sample_b : value :=
  VObj false [("error_number", VInt 1); ("recv_type", VObj false [("ack", VInt 5); ("sub", VInt 7)]);
              ("server_start_datetime", VStr "2015/04/16 17:22:10"); ("request", VObj false [("Stats", VInt 3)])].

Lemma accumulateObj_adds_witness :
  ∃ dst', accumulateObj sample_b sample_a = (Ret tt, dst') ∧
    ∀ p, leaf dst' p = (leaf sample_a p + leaf sample_b p)%Z.
Proof. apply accumulateObj_adds. vm_compute. reflexivity. Defined.

(** ** Subtraction *)

(** Whether the tree holds a number at the path. *)
Fixpoint numeric_at (v : value) (p : list string) : bool :=
  match p with
  | [] => match v with VNum _ => true | _ => false end
  | k :: p' => match v with
               | VObj _ ps => match assoc k ps with Some w => numeric_at w p' | None => false end
               | _ => false
               end
  end.

Definition diff_safe (n : num) (d : value) : bool :=
  negb (truthy d) ||
  match d with
  | VNum m => safe_num m && bool_decide (safe (leaf (VNum n) [] - leaf d [])%Z)
  | _ => false
  end.

(** [sub] can be subtracted from [v]: counters are safe with safe differences
    and every object of [v] has its counterpart in [sub]. *)
Fixpoint subtractable (v sub : value) : bool :=
  match v with
  | VObj _ ps =>
      match sub with
      | VObj arr ds =>
          bool_decide (NoDup ps.*1) &&
          (fix go (ps : list (string * value)) : bool :=
            match ps with
            | [] => true
            | (k, w) :: ps' =>
                own_key arr k &&
                let d := default VUndef (assoc k ds) in
                match w with
                | VNum n => safe_num n && diff_safe n d
                | VObj _ _ => truthy d && subtractable w d
                | _ => true
                end && go ps'
            end) ps
      | _ => false
      end
  | _ => true
  end.

Definition sub_loop (sub : value) : list (string * value) → value → res value :=
  fix loop ps result :=
    match ps with
    | [] => Ret result
    | (i, v) :: ps' =>
        if String.eqb (typeof v) "number" then
          s ← get sub i;
          if truthy s then (x ← js_sub v s; loop ps' (put result i x))
          else loop ps' (put result i v)
        else if String.eqb (typeof v) "object" || String.eqb (typeof v) "array" then
          s ← get sub i;
          if truthy s then (x ← subtractObj v s; loop ps' (put result i x))
          else loop ps' (put result i empty_object)
        else loop ps' result
    end.

Lemma sub_loop_cons sub i v ps result :
  sub_loop sub ((i, v) :: ps) result =
    if String.eqb (typeof v) "number" then
      s ← get sub i;
      if truthy s then (x ← js_sub v s; sub_loop sub ps (put result i x))
      else sub_loop sub ps (put result i v)
    else if String.eqb (typeof v) "object" || String.eqb (typeof v) "array" then
      s ← get sub i;
      if truthy s then (x ← subtractObj v s; sub_loop sub ps (put result i x))
      else sub_loop sub ps (put result i empty_object)
    else sub_loop sub ps result.
Proof. reflexivity. Qed.

Lemma subtractObj_eq arr ps sub : subtractObj (VObj arr ps) sub = sub_loop sub ps empty_object.
Proof. reflexivity. Qed.

Definition subtracts (v : value) : Prop :=
  ∀ sub, subtractable v sub = true → String.eqb (typeof v) "object" = true →
  ∃ r, subtractObj v sub = Ret r ∧
    ∀ p, leaf r p = (if numeric_at v p then leaf v p - leaf sub p else 0)%Z.

Definition sub_slot (arr : bool) (ds : list (string * value)) (k : string) (w : value) : bool :=
  own_key arr k &&
  let d := default VUndef (assoc k ds) in
  match w with
  | VNum n => safe_num n && diff_safe n d
  | VObj _ _ => truthy d && subtractable w d
  | _ => true
  end.

Lemma subtractable_eq arr ds arr' ps :
  subtractable (VObj arr' ps) (VObj arr ds) =
    bool_decide (NoDup ps.*1) && forallb (λ kw, sub_slot arr ds kw.1 kw.2) ps.
Proof.
  cbn [subtractable]. f_equal. induction ps as [|[k v] ps IH]; [done|]. cbn [forallb].
  rewrite <-IH. unfold sub_slot. cbn [fst snd]. by rewrite andb_assoc.
Qed.

(** One property: what is stored under it, if anything. *)
Lemma sub_step_ok arr ds k v ps rs :
  subtracts v → sub_slot arr ds k v = true →
  ∃ o, sub_loop (VObj arr ds) ((k, v) :: ps) (VObj false rs) =
         sub_loop (VObj arr ds) ps (VObj false (match o with Some x => prop_put k x rs | None => rs end)) ∧
    ∀ p, leaf_of o p = (if numeric_at v p then leaf v p - leaf_of (assoc k ds) p else 0)%Z.
Proof.
  intros Hv H. unfold sub_slot in H. apply andb_true_iff in H as [Hk H].
  rewrite sub_loop_cons, get_own by done.
  set (d := default VUndef (assoc k ds)) in *.
  assert (∀ p, leaf_of (assoc k ds) p = leaf d p) as Hd by (intros; apply leaf_of_default).
  destruct v as [| |b|n|s|f|arr' ps'].
  - exists None. split; [done|]. by intros [].
  - destruct (Hv empty_object eq_refl eq_refl) as (r & Hr & Hl).
    exists (Some empty_object). split; [|by intros []].
    cbn. by destruct (truthy d).
  - exists None. split; [done|]. by intros [].
  - apply andb_true_iff in H as [Hn Hs]. apply safe_num_inv in Hn as (b & Hb & ->).
    cbn [typeof String.eqb Ascii.eqb Bool.eqb]. cbn [mbind res_bind].
    unfold diff_safe in Hs. destruct (truthy d) eqn:Et; simpl in Hs.
    + destruct d as [| |[]|m| | |]; try done. apply andb_true_iff in Hs as [Hm Hab].
      apply safe_num_inv in Hm as (a & Ha & ->). apply bool_decide_eq_true in Hab. simpl in Hab.
      rewrite !num_to_of_Z in Hab by done. simpl in Hab.
      exists (Some (VInt (b - a))). split; [cbn; by rewrite num_sub_safe|].
      intros p. rewrite Hd. destruct p; [|done]. simpl. by rewrite !num_to_of_Z.
    + exists (Some (VInt b)). split; [done|]. intros p. rewrite Hd, (falsy_leaf d) by done.
      destruct p; [|done]. simpl. rewrite num_to_of_Z by done. simpl. lia.
  - exists None. split; [done|]. by intros [].
  - exists None. split; [done|]. by intros [].
  - apply andb_true_iff in H as [Et Hsub]. destruct (Hv d Hsub eq_refl) as (r & Hr & Hl).
    exists (Some r). split; [|intros p; rewrite Hd; apply Hl].
    cbn [typeof String.eqb Ascii.eqb Bool.eqb orb]. cbn [mbind res_bind]. by rewrite Et, Hr.
Qed.

Lemma sub_loop_ok arr ds ps : Forall (λ kv, subtracts kv.2) ps → ∀ rs,
  NoDup ps.*1 → forallb (λ kw, sub_slot arr ds kw.1 kw.2) ps = true → (∀ k, k ∈ ps.*1 → assoc k rs = None) →
  ∃ rs', sub_loop (VObj arr ds) ps (VObj false rs) = Ret (VObj false rs') ∧
    ∀ k p, leaf_of (assoc k rs') p =
      match assoc k ps with
      | Some w => if numeric_at w p then leaf w p - leaf_of (assoc k ds) p else 0
      | None => leaf_of (assoc k rs) p
      end%Z.
Proof.
  induction 1 as [|[k v] ps Hv _ IH]; intros rs Hnd Hs Hrs; [by exists rs|].
  cbn [forallb fst snd] in Hs. apply andb_true_iff in Hs as [Hk Hs]. csimpl in Hnd.
  apply NoDup_cons in Hnd as [Hnin Hnd].
  destruct (sub_step_ok arr ds k v ps rs Hv Hk) as (o & E & Ho). rewrite E.
  destruct (IH (match o with Some x => prop_put k x rs | None => rs end) Hnd Hs) as (rs' & E' & Hl).
  { intros k' Hk'. assert (k' ≠ k) by set_solver. destruct o; [rewrite assoc_prop_put|].
    - rewrite (proj2 (String.eqb_neq _ _)) by done. apply Hrs. csimpl. set_solver.
    - apply Hrs. csimpl. set_solver. }
  exists rs'. split; [done|]. intros k' p. rewrite Hl. cbn [assoc].
  destruct (String.eqb k' k) eqn:Ek; bool_prop.
  - subst. rewrite (proj2 (assoc_None k ps)) by done. rewrite <-Ho. destruct o as [x|].
    + by rewrite assoc_prop_put, String.eqb_refl.
    + rewrite Hrs by (csimpl; set_solver). done.
  - destruct (assoc k' ps); [done|]. destruct o; [|done].
    by rewrite assoc_prop_put, (proj2 (String.eqb_neq _ _)).
Qed.

Lemma subtracts_all v : subtracts v.
Proof.
  induction v as [| |b|n|s|f|arr' ps IH] using value_ind; intros sub Hs Ht; try done.
  - exists empty_object. split; [done|]. by intros [].
  - destruct sub as [| | | | | |arr ds]; try done. rewrite subtractable_eq in Hs.
    apply andb_true_iff in Hs as [Hnd Hs]. apply bool_decide_eq_true in Hnd.
    destruct (sub_loop_ok arr ds ps IH [] Hnd Hs ltac:(done)) as (rs' & E & Hl).
    rewrite subtractObj_eq. exists (VObj false rs'). split; [done|]. intros [|k p]; [done|].
    specialize (Hl k p). cbn [leaf numeric_at]. change (match assoc k rs' with Some w => leaf w p | None => 0 end)%Z
      with (leaf_of (assoc k rs') p). rewrite Hl. by destruct (assoc k ps).
Qed.

(** [subtractObj] computes the growth of every counter: on compatible
    trees it returns a tree whose leaf at each path where the minuend holds a
    number is the difference of the two leaves, and which holds no other
    counter. *)
Theorem subtractObj_growth arr ps sub :
  subtractable (VObj arr ps) sub = true →
  ∃ r, subtractObj (VObj arr ps) sub = Ret r ∧
    ∀ p, leaf r p = (if numeric_at (VObj arr ps) p then leaf (VObj arr ps) p - leaf sub p else 0)%Z.
Proof. intros H. by apply subtracts_all. Qed.

Definition sample_later : value :=
  VObj false [("error_number", VInt 9); ("recv_type", VObj false [("ack", VInt 30); ("msg", VInt 2)]);
              ("server_start_datetime", VStr "2015/04/16 17:21:57")].

Lemma subtractObj_growth_witness :
  ∃ r, subtractObj sample_later sample_a = Ret r ∧
    ∀ p, leaf r p = (if numeric_at sample_later p then leaf sample_later p - leaf sample_a p else 0)%Z.
Proof. apply subtractObj_growth. vm_compute. reflexivity. Defined.

(** ** Templates *)

Definition clone_loop : list (string * value) → value → list string → value * list string :=
  fix loop ps dst logs :=
    match ps with
    | [] => (dst, logs)
    | (key, v) :: ps' =>
        let type := typeof v in
        if String.eqb type "object" || String.eqb type "array" then
          let '(c, l) := cloneObjTemplate v in loop ps' (put dst key c) (logs ++ l)
        else if String.eqb type "number" then loop ps' (put dst key (VInt 0)) logs
        else if String.eqb type "string" then loop ps' (put dst key (VStr "")) logs
        else if String.eqb type "boolean" then loop ps' (put dst key (VBool false)) logs
        else loop ps' dst (logs ++ ["failed to clone type: " +:+ type])
    end.

Lemma cloneObjTemplate_eq arr ps : cloneObjTemplate (VObj arr ps) = clone_loop ps empty_object [].
Proof. reflexivity. Qed.

(** What [cloneObjTemplate] stores for a property of a JSON document. *)
Definition clone_prop (v : value) : value :=
  match v with
  | VNum _ => VInt 0
  | VStr _ => VStr ""
  | VBool _ => VBool false
  | _ => (cloneObjTemplate v).1
  end.

Definition clones (v : value) : Prop :=
  wf_json v = true → (cloneObjTemplate v).2 = [] ∧
  ∀ p, leaf (clone_prop v) p = 0%Z ∧ numeric_at (clone_prop v) p = numeric_at v p.

Lemma clone_loop_cons k v ps rs :
  wf_json v = true → (cloneObjTemplate v).2 = [] →
  clone_loop ((k, v) :: ps) (VObj false rs) [] = clone_loop ps (VObj false (prop_put k (clone_prop v) rs)) [].
Proof.
  intros Hw Hl. destruct v as [| |b|n|s|f|arr ps']; try done.
  change (clone_loop ((k, VObj arr ps') :: ps) (VObj false rs) []) with
    (let '(c, l) := cloneObjTemplate (VObj arr ps') in clone_loop ps (put (VObj false rs) k c) ([] ++ l)).
  unfold clone_prop. destruct (cloneObjTemplate (VObj arr ps')) as [c l]. simpl in *. by subst.
Qed.

Lemma clone_loop_ok ps : Forall (λ kv, clones kv.2) ps → ∀ rs,
  forallb (λ kv, wf_json kv.2) ps = true → NoDup ps.*1 →
  ∃ rs', clone_loop ps (VObj false rs) [] = (VObj false rs', []) ∧
    ∀ k, assoc k rs' = match assoc k ps with Some w => Some (clone_prop w) | None => assoc k rs end.
Proof.
  induction 1 as [|[k v] ps Hv _ IH]; intros rs Hw Hnd; [by exists rs|].
  cbn [forallb fst snd] in Hw. apply andb_true_iff in Hw as [Hwv Hw]. csimpl in Hnd.
  apply NoDup_cons in Hnd as [Hnin Hnd]. destruct (Hv Hwv) as [Hl _].
  rewrite clone_loop_cons by done.
  destruct (IH (prop_put k (clone_prop v) rs) Hw Hnd) as (rs' & E & Ha).
  exists rs'. split; [done|]. intros k'. rewrite Ha. cbn [assoc].
  rewrite assoc_prop_put. destruct (String.eqb k' k) eqn:Ek; [|done]. bool_prop. subst.
  by rewrite (proj2 (assoc_None k ps)).
Qed.

Lemma wf_json_NoDup arr ps : wf_json (VObj arr ps) = true → NoDup ps.*1.
Proof.
  cbn [wf_json]. intros H. apply andb_true_iff in H as [H _]. destruct arr.
  - unfold array_keys in H. apply andb_true_iff in H as [H _]. apply bool_decide_eq_true in H.
    rewrite H. apply NoDup_fmap_2; [|apply NoDup_seq]. intros i j Hij. apply dec_of_N_inj in Hij. lia.
  - apply (canonical_from_NoDup []); [apply NoDup_nil_2|done].
Qed.

Lemma clones_all v : clones v.
Proof.
  induction v as [| |b|n|s|f|arr ps IH] using value_ind; intros Hw; try done;
    try (split; [done|]; by intros []).
  pose proof (wf_json_NoDup arr ps Hw) as Hnd. cbn [wf_json] in Hw. apply andb_true_iff in Hw as [_ Hw].
  destruct (clone_loop_ok ps IH [] Hw Hnd) as (rs' & E & Ha). cbn [clone_prop].
  rewrite cloneObjTemplate_eq. change empty_object with (VObj false []). rewrite E. split; [done|].
  intros [|k p]; [done|]. cbn [fst leaf numeric_at]. rewrite Ha.
  destruct (assoc k ps) as [w|] eqn:Ek; [|done]. apply assoc_elem in Ek.
  rewrite Forall_forall in IH. rewrite forallb_forall in Hw.
  destruct (IH (k, w) Ek) as [_ Hp]; [|apply Hp]. apply (Hw (k, w)). by apply list_elem_of_In.
Qed.

(** [cloneObjTemplate] of a parsed statistics object logs no error and
    builds the all-zero object of the same shape: every leaf is zero, and it
    has a number exactly where the original has one. *)
Theorem cloneObjTemplate_zero arr ps :
  wf_json (VObj arr ps) = true →
  (cloneObjTemplate (VObj arr ps)).2 = [] ∧
  ∀ p, leaf (cloneObjTemplate (VObj arr ps)).1 p = 0%Z ∧
       numeric_at (cloneObjTemplate (VObj arr ps)).1 p = numeric_at (VObj arr ps) p.
Proof. intros H. by apply (clones_all (VObj arr ps)). Qed.

Lemma cloneObjTemplate_zero_witness :
  (cloneObjTemplate sample_a).2 = [] ∧
  ∀ p, leaf (cloneObjTemplate sample_a).1 p = 0%Z ∧ numeric_at (cloneObjTemplate sample_a).1 p = numeric_at sample_a p.
Proof. apply cloneObjTemplate_zero. vm_compute. reflexivity. Defined.
