(* ===== verification/NodeLib.v ===== *)
(** * The parts of Node's core library the tools use

    [path.join] on POSIX systems, with its normalisation. *)

From S2P Require Import Prelude JSNum JSValue.

(** ** path *)

Definition slash : ascii := "/".

(** One path segment resolved against the segments before it, innermost first. *)
Definition push_segment (above_root : bool) (acc : list string) (seg : string) : list string :=
  if String.eqb seg "" || String.eqb seg "." then acc
  else if String.eqb seg ".." then
    match acc with
    | [] => if above_root then [".."] else []
    | s :: acc' => if String.eqb s ".." then ".." :: acc else acc'
    end
  else seg :: acc.

Definition resolve_segments (above_root : bool) (segs : list string) : list string :=
  foldl (push_segment above_root) [] segs.

Fixpoint last_char (s : string) : option ascii :=
  match s with
  | EmptyString => None
  | String c EmptyString => Some c
  | String _ s' => last_char s'
  end.

Definition is_absolute (p : string) : bool :=
  match p with String c _ => Ascii.eqb c slash | EmptyString => false end.

Definition normalize (p : string) : string :=
  if String.eqb p "" then "." else
  let abs := is_absolute p in
  let trailing := match last_char p with Some c => Ascii.eqb c slash | None => false end in
  let q := join "/" (reverse (resolve_segments (negb abs) (split_char slash p))) in
  let q := if String.eqb q "" && negb abs then "." else q in
  let q := if negb (String.eqb q "") && trailing then q +:+ "/" else q in
  (if abs then "/" else "") +:+ q.

Definition path_join (l : list string) : string :=
  let joined := join "/" (filter (λ s, s ≠ "") l) in
  if String.eqb joined "" then "." else normalize joined.

Example path_join_ex1 : path_join ["/srv/app"; "data"; "2015_4_16.log"] = "/srv/app/data/2015_4_16.log".
Proof. vm_compute. reflexivity. Qed.
Example path_join_ex2 : path_join ["upload"; "../../etc/x"] = "../etc/x".
Proof. vm_compute. reflexivity. Qed.
Example path_join_ex3 : path_join ["/a/./b/"; "../c/"] = "/a/c/".
Proof. vm_compute. reflexivity. Qed.

(** A segment that names a directory entry. *)
Definition plain_segment (s : string) : bool :=
  negb (String.eqb s "") && negb (String.eqb s ".") && negb (String.eqb s "..") &&
  str_forallb (λ c, negb (Ascii.eqb c slash)) s.

Lemma push_plain b acc s : plain_segment s = true → push_segment b acc s = s :: acc.
Proof.
  unfold plain_segment, push_segment. intros H. bool_prop.
  by rewrite !(proj2 (String.eqb_neq _ _)) by done.
Qed.

Lemma split_char_app c s t :
  str_forallb (λ a, negb (Ascii.eqb a c)) t = true →
  ∀ l x, split_char c s = l ++ [x] → split_char c (s +:+ String c t) = l ++ [x; t].
Proof.
  intros Ht. assert (split_char c t = [t]) as Et.
  { clear -Ht. induction t as [|a t IH]; [done|]. simpl in *. apply andb_true_iff in Ht as [Ha Ht].
    apply negb_true_iff in Ha. by rewrite Ha, IH. }
  induction s as [|a s IH]; intros l x; simpl.
  - rewrite Ascii.eqb_refl, Et. destruct l as [|? [|]]; intros; simplify_eq/=; done.
  - destruct (Ascii.eqb a c).
    + destruct l as [|y l]; simpl; intros H; [injection H as <- H; by destruct (split_char c s) eqn:E; [destruct s; simpl in E; repeat case_match|]|].
      injection H as <- H. by rewrite (IH _ _ H).
    + destruct (split_char c s) as [|z zs] eqn:E.
      { destruct s; simpl in E; repeat case_match; done. }
      destruct l as [|y l]; simpl; intros H; injection H as <- H.
      * subst. by rewrite (IH [] z).
      * rewrite (IH (z :: l) x); [done|]. simpl. by f_equal.
Qed.

Lemma split_char_snoc c s : ∃ l x, split_char c s = l ++ [x].
Proof.
  assert (split_char c s ≠ []) as Hne by (destruct s; simpl; repeat case_match; done).
  destruct (exists_last Hne) as (l & x & E). eauto.
Qed.

Lemma split_char_plain_end s t :
  str_forallb (λ a, negb (Ascii.eqb a slash)) t = true →
  split_char slash (s +:+ String slash t) = split_char slash s ++ [t].
Proof.
  intros Ht. destruct (split_char_snoc slash s) as (l & x & E). rewrite E.
  rewrite (split_char_app slash s t Ht l x E). by rewrite <-app_assoc.
Qed.

(** The directory part of [path.join(d, e, file)]. *)
Definition path_dir (d e : string) : string :=
  (if is_absolute d then "/" else "") +:+
  join "/" (reverse (resolve_segments (negb (is_absolute d)) (split_char slash d ++ [e]))).

Lemma join_snoc sep l x : l ≠ [] → join sep (l ++ [x]) = join sep l +:+ sep +:+ x.
Proof.
  induction l as [|s [|s' l] IH]; intros Hne; [done|done|].
  change (join sep ((s :: s' :: l) ++ [x])) with (s +:+ sep +:+ join sep ((s' :: l) ++ [x])).
  rewrite IH by done. change (join sep (s :: s' :: l)) with (s +:+ sep +:+ join sep (s' :: l)).
  by rewrite !str_app_assoc.
Qed.

Lemma last_char_app s t : t ≠ "" → last_char (s +:+ t) = last_char t.
Proof.
  intros Ht. induction s as [|c s IH]; [done|]. cbn [append last_char]. rewrite IH.
  destruct (s +:+ t) eqn:E; [|done]. destruct s; simpl in E; [done|done].
Qed.

Lemma last_char_plain t :
  t ≠ "" → str_forallb (λ a, negb (Ascii.eqb a slash)) t = true →
  (match last_char t with Some c => Ascii.eqb c slash | None => false end) = false.
Proof.
  induction t as [|c t IH]; [done|]. intros _ H. cbn [str_forallb] in H. apply andb_true_iff in H as [Hc Ht].
  apply negb_true_iff in Hc. destruct t as [|c' t]; [done|]. by apply IH.
Qed.

Lemma path_join_file d e f :
  d ≠ "" → plain_segment e = true → plain_segment f = true →
  path_join [d; e; f] = path_dir d e +:+ "/" +:+ f.
Proof.
  intros Hd He Hf. pose proof He as He'. pose proof Hf as Hf'.
  unfold plain_segment in He', Hf'. bool_prop. unfold path_join.
  rewrite !filter_cons_True by done. rewrite filter_nil.
  change (join "/" [d; e; f]) with (d +:+ "/" +:+ (e +:+ "/" +:+ f)).
  destruct d as [|c d]; [done|]. set (D := String c d) in *.
  assert (D +:+ "/" +:+ e +:+ "/" +:+ f = (D +:+ String slash e) +:+ String slash f) as ->.
  { rewrite str_app_assoc. done. }
  assert (∀ t, String.eqb (D +:+ t) "" = false) as Hne by done.
  rewrite str_app_assoc, Hne. unfold normalize. rewrite Hne, <-str_app_assoc.
  assert (is_absolute ((D +:+ String slash e) +:+ String slash f) = is_absolute D) as -> by done.
  rewrite !split_char_plain_end by done.
  assert ((match last_char ((D +:+ String slash e) +:+ String slash f) with
           | Some c0 => Ascii.eqb c0 slash | None => false end) = false) as ->.
  { rewrite last_char_app by done. change (String slash f) with ("/" +:+ f).
    rewrite last_char_app by done. by apply last_char_plain. }
  unfold path_dir, resolve_segments. rewrite !foldl_app. cbn [foldl]. rewrite !push_plain by done.
  rewrite reverse_cons, join_snoc by (rewrite reverse_cons; intros E; by apply app_nil in E as [_ ?]).
  rewrite andb_false_r.
  rewrite (proj2 (String.eqb_neq _ "")); [by rewrite !str_app_assoc|].
  rewrite reverse_cons. intros E. apply (f_equal String.length) in E.
  rewrite !str_length_app in E. simpl in E. lia.
Qed.
