(* ===== verification/MonitorLog.v ===== *)
(** * The statistics log of the monitor (monitor.js)

    One file per day, one JSON line per node and minute.  This file models the
    naming of the files ([getFileName]), the readers ([parseDailyStat],
    [getDailyStats], [getStatsOfDay]) and the record that is written
    ([StatInfo]).  The local variables of a reader that its loop assigns are a
    record threaded through the lines; the [try] around each line keeps what
    the line assigned before it threw. *)

From Stdlib Require Import SpecFloat.
From S2P Require Import Prelude JSNum JSValue JSON JSDate StatObj NodeLib.

Definition of_option {A} (e : exn) (o : option A) : res A :=
  match o with Some a => Ret a | None => Throw e end.

(** [v != undefined] is false for [undefined] and [null]. *)
Definition defined (v : value) : bool :=
  match v with VUndef | VNull => false | _ => true end.

(** The body of [for (var i in lines)]: empty lines are skipped, and an
    exception is logged (the line is recorded) and the loop goes on. *)
Fixpoint each_line {St} (body : string → M St unit) (log : string → St → St) (lines : list string) : M St unit :=
  match lines with
  | [] => mret tt
  | line :: ls =>
      (if String.eqb line "" then mret tt
       else try_catch (body line) (λ _, modify (log line)));;
      each_line body log ls
  end.

(** ** The record written to the log *)

Record StatInfo := {
  si_node_id : string;
  si_node_addr : string;
  si_stats_url : string;
  si_time : Z;            (* a valid Date *)
  si_index : Z;
  si_delay : Z;
  si_info : value
}.

(** The object JSON.stringify sees; a Date prints as its ISO string. *)
Definition statinfo_object (s : StatInfo) : value :=
  VObj false [("node_id", VStr (si_node_id s)); ("node_addr", VStr (si_node_addr s));
              ("stats_url", VStr (si_stats_url s)); ("time", VStr (toISOString (si_time s)));
              ("m_index", VInt (si_index s)); ("delay", VInt (si_delay s)); ("info", si_info s)].

Section monitor_log.
Context (tz : Z) (legacy_parse : string → date) (dirname : string).

(** [getFileName(date)] for a given date. *)
Definition getFileName (d : date) : string :=
  let filename :=
    num_to_string (getFullYear tz d) +:+ "_" +:+
    num_to_string (num_add (getMonth tz d) (num_of_Z 1)) +:+ "_" +:+
    num_to_string (getDate tz d) +:+ ".log" in
  path_join [dirname; "data"; filename].

(** [new Date(v)] *)
Definition to_date (v : value) : res date :=
  p ← to_primitive v;
  Ret (match p with
       | VStr s => parse_date legacy_parse s
       | _ => match num_trunc (prim_to_num p) with Some t => time_clip t | None => None end
       end).

Definition two_digits (n : num) : string :=
  if num_leb (num_of_Z 10) n then num_to_string n else "0" +:+ num_to_string n.

Definition getMinuteOfTime (time : value) : res string :=
  d ← to_date time;
  Ret (two_digits (getHours tz d) +:+ ":" +:+ two_digits (getMinutes tz d)).

(** ** parseDailyStat *)

Record daily_vars := {
  min_log : value;
  max_log : value;
  merged_stats : value;
  daily_logged : list string
}.

Definition daily_init : daily_vars :=
  {| min_log := VNull; max_log := VNull; merged_stats := empty_object; daily_logged := [] |}.

Definition set_min (v : value) : M daily_vars unit :=
  modify (λ s, {| min_log := v; max_log := max_log s; merged_stats := merged_stats s; daily_logged := daily_logged s |}).
Definition set_max (v : value) : M daily_vars unit :=
  modify (λ s, {| min_log := min_log s; max_log := v; merged_stats := merged_stats s; daily_logged := daily_logged s |}).
Definition set_merged (v : value) : M daily_vars unit :=
  modify (λ s, {| min_log := min_log s; max_log := max_log s; merged_stats := v; daily_logged := daily_logged s |}).
Definition log_daily (l : string) (s : daily_vars) : daily_vars :=
  {| min_log := min_log s; max_log := max_log s; merged_stats := merged_stats s; daily_logged := daily_logged s ++ [l] |}.

(** [accumulateObj(merged.info, item.info)]: the outcome and the mutated [merged]. *)
Definition accumulate_info (merged item : value) : res unit * value :=
  match get merged "info", get item "info" with
  | Ret a, Ret b => let '(r, a') := accumulateObj b a in (r, put_back merged "info" a')
  | Throw e, _ | _, Throw e => (Throw e, merged)
  end.

(** The body of the loop after [item = JSON.parse(line)]. *)
Definition daily_item (node_id : num) (item : value) : M daily_vars unit :=
  if negb (num_eqb node_id (num_of_Z (-1))) then
    id ← lift (get item "node_id");
    same ← lift (loose_eq id (VNum node_id));
    if (same : bool) then
      m ← gets min_log;
      (if truthy m then mret tt else set_min item);;
      set_max item
    else mret tt
  else
    merged ← gets merged_stats;
    mi ← lift (get merged "m_index");
    if defined mi then
      ii ← lift (get item "m_index");
      same ← lift (loose_eq mi ii);
      if (same : bool) then
        let '(r, merged') := accumulate_info merged item in
        set_merged merged';; lift r
      else
        m ← gets min_log;
        (if truthy m then mret tt else set_min merged);;
        set_max merged;;
        set_merged item
    else set_merged item.

Definition daily_line (node_id : num) (line : string) : M daily_vars unit :=
  item ← lift (of_option SyntaxError (parse line));
  daily_item node_id item.

(** [diff_log] is the object of the differences; the source stores the three
    other fields on the same object. *)
Record DailyStat := {
  diff_log : value;
  start_minute : string;
  end_minute : string;
  stat_date : date
}.

(** The report once the loop is done; [None] is the [null] of the source. *)
Definition daily_report (s : daily_vars) : res (option DailyStat) :=
  if negb (truthy (min_log s)) || negb (truthy (max_log s)) then Ret None
  else
    diff ← subtractObj (max_log s) (min_log s);
    tmin ← get (min_log s) "time";
    start ← getMinuteOfTime tmin;
    tmax ← get (max_log s) "time";
    stop ← getMinuteOfTime tmax;
    d ← to_date tmin;
    Ret (Some {| diff_log := diff; start_minute := start; end_minute := stop; stat_date := d |}).

Definition parseDailyStat (content : string) (node_id : num) : res (option DailyStat) :=
  let '(_, s) := each_line (daily_line node_id) log_daily (split_char newline content) daily_init in
  daily_report s.

(** ** getDailyStats *)

(** Each read of the log directory: the content of a file, or [None] when
    reading it fails. *)
Context (read_file : string → option string).
(** EventProxy's [after] over a [group]: what it hands to the callback once
    every member of the group has its result, given the results in the order
    the members were created. *)
Context (ep_after : list (option (string * string)) → list (option (string * string))).
(** Array.prototype.sort: the order it gives is the implementation's when the
    comparison is not consistent, so it is a parameter. *)
Context (js_sort : (DailyStat → DailyStat → bool) → list DailyStat → list DailyStat).

Record daily_option := { do_offset : num; do_id : num; do_max : option Z }.

(** The loop that steps one day back and collects a file name each time. *)
Fixpoint file_names (n : nat) (d : date) : list string :=
  match n with
  | O => []
  | S n' =>
      let d' := setDate tz d (num_sub (getDate tz d) (num_of_Z 1)) in
      getFileName d' :: file_names n' d'
  end.

Definition daily_files (now : Z) (o : daily_option) : list string :=
  let max := match do_max o with Some m => if (m =? 0)%Z then 30%Z else m | None => 30%Z end in
  let d := Some now in
  let d := setDate tz d (num_add (num_add (getDate tz d) (do_offset o)) (num_of_Z 1)) in
  file_names (Z.to_nat max) d.

Definition readFileNoError (filename : string) : option (string * string) :=
  match read_file filename with Some content => Some (filename, content) | None => None end.

(** The reports of the files that could be read, in the order of the list. *)
Fixpoint collect_stats (node_id : num) (l : list (option (string * string))) : res (list DailyStat) :=
  match l with
  | [] => Ret []
  | None :: l' => collect_stats node_id l'
  | Some (_, content) :: l' =>
      st ← parseDailyStat content node_id;
      rest ← collect_stats node_id l';
      Ret (match st with Some x => x :: rest | None => rest end)
  end.

(** [left.date.getTime() > right.date.getTime()] *)
Definition later (left right : DailyStat) : bool :=
  match stat_date left, stat_date right with
  | Some a, Some b => (b <? a)%Z
  | _, _ => false
  end.

Definition getDailyStats (now : Z) (o : daily_option) : res (list DailyStat) :=
  valid_stats ← collect_stats (do_id o) (ep_after (readFileNoError <$> daily_files now o));
  Ret (js_sort later valid_stats).

(** ** getStatsOfDay *)

Record day_vars := {
  stats_list : list (option value);   (* a sparse array; [None] is a hole *)
  day_merged : value;
  one_valid_item : value;
  valid_is_merged : bool;             (* the two variables hold the same object *)
  day_logged : list string
}.

Definition day_init : day_vars :=
  {| stats_list := []; day_merged := empty_object; one_valid_item := VNull; valid_is_merged := false;
     day_logged := [] |}.

Definition set_stats (l : list (option value)) : M day_vars unit :=
  modify (λ s, {| stats_list := l; day_merged := day_merged s; one_valid_item := one_valid_item s;
                  valid_is_merged := valid_is_merged s; day_logged := day_logged s |}).
(** [merged_stats = item]; [same] when [one_valid_item] is that item too. *)
Definition set_day_merged (same : bool) (v : value) : M day_vars unit :=
  modify (λ s, {| stats_list := stats_list s; day_merged := v; one_valid_item := one_valid_item s;
                  valid_is_merged := same; day_logged := day_logged s |}).
(** The object of [merged_stats] is mutated in place. *)
Definition mutate_merged (v : value) : M day_vars unit :=
  modify (λ s, {| stats_list := stats_list s; day_merged := v;
                  one_valid_item := if valid_is_merged s then v else one_valid_item s;
                  valid_is_merged := valid_is_merged s; day_logged := day_logged s |}).
Definition set_valid (v : value) : M day_vars unit :=
  modify (λ s, {| stats_list := stats_list s; day_merged := day_merged s; one_valid_item := v;
                  valid_is_merged := false; day_logged := day_logged s |}).
Definition log_day (l : string) (s : day_vars) : day_vars :=
  {| stats_list := stats_list s; day_merged := day_merged s; one_valid_item := one_valid_item s;
     valid_is_merged := valid_is_merged s; day_logged := day_logged s ++ [l] |}.

(** [arr[i] = x] for an array index: the array grows, with holes. *)
Definition arr_set {A} (l : list (option A)) (i : nat) (x : A) : list (option A) :=
  if decide (i < length l) then <[i := Some x]> l
  else l ++ replicate (i - length l) None ++ [Some x].

(** [arr[key] = item] for any key: a name that is not an index leaves the
    elements alone, and an object is no array length. *)
Definition arr_assign (key item : value) : M day_vars unit :=
  k ← lift (to_string key);
  l ← gets stats_list;
  match index_of k with
  | Some i => set_stats (arr_set l (N.to_nat i) item)
  | None => if String.eqb k "length" then raise RangeError else mret tt
  end.

(** The record of the requested node is stored under its minute. *)
Definition store_own (node_id : num) (item : value) : M day_vars unit :=
  id ← lift (get item "node_id");
  same ← lift (loose_eq id (VNum node_id));
  if (same : bool) then
    i ← lift (get item "m_index");
    arr_assign i item
  else mret tt.

(** With id -1 the record is merged into the current minute or starts the
    next; [first] when the record is also [one_valid_item]. *)
Definition merge_item (first : bool) (item : value) : M day_vars unit :=
  merged ← gets day_merged;
  mi ← lift (get merged "m_index");
  if defined mi then
    ii ← lift (get item "m_index");
    same ← lift (loose_eq mi ii);
    if (same : bool) then
      let '(r, merged') := accumulate_info merged item in
      mutate_merged merged';; lift r
    else
      arr_assign mi merged;;
      set_day_merged first item
  else set_day_merged first item.

(** The body of the loop after [item = JSON.parse(line)]. *)
Definition day_item (node_id : num) (item : value) : M day_vars unit :=
  ov ← gets one_valid_item;
  (if truthy ov then mret tt else set_valid item);;
  if negb (num_eqb node_id (num_of_Z (-1))) then store_own node_id item
  else merge_item (negb (truthy ov)) item.

Definition day_line (node_id : num) (line : string) : M day_vars unit :=
  item ← lift (of_option SyntaxError (parse line));
  day_item node_id item.

(** The last group is appended unless it is already the last element. *)
Definition push_last (s : day_vars) : res (list (option value)) :=
  mi ← get (day_merged s) "m_index";
  if defined mi && negb (bool_decide (stats_list s = [])) then
    lastv ← of_option TypeError (mjoin (last (stats_list s)));
    li ← get lastv "m_index";
    same ← loose_eq mi li;
    Ret (if (same : bool) then stats_list s else stats_list s ++ [Some (day_merged s)])
  else Ret (stats_list s).

(** One element of the answer: the item with its minute, or a filler for a
    hole (or for an element that is falsy). *)
Definition filler (node_id : num) (valid : value) (i : nat) : res value :=
  info ← get valid "info";
  Ret (VObj false [("node_id", VNum node_id); ("node_addr", VStr "--"); ("stats_url", VStr "--");
                   ("time", VStr "--"); ("minute", VStr "--"); ("m_index", VInt (Z.of_nat i));
                   ("delay", VStr "--"); ("info", (cloneObjTemplate info).1)]).

Definition fill_item (node_id : num) (valid : value) (i : nat) (o : option value) : res value :=
  match o with
  | Some v =>
      if truthy v then
        time ← get v "time";
        m ← getMinuteOfTime time;
        Ret (put v "minute" (VStr m))
      else filler node_id valid i
  | None => filler node_id valid i
  end.

Fixpoint fill_items (node_id : num) (valid : value) (i : nat) (l : list (option value)) : res (list value) :=
  match l with
  | [] => Ret []
  | o :: l' =>
      v ← fill_item node_id valid i o;
      vs ← fill_items node_id valid (S i) l';
      Ret (v :: vs)
  end.

Record day_option := { ds_offset : num; ds_id : num }.

(** What the callback of [getStatsOfDay] receives, or the exception that
    escapes the handler of [fs.readFile]. *)
Definition stats_of_content (node_id : num) (data : string) : res (list value) :=
  let '(_, s) := each_line (day_line node_id) log_day (split_char newline data) day_init in
  l ← push_last s;
  fill_items node_id (one_valid_item s) 0 l.

Definition stats_file (now : Z) (o : day_option) : string :=
  getFileName (setDate tz (Some now) (num_add (getDate tz (Some now)) (ds_offset o))).

Definition getStatsOfDay (now : Z) (o : day_option) : res (list value) :=
  match read_file (stats_file now o) with
  | None => Ret []
  | Some data => stats_of_content (ds_id o) data
  end.
End monitor_log.
