(* ===== verification/LogFiles.v ===== *)
(** * The files of the log

    [getFileName] gives every local day a file of its own, and the readers
    open the files of the days they are asked for. *)

From Stdlib Require Import SpecFloat.
From S2P Require Import Prelude JSNum JSValue JSDate NodeLib MonitorLog.

(** ** Names *)

Definition valid_time (t : Z) : Prop := (Z.abs t ≤ 8640000000000000)%Z.
(** An offset from UTC is less than a day. *)
Definition valid_offset (tz : Z) : Prop := (Z.abs tz ≤ 86400000)%Z.

(** The name of the file of a day. *)
Definition day_file (day : Z) : string :=
  let '(y, m, d) := civil_of_days day in
  dec_of_Z y +:+ String "_" (dec_of_Z m +:+ String "_" (dec_of_Z d +:+ ".log")).

Lemma civil_year_bound day y m d :
  civil_of_days day = (y, m, d) → (Z.abs day ≤ 100000002)%Z → (Z.abs y < 1000000)%Z.
Proof.
  intros H Hd. apply civil_of_days_spec in H as (<- & Hm & Hday).
  unfold days_of_civil in Hd. destruct (m <=? 2)%Z; divlia.
Qed.

Lemma local_day_bound tz t : valid_time t → valid_offset tz → (Z.abs (local_day tz t) ≤ 100000002)%Z.
Proof. unfold valid_time, valid_offset, local_day, ms_per_day. intros. divlia. Qed.

Lemma str_forallb_impl (f g : ascii → bool) s :
  (∀ c, f c = true → g c = true) → str_forallb f s = true → str_forallb g s = true.
Proof.
  intros Hfg. induction s as [|c s IH]; [done|]. simpl. intros H. apply andb_true_iff in H as [Hc Hs].
  by rewrite Hfg, IH.
Qed.

Lemma dec_of_Z_chars z : str_forallb (λ c, negb (Ascii.eqb c "_") && negb (Ascii.eqb c slash)) (dec_of_Z z) = true.
Proof.
  assert (∀ s, str_forallb is_digit s = true →
    str_forallb (λ c, negb (Ascii.eqb c "_") && negb (Ascii.eqb c slash)) s = true) as Hd.
  { intros s. apply str_forallb_impl. intros c Hc. destruct (Ascii.eqb_spec c "_") as [->|]; [done|].
    destruct (Ascii.eqb_spec c slash) as [->|]; done. }
  destruct z as [|p|p]; [done|apply Hd, digits_dec_of_N|]. cbn [dec_of_Z append str_forallb].
  rewrite Hd by apply digits_dec_of_N. done.
Qed.

Lemma str_app_inj_l s t u : s +:+ t = s +:+ u → t = u.
Proof. induction s as [|c s IH]; simpl; [done|]. intros H. simplify_eq. by apply IH. Qed.

#[export] Instance dec_of_Z_inj : Inj (=) (=) dec_of_Z.
Proof.
  assert (∀ p, str_forallb is_digit (dec_of_N (Npos p)) = true) as Hd by (intros; apply digits_dec_of_N).
  assert (∀ p s, dec_of_N (Npos p) ≠ String "-" s) as Hm.
  { intros p s E. specialize (Hd p). by rewrite E in Hd. }
  assert (∀ p, dec_of_N (Npos p) ≠ "0") as H0.
  { intros p E. change "0" with (dec_of_N 0) in E. by apply dec_of_N_inj in E. }
  intros [|p|p] [|q|q] H; cbn [dec_of_Z append] in H; try done;
    try (exfalso; first [by eapply H0 | by eapply Hm | by symmetry in H; eapply H0 | by symmetry in H; eapply Hm]).
  - apply dec_of_N_inj in H. by simplify_eq.
  - injection H as H. apply dec_of_N_inj in H. by simplify_eq.
Qed.

(** A text up to the first separator is determined. *)
Lemma before_sep_inj c a a' b b' :
  str_forallb (λ x, negb (Ascii.eqb x c)) a = true → str_forallb (λ x, negb (Ascii.eqb x c)) a' = true →
  a +:+ String c b = a' +:+ String c b' → a = a' ∧ b = b'.
Proof.
  revert a'. induction a as [|x a IH]; intros [|x' a'] Ha Ha' H; simpl in *; simplify_eq; [done| | |].
  - by rewrite Ascii.eqb_refl in Ha'.
  - by rewrite Ascii.eqb_refl in Ha.
  - bool_prop. destruct (IH a') as [-> ->]; done.
Qed.

Lemma str_app_inj_r s t u : s +:+ u = t +:+ u → s = t.
Proof.
  revert t. induction s as [|c s IH]; intros [|c' t] H; simpl in H; [done| | |].
  - apply (f_equal String.length) in H. simpl in H. rewrite str_length_app in H. lia.
  - apply (f_equal String.length) in H. simpl in H. rewrite str_length_app in H. lia.
  - simplify_eq. f_equal. by apply IH.
Qed.

Lemma dec_of_Z_no_underscore z : str_forallb (λ c, negb (Ascii.eqb c "_")) (dec_of_Z z) = true.
Proof. eapply str_forallb_impl, dec_of_Z_chars. by intros c [H _]%andb_true_iff. Qed.

#[export] Instance day_file_inj : Inj (=) (=) day_file.
Proof.
  intros a b H. unfold day_file in H.
  destruct (civil_of_days a) as [[y m] d] eqn:Ea, (civil_of_days b) as [[y' m'] d'] eqn:Eb.
  apply before_sep_inj in H as [Hy H]; [|apply dec_of_Z_no_underscore..].
  apply before_sep_inj in H as [Hm H]; [|apply dec_of_Z_no_underscore..].
  apply str_app_inj_r in H. apply dec_of_Z_inj in Hy, Hm, H. subst. apply civil_of_days_inj. congruence.
Qed.

Lemma day_file_plain day : plain_segment (day_file day) = true.
Proof.
  unfold plain_segment, day_file. destruct (civil_of_days day) as [[y m] d].
  assert (∀ z, str_forallb (λ c, negb (Ascii.eqb c slash)) (dec_of_Z z) = true) as Hz.
  { intros z. eapply str_forallb_impl, dec_of_Z_chars. by intros c [_ H]%andb_true_iff. }
  assert (∀ s, (String.length s ≤ 2)%nat →
     dec_of_Z y +:+ String "_" (dec_of_Z m +:+ String "_" (dec_of_Z d +:+ ".log")) ≠ s) as Hlen.
  { intros s Hs E. apply (f_equal String.length) in E. rewrite !str_length_app in E. simpl in E.
    do 2 (rewrite !str_length_app in E; simpl in E). lia. }
  rewrite !(proj2 (String.eqb_neq _ _)) by (apply Hlen; simpl; lia).
  rewrite str_forallb_app, Hz. cbn [str_forallb]. rewrite str_forallb_app, Hz. cbn [str_forallb].
  rewrite str_forallb_app, Hz. done.
Qed.

Section files.
Context (tz : Z) (dirname : string) (Htz : valid_offset tz) (Hdir : dirname ≠ "").

(** The path of the file of a day. *)
Definition day_path (day : Z) : string := path_dir dirname "data" +:+ "/" +:+ day_file day.

Lemma getFileName_day t : valid_time t → getFileName tz dirname (Some t) = day_path (local_day tz t).
Proof.
  intros Ht. pose proof (local_day_bound tz t Ht Htz) as Hb. unfold getFileName, day_path.
  cbv [getFullYear getMonth getDate field year_of month_of mday_of].
  pose proof (day_file_plain (local_day tz t)) as Hp. unfold day_file in *.
  destruct (civil_of_days (local_day tz t)) as [[y m] d] eqn:E. cbn [fst snd].
  pose proof (civil_year_bound _ _ _ _ E Hb) as Hy. apply civil_of_days_spec in E as (_ & Hm & Hd).
  rewrite num_add_safe by (unfold safe; lia). replace (m - 1 + 1)%Z with m by lia.
  rewrite !num_to_string_safe by (unfold safe; lia). by rewrite path_join_file.
Qed.

#[local] Instance day_path_inj : Inj (=) (=) day_path.
Proof. intros a b H. unfold day_path in H. by apply str_app_inj_l, str_app_inj_l, day_file_inj in H. Qed.

Lemma setDate_shift t k n :
  valid_time (t + k * ms_per_day) → n = num_of_Z (mday_of tz t + k) → safe (mday_of tz t + k) →
  setDate tz (Some t) n = Some (t + k * ms_per_day)%Z.
Proof.
  unfold valid_time. intros Hv -> Hs. rewrite setDate_getDate by done. unfold time_clip.
  by rewrite (proj2 (Z.leb_le _ _)).
Qed.

(** A number of days that stays within the range of dates is small. *)
Lemma days_small t k : valid_time t → valid_time (t + k * ms_per_day) → (Z.abs k ≤ 200000000)%Z.
Proof. unfold valid_time, ms_per_day. lia. Qed.

Lemma file_names_days n : ∀ t,
  valid_time t → valid_time (t - Z.of_nat n * ms_per_day) →
  file_names tz dirname n (Some t) = (λ i, day_path (local_day tz t - i)) <$> seqZ 1 (Z.of_nat n).
Proof.
  induction n as [|n IH]; intros t Ht Hn; [done|]. cbn [file_names].
  pose proof (mday_bounds tz t) as Hm.
  assert (valid_time (t + -1 * ms_per_day)) as Hv.
  { unfold valid_time, ms_per_day in *. lia. }
  rewrite (setDate_shift t (-1)); [|done| |unfold safe; lia].
  2: { unfold getDate, field. rewrite num_sub_safe by (unfold safe; lia). f_equal. }
  rewrite getFileName_day by done. rewrite seqZ_cons by lia. cbn [fmap list_fmap].
  rewrite local_day_shift. f_equal. rewrite IH; [|done|].
  - rewrite local_day_shift. replace (Z.pred (Z.of_nat (S n))) with (Z.of_nat n) by lia.
    change (Z.succ 1) with (1 + 1)%Z. rewrite <-fmap_add_seqZ, <-list_fmap_compose.
    apply list_fmap_ext. intros i x _. simpl. f_equal. lia.
  - unfold valid_time, ms_per_day in *. lia.
Qed.
End files.

(** Log files correspond to local days: two times have the same log file
    exactly when they are on the same day of the local calendar. *)
Theorem getFileName_one_per_day tz dirname t t' :
  valid_offset tz → dirname ≠ "" → valid_time t → valid_time t' →
  getFileName tz dirname (Some t) = getFileName tz dirname (Some t') ↔ local_day tz t = local_day tz t'.
Proof.
  intros Htz Hdir Ht Ht'. rewrite !getFileName_day by done. split; [|by intros ->]. apply day_path_inj.
Qed.

Lemma getFileName_one_per_day_witness :
  getFileName 28800000 "/srv/monitor" (Some 1429113599999%Z) =
    getFileName 28800000 "/srv/monitor" (Some 1429113600000%Z) ↔
  local_day 28800000 1429113599999 = local_day 28800000 1429113600000.
Proof. apply getFileName_one_per_day; [unfold valid_offset|discriminate|unfold valid_time..]; lia. Defined.

Lemma stats_file_path tz dirname now k id :
  valid_offset tz → dirname ≠ "" → valid_time now → valid_time (now + k * ms_per_day) →
  stats_file tz dirname now {| ds_offset := num_of_Z k; ds_id := id |} = day_path dirname (local_day tz now + k).
Proof.
  intros Htz Hdir Hn Hk. pose proof (days_small _ _ Hn Hk) as Hs. pose proof (mday_bounds tz now) as Hm.
  unfold stats_file. cbn [ds_offset]. rewrite (setDate_shift tz now k); [|done| |unfold safe; lia].
  - rewrite getFileName_day by done. by rewrite local_day_shift.
  - unfold getDate, field. by rewrite num_add_safe by (unfold safe; lia).
Qed.

Lemma daily_files_paths tz dirname now k n id :
  valid_offset tz → dirname ≠ "" → (0 < n)%Z → valid_time now →
  valid_time (now + (k + 1) * ms_per_day) → valid_time (now + (k + 1 - n) * ms_per_day) →
  daily_files tz dirname now {| do_offset := num_of_Z k; do_id := id; do_max := Some n |} =
    (λ i, day_path dirname (local_day tz now + k - i)) <$> seqZ 0 n.
Proof.
  intros Htz Hdir Hpos Hn Hk Hl. pose proof (days_small _ _ Hn Hk) as Hs. pose proof (mday_bounds tz now) as Hm.
  unfold daily_files. cbn [do_max do_offset]. rewrite (proj2 (Z.eqb_neq n 0)) by lia.
  rewrite (setDate_shift tz now (k + 1)); [|done| |unfold safe; lia].
  - rewrite file_names_days; try done.
    + rewrite local_day_shift, Z2Nat.id by lia. change 1%Z with (1 + 0)%Z at 2.
      rewrite <-fmap_add_seqZ, <-list_fmap_compose.
      apply list_fmap_ext. intros i x _. simpl. f_equal. lia.
    + rewrite Z2Nat.id by lia. replace (_ - _)%Z with (now + (k + 1 - n) * ms_per_day)%Z by lia. done.
  - unfold getDate, field. rewrite !num_add_safe by (unfold safe; lia). f_equal. lia.
Qed.

(** The files a reader opens: [getStatsOfDay] with offset [k] reads the
    file of the local day [k] days from now, and [getDailyStats] with offset
    [k] and maximum [n] reads the files of the [n] days that end with that day,
    latest first; months and years of any length are crossed correctly. *)
Theorem files_of_days tz dirname now k n id :
  valid_offset tz → dirname ≠ "" → (0 < n)%Z → valid_time now →
  valid_time (now + (k + 1) * ms_per_day) → valid_time (now + (k + 1 - n) * ms_per_day) →
  stats_file tz dirname now {| ds_offset := num_of_Z k; ds_id := id |} = day_path dirname (local_day tz now + k) ∧
  daily_files tz dirname now {| do_offset := num_of_Z k; do_id := id; do_max := Some n |} =
    (λ i, day_path dirname (local_day tz now + k - i)) <$> seqZ 0 n.
Proof.
  intros. split; [|by apply daily_files_paths]. apply stats_file_path; try done.
  unfold valid_time, ms_per_day in *. lia.
Qed.

Lemma files_of_days_witness :
  stats_file 28800000 "/srv/monitor" 1425168000000 {| ds_offset := num_of_Z (-1); ds_id := num_of_Z 0 |} =
    day_path "/srv/monitor" (local_day 28800000 1425168000000 + -1) ∧
  daily_files 28800000 "/srv/monitor" 1425168000000
      {| do_offset := num_of_Z (-1); do_id := num_of_Z 0; do_max := Some 3%Z |} =
    (λ i, day_path "/srv/monitor" (local_day 28800000 1425168000000 + -1 - i)) <$> seqZ 0 3.
Proof.
  apply files_of_days; [unfold valid_offset|discriminate|..|unfold valid_time, ms_per_day|unfold valid_time, ms_per_day|unfold valid_time, ms_per_day]; lia.
Defined.
