(* ===== verification/LogFacts.v ===== *)
(** * What the readers of the statistics log compute

    The log is a text of lines printed by JSON.stringify from [StatInfo]
    records.  The theorems relate the answers of the readers to the records
    that were written. *)

From Stdlib Require Import SpecFloat.
From S2P Require Import Prelude JSNum JSValue JSON JSDate StatObj NodeLib MonitorLog.

(** ** The written log reads back *)

Definition log_line (s : StatInfo) : string := or_null (stringify (statinfo_object s)).
Definition log_text (items : list StatInfo) : string := concat_lines (log_line <$> items).

Definition is_object (v : value) : bool := match v with VObj _ _ => true | _ => false end.

(** A record as the monitor writes it: counters are safe integers, the minute
    index is one of the day, and the time has a four-digit year. *)
Definition wf_stat (s : StatInfo) : bool :=
  bool_decide (is_Some (index_of (si_node_id s))) && wf_json (si_info s) && is_object (si_info s) &&
  bool_decide (0 ≤ si_index s < 1440)%Z && bool_decide (safe (si_delay s)) &&
  bool_decide (iso_range (si_time s)).

Lemma safe_small z : (Z.abs z < 1000000)%Z → safe z.
Proof. unfold safe. lia. Qed.

Lemma index_of_inv k : is_Some (index_of k) → ∃ n, k = dec_of_N n ∧ (n < 2 ^ 32 - 1)%N.
Proof.
  unfold index_of. destruct (N_of_dec k) as [n|]; [|by intros []]. case_if; [|by intros []].
  bool_prop. intros _. exists n. split; [done|]. by apply N.ltb_lt.
Qed.

Lemma wf_stat_inv s :
  wf_stat s = true →
  (∃ n, si_node_id s = dec_of_N n ∧ (n < 2 ^ 32 - 1)%N) ∧ wf_json (si_info s) = true ∧ is_object (si_info s) = true ∧ (0 ≤ si_index s < 1440)%Z ∧
  safe (si_index s) ∧ safe (si_delay s) ∧ iso_range (si_time s).
Proof.
  unfold wf_stat. intros H. bool_prop.
  repeat match goal with E : bool_decide _ = true |- _ => apply bool_decide_eq_true in E end.
  split_and!; try done; try lia; [by apply index_of_inv|apply safe_small; lia].
Qed.

Lemma wf_statinfo_object s : wf_stat s = true → wf_json (statinfo_object s) = true.
Proof.
  intros H. apply wf_stat_inv in H as (_ & Hi & _ & _ & Hx & Hd & _).
  unfold statinfo_object, VInt. cbn [wf_json forallb snd]. rewrite Hi, !safe_num_VInt by done. done.
Qed.

Lemma log_line_stringify s : wf_stat s = true → stringify (statinfo_object s) = Some (log_line s).
Proof.
  intros H. apply wf_statinfo_object in H. unfold log_line.
  destruct (wf_stringify _ H) as [t ->]. done.
Qed.

Lemma parse_log_line s : wf_stat s = true → parse (log_line s) = Some (statinfo_object s).
Proof.
  intros H. apply parse_stringify; [by apply wf_statinfo_object|by apply log_line_stringify].
Qed.

Lemma log_line_one_line s : wf_stat s = true → no_newline (log_line s) = true.
Proof.
  intros H. eapply stringify_no_newline; [by apply wf_statinfo_object|by apply log_line_stringify].
Qed.

Lemma log_line_nonempty s : log_line s ≠ "".
Proof. unfold log_line, statinfo_object. by rewrite stringify_object. Qed.

Lemma split_log_text items :
  Forall (λ s, wf_stat s = true) items → split_char newline (log_text items) = (log_line <$> items) ++ [""].
Proof.
  intros H. apply split_concat_lines. apply Forall_fmap.
  eapply Forall_impl; [exact H|]. intros s Hs. by apply log_line_one_line.
Qed.

(** The loop of a reader simulates [step] on an abstract state: [emb] gives the
    variables of the reader, and [P] says which records may still come. *)
Lemma log_loop {St A} (body : string → M St unit) log (emb : A → St)
    (step : A → StatInfo → A) (P : A → list StatInfo → Prop) items :
  Forall (λ s, wf_stat s = true) items →
  (∀ st it r, wf_stat it = true → P st (it :: r) →
     body (log_line it) (emb st) = (Ret tt, emb (step st it)) ∧ P (step st it) r) →
  ∀ st, P st items →
  each_line body log (split_char newline (log_text items)) (emb st) = (Ret tt, emb (foldl step st items)).
Proof.
  intros Hwf Hstep. rewrite split_log_text by done.
  induction Hwf as [|it items Hit _ IH]; intros st HP; [done|].
  cbn [fmap list_fmap app each_line foldl]. rewrite (proj2 (String.eqb_neq _ "")) by apply log_line_nonempty.
  destruct (Hstep st it items Hit HP) as [E HP']. unfold mbind, M_bind, try_catch. rewrite E. by apply IH.
Qed.

(** The same for a reader whose first record initialises the abstract state. *)
Lemma log_loop_first {St A} (body : string → M St unit) log (emb : A → St)
    (step : A → StatInfo → A) (P : A → list StatInfo → Prop) it items s0 a0 :
  Forall (λ s, wf_stat s = true) (it :: items) →
  body (log_line it) s0 = (Ret tt, emb a0) →
  (∀ st it r, wf_stat it = true → P st (it :: r) →
     body (log_line it) (emb st) = (Ret tt, emb (step st it)) ∧ P (step st it) r) →
  P a0 items →
  each_line body log (split_char newline (log_text (it :: items))) s0 = (Ret tt, emb (foldl step a0 items)).
Proof.
  intros Hw H0 Hstep HP. pose proof Hw as Hw'. apply Forall_cons in Hw' as [_ Hws].
  rewrite <-(log_loop body log emb step P items Hws Hstep a0 HP), !split_log_text by done.
  cbn [fmap list_fmap app each_line]. rewrite (proj2 (String.eqb_neq _ "")) by apply log_line_nonempty.
  unfold mbind at 1, M_bind at 1, try_catch. by rewrite H0.
Qed.

Lemma day_line_record node_id it s : wf_stat it = true →
  day_line node_id (log_line it) s = day_item node_id (statinfo_object it) s.
Proof. intros Hw. unfold day_line. cbv [mbind M_bind lift]. by rewrite parse_log_line. Qed.

Lemma daily_line_record node_id it s : wf_stat it = true →
  daily_line node_id (log_line it) s = daily_item node_id (statinfo_object it) s.
Proof. intros Hw. unfold daily_line. cbv [mbind M_bind lift]. by rewrite parse_log_line. Qed.

(** ** Node ids: the reader compares the string id of a record with a number *)

Lemma rtrim_digits s : str_forallb is_digit s = true → rtrim s = s.
Proof.
  induction s as [|c s IH]; [done|]. cbn [str_forallb rtrim]. intros H. apply andb_true_iff in H as [Hc Hs].
  rewrite (IH Hs). destruct s; [|done]. by destruct c as [[] [] [] [] [] [] [] []].
Qed.

Lemma ltrim_digits s : str_forallb is_digit s = true → ltrim s = s.
Proof.
  destruct s as [|c s]; [done|]. cbn [str_forallb ltrim]. intros H. apply andb_true_iff in H as [Hc Hs].
  by destruct c as [[] [] [] [] [] [] [] []].
Qed.

Lemma unsigned_decimal_digits s :
  str_forallb is_digit s = true → s ≠ "" →
  unsigned_decimal false s = num_of_decimal false (nat_of_digits s) 0.
Proof.
  intros Hd Hn. unfold unsigned_decimal.
  replace (String.eqb s "Infinity") with false
    by (symmetry; apply String.eqb_neq; intros ->; done).
  pose proof (span_digits_app s "" Hd eq_refl) as E. rewrite str_app_nil_r in E. rewrite E.
  rewrite (proj2 (String.eqb_neq s "")) by done. simpl. by rewrite str_app_nil_r.
Qed.

Lemma num_of_decimal_N n : num_of_decimal false n 0 = num_of_Z (Z.of_N n).
Proof. destruct n as [|p]; [done|]. apply (num_of_decimal_int false p). Qed.

Lemma string_to_num_dec n : string_to_num (dec_of_N n) = num_of_Z (Z.of_N n).
Proof.
  pose proof (digits_dec_of_N n) as Hd. pose proof (dec_of_N_nonempty n) as Hn.
  pose proof (dec_of_N_no_leading_zero n) as Hz.
  transitivity (unsigned_decimal false (dec_of_N n)).
  2: { by rewrite unsigned_decimal_digits, nat_of_digits_dec, num_of_decimal_N. }
  unfold string_to_num.
  rewrite ltrim_digits, rtrim_digits by done. destruct (dec_of_N n) as [|c d]; [done|].
  cbn [str_forallb] in Hd. apply andb_true_iff in Hd as [Hc _].
  destruct c as [[] [] [] [] [] [] [] []]; try done. by destruct d.
Qed.

Lemma node_id_eq k n :
  (Z.of_N n < 2 ^ 53)%Z → (Z.of_N k < 2 ^ 53)%Z →
  loose_eq (VStr (dec_of_N n)) (VInt (Z.of_N k)) = Ret (n =? k)%N.
Proof.
  intros Hn Hk. unfold loose_eq, VInt. cbn [to_primitive mbind res_bind prim_loose_eq prim_to_num].
  rewrite string_to_num_dec, num_eqb_safe by (unfold safe; lia). f_equal.
  destruct (Z.eqb_spec (Z.of_N n) (Z.of_N k)), (N.eqb_spec n k); (done || lia).
Qed.

(** ** Sparse arrays *)

Definition arr_lookup {A} (l : list (option A)) (i : nat) : option A := mjoin (l !! i).

Lemma arr_set_lookup {A} (l : list (option A)) i x j :
  arr_lookup (arr_set l i x) j = if decide (j = i) then Some x else arr_lookup l j.
Proof.
  unfold arr_lookup, arr_set. destruct (decide (i < length l)) as [Hi|Hi].
  - case_decide as E; [subst; by rewrite list_lookup_insert_eq|by rewrite list_lookup_insert_ne].
  - case_decide as E.
    + subst. rewrite lookup_app_r by lia. rewrite lookup_app_r by (rewrite length_replicate; lia).
      rewrite length_replicate. replace (i - length l - (i - length l)) with 0 by lia. done.
    + destruct (decide (j < length l)); [by rewrite lookup_app_l|].
      rewrite lookup_app_r by lia. rewrite (lookup_ge_None_2 l) by lia.
      destruct (decide (j - length l < i - length l)).
      * rewrite lookup_app_l by (rewrite length_replicate; lia). by rewrite lookup_replicate_2.
      * rewrite lookup_ge_None_2; [done|]. rewrite length_app, length_replicate. simpl. lia.
Qed.

Lemma arr_set_length {A} (l : list (option A)) i x : length (arr_set l i x) = max (length l) (S i).
Proof.
  unfold arr_set. case_decide; [rewrite length_insert; lia|].
  rewrite !length_app, length_replicate. simpl. lia.
Qed.

Lemma index_key z : (0 ≤ z < 1440)%Z → to_string (VInt z) = Ret (dec_of_N (Z.to_N z)) ∧
  index_of (dec_of_N (Z.to_N z)) = Some (Z.to_N z).
Proof.
  intros Hz. split; [|apply index_of_dec; lia]. unfold VInt. cbn [to_string].
  rewrite num_to_string_safe by (apply safe_small; lia). by destruct z; [|..|lia].
Qed.

Lemma arr_assign_index z item s :
  (0 ≤ z < 1440)%Z → arr_assign (VInt z) item s =
    (Ret tt, {| stats_list := arr_set (stats_list s) (Z.to_nat z) item; day_merged := day_merged s;
                one_valid_item := one_valid_item s; valid_is_merged := valid_is_merged s;
                day_logged := day_logged s |}).
Proof.
  intros Hz. destruct (index_key z Hz) as [E1 E2]. unfold arr_assign.
  cbv [mbind M_bind lift gets]. rewrite E1, E2. cbv [set_stats modify]. by rewrite Z_N_nat.
Qed.

(** ** The statistics of one node *)

(** The last record of node [k] for minute [i]. *)
Definition last_record (k : N) (i : nat) (items : list StatInfo) : option StatInfo :=
  last (filter (λ it, si_node_id it = dec_of_N k ∧ si_index it = Z.of_nat i) items).

Lemma last_record_snoc k i items it :
  last_record k i (items ++ [it]) =
    if decide (si_node_id it = dec_of_N k ∧ si_index it = Z.of_nat i) then Some it
    else last_record k i items.
Proof.
  unfold last_record. rewrite filter_app. case_decide as E.
  - rewrite filter_cons_True, filter_nil by done. by rewrite last_snoc.
  - rewrite filter_cons_False, filter_nil by done. by rewrite app_nil_r.
Qed.

Section node_stats.
Context (k : N) (Hk : (k < 2 ^ 32 - 1)%N).

Definition node_num : num := num_of_Z (Z.of_N k).

Lemma node_num_not_all : num_eqb node_num (num_of_Z (-1)) = false.
Proof. unfold node_num. rewrite num_eqb_safe by (unfold safe; lia). lia. Qed.

Lemma node_eq it : wf_stat it = true →
  loose_eq (VStr (si_node_id it)) (VNum node_num) = Ret (bool_decide (si_node_id it = dec_of_N k)).
Proof.
  intros Hw. apply wf_stat_inv in Hw as ((n & -> & Hn) & _).
  change (VNum node_num) with (VInt (Z.of_N k)). rewrite node_id_eq by lia. f_equal.
  destruct (N.eqb_spec n k) as [->|Hne]; [by rewrite bool_decide_eq_true_2|].
  rewrite bool_decide_eq_false_2; [done|]. intros E. by apply dec_of_N_inj in E.
Qed.

(** What one record does to the variables of the reader. *)
Definition node_step (s : day_vars) (it : StatInfo) : day_vars :=
  {| stats_list := if decide (si_node_id it = dec_of_N k)
                   then arr_set (stats_list s) (Z.to_nat (si_index it)) (statinfo_object it)
                   else stats_list s;
     day_merged := day_merged s;
     one_valid_item := if truthy (one_valid_item s) then one_valid_item s else statinfo_object it;
     valid_is_merged := truthy (one_valid_item s) && valid_is_merged s;
     day_logged := day_logged s |}.

Lemma day_item_node it s : wf_stat it = true →
  day_item node_num (statinfo_object it) s = (Ret tt, node_step s it).
Proof.
  intros Hw. pose proof (node_eq it Hw) as Heq. pose proof (wf_stat_inv it Hw) as (_ & _ & _ & Hi & _).
  unfold day_item. rewrite node_num_not_all. cbn [negb].
  assert (∀ s', store_own node_num (statinfo_object it) s' =
    (Ret tt, {| stats_list := if decide (si_node_id it = dec_of_N k)
                   then arr_set (stats_list s') (Z.to_nat (si_index it)) (statinfo_object it)
                   else stats_list s';
       day_merged := day_merged s'; one_valid_item := one_valid_item s';
       valid_is_merged := valid_is_merged s'; day_logged := day_logged s' |})) as Hrest.
  { intros s'. unfold store_own. cbv [mbind M_bind lift]. cbn [statinfo_object get assoc String.eqb Ascii.eqb Bool.eqb].
    rewrite Heq. destruct (decide (si_node_id it = dec_of_N k)) as [Ek|Ek].
    - rewrite bool_decide_eq_true_2 by done. by rewrite arr_assign_index.
    - rewrite bool_decide_eq_false_2 by done. by destruct s'. }
  cbv [mbind M_bind gets mret M_ret set_valid modify]. unfold node_step.
  by destruct (truthy (one_valid_item s)) eqn:Ev; rewrite Hrest.
Qed.

Lemma run_node items : Forall (λ it, wf_stat it = true) items →
  each_line (day_line node_num) log_day (split_char newline (log_text items)) day_init =
    (Ret tt, foldl node_step day_init items).
Proof.
  intros H. apply (log_loop _ _ id node_step (λ _ _, True)); try done.
  intros st it r Hit _. by rewrite day_line_record, day_item_node.
Qed.

Lemma node_steps_spec items : Forall (λ it, wf_stat it = true) items →
  let s := foldl node_step day_init items in
  (∀ i, arr_lookup (stats_list s) i = statinfo_object <$> last_record k i items) ∧
  (stats_list s ≠ [] → is_Some (last_record k (length (stats_list s) - 1) items)) ∧
  day_merged s = empty_object ∧
  one_valid_item s = match items with it :: _ => statinfo_object it | [] => VNull end.
Proof.
  intros Hw. induction items as [|it items IH] using rev_ind; [done|].
  apply Forall_app in Hw as [Hw Hit]. apply Forall_cons in Hit as [Hit _].
  destruct (IH Hw) as (Hl & Hlast & Hm & Hv). rewrite foldl_app. cbn [foldl].
  set (s := foldl node_step day_init items) in *. unfold node_step. cbn [stats_list day_merged one_valid_item].
  apply wf_stat_inv in Hit as (_ & _ & _ & Hi & _).
  split_and!; [| |done|].
  - intros i. rewrite last_record_snoc. destruct (decide (si_node_id it = dec_of_N k)) as [E|E].
    + rewrite arr_set_lookup. destruct (decide (i = Z.to_nat (si_index it))) as [->|Hne].
      * rewrite decide_True by (split; [done|lia]). done.
      * rewrite decide_False by (intros [_ ?]; lia). apply Hl.
    + rewrite decide_False by tauto. apply Hl.
  - destruct (decide (si_node_id it = dec_of_N k)) as [E|E]; intros Hne.
    + rewrite arr_set_length, last_record_snoc. case_decide as Ec; [done|].
      destruct (stats_list s) as [|o l] eqn:Es.
      { exfalso. apply Ec. split; [done|]. simpl. lia. }
      replace (max (length (o :: l)) (S (Z.to_nat (si_index it))) - 1) with (length (o :: l) - 1).
      * by apply Hlast.
      * apply not_and_l in Ec as [?|Hx]; [done|]. simpl in *. lia.
    + rewrite last_record_snoc, decide_False by tauto. by apply Hlast.
  - rewrite Hv. by destruct items.
Qed.
End node_stats.

(** ** The minute shown for a record *)

Definition clock (tz t : Z) : string := pad2 (hours_of tz t) +:+ ":" +:+ pad2 (minutes_of tz t).

Lemma two_digits_pad2 h : (0 ≤ h < 100)%Z → two_digits (num_of_Z h) = pad2 h.
Proof.
  intros Hh. pose proof (check_from_spec (λ h, String.eqb (two_digits (num_of_Z h)) (pad2 h)) 100 0) as Hc.
  apply String.eqb_eq. apply Hc; [by vm_compute|lia].
Qed.

Lemma getMinuteOfTime_iso tz legacy t :
  iso_range t → getMinuteOfTime tz legacy (VStr (toISOString t)) = Ret (clock tz t).
Proof.
  intros Ht. unfold getMinuteOfTime, to_date. cbn [to_primitive mbind res_bind].
  unfold parse_date. rewrite parse_iso_string by done. cbv [getHours getMinutes field].
  pose proof (hours_minutes_bounds tz t). rewrite !two_digits_pad2 by lia. done.
Qed.

Definition with_minute (tz : Z) (it : StatInfo) : value :=
  put (statinfo_object it) "minute" (VStr (clock tz (si_time it))).

(** The placeholder for a minute without a record. *)
Definition filler_object (node_id : num) (first : StatInfo) (i : nat) : value :=
  VObj false [("node_id", VNum node_id); ("node_addr", VStr "--"); ("stats_url", VStr "--");
              ("time", VStr "--"); ("minute", VStr "--"); ("m_index", VInt (Z.of_nat i));
              ("delay", VStr "--"); ("info", (cloneObjTemplate (si_info first)).1)].

Lemma fill_item_record tz legacy node_id valid i it :
  iso_range (si_time it) →
  fill_item tz legacy node_id valid i (Some (statinfo_object it)) = Ret (with_minute tz it).
Proof.
  intros Ht. unfold fill_item.
  cbn [truthy statinfo_object get assoc String.eqb Ascii.eqb Bool.eqb mbind res_bind].
  by rewrite getMinuteOfTime_iso.
Qed.

Lemma fill_items_spec tz legacy node_id valid f l : ∀ i,
  (∀ j o, l !! j = Some o → fill_item tz legacy node_id valid (i + j) o = Ret (f (i + j) o)) →
  fill_items tz legacy node_id valid i l = Ret (imap (λ j o, f (i + j) o) l).
Proof.
  induction l as [|o l IH]; intros i H; [done|]. cbn [fill_items].
  pose proof (H 0 o eq_refl) as H0. rewrite Nat.add_0_r in H0. rewrite H0. cbn [mbind res_bind].
  rewrite IH; [|intros j o' Hj; specialize (H (S j) o' Hj); by rewrite <-Nat.add_succ_comm in H].
  cbn [mbind res_bind imap]. rewrite Nat.add_0_r. do 2 f_equal. apply imap_ext. intros j x _. simpl.
  f_equal. lia.
Qed.

Lemma last_record_elem k i items it : last_record k i items = Some it →
  it ∈ items ∧ si_node_id it = dec_of_N k ∧ si_index it = Z.of_nat i.
Proof. intros H. apply last_Some_elem_of, list_elem_of_filter in H. tauto. Qed.

(** Reading the printed log of well-formed records for one node. *)
Lemma node_day_stats tz legacy k items :
  (k < 2 ^ 32 - 1)%N → Forall (λ it, wf_stat it = true) items →
  ∃ l, stats_of_content tz legacy (node_num k) (log_text items) = Ret l ∧
    (∀ i it, last_record k i items = Some it → l !! i = Some (with_minute tz it)) ∧
    (∀ i, i < length l → last_record k i items = None →
       ∃ first, head items = Some first ∧ l !! i = Some (filler_object (node_num k) first i)) ∧
    (l ≠ [] → is_Some (last_record k (length l - 1) items)).
Proof.
  intros Hk Hw. destruct (node_steps_spec k Hk items Hw) as (Hl & Hlast & Hm & Hv).
  unfold stats_of_content.
  rewrite run_node by done. set (s := foldl (node_step k) day_init items) in *.
  assert (push_last s = Ret (stats_list s)) as -> by (unfold push_last; by rewrite Hm).
  cbn [mbind res_bind].
  rewrite (fill_items_spec tz legacy _ _ (λ i o, match last_record k i items with
     | Some it => with_minute tz it
     | None => match items with first :: _ => filler_object (node_num k) first i | [] => VUndef end end)).
  - eexists. split; [done|]. rewrite length_imap. split_and!.
    + intros i it Hi. rewrite list_lookup_imap. specialize (Hl i). rewrite Hi in Hl. unfold arr_lookup in Hl.
      destruct (stats_list s !! i) as [o|]; [|done]. simpl. by rewrite Hi.
    + intros i Hlt Hi. rewrite list_lookup_imap. apply lookup_lt_is_Some in Hlt as [o Ho]. rewrite Ho.
      simpl. rewrite Hi. destruct items as [|first items']; [|by exists first].
      apply lookup_lt_Some in Ho. simpl in Ho. lia.
    + intros Hne. apply Hlast. intros E. apply Hne. by rewrite E.
  - intros i o Ho. simpl. specialize (Hl i). unfold arr_lookup in Hl. rewrite Ho in Hl. simpl in Hl.
    destruct (last_record k i items) as [it|] eqn:E; simpl in Hl; subst o.
    + apply fill_item_record. apply last_record_elem in E as [E _]. rewrite Forall_forall in Hw.
      apply Hw, wf_stat_inv in E. tauto.
    + rewrite Hv. destruct items as [|first items']; [|done].
      apply lookup_lt_Some in Ho. simpl in Ho. lia.
Qed.

(** C36. [getStatsOfDay] for one node returns the day as it was logged: reading
    the printed log of well-formed records, the answer holds at position [i]
    the last record the node wrote for minute [i], with its clock time, and an
    all-zero placeholder where it wrote none; the answer ends with the node's
    latest minute. *)
Theorem stats_of_node_day tz legacy k items :
  (k < 2 ^ 32 - 1)%N → Forall (λ it, wf_stat it = true) items →
  ∃ l, stats_of_content tz legacy (node_num k) (log_text items) = Ret l ∧
    (∀ i it, last_record k i items = Some it → l !! i = Some (with_minute tz it)) ∧
    (∀ i, i < length l → last_record k i items = None →
       ∃ first, head items = Some first ∧ l !! i = Some (filler_object (node_num k) first i)) ∧
    (l ≠ [] → is_Some (last_record k (length l - 1) items)).
Proof. apply node_day_stats. Qed.

(** Records of a small cluster: node [id], minute [i], and a counter. *)
Definition sample_stat (id : string) (i n : Z) : StatInfo :=
  {| si_node_id := id; si_node_addr := "10.0.0.1:9000"; si_stats_url := "http://10.0.0.1:9000/stats";
     si_time := (1420070400000 + i * 60000)%Z; si_index := i; si_delay := 5;
     si_info := VObj false [("requests", VInt n); ("user", VObj false [("max_user_number", VInt (n + 1))])] |}.

Definition sample_day : list StatInfo :=
  [sample_stat "0" 0 10; sample_stat "1" 0 20; sample_stat "0" 2 15; sample_stat "1" 2 30; sample_stat "0" 3 40].

Lemma sample_day_wf : Forall (λ it, wf_stat it = true) sample_day.
Proof. repeat constructor. Qed.

Lemma stats_of_node_day_witness :
  ∃ l, stats_of_content 0 (λ _, None) (node_num 0) (log_text sample_day) = Ret l ∧
    (∀ i it, last_record 0 i sample_day = Some it → l !! i = Some (with_minute 0 it)) ∧
    (∀ i, i < length l → last_record 0 i sample_day = None →
       ∃ first, head sample_day = Some first ∧ l !! i = Some (filler_object (node_num 0) first i)) ∧
    (l ≠ [] → is_Some (last_record 0 (length l - 1) sample_day)).
Proof. apply stats_of_node_day; [lia|exact sample_day_wf]. Defined.
