(* ===== verification/MergedFacts.v ===== *)
(** * The statistics of all nodes together

    With node id -1 the readers of the log merge the records of one minute
    by accumulating their counters.  [merge_runs] is the specification: the
    log cut into runs of records with the same minute, each run merged. *)

From Stdlib Require Import SpecFloat.
From stdpp Require Import sorting.
From S2P Require Import Prelude JSNum JSValue JSON JSDate StatObj NodeLib MonitorLog LogFacts.

(** ** Runs *)

Definition with_info (s : StatInfo) (v : value) : StatInfo :=
  {| si_node_id := si_node_id s; si_node_addr := si_node_addr s; si_stats_url := si_stats_url s;
     si_time := si_time s; si_index := si_index s; si_delay := si_delay s; si_info := v |}.

Definition merge_stat (a b : StatInfo) : StatInfo :=
  with_info a (accumulateObj (si_info b) (si_info a)).2.

Fixpoint merge_runs (cur : StatInfo) (items : list StatInfo) : list StatInfo :=
  match items with
  | [] => [cur]
  | it :: r => if (si_index cur =? si_index it)%Z then merge_runs (merge_stat cur it) r
               else cur :: merge_runs it r
  end.

(** Every accumulation of the runs is one of compatible trees. *)
Fixpoint mergeable (cur : StatInfo) (items : list StatInfo) : bool :=
  match items with
  | [] => true
  | it :: r => if (si_index cur =? si_index it)%Z
               then addable (si_info cur) (si_info it) && mergeable (merge_stat cur it) r
               else mergeable it r
  end.

(** The minutes of the runs. *)
Fixpoint run_minutes (cur : Z) (l : list Z) : list Z :=
  match l with
  | [] => [cur]
  | i :: r => if (cur =? i)%Z then run_minutes cur r else cur :: run_minutes i r
  end.

Lemma merge_runs_minutes cur items :
  si_index <$> merge_runs cur items = run_minutes (si_index cur) (si_index <$> items).
Proof.
  revert cur. induction items as [|it items IH]; intros cur; [done|].
  cbn [merge_runs fmap list_fmap run_minutes]. destruct (_ =? _)%Z; [apply (IH (merge_stat cur it))|].
  cbn [fmap list_fmap]. f_equal. apply IH.
Qed.

Lemma merge_runs_snoc cur items : ∃ rs r, merge_runs cur items = rs ++ [r].
Proof.
  assert (merge_runs cur items ≠ []) as H.
  { revert cur. induction items as [|it items IH]; intros cur; simpl; [done|]. by case_if. }
  destruct (exists_last H) as (l & x & E). eauto.
Qed.

(** A property of records that merging keeps holds of all runs. *)
Lemma merge_runs_Forall (P : StatInfo → Prop) cur items :
  (∀ a v, P a → P (with_info a v)) → P cur → Forall P items → Forall P (merge_runs cur items).
Proof.
  intros HP Hc Hi. revert cur Hc. induction Hi as [|it items Hit _ IH]; intros cur Hc; [by repeat constructor|].
  cbn [merge_runs]. case_if; [apply IH; by apply HP|]. constructor; [done|by apply IH].
Qed.

(** ** Accumulating one record *)

Definition all_num : num := num_of_Z (-1).

Definition in_day (s : StatInfo) : Prop := (0 ≤ si_index s < 1440)%Z.

Lemma accumulate_info_obj a b :
  accumulate_info (statinfo_object a) (statinfo_object b) =
    ((accumulateObj (si_info b) (si_info a)).1, statinfo_object (merge_stat a b)).
Proof.
  unfold accumulate_info. cbn [statinfo_object get assoc String.eqb Ascii.eqb Bool.eqb].
  unfold merge_stat. by destruct (accumulateObj (si_info b) (si_info a)) as [r a'].
Qed.

Lemma get_index_obj a : get (statinfo_object a) "m_index" = Ret (VInt (si_index a)).
Proof. reflexivity. Qed.

Lemma same_minute a b : in_day a → in_day b →
  loose_eq (VInt (si_index a)) (VInt (si_index b)) = Ret (si_index a =? si_index b)%Z.
Proof. unfold in_day. intros Ha Hb. apply loose_eq_VInt; apply safe_small; lia. Qed.

Lemma addable_returns a b : addable a b = true → is_object b = true →
  (accumulateObj b a).1 = Ret tt.
Proof.
  intros Hadd Ht. destruct b as [| |[]|n|s|f|arr ps]; try done.
  destruct (accumulates_all (VObj arr ps) a Hadd eq_refl) as (d & -> & _). done.
Qed.

Lemma merge_stat_leaf a b p : addable (si_info a) (si_info b) = true → is_object (si_info b) = true →
  leaf (si_info (merge_stat a b)) p = (leaf (si_info a) p + leaf (si_info b) p)%Z.
Proof.
  intros Hadd Ht. cbn [merge_stat with_info si_info]. destruct (si_info b) as [| |[]|n|s|f|arr ps]; try done.
  destruct (accumulates_all (VObj arr ps) (si_info a) Hadd eq_refl) as (d & -> & Hl). apply Hl.
Qed.

(** ** The loop of getStatsOfDay *)

(** One record, when [cur] is the run being merged.  The third component is
    the object of [one_valid_item]: it is [cur] itself during the first run. *)
Definition all_state : Type := list (option value) * StatInfo * option StatInfo.

Definition all_step (st : all_state) (it : StatInfo) : all_state :=
  let '(l, cur, ov) := st in
  if (si_index cur =? si_index it)%Z then (l, merge_stat cur it, ov)
  else (arr_set l (Z.to_nat (si_index cur)) (statinfo_object cur), it, Some (default cur ov)).

Definition all_vars (logs : list string) (st : all_state) : day_vars :=
  let '(l, cur, ov) := st in
  {| stats_list := l; day_merged := statinfo_object cur; one_valid_item := statinfo_object (default cur ov);
     valid_is_merged := bool_decide (ov = None); day_logged := logs |}.

Lemma day_item_all logs st it :
  in_day st.1.2 → wf_stat it = true →
  ((si_index st.1.2 =? si_index it)%Z = true → addable (si_info st.1.2) (si_info it) = true) →
  day_item all_num (statinfo_object it) (all_vars logs st) = (Ret tt, all_vars logs (all_step st it)).
Proof.
  intros Hc Hw Hadd. destruct st as [[l cur] ov]. cbn [fst snd] in *.
  pose proof (wf_stat_inv it Hw) as (_ & Hj & Ht & Hi & _).
  unfold day_item, merge_item. change (num_eqb all_num (num_of_Z (-1))) with true. cbn [negb].
  cbv [mbind M_bind lift gets].
  change (one_valid_item (all_vars logs (l, cur, ov))) with (statinfo_object (default cur ov)).
  change (truthy (statinfo_object (default cur ov))) with true.
  cbv [mret M_ret]. change (day_merged (all_vars logs (l, cur, ov))) with (statinfo_object cur).
  rewrite get_index_obj. change (defined (VInt (si_index cur))) with true. cbv beta iota.
  rewrite get_index_obj, (same_minute cur it Hc Hi). unfold all_step.
  destruct (si_index cur =? si_index it)%Z eqn:E.
  - rewrite accumulate_info_obj, addable_returns by auto. by destruct ov.
  - rewrite arr_assign_index by done. by destruct ov.
Qed.

(** The first record only becomes the current run. *)
Lemma day_item_first it :
  day_item all_num (statinfo_object it) day_init = (Ret tt, all_vars [] ([], it, None)).
Proof. reflexivity. Qed.

(** All runs but the last are stored under their minute. *)
Definition store_runs (l : list (option value)) (rs : list StatInfo) : list (option value) :=
  foldl (λ l r, arr_set l (Z.to_nat (si_index r)) (statinfo_object r)) l rs.

Lemma all_steps_runs items : ∀ l cur ov rs r,
  merge_runs cur items = rs ++ [r] →
  foldl all_step (l, cur, ov) items =
    (store_runs l rs, r, match ov with Some v => Some v | None => head rs end).
Proof.
  induction items as [|it items IH]; intros l cur ov rs r H; cbn [merge_runs] in H.
  - destruct rs as [|? [|]]; simplify_eq/=; by destruct ov.
  - cbn [foldl all_step]. destruct (_ =? _)%Z; [by apply IH|].
    destruct rs as [|x rs]; simplify_eq/=.
    + destruct (merge_runs_snoc it items) as (rs' & r' & E). rewrite E in *. by destruct rs'.
    + rewrite (IH _ _ _ rs r) by done. by destruct ov.
Qed.

(** Records that can still come when [cur] is being merged. *)
Definition may_merge (cur : StatInfo) (items : list StatInfo) : Prop :=
  in_day cur ∧ mergeable cur items = true.

Lemma may_merge_cons cur it items : wf_stat it = true → may_merge cur (it :: items) →
  ((si_index cur =? si_index it)%Z = true → addable (si_info cur) (si_info it) = true) ∧
  may_merge (if (si_index cur =? si_index it)%Z then merge_stat cur it else it) items.
Proof.
  intros Hw [Hd Hm]. apply wf_stat_inv in Hw as (_ & _ & _ & Hi & _). cbn [mergeable] in Hm.
  unfold may_merge. destruct (_ =? _)%Z; by bool_prop.
Qed.

Lemma run_all it items :
  Forall (λ it, wf_stat it = true) (it :: items) → mergeable it items = true →
  each_line (day_line all_num) log_day (split_char newline (log_text (it :: items))) day_init =
    (Ret tt, all_vars [] (foldl all_step ([], it, None) items)).
Proof.
  intros Hw Hm. pose proof Hw as Hw'. apply Forall_cons in Hw' as [Hit _].
  apply (log_loop_first _ _ (all_vars []) all_step (λ st, may_merge st.1.2)); try done.
  - by rewrite day_line_record, day_item_first.
  - intros st x r Hx HP. destruct (may_merge_cons _ _ _ Hx HP) as [Ha HP'].
    rewrite day_line_record, day_item_all; try done; [|by destruct HP].
    split; [done|]. destruct st as [[l cur] ov]. cbn [fst snd all_step] in *. by destruct (_ =? _)%Z.
  - split; [|done]. apply wf_stat_inv in Hit. unfold in_day. cbn [fst snd]. tauto.
Qed.

Lemma stats_of_all tz legacy it items rs r :
  Forall (λ it, wf_stat it = true) (it :: items) → mergeable it items = true →
  merge_runs it items = rs ++ [r] →
  stats_of_content tz legacy all_num (log_text (it :: items)) =
    l ← push_last (all_vars [] (store_runs [] rs, r, head rs));
    fill_items tz legacy all_num (statinfo_object (default r (head rs))) 0 l.
Proof.
  intros Hw Hm Hr. unfold stats_of_content.
  by rewrite run_all, (all_steps_runs items [] it None rs r Hr).
Qed.

(** ** A complete day *)

(** The sum of a counter over the records of one minute. *)
Definition minute_sum (items : list StatInfo) (i : Z) (p : list string) : Z :=
  foldr Z.add 0%Z ((λ it, leaf (si_info it) p) <$> filter (λ it, si_index it = i) items).

Lemma minute_sum_cons it items i p :
  minute_sum (it :: items) i p =
    ((if decide (si_index it = i) then leaf (si_info it) p else 0) + minute_sum items i p)%Z.
Proof.
  unfold minute_sum. case_decide; [by rewrite filter_cons_True|by rewrite filter_cons_False].
Qed.

Lemma minute_sum_absent items i p : i ∉ (si_index <$> items) → minute_sum items i p = 0%Z.
Proof.
  induction items as [|it items IH]; [done|]. csimpl. intros H. rewrite minute_sum_cons.
  rewrite decide_False by set_solver. rewrite IH by set_solver. lia.
Qed.

Lemma run_minutes_elem cur l i : i = cur ∨ i ∈ l → i ∈ run_minutes cur l.
Proof.
  revert cur. induction l as [|j l IH]; intros cur; cbn [run_minutes]; [set_solver|].
  destruct (Z.eqb_spec cur j) as [->|Hne]; intros H; [apply IH; set_solver|].
  apply elem_of_cons. destruct H as [->|H]; [by left|right]. apply IH. set_solver.
Qed.

Lemma run_sums items p : ∀ cur,
  Forall (λ it, wf_stat it = true) items → mergeable cur items = true →
  NoDup (run_minutes (si_index cur) (si_index <$> items)) →
  ∀ r, r ∈ merge_runs cur items → leaf (si_info r) p = minute_sum (cur :: items) (si_index r) p.
Proof.
  induction items as [|it items IH]; intros cur Hw Hm Hnd r Hr.
  - apply list_elem_of_singleton in Hr as ->. rewrite minute_sum_cons, decide_True by done.
    unfold minute_sum. simpl. lia.
  - apply Forall_cons in Hw as [Hit Hw]. pose proof (wf_stat_inv it Hit) as (_ & _ & Ho & _).
    cbn [merge_runs mergeable fmap list_fmap run_minutes] in *.
    destruct (Z.eqb_spec (si_index cur) (si_index it)) as [E|E].
    + apply andb_true_iff in Hm as [Hadd Hm].
      rewrite (IH (merge_stat cur it) Hw Hm Hnd r Hr), !minute_sum_cons.
      change (si_index (merge_stat cur it)) with (si_index cur). rewrite <-E.
      case_decide; [rewrite merge_stat_leaf by done|]; lia.
    + apply NoDup_cons in Hnd as [Hnin Hnd]. rewrite minute_sum_cons.
      apply elem_of_cons in Hr as [->|Hr].
      * rewrite decide_True by done. rewrite minute_sum_absent; [lia|].
        intros Hin. apply Hnin. apply run_minutes_elem. csimpl in Hin. set_solver.
      * rewrite decide_False; [rewrite (IH it Hw Hm Hnd r Hr); lia|].
        intros Heq. apply Hnin. rewrite <-merge_runs_minutes, Heq. by apply list_elem_of_fmap_2.
Qed.

Definition run_at (rs : list StatInfo) (i : nat) : option StatInfo :=
  head (filter (λ r, si_index r = Z.of_nat i) rs).

Lemma run_at_elem rs i r : run_at rs i = Some r → r ∈ rs ∧ si_index r = Z.of_nat i.
Proof.
  intros H. unfold run_at in H. destruct (filter _ rs) as [|x l] eqn:E; simplify_eq/=.
  assert (r ∈ filter (λ r, si_index r = Z.of_nat i) rs) as Hr by (rewrite E; set_solver).
  apply list_elem_of_filter in Hr. tauto.
Qed.

Lemma run_at_above rs i : Forall (λ r, si_index r < Z.of_nat i)%Z rs → run_at rs i = None.
Proof.
  intros H. unfold run_at. induction H as [|r rs Hr _ IH]; [done|]. by rewrite filter_cons_False by lia.
Qed.

Lemma run_at_snoc rs r i :
  run_at (rs ++ [r]) i = match run_at rs i with
    | Some x => Some x
    | None => if decide (si_index r = Z.of_nat i) then Some r else None
    end.
Proof.
  unfold run_at. rewrite filter_app. destruct (filter _ rs) as [|x l]; [|done]. simpl.
  case_decide; [by rewrite filter_cons_True|by rewrite filter_cons_False].
Qed.

Lemma increasing_below rs r :
  StronglySorted Z.lt (si_index <$> rs ++ [r]) →
  StronglySorted Z.lt (si_index <$> rs) ∧ Forall (λ x, si_index x < si_index r)%Z rs.
Proof.
  rewrite fmap_app, StronglySorted_app. intros (Hlt & Hs & _). split; [done|].
  apply Forall_forall. intros x Hx. apply Hlt; [by apply list_elem_of_fmap_2|set_solver].
Qed.

(** Runs with increasing minutes are stored at their minutes, with holes for
    the minutes without a run. *)
Lemma store_runs_increasing rs :
  StronglySorted Z.lt (si_index <$> rs) → Forall in_day rs →
  (∀ i, arr_lookup (store_runs [] rs) i = statinfo_object <$> run_at rs i) ∧
  length (store_runs [] rs) = match last rs with Some r => S (Z.to_nat (si_index r)) | None => 0 end.
Proof.
  induction rs as [|r rs IH] using rev_ind; intros Hs Hd; [done|].
  apply increasing_below in Hs as [Hs Hlt].
  apply Forall_app in Hd as [Hd Hr]. apply Forall_cons in Hr as [Hr _]. destruct (IH Hs Hd) as [IH1 IH2].
  unfold store_runs in *. rewrite foldl_app. cbn [foldl]. rewrite last_snoc. unfold in_day in Hr. split.
  - intros i. rewrite arr_set_lookup, run_at_snoc, IH1. case_decide as E.
    + rewrite run_at_above, decide_True; [done|lia|]. eapply Forall_impl; [exact Hlt|]. simpl. lia.
    + destruct (run_at rs i); [done|]. by rewrite decide_False by lia.
  - rewrite arr_set_length, IH2. destruct (last rs) as [x|] eqn:E; [|lia].
    apply last_Some_elem_of in E. rewrite Forall_forall in Hlt, Hd.
    specialize (Hlt x E). specialize (Hd x E). unfold in_day in *. lia.
Qed.

Lemma push_last_run logs rs r ov :
  StronglySorted Z.lt (si_index <$> rs ++ [r]) → Forall in_day (rs ++ [r]) → rs ≠ [] →
  push_last (all_vars logs (store_runs [] rs, r, ov)) = Ret (store_runs [] rs ++ [Some (statinfo_object r)]).
Proof.
  intros Hs Hd Hne. apply increasing_below in Hs as [Hs Hlt].
  apply Forall_app in Hd as [Hd Hr]. apply Forall_cons in Hr as [Hr _].
  destruct (store_runs_increasing rs Hs Hd) as [Hl Hlen].
  destruct (exists_last Hne) as (rs' & q & Hq). rewrite Hq, last_snoc in Hlen.
  assert (mjoin (last (store_runs [] rs)) = Some (statinfo_object q)) as Hlast.
  { rewrite last_lookup, Hq, Hlen. cbn [pred]. fold (arr_lookup (store_runs [] (rs' ++ [q])) (Z.to_nat (si_index q))).
    rewrite <-Hq, Hl, Hq, run_at_snoc.
    subst rs. apply increasing_below in Hs as [_ Hq']. apply Forall_app in Hd as [_ Hqd].
    apply Forall_cons in Hqd as [Hqd _]. unfold in_day in Hqd.
    rewrite run_at_above, decide_True; [done|lia|]. eapply Forall_impl; [exact Hq'|]. simpl. lia. }
  assert (q ∈ rs) as Hin by (rewrite Hq; set_solver).
  rewrite Forall_forall in Hlt, Hd. specialize (Hlt q Hin). specialize (Hd q Hin).
  unfold push_last. cbn [all_vars day_merged stats_list]. rewrite get_index_obj. cbn [mbind res_bind].
  change (defined (VInt (si_index r))) with true. rewrite bool_decide_eq_false_2; [|by intros E; rewrite E in Hlast].
  cbn [negb andb]. rewrite Hlast. cbn [of_option mbind res_bind].
  rewrite get_index_obj. cbn [mbind res_bind]. rewrite (same_minute r q Hr Hd). cbn [mbind res_bind].
  by rewrite (proj2 (Z.eqb_neq _ _)) by lia.
Qed.

Lemma run_facts it items rs r :
  Forall (λ it, wf_stat it = true) (it :: items) → merge_runs it items = rs ++ [r] →
  Forall in_day (rs ++ [r]) ∧ Forall (λ r, iso_range (si_time r)) (rs ++ [r]).
Proof.
  intros Hw <-. apply Forall_cons in Hw as [Hit Hw].
  pose proof (wf_stat_inv it Hit) as (_ & _ & _ & Hi & _ & _ & Ht).
  split; apply merge_runs_Forall; try done;
    (eapply Forall_impl; [exact Hw|]); intros x Hx; apply wf_stat_inv in Hx; unfold in_day; tauto.
Qed.

(** The minute [i] of the answer: its run, or the placeholder. *)
Definition minute_item (tz : Z) (rs : list StatInfo) (first : StatInfo) (i : nat) : value :=
  match run_at rs i with Some q => with_minute tz q | None => filler_object all_num first i end.

Lemma fill_runs tz legacy rs r first :
  StronglySorted Z.lt (si_index <$> rs) → Forall in_day rs →
  Forall (λ r, iso_range (si_time r)) (rs ++ [r]) →
  fill_items tz legacy all_num (statinfo_object first) 0 (store_runs [] rs ++ [Some (statinfo_object r)]) =
    Ret (imap (λ i _, minute_item tz rs first i) (store_runs [] rs) ++ [with_minute tz r]).
Proof.
  intros Hs Hd Ht. apply Forall_app in Ht as [Ht Hr]. apply Forall_cons in Hr as [Hr _].
  destruct (store_runs_increasing rs Hs Hd) as [Hl _].
  rewrite (fill_items_spec tz legacy _ _ (λ i _, if decide (i < length (store_runs [] rs))
    then minute_item tz rs first i else with_minute tz r)).
  - f_equal. rewrite imap_app. cbn [imap]. rewrite Nat.add_0_r. f_equal.
    + apply imap_ext. intros i o Ho. simpl. rewrite decide_True; [done|by eapply lookup_lt_Some].
    + simpl. by rewrite decide_False by lia.
  - intros i o Ho. cbn [Nat.add]. apply lookup_app_Some in Ho as [Ho|[Hge Ho]].
    + rewrite decide_True by (by eapply lookup_lt_Some). specialize (Hl i). unfold arr_lookup in Hl.
      rewrite Ho in Hl. simpl in Hl. subst o. unfold minute_item. destruct (run_at rs i) as [q|] eqn:E; [|done].
      apply run_at_elem in E as [E _]. apply fill_item_record. by eapply Forall_forall in Ht.
    + rewrite decide_False by lia. apply list_lookup_singleton_Some in Ho as [_ <-]. by apply fill_item_record.
Qed.



(** A log of a single minute: with node id -1 the answer is empty, the
    merged record is only ever stored when the next minute arrives. *)
Theorem stats_of_all_single tz legacy it items :
  Forall (λ it, wf_stat it = true) (it :: items) → mergeable it items = true →
  Forall (λ x, si_index x = si_index it) items →
  stats_of_content tz legacy all_num (log_text (it :: items)) = Ret [].
Proof.
  intros Hw Hm Hsame.
  assert (∃ r, merge_runs it items = [r]) as [r Hr].
  { clear -Hsame. revert it Hsame. induction items as [|x items IH]; intros it H; [by exists it|].
    apply Forall_cons in H as [Hx H]. cbn [merge_runs]. rewrite Hx, Z.eqb_refl. by apply IH. }
  by rewrite (stats_of_all tz legacy it items [] r).
Qed.

Lemma stats_of_all_single_witness :
  stats_of_content 0 (λ _, None) all_num (log_text [sample_stat "0" 0 10; sample_stat "1" 0 20]) = Ret [].
Proof.
  apply (stats_of_all_single 0 (λ _, None) (sample_stat "0" 0 10) [sample_stat "1" 0 20]).
  - repeat constructor.
  - vm_compute. reflexivity.
  - repeat constructor.
Defined.
