(* ===== verification/DailyFacts.v ===== *)
(** * The daily report of a log

    [parseDailyStat] on a log of well-formed records: the report of one node
    is the growth from its first to its last record; the report of all nodes
    is the growth from the first to the last but one merged minute. *)

From Stdlib Require Import SpecFloat.
From S2P Require Import Prelude JSNum JSValue JSON JSDate StatObj NodeLib MonitorLog LogFiles LogFacts MergedFacts.

(** ** The report of two records *)

Definition report_of (tz : Z) (a b : StatInfo) (diff : value) : DailyStat :=
  {| diff_log := diff; start_minute := clock tz (si_time a); end_minute := clock tz (si_time b);
     stat_date := Some (si_time a) |}.

(** The growth of every counter of [info]. *)
Definition info_growth (a b : StatInfo) (diff : value) : Prop :=
  ∀ p, p ≠ [] → leaf diff ("info" :: p) =
    if numeric_at (si_info b) p then (leaf (si_info b) p - leaf (si_info a) p)%Z else 0%Z.

Lemma daily_report_records tz legacy s a b :
  min_log s = statinfo_object a → max_log s = statinfo_object b →
  iso_range (si_time a) → iso_range (si_time b) →
  subtractable (statinfo_object b) (statinfo_object a) = true →
  ∃ diff, subtractObj (statinfo_object b) (statinfo_object a) = Ret diff ∧
    daily_report tz legacy s = Ret (Some (report_of tz a b diff)) ∧ info_growth a b diff.
Proof.
  intros Ea Eb Ha Hb Hs. destruct (subtracts_all _ _ Hs eq_refl) as (diff & Hdiff & Hg).
  exists diff. split; [done|]. unfold daily_report. rewrite Ea, Eb, Hdiff. split.
  - cbn [truthy statinfo_object negb orb mbind res_bind get assoc String.eqb Ascii.eqb Bool.eqb].
    rewrite !getMinuteOfTime_iso by done. cbn [mbind res_bind].
    unfold to_date. cbn [to_primitive mbind res_bind]. unfold parse_date. by rewrite parse_iso_string.
  - intros p Hp. rewrite Hg. by destruct p.
Qed.

(** ** One node *)

Section node_report.
Context (k : N) (Hk : (k < 2 ^ 32 - 1)%N).

Definition own_records (items : list StatInfo) : list StatInfo :=
  filter (λ it, si_node_id it = dec_of_N k) items.

Definition record_or_null (o : option StatInfo) : value :=
  match o with Some it => statinfo_object it | None => VNull end.

Definition daily_node (items : list StatInfo) : daily_vars :=
  {| min_log := record_or_null (head (own_records items));
     max_log := record_or_null (last (own_records items));
     merged_stats := empty_object; daily_logged := [] |}.

Lemma daily_item_node items it : wf_stat it = true →
  daily_item (node_num k) (statinfo_object it) (daily_node items) = (Ret tt, daily_node (items ++ [it])).
Proof.
  intros Hw. pose proof (node_eq k Hk it Hw) as Heq.
  unfold daily_item. rewrite (node_num_not_all k Hk). cbn [negb]. cbv [mbind M_bind lift gets].
  change (get (statinfo_object it) "node_id") with (Ret (VStr (si_node_id it))). cbv beta iota.
  rewrite Heq. unfold daily_node, own_records. rewrite filter_app.
  destruct (decide (si_node_id it = dec_of_N k)) as [E|E].
  - rewrite bool_decide_eq_true_2 by done. rewrite (filter_cons_True _ it) by done. rewrite filter_nil.
    rewrite last_snoc. destruct (filter _ items) as [|x l]; [done|]. by destruct (x :: l).
  - rewrite bool_decide_eq_false_2 by done. rewrite (filter_cons_False _ it) by done. by rewrite filter_nil, app_nil_r.
Qed.

Lemma parseDailyStat_node tz legacy items : Forall (λ it, wf_stat it = true) items →
  parseDailyStat tz legacy (log_text items) (node_num k) = daily_report tz legacy (daily_node items).
Proof.
  intros Hw. unfold parseDailyStat. change daily_init with (daily_node []).
  rewrite (log_loop _ _ daily_node (λ l it, l ++ [it]) (λ _ _, True)); try done.
  - do 2 f_equal. clear. induction items as [|it items IH] using rev_ind; [done|]. by rewrite foldl_app, IH.
  - intros l it r Hit _. by rewrite daily_line_record, daily_item_node.
Qed.
End node_report.

Lemma own_records_wf k items it : Forall (λ it, wf_stat it = true) items → it ∈ own_records k items →
  iso_range (si_time it).
Proof.
  intros Hw Hin. apply list_elem_of_filter in Hin as [_ Hin]. rewrite Forall_forall in Hw.
  apply Hw, wf_stat_inv in Hin. tauto.
Qed.

(** The daily report of one node is the growth of its counters between its
    first and its last record of the day, with the clock times of the two;
    there is no report exactly when the node has no record. *)
Theorem daily_report_node tz legacy k items :
  (k < 2 ^ 32 - 1)%N → Forall (λ it, wf_stat it = true) items →
  match head (own_records k items), last (own_records k items) with
  | Some a, Some b =>
      subtractable (statinfo_object b) (statinfo_object a) = true →
      ∃ diff, parseDailyStat tz legacy (log_text items) (node_num k) = Ret (Some (report_of tz a b diff)) ∧
        info_growth a b diff
  | _, _ => parseDailyStat tz legacy (log_text items) (node_num k) = Ret None
  end.
Proof.
  intros Hk Hw. pose proof (own_records_wf k items) as Hi. rewrite (parseDailyStat_node k Hk) by done.
  destruct (head (own_records k items)) as [a|] eqn:Ea.
  - destruct (last (own_records k items)) as [b|] eqn:Eb.
    + intros Hs. edestruct daily_report_records as (diff & _ & H); [..|by exists diff]; try done; unfold daily_node; cbn [min_log max_log].
      * by rewrite Ea.
      * by rewrite Eb.
      * apply Hi; [done|]. destruct (own_records k items); simplify_eq/=. set_solver.
      * apply Hi; [done|]. by apply last_Some_elem_of.
    + apply last_None in Eb. by rewrite Eb in Ea.
  - unfold daily_report, daily_node. by rewrite Ea.
Qed.

Lemma daily_report_node_witness :
  ∃ diff, parseDailyStat 0 (λ _, None) (log_text sample_day) (node_num 0) =
      Ret (Some (report_of 0 (sample_stat "0" 0 10) (sample_stat "0" 3 40) diff)) ∧
    info_growth (sample_stat "0" 0 10) (sample_stat "0" 3 40) diff.
Proof.
  apply (daily_report_node 0 (λ _, None) 0 sample_day); [lia|exact sample_day_wf|vm_compute; reflexivity].
Defined.

(** ** All nodes *)

(** The state of the loop: the finished runs and the run being merged. *)
Definition daily_all (done_runs : list StatInfo) (cur : StatInfo) : daily_vars :=
  {| min_log := record_or_null (head done_runs); max_log := record_or_null (last done_runs);
     merged_stats := statinfo_object cur; daily_logged := [] |}.

Definition daily_step (st : list StatInfo * StatInfo) (it : StatInfo) : list StatInfo * StatInfo :=
  if (si_index st.2 =? si_index it)%Z then (st.1, merge_stat st.2 it) else (st.1 ++ [st.2], it).

Lemma daily_item_all st it :
  in_day st.2 → wf_stat it = true →
  ((si_index st.2 =? si_index it)%Z = true → addable (si_info st.2) (si_info it) = true) →
  daily_item all_num (statinfo_object it) (daily_all st.1 st.2) =
    (Ret tt, daily_all (daily_step st it).1 (daily_step st it).2).
Proof.
  intros Hc Hw Hadd. destruct st as [rs cur]. cbn [fst snd] in *.
  pose proof (wf_stat_inv it Hw) as (_ & _ & Ho & Hi & _).
  unfold daily_item. change (num_eqb all_num (num_of_Z (-1))) with true. cbn [negb].
  cbv [mbind M_bind lift gets]. change (merged_stats (daily_all rs cur)) with (statinfo_object cur).
  rewrite get_index_obj. change (defined (VInt (si_index cur))) with true. cbv beta iota.
  rewrite get_index_obj, (same_minute cur it Hc Hi). unfold daily_step. cbn [fst snd].
  destruct (si_index cur =? si_index it)%Z eqn:E.
  - rewrite accumulate_info_obj, addable_returns by auto. done.
  - unfold daily_all. cbn [fst snd]. rewrite last_snoc. by destruct rs.
Qed.

Lemma daily_steps_runs items : ∀ done_runs cur rs r,
  merge_runs cur items = rs ++ [r] → foldl daily_step (done_runs, cur) items = (done_runs ++ rs, r).
Proof.
  induction items as [|it items IH]; intros d cur rs r H; cbn [merge_runs] in H.
  - destruct rs as [|? [|]]; simplify_eq/=. by rewrite app_nil_r.
  - cbn [foldl]. unfold daily_step at 2. cbn [fst snd]. destruct (_ =? _)%Z; [by apply IH|].
    destruct rs as [|x rs]; simplify_eq/=.
    + destruct (merge_runs_snoc it items) as (rs' & r' & E). rewrite E in *. by destruct rs'.
    + rewrite (IH _ _ rs r) by done. by rewrite <-app_assoc.
Qed.

Lemma parseDailyStat_all tz legacy it items rs r :
  Forall (λ it, wf_stat it = true) (it :: items) → mergeable it items = true →
  merge_runs it items = rs ++ [r] →
  parseDailyStat tz legacy (log_text (it :: items)) all_num = daily_report tz legacy (daily_all rs r).
Proof.
  intros Hw Hm Hr. pose proof Hw as Hw'. apply Forall_cons in Hw' as [Hit _]. unfold parseDailyStat.
  rewrite (log_loop_first _ _ (λ st, daily_all st.1 st.2) daily_step (λ st, may_merge st.2) it items _ ([], it)); try done.
  - by rewrite (daily_steps_runs items [] it rs r Hr).
  - by rewrite daily_line_record.
  - intros st x q Hx HP. destruct (may_merge_cons _ _ _ Hx HP) as [Ha HP'].
    rewrite daily_line_record, daily_item_all; try done; [|by destruct HP].
    split; [done|]. unfold daily_step. by destruct (_ =? _)%Z.
  - split; [|done]. apply wf_stat_inv in Hit. unfold in_day. cbn [fst snd]. tauto.
Qed.

(** The daily report of all nodes together, with node id -1, is the growth
    from the first merged minute of the log to the last but one: the last
    merged minute is never compared.  A log of a single minute has no report. *)
Theorem daily_report_all tz legacy it items rs r :
  Forall (λ it, wf_stat it = true) (it :: items) → mergeable it items = true →
  merge_runs it items = rs ++ [r] →
  match head rs, last rs with
  | Some a, Some b =>
      subtractable (statinfo_object b) (statinfo_object a) = true →
      ∃ diff, parseDailyStat tz legacy (log_text (it :: items)) all_num = Ret (Some (report_of tz a b diff)) ∧
        info_growth a b diff
  | _, _ => parseDailyStat tz legacy (log_text (it :: items)) all_num = Ret None
  end.
Proof.
  intros Hw Hm Hr. rewrite (parseDailyStat_all tz legacy it items rs r) by done.
  destruct (run_facts it items rs r Hw Hr) as [_ Ht]. apply Forall_app in Ht as [Ht _]. rewrite Forall_forall in Ht.
  destruct (head rs) as [a|] eqn:Ea.
  - destruct (last rs) as [b|] eqn:Eb.
    + intros Hs. edestruct daily_report_records as (diff & _ & H); [..|by exists diff]; try done; unfold daily_all; cbn [min_log max_log].
      * by rewrite Ea.
      * by rewrite Eb.
      * apply Ht. destruct rs; simplify_eq/=. set_solver.
      * apply Ht. by apply last_Some_elem_of.
    + apply last_None in Eb. by subst.
  - unfold daily_report, daily_all. by rewrite Ea.
Qed.

Lemma daily_report_all_witness :
  let a := merge_stat (sample_stat "0" 0 10) (sample_stat "1" 0 20) in
  let b := merge_stat (sample_stat "0" 2 15) (sample_stat "1" 2 30) in
  ∃ diff, parseDailyStat 0 (λ _, None) (log_text sample_day) all_num = Ret (Some (report_of 0 a b diff)) ∧
    info_growth a b diff.
Proof.
  apply (daily_report_all 0 (λ _, None) (sample_stat "0" 0 10) (tail sample_day)
    (merge_stat (sample_stat "0" 0 10) (sample_stat "1" 0 20) ::
       [merge_stat (sample_stat "0" 2 15) (sample_stat "1" 2 30)]) (sample_stat "0" 3 40)).
  - exact sample_day_wf.
  - vm_compute. reflexivity.
  - vm_compute. reflexivity.
  - vm_compute. reflexivity.
Defined.

(** ** The reports of several days *)

(** The report of node [k] for a day, when it has records. *)
Definition node_report (tz : Z) (k : N) (items : list StatInfo) : option DailyStat :=
  match head (own_records k items), last (own_records k items) with
  | Some a, Some b =>
      match subtractObj (statinfo_object b) (statinfo_object a) with
      | Ret diff => Some (report_of tz a b diff)
      | Throw _ => None
      end
  | _, _ => None
  end.

(** The records of a day are well formed and those of node [k] comparable. *)
Definition comparable (k : N) (items : list StatInfo) : Prop :=
  Forall (λ it, wf_stat it = true) items ∧
  ∀ a b, head (own_records k items) = Some a → last (own_records k items) = Some b →
    subtractable (statinfo_object b) (statinfo_object a) = true.

Lemma parse_node_report tz legacy k items : (k < 2 ^ 32 - 1)%N → comparable k items →
  parseDailyStat tz legacy (log_text items) (node_num k) = Ret (node_report tz k items).
Proof.
  intros Hk [Hw Hc]. pose proof (own_records_wf k items) as Hi. rewrite (parseDailyStat_node k Hk) by done.
  unfold node_report. destruct (head (own_records k items)) as [a|] eqn:Ea.
  - destruct (last (own_records k items)) as [b|] eqn:Eb; [|apply last_None in Eb; by rewrite Eb in Ea].
    specialize (Hc a b eq_refl eq_refl).
    assert (iso_range (si_time a)) by (apply Hi; [done|]; destruct (own_records k items); simplify_eq/=; set_solver).
    assert (iso_range (si_time b)) by (apply Hi; [done|]; by apply last_Some_elem_of).
    destruct (daily_report_records tz legacy (daily_node k items) a b) as (diff & -> & -> & _); try done;
      unfold daily_node; by rewrite ?Ea, ?Eb.
  - unfold daily_report, daily_node. by rewrite Ea.
Qed.

Definition log_entry (o : option (string * list StatInfo)) : option (string * string) :=
  match o with Some (f, items) => Some (f, log_text items) | None => None end.

Definition entry_report (tz : Z) (k : N) (o : option (string * list StatInfo)) : option DailyStat :=
  match o with Some (_, items) => node_report tz k items | None => None end.

Lemma collect_reports tz legacy k (logs : list (option (string * list StatInfo))) :
  (k < 2 ^ 32 - 1)%N → (∀ f items, Some (f, items) ∈ logs → comparable k items) →
  collect_stats tz legacy (node_num k) (log_entry <$> logs) =
    Ret (omap (entry_report tz k) logs).
Proof.
  intros Hk. induction logs as [|[[f items]|] logs IH]; intros Hc; [done| |].
  - cbn [fmap list_fmap log_entry collect_stats].
    rewrite parse_node_report by (done || (apply (Hc f); set_solver)). cbn [mbind res_bind].
    rewrite IH by (intros g its ?; apply (Hc g); set_solver). done.
  - apply IH. intros g its ?. apply (Hc g). set_solver.
Qed.

(** C35. [getDailyStats] for one node: when the log of day [d] holds the records
    [logs d] (or is missing), the answer is, in the order the sort gives them,
    the reports of the [n] days up to the requested one on which the node has
    records, each exactly once.  EventProxy hands over the results in the order of the group,
    and sorting only permutes. *)
Theorem getDailyStats_reports tz legacy dirname read_file ep_after js_sort now k n node logs :
  (∀ l, ep_after l = l) → (∀ f l, js_sort f l ≡ₚ l) →
  (∀ d, read_file (day_path dirname d) = log_text <$> logs d) →
  (∀ d items, logs d = Some items → comparable node items) →
  (node < 2 ^ 32 - 1)%N → valid_offset tz → dirname ≠ "" → (0 < n)%Z → valid_time now →
  valid_time (now + (k + 1) * ms_per_day) → valid_time (now + (k + 1 - n) * ms_per_day) →
  ∃ l, getDailyStats tz legacy dirname read_file ep_after js_sort now
         {| do_offset := num_of_Z k; do_id := node_num node; do_max := Some n |} = Ret l ∧
    l ≡ₚ omap (λ i, logs (local_day tz now + k - i)%Z ≫= node_report tz node) (seqZ 0 n).
Proof.
  intros Hep Hsort Hread Hc Hk Htz Hdir Hpos Hn Hn1 Hn2. unfold getDailyStats.
  rewrite daily_files_paths, Hep by done. cbn [do_id]. rewrite <-list_fmap_compose.
  set (day := λ i, (local_day tz now + k - i)%Z).
  replace (readFileNoError read_file ∘ (λ i, day_path dirname (local_day tz now + k - i)) <$> seqZ 0 n) with
    (log_entry <$> ((λ i, pair (day_path dirname (day i)) <$> logs (day i)) <$> seqZ 0 n)).
  2: { rewrite <-list_fmap_compose. apply list_fmap_ext. intros j i _. simpl. unfold readFileNoError.
       fold (day i). rewrite Hread. by destruct (logs (day i)). }
  rewrite collect_reports; [|done|].
  - eexists. split; [done|]. rewrite Hsort.
    induction (seqZ 0 n) as [|i l IH]; [done|].
    cbn [fmap list_fmap omap list_omap]. fold (day i). destruct (logs (day i)); simpl; [|done].
    case_match; [by f_equiv|done].
  - intros f items Hin. apply list_elem_of_fmap in Hin as (i & Hi & _).
    destruct (logs (day i)) eqn:E; simplify_eq/=. by eapply Hc.
Qed.

(** A directory with the log of one day. *)
Definition sample_logs (d : Z) : option (list StatInfo) :=
  if (d =? 16436)%Z then Some sample_day else None.

Definition sample_read (f : string) : option string :=
  if String.eqb f (day_path "/srv" 16436) then Some (log_text sample_day) else None.

Lemma sample_read_day d : sample_read (day_path "/srv" d) = log_text <$> sample_logs d.
Proof.
  unfold sample_read, sample_logs. destruct (Z.eqb_spec d 16436) as [->|Hne].
  - by rewrite String.eqb_refl.
  - rewrite (proj2 (String.eqb_neq _ _)); [done|]. intros E. by apply day_path_inj in E.
Qed.

Lemma getDailyStats_reports_witness :
  ∃ l, getDailyStats 0 (λ _, None) "/srv" sample_read (λ l, l) (λ _ l, l) 1420156800000
         {| do_offset := num_of_Z 0; do_id := node_num 0; do_max := Some 7%Z |} = Ret l ∧
    l ≡ₚ omap (λ i, sample_logs (local_day 0 1420156800000 + 0 - i)%Z ≫= node_report 0 0) (seqZ 0 7).
Proof.
  apply getDailyStats_reports.
  - reflexivity.
  - reflexivity.
  - exact sample_read_day.
  - intros d items. unfold sample_logs. destruct (d =? 16436)%Z; [|discriminate]. intros H. injection H as <-.
    split; [exact sample_day_wf|]. intros a b Ha Hb. vm_compute in Ha, Hb. injection Ha as <-. injection Hb as <-.
    vm_compute. reflexivity.
  - lia.
  - unfold valid_offset. lia.
  - discriminate.
  - lia.
  - unfold valid_time. lia.
  - unfold valid_time, ms_per_day. lia.
  - unfold valid_time, ms_per_day. lia.
Defined.
