(* ===== verification/Monitor.v ===== *)
(** * The polling monitor (monitor.js)

    The state of the module: its global variables, the heap of [Node]
    objects they refer to, the requests in flight and the external effects
    performed so far.  Every function of the module that changes state is an
    operation on it; [step] runs one event of the event loop. *)

From Stdlib Require Import SpecFloat.
From S2P Require Import Prelude JSNum JSValue JSON JSDate NodeLib MonitorLog LogFiles LogFacts.

(** ** State *)

Record Node := {
  nd_id : string;
  nd_addr : string;
  nd_stats_url : string;
  nd_alive : bool;
  nd_server_start_time : value;
  nd_user_pk : value
}.

Definition new_node (id addr : string) : Node :=
  let url := addr +:+ "/stats" in
  {| nd_id := id; nd_addr := addr;
     nd_stats_url := if occurs "http" addr then url else "http://" +:+ url;
     nd_alive := true; nd_server_start_time := VStr ""; nd_user_pk := VInt 0 |}.

(** What is sent to the browser clients. *)
Inductive message :=
| NewStats (s : StatInfo)
| ServerStatus (id : string) (status : Node).

Inductive effect :=
| Emit (client : nat) (m : message)            (* to that client *)
| BroadcastFrom (client : nat) (m : message)   (* to all clients but that one *)
| HttpGet (url : string)
| AppendFile (file text : string)
| LogError (msg : string)
| LogCaught (e : exn)                          (* 'exception caught: ' + e *)
| MkDir (dir : string)
| SetInterval.

(** A request whose callback has not run: what the closure captured.  The
    node is an object, so it is a location of the heap. *)
Record request := { rq_start : Z; rq_index : Z; rq_node : nat }.

Record monitor := {
  heap : list Node;
  g_nodes : list (string * nat);
  g_logger : bool;                 (* set or null *)
  g_file_number : Z;
  g_file : option string;
  g_client : option nat;
  g_client_num : Z;
  g_is_queried : bool;
  pending : list request;
  effects : list effect
}.

Definition initial : monitor :=
  {| heap := []; g_nodes := []; g_logger := false; g_file_number := 0; g_file := None;
     g_client := None; g_client_num := 0; g_is_queried := false; pending := []; effects := [] |}.

Definition with_heap (h : list Node) (s : monitor) : monitor :=
  {| heap := h; g_nodes := g_nodes s; g_logger := g_logger s; g_file_number := g_file_number s;
     g_file := g_file s; g_client := g_client s; g_client_num := g_client_num s;
     g_is_queried := g_is_queried s; pending := pending s; effects := effects s |}.
Definition with_nodes (l : list (string * nat)) (s : monitor) : monitor :=
  {| heap := heap s; g_nodes := l; g_logger := g_logger s; g_file_number := g_file_number s;
     g_file := g_file s; g_client := g_client s; g_client_num := g_client_num s;
     g_is_queried := g_is_queried s; pending := pending s; effects := effects s |}.
Definition with_logger (b : bool) (s : monitor) : monitor :=
  {| heap := heap s; g_nodes := g_nodes s; g_logger := b; g_file_number := g_file_number s;
     g_file := g_file s; g_client := g_client s; g_client_num := g_client_num s;
     g_is_queried := g_is_queried s; pending := pending s; effects := effects s |}.
Definition with_file (f : option string) (n : Z) (s : monitor) : monitor :=
  {| heap := heap s; g_nodes := g_nodes s; g_logger := g_logger s; g_file_number := n;
     g_file := f; g_client := g_client s; g_client_num := g_client_num s;
     g_is_queried := g_is_queried s; pending := pending s; effects := effects s |}.
Definition with_client (c : option nat) (n : Z) (s : monitor) : monitor :=
  {| heap := heap s; g_nodes := g_nodes s; g_logger := g_logger s; g_file_number := g_file_number s;
     g_file := g_file s; g_client := c; g_client_num := n;
     g_is_queried := g_is_queried s; pending := pending s; effects := effects s |}.
Definition with_queried (b : bool) (s : monitor) : monitor :=
  {| heap := heap s; g_nodes := g_nodes s; g_logger := g_logger s; g_file_number := g_file_number s;
     g_file := g_file s; g_client := g_client s; g_client_num := g_client_num s;
     g_is_queried := b; pending := pending s; effects := effects s |}.
Definition with_pending (l : list request) (s : monitor) : monitor :=
  {| heap := heap s; g_nodes := g_nodes s; g_logger := g_logger s; g_file_number := g_file_number s;
     g_file := g_file s; g_client := g_client s; g_client_num := g_client_num s;
     g_is_queried := g_is_queried s; pending := l; effects := effects s |}.
Definition with_effect (e : effect) (s : monitor) : monitor :=
  {| heap := heap s; g_nodes := g_nodes s; g_logger := g_logger s; g_file_number := g_file_number s;
     g_file := g_file s; g_client := g_client s; g_client_num := g_client_num s;
     g_is_queried := g_is_queried s; pending := pending s; effects := effects s ++ [e] |}.

Definition perform (e : effect) : M monitor unit := modify (with_effect e).

(** [g_logger.error(msg)], a TypeError while the logger is null. *)
Definition log_error (msg : string) : M monitor unit :=
  l ← gets g_logger;
  if (l : bool) then perform (LogError msg) else raise TypeError.

(** ** Operations *)

Definition setLogger : M monitor unit := modify (with_logger true).

Definition addNode (id addr : string) : M monitor unit :=
  modify (λ s, with_nodes (prop_put id (length (heap s)) (g_nodes s))
                 (with_heap (heap s ++ [new_node id addr]) s)).

Definition onClientConnect (client : nat) : M monitor unit :=
  modify (λ s, with_client (Some client) (g_client_num s + 1) s).

Definition onClientDisconnect (client : nat) : M monitor unit :=
  modify (λ s, let n := (g_client_num s - 1)%Z in
               with_client (if (n =? 0)%Z then None else g_client s) n s).

Definition fireEvent (m : message) : M monitor unit :=
  c ← gets g_client;
  match c with
  | Some cl => perform (Emit cl m);; perform (BroadcastFrom cl m)
  | None => mret tt
  end.

Definition update_node (loc : nat) (f : Node → Node) : M monitor unit :=
  modify (λ s, with_heap (alter f loc (heap s)) s).

Definition set_alive (b : bool) (n : Node) : Node :=
  {| nd_id := nd_id n; nd_addr := nd_addr n; nd_stats_url := nd_stats_url n; nd_alive := b;
     nd_server_start_time := nd_server_start_time n; nd_user_pk := nd_user_pk n |}.
Definition set_start_time (v : value) (n : Node) : Node :=
  {| nd_id := nd_id n; nd_addr := nd_addr n; nd_stats_url := nd_stats_url n; nd_alive := nd_alive n;
     nd_server_start_time := v; nd_user_pk := nd_user_pk n |}.
Definition set_user_pk (v : value) (n : Node) : Node :=
  {| nd_id := nd_id n; nd_addr := nd_addr n; nd_stats_url := nd_stats_url n; nd_alive := nd_alive n;
     nd_server_start_time := nd_server_start_time n; nd_user_pk := v |}.

Definition read_node (loc : nat) : M monitor Node := λ s,
  match heap s !! loc with Some n => (Ret n, s) | None => (Throw TypeError, s) end.

(** [fireEvent('server status', {id: node.id, status: node})] *)
Definition fire_status (loc : nat) : M monitor unit :=
  n ← read_node loc;
  fireEvent (ServerStatus (nd_id n) n).

(** What the request library reports. *)
Inductive response :=
| Failed
| Replied (status : Z) (body : string) (end_time : Z).

Definition append_stats (s : StatInfo) : M monitor unit :=
  f ← gets g_file;
  match f with
  | Some file => perform (AppendFile file (log_line s +:+ String newline ""))
  | None => raise TypeError
  end.

(** The [try] block of the callback, after the parse; [n] is the node the
    closure holds. *)
Definition record_result (rq : request) (n : Node) (json_info : value) (delay : Z) : M monitor unit :=
  result ← lift (get json_info "result");
  let stats_item :=
    {| si_node_id := nd_id n; si_node_addr := nd_addr n; si_stats_url := nd_stats_url n;
       si_time := rq_start rq; si_index := rq_index rq; si_delay := delay; si_info := result |} in
  fireEvent (NewStats stats_item);;
  update_node (rq_node rq) (set_alive true);;
  started ← lift (get result "server_start_datetime");
  update_node (rq_node rq) (set_start_time started);;
  user ← lift (get result "user");
  pk ← lift (get user "max_user_number");
  update_node (rq_node rq) (set_user_pk pk);;
  fire_status (rq_node rq);;
  append_stats stats_item.

Definition record_reply (rq : request) (body : string) (delay : Z) : M monitor unit :=
  json_info ← lift (of_option SyntaxError (parse body));
  n ← read_node (rq_node rq);
  record_result rq n json_info delay.

(** The branch of a failed request; [node.stats_url_] is not a property of
    the node, so it prints as [undefined]. *)
Definition query_failed (loc : nat) : M monitor unit :=
  log_error "failed to query node: undefined";;
  update_node loc (set_alive false);;
  fire_status loc.

(** The callback of [request] in [queryNode]. *)
Definition query_callback (rq : request) (r : response) : M monitor unit :=
  match r with
  | Failed => query_failed (rq_node rq)
  | Replied status body end_time =>
      if negb (status =? 200)%Z then query_failed (rq_node rq)
      else try_catch (record_reply rq body (end_time - rq_start rq))
             (λ e, l ← gets g_logger; if (l : bool) then perform (LogCaught e) else raise TypeError)
  end.

Definition queryNode (start_time index : Z) (loc : nat) : M monitor unit :=
  n ← read_node loc;
  perform (HttpGet (nd_stats_url n));;
  modify (λ s, with_pending (pending s ++ [{| rq_start := start_time; rq_index := index; rq_node := loc |}]) s).

Fixpoint query_all (start_time index : Z) (locs : list nat) : M monitor unit :=
  match locs with
  | [] => mret tt
  | l :: ls => queryNode start_time index l;; query_all start_time index ls
  end.

Section polling.
Context (tz : Z) (dirname : string).

(** The minute of the day, [getHours() * 60 + getMinutes()]. *)
Definition minute_index (t : Z) : Z := (hours_of tz t * 60 + minutes_of tz t)%Z.

Definition queryNodes (now : Z) : M monitor unit :=
  if negb (seconds_of tz now =? 59)%Z then modify (with_queried false)
  else
    queried ← gets g_is_queried;
    if (queried : bool) then mret tt
    else
      let index := minute_index now in
      (if (index =? 0)%Z
       then modify (λ s, with_file (Some (getFileName tz dirname (Some now))) (g_file_number s + 1) s)
       else mret tt);;
      nodes ← gets g_nodes;
      query_all now index nodes.*2;;
      modify (with_queried true).

(** [start()], given whether the data directory exists and the number of its
    entries once it does. *)
Definition start (exists_dir : bool) (entries : Z) (now : Z) : M monitor unit :=
  (if exists_dir then mret tt else perform (MkDir (path_join [dirname; "data"])));;
  modify (λ s, with_file (Some (getFileName tz dirname (Some now))) entries s);;
  perform SetInterval.

(** ** The event loop *)

Inductive event :=
| Tick (now : Z)
| Respond (i : nat) (r : response)
| ClientConnect (client : nat)
| ClientDisconnect (client : nat)
| AppendFailed (err : string).

(** The callback of the [i]-th request in flight runs once. *)
Definition respond (i : nat) (r : response) : M monitor unit :=
  rqs ← gets pending;
  match rqs !! i with
  | Some rq => modify (with_pending (delete i rqs));; query_callback rq r
  | None => mret tt
  end.

Definition handle (e : event) : M monitor unit :=
  match e with
  | Tick now => queryNodes now
  | Respond i r => respond i r
  | ClientConnect c => onClientConnect c
  | ClientDisconnect c => onClientDisconnect c
  | AppendFailed err =>
      f ← gets g_file;
      log_error ("failed to append to file " +:+ default "null" f +:+ " " +:+ err)
  end.

(** An exception that reaches the event loop ends the handler, not the program's state. *)
Definition step (s : monitor) (e : event) : monitor := (handle e s).2.

Definition run (s : monitor) (es : list event) : monitor := foldl step s es.
End polling.

(** [getNodeList()] and [getLogFileNumber()] *)
Definition getNodeList (s : monitor) : list (string * Node) :=
  omap (λ kl, (λ n, (kl.1, n)) <$> heap s !! kl.2) (g_nodes s).
Definition getLogFileNumber (s : monitor) : Z := g_file_number s.

(** ** Start-up (app.js)

    The module is configured before its timer starts: the logger, then the
    nodes of the configuration under their array indices. *)

Fixpoint addNodes (i : N) (addrs : list string) : M monitor unit :=
  match addrs with
  | [] => mret tt
  | a :: l => addNode (dec_of_N i) a;; addNodes (i + 1) l
  end.

Definition boot (tz : Z) (dirname : string) (addrs : list string) (exists_dir : bool) (entries now : Z) : M monitor unit :=
  setLogger;;
  addNodes 0 addrs;;
  start tz dirname exists_dir entries now.
