(* ===== verification/MonitorFacts.v ===== *)
(** * The monitor's invariants

    No event makes a handler throw; every minute is polled at most once, and
    once when the timer is on time; a reply is recorded as one line of the
    log, and the log is a list of records the readers understand. *)

From Stdlib Require Import SpecFloat.
From stdpp Require Import sorting.
From S2P Require Import Prelude JSNum JSValue JSON JSDate NodeLib MonitorLog LogFiles LogFacts Monitor.

(** ** Well-formed states *)

Record wf_monitor (s : monitor) : Prop := {
  wf_logger : g_logger s = true;
  wf_file : is_Some (g_file s);
  wf_nodes : Forall (λ kl, ∃ n, heap s !! kl.2 = Some n ∧ nd_id n = kl.1) (g_nodes s);
  wf_pending : Forall (λ rq, is_Some (heap s !! rq_node rq)) (pending s)
}.

(** What an operation may do to a node: its identity is kept. *)
Definition same_node (n n' : Node) : Prop :=
  nd_id n = nd_id n' ∧ nd_addr n = nd_addr n' ∧ nd_stats_url n = nd_stats_url n'.

#[export] Instance same_node_refl : Reflexive same_node.
Proof. done. Qed.
#[export] Instance same_node_trans : Transitive same_node.
Proof. intros a b c (?&?&?) (?&?&?). unfold same_node. by split_and!; etrans. Qed.

(** [quiet_ext P s s']: from [s] to [s'] only statuses of nodes changed, and
    the effects performed satisfy [P]. *)
Record quiet_ext (P : effect → Prop) (s s' : monitor) : Prop := {
  qe_heap : Forall2 same_node (heap s) (heap s');
  qe_nodes : g_nodes s' = g_nodes s;
  qe_logger : g_logger s' = g_logger s;
  qe_number : g_file_number s' = g_file_number s;
  qe_file : g_file s' = g_file s;
  qe_client : g_client s' = g_client s;
  qe_client_num : g_client_num s' = g_client_num s;
  qe_queried : g_is_queried s' = g_is_queried s;
  qe_pending : pending s' = pending s;
  qe_effects : ∃ es, effects s' = effects s ++ es ∧ Forall P es
}.

#[export] Instance quiet_ext_refl P : Reflexive (quiet_ext P).
Proof. intros s. constructor; try done. exists []. by rewrite app_nil_r. Qed.

#[export] Instance quiet_ext_trans P : Transitive (quiet_ext P).
Proof.
  intros s1 s2 s3 [????????? (e1 & E1 & ?)] [????????? (e2 & E2 & ?)].
  constructor; try congruence; [by etrans|]. exists (e1 ++ e2).
  rewrite E2, E1, <-app_assoc. split; [done|]. by apply Forall_app.
Qed.

Lemma quiet_ext_node P s s' loc n : quiet_ext P s s' → heap s !! loc = Some n →
  ∃ n', heap s' !! loc = Some n' ∧ same_node n n'.
Proof. intros [H] E. by eapply Forall2_lookup_l in H. Qed.

Lemma quiet_ext_wf P s s' : quiet_ext P s s' → wf_monitor s → wf_monitor s'.
Proof.
  intros Hq [Hl Hf Hn Hp]. pose proof (λ loc n, quiet_ext_node P s s' loc n Hq) as Hnode. destruct Hq.
  constructor; [congruence|by rewrite qe_file0| |].
  - rewrite qe_nodes0. eapply Forall_impl; [exact Hn|]. intros kl (n & E & Hid). simpl in *.
    destruct (Hnode _ _ E) as (n' & E' & (Hi & _)). exists n'. split; [done|congruence].
  - rewrite qe_pending0. eapply Forall_impl; [exact Hp|]. intros rq [n E]. simpl in *.
    destruct (Hnode _ _ E) as (n' & E' & _). by exists n'.
Qed.

(** ** The callback of a request *)

Section callback.
Context (rq : request) (n : Node) (file : option string) (P : effect → Prop).

(** The request's node is [n] up to its status. *)
Definition here (s : monitor) : Prop :=
  (∃ n', heap s !! rq_node rq = Some n' ∧ same_node n n') ∧ g_file s = file.

Definition quiet {A} (m : M monitor A) : Prop := ∀ s, here s → quiet_ext P s (m s).2.

Lemma here_ext s s' : quiet_ext P s s' → here s → here s'.
Proof.
  intros Hq [(n' & E & Hn) Hf]. destruct (quiet_ext_node P s s' _ _ Hq E) as (n'' & E' & Hn').
  destruct Hq. split; [|congruence]. exists n''. split; [done|]. by etrans.
Qed.

Lemma quiet_bind {A B} (m : M monitor A) (f : A → M monitor B) :
  quiet m → (∀ a, quiet (f a)) → quiet (m ≫= f).
Proof.
  intros Hm Hf s Hs. specialize (Hm s Hs). unfold mbind, M_bind. destruct (m s) as [[a|e] s'] eqn:E; simpl in *; [|done].
  etrans; [exact Hm|]. apply Hf. by eapply here_ext.
Qed.

Lemma quiet_try {A} (m : M monitor A) h : quiet m → (∀ e, quiet (h e)) → quiet (try_catch m h).
Proof.
  intros Hm Hh s Hs. specialize (Hm s Hs). unfold try_catch. destruct (m s) as [[a|e] s'] eqn:E; simpl in *; [done|].
  etrans; [exact Hm|]. apply Hh. by eapply here_ext.
Qed.

Lemma quiet_pure {A} (m : M monitor A) : (∀ s, (m s).2 = s) → quiet m.
Proof. intros H s _. by rewrite H. Qed.

Lemma quiet_read loc : quiet (read_node loc).
Proof. apply quiet_pure. intros s. unfold read_node. by destruct (heap s !! loc). Qed.

Lemma quiet_perform e : P e → quiet (perform e).
Proof. intros He s _. constructor; try done. exists [e]. split; [done|]. by constructor. Qed.

Lemma quiet_update loc f : (∀ n, same_node n (f n)) → quiet (update_node loc f).
Proof.
  intros Hf s _. constructor; try done; [|exists []; by rewrite app_nil_r].
  cbn [update_node modify snd with_heap heap]. apply Forall2_same_length_lookup. split; [by rewrite length_alter|].
  intros i x y Hx Hy. rewrite list_lookup_alter in Hy.
  case_decide; subst; rewrite Hx in Hy; simplify_eq/=; [apply Hf|done].
Qed.

Lemma quiet_fire m : (∀ c, P (Emit c m)) → (∀ c, P (BroadcastFrom c m)) → quiet (fireEvent m).
Proof.
  intros H1 H2. apply quiet_bind; [by apply quiet_pure|]. intros [c|]; [|by apply quiet_pure].
  apply quiet_bind; [|intros _]; by apply quiet_perform.
Qed.
Context (HP : ∀ e, match e with
  | Emit _ _ | BroadcastFrom _ _ | LogError _ | LogCaught _ => True
  | AppendFile f t => file = Some f ∧ ∃ it, t = log_line it +:+ String newline "" ∧
      si_node_id it = nd_id n ∧ si_time it = rq_start rq ∧ si_index it = rq_index rq
  | _ => False end → P e).

Lemma quiet_status loc : quiet (fire_status loc).
Proof. apply quiet_bind; [apply quiet_read|]. intros x. by apply quiet_fire; intros; apply HP. Qed.

Lemma quiet_log msg : quiet (log_error msg).
Proof.
  apply quiet_bind; [by apply quiet_pure|]. intros []; [by apply quiet_perform, HP|by apply quiet_pure].
Qed.

Lemma quiet_append it : si_node_id it = nd_id n → si_time it = rq_start rq → si_index it = rq_index rq →
  quiet (append_stats it).
Proof.
  intros Hi Ht Hx s Hs. unfold append_stats. unfold mbind, M_bind, gets. destruct (g_file s) as [f|] eqn:E; [|done].
  apply quiet_perform; [|done]. apply HP. destruct Hs as [_ Hs]. split; [congruence|]. by exists it.
Qed.

Lemma quiet_result n' j delay : nd_id n' = nd_id n → quiet (record_result rq n' j delay).
Proof.
  intros Hn. unfold record_result.
  do 9 (apply quiet_bind;
    [first [by apply quiet_pure | by apply quiet_fire; intros; apply HP | by apply quiet_update | apply quiet_status]|intros ?]).
  by apply quiet_append.
Qed.

Lemma quiet_record body delay : quiet (record_reply rq body delay).
Proof.
  unfold record_reply. apply quiet_bind; [by apply quiet_pure|]. intros j s Hs.
  pose proof Hs as [(n' & E & Hid & _) _]. unfold mbind at 1, M_bind at 1, read_node. rewrite E.
  by apply quiet_result.
Qed.

Lemma quiet_callback r : quiet (query_callback rq r).
Proof.
  assert (quiet (query_failed (rq_node rq))) as Hf.
  { apply quiet_bind; [apply quiet_log|intros _]. apply quiet_bind; [by apply quiet_update|intros _]. apply quiet_status. }
  unfold query_callback. destruct r as [|st body et]; [done|]. case_if; [done|].
  apply quiet_try; [apply quiet_record|]. intros e. apply quiet_bind; [by apply quiet_pure|].
  intros []; [by apply quiet_perform, HP|by apply quiet_pure].
Qed.
End callback.

Lemma fire_returns m s : (fireEvent m s).1 = Ret tt.
Proof. unfold fireEvent, mbind, M_bind, gets. by destruct (g_client s). Qed.

Lemma fire_status_returns loc s : is_Some (heap s !! loc) → (fire_status loc s).1 = Ret tt.
Proof.
  intros [n E]. unfold fire_status, mbind, M_bind, read_node. rewrite E. apply fire_returns.
Qed.

Lemma callback_returns rq r s : wf_monitor s → is_Some (heap s !! rq_node rq) →
  (query_callback rq r s).1 = Ret tt.
Proof.
  intros Hw Hn. pose proof (wf_logger s Hw) as Hl.
  assert ((query_failed (rq_node rq) s).1 = Ret tt) as Hf.
  { unfold query_failed, log_error. cbv [mbind M_bind gets]. rewrite Hl. cbv [perform modify update_node].
    apply fire_status_returns. cbn [with_heap with_effect heap]. rewrite list_lookup_alter, decide_True by done.
    by apply fmap_is_Some. }
  destruct Hn as [n Hn]. unfold query_callback. destruct r as [|st body et]; [done|]. case_if; [done|].
  pose proof (quiet_record rq n (g_file s) (λ _, True) ltac:(done) body (et - rq_start rq) s) as Hq.
  unfold try_catch. destruct (record_reply rq body (et - rq_start rq) s) as [[[]|e] s'] eqn:E; [done|].
  cbv [mbind M_bind gets]. cbn [snd] in Hq. destruct Hq as [_ _ Hlog _ _ _ _ _ _ _]; [split; [|done]; by exists n|].
  by rewrite Hlog, Hl.
Qed.

(** ** A round of requests *)

Definition issued (t i : Z) (l : list (nat * string)) (s : monitor) : monitor :=
  {| heap := heap s; g_nodes := g_nodes s; g_logger := g_logger s; g_file_number := g_file_number s;
     g_file := g_file s; g_client := g_client s; g_client_num := g_client_num s;
     g_is_queried := g_is_queried s;
     pending := pending s ++ ((λ lu, {| rq_start := t; rq_index := i; rq_node := lu.1 |}) <$> l);
     effects := effects s ++ ((λ lu, HttpGet lu.2) <$> l) |}.

Lemma query_all_spec t i l : ∀ s,
  Forall (λ lu, ∃ n, heap s !! lu.1 = Some n ∧ nd_stats_url n = lu.2) l →
  query_all t i l.*1 s = (Ret tt, issued t i l s).
Proof.
  induction l as [|[loc u] l IH]; intros s Hl.
  - unfold issued. cbn. rewrite !app_nil_r. by destruct s.
  - apply Forall_cons in Hl as [(n & E & Hu) Hl]. cbn [fst snd] in *. cbn [fmap list_fmap query_all fst].
    unfold queryNode. cbv [mbind M_bind read_node]. rewrite E. cbv [perform modify].
    rewrite IH; [|done]. f_equal. unfold issued. cbn. by rewrite Hu, <-!app_assoc.
Qed.

(** The locations and addresses of the nodes in enumeration order. *)
Definition node_urls (s : monitor) : list (nat * string) :=
  omap (λ kl, (λ n, (kl.2, nd_stats_url n)) <$> heap s !! kl.2) (g_nodes s).

Lemma node_urls_spec s : wf_monitor s →
  (node_urls s).*1 = (g_nodes s).*2 ∧ Forall (λ lu, ∃ n, heap s !! lu.1 = Some n ∧ nd_stats_url n = lu.2) (node_urls s).
Proof.
  intros [_ _ Hn _]. unfold node_urls. induction Hn as [|[k l] kls (n & E & _) _ [IH1 IH2]]; [done|].
  cbn [snd] in *. cbn [omap list_omap snd]. rewrite E. cbn. split; [by f_equal|]. constructor; [|done]. by exists n.
Qed.

Section polling_facts.
Context (tz : Z) (dirname : string).

(** Whether a tick at [now] starts a round. *)
Definition polls (s : monitor) (now : Z) : bool := (seconds_of tz now =? 59)%Z && negb (g_is_queried s).

Definition new_day (now : Z) (s : monitor) : monitor :=
  if (minute_index tz now =? 0)%Z then with_file (Some (getFileName tz dirname (Some now))) (g_file_number s + 1) s else s.

Lemma tick_spec s now : wf_monitor s →
  queryNodes tz dirname now s =
    (Ret tt,
     if polls s now then with_queried true (issued now (minute_index tz now) (node_urls s) (new_day now s))
     else if (seconds_of tz now =? 59)%Z then s else with_queried false s).
Proof.
  intros Hw. destruct (node_urls_spec s Hw) as [Hl Hu]. unfold queryNodes, polls.
  destruct (seconds_of tz now =? 59)%Z; [|done]. cbn [negb andb]. unfold mbind at 1, M_bind at 1, gets at 1.
  destruct (g_is_queried s); [done|]. cbn [negb]. unfold new_day.
  destruct (minute_index tz now =? 0)%Z; cbv [mbind M_bind modify mret M_ret gets].
  - cbn [with_file g_nodes]. rewrite <-Hl, query_all_spec; [done|]. exact Hu.
  - rewrite <-Hl, query_all_spec; [done|]. exact Hu.
Qed.

Lemma tick_wf s now : wf_monitor s → wf_monitor (queryNodes tz dirname now s).2.
Proof.
  intros Hw. rewrite tick_spec by done. pose proof (node_urls_spec s Hw) as [_ Hu]. destruct Hw as [Hl Hf Hn Hp].
  cbn [snd]. case_if; [|by case_if].
  unfold new_day. case_if; constructor; try done; cbn [with_queried issued with_file pending heap];
    (apply Forall_app; split; [done|]; apply Forall_fmap; eapply Forall_impl; [exact Hu|]);
    intros lu (n & E & _); by exists n.
Qed.
End polling_facts.

(** ** Every state of the program is well formed *)

Lemma respond_callback s i r rq : pending s !! i = Some rq →
  respond i r s = query_callback rq r (with_pending (delete i (pending s)) s).
Proof. intros E. unfold respond. cbv [mbind M_bind gets]. by rewrite E. Qed.

Lemma wf_delete s i : wf_monitor s → wf_monitor (with_pending (delete i (pending s)) s).
Proof.
  intros [Hl Hf Hn Hp]. constructor; try done. cbn [with_pending pending heap].
  rewrite Forall_forall in Hp |- *. intros rq Hrq. apply Hp. eapply elem_of_sublist; [exact Hrq|apply sublist_delete].
Qed.

(** What a response changes. *)
Lemma respond_quiet s i r rq n (P : effect → Prop) :
  pending s !! i = Some rq → heap s !! rq_node rq = Some n →
  (∀ e, match e with
    | Emit _ _ | BroadcastFrom _ _ | LogError _ | LogCaught _ => True
    | AppendFile f t => g_file s = Some f ∧ ∃ it, t = log_line it +:+ String newline "" ∧
        si_node_id it = nd_id n ∧ si_time it = rq_start rq ∧ si_index it = rq_index rq
    | _ => False end → P e) →
  quiet_ext P (with_pending (delete i (pending s)) s) (respond i r s).2.
Proof.
  intros E En HP. rewrite (respond_callback s i r rq E). apply (quiet_callback rq n (g_file s) P HP).
  split; [|done]. by exists n.
Qed.

Lemma handle_ok tz dirname e s : wf_monitor s →
  (handle tz dirname e s).1 = Ret tt ∧ wf_monitor (step tz dirname s e).
Proof.
  intros Hw. unfold step. destruct e as [now|i r|c|c|err]; cbn [handle].
  - split; [by rewrite tick_spec|by apply tick_wf].
  - destruct (pending s !! i) as [rq|] eqn:E.
    + pose proof (wf_pending s Hw) as Hp. eapply Forall_lookup in Hp as [n En]; [|exact E].
      split.
      * rewrite (respond_callback s i r rq E). apply callback_returns; [by apply wf_delete|by exists n].
      * eapply quiet_ext_wf; [by apply (respond_quiet s i r rq n (λ _, True))|by apply wf_delete].
    + unfold respond. cbv [mbind M_bind gets]. by rewrite E.
  - split; [done|]. by destruct Hw.
  - split; [done|]. by destruct Hw.
  - unfold log_error. cbv [mbind M_bind gets]. rewrite (wf_logger s Hw). split; [done|]. by destruct Hw.
Qed.

Lemma run_wf tz dirname es : ∀ s, wf_monitor s → wf_monitor (run tz dirname s es).
Proof.
  unfold run. induction es as [|e es IH]; intros s Hw; [done|]. cbn [foldl]. apply IH. by apply handle_ok.
Qed.

Lemma prop_put_Forall {V} (P : string * V → Prop) k v ps :
  P (k, v) → Forall P ps → Forall P (prop_put k v ps).
Proof.
  intros Hk Hps. unfold prop_put. destruct (assoc k ps).
  - induction Hps as [|[k' w] ps Hp Hps IH]; [done|]. cbn [assoc_update].
    destruct (String.eqb_spec k k') as [->|]; constructor; done.
  - destruct (index_of k); [by rewrite insert_index_perm; constructor|]. apply Forall_app. by repeat constructor.
Qed.

Definition wf_node_list (s : monitor) : Prop :=
  Forall (λ kl, ∃ n, heap s !! kl.2 = Some n ∧ nd_id n = kl.1) (g_nodes s).

Lemma addNode_nodes id addr s : wf_node_list s → wf_node_list (addNode id addr s).2.
Proof.
  intros Hn. unfold wf_node_list. cbn [addNode modify snd with_nodes with_heap heap g_nodes].
  apply prop_put_Forall.
  - exists (new_node id addr). split; [|done]. cbn [snd]. by rewrite lookup_app_r, Nat.sub_diag.
  - eapply Forall_impl; [exact Hn|]. intros kl (n & E & Hid). exists n. split; [|done]. by apply lookup_app_l_Some.
Qed.

Lemma addNodes_spec addrs : ∀ i s, wf_node_list s →
  ∃ l h, addNodes i addrs s = (Ret tt, with_nodes l (with_heap h s)) ∧
    wf_node_list (with_nodes l (with_heap h s)).
Proof.
  induction addrs as [|a al IH]; intros i s Hn; [exists (g_nodes s), (heap s); by destruct s|].
  cbn [addNodes]. cbv [mbind M_bind]. pose proof (addNode_nodes (dec_of_N i) a s Hn) as Hn1.
  unfold addNode, modify in *. destruct (IH (i + 1)%N _ Hn1) as (l & h & E & Hw). exists l, h. done.
Qed.

(** The nodes of a configuration: node [i] is the [i]-th address. *)
Definition config_heap (addrs : list string) : list Node :=
  imap (λ i a, new_node (dec_of_N (N.of_nat i)) a) addrs.
Definition config_nodes (addrs : list string) : list (string * nat) :=
  imap (λ i _, (dec_of_N (N.of_nat i), i)) addrs.

Lemma config_nodes_appends pre : (Z.of_nat (length pre) < 2 ^ 32 - 1)%Z →
  appends (config_nodes pre).*1 (dec_of_N (N.of_nat (length pre))) = true.
Proof.
  intros Hlen. unfold appends. rewrite index_of_dec by lia. apply andb_true_iff. split.
  - apply bool_decide_eq_true. intros Hin. apply list_elem_of_fmap in Hin as ([k i] & Hk & Hin). cbn [fst] in Hk.
    apply list_elem_of_lookup in Hin as (j & Hj). unfold config_nodes in Hj. rewrite list_lookup_imap in Hj.
    destruct (pre !! j) eqn:E; cbn in Hj; [|done]. injection Hj as <- <-. apply dec_of_N_inj in Hk. apply lookup_lt_Some in E. lia.
  - apply forallb_forall. intros k Hk. apply list_elem_of_In, list_elem_of_fmap in Hk as ([k' i] & -> & Hin).
    apply list_elem_of_lookup in Hin as (j & Hj). unfold config_nodes in Hj. rewrite list_lookup_imap in Hj.
    destruct (pre !! j) eqn:E; simplify_eq/=. apply lookup_lt_Some in E.
    rewrite index_of_dec by lia. apply N.ltb_lt. lia.
Qed.

Lemma addNodes_config l : ∀ pre s,
  (Z.of_nat (length (pre ++ l)) < 2 ^ 32 - 1)%Z → heap s = config_heap pre → g_nodes s = config_nodes pre →
  addNodes (N.of_nat (length pre)) l s =
    (Ret tt, with_nodes (config_nodes (pre ++ l)) (with_heap (config_heap (pre ++ l)) s)).
Proof.
  induction l as [|a l IH]; intros pre s Hlen Hh Hn.
  - rewrite app_nil_r, <-Hh, <-Hn. by destruct s.
  - rewrite length_app in Hlen. cbn [length] in Hlen. cbn [addNodes]. cbv [mbind M_bind]. cbn [addNode modify].
    rewrite Hn, prop_put_appends by (apply config_nodes_appends; lia).
    assert (length (heap s) = length pre) as Hl by (by rewrite Hh; unfold config_heap; rewrite length_imap).
    replace (N.of_nat (length pre) + 1)%N with (N.of_nat (length (pre ++ [a]))) by (rewrite length_app; simpl; lia).
    rewrite (IH (pre ++ [a])).
    + by rewrite <-app_assoc.
    + rewrite <-app_assoc, length_app. simpl. lia.
    + cbn [with_nodes with_heap heap]. rewrite Hh. unfold config_heap. rewrite imap_app. cbn. by rewrite Nat.add_0_r.
    + cbn [with_nodes g_nodes]. rewrite Hl. unfold config_nodes. rewrite imap_app. cbn. by rewrite Nat.add_0_r.
Qed.

(** The state the program starts in. *)
Lemma boot_spec tz dirname addrs ex entries now : ∃ s,
  boot tz dirname addrs ex entries now initial = (Ret tt, s) ∧ wf_monitor s ∧
  g_is_queried s = false ∧ g_file s = Some (getFileName tz dirname (Some now)) ∧
  g_client s = None ∧ g_client_num s = 0%Z ∧ pending s = [] ∧
  effects s = (if ex then [] else [MkDir (path_join [dirname; "data"])]) ++ [SetInterval].
Proof.
  unfold boot. cbv [mbind M_bind]. cbn [setLogger modify].
  destruct (addNodes_spec addrs 0 (with_logger true initial)) as (l & h & -> & Hn); [by constructor|].
  unfold start. cbv [mbind M_bind]. destruct ex; (eexists; split; [done|]); split_and!; done.
Qed.

(** C1. The monitor keeps running: started with any configuration and after
    any sequence of ticks, responses (of any status and body), connections and
    write errors, the state is well formed and no event makes its handler
    throw. *)
Theorem monitor_never_throws tz dirname addrs ex entries now es e :
  let s := run tz dirname (boot tz dirname addrs ex entries now initial).2 es in
  wf_monitor s ∧ (handle tz dirname e s).1 = Ret tt.
Proof.
  destruct (boot_spec tz dirname addrs ex entries now) as (s & -> & Hw & _). cbn [snd].
  pose proof (run_wf tz dirname es s Hw) as Hr. split; [done|]. by apply handle_ok.
Qed.

Lemma omap_imap_Some {A B} (f : A → option B) (g : nat → A → B) l :
  (∀ i x, l !! i = Some x → f x = Some (g i x)) → omap f l = imap g l.
Proof.
  revert g. induction l as [|x l IH]; intros g H; [done|]. cbn. rewrite (H 0 x eq_refl). f_equal.
  apply IH. intros i y Hy. by apply (H (S i)).
Qed.

(** The nodes a started program has. *)
Lemma boot_nodes tz dirname addrs ex entries now : (Z.of_nat (length addrs) < 2 ^ 32 - 1)%Z →
  let s := (boot tz dirname addrs ex entries now initial).2 in
  heap s = config_heap addrs ∧ g_nodes s = config_nodes addrs.
Proof.
  intros Hlen. unfold boot. cbv [mbind M_bind]. cbn [setLogger modify].
  pose proof (addNodes_config addrs [] (with_logger true initial) Hlen eq_refl eq_refl) as E.
  cbn [length] in E. change (N.of_nat 0) with 0%N in E. rewrite E.
  unfold start. cbv [mbind M_bind]. by destruct ex.
Qed.

(** A round asks every configured node once: started with the addresses
    [addrs], the first tick in second 59 of a minute sends exactly one request
    to the statistics address of each of them, in order, and remembers the
    time and minute of the round for every answer; a tick that starts no round
    sends nothing. *)
Theorem round_asks_every_node tz dirname addrs ex entries now t :
  (Z.of_nat (length addrs) < 2 ^ 32 - 1)%Z →
  let s := (boot tz dirname addrs ex entries now initial).2 in
  let s' := step tz dirname s (Tick t) in
  if (seconds_of tz t =? 59)%Z then
    effects s' = effects s ++ ((λ a, HttpGet (nd_stats_url (new_node "" a))) <$> addrs) ∧
    pending s' = imap (λ i _, {| rq_start := t; rq_index := minute_index tz t; rq_node := i |}) addrs
  else effects s' = effects s ∧ pending s' = [].
Proof.
  intros Hlen s s'. pose proof (boot_nodes tz dirname addrs ex entries now Hlen) as [Hh Hn]. fold s in Hh, Hn.
  destruct (boot_spec tz dirname addrs ex entries now) as (s0 & Es & Hw & Hq & _ & _ & _ & Hp & _).
  assert (s = s0) as <- by (unfold s; by rewrite Es). unfold s', step. cbn [handle].
  rewrite tick_spec by done. unfold polls. rewrite Hq, andb_true_r. cbn [snd].
  destruct (seconds_of tz t =? 59)%Z; [|done].
  assert (node_urls s = imap (λ i a, (i, nd_stats_url (new_node "" a))) addrs) as Hu.
  { unfold node_urls. rewrite Hn, Hh. unfold config_nodes.
    rewrite (omap_imap_Some _ (λ i _, (i, nd_stats_url (new_node "" (default "" (addrs !! i)))))).
    - apply list_eq. intros i. rewrite !list_lookup_imap. by destruct (addrs !! i) eqn:E.
    - intros i x Hx. rewrite list_lookup_imap in Hx. destruct (addrs !! i) eqn:E; simplify_eq/=.
      unfold config_heap. by rewrite list_lookup_imap, E. }
  unfold new_day. destruct (minute_index tz t =? 0)%Z; cbn [with_queried issued with_file effects pending];
    rewrite Hu, Hp, !fmap_imap; (split; [by rewrite <-imap_const|done]).
Qed.

Lemma round_asks_every_node_witness :
  let s := (boot 0 "/srv" ["localhost:9001"; "http://b:9003"] true 3 0 initial).2 in
  let s' := step 0 "/srv" s (Tick 119005) in
  effects s' = effects s ++ [HttpGet "http://localhost:9001/stats"; HttpGet "http://b:9003/stats"] ∧
  pending s' = [{| rq_start := 119005; rq_index := 1; rq_node := 0 |}; {| rq_start := 119005; rq_index := 1; rq_node := 1 |}].
Proof.
  exact (round_asks_every_node 0 "/srv" ["localhost:9001"; "http://b:9003"] true 3 0 119005 ltac:(simpl; lia)).
Defined.
