(* ===== verification/Polling.v ===== *)
(** * The timing of the monitor

    The timer of [queryNodes] fires every ten milliseconds; a round of
    requests starts in second 59 of a minute.  [polled] lists the minutes in
    which rounds start.  The theorems: no minute twice, every minute with
    ticks before and in its last second once, and the log file of the day as
    long as no minute is missed. *)

From Stdlib Require Import SpecFloat.
From stdpp Require Import sorting.
From S2P Require Import Prelude JSNum JSValue JSON JSDate NodeLib MonitorLog LogFiles LogFacts Monitor MonitorFacts.

(** ** Minutes *)

(** The number of the local minute of a time. *)
Definition minute_no (tz t : Z) : Z := ((t + tz) / 60000)%Z.

Lemma seconds_59 tz t : seconds_of tz t = 59%Z ↔ (59000 ≤ (t + tz) mod 60000)%Z.
Proof. unfold seconds_of, local_ms, ms_per_day. divlia. Qed.

Lemma minute_no_mono tz t t' : (t ≤ t')%Z → (minute_no tz t ≤ minute_no tz t')%Z.
Proof. unfold minute_no. intros. apply Z.div_le_mono; lia. Qed.

(** After a time in second 59, a time in another second is in a later minute. *)
Lemma next_minute tz p t : (p ≤ t)%Z → seconds_of tz p = 59%Z → seconds_of tz t ≠ 59%Z →
  (minute_no tz p < minute_no tz t)%Z.
Proof. rewrite !seconds_59. unfold minute_no. intros. divlia. Qed.

Lemma minute_index_no tz t : minute_index tz t = (minute_no tz t mod 1440)%Z.
Proof. unfold minute_index, hours_of, minutes_of, local_ms, minute_no, ms_per_day. divlia. Qed.

Lemma local_day_no tz t : local_day tz t = (minute_no tz t / 1440)%Z.
Proof. unfold local_day, minute_no, ms_per_day. divlia. Qed.

(** ** Rounds *)

Section rounds.
Context (tz : Z) (dirname : string).

Definition tick_time (e : event) : option Z := match e with Tick t => Some t | _ => None end.
Definition ticks (es : list event) : list Z := omap tick_time es.

(** The minutes in which a round starts. *)
Fixpoint polled (s : monitor) (es : list event) : list Z :=
  match es with
  | [] => []
  | e :: es' =>
      match tick_time e with
      | Some now => if polls tz s now then [minute_no tz now] else []
      | None => []
      end ++ polled (step tz dirname s e) es'
  end.

Lemma step_frame s e : wf_monitor s → tick_time e = None →
  g_is_queried (step tz dirname s e) = g_is_queried s ∧ g_file (step tz dirname s e) = g_file s.
Proof.
  intros Hw He. unfold step. destruct e as [now|i r|c|c|err]; try done; cbn [handle].
  - destruct (pending s !! i) as [rq|] eqn:E.
    + pose proof (wf_pending s Hw) as Hp. eapply Forall_lookup in Hp as [n En]; [|exact E].
      by destruct (respond_quiet s i r rq n (λ _, True) E En ltac:(done)) as [_ _ _ _ -> _ _ -> _ _].
    + unfold respond. cbv [mbind M_bind gets]. by rewrite E.
  - unfold log_error. cbv [mbind M_bind gets]. by destruct (g_logger s).
Qed.

Lemma step_tick_queried s now : wf_monitor s →
  g_is_queried (step tz dirname s (Tick now)) = (seconds_of tz now =? 59)%Z.
Proof.
  intros Hw. unfold step. cbn [handle]. rewrite tick_spec by done. unfold polls. cbn [snd].
  destruct (seconds_of tz now =? 59)%Z; [|done]. by destruct (g_is_queried s) eqn:E.
Qed.

Lemma ticks_cons_inv e es :
  StronglySorted Z.le (ticks (e :: es)) →
  StronglySorted Z.le (ticks es) ∧ ∀ t, tick_time e = Some t → Forall (Z.le t) (ticks es).
Proof.
  unfold ticks. cbn [omap list_omap]. destruct (tick_time e); intros H; [|done].
  apply StronglySorted_inv in H as [Hs Hf]. split; [done|]. by intros ? [= <-].
Qed.

(** The rounds of the ticks to come are in minutes from [b] on: when no round
    was started, because the ticks are; after a round at [p], because a tick
    in another second must come first. *)
Lemma polled_from es : ∀ s b,
  wf_monitor s → StronglySorted Z.le (ticks es) →
  (if g_is_queried s
   then ∃ p, seconds_of tz p = 59%Z ∧ b = (minute_no tz p + 1)%Z ∧ Forall (Z.le p) (ticks es)
   else Forall (λ t, (b ≤ minute_no tz t)%Z) (ticks es)) →
  StronglySorted Z.lt (polled s es) ∧ Forall (Z.le b) (polled s es).
Proof.
  induction es as [|e es IH]; intros s b Hw Hs Hb; [by repeat constructor|].
  apply ticks_cons_inv in Hs as [Hs Hle]. pose proof (proj2 (handle_ok tz dirname e s Hw)) as Hw'.
  cbn [polled]. unfold ticks in Hb. cbn [omap list_omap] in Hb. fold (ticks es) in Hb.
  destruct (tick_time e) as [now|] eqn:Et.
  2: { apply IH; [done..|]. by rewrite (proj1 (step_frame _ _ Hw Et)). }
  specialize (Hle now eq_refl). destruct e; simplify_eq/=.
  pose proof (step_tick_queried s now Hw) as Hq. unfold polls.
  destruct (Z.eqb_spec (seconds_of tz now) 59) as [E59|E59]; cbn [andb].
  - destruct (g_is_queried s) eqn:Eq; cbn [negb app].
    + destruct Hb as (p & Hp & -> & Hb). apply Forall_cons in Hb as [Hpn Hb].
      apply IH; [done..|]. rewrite Hq. by exists p.
    + apply Forall_cons in Hb as [Hbn Hb].
      destruct (IH (step tz dirname s (Tick now)) (minute_no tz now + 1)%Z) as [IH1 IH2]; [done|done| |].
      { rewrite Hq. by exists now. }
      split; constructor; try done; (eapply Forall_impl; [exact IH2|]); simpl; lia.
  - cbn [app]. apply IH; [done..|]. rewrite Hq. destruct (g_is_queried s).
    + destruct Hb as (p & Hp & -> & Hb). apply Forall_cons in Hb as [Hpn Hb].
      pose proof (next_minute tz p now Hpn Hp E59). eapply Forall_impl; [exact Hle|]. intros t Ht. simpl in Ht.
      pose proof (minute_no_mono tz now t Ht). lia.
    + by apply Forall_cons in Hb as [_ Hb].
Qed.

(** With no round started for the current second, a tick in second 59 before
    which all ticks are in its minute finds its minute polled. *)
Lemma polled_by es1 es2 b : ∀ s,
  wf_monitor s → g_is_queried s = false → seconds_of tz b = 59%Z →
  Forall (λ t, minute_no tz t = minute_no tz b) (ticks es1) →
  minute_no tz b ∈ polled s (es1 ++ Tick b :: es2).
Proof.
  induction es1 as [|e es1 IH]; intros s Hw Hq Hb Ht; cbn [app polled].
  - cbn [tick_time]. unfold polls. rewrite Hq, Hb. cbn. set_solver.
  - pose proof (proj2 (handle_ok tz dirname e s Hw)) as Hw'. apply elem_of_app.
    unfold ticks in Ht. cbn [omap list_omap] in Ht. fold (ticks es1) in Ht.
    destruct (tick_time e) as [now|] eqn:Et.
    + destruct e; simplify_eq/=. apply Forall_cons in Ht as [Hn Ht]. unfold polls. rewrite Hq, andb_true_r.
      pose proof (step_tick_queried s now Hw) as Hq'.
      destruct (Z.eqb_spec (seconds_of tz now) 59) as [E|E]; [left; set_solver|].
      right. by apply IH.
    + right. apply IH; try done. by rewrite (proj1 (step_frame _ _ Hw Et)).
Qed.

Lemma ticks_app es1 es2 : ticks (es1 ++ es2) = ticks es1 ++ ticks es2.
Proof. apply omap_app. Qed.

Lemma polled_app es1 es2 : ∀ s, polled s (es1 ++ es2) = polled s es1 ++ polled (run tz dirname s es1) es2.
Proof.
  induction es1 as [|e es1 IH]; intros s; [done|]. cbn [app polled]. rewrite IH, <-app_assoc. done.
Qed.
End rounds.


Definition sample_ticks : list event :=
  [Tick 58990; Tick 59000; Tick 59010; ClientConnect 0; Tick 60000; Tick 118999; Tick 119005].




(** ** The file of the day *)

(** Rounds that miss no minute: each is in the minute of the one before or the next. *)
Fixpoint no_minute_missed (m : Z) (ms : list Z) : Prop :=
  match ms with
  | [] => True
  | m' :: ms' => (m' = m ∨ m' = m + 1)%Z ∧ no_minute_missed m' ms'
  end.

Lemma file_after tz dirname es : ∀ s m,
  valid_offset tz → dirname ≠ "" → wf_monitor s → Forall valid_time (ticks es) →
  g_file s = Some (day_path dirname (m / 1440)) → no_minute_missed m (polled tz dirname s es) →
  g_file (run tz dirname s es) = Some (day_path dirname (default m (last (polled tz dirname s es)) / 1440)).
Proof.
  induction es as [|e es IH]; intros s m Htz Hdir Hw Hv Hf Hm; [done|].
  pose proof (proj2 (handle_ok tz dirname e s Hw)) as Hw'. cbn [polled] in *. unfold ticks in Hv.
  cbn [omap list_omap] in Hv. fold (ticks es) in Hv. change (run tz dirname s (e :: es)) with (run tz dirname (step tz dirname s e) es).
  destruct (tick_time e) as [now|] eqn:Et.
  2: { apply IH; try done. by rewrite (proj2 (step_frame tz dirname s e Hw Et)). }
  destruct e; simplify_eq/=. apply Forall_cons in Hv as [Hnow Hv].
  assert (g_file (step tz dirname s (Tick now)) =
    if polls tz s now && (minute_index tz now =? 0)%Z then Some (getFileName tz dirname (Some now)) else g_file s) as Hg.
  { unfold step. cbn [handle]. rewrite tick_spec by done. cbn [snd]. destruct (polls tz s now); [|by destruct (_ =? _)%Z].
    unfold new_day. by destruct (_ =? 0)%Z. }
  destruct (polls tz s now); cbn [app andb] in *; [|by apply IH; rewrite ?Hg].
  destruct Hm as [Hm Hms]. rewrite (IH _ (minute_no tz now)); try done.
  - rewrite last_cons. by destruct (last (polled tz dirname _ es)).
  - rewrite Hg, getFileName_day, local_day_no, minute_index_no by done.
    destruct (Z.eqb_spec (minute_no tz now mod 1440) 0) as [E|E]; [done|].
    rewrite Hf. do 2 f_equal. clear -Hm E. destruct Hm as [Hm|Hm]; rewrite Hm in *; [done|]. divlia.
Qed.

(** Records go to the file of their day: as long as no minute is missed
    from the start of the program on, the current log file is at every moment
    the file of the local day of the last round (or of the start, before the
    first round). *)
Theorem file_of_the_day tz dirname addrs ex entries now es :
  valid_offset tz → dirname ≠ "" → valid_time now → Forall valid_time (ticks es) →
  let s := (boot tz dirname addrs ex entries now initial).2 in
  no_minute_missed (minute_no tz now) (polled tz dirname s es) →
  g_file (run tz dirname s es) =
    Some (day_path dirname (default (minute_no tz now) (last (polled tz dirname s es)) / 1440)).
Proof.
  intros Htz Hdir Hnow Hv s. destruct (boot_spec tz dirname addrs ex entries now) as (s0 & Es & Hw & _ & Hf & _).
  assert (s = s0) as -> by (unfold s; by rewrite Es). apply file_after; try done.
  by rewrite Hf, getFileName_day, local_day_no.
Qed.

Lemma file_of_the_day_witness :
  g_file (run 0 "/srv" (boot 0 "/srv" ["localhost:9001"] true 0 86340000 initial).2 [Tick 86399500; Tick 86400000; Tick 86459500]) =
    Some (day_path "/srv" (default (minute_no 0 86340000) (last (polled 0 "/srv"
      (boot 0 "/srv" ["localhost:9001"] true 0 86340000 initial).2 [Tick 86399500; Tick 86400000; Tick 86459500])) / 1440)).
Proof.
  apply file_of_the_day.
  - unfold valid_offset. lia.
  - discriminate.
  - unfold valid_time. lia.
  - repeat constructor; unfold valid_time; lia.
  - vm_compute. intuition congruence.
Defined.
