(* ===== verification/Recording.v ===== *)
(** * What the monitor writes

    A good reply of a node becomes one line of the current log file and two
    messages to the clients; the files hold nothing but printed records, so
    the readers' theorems apply to them; and the file is that of the day. *)

From Stdlib Require Import SpecFloat.
From stdpp Require Import sorting.
From S2P Require Import Prelude JSNum JSValue JSON JSDate NodeLib MonitorLog LogFiles LogFacts Monitor MonitorFacts Polling.

(** ** The contents of the files *)

(** What the effects append to file [f]. *)
Fixpoint appended (f : string) (es : list effect) : string :=
  match es with
  | [] => ""
  | AppendFile f' t :: es' => (if String.eqb f' f then t else "") +:+ appended f es'
  | _ :: es' => appended f es'
  end.

Lemma appended_app f es1 es2 : appended f (es1 ++ es2) = appended f es1 +:+ appended f es2.
Proof.
  induction es1 as [|e es1 IH]; [done|]. cbn [app appended]. destruct e; try done. by rewrite IH, str_app_assoc.
Qed.

(** Effects that append only records satisfying [Q]. *)
Definition logs_only (Q : StatInfo → Prop) (e : effect) : Prop :=
  match e with
  | AppendFile _ t => ∃ it, t = log_line it +:+ String newline "" ∧ Q it
  | _ => True
  end.

Lemma logs_only_text Q f es : Forall (logs_only Q) es →
  ∃ items, appended f es = log_text items ∧ Forall Q items.
Proof.
  induction 1 as [|e es He _ (items & Hi & HQ)]; [by exists []|].
  destruct e as [| | |f' t| | | |]; try by exists items. cbn [appended].
  destruct (String.eqb f' f); [|by exists items]. destruct He as (it & -> & Hit).
  exists (it :: items). split; [|by constructor].
  rewrite Hi, str_app_assoc. done.
Qed.

Section contents.
Context (tz : Z) (dirname : string).

(** The minute index of a record is that of its time, and its node is one of the nodes. *)
Definition recorded_ok (ids : list string) (it : StatInfo) : Prop :=
  si_index it = minute_index tz (si_time it) ∧ si_node_id it ∈ ids.

Record log_inv (ids : list string) (s : monitor) : Prop := {
  li_wf : wf_monitor s;
  li_ids : (g_nodes s).*1 = ids;
  li_pending : Forall (λ rq, rq_index rq = minute_index tz (rq_start rq) ∧
                 ∃ n, heap s !! rq_node rq = Some n ∧ nd_id n ∈ ids) (pending s);
  li_effects : Forall (logs_only (recorded_ok ids)) (effects s)
}.

Lemma log_inv_quiet ids s s' :
  quiet_ext (logs_only (recorded_ok ids)) s s' → log_inv ids s → log_inv ids s'.
Proof.
  intros Hq [Hw Hi Hp He]. pose proof (quiet_ext_wf _ _ _ Hq Hw) as Hw'.
  pose proof (λ loc n, quiet_ext_node _ s s' loc n Hq) as Hnode. destruct Hq as [_ Hn _ _ _ _ _ _ Hpe (es & E & Hes)].
  constructor; [done|congruence| |rewrite E; by apply Forall_app].
  rewrite Hpe. eapply Forall_impl; [exact Hp|]. intros rq (Hx & n & En & Hid). split; [done|].
  destruct (Hnode _ _ En) as (n' & E' & (Hi' & _)). exists n'. split; [done|congruence].
Qed.

Lemma log_inv_respond ids s i r : log_inv ids s → log_inv ids (respond i r s).2.
Proof.
  intros Hi. destruct (pending s !! i) as [rq|] eqn:E.
  2: { unfold respond. cbv [mbind M_bind gets]. by rewrite E. }
  pose proof Hi as [Hw Hids Hp He].
  pose proof Hp as Hp'. eapply Forall_lookup in Hp' as (Hx & n & En & Hid); [|exact E].
  apply (log_inv_quiet ids (with_pending (delete i (pending s)) s)).
  - apply (respond_quiet s i r rq n); [done|done|]. intros [] He'; try done. cbn.
    destruct He' as (_ & it & -> & Hn & Ht & Hxi). exists it. split; [done|]. split; [congruence|congruence].
  - constructor; [by apply wf_delete|done| |done]. cbn [with_pending pending heap].
    rewrite Forall_forall in Hp |- *. intros q Hq. apply Hp. eapply elem_of_sublist; [exact Hq|apply sublist_delete].
Qed.

Lemma log_inv_tick ids s now : log_inv ids s → log_inv ids (queryNodes tz dirname now s).2.
Proof.
  intros [Hw Hi Hp He]. pose proof (tick_wf tz dirname s now Hw) as Hw'. rewrite tick_spec in * by done.
  cbn [snd] in *. destruct (polls tz s now); [|by destruct (_ =? _)%Z].
  assert (Forall (λ rq, rq_index rq = minute_index tz (rq_start rq) ∧
            ∃ n, heap s !! rq_node rq = Some n ∧ nd_id n ∈ ids)
    ((λ lu, {| rq_start := now; rq_index := minute_index tz now; rq_node := lu.1 |}) <$> node_urls s)) as Hnew.
  { apply Forall_fmap, Forall_forall. intros [loc u] Hlu. unfold node_urls in Hlu.
    apply list_elem_of_omap in Hlu as ([k l] & Hk & Hkl). cbn [fst snd] in Hkl.
    pose proof (wf_nodes s Hw) as Hn. rewrite Forall_forall in Hn. destruct (Hn _ Hk) as (n & En & Hid).
    cbn [fst snd] in *. rewrite En in Hkl. simplify_eq/=. split; [done|]. exists n. split; [done|].
    subst. by apply (list_elem_of_fmap_2 fst) in Hk. }
  assert (Forall (logs_only (recorded_ok ids)) ((λ lu, HttpGet lu.2) <$> node_urls s)) as Heff.
  { apply Forall_fmap, Forall_true. done. }
  unfold new_day in *. destruct (minute_index tz now =? 0)%Z; constructor; try done; by apply Forall_app.
Qed.

Lemma log_inv_step ids s e : log_inv ids s → log_inv ids (step tz dirname s e).
Proof.
  intros Hi. unfold step. destruct e as [now|i r|c|c|err]; cbn [handle].
  - by apply log_inv_tick.
  - by apply log_inv_respond.
  - destruct Hi as [[]]. by repeat constructor.
  - destruct Hi as [[]]. by repeat constructor.
  - unfold log_error. cbv [mbind M_bind gets]. destruct (g_logger s) eqn:El; [|done].
    destruct Hi as [[]]. repeat constructor; try done. cbn. apply Forall_app. by repeat constructor.
Qed.
End contents.

Lemma log_inv_run tz dirname ids es : ∀ s, log_inv tz ids s → log_inv tz ids (run tz dirname s es).
Proof.
  unfold run. induction es as [|e es IH]; intros s Hi; [done|]. cbn [foldl]. by apply IH, log_inv_step.
Qed.

Definition config_ids (addrs : list string) : list string := (config_nodes addrs).*1.

Lemma config_ids_index addrs id : (Z.of_nat (length addrs) < 2 ^ 32 - 1)%Z → id ∈ config_ids addrs →
  is_Some (index_of id).
Proof.
  intros Hlen Hin. apply list_elem_of_fmap in Hin as ([k i] & -> & Hin).
  apply list_elem_of_lookup in Hin as (j & Hj). unfold config_nodes in Hj. rewrite list_lookup_imap in Hj.
  destruct (addrs !! j) eqn:E; simplify_eq/=. apply lookup_lt_Some in E. by rewrite index_of_dec by lia.
Qed.

Lemma minute_index_bounds tz t : (0 ≤ minute_index tz t < 1440)%Z.
Proof. rewrite minute_index_no. apply Z.mod_pos_bound. lia. Qed.

(** C3. The log files hold records and nothing else: after any run of the
    started program, what was appended to any file is the printed form of a
    list of records, each of a configured node and with the minute index of
    its time; so as soon as the nodes answer with objects of integer counters,
    the files are well-formed logs, to which the theorems on the readers apply. *)
Theorem log_files_hold_records tz dirname addrs ex entries now es f :
  (Z.of_nat (length addrs) < 2 ^ 32 - 1)%Z →
  ∃ items, appended f (effects (run tz dirname (boot tz dirname addrs ex entries now initial).2 es)) = log_text items ∧
    Forall (λ it, si_index it = minute_index tz (si_time it) ∧ si_node_id it ∈ config_ids addrs) items ∧
    (Forall (λ it, wf_json (si_info it) = true ∧ is_object (si_info it) = true ∧ safe (si_delay it) ∧
                   iso_range (si_time it)) items →
     Forall (λ it, wf_stat it = true) items).
Proof.
  intros Hlen. pose proof (boot_nodes tz dirname addrs ex entries now Hlen) as [_ Hn].
  destruct (boot_spec tz dirname addrs ex entries now) as (s & Es & Hw & _ & _ & _ & _ & Hp & He).
  cbn zeta in Hn. rewrite Es in *. cbn [snd] in *.
  assert (log_inv tz (config_ids addrs) s) as Hi.
  { constructor; [done|by rewrite Hn|by rewrite Hp|]. rewrite He. by destruct ex; repeat constructor. }
  apply (log_inv_run tz dirname _ es) in Hi as [_ _ _ Hi].
  destruct (logs_only_text _ f _ Hi) as (items & Ht & Hok). exists items. split; [done|]. split; [done|].
  intros Hserver. rewrite Forall_forall in Hok, Hserver |- *. intros it Hit.
  destruct (Hok it Hit) as [Hx Hid]. destruct (Hserver it Hit) as (Hj & Ho & Hd & Hr).
  unfold wf_stat. rewrite Hj, Ho, !bool_decide_eq_true_2; [done|done|done| |by eapply config_ids_index].
  rewrite Hx. apply minute_index_bounds.
Qed.

Definition sample_body : string := or_null (stringify (VObj false [("result", si_info (sample_stat "0" 1 7))])).

Lemma log_files_hold_records_witness :
  ∃ items, appended (day_path "/srv" 0)
      (effects (run 0 "/srv" (boot 0 "/srv" ["localhost:9001"] true 0 0 initial).2
         [Tick 119005; Respond 0 (Replied 200 sample_body 119100)])) = log_text items ∧
    Forall (λ it, si_index it = minute_index 0 (si_time it) ∧ si_node_id it ∈ config_ids ["localhost:9001"]) items ∧
    (Forall (λ it, wf_json (si_info it) = true ∧ is_object (si_info it) = true ∧ safe (si_delay it) ∧
                   iso_range (si_time it)) items →
     Forall (λ it, wf_stat it = true) items).
Proof. apply log_files_hold_records. simpl. lia. Defined.

(** ** One reply *)

Definition messages (s : monitor) (m : message) : list effect :=
  match g_client s with Some c => [Emit c m; BroadcastFrom c m] | None => [] end.

Definition reply_item (rq : request) (n : Node) (info : value) (end_time : Z) : StatInfo :=
  {| si_node_id := nd_id n; si_node_addr := nd_addr n; si_stats_url := nd_stats_url n;
     si_time := rq_start rq; si_index := rq_index rq; si_delay := end_time - rq_start rq; si_info := info |}.

Definition updated_node (n : Node) (started pk : value) : Node :=
  {| nd_id := nd_id n; nd_addr := nd_addr n; nd_stats_url := nd_stats_url n; nd_alive := true;
     nd_server_start_time := started; nd_user_pk := pk |}.

(** The state after the handler: the request is gone, node [loc] is [n'] and
    the effects [es] were performed. *)
Definition replied (s : monitor) (i loc : nat) (n' : Node) (es : list effect) : monitor :=
  {| heap := <[loc := n']> (heap s); g_nodes := g_nodes s; g_logger := g_logger s;
     g_file_number := g_file_number s; g_file := g_file s; g_client := g_client s;
     g_client_num := g_client_num s; g_is_queried := g_is_queried s;
     pending := delete i (pending s); effects := effects s ++ es |}.

Lemma foldl_effects es : ∀ s, foldl (flip with_effect) s es =
  {| heap := heap s; g_nodes := g_nodes s; g_logger := g_logger s; g_file_number := g_file_number s;
     g_file := g_file s; g_client := g_client s; g_client_num := g_client_num s;
     g_is_queried := g_is_queried s; pending := pending s; effects := effects s ++ es |}.
Proof.
  induction es as [|e es IH]; intros s; [rewrite app_nil_r; by destruct s|].
  cbn [foldl]. rewrite IH. cbn. by rewrite <-app_assoc.
Qed.

Lemma fireEvent_eq m s : fireEvent m s = (Ret tt, foldl (flip with_effect) s (messages s m)).
Proof. unfold fireEvent, messages, mbind, M_bind, gets. by destruct (g_client s). Qed.

Lemma alter_insert_list {A} (f : A → A) i x (l : list A) : l !! i = Some x → alter f i l = <[i := f x]> l.
Proof. revert i. induction l as [|y l IH]; intros [|i] H; simplify_eq/=; [done|]. f_equal. by apply IH. Qed.

#[local] Opaque log_line.

(** The [try] block on a good answer. *)
Lemma record_reply_ok rq n s file body delay j info started user pk :
  heap s !! rq_node rq = Some n → g_file s = Some file →
  parse body = Some j → get j "result" = Ret info → get info "server_start_datetime" = Ret started →
  get info "user" = Ret user → get user "max_user_number" = Ret pk →
  let item := {| si_node_id := nd_id n; si_node_addr := nd_addr n; si_stats_url := nd_stats_url n;
     si_time := rq_start rq; si_index := rq_index rq; si_delay := delay; si_info := info |} in
  let n' := updated_node n started pk in
  record_reply rq body delay s =
    (Ret tt, foldl (flip with_effect) (with_heap (<[rq_node rq := n']> (heap s)) s)
       (messages s (NewStats item) ++ messages s (ServerStatus (nd_id n) n') ++ [AppendFile file (log_text [item])])).
Proof.
  intros Hn Hf Hj Hinfo Hst Hu Hpk item n'. destruct s as [h gn lg fn f cl cn q pe ef]. cbn in Hn, Hf. subst f.
  assert (alter (set_user_pk pk) (rq_node rq) (alter (set_start_time started) (rq_node rq)
            (alter (set_alive true) (rq_node rq) h)) = <[rq_node rq := n']> h) as Hh.
  { apply list_eq. intros k. rewrite !list_lookup_alter, list_lookup_insert.
    pose proof (lookup_lt_Some _ _ _ Hn). destruct (decide (rq_node rq = k)) as [<-|Hne].
    - by rewrite Hn, !decide_True by lia.
    - by rewrite !decide_False by lia. }
  unfold record_reply, record_result, update_node, fire_status, append_stats. cbv [mbind M_bind lift].
  rewrite Hj. cbv [of_option]. unfold read_node at 1. cbn [heap]. rewrite Hn, Hinfo, fireEvent_eq.
  destruct cl as [c|]; cbn [messages g_client foldl flip with_effect modify with_heap heap];
    rewrite Hst, Hu, Hpk; cbn; rewrite Hh; unfold read_node; cbn [heap with_heap with_effect];
    rewrite list_lookup_insert_eq by (by eapply lookup_lt_Some); done.
Qed.

(** C5. A good reply is recorded: when the node answers with status 200 and a
    JSON text whose [result] has the fields the monitor reads, the handler
    appends exactly one line, the printed record, to the current file, marks
    the node alive with the start time and user peak of the answer, and sends
    the record and then the node's new status to the clients; nothing else
    changes. *)
Theorem good_reply_recorded tz dirname s i rq n file body end_time j info started user pk :
  wf_monitor s → pending s !! i = Some rq → heap s !! rq_node rq = Some n → g_file s = Some file →
  parse body = Some j → get j "result" = Ret info → get info "server_start_datetime" = Ret started →
  get info "user" = Ret user → get user "max_user_number" = Ret pk →
  let item := reply_item rq n info end_time in
  let n' := updated_node n started pk in
  step tz dirname s (Respond i (Replied 200 body end_time)) =
    replied s i (rq_node rq) n'
      (messages s (NewStats item) ++ messages s (ServerStatus (nd_id n) n') ++ [AppendFile file (log_text [item])]).
Proof.
  intros Hw Hi Hn Hf Hj Hinfo Hst Hu Hpk item n'. unfold step. cbn [handle].
  rewrite (respond_callback s i _ rq Hi). unfold query_callback. cbn [Z.eqb negb Pos.eqb].
  unfold try_catch. rewrite (record_reply_ok rq n _ file body _ j info started user pk); try done.
  cbn [snd]. by rewrite foldl_effects.
Qed.

Lemma good_reply_recorded_witness :
  let s := run 0 "/srv" (boot 0 "/srv" ["localhost:9001"] true 0 0 initial).2 [ClientConnect 4; Tick 119005] in
  let rq := {| rq_start := 119005; rq_index := 1; rq_node := 0 |} in
  let n := new_node "0" "localhost:9001" in
  let item := reply_item rq n (si_info (sample_stat "0" 1 7)) 119100 in
  let n' := updated_node n VUndef (VInt 8) in
  step 0 "/srv" s (Respond 0 (Replied 200 sample_body 119100)) =
    replied s 0 0 n'
      (messages s (NewStats item) ++ messages s (ServerStatus "0" n') ++
       [AppendFile (day_path "/srv" 0) (log_text [item])]).
Proof.
  apply (good_reply_recorded 0 "/srv" _ 0 {| rq_start := 119005; rq_index := 1; rq_node := 0 |}
    (new_node "0" "localhost:9001") (day_path "/srv" 0) sample_body 119100
    (VObj false [("result", si_info (sample_stat "0" 1 7))]) (si_info (sample_stat "0" 1 7))
    VUndef (VObj false [("max_user_number", VInt 8)]) (VInt 8)).
  - apply run_wf. constructor; [done|by eexists|by repeat constructor; eexists|by constructor].
  - reflexivity.
  - reflexivity.
  - vm_compute. reflexivity.
  - vm_compute. reflexivity.
  - reflexivity.
  - reflexivity.
  - reflexivity.
  - reflexivity.
Defined.

(** C37. A failed request: when the request fails or the status is not 200, the
    node is marked dead and its status sent to the clients, the failure is
    logged, and nothing is written. *)
Theorem failed_reply_marks_dead tz dirname s i rq n r :
  wf_monitor s → pending s !! i = Some rq → heap s !! rq_node rq = Some n →
  match r with Failed => True | Replied status _ _ => status ≠ 200%Z end →
  step tz dirname s (Respond i r) =
    replied s i (rq_node rq) (set_alive false n)
      (LogError "failed to query node: undefined" :: messages s (ServerStatus (nd_id n) (set_alive false n))).
Proof.
  intros Hw Hi Hn Hr. unfold step. cbn [handle]. rewrite (respond_callback s i _ rq Hi).
  assert (query_failed (rq_node rq) (with_pending (delete i (pending s)) s) =
    (Ret tt, replied s i (rq_node rq) (set_alive false n)
      (LogError "failed to query node: undefined" :: messages s (ServerStatus (nd_id n) (set_alive false n))))) as E.
  { unfold query_failed, log_error, update_node, fire_status. cbv [mbind M_bind gets]. cbn [with_pending g_logger].
    rewrite (wf_logger s Hw). cbn. unfold read_node. cbn [with_heap heap].
    rewrite (alter_insert_list _ _ n) by done.
    rewrite list_lookup_insert_eq by (by eapply lookup_lt_Some). rewrite fireEvent_eq, foldl_effects. cbn.
    unfold replied. by rewrite <-app_assoc. }
  unfold query_callback. destruct r as [|st body et]; cbv iota; [by rewrite E|].
  rewrite (proj2 (Z.eqb_neq _ _)) by done. cbn [negb]. by rewrite E.
Qed.

Lemma failed_reply_marks_dead_witness :
  let s := run 0 "/srv" (boot 0 "/srv" ["localhost:9001"] true 0 0 initial).2 [ClientConnect 4; Tick 119005] in
  let n := set_alive false (new_node "0" "localhost:9001") in
  step 0 "/srv" s (Respond 0 (Replied 503 "" 119100)) =
    replied s 0 0 n (LogError "failed to query node: undefined" :: messages s (ServerStatus "0" n)).
Proof.
  apply (failed_reply_marks_dead 0 "/srv" _ 0 {| rq_start := 119005; rq_index := 1; rq_node := 0 |}
    (new_node "0" "localhost:9001")).
  - apply run_wf. constructor; [done|by eexists|by repeat constructor; eexists|by constructor].
  - reflexivity.
  - reflexivity.
  - discriminate.
Defined.
