(* ===== verification/MonitorApp.v ===== *)
(** * The monitor's web application (app.js, config.js)

    The configuration, the routes as functions from the query of a request to
    the response, and the wiring of the socket events.  Rendering a view is
    the view's name with the data it is given; express, socket.io, ejs and
    winston are not modelled beyond the calls made to them. *)

From Stdlib Require Import SpecFloat.
From S2P Require Import Prelude JSNum JSValue JSON JSDate StatObj NodeLib MonitorLog LogFiles LogFacts Monitor MonitorFacts.

(** ** config.js *)

Inductive transport :=
| ConsoleTransport (level : string)
| DailyRotateFile (level filename : string).

(** In the production branch the name [transport_options] is not declared. *)
Definition log_transports (node_env : string) : res (list transport) :=
  if String.eqb node_env "development" then Ret [ConsoleTransport "debug"]
  else Throw ReferenceError.

(** [create_logger()]: the directory made before the logger, if any. *)
Definition create_logger (dirname node_env : string) (exists_dir : bool) : M (list effect) (list transport) :=
  (if exists_dir then mret tt else modify (λ es, es ++ [MkDir (path_join [dirname; "logs"])]));;
  lift (log_transports node_env).

Record config := { logger : list transport; nodes : list string }.

Definition load_config (dirname : string) (node_env : option string) (exists_dir : bool) : M (list effect) config :=
  match node_env with
  | Some env =>
      if String.eqb env "development" then
        l ← create_logger dirname env exists_dir;
        mret {| logger := l; nodes := ["localhost:9001"; "localhost:9003"] |}
      else if String.eqb env "production" then
        l ← create_logger dirname env exists_dir;
        mret {| logger := l; nodes := ["localhost:9001"; "localhost:9003"] |}
      else raise (Raised ("unexpected NODE_ENV: " +:+ env))
  | None => raise (Raised "unexpected NODE_ENV: undefined")
  end.

(** ** Routes *)

(** The property [k] of [req.query]: missing parameters are [undefined]. *)
Definition query := string → value.

(** [Number(v || dflt)] *)
Definition number_or (v : value) (dflt : Z) : res num :=
  p ← to_primitive (if truthy v then v else VInt dflt);
  Ret (prim_to_num p).

Inductive body :=
| Text (msg : string)                              (* res.send(text) *)
| JsonError (msg : string)                         (* res.send({error: msg}) *)
| JsonStats (stats : list value)                   (* res.send({error: null, result: stats}) *)
| IndexView (node_list : list (string * Node)) (stats_list : list value)
| HistoryView (history_file_number : Z) (stats_list : list value) (offset : num) (date : string) (node_id : num)
| ChartView (stats_file_number : Z) (offset : num) (date : string) (node_id : num)
| NodeView (node_id : num) (node_addr : value) (stats_list : list value)
| DailyView (node_id : num) (node_addr : value) (stats_list : list DailyStat).

Definition bad_request (node_id : num) : string := "Bad Request: invalid node id " +:+ num_to_string node_id.

Section routes.
Context (tz : Z) (legacy_parse : string → date) (dirname : string).
Context (read_file : string → option string).
Context (ep_after : list (option (string * string)) → list (option (string * string))).
Context (js_sort : (DailyStat → DailyStat → bool) → list DailyStat → list DailyStat).
Context (cfg : config) (now : Z) (mon : monitor).

Definition getDay (offset : num) : string :=
  let d := setDate tz (Some now) (num_add (getDate tz (Some now)) offset) in
  num_to_string (getFullYear tz d) +:+ "-" +:+
  num_to_string (num_add (getMonth tz d) (num_of_Z 1)) +:+ "-" +:+
  num_to_string (getDate tz d).

(** [node_id < -1 || node_id >= config.nodes.length] *)
Definition invalid_id (node_id : num) : bool :=
  num_ltb node_id (num_of_Z (-1)) || num_leb (num_of_Z (Z.of_nat (length (nodes cfg)))) node_id.

(** [config.nodes[node_id]] *)
Definition node_addr_of (node_id : num) : value :=
  match index_of (num_to_string node_id) with
  | Some i => match nodes cfg !! N.to_nat i with Some a => VStr a | None => VUndef end
  | None => VUndef
  end.

Definition stats_of_day (offset id : num) : res (list value) :=
  getStatsOfDay tz legacy_parse dirname read_file now {| ds_offset := offset; ds_id := id |}.

Definition get_index : res body :=
  stats_list ← stats_of_day (num_of_Z 0) (num_of_Z (-1));
  Ret (IndexView (getNodeList mon) stats_list).

Definition get_history (q : query) : res body :=
  offset ← number_or (q "offset") (-1);
  node_id ← number_or (q "node_id") (-1);
  if invalid_id node_id then Ret (Text (bad_request node_id))
  else
    stats_list ← stats_of_day offset (num_of_Z (-1));
    Ret (HistoryView (getLogFileNumber mon - 1) stats_list offset (getDay offset) node_id).

Definition get_chart (q : query) : res body :=
  offset ← number_or (q "offset") 0;
  node_id ← number_or (q "node_id") (-1);
  if invalid_id node_id then Ret (Text (bad_request node_id))
  else Ret (ChartView (getLogFileNumber mon) offset (getDay offset) node_id).

Definition get_stats_log (q : query) : res body :=
  offset ← number_or (q "offset") 0;
  node_id ← number_or (q "node_id") (-1);
  if invalid_id node_id then Ret (JsonError (bad_request node_id))
  else
    stats_list ← stats_of_day offset node_id;
    Ret (JsonStats stats_list).

Definition get_node (q : query) : res body :=
  node_id ← number_or (q "id") (-1);
  if num_leb node_id (num_of_Z (-1)) || num_leb (num_of_Z (Z.of_nat (length (nodes cfg)))) node_id
  then Ret (Text (bad_request node_id))
  else
    stats_list ← stats_of_day (num_of_Z 0) node_id;
    Ret (NodeView node_id (node_addr_of node_id) stats_list).

Definition get_daily_report (q : query) : res body :=
  node_id ← number_or (q "id") (-1);
  if invalid_id node_id then Ret (Text (bad_request node_id))
  else
    stats_list ← getDailyStats tz legacy_parse dirname read_file ep_after js_sort now
                   {| do_offset := num_of_Z 0; do_id := node_id; do_max := Some 30%Z |};
    Ret (DailyView node_id (node_addr_of node_id) stats_list).
End routes.

(** ** Sockets *)

Inductive socket_event :=
| Connection (socket : nat)
| Disconnect (socket : nat).

(** The handlers as they are registered: both call [onClientConnect]. *)
Definition on_socket (e : socket_event) : M monitor unit :=
  match e with
  | Connection c => onClientConnect c
  | Disconnect c => onClientConnect c
  end.
