(* ===== verification/AppFacts.v ===== *)
(** * The web application's guarantees

    A route answers for the node and the day of its query, ids outside the
    configuration are rejected, ids that are no numbers select nothing, and
    events reach every connected client once. *)

From Stdlib Require Import SpecFloat.
From S2P Require Import Prelude JSNum JSValue JSON JSDate StatObj NodeLib MonitorLog LogFiles LogFacts Monitor MonitorFacts MonitorApp.

(** ** Ids *)

Lemma number_or_dec k d : number_or (VStr (dec_of_N k)) d = Ret (num_of_Z (Z.of_N k)).
Proof.
  unfold number_or. assert (truthy (VStr (dec_of_N k)) = true) as ->.
  { unfold truthy. pose proof (dec_of_N_nonempty k). destruct (dec_of_N k); done. }
  cbn [to_primitive mbind res_bind prim_to_num]. by rewrite string_to_num_dec.
Qed.

Lemma number_or_missing d : number_or VUndef d = Ret (num_of_Z d).
Proof. done. Qed.

(** For integers the guard of the routes is the range of the configuration. *)
Lemma invalid_id_range cfg z : safe z → (Z.of_nat (length (nodes cfg)) < 2 ^ 32)%Z →
  invalid_id cfg (num_of_Z z) = negb ((-1 <=? z)%Z && (z <? Z.of_nat (length (nodes cfg)))%Z).
Proof.
  intros Hz Hl. unfold invalid_id. rewrite num_ltb_safe, num_leb_safe by (done || unfold safe; lia).
  destruct (Z.ltb_spec z (-1)), (Z.leb_spec (-1) z), (Z.leb_spec (Z.of_nat (length (nodes cfg))) z),
    (Z.ltb_spec z (Z.of_nat (length (nodes cfg)))); simpl; lia || done.
Qed.

(** A reader whose node id is not a number: no record is its own. *)
Lemma num_eqb_NaN n : num_eqb n NaN = false.
Proof. destruct n as [s|s| |s m e]; try destruct s; reflexivity. Qed.

Lemma loose_eq_NaN v b : loose_eq v (VNum NaN) = Ret b → b = false.
Proof.
  destruct v as [| |x|n|s|f|arr ps]; unfold loose_eq; cbn [to_primitive mbind res_bind prim_loose_eq];
    rewrite ?num_eqb_NaN; try (by intros [= <-]).
  - destruct (to_string (VFun f)); cbn [mbind res_bind prim_loose_eq]; [|done]. rewrite num_eqb_NaN. by intros [= <-].
  - destruct (to_string (VObj arr ps)); cbn [mbind res_bind prim_loose_eq]; [|done]. rewrite num_eqb_NaN. by intros [= <-].
Qed.

Lemma day_item_NaN item s : stats_list (day_item NaN item s).2 = stats_list s ∧ day_merged (day_item NaN item s).2 = day_merged s.
Proof.
  unfold day_item. change (num_eqb NaN (num_of_Z (-1))) with false. cbn [negb].
  assert (∀ s', (store_own NaN item s').2 = s') as H.
  { intros s'. unfold store_own. cbv [mbind M_bind lift]. destruct (get item "node_id") as [id|]; [|done].
    destruct (loose_eq id (VNum NaN)) as [b|] eqn:E; [|done]. by apply loose_eq_NaN in E as ->. }
  cbv [mbind M_bind gets mret M_ret set_valid modify]. by destruct (truthy (one_valid_item s)); rewrite H.
Qed.

Lemma each_line_frame {St} (R : St → St → Prop) (body : string → M St unit) log lines :
  Reflexive R → Transitive R → (∀ l s, R s (body l s).2) → (∀ l s, R s (log l s)) →
  ∀ s, (each_line body log lines s).1 = Ret tt ∧ R s (each_line body log lines s).2.
Proof.
  intros Hr Ht Hb Hl. induction lines as [|l lines IH]; intros s; [by split|]. cbn [each_line].
  destruct (String.eqb l ""); [exact (IH s)|]. unfold mbind, M_bind, try_catch.
  pose proof (Hb l s) as Hs. destruct (body l s) as [[[]|e] s'] eqn:E; cbn [snd] in Hs.
  - destruct (IH s') as [H1 H2]. split; [done|]. by etrans.
  - cbn [modify]. destruct (IH (log l s')) as [H1 H2]. split; [done|]. etrans; [exact Hs|]. etrans; [apply Hl|done].
Qed.

Lemma stats_of_NaN tz legacy data : stats_of_content tz legacy NaN data = Ret [].
Proof.
  unfold stats_of_content.
  destruct (each_line_frame (λ s s', stats_list s' = stats_list s ∧ day_merged s' = day_merged s)
    (day_line NaN) log_day (split_char newline data)) with (s := day_init) as [H1 [H2 H3]].
  - by intros s.
  - intros s1 s2 s3 [] []. split; congruence.
  - intros l s. unfold day_line. unfold mbind, M_bind, lift. destruct (of_option SyntaxError (parse l)); [apply day_item_NaN|done].
  - done.
  - destruct (each_line _ _ _ day_init) as [r s]. cbn [fst snd] in *. unfold push_last. by rewrite H2, H3.
Qed.

(** ** Routes *)

Section routes_facts.
Context (tz : Z) (legacy : string → date) (dirname : string) (read_file : string → option string).
Context (ep_after : list (option (string * string)) → list (option (string * string))).
Context (js_sort : (DailyStat → DailyStat → bool) → list DailyStat → list DailyStat).
Context (cfg : config) (now : Z) (mon : monitor).

(** C2. The statistics route serves the log: asked for node [n] of the
    configuration and a day offset [k], it answers with that node's minutes of
    the log of the local day [k] days from now, each with its clock time, and
    placeholders for the minutes without a record; without a log it answers
    with an empty list. *)
Theorem stats_log_serves_node q n k log :
  (Z.of_nat (length (nodes cfg)) < 2 ^ 32 - 1)%Z → (Z.of_N n < Z.of_nat (length (nodes cfg)))%Z →
  q "node_id" = VStr (dec_of_N n) → number_or (q "offset") 0 = Ret (num_of_Z k) →
  valid_offset tz → dirname ≠ "" → valid_time now → valid_time (now + k * ms_per_day) →
  read_file (day_path dirname (local_day tz now + k)) = log_text <$> log →
  (∀ items, log = Some items → Forall (λ it, wf_stat it = true) items) →
  ∃ l, get_stats_log tz legacy dirname read_file cfg now q = Ret (JsonStats l) ∧
    match log with
    | Some items =>
        (∀ i it, last_record n i items = Some it → l !! i = Some (with_minute tz it)) ∧
        (∀ i, i < length l → last_record n i items = None →
           ∃ first, head items = Some first ∧ l !! i = Some (filler_object (node_num n) first i)) ∧
        (l ≠ [] → is_Some (last_record n (length l - 1) items))
    | None => l = []
    end.
Proof.
  intros Hlen Hn Hid Hoff Htz Hdir Hnow Hday Hread Hwf. unfold get_stats_log.
  rewrite Hid, Hoff, number_or_dec. cbn [mbind res_bind].
  rewrite invalid_id_range by (unfold safe; lia).
  rewrite (proj2 (Z.leb_le _ _)), (proj2 (Z.ltb_lt _ _)) by lia. cbn [andb negb].
  unfold stats_of_day, getStatsOfDay. rewrite stats_file_path, Hread by done. cbn [ds_id].
  destruct log as [items|]; cbn [fmap option_fmap option_map].
  - destruct (node_day_stats tz legacy n items) as (l & El & Hl); [lia|by apply Hwf|].
    change (num_of_Z (Z.of_N n)) with (node_num n). rewrite El. by exists l.
  - by exists [].
Qed.

(** Ids outside the configuration are rejected: an integer node id below
    -1 or not below the number of nodes gets an error from every route with a
    node id, whatever the logs hold; the route of a single node rejects -1 too. *)
Theorem foreign_ids_rejected q z :
  (Z.of_nat (length (nodes cfg)) < 2 ^ 32)%Z → safe z → (z < -1 ∨ Z.of_nat (length (nodes cfg)) ≤ z)%Z →
  number_or (q "node_id") (-1) = Ret (num_of_Z z) → number_or (q "id") (-1) = Ret (num_of_Z z) →
  (∀ d, ∃ o, number_or (q "offset") d = Ret o) →
  let msg := "Bad Request: invalid node id " +:+ dec_of_Z z in
  get_stats_log tz legacy dirname read_file cfg now q = Ret (JsonError msg) ∧
  get_history tz legacy dirname read_file cfg now mon q = Ret (Text msg) ∧
  get_chart tz cfg now mon q = Ret (Text msg) ∧
  get_node tz legacy dirname read_file cfg now q = Ret (Text msg) ∧
  get_daily_report tz legacy dirname read_file ep_after js_sort cfg now q = Ret (Text msg).
Proof.
  intros Hlen Hz Hout Hid Hid' Hoff msg.
  assert (invalid_id cfg (num_of_Z z) = true) as Hinv.
  { rewrite invalid_id_range by done. apply negb_true_iff, andb_false_iff. rewrite Z.leb_gt, Z.ltb_ge. lia. }
  assert (bad_request (num_of_Z z) = msg) as Hmsg by (unfold bad_request; by rewrite num_to_string_safe).
  destruct (Hoff 0%Z) as [o0 E0], (Hoff (-1)%Z) as [o1 E1].
  unfold get_stats_log, get_history, get_chart, get_node, get_daily_report.
  rewrite E0, E1, Hid, Hid'. cbn [mbind res_bind]. rewrite Hinv, Hmsg. split_and!; try done.
  rewrite !num_leb_safe by (done || unfold safe; lia).
  assert (((z <=? -1) || (Z.of_nat (length (nodes cfg)) <=? z))%Z = true) as ->; [|done].
  apply orb_true_iff. rewrite !Z.leb_le. lia.
Qed.

(** An id that is not a number selects nothing: the guard lets it pass,
    and the statistics are empty whatever the log of the day holds. *)
Theorem non_numeric_id_empty q o :
  number_or (q "node_id") (-1) = Ret NaN → number_or (q "offset") 0 = Ret o →
  get_stats_log tz legacy dirname read_file cfg now q = Ret (JsonStats []).
Proof.
  intros Hid Ho. unfold get_stats_log. rewrite Ho, Hid. cbn [mbind res_bind].
  assert (invalid_id cfg NaN = false) as ->.
  { unfold invalid_id. generalize (num_of_Z (Z.of_nat (length (nodes cfg)))). intros n.
    destruct n as [s|s| |s m e]; try destruct s; reflexivity. }
  unfold stats_of_day, getStatsOfDay. cbn [ds_id].
  destruct (read_file _); [by rewrite stats_of_NaN|done].
Qed.
End routes_facts.

Definition sample_config : config := {| logger := [ConsoleTransport "debug"]; nodes := ["localhost:9001"; "localhost:9003"] |}.

Definition sample_query (id : value) : query := λ k, if String.eqb k "offset" then VUndef else id.

Definition sample_file (f : string) : option string :=
  if String.eqb f (day_path "/srv" 16436) then Some (log_text sample_day) else None.

Lemma stats_log_serves_node_witness :
  ∃ l, get_stats_log 0 (λ _, None) "/srv" sample_file sample_config 1420070400000 (sample_query (VStr (dec_of_N 1))) =
      Ret (JsonStats l) ∧
    (∀ i it, last_record 1 i sample_day = Some it → l !! i = Some (with_minute 0 it)) ∧
    (∀ i, i < length l → last_record 1 i sample_day = None →
       ∃ first, head sample_day = Some first ∧ l !! i = Some (filler_object (node_num 1) first i)) ∧
    (l ≠ [] → is_Some (last_record 1 (length l - 1) sample_day)).
Proof.
  apply (stats_log_serves_node 0 (λ _, None) "/srv" sample_file sample_config 1420070400000
    (sample_query (VStr (dec_of_N 1))) 1 0 (Some sample_day)).
  - simpl. lia.
  - simpl. lia.
  - reflexivity.
  - reflexivity.
  - unfold valid_offset. lia.
  - discriminate.
  - unfold valid_time. lia.
  - unfold valid_time, ms_per_day. lia.
  - vm_compute. reflexivity.
  - intros items H. injection H as <-. exact sample_day_wf.
Defined.

Lemma foreign_ids_rejected_witness :
  let msg := "Bad Request: invalid node id " +:+ dec_of_Z 2 in
  let q := sample_query (VStr "2") in
  get_stats_log 0 (λ _, None) "/srv" sample_file sample_config 0 q = Ret (JsonError msg) ∧
  get_history 0 (λ _, None) "/srv" sample_file sample_config 0 initial q = Ret (Text msg) ∧
  get_chart 0 sample_config 0 initial q = Ret (Text msg) ∧
  get_node 0 (λ _, None) "/srv" sample_file sample_config 0 q = Ret (Text msg) ∧
  get_daily_report 0 (λ _, None) "/srv" sample_file (λ l, l) (λ _ l, l) sample_config 0 q = Ret (Text msg).
Proof.
  apply foreign_ids_rejected.
  - simpl. lia.
  - unfold safe. lia.
  - simpl. lia.
  - vm_compute. reflexivity.
  - vm_compute. reflexivity.
  - intros d. by eexists.
Defined.

Lemma non_numeric_id_empty_witness :
  get_stats_log 0 (λ _, None) "/srv" sample_file sample_config 1420070400000 (sample_query (VStr "all")) = Ret (JsonStats []).
Proof. eapply non_numeric_id_empty; vm_compute; reflexivity. Defined.

(** ** Clients *)

(** Sockets connect once and disconnect only while connected. *)
Fixpoint well_paired (open : gset nat) (es : list socket_event) : Prop :=
  match es with
  | [] => True
  | Connection c :: es' => c ∉ open ∧ well_paired ({[c]} ∪ open) es'
  | Disconnect c :: es' => c ∈ open ∧ well_paired (open ∖ {[c]}) es'
  end.

Definition socket_step (open : gset nat) (e : socket_event) : gset nat :=
  match e with Connection c => {[c]} ∪ open | Disconnect c => open ∖ {[c]} end.

(** The module's own handlers of the two events. *)
Definition client_event (e : socket_event) : event :=
  match e with Connection c => ClientConnect c | Disconnect c => ClientDisconnect c end.

Definition client_inv (open : gset nat) (s : monitor) : Prop :=
  g_client_num s = Z.of_nat (size open) ∧ (g_client s = None ↔ open = ∅).

Lemma client_inv_step tz dirname open s e : well_paired open [e] → client_inv open s →
  client_inv (socket_step open e) (step tz dirname s (client_event e)).
Proof.
  intros Hp [Hn Hc]. destruct e as [c|c]; destruct Hp as [Hp _]; unfold client_inv; cbn.
  - rewrite size_union, size_singleton by set_solver. split; [lia|]. split; [done|]. set_solver.
  - assert (size open = S (size (open ∖ {[c]}))) as Hs.
    { rewrite (union_difference_L {[c]} open) at 1 by set_solver. rewrite size_union, size_singleton by set_solver. lia. }
    rewrite Hn, Hs. split; [lia|].
    destruct (Z.eqb_spec (Z.of_nat (S (size (open ∖ {[c]}))) - 1) 0) as [E|E].
    + split; [|done]. intros _. apply leibniz_equiv, size_empty_inv. lia.
    + rewrite Hc. split; [set_solver|]. intros E'. rewrite E', size_empty in E. lia.
Qed.

Lemma client_inv_run tz dirname es : ∀ open s, well_paired open es → client_inv open s →
  client_inv (foldl socket_step open es) (run tz dirname s (client_event <$> es)).
Proof.
  unfold run. induction es as [|e es IH]; intros open s Hp Hi; [done|]. cbn [fmap list_fmap foldl].
  apply IH; [|apply client_inv_step; [|done]]; destruct e; destruct Hp; done.
Qed.

(** How often a client is addressed. *)
Definition addressed (c : nat) (e : effect) : nat :=
  match e with
  | Emit c' _ => if decide (c = c') then 1 else 0
  | BroadcastFrom c' _ => if decide (c = c') then 0 else 1
  | _ => 0
  end.

(** Events reach every client once: with the module's handlers on the
    socket events, after any well-paired sequence of connections and
    disconnections the module counts the open sockets, and an event it fires
    addresses every open socket exactly once, even when the socket it holds is
    closed already; with no open socket it sends nothing. *)
Theorem clients_addressed_once tz dirname s es m :
  g_client s = None → g_client_num s = 0%Z → well_paired ∅ es →
  let s' := run tz dirname s (client_event <$> es) in
  let open := foldl socket_step ∅ es in
  g_client_num s' = Z.of_nat (size open) ∧
  ∃ sent, effects (fireEvent m s').2 = effects s' ++ sent ∧
    (open = ∅ → sent = []) ∧
    ∀ c, c ∈ open → foldr Nat.add 0 (addressed c <$> sent) = 1.
Proof.
  intros Hc Hn Hp s' open.
  destruct (client_inv_run tz dirname es ∅ s Hp) as [H1 H2]; [by split; [rewrite Hn, size_empty|]|].
  fold s' open in H1, H2. split; [done|]. unfold fireEvent, mbind, M_bind, gets. destruct (g_client s') as [c0|] eqn:E.
  - exists [Emit c0 m; BroadcastFrom c0 m]. split; [cbn; by rewrite <-app_assoc|]. split.
    + intros Ho. by apply H2 in Ho.
    + intros c _. cbn. by destruct (decide (c = c0)).
  - exists []. split; [cbn; by rewrite app_nil_r|]. split; [done|]. intros c Hin.
    rewrite (proj1 H2 eq_refl) in Hin. set_solver.
Qed.

Lemma clients_addressed_once_witness :
  let es := [Connection 1; Connection 2; Disconnect 2; Connection 3] in
  let s' := run 0 "/srv" initial (client_event <$> es) in
  let open := foldl socket_step ∅ es in
  let m := ServerStatus "0" (new_node "0" "localhost:9001") in
  g_client_num s' = Z.of_nat (size open) ∧
  ∃ sent, effects (fireEvent m s').2 = effects s' ++ sent ∧
    (open = ∅ → sent = []) ∧
    ∀ c, c ∈ open → foldr Nat.add 0 (addressed c <$> sent) = 1.
Proof.
  apply clients_addressed_once; [reflexivity|reflexivity|]. cbn. set_solver.
Defined.

(** As the application registers them, the handlers never notice a
    disconnection: the count of clients grows with every connection and every
    disconnection, and a client is held for ever after the first one. *)
Theorem app_never_disconnects (e0 : socket_event) es s :
  let s' := foldl (λ s e, (on_socket e s).2) s (e0 :: es) in
  g_client_num s' = (g_client_num s + Z.of_nat (length (e0 :: es)))%Z ∧ is_Some (g_client s').
Proof.
  cbn zeta. generalize (e0 :: es) as l, (ltac:(done) : e0 :: es ≠ []). intros l.
  induction l as [|e l IH] using rev_ind; intros Hne; [done|]. rewrite foldl_app, length_app. cbn [foldl].
  destruct l as [|e1 l]; [destruct e; cbn; (split; [lia|done])|].
  destruct (IH ltac:(done)) as [IH1 _]. set (s1 := foldl _ _ _) in *.
  destruct e; cbn [on_socket onClientConnect modify snd with_client g_client g_client_num]; rewrite IH1; (split; [cbn [length]; lia|done]).
Qed.
