(* ===== verification/PageBase.v ===== *)
(** * The scripts of the monitor's pages (public/js/base.js, public/js/chart.js)

    String formatting, the running sums of the tables, the rows they are
    shown in, and dates.  jQuery's [text] is modelled by its documented effect
    on the cells of a row; Highcharts only receives the options. *)

From Stdlib Require Import SpecFloat.
From S2P Require Import Prelude JSNum JSValue JSON JSDate NodeLib MonitorLog LogFiles LogFacts MonitorApp.

(** ** String.prototype.format *)

Definition lbrace : ascii := "{".
Definition rbrace : ascii := "}".

(** [args[n]] for the digits [n] matched in the template. *)
Definition format_arg (args : list value) (n : string) : value :=
  match index_of n with
  | Some i => default VUndef (args !! N.to_nat i)
  | None => VUndef
  end.

(** The digits that follow an opening brace, when a closing brace ends them. *)
Definition scan_hole (s : string) : option (string * string) :=
  match span_digits s with
  | (String d ds, String c rest) => if Ascii.eqb c rbrace then Some (String d ds, rest) else None
  | _ => None
  end.

(** The scan of [this.replace(/\{\{|\}\}|\{(\d+)\}/g, ...)]; every step consumes
    a character, so the length of the text is enough fuel. *)
Fixpoint format_from (fuel : nat) (s : string) (args : list value) : res string :=
  match fuel, s with
  | S f, String c s' =>
      let copy := r ← format_from f s' args; Ret (String c r) in
      if Ascii.eqb c lbrace then
        match s' with
        | String c' s'' =>
            if Ascii.eqb c' lbrace then (r ← format_from f s'' args; Ret (String lbrace r))
            else match scan_hole s' with
                 | Some (n, rest) => a ← to_string (format_arg args n); r ← format_from f rest args; Ret (a +:+ r)
                 | None => copy
                 end
        | EmptyString => copy
        end
      else if Ascii.eqb c rbrace then
        match s' with
        | String c' s'' => if Ascii.eqb c' rbrace then (r ← format_from f s'' args; Ret (String rbrace r)) else copy
        | EmptyString => copy
        end
      else copy
  | _, _ => Ret ""
  end.

Definition format (s : string) (args : list value) : res string := format_from (String.length s) s args.

(** ** Tables *)

(** [dst[0] = src[0]], and the other columns are added up. *)
Definition accumulate_cell (i : nat) (x : value) : M (list (option value)) unit := λ dst,
  let d := default VUndef (mjoin (dst !! i)) in
  let '(d, dst) := if defined d then (d, dst) else (VInt 0, arr_set dst i (VInt 0)) in
  match js_add d x with
  | Ret v => (Ret tt, arr_set dst i v)
  | Throw e => (Throw e, dst)
  end.

Fixpoint accumulate_cells (i : nat) (src : list value) : M (list (option value)) unit :=
  match src with
  | [] => mret tt
  | x :: src' => accumulate_cell i x;; accumulate_cells (S i) src'
  end.

Definition accumulateArray (src : list value) : M (list (option value)) unit :=
  modify (λ dst, arr_set dst 0 (default VUndef (head src)));;
  accumulate_cells 1 (tail src).

(** [$(td).text(v)]: the text of the cell, unless [v] is [undefined], when
    [text] only reads. *)
Definition set_text (cell : string) (v : value) : res string :=
  match v with VUndef => Ret cell | _ => to_string v end.

(** [updateTr(tr, data_arr)] on the texts of the cells; data beyond the last
    cell is ignored. *)
Fixpoint updateTr (tds : list string) (data_arr : list value) : res (list string) :=
  match tds, data_arr with
  | td :: tds', x :: data' => t ← set_text td x; r ← updateTr tds' data'; Ret (t :: r)
  | _, _ => Ret tds
  end.

Fixpoint build_cells (new_tr : string) (data_arr : list value) : res string :=
  match data_arr with
  | [] => Ret new_tr
  | x :: data' =>
      s ← js_add (VStr (new_tr +:+ "<td>")) x;
      t ← to_string s;
      build_cells (t +:+ "</td>") data'
  end.

Definition quote_char : string := String dquote "".

Definition tr_open : string := "<tr class=" +:+ quote_char +:+ "tr_latest" +:+ quote_char +:+ ">".

Definition buildNewTr (data_arr : list value) : res string := build_cells tr_open data_arr.

(** ** Dates *)

Section page_dates.
Context (tz : Z) (legacy_parse : string → date).

Definition page_getMinuteOfTime (time : value) : res string :=
  d ← to_date legacy_parse time;
  Ret (two_digits (getHours tz d) +:+ ":" +:+ two_digits (getMinutes tz d)).

Definition page_getDay (now : Z) (offset : num) : res string :=
  let d := setDate tz (Some now) (num_add (getDate tz (Some now)) offset) in
  format "{0}-{1}-{2}" [VNum (getFullYear tz d); VNum (num_add (getMonth tz d) (num_of_Z 1)); VNum (getDate tz d)].

(** The setters of the time of day, on a valid date and an integer. *)
Definition setHours (t h : Z) : Z :=
  (local_day tz t * ms_per_day + h * 3600000 + local_ms tz t mod 3600000 - tz)%Z.
Definition setMinutes (t m : Z) : Z :=
  (local_day tz t * ms_per_day + (local_ms tz t / 3600000) * 3600000 + m * 60000 + local_ms tz t mod 60000 - tz)%Z.
Definition setSeconds (t s : Z) : Z :=
  (local_day tz t * ms_per_day + (local_ms tz t / 60000) * 60000 + s * 1000 + local_ms tz t mod 1000 - tz)%Z.

Definition getDateStart (now : Z) : Z := setSeconds (setMinutes (setHours now 0) 0) 0.
End page_dates.

(** ** Charts *)

Definition obj (ps : list (string * value)) : value := VObj false ps.

(** [getDefaultCharOption()]; [touch] is whether the document has touch events. *)
Definition getDefaultCharOption (touch : bool) : value :=
  obj [("chart", obj [("zoomType", VStr "x"); ("spacingRight", VInt 20)]);
       ("title", obj [("text", VStr "Chart Title")]);
       ("subtitle", obj [("text", VStr (if touch then "Pinch the chart to zoom in"
                                        else "Click and drag in the plot area to zoom in"))]);
       ("xAxis", obj [("type", VStr "datetime"); ("maxZoom", VInt (60 * 60 * 1000));
                      ("title", obj [("text", VNull)])]);
       ("yAxis", obj [("title", obj [("text", VStr "Number")])]);
       ("tooltip", obj [("shared", VBool true)]);
       ("legend", obj [("enabled", VBool false)]);
       ("plotOptions", obj [("area", obj [("stacking", VStr "normal"); ("lineColor", VStr "#666666");
          ("lineWidth", VInt 1);
          ("marker", obj [("lineWidth", VInt 1); ("lineColor", VStr "#666666")])])]);
       ("series", VObj true [("0", obj [("type", VStr "area"); ("name", VStr "");
          ("pointInterval", VInt (60 * 1000)); ("pointStart", VInt 0); ("data", VObj true [])])])].

(** What the page hands to Highcharts: the global options at load time and one
    chart per [createChart]. *)
Inductive chart_call :=
| SetOptions (o : value)
| Highcharts (container : string) (option : value).

Definition load_chart_js : list chart_call :=
  [SetOptions (obj [("global", obj [("useUTC", VBool false)])])].

Definition createChart (container : string) (option : value) : list chart_call := [Highcharts container option].
