(* ===== verification/PageFacts.v ===== *)
(** * The page scripts: formatting, sums and dates *)

From Stdlib Require Import SpecFloat.
From S2P Require Import Prelude JSNum JSValue JSON JSDate NodeLib MonitorLog LogFiles LogFacts MonitorApp PageBase.

(** ** Templates

    A template is a list of characters and numbered holes; braces are
    printed doubled. *)

Inductive piece :=
| Lit (c : ascii)
| Hole (n : N).

Definition print_piece (p : piece) : string :=
  match p with
  | Lit c => if Ascii.eqb c lbrace then String lbrace (String lbrace "")
             else if Ascii.eqb c rbrace then String rbrace (String rbrace "")
             else String c ""
  | Hole n => String lbrace (dec_of_N n +:+ String rbrace "")
  end.

Fixpoint print_template (ps : list piece) : string :=
  match ps with
  | [] => ""
  | p :: ps' => print_piece p +:+ print_template ps'
  end.

(** The template with every hole filled by the argument of its number. *)
Fixpoint fill_template (ps : list piece) (args : list value) : res string :=
  match ps with
  | [] => Ret ""
  | Lit c :: ps' => r ← fill_template ps' args; Ret (String c r)
  | Hole n :: ps' =>
      a ← to_string (default VUndef (args !! N.to_nat n));
      r ← fill_template ps' args;
      Ret (a +:+ r)
  end.

Definition holes_ok (ps : list piece) : Prop :=
  Forall (λ p, match p with Hole n => (n < 2 ^ 32 - 1)%N | Lit _ => True end) ps.

Lemma scan_hole_dec n rest : scan_hole (dec_of_N n +:+ String rbrace rest) = Some (dec_of_N n, rest).
Proof.
  unfold scan_hole. rewrite span_digits_app by (done || apply digits_dec_of_N).
  pose proof (dec_of_N_nonempty n). by destruct (dec_of_N n).
Qed.

Lemma dec_of_N_head n rest : ∃ c s, dec_of_N n +:+ rest = String c s ∧ Ascii.eqb c lbrace = false.
Proof.
  pose proof (dec_of_N_nonempty n) as Hne. pose proof (digits_dec_of_N n) as Hd.
  destruct (dec_of_N n) as [|c s]; [done|]. exists c, (s +:+ rest). split; [done|].
  cbn [str_forallb] in Hd. apply andb_true_iff in Hd as [Hd _].
  destruct (Ascii.eqb_spec c lbrace) as [->|]; done.
Qed.

Lemma format_from_template ps args : holes_ok ps → ∀ fuel,
  String.length (print_template ps) ≤ fuel → format_from fuel (print_template ps) args = fill_template ps args.
Proof.
  induction 1 as [|p ps Hp _ IH]; intros fuel Hf; [by destruct fuel|].
  cbn [print_template] in *. rewrite str_length_app in Hf. destruct p as [c|n]; cbn [print_piece fill_template] in *.
  - destruct (Ascii.eqb_spec c lbrace) as [->|Hl]; [|destruct (Ascii.eqb_spec c rbrace) as [->|Hr]];
      (destruct fuel as [|fuel]; [simpl in Hf; lia|]); cbn [append format_from].
    + rewrite Ascii.eqb_refl. by rewrite IH by (simpl in Hf; lia).
    + change (Ascii.eqb rbrace lbrace) with false. rewrite Ascii.eqb_refl. by rewrite IH by (simpl in Hf; lia).
    + rewrite (proj2 (Ascii.eqb_neq _ _) Hl), (proj2 (Ascii.eqb_neq _ _) Hr). by rewrite IH by (simpl in Hf; lia).
  - destruct fuel as [|fuel]; [simpl in Hf; lia|].
    cbn [append format_from]. rewrite Ascii.eqb_refl, str_app_assoc. cbn [append].
    destruct (dec_of_N_head n (String rbrace (print_template ps))) as (c & s & E & Hc).
    pose proof (scan_hole_dec n (print_template ps)) as Hs. rewrite E in *. rewrite Hc, Hs.
    unfold format_arg. rewrite index_of_dec by done. cbn [from_option id].
    destruct (to_string _); [|done]. cbn [mbind res_bind]. rewrite IH; [done|].
    simpl in Hf. rewrite str_length_app in Hf. simpl in Hf. lia.
Qed.

(** [format] fills templates: for a template whose literal braces are
    doubled, the result is the template with every hole [{n}] replaced by the
    text of the [n]-th argument ([undefined] when there is none); an argument
    that has no text makes it throw. *)
Theorem format_template ps args : holes_ok ps → format (print_template ps) args = fill_template ps args.
Proof. intros H. by apply format_from_template. Qed.

Lemma format_template_witness :
  format "{0}: {{{1}}}" [VStr "a"; VInt 5] =
    fill_template [Hole 0; Lit ":"; Lit " "; Lit lbrace; Hole 1; Lit rbrace] [VStr "a"; VInt 5].
Proof.
  exact (format_template [Hole 0; Lit ":"; Lit " "; Lit lbrace; Hole 1; Lit rbrace] [VStr "a"; VInt 5]
    ltac:(repeat constructor)).
Defined.

(** ** Dates *)

(** The page and the server show the same day: [getDay] of the page and of
    the web application agree for every time and offset. *)
Theorem page_getDay_agrees tz now offset : page_getDay tz now offset = Ret (getDay tz now offset).
Proof.
  unfold page_getDay, getDay. generalize (getFullYear tz (setDate tz (Some now) (num_add (getDate tz (Some now)) offset))),
    (num_add (getMonth tz (setDate tz (Some now) (num_add (getDate tz (Some now)) offset))) (num_of_Z 1)),
    (getDate tz (setDate tz (Some now) (num_add (getDate tz (Some now)) offset))). intros y m d.
  unfold format. change "{0}-{1}-{2}" with (print_template [Hole 0; Lit "-"; Hole 1; Lit "-"; Hole 2]).
  rewrite format_from_template by (first [done | by repeat constructor]).
  change (Ret (num_to_string y +:+ String "-" (num_to_string m +:+ String "-" (num_to_string d +:+ ""))) =
    Ret (num_to_string y +:+ "-" +:+ num_to_string m +:+ "-" +:+ num_to_string d)).
  by rewrite str_app_nil_r.
Qed.

(** [getDateStart] is the beginning of the local day up to the second: the
    hour, minute and second of its result are zero on the same local day, and
    it is later than the midnight by the milliseconds of the current second. *)
Theorem getDateStart_midnight tz now :
  let t := getDateStart tz now in
  local_day tz t = local_day tz now ∧ hours_of tz t = 0%Z ∧ minutes_of tz t = 0%Z ∧ seconds_of tz t = 0%Z ∧
  t = (local_day tz now * ms_per_day - tz + (now + tz) mod 1000)%Z.
Proof.
  cbn zeta. assert (getDateStart tz now = local_day tz now * ms_per_day - tz + (now + tz) mod 1000)%Z as ->.
  { unfold getDateStart, setSeconds, setMinutes, setHours, local_day, local_ms, ms_per_day. divlia. }
  unfold hours_of, minutes_of, seconds_of, local_ms, local_day, ms_per_day.
  split_and!; [divlia..|done].
Qed.

(** ** Tables *)

Definition cells (xs : list Z) : list (option value) := (λ x, Some (VInt x)) <$> xs.

(** The sums can be added up exactly. *)
Fixpoint rows_safe (acc : list Z) (rows : list (list Z)) : Prop :=
  match rows with
  | [] => True
  | xs :: rows' => length xs = length acc ∧ Forall safe xs ∧ Forall safe (zip_with Z.add acc xs) ∧
                   rows_safe (zip_with Z.add acc xs) rows'
  end.

Definition row (label : value) (xs : list Z) : list value := label :: (VInt <$> xs).

Lemma accumulate_cells_add xs : ∀ acc (pre : list (option value)),
  length xs = length acc → Forall safe acc → Forall safe xs → Forall safe (zip_with Z.add acc xs) →
  accumulate_cells (length pre) (VInt <$> xs) (pre ++ cells acc) = (Ret tt, pre ++ cells (zip_with Z.add acc xs)).
Proof.
  induction xs as [|x xs IH]; intros [|a acc] pre Hl Ha Hx Hs; try done.
  cbn [zip_with] in *. apply Forall_cons in Ha as [Ha Has], Hx as [Hx Hxs], Hs as [Hs Hss].
  cbn [cells fmap list_fmap accumulate_cells]. cbv [mbind M_bind]. unfold accumulate_cell.
  rewrite lookup_app_r, Nat.sub_diag by done. cbn [lookup list_lookup mjoin option_join from_option id defined VInt].
  change (VNum (num_of_Z a)) with (VInt a). change (VNum (num_of_Z x)) with (VInt x).
  rewrite js_add_VInt by done. cbv beta iota.
  replace (arr_set (pre ++ Some (VInt a) :: ((λ x, Some (VInt x)) <$> acc)) (length pre) (VInt (a + x)))
    with ((pre ++ [Some (VInt (a + x))]) ++ cells acc).
  2: { unfold arr_set. rewrite decide_True by (rewrite length_app; simpl; lia).
       rewrite insert_app_r_alt, Nat.sub_diag by lia. by rewrite <-app_assoc. }
  replace (S (length pre)) with (length (pre ++ [Some (VInt (a + x))])) by (rewrite length_app; simpl; lia).
  rewrite IH by (done || by simpl in Hl; lia). by rewrite <-app_assoc.
Qed.

Lemma accumulate_cells_first xs : ∀ pre : list (option value), Forall safe xs →
  accumulate_cells (length pre) (VInt <$> xs) pre = (Ret tt, pre ++ cells xs).
Proof.
  induction xs as [|x xs IH]; intros pre Hx; [by rewrite app_nil_r|].
  apply Forall_cons in Hx as [Hx Hxs]. cbn [fmap list_fmap accumulate_cells]. cbv [mbind M_bind]. unfold accumulate_cell.
  rewrite lookup_ge_None_2 by done. cbn [mjoin option_join from_option id defined].
  rewrite (js_add_VInt 0 x) by (done || unfold safe; lia). cbv beta iota.
  replace (arr_set (arr_set pre (length pre) (VInt 0)) (length pre) (VInt (0 + x))) with (pre ++ [Some (VInt x)]).
  2: { unfold arr_set at 2. rewrite decide_False, Nat.sub_diag by lia. cbn [replicate app].
       unfold arr_set. rewrite decide_True by (rewrite length_app; simpl; lia).
       by rewrite insert_app_r_alt, Nat.sub_diag by lia. }
  replace (S (length pre)) with (length (pre ++ [Some (VInt x)])) by (rewrite length_app; simpl; lia).
  rewrite IH by done. by rewrite <-app_assoc.
Qed.

(** The sums of a table, row after row. *)
Definition accumulate_rows (rows : list (value * list Z)) (dst : list (option value)) : list (option value) :=
  foldl (λ dst r, (accumulateArray (row r.1 r.2) dst).2) dst rows.

Lemma accumulateArray_add l l' acc xs :
  length xs = length acc → Forall safe acc → Forall safe xs → Forall safe (zip_with Z.add acc xs) →
  accumulateArray (row l' xs) (Some l :: cells acc) = (Ret tt, Some l' :: cells (zip_with Z.add acc xs)).
Proof.
  intros. unfold accumulateArray, row. cbv [mbind M_bind modify]. cbn [head tail from_option id].
  change (arr_set (Some l :: cells acc) 0 l') with ([Some l'] ++ cells acc).
  by apply (accumulate_cells_add xs acc [Some l']).
Qed.

Lemma accumulate_rows_add rows : ∀ l acc,
  Forall safe acc → rows_safe acc rows.*2 →
  accumulate_rows rows (Some l :: cells acc) =
    Some (default l (last rows.*1)) :: cells (foldl (zip_with Z.add) acc rows.*2).
Proof.
  induction rows as [|[l' xs] rows IH]; intros l acc Ha Hr; [done|].
  cbn [fmap list_fmap snd fst rows_safe] in *. destruct Hr as (Hl & Hx & Hs & Hr).
  unfold accumulate_rows. cbn [foldl fst snd]. rewrite accumulateArray_add by done. cbn [snd].
  fold (accumulate_rows rows (Some l' :: cells (zip_with Z.add acc xs))). rewrite IH by done.
  f_equal. f_equal. rewrite last_cons. by destruct (last rows.*1).
Qed.

(** [accumulateArray] adds up a table: from an empty sum, after any rows of
    the same width (the first cell a label, the others integers with exact
    sums), the sum holds the label of the last row and the sums of the columns. *)
Theorem accumulateArray_columns l xs rows :
  Forall safe xs → rows_safe xs rows.*2 →
  accumulate_rows ((l, xs) :: rows) [] =
    Some (default l (last rows.*1)) :: cells (foldl (zip_with Z.add) xs rows.*2).
Proof.
  intros Hx Hr. unfold accumulate_rows. cbn [foldl fst snd].
  assert (accumulateArray (row l xs) [] = (Ret tt, Some l :: cells xs)) as ->.
  { unfold accumulateArray, row. cbv [mbind M_bind modify]. cbn [head tail from_option id].
    change (arr_set [] 0 l) with [Some l]. by apply (accumulate_cells_first xs [Some l]). }
  by apply accumulate_rows_add.
Qed.

Lemma accumulateArray_columns_witness :
  accumulate_rows [(VStr "10:01", [1; 20; 3]%Z); (VStr "10:01", [4; 50; 6]%Z)] [] =
    Some (VStr "10:01") :: cells [5; 70; 9]%Z.
Proof.
  apply (accumulateArray_columns (VStr "10:01") [1; 20; 3]%Z [(VStr "10:01", [4; 50; 6]%Z)]).
  - repeat constructor; unfold safe; lia.
  - cbn. split_and!; try done; repeat constructor; unfold safe; lia.
Defined.

(** The text of a cell value. *)
Definition cell_text (v : value) : option string :=
  match v with VStr s => Some s | VNum n => Some (num_to_string n) | VBool b => Some (if b then "true" else "false")
             | VNull => Some "null" | VUndef => Some "undefined" | _ => None end.

Lemma build_cells_texts data : ∀ texts pre,
  cell_text <$> data = Some <$> texts →
  build_cells pre data = Ret (pre +:+ foldr (λ t r, "<td>" +:+ t +:+ "</td>" +:+ r) "" texts).
Proof.
  induction data as [|v data IH]; intros [|t texts] pre H; try done; [cbn; by rewrite str_app_nil_r|].
  cbn [fmap list_fmap] in H. injection H as Hv H. cbn [build_cells foldr].
  assert (js_add (VStr (pre +:+ "<td>")) v = Ret (VStr (pre +:+ "<td>" +:+ t))) as ->.
  { rewrite <-str_app_assoc. destruct v as [| |b|n|s|f|arr ps]; simplify_eq/=; try done. }
  cbn [mbind res_bind to_string]. rewrite (IH texts) by done. f_equal. by rewrite !str_app_assoc.
Qed.

(** [buildNewTr] and [updateTr] show the same texts: a new row has one cell
    per value, and updating a row of that many cells gives exactly the texts of
    the values. *)
Theorem row_texts data texts tds :
  cell_text <$> data = Some <$> texts → length tds = length data → Forall (λ v, v ≠ VUndef) data →
  buildNewTr data = Ret (tr_open +:+ foldr (λ t r, "<td>" +:+ t +:+ "</td>" +:+ r) "" texts) ∧
  updateTr tds data = Ret texts.
Proof.
  intros Ht Hl Hd. split; [by apply build_cells_texts|]. revert texts tds Ht Hl.
  induction Hd as [|v data Hv _ IH]; intros [|t texts] [|td tds] Ht Hl; try done.
  cbn [fmap list_fmap] in Ht. injection Ht as Hvt Ht. cbn [updateTr].
  assert (set_text td v = Ret t) as ->.
  { destruct v as [| |b|n|s|f|arr ps]; simplify_eq/=; done. }
  cbn [mbind res_bind]. rewrite (IH texts tds) by (done || by injection Hl). done.
Qed.

Lemma row_texts_witness :
  buildNewTr [VStr "10:01"; VInt 70] =
    Ret (tr_open +:+ foldr (λ t r, "<td>" +:+ t +:+ "</td>" +:+ r) "" ["10:01"; "70"]) ∧
  updateTr ["--"; "--"] [VStr "10:01"; VInt 70] = Ret ["10:01"; "70"].
Proof. apply row_texts; [reflexivity|reflexivity|repeat constructor; discriminate]. Defined.
