(* ===== verification/NodeUrl.v ===== *)
(** * Node's [querystring] and [url] modules

    [querystring.stringify] on an object of primitives and arrays, and the
    legacy [url.format] on the fields the admin client sets.  [qs_parse] is the
    usual reading of a query, which the printed form is shown to survive. *)

From Stdlib Require Import SpecFloat.
From S2P Require Import Prelude JSNum JSValue JSON.

(** ** Percent encoding *)

Definition hex_digit (n : N) : ascii :=
  if (n <? 10)%N then ascii_of_N (48 + n) else ascii_of_N (55 + n).

(** The bytes of a code unit below 256 in UTF-8. *)
Definition utf8_bytes (n : N) : list N :=
  if (n <? 128)%N then [n] else [(192 + n / 64)%N; (128 + n mod 64)%N].

Definition percent (n : N) : string :=
  String "%" (String (hex_digit (n / 16)) (String (hex_digit (n mod 16)) "")).

(** The characters [querystring.escape] keeps: letters, digits and [!'()*-._~]. *)
Definition unreserved (c : ascii) : bool :=
  let n := N_of_ascii c in
  ((48 <=? n) && (n <=? 57) || (65 <=? n) && (n <=? 90) || (97 <=? n) && (n <=? 122))%N ||
  existsb (N.eqb n) [33; 39; 40; 41; 42; 45; 46; 95; 126]%N.

Definition escape_char (c : ascii) : string :=
  if unreserved c then String c ""
  else foldr (λ n s, percent n +:+ s) "" (utf8_bytes (N_of_ascii c)).

Fixpoint qs_escape (s : string) : string :=
  match s with
  | EmptyString => ""
  | String c s' => escape_char c +:+ qs_escape s'
  end.

(** ** querystring.stringify *)

Definition qs_primitive (v : value) : string :=
  match v with
  | VStr s => s
  | VNum n => if finite n then num_to_string n else ""
  | VBool b => if b then "true" else "false"
  | _ => ""
  end.

Definition qs_field (k : string) (v : value) : string := qs_escape k +:+ "=" +:+ qs_escape (qs_primitive v).

(** The fields of one property; an array gives one per element. *)
Definition qs_fields (kv : string * value) : list string :=
  match kv.2 with
  | VObj true ps => (λ e, qs_field kv.1 e.2) <$> filter (λ e, is_Some (index_of e.1)) ps
  | v => [qs_field kv.1 v]
  end.

Definition qs_stringify (ps : list (string * value)) : string := join "&" (ps ≫= qs_fields).

(** ** url.format *)

Record url_object := {
  u_protocol : string;
  u_hostname : string;
  u_port : value;
  u_pathname : string;
  u_search : string
}.

(** [#] in a search, and [#] and [?] in a path, are escaped. *)
Fixpoint escape_chars (cs : list ascii) (s : string) : string :=
  match s with
  | EmptyString => ""
  | String c s' => (if existsb (Ascii.eqb c) cs then percent (N_of_ascii c) else String c "") +:+ escape_chars cs s'
  end.

Definition with_prefix (c : ascii) (s : string) : string :=
  match s with
  | EmptyString => ""
  | String c' _ => if Ascii.eqb c' c then s else String c s
  end.

(** For the protocol [http], which has slashes. *)
Definition url_format (u : url_object) : res string :=
  port ← to_string (u_port u);
  let hostname := if existsb (Ascii.eqb ":") (list_ascii_of_string (u_hostname u))
                  then "[" +:+ u_hostname u +:+ "]" else u_hostname u in
  let host := if String.eqb (u_hostname u) "" then None
              else Some (hostname +:+ (if truthy (u_port u) then ":" +:+ port else "")) in
  let pathname := escape_chars ["#"%char; "?"%char] (u_pathname u) in
  let search := escape_chars ["#"%char] (with_prefix "?" (u_search u)) in
  Ret (u_protocol u +:+ ":" +:+
       match host with Some h => "//" +:+ h +:+ with_prefix "/" pathname | None => pathname end +:+ search).

(** ** Reading a query *)

Definition unhex (c : ascii) : option N :=
  let n := N_of_ascii c in
  if ((48 <=? n) && (n <=? 57))%N then Some (n - 48)%N
  else if ((65 <=? n) && (n <=? 70))%N then Some (n - 55)%N
  else if ((97 <=? n) && (n <=? 102))%N then Some (n - 87)%N
  else None.

Definition unhex2 (a b : ascii) : option N := x ← unhex a; y ← unhex b; Some (16 * x + y)%N.

(** Percent decoding of UTF-8 text with code units below 256. *)
Fixpoint qs_unescape (s : string) : string :=
  match s with
  | EmptyString => ""
  | String c1 s1 =>
      let keep := String c1 (qs_unescape s1) in
      if Ascii.eqb c1 "+" then String " " (qs_unescape s1)
      else if Ascii.eqb c1 "%" then
        match s1 with
        | String h (String l s2) =>
            match unhex2 h l with
            | Some b =>
                if (b <? 128)%N then String (ascii_of_N b) (qs_unescape s2)
                else match s2 with
                     | String "%" (String h' (String l' s3)) =>
                         match unhex2 h' l' with
                         | Some b' => String (ascii_of_N ((b - 192) * 64 + (b' - 128))) (qs_unescape s3)
                         | None => keep
                         end
                     | _ => keep
                     end
            | None => keep
            end
        | _ => keep
        end
      else keep
  end.

(** The text before the first [=] and after it. *)
Fixpoint split_eq (s : string) : string * string :=
  match s with
  | EmptyString => ("", "")
  | String c s' => if Ascii.eqb c "=" then ("", s') else let '(k, v) := split_eq s' in (String c k, v)
  end.

Definition qs_parse (s : string) : list (string * string) :=
  if String.eqb s "" then []
  else (λ f, let '(k, v) := split_eq f in (qs_unescape k, qs_unescape v)) <$> split_char "&" s.

Lemma unescape_char c s : qs_unescape (escape_char c +:+ s) = String c (qs_unescape s).
Proof. destruct c as [[] [] [] [] [] [] [] []]; reflexivity. Qed.

Lemma unescape_escape s : qs_unescape (qs_escape s) = s.
Proof. induction s as [|c s IH]; [done|]. cbn [qs_escape]. by rewrite unescape_char, IH. Qed.

(** Characters that separate the parts of a URL. *)
Definition separator (c : ascii) : bool := existsb (Ascii.eqb c) ["&"; "="; "#"; "?"; "/"; " "]%char.

Lemma escape_no_separator s : str_forallb (λ c, negb (separator c)) (qs_escape s) = true.
Proof.
  induction s as [|c s IH]; [done|]. cbn [qs_escape]. rewrite str_forallb_app, IH.
  destruct c as [[] [] [] [] [] [] [] []]; reflexivity.
Qed.

Lemma split_eq_field k v : str_forallb (λ c, negb (separator c)) k = true → split_eq (k +:+ String "=" v) = (k, v).
Proof.
  induction k as [|c k IH]; [done|]. cbn [str_forallb append split_eq]. intros H. apply andb_true_iff in H as [Hc Hk].
  destruct (Ascii.eqb_spec c "=") as [->|]; [done|]. by rewrite IH.
Qed.

Definition primitive (v : value) : bool := match v with VObj _ _ | VFun _ => false | _ => true end.

Lemma qs_field_plain k v : str_forallb (λ c, negb (Ascii.eqb c "&")) (qs_field k v) = true.
Proof.
  assert (∀ s, str_forallb (λ c, negb (Ascii.eqb c "&")) (qs_escape s) = true) as H.
  { intros s. induction s as [|c s IH]; [done|]. cbn [qs_escape]. rewrite str_forallb_app, IH.
    destruct c as [[] [] [] [] [] [] [] []]; reflexivity. }
  unfold qs_field. rewrite !str_forallb_app, !H. done.
Qed.

Lemma qs_parse_stringify ps : Forall (λ kv, primitive kv.2 = true) ps →
  qs_parse (qs_stringify ps) = (λ kv, (kv.1, qs_primitive kv.2)) <$> ps.
Proof.
  intros Hp. assert (ps ≫= qs_fields = (λ kv, qs_field kv.1 kv.2) <$> ps) as Hf.
  { induction Hp as [|[k v] ps Hv _ IH]; [done|]. cbn. rewrite IH. by destruct v as [| | | | | |[] ?]. }
  unfold qs_parse, qs_stringify. rewrite Hf. destruct ps as [|kv ps]; [done|].
  assert (∀ l, l = (λ kv, qs_field kv.1 kv.2) <$> kv :: ps → String.eqb (join "&" l) "" = false) as Hne.
  { intros l ->. apply String.eqb_neq. intros E. apply (f_equal String.length) in E. cbn [fmap list_fmap] in E.
    destruct ps; cbn [fmap list_fmap join] in E; unfold qs_field in E; rewrite !str_length_app in E; simpl in E; lia. }
  rewrite (Hne _ eq_refl). change "&" with (String "&"%char "") at 1. rewrite split_char_join.
  - rewrite <-list_fmap_compose. apply list_fmap_ext. intros i [k v] _. cbn [compose fst snd].
    unfold qs_field. cbn [append]. rewrite split_eq_field by apply escape_no_separator.
    by rewrite !unescape_escape.
  - done.
  - apply Forall_fmap, Forall_forall. intros [k v] _. apply qs_field_plain.
Qed.
