(* ===== verification/Admin.v ===== *)
(** * The publishing client (node-xcomet-admin)

    [NodeInfo], [XCometAdmin] and [pub], with the example program.  The
    [sharding] package and the HTTP client are not part of the repository: the
    shard of a user is a parameter, and a request is recorded with its address
    and form. *)

From Stdlib Require Import SpecFloat.
From S2P Require Import Prelude JSNum JSValue JSON NodeUrl.

(** ** NodeInfo *)

Record NodeInfo := {
  public_host : string;
  local_host : string;
  client_port : value;
  admin_port : value;
  not_local : value
}.

Definition new_NodeInfo (pub loc : string) (client admin not_loc : value) : NodeInfo :=
  {| public_host := pub; local_host := loc; client_port := client; admin_port := admin;
     not_local := if truthy not_loc then not_loc else VBool false |}.

(** An element of the constructor's list: an instance of [NodeInfo] or not. *)
Inductive node_arg :=
| IsNode (n : NodeInfo)
| NotNode (v : value).

Definition is_node (a : node_arg) : bool := match a with IsNode _ => true | NotNode _ => false end.

(** ** XCometAdmin *)

(** A POST request with its form, which is a string. *)
Record post := { post_url : string; post_form : string }.

Section admin.
Context {Sharding : Type}.
Context (new_sharding : list node_arg → value → res Sharding).
Context (sharding_shard : Sharding → value → res NodeInfo).

Definition XCometAdmin (nodes : list node_arg) (option : value) : res Sharding :=
  sharding ← new_sharding nodes option;
  if forallb is_node nodes then Ret sharding
  else Throw (Raised "all nodes must be instance of NodeInfo").

Definition shard (admin : Sharding) (user : value) : res NodeInfo := sharding_shard admin user.

(** [option && option.to && option.from && option.msg] *)
Definition complete (option : value) : res bool :=
  if truthy option then
    to ← get option "to";
    if truthy to then
      from ← get option "from";
      if truthy from then
        msg ← get option "msg";
        Ret (truthy msg)
      else Ret false
    else Ret false
  else Ret false.

(** The message as a string: objects are printed, anything else but a string
    is refused. *)
Definition message_text (msg : value) : res string :=
  match msg with
  | VStr s => Ret s
  | VObj _ _ => match stringify msg with
                | Some s => Ret s
                | None => Throw (Raised "parameter 'msg' must be string type")
                end
  | _ => Throw (Raised "parameter 'msg' must be string type")
  end.

(** The address of the node that publishes to [to]. *)
Definition pub_url (node_info : NodeInfo) (to from ttl : value) : res string :=
  url_format
    {| u_protocol := "http";
       u_hostname := if truthy (not_local node_info) then public_host node_info else local_host node_info;
       u_port := admin_port node_info;
       u_pathname := "/pub";
       u_search := qs_stringify ([("to", to); ("from", from)] ++ if truthy ttl then [("ttl", ttl)] else []) |}.

Definition pub (admin : Sharding) (option : value) : M (list post) unit :=
  ok ← lift (complete option);
  if (ok : bool) then
    to ← lift (get option "to");
    from ← lift (get option "from");
    msg ← lift (get option "msg");
    text ← lift (message_text msg);
    node_info ← lift (shard admin to);
    ttl ← lift (get option "ttl");
    url ← lift (pub_url node_info to from ttl);
    modify (λ posts, posts ++ [{| post_url := url; post_form := text |}])
  else raise (Raised "invalid parameters").
End admin.

(** ** The callback *)

(** What the HTTP client reports: an error, or a status and a body. *)
Inductive http_result :=
| HttpError (err : string)
| HttpReply (status : Z) (body : string).

(** The arguments [pub] calls back with. *)
Inductive pub_result :=
| PubError (msg : string)      (* a new Error *)
| PubRefused (body : string)   (* the body as the error *)
| PubDone (body : string).     (* null and the body *)

Definition pub_callback (r : http_result) : pub_result :=
  match r with
  | HttpError err => PubError ("pub request failed: " +:+ err)
  | HttpReply status body => if negb (status =? 200)%Z then PubRefused body else PubDone body
  end.

(** ** example.js *)

Definition example_nodes : list node_arg :=
  (λ ports, IsNode (new_NodeInfo "192.168.2.3" "127.0.0.1" (VInt ports.1) (VInt ports.2) VUndef)) <$>
    [(9000, 9001); (9002, 9003); (9004, 9005)]%Z.

(** The line the example prints for a result: [if (err)] tests its truthiness. *)
Definition example_output (r : pub_result) : string :=
  match r with
  | PubError msg => "pub err: Error: " +:+ msg
  | PubRefused body => if String.eqb body "" then "pub result: undefined" else "pub err: " +:+ body
  | PubDone body => "pub result: " +:+ body
  end.

Definition example {Sharding} (new_sharding : list node_arg → value → res Sharding)
    (sharding_shard : Sharding → value → res NodeInfo) (argv : list value) : M (list post) unit :=
  let toUser := default VUndef (argv !! 2) in
  let fromUser := default VUndef (argv !! 3) in
  let message := default VUndef (argv !! 4) in
  admin ← lift (XCometAdmin new_sharding example_nodes VUndef);
  node_info ← lift (shard sharding_shard admin toUser);
  pub sharding_shard admin (VObj false [("to", toUser); ("from", fromUser); ("msg", message)]);;
  pub sharding_shard admin (VObj false [("to", toUser); ("from", fromUser); ("msg", message); ("ttl", VInt 10)]).

(** ** Guarantees *)

Section admin_facts.
Context {Sharding : Type} (sharding_shard : Sharding → value → res NodeInfo).

(** [pub] sends one request or none: if it returns, exactly one request
    was sent; if it throws, for whatever reason, none was. *)
Theorem pub_one_or_none admin option posts :
  match pub sharding_shard admin option posts with
  | (Ret _, posts') => ∃ p, posts' = posts ++ [p]
  | (Throw _, posts') => posts' = posts
  end.
Proof.
  unfold pub. cbv [mbind M_bind lift]. destruct (complete option) as [[]|]; try done.
  destruct (get option "to") as [to|]; [|done]. destruct (get option "from") as [from|]; [|done].
  destruct (get option "msg") as [msg|]; [|done]. destruct (message_text msg) as [text|]; [|done].
  destruct (shard sharding_shard admin to) as [n|]; [|done]. destruct (get option "ttl") as [ttl|]; [|done].
  destruct (pub_url n to from ttl) as [url|]; [|done]. by eexists.
Qed.

Lemma escape_chars_id cs s : str_forallb (λ c, negb (existsb (Ascii.eqb c) cs)) s = true → escape_chars cs s = s.
Proof.
  induction s as [|c s IH]; [done|]. cbn [str_forallb escape_chars]. intros H. apply andb_true_iff in H as [Hc Hs].
  apply negb_true_iff in Hc. by rewrite Hc, IH.
Qed.

Lemma qs_stringify_no_hash ps : str_forallb (λ c, negb (existsb (Ascii.eqb c) ["#"%char])) (qs_stringify ps) = true.
Proof.
  assert (∀ s, str_forallb (λ c, negb (existsb (Ascii.eqb c) ["#"%char])) (qs_escape s) = true) as He.
  { intros s. induction s as [|c s IH]; [done|]. cbn [qs_escape]. rewrite str_forallb_app, IH.
    destruct c as [[] [] [] [] [] [] [] []]; reflexivity. }
  assert (∀ k v, str_forallb (λ c, negb (existsb (Ascii.eqb c) ["#"%char])) (qs_field k v) = true) as Hf.
  { intros k v. unfold qs_field. by rewrite !str_forallb_app, !He. }
  assert (Forall (λ s, str_forallb (λ c, negb (existsb (Ascii.eqb c) ["#"%char])) s = true) (ps ≫= qs_fields)) as Hl.
  { induction ps as [|[k v] ps IH]; [constructor|]. cbn. apply Forall_app. split; [|done].
    unfold qs_fields. cbn [fst snd]. destruct v as [| | | | | |[] es]; try (by repeat constructor).
    apply Forall_fmap, Forall_forall. intros e _. apply Hf. }
  unfold qs_stringify. induction Hl as [|s l Hs Hl IH]; [done|]. destruct l as [|s' l]; [done|].
  change (join "&" (s :: s' :: l)) with (s +:+ "&" +:+ join "&" (s' :: l)). by rewrite !str_forallb_app, Hs, IH.
Qed.

(** An option as the clients of the library write it. *)
Definition pub_option (to from msg ttl : value) : value :=
  VObj false ([("to", to); ("from", from); ("msg", msg)] ++ if truthy ttl then [("ttl", ttl)] else []).

Definition host_of (n : NodeInfo) : string :=
  if truthy (not_local n) then public_host n else local_host n.

Definition ttl_field (ttl : value) : list (string * string) :=
  if truthy ttl then [("ttl", qs_primitive ttl)] else [].

Definition pub_query (to : string) (from ttl : value) : string :=
  qs_stringify ([("to", VStr to); ("from", from)] ++ if truthy ttl then [("ttl", ttl)] else []).

Lemma pub_url_parts n to from ttl port :
  to_string (admin_port n) = Ret port → truthy (admin_port n) = true →
  host_of n ≠ "" → str_forallb (λ c, negb (Ascii.eqb c ":")) (host_of n) = true →
  pub_url n (VStr to) from ttl =
    Ret ("http://" +:+ host_of n +:+ ":" +:+ port +:+ "/pub?" +:+ pub_query to from ttl).
Proof.
  intros Ep Hport Hhost Hcolon.
  unfold pub_url, url_format. cbn [u_port u_hostname u_pathname u_search u_protocol]. rewrite Ep. cbn [mbind res_bind].
  fold (host_of n). fold (pub_query to from ttl). rewrite (proj2 (String.eqb_neq _ _) Hhost), Hport.
  assert (existsb (Ascii.eqb ":") (list_ascii_of_string (host_of n)) = false) as ->.
  { clear -Hcolon. induction (host_of n) as [|c s IH]; [done|]. cbn [str_forallb list_ascii_of_string existsb] in *.
    apply andb_true_iff in Hcolon as [Hc Hs]. rewrite IH by done. apply negb_true_iff in Hc.
    rewrite Ascii.eqb_sym, Hc. done. }
  assert (with_prefix "?" (pub_query to from ttl) = String "?" (pub_query to from ttl)) as ->.
  { unfold pub_query, qs_stringify. cbn. by destruct (_ ++ _). }
  rewrite (escape_chars_id ["#"%char] (String "?" _)) by exact (qs_stringify_no_hash _).
  f_equal. by rewrite !str_app_assoc.
Qed.

Lemma pub_query_parse to from ttl : primitive from = true → primitive ttl = true →
  qs_parse (pub_query to from ttl) = [("to", to); ("from", qs_primitive from)] ++ ttl_field ttl.
Proof.
  intros Hf Ht. unfold pub_query, ttl_field. destruct (truthy ttl); by rewrite qs_parse_stringify by by repeat constructor.
Qed.

(** C39. [pub] addresses the user's node and keeps its parameters apart: with
    strings as users and message, the request goes to the admin port of the
    node the user's shard names, at its public host exactly when the node is
    not local, its form is the message, and reading the query gives back the
    very users (and time to live), whatever characters they hold. *)
Theorem pub_request admin posts to from msg ttl n :
  to ≠ "" → from ≠ "" → msg ≠ "" → primitive ttl = true →
  sharding_shard admin (VStr to) = Ret n →
  host_of n ≠ "" → str_forallb (λ c, negb (Ascii.eqb c ":")) (host_of n) = true →
  truthy (admin_port n) = true → primitive (admin_port n) = true →
  ∃ port q, to_string (admin_port n) = Ret port ∧
    pub sharding_shard admin (pub_option (VStr to) (VStr from) (VStr msg) ttl) posts =
      (Ret tt, posts ++ [{| post_url := "http://" +:+ host_of n +:+ ":" +:+ port +:+ "/pub?" +:+ q; post_form := msg |}]) ∧
    qs_parse q = [("to", to); ("from", from)] ++ ttl_field ttl.
Proof.
  intros Hto Hfrom Hmsg Httl Hshard Hhost Hcolon Hport Hportp.
  assert (∃ port, to_string (admin_port n) = Ret port) as [port Ep].
  { destruct (admin_port n) as [| | | | | |]; try done; by eexists. }
  exists port, (pub_query to (VStr from) ttl). split; [done|]. split; [|by rewrite pub_query_parse].
  assert (∀ s, s ≠ "" → truthy (VStr s) = true) as Ht by (intros [|]; done).
  set (o := pub_option (VStr to) (VStr from) (VStr msg) ttl).
  assert (get o "to" = Ret (VStr to) ∧ get o "from" = Ret (VStr from) ∧ get o "msg" = Ret (VStr msg) ∧
    get o "ttl" = Ret (if truthy ttl then ttl else VUndef)) as (E1 & E2 & E3 & E4).
  { unfold o, pub_option. by destruct (truthy ttl). }
  assert (complete o = Ret true) as Ec.
  { unfold complete. change (truthy o) with true. cbv iota. rewrite E1. cbn [mbind res_bind]. rewrite Ht by done.
    rewrite E2. cbn [mbind res_bind]. rewrite Ht by done. rewrite E3. cbn [mbind res_bind]. by rewrite Ht. }
  unfold pub. cbv [mbind M_bind lift shard]. rewrite Ec, E1, E2, E3. cbn [message_text]. rewrite Hshard, E4.
  rewrite (pub_url_parts n to (VStr from) _ port) by done. cbv [modify].
  do 5 f_equal. unfold pub_query. by destruct (truthy ttl) eqn:E; rewrite ?E.
Qed.
End admin_facts.

(** A cluster in which every user is on the second node of the example. *)
Definition sample_shard (_ : unit) (_ : value) : res NodeInfo :=
  Ret (new_NodeInfo "192.168.2.3" "127.0.0.1" (VInt 9002) (VInt 9003) VUndef).

Lemma pub_request_witness :
  ∃ port q, to_string (VInt 9003) = Ret port ∧
    pub sample_shard tt (pub_option (VStr "u&from=x") (VStr "a b") (VStr "hi") (VInt 10)) [] =
      (Ret tt, [] ++ [{| post_url := "http://" +:+ "127.0.0.1" +:+ ":" +:+ port +:+ "/pub?" +:+ q; post_form := "hi" |}]) ∧
    qs_parse q = [("to", "u&from=x"); ("from", "a b")] ++ ttl_field (VInt 10).
Proof.
  apply (pub_request sample_shard tt [] "u&from=x" "a b" "hi" (VInt 10)
    (new_NodeInfo "192.168.2.3" "127.0.0.1" (VInt 9002) (VInt 9003) VUndef)); try discriminate; reflexivity.
Defined.

(** The callback hands the body of a refused request over as the error, so an
    empty body reads as a success with no result. *)
Theorem empty_refusal_reads_as_success status :
  status ≠ 200%Z → example_output (pub_callback (HttpReply status "")) = "pub result: undefined".
Proof. intros H. unfold pub_callback. by rewrite (proj2 (Z.eqb_neq _ _) H). Qed.
