(* ===== verification/WhiteBoard.v ===== *)
(** * The white board application (white_board/app.js, white_board/config.js)

    The routes, with the image upload, and the Flash policy server.  A file
    write is recorded with its path and bytes; express, the body parser and
    ejs are called, not modelled. *)

From Stdlib Require Import SpecFloat.
From S2P Require Import Prelude JSNum JSValue JSON NodeLib.

(** ** Base64, as [new Buffer(s, 'base64')] reads it *)

(** The value of a character of the alphabet (also the URL-safe one). *)
Definition sextet (c : ascii) : option N :=
  let n := N_of_ascii c in
  if ((65 <=? n) && (n <=? 90))%N then Some (n - 65)%N
  else if ((97 <=? n) && (n <=? 122))%N then Some (n - 71)%N
  else if ((48 <=? n) && (n <=? 57))%N then Some (n + 4)%N
  else if Ascii.eqb c "+" || Ascii.eqb c "-" then Some 62%N
  else if Ascii.eqb c "/" || Ascii.eqb c "_" then Some 63%N
  else None.

(** Characters outside the alphabet, the padding among them, are skipped. *)
Definition sextets (s : string) : list N := omap sextet (list_ascii_of_string s).

Fixpoint decode_sextets (l : list N) : list N :=
  match l with
  | a :: b :: c :: d :: l' =>
      ((4 * a + b / 16) :: (16 * (b mod 16) + c / 4) :: (64 * (c mod 4) + d) :: decode_sextets l')%N
  | [a; b; c] => [4 * a + b / 16; 16 * (b mod 16) + c / 4]%N
  | [a; b] => [4 * a + b / 16]%N
  | _ => []
  end.

Definition base64_decode (s : string) : list N := decode_sextets (sextets s).

(** ** Routes *)

Record push_server := { host : string; port : Z }.
Definition default_push_server : push_server := {| host := "192.168.2.3"; port := 9000 |}.

Inductive page :=
| LoginPage
| RoomPage (server : push_server) (uid cid : value) (is_teacher : bool).

Definition get_root : page := LoginPage.

Definition get_login (query : string → value) : res page :=
  is_teacher ← loose_eq (query "user_type") (VInt 1);
  Ret (RoomPage default_push_server (query "uid") (query "cid") is_teacher).

(** [s.substring(n)] *)
Fixpoint substring_from (n : nat) (s : string) : string :=
  match n, s with
  | S n', String _ s' => substring_from n' s'
  | _, _ => s
  end.

Definition data_prefix : string := "data:image/png;base64,".

Record file_write := { w_path : string; w_data : list N }.

Inductive upload_reply :=
| UploadError (err : string)
| UploadDone (image_uri : string).

(** The handler up to the write: the write it starts. *)
Definition upload_write (body : string → value) : res file_write :=
  match body "name" with
  | VStr name =>
      let full_path := path_join ["upload"; name] in
      match body "image_data" with
      | VStr image_base64 =>
          let data_offset := String.length data_prefix in
          Ret {| w_path := full_path; w_data := base64_decode (substring_from data_offset image_base64) |}
      | _ => Throw TypeError
      end
  | _ => Throw TypeError
  end.

(** The reply once the write is done. *)
Definition upload_reply_of (name : string) (err : option string) : upload_reply :=
  match err with
  | Some e => UploadError e
  | None => UploadDone ("/" +:+ name)
  end.

(** ** The policy server *)

Definition q : string := String dquote "".

Definition policy_file : string :=
  "<?xml version=" +:+ q +:+ "1.0" +:+ q +:+ " encoding=" +:+ q +:+ "UTF-8" +:+ q +:+ "?>" +:+
  "<cross-domain-policy>" +:+
  "<site-control permitted-cross-domain-policies=" +:+ q +:+ "all" +:+ q +:+ " />" +:+
  "<allow-access-from domain=" +:+ q +:+ "*" +:+ q +:+ " to-ports=" +:+ q +:+ "*" +:+ q +:+
  " secure=" +:+ q +:+ "false" +:+ q +:+ " />" +:+
  "</cross-domain-policy>".

Inductive policy_effect :=
| Warn (msg : string)
| End (text : string).

(** The handler of a chunk of data, decoded as UTF-8. *)
Definition on_data (utf8_str : string) : list policy_effect :=
  if occurs "<policy-file-request/>" utf8_str then [End policy_file]
  else [Warn ("unkonwn request: " +:+ utf8_str); End "unknow request"].

(** ** Start-up *)

Inductive listen := ListenApp (port : Z) | ListenPolicy (port : Z).

Definition start_up (has_parent : bool) : list listen :=
  if has_parent then [] else [ListenApp 3100; ListenPolicy 843].

(** ** Base64 round trip *)

(** The standard encoding, with padding. *)
Definition base64_char (n : N) : ascii :=
  if (n <? 26)%N then ascii_of_N (65 + n)
  else if (n <? 52)%N then ascii_of_N (71 + n)
  else if (n <? 62)%N then ascii_of_N (n - 4)
  else if (n =? 62)%N then "+" else "/".

Fixpoint base64_encode (bytes : list N) : string :=
  match bytes with
  | a :: b :: c :: l =>
      String (base64_char (a / 4)) (String (base64_char (16 * (a mod 4) + b / 16))
        (String (base64_char (4 * (b mod 16) + c / 64)) (String (base64_char (c mod 64)) (base64_encode l))))
  | [a; b] =>
      String (base64_char (a / 4)) (String (base64_char (16 * (a mod 4) + b / 16))
        (String (base64_char (4 * (b mod 16))) "="))
  | [a] => String (base64_char (a / 4)) (String (base64_char (16 * (a mod 4))) "==")
  | [] => ""
  end.

Lemma sextet_char n : (n < 64)%N → sextet (base64_char n) = Some n.
Proof.
  intros Hn. pose proof (N2Nat.id n) as E. revert E. generalize (N.to_nat n). intros k <-.
  assert (k < 64)%nat as Hk by lia. clear Hn.
  do 64 (destruct k as [|k]; [reflexivity|]). lia.
Qed.

Lemma sextets_char n s : (n < 64)%N → sextets (String (base64_char n) s) = n :: sextets s.
Proof. intros H. unfold sextets. cbn [list_ascii_of_string omap list_omap]. by rewrite sextet_char. Qed.

Ltac ndivlia := zify; Z.to_euclidean_division_equations; lia.

(** Induction by groups of three bytes. *)
Lemma triples_ind (P : list N → Prop) :
  P [] → (∀ a, P [a]) → (∀ a b, P [a; b]) → (∀ a b c l, P l → P (a :: b :: c :: l)) → ∀ l, P l.
Proof.
  intros H0 H1 H2 H3. fix IH 1. intros [|a [|b [|c l]]]; [done|apply H1|apply H2|apply H3, IH].
Qed.

Lemma base64_roundtrip bytes : Forall (λ n, (n < 256)%N) bytes → base64_decode (base64_encode bytes) = bytes.
Proof.
  unfold base64_decode. induction bytes as [|a|a b|a b c l IH] using triples_ind; intros H;
    repeat match goal with H : Forall _ (_ :: _) |- _ => apply Forall_cons in H as [? ?] end.
  - reflexivity.
  - cbn [base64_encode]. rewrite !sextets_char by ndivlia. cbn. f_equal. ndivlia.
  - cbn [base64_encode]. rewrite !sextets_char by ndivlia. cbn. f_equal; [ndivlia|f_equal; ndivlia].
  - cbn [base64_encode]. rewrite !sextets_char by ndivlia. cbn [decode_sextets].
    rewrite IH by done. f_equal; [ndivlia|]. f_equal; [ndivlia|f_equal; ndivlia].
Qed.

(** ** Guarantees *)

Lemma path_join_upload name : plain_segment name = true → path_join ["upload"; name] = "upload/" +:+ name.
Proof.
  intros Hn. pose proof Hn as Hp. unfold plain_segment in Hp. bool_prop. unfold path_join.
  rewrite !filter_cons_True by done. rewrite filter_nil. cbn [join].
  unfold normalize. change (String.eqb ("upload" +:+ "/" +:+ name) "") with false. cbv iota.
  change (is_absolute ("upload" +:+ "/" +:+ name)) with false.
  change ("upload" +:+ "/" +:+ name) with ("upload" +:+ String slash name).
  rewrite split_char_plain_end by done.
  assert ((match last_char ("upload" +:+ String slash name) with
           | Some c0 => Ascii.eqb c0 slash | None => false end) = false) as ->.
  { change ("upload" +:+ String slash name) with ("upload/" +:+ name). rewrite last_char_app by done.
    by apply last_char_plain. }
  unfold resolve_segments. rewrite foldl_app. cbn [foldl]. rewrite push_plain by done. reflexivity.
Qed.

Lemma substring_from_app p s : substring_from (String.length p) (p +:+ s) = s.
Proof. induction p as [|c p IH]; [by destruct s|done]. Qed.

(** C40. An upload stores the image: for a name that is a plain file name and
    the data URL of any bytes, exactly those bytes are written to that file of
    the upload directory, and the reply is the address of the file below the
    served directory. *)
Theorem upload_stores_image body name bytes :
  plain_segment name = true → Forall (λ n, (n < 256)%N) bytes →
  body "name" = VStr name → body "image_data" = VStr (data_prefix +:+ base64_encode bytes) →
  upload_write body = Ret {| w_path := "upload/" +:+ name; w_data := bytes |} ∧
  upload_reply_of name None = UploadDone ("/" +:+ name).
Proof.
  intros Hn Hb Ename Edata. split; [|done]. unfold upload_write. rewrite Ename, Edata.
  by rewrite path_join_upload, substring_from_app, base64_roundtrip.
Qed.

Lemma upload_stores_image_witness :
  let body := λ k, if String.eqb k "name" then VStr "a.png" else VStr (data_prefix +:+ base64_encode [137; 80; 78; 71]%N) in
  upload_write body = Ret {| w_path := "upload/" +:+ "a.png"; w_data := [137; 80; 78; 71]%N |} ∧
  upload_reply_of "a.png" None = UploadDone ("/" +:+ "a.png").
Proof.
  apply upload_stores_image; [reflexivity|repeat constructor|reflexivity|reflexivity].
Defined.

(** The name is not confined to the upload directory: for every file name
    the name [../file] writes the uploaded bytes to that file of the
    application's own directory. *)
Theorem upload_escapes body name bytes :
  plain_segment name = true → Forall (λ n, (n < 256)%N) bytes →
  body "name" = VStr ("../" +:+ name) → body "image_data" = VStr (data_prefix +:+ base64_encode bytes) →
  upload_write body = Ret {| w_path := name; w_data := bytes |}.
Proof.
  intros Hn Hb Ename Edata. unfold upload_write. rewrite Ename, Edata.
  rewrite substring_from_app, base64_roundtrip by done. f_equal. f_equal.
  pose proof Hn as Hp. unfold plain_segment in Hp. bool_prop. unfold path_join.
  rewrite !filter_cons_True by done. rewrite filter_nil. cbn [join].
  unfold normalize. change (String.eqb ("upload" +:+ "/" +:+ ("../" +:+ name)) "") with false. cbv iota.
  change (is_absolute ("upload" +:+ "/" +:+ ("../" +:+ name))) with false.
  change ("upload" +:+ "/" +:+ ("../" +:+ name)) with ("upload/.." +:+ String slash name).
  rewrite split_char_plain_end by done.
  assert ((match last_char ("upload/.." +:+ String slash name) with
           | Some c0 => Ascii.eqb c0 slash | None => false end) = false) as ->.
  { change ("upload/.." +:+ String slash name) with ("upload/../" +:+ name). rewrite last_char_app by done.
    by apply last_char_plain. }
  unfold resolve_segments. rewrite foldl_app. cbn [foldl]. rewrite push_plain by done.
  change (reverse (name :: foldl (push_segment (negb false)) [] (split_char slash "upload/.."))) with [name].
  cbn [join]. rewrite (proj2 (String.eqb_neq name "")) by done. by rewrite andb_false_r.
Qed.

Lemma upload_escapes_witness :
  let body := λ k, if String.eqb k "name" then VStr "../app.js" else VStr (data_prefix +:+ base64_encode [47; 47]%N) in
  upload_write body = Ret {| w_path := "app.js"; w_data := [47; 47]%N |}.
Proof. apply (upload_escapes _ "app.js"); [reflexivity|repeat constructor|reflexivity|reflexivity]. Defined.

(** The policy server answers a chunk with the policy exactly when the
    chunk holds the whole policy request; so a request that arrives in two
    chunks is refused. *)
Theorem policy_served_iff s : on_data s = [End policy_file] ↔ ∃ pre post, s = pre +:+ "<policy-file-request/>" +:+ post.
Proof.
  unfold on_data. rewrite <-occurs_spec. destruct (occurs "<policy-file-request/>" s); [done|].
  split; [|done]. intros H. discriminate H.
Qed.
