(* ===== verification/JSocket.v ===== *)
(** * The Flash socket of the white board (jsocket.js, jsocket.advanced.js, jquery.socket.js)

    The static part of [jSocket] (the table of sockets, the counter of ids),
    the sockets themselves, and the queue of [setTimeout(f, 0)].  The Flash
    movie is outside: its methods are recorded as effects, what they return is
    a parameter, and whether the movie can be found and used is the outcome of
    a probe given with each attempt.  A user callback is recorded; each is the
    last action of its handler, so what it does comes after the recorded state. *)

From Stdlib Require Import SpecFloat.
From S2P Require Import Prelude JSNum JSValue JSON.

(** ** State *)

Record jsocket := {
  js_id : string;
  js_target : option string;      (* undefined until [setup] *)
  js_movie : option nat;          (* undefined until the movie is ready *)
  js_connected : bool;
  has_onReady : bool;             (* whether the property is a function *)
  has_onConnect : bool;
  has_onData : bool;
  has_onClose : bool
}.

Inductive user_callback :=
| OnReady
| OnConnect (result : bool) (data : value)
| OnData (data : value)
| OnClose.

Inductive js_effect :=
| EmbedSWF (url target width height version express : string)
| MovieCall (movie : nat) (method : string) (args : list value)
| Callback (id : string) (c : user_callback).

(** Functions waiting in the queue of timers with delay 0. *)
Inductive task :=
| ExecuteCallback (name id : string) (data : value)
| InitPoll (id : string).

Record jsworld := {
  js_swf : string;
  last_id : N;
  sockets : list (string * jsocket);
  timeouts : list task;
  js_effects : list js_effect
}.

(** After jsocket.advanced.js, which replaces the default movie. *)
Definition js_initial : jsworld :=
  {| js_swf := "jsocket.advanced.swf"; last_id := 0; sockets := []; timeouts := []; js_effects := [] |}.

Definition with_sockets (f : list (string * jsocket) → list (string * jsocket)) (w : jsworld) : jsworld :=
  {| js_swf := js_swf w; last_id := last_id w; sockets := f (sockets w); timeouts := timeouts w;
     js_effects := js_effects w |}.
Definition with_timeouts (l : list task) (w : jsworld) : jsworld :=
  {| js_swf := js_swf w; last_id := last_id w; sockets := sockets w; timeouts := l; js_effects := js_effects w |}.
Definition emit (e : js_effect) : M jsworld unit := modify (λ w,
  {| js_swf := js_swf w; last_id := last_id w; sockets := sockets w; timeouts := timeouts w;
     js_effects := js_effects w ++ [e] |}).

Definition set_timeout (t : task) : M jsworld unit := modify (λ w, with_timeouts (timeouts w ++ [t]) w).

(** [jSocket.sockets[id]]; using an undefined socket is a TypeError. *)
Definition socket_at (id : string) : M jsworld jsocket := λ w,
  match assoc id (sockets w) with Some s => (Ret s, w) | None => (Throw TypeError, w) end.

Definition update_socket (id : string) (f : jsocket → jsocket) : M jsworld unit :=
  modify (with_sockets (λ l, match assoc id l with Some s => assoc_update id (f s) l | None => l end)).

Definition with_target (t : string) (s : jsocket) : jsocket :=
  {| js_id := js_id s; js_target := Some t; js_movie := js_movie s; js_connected := js_connected s;
     has_onReady := has_onReady s; has_onConnect := has_onConnect s; has_onData := has_onData s; has_onClose := has_onClose s |}.
Definition with_movie (m : nat) (s : jsocket) : jsocket :=
  {| js_id := js_id s; js_target := js_target s; js_movie := Some m; js_connected := js_connected s;
     has_onReady := has_onReady s; has_onConnect := has_onConnect s; has_onData := has_onData s; has_onClose := has_onClose s |}.
Definition with_connected (b : bool) (s : jsocket) : jsocket :=
  {| js_id := js_id s; js_target := js_target s; js_movie := js_movie s; js_connected := b;
     has_onReady := has_onReady s; has_onConnect := has_onConnect s; has_onData := has_onData s; has_onClose := has_onClose s |}.

(** ** jsocket.js *)

Definition socket_id (n : N) : string := "jSocket_" +:+ dec_of_N n.

(** [new jSocket(onReady, onConnect, onData, onClose)]; the arguments say which are functions. *)
Definition new_jSocket (r c d cl : bool) : M jsworld string := λ w,
  let n := (last_id w + 1)%N in
  let id := socket_id n in
  let s := {| js_id := id; js_target := None; js_movie := None; js_connected := false;
              has_onReady := r; has_onConnect := c; has_onData := d; has_onClose := cl |} in
  (Ret id, {| js_swf := js_swf w; last_id := n; sockets := prop_put id s (sockets w);
              timeouts := timeouts w; js_effects := js_effects w |}).

Definition setup (has_swfobject : bool) (id target : string) (swflocation : value) : M jsworld unit :=
  if negb has_swfobject
  then raise (Raised "SWFObject not found! Please download from http://code.google.com/p/swfobject/")
  else
    s ← socket_at id;
    match js_target s with
    | Some _ => raise (Raised "Can only call setup on a jSocket Object once.")
    | None =>
        update_socket id (with_target target);;
        swf ← gets js_swf;
        loc ← lift (to_string (if truthy swflocation then swflocation else VStr swf));
        emit (EmbedSWF (loc +:+ "?" +:+ id) target "0" "0" "9.0.0" "expressInstall.swf")
    end.

Definition connect (id : string) (host port : value) : M jsworld unit :=
  s ← socket_at id;
  match js_movie s with
  | None => raise (Raised "jSocket isn't ready yet, use the onReady event")
  | Some m =>
      (if js_connected s then emit (MovieCall m "close" []) else mret tt);;
      emit (MovieCall m "connect" [host; port])
  end.

Definition close (id : string) : M jsworld unit :=
  update_socket id (with_connected false);;
  s ← socket_at id;
  match js_movie s with
  | Some m => emit (MovieCall m "close" [])
  | None => mret tt
  end.

(** [assertConnected()], returning the movie it makes sure of. *)
Definition assertConnected (id : string) : M jsworld nat :=
  s ← socket_at id;
  match js_connected s, js_movie s with
  | true, Some m => mret m
  | _, _ => raise (Raised "jSocket is not connected, use the onConnect event ")
  end.

Definition write (id : string) (data : value) : M jsworld unit :=
  m ← assertConnected id;
  emit (MovieCall m "write" [data]).

Definition flashCallback (name id : string) (data : value) : M jsworld unit :=
  set_timeout (ExecuteCallback name id data).

Definition call_user (id : string) (is_function : bool) (c : user_callback) : M jsworld unit :=
  if is_function then emit (Callback id c) else mret tt.

Definition executeFlashCallback (name id : string) (data : value) : M jsworld unit :=
  if String.eqb name "init" then set_timeout (InitPoll id)
  else if String.eqb name "data" then
    s ← socket_at id; call_user id (has_onData s) (OnData data)
  else if String.eqb name "connect" then
    s ← socket_at id;
    update_socket id (with_connected true);;
    call_user id (has_onConnect s) (OnConnect true VUndef)
  else if String.eqb name "error" then
    s ← socket_at id; call_user id (has_onConnect s) (OnConnect false data)
  else if String.eqb name "close" then
    s ← socket_at id;
    update_socket id (with_connected false);;
    call_user id (has_onClose s) OnClose
  else raise (Raised ("jSocket: unknown callback '" +:+ name +:+ "' used")).

(** The function of the 'init' case.  [probe] is the movie, when it is found
    in the document and a variable set in it can be read back; otherwise
    (also when there is no such socket) the attempt is repeated. *)
Definition init_poll (id : string) (probe : option nat) : M jsworld unit := λ w,
  match assoc id (sockets w), probe with
  | Some s, Some m =>
      (update_socket id (with_movie m);; call_user id (has_onReady s) OnReady) w
  | _, _ => set_timeout (InitPoll id) w
  end.

(** The next timer runs; an exception it throws ends only that function. *)
Definition run_timeout (probe : option nat) (w : jsworld) : jsworld :=
  match timeouts w with
  | [] => w
  | t :: ts =>
      (match t with
       | ExecuteCallback name id data => executeFlashCallback name id data
       | InitPoll id => init_poll id probe
       end (with_timeouts ts w)).2
  end.

(** ** jsocket.advanced.js

    Every operation checks the connection and calls the method of the movie
    that has its name. *)

Section advanced.
Context (movie_result : nat → string → list value → value).

Definition movie_void (method id : string) (args : list value) : M jsworld unit :=
  m ← assertConnected id;
  emit (MovieCall m method args).

Definition movie_return (method id : string) (args : list value) : M jsworld value :=
  m ← assertConnected id;
  emit (MovieCall m method args);;
  mret (movie_result m method args).

Definition flush (id : string) := movie_return "flush" id [].
Definition writeArray (id : string) (data : value) := movie_void "writeArray" id [data].
Definition writeBoolean (id : string) (data : value) := movie_void "writeBoolean" id [data].
Definition readBoolean (id : string) := movie_return "readBoolean" id [].
Definition writeByte (id : string) (data : value) := movie_void "writeByte" id [data].
Definition readByte (id : string) := movie_return "readByte" id [].
Definition writeBytes (id : string) (bytes offset length : value) := movie_void "writeBytes" id [bytes; offset; length].
Definition readBytes (id : string) (offset length : value) := movie_return "readBytes" id [offset; length].
Definition writeShort (id : string) (data : value) := movie_void "writeShort" id [data].
Definition readShort (id : string) := movie_return "readShort" id [].
Definition writeInt (id : string) (data : value) := movie_void "writeInt" id [data].
Definition readInt (id : string) := movie_return "readInt" id [].
Definition writeUnsignedInt (id : string) (data : value) := movie_void "writeUnsignedInt" id [data].
Definition readUnsignedInt (id : string) := movie_return "readUnsignedInt" id [].
Definition writeFloat (id : string) (data : value) := movie_void "writeFloat" id [data].
Definition readFloat (id : string) := movie_return "readFloat" id [].
Definition writeDouble (id : string) (data : value) := movie_void "writeDouble" id [data].
Definition readDouble (id : string) := movie_return "readDouble" id [].
Definition writeMultiByte (id : string) (data charSet : value) := movie_void "writeMultiByte" id [data; charSet].
Definition readMultiByte (id : string) (length charSet : value) := movie_return "readMultiByte" id [length; charSet].
Definition writeUTFBytes (id : string) (data : value) := movie_void "writeUTFBytes" id [data].
Definition readUTFBytes (id : string) (length : value) := movie_return "readUTFBytes" id [length].
Definition writeUTF (id : string) (data : value) := movie_void "writeUTF" id [data].
Definition readUTF (id : string) := movie_return "readUTF" id [].
Definition writeObject (id : string) (data : value) := movie_void "writeObject" id [data].
Definition readObject (id : string) := movie_return "readObject" id [].
Definition setObjectEncoding (id : string) (value : value) := movie_void "setObjectEncoding" id [value].
Definition getObjectEncoding (id : string) := movie_return "getObjectEncoding" id [].
Definition setEndian (id : string) (value : value) := movie_void "setEndian" id [value].
Definition getEndian (id : string) := movie_return "getEndian" id [].
Definition getBytesAvailable (id : string) := movie_return "getBytesAvailable" id [].
End advanced.

(** ** jquery.socket.js *)

(** The options after [$.extend(true, {}, defaults, options)]: which handlers
    are functions, and the movie's location. *)
Record socket_options := {
  o_onReady : bool; o_onConnect : bool; o_onData : bool; o_onClose : bool; o_swf : value
}.

(** [options] with the defaults: a handler that is not given is [false], and
    no location is [null]. *)
Definition extend_options (r c d cl : option bool) (swf : option value) : socket_options :=
  {| o_onReady := default false r; o_onConnect := default false c; o_onData := default false d;
     o_onClose := default false cl; o_swf := default VNull swf |}.

(** The plugin's own table of sockets by element id, and the element's id. *)
Record plugin := { p_sockets : list (string * string); p_attr_id : option string; p_world : jsworld }.

(** [$(node).socket(options)] on a set of [len] elements; the result is the
    socket's id, or [None] for [undefined]. *)
Definition fn_socket (has_swfobject : bool) (len : nat) (o : socket_options) : M plugin (option string) := λ p,
  if negb (len =? 1)%nat then (Ret None, p)
  else
    match assoc (default "undefined" (p_attr_id p)) (p_sockets p) with
    | Some sock => (Ret (Some sock), p)
    | None =>
        let '(r, w) := new_jSocket (o_onReady o) (o_onConnect o) (o_onData o) (o_onClose o) (p_world p) in
        match r with
        | Throw e => (Throw e, {| p_sockets := p_sockets p; p_attr_id := p_attr_id p; p_world := w |})
        | Ret sid =>
            let attr := match p_attr_id p with Some i => if String.eqb i "" then sid else i | None => sid end in
            match setup has_swfobject sid attr (o_swf o) w with
            | (Ret _, w') => (Ret (Some sid), {| p_sockets := prop_put attr sid (p_sockets p); p_attr_id := Some attr; p_world := w' |})
            | (Throw e, w') => (Throw e, {| p_sockets := p_sockets p; p_attr_id := Some attr; p_world := w' |})
            end
        end
    end.
