(* ===== verification/JSocketFacts.v ===== *)
(** * The Flash socket: identity, guards and order of callbacks *)

From Stdlib Require Import SpecFloat.
From S2P Require Import Prelude JSNum JSValue JSON JSocket.

(** ** Identity *)

(** The table of sockets: every key is the id of its socket, and was given out. *)
Record js_wf (w : jsworld) : Prop := {
  wf_keys : NoDup (sockets w).*1;
  wf_ids : ∀ k s, assoc k (sockets w) = Some s → js_id s = k ∧ ∃ n, (0 < n ≤ last_id w)%N ∧ k = socket_id n
}.

#[export] Instance socket_id_inj : Inj (=) (=) socket_id.
Proof. intros n m H. unfold socket_id in H. simplify_eq/=. by apply dec_of_N_inj. Qed.

(** The operations of the program, as the page and the movie call them. *)
Inductive js_event :=
| New (r c d cl : bool)
| Setup (has_swfobject : bool) (id target : string) (swf : value)
| Connect (id : string) (host port : value)
| Close (id : string)
| Write (id : string) (data : value)
| Advanced (method id : string) (args : list value)
| Flash (name id : string) (data : value)
| Timer (probe : option nat).

Definition js_step (w : jsworld) (e : js_event) : jsworld :=
  match e with
  | New r c d cl => (new_jSocket r c d cl w).2
  | Setup h id t swf => (setup h id t swf w).2
  | Connect id h p => (connect id h p w).2
  | Close id => (close id w).2
  | Write id d => (write id d w).2
  | Advanced m id args => (movie_void m id args w).2
  | Flash name id d => (flashCallback name id d w).2
  | Timer probe => run_timeout probe w
  end.

Definition js_run (w : jsworld) (es : list js_event) : jsworld := foldl js_step w es.

(** An operation that keeps the ids of the sockets. *)
Definition keeps_ids {A} (m : M jsworld A) : Prop := ∀ w,
  last_id (m w).2 = last_id w ∧ (sockets (m w).2).*1 = (sockets w).*1 ∧
  ∀ k s', assoc k (sockets (m w).2) = Some s' → ∃ s, assoc k (sockets w) = Some s ∧ js_id s = js_id s'.

Lemma keeps_bind {A B} (m : M jsworld A) (f : A → M jsworld B) :
  keeps_ids m → (∀ a, keeps_ids (f a)) → keeps_ids (m ≫= f).
Proof.
  intros Hm Hf w. specialize (Hm w) as (L & K & H). unfold mbind, M_bind.
  destruct (m w) as [[a|e] w'] eqn:E; cbn [snd] in *; [|done].
  destruct (Hf a w') as (L' & K' & H'). split_and!; [congruence|congruence|]. intros k s' Hs'.
  destruct (H' k s' Hs') as (s & Hs & ?). destruct (H k s Hs) as (s0 & ? & ?). exists s0. split; [done|congruence].
Qed.

Lemma keeps_pure {A} (m : M jsworld A) : (∀ w, sockets (m w).2 = sockets w ∧ last_id (m w).2 = last_id w) → keeps_ids m.
Proof. intros H w. destruct (H w) as [-> ->]. split_and!; [done|done|]. intros k s Hs. by exists s. Qed.

Lemma keeps_update id f : (∀ s, js_id (f s) = js_id s) → keeps_ids (update_socket id f).
Proof.
  intros Hf w. cbn [update_socket modify snd with_sockets sockets last_id]. split; [done|].
  destruct (assoc id (sockets w)) as [s0|] eqn:E; [|split; [done|]; intros k s Hs; by exists s].
  split; [by rewrite assoc_update_keys|]. intros k s' Hs'. destruct (decide (k = id)) as [->|Hne].
  - rewrite assoc_update_eq, E in Hs'. simplify_eq. exists s0. split; [done|]. by rewrite Hf.
  - rewrite assoc_update_ne in Hs' by done. by exists s'.
Qed.

Create HintDb jsocket.
#[export] Hint Resolve keeps_bind keeps_update : jsocket.

Lemma keeps_socket_at id : keeps_ids (socket_at id).
Proof. apply keeps_pure. intros w. unfold socket_at. by destruct (assoc id (sockets w)). Qed.
Lemma keeps_emit e : keeps_ids (emit e).
Proof. by apply keeps_pure. Qed.
Lemma keeps_timeout t : keeps_ids (set_timeout t).
Proof. by apply keeps_pure. Qed.
Lemma keeps_raise {A} e : keeps_ids (raise (A := A) e).
Proof. by apply keeps_pure. Qed.
Lemma keeps_ret {A} (a : A) : keeps_ids (mret a).
Proof. by apply keeps_pure. Qed.
Lemma keeps_lift {A} (r : res A) : keeps_ids (lift r).
Proof. by apply keeps_pure. Qed.
Lemma keeps_gets {A} (f : jsworld → A) : keeps_ids (gets f).
Proof. by apply keeps_pure. Qed.
#[export] Hint Resolve keeps_socket_at keeps_emit keeps_timeout keeps_raise keeps_ret keeps_lift keeps_gets : jsocket.

(** Decides [keeps_ids] by following the program. *)
Ltac keeps :=
  repeat match goal with
  | |- keeps_ids (_ ≫= _) => apply keeps_bind; [|intros ?]
  | |- keeps_ids (if ?b then _ else _) => destruct b
  | |- keeps_ids (match ?x with _ => _ end) => destruct x
  | |- keeps_ids (update_socket _ _) => by apply keeps_update
  | |- keeps_ids _ => solve [eauto with jsocket]
  end.

Lemma keeps_assert id : keeps_ids (assertConnected id).
Proof. unfold assertConnected. keeps. Qed.
#[export] Hint Resolve keeps_assert : jsocket.

Lemma keeps_execute name id data : keeps_ids (executeFlashCallback name id data).
Proof. unfold executeFlashCallback, call_user. keeps. Qed.

Lemma keeps_poll id probe : keeps_ids (init_poll id probe).
Proof.
  intros w. unfold init_poll. destruct (assoc id (sockets w)) as [s|]; [|by apply keeps_timeout].
  destruct probe as [m|]; [|by apply keeps_timeout].
  assert (keeps_ids (update_socket id (with_movie m);; call_user id (has_onReady s) OnReady)) as H
    by (unfold call_user; keeps). apply H.
Qed.

Lemma keeps_wf {A} (m : M jsworld A) w : keeps_ids m → js_wf w → js_wf (m w).2.
Proof.
  intros Hm [Hn Hi]. destruct (Hm w) as (L & K & H). constructor; [by rewrite K|]. rewrite L.
  intros k s' Hs'. destruct (H k s' Hs') as (s & Hs & Hid). destruct (Hi k s Hs) as [He Hn']. split; [congruence|done].
Qed.

Lemma new_wf r c d cl w : js_wf w →
  js_wf (new_jSocket r c d cl w).2 ∧ assoc (socket_id (last_id w + 1)) (sockets w) = None.
Proof.
  intros [Hn Hi]. assert (assoc (socket_id (last_id w + 1)) (sockets w) = None) as Hnew.
  { destruct (assoc _ (sockets w)) as [s|] eqn:E; [|done]. destruct (Hi _ _ E) as (_ & n & Hle & Heq).
    apply socket_id_inj in Heq. lia. }
  split; [|done]. constructor; cbn [new_jSocket snd sockets last_id]; [by apply prop_put_NoDup|].
  intros k s. rewrite assoc_prop_put. destruct (String.eqb_spec k (socket_id (last_id w + 1))) as [->|Hne].
  - intros [= <-]. split; [done|]. exists (last_id w + 1)%N. split; [lia|done].
  - intros Hs. destruct (Hi k s Hs) as [He (n & Hle & Hk)]. split; [done|]. exists n. split; [lia|done].
Qed.

Lemma js_step_wf w e : js_wf w → js_wf (js_step w e).
Proof.
  intros Hw. destruct e as [r c d cl|h id t swf|id h p|id|id d|m id args|name id d|probe]; cbn [js_step].
  - by apply new_wf.
  - apply keeps_wf; [|done]. unfold setup. keeps.
  - apply keeps_wf; [|done]. unfold connect. keeps.
  - apply keeps_wf; [|done]. unfold close. keeps.
  - apply keeps_wf; [|done]. unfold write. keeps.
  - apply keeps_wf; [|done]. unfold movie_void. keeps.
  - apply keeps_wf; [|done]. unfold flashCallback. keeps.
  - unfold run_timeout. destruct (timeouts w) as [|t ts]; [done|].
    assert (js_wf (with_timeouts ts w)) as Hw' by (by destruct Hw).
    destruct t; (apply keeps_wf; [|done]); [apply keeps_execute|apply keeps_poll].
Qed.

Lemma js_run_wf es : ∀ w, js_wf w → js_wf (js_run w es).
Proof. unfold js_run. induction es as [|e es IH]; intros w Hw; [done|]. by apply IH, js_step_wf. Qed.

(** Every socket has an id of its own: after any sequence of operations,
    callbacks and timers, a new [jSocket] gets an id that no socket has, is
    found under it, unconnected, and all other sockets stay as they are. *)
Theorem new_socket_fresh es r c d cl :
  let w := js_run js_initial es in
  let '(id, w') := new_jSocket r c d cl w in
  ∃ sid, id = Ret sid ∧ assoc sid (sockets w) = None ∧
    (∃ s, assoc sid (sockets w') = Some s ∧ js_id s = sid ∧ js_connected s = false ∧ js_movie s = None) ∧
    ∀ k, k ≠ sid → assoc k (sockets w') = assoc k (sockets w).
Proof.
  cbn zeta. set (w := js_run js_initial es).
  assert (js_wf w) as Hw by (apply js_run_wf; constructor; [by constructor|done]).
  destruct (new_wf r c d cl w Hw) as [_ Hnew]. destruct (new_jSocket r c d cl w) as [id w'] eqn:E.
  unfold new_jSocket in E. injection E as <- <-. exists (socket_id (last_id w + 1)).
  split_and!; [done|done| |].
  - cbn [sockets]. rewrite assoc_prop_put, String.eqb_refl. by eexists.
  - intros k Hk. cbn [sockets]. rewrite assoc_prop_put. by rewrite (proj2 (String.eqb_neq _ _)).
Qed.

(** ** Guards *)

(** A usable socket: connected, with its movie. *)
Definition usable (w : jsworld) (id : string) (m : nat) : Prop :=
  ∃ s, assoc id (sockets w) = Some s ∧ js_connected s = true ∧ js_movie s = Some m.

(** [m] uses the movie only through one call of [method], and only when the
    socket is usable; otherwise it throws and does nothing. *)
Definition guarded {A} (id method : string) (args : list value) (m : M jsworld A) : Prop := ∀ w,
  (∀ mv, usable w id mv → ∃ a, m w = (Ret a, (emit (MovieCall mv method args) w).2)) ∧
  ((∀ mv, ¬ usable w id mv) → ∃ e, m w = (Throw e, w)).

Lemma assert_usable id w : (∀ mv, usable w id mv → assertConnected id w = (Ret mv, w)) ∧
  ((∀ mv, ¬ usable w id mv) → ∃ e, assertConnected id w = (Throw e, w)).
Proof.
  unfold assertConnected, usable. cbv [mbind M_bind socket_at]. split.
  - intros mv (s & E & Hc & Hm). by rewrite E, Hc, Hm.
  - intros H. destruct (assoc id (sockets w)) as [s|] eqn:E; [|by eexists].
    destruct (js_connected s) eqn:Hc; [|by eexists]. destruct (js_movie s) as [mv|] eqn:Hm; [|by eexists].
    exfalso. apply (H mv). by exists s.
Qed.

Lemma guarded_void method id args : guarded id method args (movie_void method id args).
Proof.
  intros w. destruct (assert_usable id w) as [H1 H2]. unfold movie_void. cbv [mbind M_bind]. split.
  - intros mv Hu. rewrite (H1 mv Hu). by eexists.
  - intros Hu. destruct (H2 Hu) as [e ->]. by eexists.
Qed.

Lemma guarded_return res method id args : guarded id method args (movie_return res method id args).
Proof.
  intros w. destruct (assert_usable id w) as [H1 H2]. unfold movie_return. cbv [mbind M_bind]. split.
  - intros mv Hu. rewrite (H1 mv Hu). by eexists.
  - intros Hu. destruct (H2 Hu) as [e ->]. by eexists.
Qed.

(** Nothing is written to or read from an unconnected socket: the write of
    jsocket.js and every operation of jsocket.advanced.js calls exactly the
    movie's method of its name with its arguments when the socket is
    connected, and otherwise throws without any effect. *)
Theorem operations_guarded res id a b c :
  guarded id "write" [a] (write id a) ∧
  guarded id "flush" [] (flush res id) ∧
  guarded id "writeArray" [a] (writeArray id a) ∧
  guarded id "writeBoolean" [a] (writeBoolean id a) ∧
  guarded id "readBoolean" [] (readBoolean res id) ∧
  guarded id "writeByte" [a] (writeByte id a) ∧
  guarded id "readByte" [] (readByte res id) ∧
  guarded id "writeBytes" [a; b; c] (writeBytes id a b c) ∧
  guarded id "readBytes" [a; b] (readBytes res id a b) ∧
  guarded id "writeShort" [a] (writeShort id a) ∧
  guarded id "readShort" [] (readShort res id) ∧
  guarded id "writeInt" [a] (writeInt id a) ∧
  guarded id "readInt" [] (readInt res id) ∧
  guarded id "writeUnsignedInt" [a] (writeUnsignedInt id a) ∧
  guarded id "readUnsignedInt" [] (readUnsignedInt res id) ∧
  guarded id "writeFloat" [a] (writeFloat id a) ∧
  guarded id "readFloat" [] (readFloat res id) ∧
  guarded id "writeDouble" [a] (writeDouble id a) ∧
  guarded id "readDouble" [] (readDouble res id) ∧
  guarded id "writeMultiByte" [a; b] (writeMultiByte id a b) ∧
  guarded id "readMultiByte" [a; b] (readMultiByte res id a b) ∧
  guarded id "writeUTFBytes" [a] (writeUTFBytes id a) ∧
  guarded id "readUTFBytes" [a] (readUTFBytes res id a) ∧
  guarded id "writeUTF" [a] (writeUTF id a) ∧
  guarded id "readUTF" [] (readUTF res id) ∧
  guarded id "writeObject" [a] (writeObject id a) ∧
  guarded id "readObject" [] (readObject res id) ∧
  guarded id "setObjectEncoding" [a] (setObjectEncoding id a) ∧
  guarded id "getObjectEncoding" [] (getObjectEncoding res id) ∧
  guarded id "setEndian" [a] (setEndian id a) ∧
  guarded id "getEndian" [] (getEndian res id) ∧
  guarded id "getBytesAvailable" [] (getBytesAvailable res id).
Proof. split_and!; (exact (guarded_void _ _ _) || exact (guarded_return _ _ _ _)). Qed.

(** ** The order of callbacks *)

(** What the movie reports through [flashCallback]. *)
Inductive flash_event :=
| FData (data : value)
| FConnect
| FError (data : value)
| FClose.

Definition flash_name (e : flash_event) : string :=
  match e with FData _ => "data" | FConnect => "connect" | FError _ => "error" | FClose => "close" end.
Definition flash_data (e : flash_event) : value :=
  match e with FData d | FError d => d | _ => VUndef end.
Definition user_of (e : flash_event) : user_callback :=
  match e with FData d => OnData d | FConnect => OnConnect true VUndef | FError d => OnConnect false d | FClose => OnClose end.
Definition connected_after (b : bool) (e : flash_event) : bool :=
  match e with FConnect => true | FClose => false | _ => b end.

Definition all_handlers (s : jsocket) : Prop :=
  has_onConnect s = true ∧ has_onData s = true ∧ has_onClose s = true.

(** The movie's calls in order, and then the timers in order. *)
Definition report (id : string) (es : list flash_event) (w : jsworld) : jsworld :=
  foldl (λ w e, (flashCallback (flash_name e) id (flash_data e) w).2) w es.
Definition run_timeouts (n : nat) (w : jsworld) : jsworld := Nat.iter n (run_timeout None) w.

Lemma report_timeouts id es : ∀ w, report id es w =
  with_timeouts (timeouts w ++ ((λ e, ExecuteCallback (flash_name e) id (flash_data e)) <$> es)) w.
Proof.
  unfold report. induction es as [|e es IH]; intros w; [rewrite app_nil_r; by destruct w|].
  cbn [foldl]. rewrite IH. cbn. by rewrite <-app_assoc.
Qed.

Lemma execute_event id e w s : assoc id (sockets w) = Some s → all_handlers s →
  ∃ s', executeFlashCallback (flash_name e) id (flash_data e) w =
      (Ret tt, {| js_swf := js_swf w; last_id := last_id w; sockets := assoc_update id s' (sockets w);
                  timeouts := timeouts w; js_effects := js_effects w ++ [Callback id (user_of e)] |}) ∧
    js_connected s' = connected_after (js_connected s) e ∧ all_handlers s'.
Proof.
  intros E (Hc & Hd & Hcl).
  assert (assoc_update id s (sockets w) = sockets w) as Hsame.
  { clear -E. induction (sockets w) as [|[k v] l IH]; [done|]. cbn [assoc assoc_update] in *.
    destruct (String.eqb id k); simplify_eq; [done|]. by rewrite IH. }
  destruct e as [d| |d|]; unfold executeFlashCallback, call_user; cbn [flash_name String.eqb Ascii.eqb Bool.eqb];
    cbv [mbind M_bind socket_at]; rewrite E, ?Hc, ?Hd, ?Hcl.
  - exists s. rewrite Hsame. by destruct w.
  - exists (with_connected true s). split; [|done]. cbv [update_socket modify with_sockets]. by rewrite E.
  - exists s. rewrite Hsame. by destruct w.
  - exists (with_connected false s). split; [|done]. cbv [update_socket modify with_sockets]. by rewrite E.
Qed.

Lemma assoc_update_self {V} k (v : V) ps x : assoc k ps = Some x → assoc k (assoc_update k v ps) = Some v.
Proof. intros E. by rewrite assoc_update_eq, E. Qed.

Lemma run_events id es : ∀ w s,
  assoc id (sockets w) = Some s → all_handlers s →
  timeouts w = (λ e, ExecuteCallback (flash_name e) id (flash_data e)) <$> es →
  ∃ s', assoc id (sockets (run_timeouts (length es) w)) = Some s' ∧
    js_connected s' = foldl connected_after (js_connected s) es ∧
    timeouts (run_timeouts (length es) w) = [] ∧
    js_effects (run_timeouts (length es) w) = js_effects w ++ ((λ e, Callback id (user_of e)) <$> es).
Proof.
  induction es as [|e es IH]; intros w s E Hh Ht.
  - exists s. cbn. by rewrite app_nil_r.
  - cbn [length]. unfold run_timeouts. rewrite Nat.iter_succ_r. fold (run_timeouts (length es) (run_timeout None w)).
    unfold run_timeout. rewrite Ht, fmap_cons.
    destruct (execute_event id e (with_timeouts ((λ e, ExecuteCallback (flash_name e) id (flash_data e)) <$> es) w) s E Hh)
      as (s1 & Eq & Hc & Hh1). rewrite Eq. cbn [snd].
    match goal with |- context [run_timeouts _ ?w1] => destruct (IH w1 s1) as (s' & H1 & H2 & H3 & H4) end.
    + cbn [sockets with_timeouts]. by eapply assoc_update_self.
    + done.
    + done.
    + exists s'. split_and!; [exact H1| |exact H3|].
      * by rewrite H2, Hc.
      * rewrite H4. cbn [js_effects with_timeouts]. by rewrite <-app_assoc.
Qed.

(** The page sees the movie's events in order: whatever the movie reports
    for a socket with all handlers while it is locked up, the handlers are
    called once per event, in the order of the reports, once the timers have
    run, and the socket is connected exactly as the last connect or close says. *)
Theorem callbacks_in_order id es w s :
  assoc id (sockets w) = Some s → all_handlers s → timeouts w = [] →
  let w' := run_timeouts (length es) (report id es w) in
  js_effects w' = js_effects w ++ ((λ e, Callback id (user_of e)) <$> es) ∧ timeouts w' = [] ∧
  ∃ s', assoc id (sockets w') = Some s' ∧ js_connected s' = foldl connected_after (js_connected s) es.
Proof.
  intros E Hh Ht. cbn zeta. rewrite report_timeouts, Ht.
  destruct (run_events id es (with_timeouts ([] ++ ((λ e, ExecuteCallback (flash_name e) id (flash_data e)) <$> es)) w) s)
    as (s' & H1 & H2 & H3 & H4); [done|done|done|]. split_and!; [exact H4|exact H3|]. by exists s'.
Qed.

Lemma callbacks_in_order_witness :
  let w := (new_jSocket true true true true js_initial).2 in
  let es := [FConnect; FData (VStr "a"); FData (VStr "b"); FClose] in
  let w' := run_timeouts (length es) (report "jSocket_1" es w) in
  js_effects w' = js_effects w ++ ((λ e, Callback "jSocket_1" (user_of e)) <$> es) ∧ timeouts w' = [] ∧
  ∃ s', assoc "jSocket_1" (sockets w') = Some s' ∧ js_connected s' = foldl connected_after false es.
Proof. by apply (callbacks_in_order "jSocket_1" _ _ {| js_id := "jSocket_1"; js_target := None; js_movie := None;
  js_connected := false; has_onReady := true; has_onConnect := true; has_onData := true; has_onClose := true |}). Defined.

(** ** Readiness *)

Lemma poll_fails id w ts : timeouts w = InitPoll id :: ts →
  run_timeout None w = with_timeouts (ts ++ [InitPoll id]) w.
Proof.
  intros Ht. unfold run_timeout, init_poll. rewrite Ht. by destruct (assoc id (sockets (with_timeouts ts w))).
Qed.

(** The page is told once that the socket is ready: after the movie's
    'init', however often the movie cannot be used yet, the attempt is
    repeated; at the first probe that succeeds the socket gets its movie,
    [onReady] is called exactly once, and no attempt is left. *)
Theorem ready_once id w s n m :
  assoc id (sockets w) = Some s → has_onReady s = true → timeouts w = [] →
  let w1 := (executeFlashCallback "init" id VUndef w).2 in
  let w2 := run_timeout (Some m) (Nat.iter n (run_timeout None) w1) in
  assoc id (sockets w2) = Some (with_movie m s) ∧
  js_effects w2 = js_effects w ++ [Callback id OnReady] ∧ timeouts w2 = [].
Proof.
  intros E Hr Ht. cbn zeta.
  assert (∀ n, Nat.iter n (run_timeout None) (executeFlashCallback "init" id VUndef w).2 =
               with_timeouts [InitPoll id] w) as Hn.
  { clear n. induction n as [|n IH]; cbn [Nat.iter nat_rect]; [cbn; by rewrite Ht|].
    unfold Nat.iter in IH. rewrite IH. by rewrite (poll_fails id _ []) by done. }
  rewrite Hn. unfold run_timeout, init_poll. cbn [with_timeouts timeouts sockets].
  rewrite E. unfold call_user. rewrite Hr. cbv [mbind M_bind update_socket modify with_sockets]. cbn.
  rewrite E. split_and!; [|done|done]. by eapply assoc_update_self.
Qed.

Lemma ready_once_witness :
  let s := {| js_id := "jSocket_1"; js_target := None; js_movie := None; js_connected := false;
              has_onReady := true; has_onConnect := true; has_onData := true; has_onClose := true |} in
  let w := (new_jSocket true true true true js_initial).2 in
  let w1 := (executeFlashCallback "init" "jSocket_1" VUndef w).2 in
  let w2 := run_timeout (Some 7) (Nat.iter 3 (run_timeout None) w1) in
  assoc "jSocket_1" (sockets w2) = Some (with_movie 7 s) ∧
  js_effects w2 = js_effects w ++ [Callback "jSocket_1" OnReady] ∧ timeouts w2 = [].
Proof. by apply ready_once. Defined.

(** ** Reconnecting *)

(** [connect] closes a connection that is open but leaves the socket marked
    as connected, and a failed attempt does not clear the mark: after
    reconnecting fails, [write] still goes to the closed movie. *)
Theorem failed_reconnect_still_writes id w m host port err data :
  usable w id m → timeouts w = [] →
  let w1 := (connect id host port w).2 in
  let w2 := run_timeout None (report id [FError err] w1) in
  (write id data w2).1 = Ret tt.
Proof.
  intros (s & E & Hc & Hm) Ht. cbn zeta. unfold connect. cbv [mbind M_bind socket_at]. rewrite E, Hm, Hc.
  unfold run_timeout. rewrite report_timeouts. cbn. rewrite Ht. cbn.
  unfold executeFlashCallback, call_user. cbn [String.eqb Ascii.eqb Bool.eqb].
  cbv [mbind M_bind socket_at]. cbn [with_timeouts sockets]. rewrite E.
  destruct (has_onConnect s); unfold write, assertConnected; cbv [mbind M_bind socket_at]; cbn; by rewrite E, Hc, Hm.
Qed.

(** ** The jQuery plugin *)

(** An element has one socket: the plugin called again on an element it
    made a socket for returns the same socket and changes nothing, whatever
    the options. *)
Theorem plugin_one_socket h o o' h' p :
  let '(r, p') := fn_socket h 1 o p in
  ∀ sid, r = Ret (Some sid) → fn_socket h' 1 o' p' = (Ret (Some sid), p').
Proof.
  unfold fn_socket. cbn [Nat.eqb negb].
  destruct (assoc (default "undefined" (p_attr_id p)) (p_sockets p)) as [sock|] eqn:E.
  - intros sid [= <-]. by rewrite E.
  - unfold new_jSocket. cbv beta iota zeta.
    match goal with |- context [setup h ?a ?b ?c ?w] => destruct (setup h a b c w) as [[[]|e] w'] end; [|done].
    intros sid [= <-]. cbn [p_attr_id p_sockets from_option id].
    by rewrite assoc_prop_put, String.eqb_refl.
Qed.
