(* ===== verification/Regex.v ===== *)
(** * Regular expressions

    The matching of the language: a backtracking matcher in continuation
    style, with captures, greedy quantifiers (an iteration that consumes
    nothing is refused, and the groups of the body are cleared before it),
    negative lookahead and the anchors.  Every iteration of a star consumes a
    character, so the length of the rest of the text bounds the iterations. *)

From S2P Require Import Prelude.

(** ** Syntax *)

Inductive re :=
| Eps
| Chr (p : ascii → bool)
| Seq (a b : re)
| Alt (a b : re)
| Star (a : re)
| Opt (a : re)
| Group (n : nat) (a : re)
| NegLook (a : re)
| Bol
| Eol.

Fixpoint seqs (l : list re) : re :=
  match l with [] => Eps | [a] => a | a :: l' => Seq a (seqs l') end.
Definition lit (c : ascii) : re := Chr (Ascii.eqb c).
Definition plus (a : re) : re := Seq a (Star a).
(** [[^cs]] *)
Definition none_of (cs : list ascii) (c : ascii) : bool := negb (existsb (Ascii.eqb c) cs).
(** [.] *)
Definition dot (c : ascii) : bool := none_of ["010"%char; "013"%char] c.

Fixpoint groups (r : re) : list nat :=
  match r with
  | Seq a b | Alt a b => groups a ++ groups b
  | Star a | Opt a | NegLook a => groups a
  | Group n a => n :: groups a
  | _ => []
  end.

(** ** Matching *)

(** A position in the text: its index, the text from there, and the captures. *)
Record mstate := St { pos : nat; rest : string; caps : list (option string) }.

Definition clear (ns : list nat) (st : mstate) : mstate :=
  St (pos st) (rest st) (foldr (λ n c, <[n := None]> c) (caps st) ns).

(** The text between two positions. *)
Fixpoint str_take (n : nat) (s : string) : string :=
  match n, s with
  | S n', String c s' => String c (str_take n' s')
  | _, _ => ""
  end.

Definition capture (n : nat) (st st' : mstate) : mstate :=
  St (pos st') (rest st') (<[n := Some (str_take (pos st' - pos st) (rest st))]> (caps st')).

(** An iteration of a quantified body must move. *)
Definition moved (st st' : mstate) (k : option mstate) : option mstate :=
  if (pos st' =? pos st)%nat then None else k.

Definition or_else (a b : option mstate) : option mstate :=
  match a with Some x => Some x | None => b end.

(** The iterations of a star, at most [n] of them, as many as possible first. *)
Fixpoint star_loop (body : mstate → (mstate → option mstate) → option mstate) (gs : list nat)
    (k : mstate → option mstate) (n : nat) (st : mstate) : option mstate :=
  match n with
  | O => k st
  | S n' => or_else (body (clear gs st) (λ st', moved st st' (star_loop body gs k n' st'))) (k st)
  end.

Fixpoint m (r : re) (st : mstate) (k : mstate → option mstate) {struct r} : option mstate :=
  match r with
  | Eps => k st
  | Chr p =>
      match rest st with
      | String c s => if p c then k (St (S (pos st)) s (caps st)) else None
      | EmptyString => None
      end
  | Seq a b => m a st (λ st', m b st' k)
  | Alt a b => or_else (m a st k) (m b st k)
  | Star a => star_loop (m a) (groups a) k (String.length (rest st)) st
  | Opt a => or_else (m a (clear (groups a) st) (λ st', moved st st' (k st'))) (k st)
  | Group n a => m a st (λ st', k (capture n st st'))
  | NegLook a => match m a st Some with Some _ => None | None => k st end
  | Bol => if (pos st =? 0)%nat then k st else None
  | Eol => if String.eqb (rest st) "" then k st else None
  end.

(** [re.exec] at one position: the whole match is capture 0. *)
Definition match_at (ngroups : nat) (r : re) (p : nat) (s : string) : option mstate :=
  m (Group 0 r) (St p s (replicate ngroups None)) Some.

(** [re.exec(s)]: the first position with a match. *)
Fixpoint exec_from (ngroups : nat) (r : re) (p : nat) (s : string) : option mstate :=
  or_else (match_at ngroups r p s)
    match s with EmptyString => None | String _ s' => exec_from ngroups r (S p) s' end.

Definition exec (ngroups : nat) (r : re) (s : string) : option (list (option string)) :=
  caps <$> exec_from ngroups r 0 s.

(** The captures of all matches of a global expression, in order; after an
    empty match the search goes on one character further. *)
Fixpoint exec_all (fuel : nat) (ngroups : nat) (r : re) (p : nat) (s : string) : list (list (option string)) :=
  match fuel with
  | O => []
  | S f =>
      match exec_from ngroups r p s with
      | None => []
      | Some st =>
          let len := String.length (default "" (mjoin (caps st !! 0))) in
          caps st ::
            (if (len =? 0)%nat
             then match rest st with EmptyString => [] | String _ s' => exec_all f ngroups r (S (pos st)) s' end
             else exec_all f ngroups r (pos st) (rest st))
      end
  end.

(** ** Rules for matching *)

Definition suffix_of (st' st : mstate) : Prop := ∃ p, rest st = p +:+ rest st'.

#[export] Instance suffix_of_refl : Reflexive suffix_of.
Proof. intros st. by exists "". Qed.
#[export] Instance suffix_of_trans : Transitive suffix_of.
Proof. intros a b c [p Hp] [q Hq]. exists (q +:+ p). by rewrite Hq, Hp, str_app_assoc. Qed.

(** A continuation that fails on the whole rest of the text makes the match fail. *)
Lemma m_fail r : ∀ st k, (∀ st', suffix_of st' st → k st' = None) → m r st k = None.
Proof.
  induction r as [|p|a IHa b IHb|a IHa b IHb|a IHa|a IHa|n a IHa|a IHa| |]; intros st k Hk; cbn [m].
  - by apply Hk.
  - destruct (rest st) as [|c s] eqn:E; [done|]. destruct (p c); [|done]. apply Hk. exists (String c ""). by rewrite E.
  - apply IHa. intros st1 H1. apply IHb. intros st2 H2. apply Hk. by etrans.
  - by rewrite IHa, IHb.
  - generalize (String.length (rest st)). intros n.
    assert (suffix_of st st) as Hst by done. revert Hst. generalize st at 1 3. induction n as [|n IH]; intros st1 H1; cbn [star_loop]; [by apply Hk|].
    rewrite IHa; [by apply Hk|]. intros st2 H2. unfold moved. case_if; [done|]. apply IH. etrans; [exact H2|]. done.
  - rewrite IHa; [by apply Hk|]. intros st2 H2. unfold moved. case_if; [done|]. by apply Hk.
  - apply IHa. intros st1 H1. by apply Hk.
  - destruct (m a st Some); [done|]. by apply Hk.
  - case_if; [|done]. by apply Hk.
  - case_if; [|done]. by apply Hk.
Qed.

Lemma str_take_app a b : str_take (String.length a) (a +:+ b) = a.
Proof. induction a as [|c a IH]; [by destruct b|]. cbn. by rewrite IH. Qed.

Lemma clear_nil st : clear [] st = st.
Proof. by destruct st. Qed.

(** A text on which a class stops. *)
Definition stops_class (p : ascii → bool) (b : string) : bool :=
  match b with String c _ => negb (p c) | EmptyString => true end.

(** A greedy class takes all it can when the rest matches after that. *)
Lemma star_class p a : ∀ b i cs k x,
  str_forallb p a = true → stops_class p b = true →
  k (St (i + String.length a) b cs) = Some x →
  m (Star (Chr p)) (St i (a +:+ b) cs) k = Some x.
Proof.
  intros b i cs k x Ha Hb Hk. cbn [m rest groups].
  assert (String.length a ≤ String.length (a +:+ b)) as Hn by (rewrite str_length_app; lia).
  revert Hn. generalize (String.length (a +:+ b)). intros n Hn.
  revert i n Hn Hk. induction a as [|c a IH]; intros i n Hn Hk.
  - cbn [append String.length] in *. rewrite Nat.add_0_r in Hk. destruct n as [|n]; [done|].
    cbn [star_loop]. rewrite clear_nil. cbn [m rest]. destruct b as [|c b]; [done|].
    cbn [stops_class] in Hb. apply negb_true_iff in Hb. by rewrite Hb.
  - cbn [String.length] in Hn. destruct n as [|n]; [lia|]. cbn [str_forallb] in Ha. apply andb_true_iff in Ha as [Hc Ha].
    cbn [star_loop append]. rewrite clear_nil. cbn [m rest]. rewrite Hc. unfold moved. cbn [pos caps].
    rewrite (proj2 (Nat.eqb_neq _ _)) by lia. rewrite (IH Ha (S i) n); [done|lia|].
    rewrite <-Hk. f_equal. cbn [String.length]. f_equal. lia.
Qed.

Lemma plus_class p c a b i cs k x :
  p c = true → str_forallb p a = true → stops_class p b = true →
  k (St (i + S (String.length a)) b cs) = Some x →
  m (plus (Chr p)) (St i (String c a +:+ b) cs) k = Some x.
Proof.
  intros Hc Ha Hb Hk. unfold plus. cbn [m]. cbn [rest append pos caps]. rewrite Hc.
  apply star_class; [done|done|]. rewrite <-Hk. f_equal. f_equal. lia.
Qed.

Lemma opt_take a st k x :
  m a (clear (groups a) st) (λ st', moved st st' (k st')) = Some x → m (Opt a) st k = Some x.
Proof. cbn [m]. by intros ->. Qed.

Lemma opt_skip a st k x :
  m a (clear (groups a) st) (λ st', moved st st' (k st')) = None → k st = Some x → m (Opt a) st k = Some x.
Proof. cbn [m]. by intros -> ->. Qed.

(** An expression that has to find a character which does not occur fails. *)
Lemma seq_missing a p st k :
  str_forallb (λ c, negb (p c)) (rest st) = true → m (Seq a (Chr p)) st k = None.
Proof.
  intros Hp. cbn [m]. apply m_fail. intros st' [q Hq]. rewrite Hq, str_forallb_app in Hp.
  apply andb_true_iff in Hp as [_ Hp]. destruct (rest st') as [|c s]; [done|].
  cbn [str_forallb] in Hp. apply andb_true_iff in Hp as [Hp _]. apply negb_true_iff in Hp. by rewrite Hp.
Qed.

(** ** Expressions that always match *)

Fixpoint always (r : re) : bool :=
  match r with
  | Eps | Star _ | Opt _ => true
  | Seq a b => always a && always b
  | Alt a b => always a || always b
  | Group _ a => always a
  | _ => false
  end.

Lemma or_else_Some a b : is_Some a ∨ is_Some b → is_Some (or_else a b).
Proof. intros [H|H]; [by destruct a|destruct a; [done|by cbn]]. Qed.

Lemma always_matches r : always r = true → ∀ st k, (∀ st', is_Some (k st')) → is_Some (m r st k).
Proof.
  induction r as [|p|a IHa b IHb|a IHa b IHb|a IHa|a IHa|n a IHa|a IHa| |]; intros Hr st k Hk; cbn [m always] in *; try done.
  - apply andb_true_iff in Hr as [Ha Hb]. apply IHa; [done|]. intros st'. by apply IHb.
  - apply or_else_Some. apply orb_true_iff in Hr as [Ha|Hb]; [left; by apply IHa|right; by apply IHb].
  - destruct (String.length (rest st)) as [|n]; cbn [star_loop]; [done|]. apply or_else_Some. by right.
  - apply or_else_Some. by right.
  - by apply IHa.
Qed.
