(* ===== verification/ParseUri.v ===== *)
(** * Parsing addresses (parseUri of WebSocket-wrapper.js) *)

From S2P Require Import Prelude JSNum JSValue JSON Regex.

(** ** The expressions *)

Definition cls (cs : list ascii) : re := Chr (none_of cs).
Definition one_of (cs : list ascii) : re := Chr (λ c, existsb (Ascii.eqb c) cs).
Definition digit_class : re := Chr is_digit.

(** The authority: user and password before an at sign, the host, and a port. *)
Definition user_info : re :=
  Opt (Seq (Opt (Group 3 (Seq (Group 4 (Star (cls [":"%char; "@"%char])))
                              (Opt (Seq (lit ":") (Group 5 (Star (cls [":"%char; "@"%char]))))))))
           (lit "@")).
Definition authority : re :=
  Group 2 (seqs [user_info;
                 Group 6 (Star (cls [":"; "/"; "?"; "#"]%char));
                 Opt (Seq (lit ":") (Group 7 (Star digit_class)))]).

(** The query after a question mark, and the anchor after a hash. *)
Definition query_anchor : re :=
  Seq (Opt (Seq (lit "?") (Group 12 (Star (cls ["#"%char])))))
      (Opt (Seq (lit "#") (Group 13 (Star (Chr dot))))).

(** The expression [strict] of the options. *)
Definition strict_parser : re :=
  seqs [Bol;
        Opt (Seq (Group 1 (plus (cls [":"; "/"; "?"; "#"]%char))) (lit ":"));
        Opt (seqs [lit "/"; lit "/"; authority]);
        Group 8 (Seq (Group 9 (Seq (Group 10 (Star (Seq (Star (cls ["?"; "#"; "/"]%char)) (lit "/"))))
                                   (Group 11 (Star (cls ["?"; "#"]%char)))))
                     query_anchor)].

(** The lookahead that refuses a user and password in place of a protocol. *)
Definition no_user_ahead : re :=
  NegLook (seqs [plus (cls [":"; "@"]%char); lit ":"; Star (cls [":"; "@"; "/"]%char); lit "@"]).

(** A file name with an extension, up to the end of the path. *)
Definition file_ahead : re :=
  seqs [Star (cls ["?"; "#"; "/"]%char); lit "."; plus (cls ["?"; "#"; "/"; "."]%char);
        Alt (one_of ["?"; "#"]%char) Eol].

(** The directory: characters after which no such file name follows, and a slash. *)
Definition dir_body : re := Seq (cls ["?"; "#"]%char) (NegLook file_ahead).
Definition directory : re := Group 10 (seqs [lit "/"; Star dir_body; Opt (lit "/")]).

Definition path_part : re := Group 9 (Seq (Opt directory) (Group 11 (Star (cls ["?"; "#"; "/"]%char)))).

(** The expression [loose] of the options. *)
Definition loose_parser : re :=
  seqs [Bol;
        Opt (seqs [no_user_ahead; Group 1 (plus (cls [":"; "/"; "?"; "#"; "."]%char)); lit ":"]);
        Opt (Seq (lit "/") (lit "/"));
        authority;
        Group 8 (Seq path_part query_anchor)].

(** The expression [q.parser]: a key and a value at the start or after an ampersand. *)
Definition query_parser : re :=
  seqs [Alt Bol (lit "&"); Group 1 (Star (cls ["&"; "="]%char)); Opt (lit "="); Group 2 (Star (cls ["&"%char]))].

(** ** parseUri *)

Definition uri_key : list string :=
  ["source"; "protocol"; "authority"; "userInfo"; "user"; "password"; "host"; "port"; "relative"; "path";
   "directory"; "file"; "query"; "anchor"].

Record uri := { uri_fields : list (string * string); queryKey : list (string * string) }.

Definition uri_get (u : uri) (k : string) : string := default "" (assoc k (uri_fields u)).

Definition capture_text (cs : list (option string)) (i : nat) : string := default "" (mjoin (cs !! i)).

(** [while (i--) uri[o.key[i]] = ...], from the last key to the first; a group
    that did not take part gives the empty text. *)
Definition fill_fields (cs : list (option string)) : list (string * string) :=
  foldr (λ ik fs, prop_put ik.2 (capture_text cs ik.1) fs) [] (imap pair uri_key).

Definition query_keys (query : string) : list (string * string) :=
  foldl (λ qk cs, let k := capture_text cs 1 in
                  if String.eqb k "" then qk else prop_put k (capture_text cs 2) qk)
    [] (exec_all (S (S (String.length query))) 3 query_parser 0 query).

(** With [strictMode]; a text that did not match would be a TypeError. *)
Definition parseUri_with (strictMode : bool) (str : string) : res uri :=
  match exec 14 (if strictMode then strict_parser else loose_parser) str with
  | Some cs => Ret {| uri_fields := fill_fields cs; queryKey := query_keys (capture_text cs 12) |}
  | None => Throw TypeError
  end.

(** The options of the wrapper: [strictMode: false]. *)
Definition parseUri : string → res uri := parseUri_with false.

Example parseUri_ex1 :
  (λ u, (uri_get u "protocol", uri_get u "host", uri_get u "port", uri_get u "path", uri_get u "file", uri_get u "query", queryKey u)) <$>
    match parseUri "ws://example.com:8080/a/chat.cgi?x=1&y=2#top" with Ret u => Some u | Throw _ => None end =
  Some ("ws", "example.com", "8080", "/a/chat.cgi", "chat.cgi", "x=1&y=2", [("x", "1"); ("y", "2")]).
Proof. vm_compute. reflexivity. Qed.

Example parseUri_ex2 :
  (λ u, (uri_get u "user", uri_get u "password", uri_get u "host", uri_get u "directory")) <$>
    match parseUri "http://me:pw@host/dir/" with Ret u => Some u | Throw _ => None end =
  Some ("me", "pw", "host", "/dir/").
Proof. vm_compute. reflexivity. Qed.

Example parseUri_strict_ex :
  (λ u, (uri_get u "protocol", uri_get u "authority", uri_get u "directory", uri_get u "file", uri_get u "anchor")) <$>
    match parseUri_with true "http://host:80/a/b?q#f" with Ret u => Some u | Throw _ => None end =
  Some ("http", "host:80", "/a/", "b", "f").
Proof. vm_compute. reflexivity. Qed.

(** ** Every text is parsed *)

Lemma anchored_matches n r s : always r = true → is_Some (exec n (Seq Bol r) s).
Proof.
  intros Hr. assert (is_Some (match_at n (Seq Bol r) 0 s)) as [x E].
  { change (is_Some (m r (St 0 s (replicate n None)) (λ st', Some (capture 0 (St 0 s (replicate n None)) st')))).
    by apply always_matches. }
  unfold exec. apply fmap_is_Some. destruct s; cbn [exec_from]; rewrite E; by eexists.
Qed.

Lemma parser_matches strict s : is_Some (exec 14 (if strict : bool then strict_parser else loose_parser) s).
Proof. by destruct strict; apply anchored_matches. Qed.

(** [parseUri] accepts every text: in both modes the expression matches,
    so the result is always an object with the fourteen fields. *)
Theorem parseUri_total strict s : ∃ u, parseUri_with strict s = Ret u ∧ (uri_fields u).*1 = reverse uri_key.
Proof.
  unfold parseUri_with. destruct (parser_matches strict s) as [cs ->]. eexists. split; [done|]. reflexivity.
Qed.

(** ** Addresses of sockets *)

(** [o] is a match with property [Q]. *)
Definition ok (Q : mstate → Prop) (o : option mstate) : Prop := ∃ x, o = Some x ∧ Q x.

Lemma ok_star p a b i cs k Q :
  str_forallb p a = true → stops_class p b = true → ok Q (k (St (i + String.length a) b cs)) →
  ok Q (m (Star (Chr p)) (St i (a +:+ b) cs) k).
Proof. intros Ha Hb (x & E & HQ). exists x. split; [|done]. by apply star_class. Qed.

Lemma ok_or_left Q a b : ok Q a → ok Q (or_else a b).
Proof. intros (x & -> & H). by exists x. Qed.

(** The captures that a path leaves alone. *)
Definition same_captures (cs cs' : list (option string)) : Prop :=
  length cs' = length cs ∧ ∀ n, n ≠ 10 → n ≠ 11 → cs' !! n = cs !! n.

#[export] Instance same_captures_refl : Reflexive same_captures.
Proof. by split. Qed.

Lemma same_captures_insert cs cs' n x : same_captures cs cs' → n = 10 ∨ n = 11 → same_captures cs (<[n := x]> cs').
Proof.
  intros [Hl Hn] Hor. split; [by rewrite length_insert|]. intros j H10 H11.
  rewrite list_lookup_insert_ne by lia. by apply Hn.
Qed.

(** What follows a path: nothing, or a query or an anchor. *)
Definition path_end (r : string) : bool :=
  match r with String c _ => existsb (Ascii.eqb c) ["?"; "#"]%char | EmptyString => true end.

(** [r] takes a text with property [P]. *)
Definition takes (P : string → Prop) (r : re) : Prop := ∀ st k x,
  m r st k = Some x → ∃ t st', rest st = t +:+ rest st' ∧ P t ∧ k st' = Some x.

Lemma takes_chr p : takes (λ t, str_forallb p t = true) (Chr p).
Proof.
  intros st k x H. cbn [m] in H. destruct (rest st) as [|c s] eqn:E; [done|]. destruct (p c) eqn:Hp; [|done].
  exists (String c ""), (St (S (pos st)) s (caps st)). cbn. by rewrite Hp.
Qed.

Lemma takes_star p : takes (λ t, str_forallb p t = true) (Star (Chr p)).
Proof.
  intros st k x H. change (star_loop (m (Chr p)) (groups (Chr p)) k (String.length (rest st)) st = Some x) in H.
  revert H. generalize (String.length (rest st)). intros n. revert st.
  induction n as [|n IH]; intros st H; cbn [star_loop] in H; [by exists "", st|].
  destruct (m (Chr p) (clear (groups (Chr p)) st) _) as [y|] eqn:E; cbn [or_else] in H; [|by exists "", st].
  injection H as <-. destruct (takes_chr p _ _ _ E) as (t & st1 & Ht & Hp & Hm). unfold moved in Hm.
  destruct (pos st1 =? pos st)%nat; [done|]. destruct (IH _ Hm) as (t' & st2 & Ht' & Hp' & Hk).
  exists (t +:+ t'), st2. rewrite clear_nil in Ht. rewrite Ht, Ht', str_app_assoc. split; [done|].
  split; [|done]. by rewrite str_forallb_app, Hp, Hp'.
Qed.

Lemma takes_seq p a b : takes (λ t, str_forallb p t = true) a → takes (λ t, str_forallb p t = true) b →
  takes (λ t, str_forallb p t = true) (Seq a b).
Proof.
  intros Ha Hb st k x H. cbn [m] in H. destruct (Ha _ _ _ H) as (t & st1 & Ht & Hp & Hm).
  destruct (Hb _ _ _ Hm) as (t' & st2 & Ht' & Hp' & Hk). exists (t +:+ t'), st2.
  rewrite Ht, Ht', str_app_assoc, str_forallb_app, Hp, Hp'. done.
Qed.

Lemma takes_weaken p q r : (∀ c, p c = true → q c = true) →
  takes (λ t, str_forallb p t = true) r → takes (λ t, str_forallb q t = true) r.
Proof.
  intros Hpq Hr st k x H. destruct (Hr _ _ _ H) as (t & st' & Ht & Hp & Hk). exists t, st'. split; [done|].
  split; [|done]. clear -Hpq Hp. induction t as [|c t IH]; [done|]. cbn [str_forallb] in *.
  apply andb_true_iff in Hp as [Hc Ht]. by rewrite Hpq, IH.
Qed.

Definition in_path : ascii → bool := none_of ["?"; "#"]%char.
Definition in_file : ascii → bool := none_of ["?"; "#"; "/"]%char.

Lemma in_file_path c : in_file c = true → in_path c = true.
Proof. unfold in_file, in_path, none_of. cbn. intros H. bool_prop. by destruct (Ascii.eqb c "?"), (Ascii.eqb c "#"). Qed.

(** The part of a text before its query or anchor is determined. *)
Lemma path_end_unique p : ∀ t r u,
  str_forallb in_path p = true → str_forallb in_path t = true → path_end r = true → path_end u = true →
  p +:+ r = t +:+ u → p = t ∧ r = u.
Proof.
  assert (∀ c s, path_end (String c s) = true → in_path c = false) as Hend.
  { intros c s H. unfold in_path, none_of. cbn [path_end] in H. by rewrite H. }
  induction p as [|c p IH]; intros [|c' t] r u Hp Ht Hr Hu H; cbn [append str_forallb] in *.
  - done.
  - exfalso. subst r. apply andb_true_iff in Ht as [Hc _]. apply Hend in Hr. congruence.
  - exfalso. subst u. apply andb_true_iff in Hp as [Hc _]. apply Hend in Hu. congruence.
  - injection H as <- H. apply andb_true_iff in Hp as [_ Hp], Ht as [_ Ht].
    destruct (IH t r u) as [-> ->]; done.
Qed.

Lemma str_forallb_weaken (p q : ascii → bool) s :
  (∀ c, p c = true → q c = true) → str_forallb p s = true → str_forallb q s = true.
Proof.
  intros Hpq. induction s as [|c s IH]; [done|]. cbn [str_forallb]. intros H. apply andb_true_iff in H as [Hc Hs].
  by rewrite Hpq, IH.
Qed.

(** A file name with an extension is the rest of a path without slashes. *)
Lemma file_ahead_sound p r i cs x :
  str_forallb in_path p = true → path_end r = true →
  m file_ahead (St i (p +:+ r) cs) Some = Some x → str_forallb in_file p = true.
Proof.
  intros Hp Hr H.
  change (m (Star (cls ["?"; "#"; "/"]%char)) (St i (p +:+ r) cs)
    (λ st1, m (lit ".") st1 (λ st2, m (plus (cls ["?"; "#"; "/"; "."]%char)) st2
      (λ st3, m (Alt (one_of ["?"; "#"]%char) Eol) st3 Some))) = Some x) in H.
  destruct (takes_star _ _ _ _ H) as (t1 & st1 & E1 & H1 & Hm1).
  destruct (takes_chr _ _ _ _ Hm1) as (t2 & st2 & E2 & H2 & Hm2).
  destruct (takes_seq _ _ _ (takes_chr _) (takes_star _) _ _ _ Hm2) as (t3 & st3 & E3 & H3 & Hm3).
  assert (path_end (rest st3) = true) as Hu.
  { clear -Hm3. cbn [m one_of] in Hm3. destruct (rest st3) as [|c s]; [done|]. cbn [path_end].
    destruct (existsb (Ascii.eqb c) ["?"; "#"]%char); [done|]. cbn in Hm3. done. }
  assert (str_forallb in_file (t1 +:+ t2 +:+ t3) = true) as Ht.
  { rewrite !str_forallb_app. apply andb_true_iff. split; [exact H1|]. apply andb_true_iff. split.
    - eapply str_forallb_weaken; [|exact H2]. intros c Hc. apply Ascii.eqb_eq in Hc as <-. done.
    - eapply str_forallb_weaken; [|exact H3]. intros c Hc. unfold in_file, none_of in *. cbn in *. bool_prop.
      by destruct (Ascii.eqb c "?"), (Ascii.eqb c "#"), (Ascii.eqb c "/"). }
  cbn [rest] in E1. rewrite E2, E3, <-!str_app_assoc in E1.
  destruct (path_end_unique p ((t1 +:+ t2) +:+ t3) r (rest st3)) as [-> _]; try done.
  - eapply str_forallb_weaken; [apply in_file_path|]. by rewrite str_app_assoc.
  - by rewrite str_app_assoc.
Qed.

Lemma in_path_file c : in_path c = true → c ≠ "/"%char → in_file c = true.
Proof.
  unfold in_file, in_path, none_of. cbn. intros H Hne. bool_prop. apply Ascii.eqb_neq in Hne.
  by destruct (Ascii.eqb c "?"), (Ascii.eqb c "#"), (Ascii.eqb c "/").
Qed.

(** An optional slash in front of a text. *)
Lemma opt_slash st k : m (Opt (lit "/")) st k =
  match rest st with
  | String c s => if Ascii.eqb "/" c then or_else (k (St (S (pos st)) s (caps st))) (k st) else k st
  | EmptyString => k st
  end.
Proof.
  destruct st as [i s cs]. cbn [m lit groups]. rewrite clear_nil. cbn [rest pos caps]. destruct s as [|c s]; [done|].
  destruct (Ascii.eqb "/" c); [|done]. unfold moved. cbn [pos]. by rewrite (proj2 (Nat.eqb_neq _ _)) by lia.
Qed.

(** The loop of the directory: it stops at the end of the path, or before a
    file name without slashes. *)
Lemma dir_star r k Q p : ∀ i cs n,
  str_forallb in_path p = true → path_end r = true → String.length p ≤ n →
  (∀ d f, p = d +:+ f → str_forallb in_file f = true → ok Q (k (St (i + String.length d) (f +:+ r) cs))) →
  ok Q (star_loop (m dir_body) [] (λ st, m (Opt (lit "/")) st k) n (St i (p +:+ r) cs)).
Proof.
  assert (∀ i cs, path_end r = true → m (Opt (lit "/")) (St i r cs) k = k (St i r cs)) as Hend.
  { intros i cs Hr. rewrite opt_slash. cbn [rest]. destruct r as [|c r']; [done|]. cbn [path_end] in Hr.
    destruct (Ascii.eqb_spec "/" c) as [<-|]; done. }
  induction p as [|c p IH]; intros i cs n Hp Hr Hn Hk.
  - pose proof (Hk "" "" eq_refl eq_refl) as H0. cbn [append String.length] in H0. rewrite Nat.add_0_r in H0. cbn [append].
    destruct n as [|n]; cbn [star_loop]; rewrite Hend by done; [done|].
    assert (∀ k', m dir_body (clear [] (St i r cs)) k' = None) as ->; [|done].
    intros k'. rewrite clear_nil. change (m (cls ["?"; "#"]%char) (St i r cs) (λ st', m (NegLook file_ahead) st' k') = None).
    cbn [m cls rest]. destruct r as [|c r']; [done|]. cbn [path_end] in Hr. unfold none_of. by rewrite Hr.
  - cbn [String.length] in Hn. destruct n as [|n]; [lia|]. cbn [str_forallb] in Hp. apply andb_true_iff in Hp as [Hc Hp].
    cbn [star_loop]. rewrite clear_nil.
    assert (∀ k', m dir_body (St i (String c p +:+ r) cs) k' =
      match m file_ahead (St (S i) (p +:+ r) cs) Some with Some _ => None | None => k' (St (S i) (p +:+ r) cs) end) as ->.
    { intros k'. change (m (cls ["?"; "#"]%char) (St i (String c (p +:+ r)) cs) (λ st', m (NegLook file_ahead) st' k') =
        match m file_ahead (St (S i) (p +:+ r) cs) Some with Some _ => None | None => k' (St (S i) (p +:+ r) cs) end).
      cbn [m cls rest pos caps]. unfold in_path in Hc. by rewrite Hc. }
    destruct (m file_ahead (St (S i) (p +:+ r) cs) Some) as [x|] eqn:El.
    + apply file_ahead_sound in El; [|done|done]. cbn [or_else]. rewrite opt_slash. cbn [rest append pos caps].
      destruct (Ascii.eqb_spec "/" c) as [<-|Hne].
      * apply ok_or_left. pose proof (Hk "/" p eq_refl El) as H1. cbn [String.length] in H1. by rewrite Nat.add_1_r in H1.
      * pose proof (Hk "" (String c p) eq_refl) as H1. cbn [String.length append] in H1. rewrite Nat.add_0_r in H1.
        apply H1. cbn [str_forallb]. rewrite El, in_path_file; [done|done|congruence].
    + apply ok_or_left. unfold moved. cbn [pos]. rewrite (proj2 (Nat.eqb_neq _ _)) by lia.
      apply IH; [done|done|lia|]. intros d f -> Hf. pose proof (Hk (String c d) f eq_refl Hf) as H1.
      cbn [String.length] in H1. by rewrite Nat.add_succ_r in H1.
Qed.

Lemma path_end_stops r : path_end r = true → stops_class in_file r = true.
Proof.
  destruct r as [|c r]; [done|]. cbn [path_end stops_class existsb]. unfold in_file, none_of. cbn [existsb]. intros H.
  by destruct (Ascii.eqb c "?"), (Ascii.eqb c "#"), (Ascii.eqb c "/").
Qed.

(** A path from its slash to its end is captured as a whole. *)
Lemma ok_path r k Q p i cs :
  str_forallb in_path p = true → path_end r = true →
  (∀ cs', same_captures cs cs' → ok Q (k (St (i + S (String.length p)) r (<[9 := Some (String "/" p)]> cs')))) →
  ok Q (m path_part (St i (String "/" p +:+ r) cs) k).
Proof.
  intros Hp Hr Hk. set (st := St i (String "/" p +:+ r) cs).
  set (k1 := λ st', k (capture 9 st st')). set (k2 := λ st1, m (Group 11 (Star (cls ["?"; "#"; "/"]%char))) st1 k1).
  change (ok Q (or_else (m directory (clear [10] st) (λ st', moved st st' (k2 st'))) (k2 st))). apply ok_or_left.
  set (st0 := clear [10] st). set (k3 := λ st2, moved st (capture 10 st0 st2) (k2 (capture 10 st0 st2))).
  change (ok Q (star_loop (m dir_body) [] (λ st, m (Opt (lit "/")) st k3) (String.length (p +:+ r))
    (St (S i) (p +:+ r) (<[10 := None]> cs)))).
  apply dir_star; [done|done|rewrite str_length_app; lia|]. intros d f -> Hf.
  unfold k3, moved, capture at 1. cbn [pos]. rewrite (proj2 (Nat.eqb_neq _ _)) by (cbn; lia).
  unfold k2. set (st3 := capture 10 st0 _).
  change (ok Q (m (Star (Chr in_file)) (St (S i + String.length d) (f +:+ r) (caps st3)) (λ st', k1 (capture 11 st3 st')))).
  apply ok_star; [done|by apply path_end_stops|]. unfold k1. set (st4 := capture 11 st3 _).
  assert (pos st4 = i + S (String.length (d +:+ f))) as Hpos by (cbn; rewrite str_length_app; lia).
  unfold capture. rewrite Hpos. replace (i + S (String.length (d +:+ f)) - pos st) with (S (String.length (d +:+ f))) by (cbn; lia).
  change (str_take (S (String.length (d +:+ f))) (rest st)) with
    (String "/" (str_take (String.length (d +:+ f)) ((d +:+ f) +:+ r))). rewrite str_take_app.
  apply Hk. cbn [caps st4 st3 capture st0 clear st foldr]. repeat (apply same_captures_insert; [|lia]). done.
Qed.

Lemma opt_missing a p st k : str_forallb (λ c, negb (p c)) (rest st) = true → m (Opt (Seq a (Chr p))) st k = k st.
Proof.
  intros H. set (st0 := clear (groups (Seq a (Chr p))) st).
  change (or_else (m (Seq a (Chr p)) st0 (λ st', moved st st' (k st'))) (k st) = k st). by rewrite seq_missing.
Qed.

(** ** Optional parts behind a mark: the port, the query, the anchor *)

Definition mark (c : ascii) (o : option string) : string := match o with Some t => String c t | None => "" end.

Definition set_capture (n : nat) (o : option string) (cs : list (option string)) : list (option string) :=
  match o with Some t => <[n := Some t]> cs | None => cs end.

Lemma ok_marked c n p o i b cs k Q :
  (∀ t, o = Some t → str_forallb p t = true) → stops_class p b = true → stops_class (Ascii.eqb c) b = true →
  ok Q (k (St (i + String.length (mark c o)) b (set_capture n o cs))) →
  ok Q (m (Opt (Seq (lit c) (Group n (Star (Chr p))))) (St i (mark c o +:+ b) cs) k).
Proof.
  intros Ht Hb Hc Hk. set (st := St i (mark c o +:+ b) cs). set (st0 := clear [n] st).
  change (ok Q (or_else (m (Seq (lit c) (Group n (Star (Chr p)))) st0 (λ st', moved st st' (k st'))) (k st))).
  destruct o as [t|]; cbn [mark set_capture] in *.
  - apply ok_or_left. subst st st0. unfold lit, clear. cbn [m rest foldr pos caps append]. rewrite Ascii.eqb_refl.
    set (st := St i _ cs). set (st1 := St (S i) (t +:+ b) (<[n := None]> cs)).
    change (ok Q (m (Star (Chr p)) (St (S i) (t +:+ b) (<[n := None]> cs)) (λ st', moved st (capture n st1 st') (k (capture n st1 st'))))).
    apply ok_star; [by apply Ht|done|]. unfold moved, capture. cbn [pos rest caps st st1].
    rewrite (proj2 (Nat.eqb_neq _ _)) by lia.
    replace (S i + String.length t - S i) with (String.length t) by lia. rewrite str_take_app, list_insert_insert_eq.
    by replace (S i + String.length t) with (i + String.length (String c t)) by (cbn; lia).
  - replace (m _ st0 _) with (@None mstate); [cbn in *; by rewrite Nat.add_0_r in Hk|].
    subst st st0. unfold lit, clear. cbn [m rest append]. destruct b as [|x b]; [done|].
    cbn [stops_class] in Hc. apply negb_true_iff in Hc. by rewrite Hc.
Qed.

(** ** The scheme and the authority *)

Definition no_at (s : string) : bool := str_forallb (λ c, negb (Ascii.eqb "@" c)) s.

Lemma ok_group n a st k Q : ok Q (m a st (λ st', k (capture n st st'))) → ok Q (m (Group n a) st k).
Proof. done. Qed.

Lemma capture_whole n a b i cs cs' :
  capture n (St i (a +:+ b) cs) (St (i + String.length a) b cs') = St (i + String.length a) b (<[n := Some a]> cs').
Proof.
  unfold capture. cbn [pos rest caps]. replace (i + String.length a - i) with (String.length a) by lia.
  by rewrite str_take_app.
Qed.

Lemma ok_scheme s b i cs k Q :
  s ≠ "" → str_forallb (none_of [":"; "/"; "?"; "#"; "."]%char) s = true → no_at (s +:+ String ":" b) = true →
  ok Q (k (St (i + S (String.length s)) b (<[1 := Some s]> cs))) →
  ok Q (m (Opt (seqs [no_user_ahead; Group 1 (plus (cls [":"; "/"; "?"; "#"; "."]%char)); lit ":"]))
          (St i (s +:+ String ":" b) cs) k).
Proof.
  intros Hne Hs Hat Hk. set (st := St i (s +:+ String ":" b) cs). set (st0 := St i (s +:+ String ":" b) (<[1 := None]> cs)).
  set (K := λ st', moved st st' (k st')). set (K1 := λ st', m (lit ":") (capture 1 st0 st') K).
  apply ok_or_left.
  change (ok Q (match m (Seq (Seq (Seq (plus (cls [":"; "@"]%char)) (lit ":")) (Star (cls [":"; "@"; "/"]%char))) (lit "@")) st0 Some
                with Some _ => None | None => m (plus (cls [":"; "/"; "?"; "#"; "."]%char)) st0 K1 end)).
  unfold lit at 2. rewrite seq_missing by done.
  destruct s as [|c s]; [done|]. cbn [str_forallb] in Hs. apply andb_true_iff in Hs as [Hc Hs].
  destruct Hk as (x & Hx & HQ). exists x. split; [|done]. apply plus_class; [done..|].
  unfold K1, st0. rewrite (capture_whole 1 (String c s)). unfold lit. cbn [m rest pos caps]. cbn [Ascii.eqb Bool.eqb].
  unfold K, moved. cbn [pos st]. rewrite (proj2 (Nat.eqb_neq _ _)) by lia. rewrite list_insert_insert_eq.
  rewrite <-Hx. f_equal. f_equal. cbn. lia.
Qed.

Lemma ok_authority h o b i cs k Q :
  str_forallb (none_of [":"; "/"; "?"; "#"]%char) h = true → (∀ t, o = Some t → str_forallb is_digit t = true) →
  stops_class (none_of [":"; "/"; "?"; "#"]%char) b = true → stops_class is_digit b = true →
  stops_class (Ascii.eqb ":") b = true → no_at (h +:+ mark ":" o +:+ b) = true →
  ok Q (k (St (i + String.length h + String.length (mark ":" o)) b
             (<[2 := Some (h +:+ mark ":" o)]> (set_capture 7 o (<[6 := Some h]> cs))))) →
  ok Q (m authority (St i (h +:+ mark ":" o +:+ b) cs) k).
Proof.
  intros Hh Ho Hb1 Hb2 Hb3 Hat Hk. apply ok_group. set (st := St i _ cs).
  change (ok Q (m user_info st (λ st1, m (Group 6 (Star (cls [":"; "/"; "?"; "#"]%char))) st1
    (λ st2, m (Opt (Seq (lit ":") (Group 7 (Star digit_class)))) st2 (λ st', k (capture 2 st st')))))).
  unfold user_info at 1. unfold lit at 2. rewrite opt_missing by done.
  apply ok_group. apply ok_star; [done|by destruct o|]. subst st. cbv beta. rewrite capture_whole.
  apply ok_marked; [done..|]. rewrite <-str_app_assoc.
  replace (i + String.length h + String.length (mark ":" o)) with (i + String.length (h +:+ mark ":" o)) in *
    by (rewrite str_length_app; lia).
  by rewrite capture_whole.
Qed.

(** ** The whole address *)

Definition opt_forall (p : ascii → bool) (o : option string) : bool :=
  match o with Some t => str_forallb p t | None => true end.

Lemma opt_forall_Some p o : opt_forall p o = true → ∀ t, o = Some t → str_forallb p t = true.
Proof. by intros H t ->. Qed.

Lemma ok_path_opt p r i cs k Q :
  opt_forall in_path p = true → path_end r = true →
  (∀ cs', same_captures cs cs' → ok Q (k (St (i + String.length (mark "/" p)) r (<[9 := Some (mark "/" p)]> cs')))) →
  ok Q (m path_part (St i (mark "/" p +:+ r) cs) k).
Proof.
  destruct p as [p|]; intros Hp Hr Hk; [by apply ok_path|]. apply ok_group. set (st := St i _ cs).
  set (k1 := λ st', k (capture 9 st st')). set (k2 := λ st1, m (Group 11 (Star (cls ["?"; "#"; "/"]%char))) st1 k1).
  change (ok Q (or_else (m directory (clear [10] st) (λ st', moved st st' (k2 st'))) (k2 st))).
  replace (m directory _ _) with (@None mstate); [|by destruct r as [|c r]; [|destruct c as [[] [] [] [] [] [] [] []]]].
  change (ok Q (m (Star (Chr in_file)) (St i ("" +:+ r) cs) (λ st', k1 (capture 11 st st')))).
  apply ok_star; [done|by apply path_end_stops|]. unfold k1, st. cbn [mark append].
  rewrite (capture_whole 11 "" r), (capture_whole 9 "" r). apply Hk. apply same_captures_insert; [done|lia].
Qed.

Lemma ok_tail p q a i cs k Q :
  opt_forall in_path p = true → opt_forall (none_of ["#"%char]) q = true → opt_forall dot a = true →
  (∀ cs' j, same_captures cs cs' →
     ok Q (k (St j "" (<[8 := Some (mark "/" p +:+ mark "?" q +:+ mark "#" a)]>
                        (set_capture 13 a (set_capture 12 q (<[9 := Some (mark "/" p)]> cs'))))))) →
  ok Q (m (Group 8 (Seq path_part query_anchor)) (St i (mark "/" p +:+ mark "?" q +:+ mark "#" a) cs) k).
Proof.
  intros Hp Hq Ha Hk. apply ok_group. set (st := St i _ cs).
  change (ok Q (m path_part st (λ st', m query_anchor st' (λ st'', k (capture 8 st st''))))). subst st.
  apply ok_path_opt; [done|by destruct q, a|]. intros cs' Hcs. set (st := St i _ cs). set (i1 := i + _).
  match goal with |- ok Q (m query_anchor ?s ?K) => change (ok Q (m (Opt (Seq (lit "?") (Group 12 (Star (cls ["#"%char]))))) s
    (λ st', m (Opt (Seq (lit "#") (Group 13 (Star (Chr dot))))) st' K))) end.
  apply ok_marked; [by apply opt_forall_Some|by destruct a|by destruct a|]. cbv beta.
  rewrite <-(str_app_nil_r (mark "#" a)) at 1. apply ok_marked; [by apply opt_forall_Some|done|done|]. subst st.
  rewrite <-(str_app_nil_r (_ +:+ _ +:+ _)).
  replace (i1 + String.length (mark "?" q) + String.length (mark "#" a)) with
    (i + String.length (mark "/" p +:+ mark "?" q +:+ mark "#" a)) by (unfold i1; rewrite !str_length_app; lia).
  rewrite capture_whole. by apply Hk.
Qed.

Lemma capture_text_eq n t cs : n < length cs → capture_text (<[n := Some t]> cs) n = t.
Proof. intros H. unfold capture_text. by rewrite list_lookup_insert_eq. Qed.

Lemma capture_text_ne n j x cs : n ≠ j → capture_text (<[n := x]> cs) j = capture_text cs j.
Proof. intros H. unfold capture_text. by rewrite list_lookup_insert_ne. Qed.

Lemma capture_text_set_eq n o cs :
  n < length cs → capture_text cs n = "" → capture_text (set_capture n o cs) n = default "" o.
Proof. destruct o; [intros; by apply capture_text_eq|done]. Qed.

Lemma capture_text_set_ne n j o cs : n ≠ j → capture_text (set_capture n o cs) j = capture_text cs j.
Proof. destruct o; [apply capture_text_ne|done]. Qed.

Lemma capture_text_same cs cs' n : same_captures cs cs' → n ≠ 10 → n ≠ 11 → capture_text cs' n = capture_text cs n.
Proof. intros [_ H] ? ?. unfold capture_text. by rewrite H. Qed.

Lemma length_set_capture n o cs : length (set_capture n o cs) = length cs.
Proof. destruct o; [apply length_insert|done]. Qed.

(** The captures of an address, as far as they are read below. *)
Definition captured (s h : string) (o p q a : option string) (cs : list (option string)) : Prop :=
  capture_text cs 1 = s ∧ capture_text cs 2 = h +:+ mark ":" o ∧ capture_text cs 6 = h ∧ capture_text cs 7 = default "" o ∧
  capture_text cs 9 = mark "/" p ∧ capture_text cs 12 = default "" q ∧ capture_text cs 13 = default "" a.

Definition scheme_class : ascii → bool := none_of [":"; "/"; "?"; "#"; "."]%char.
Definition host_class : ascii → bool := none_of [":"; "/"; "?"; "#"]%char.

(** [scheme://host[:port][/path][?query][#anchor]], without a user part. *)
Definition address (s h : string) (o p q a : option string) : string :=
  s +:+ "://" +:+ h +:+ mark ":" o +:+ mark "/" p +:+ mark "?" q +:+ mark "#" a.

Definition address_ok (s h : string) (o p q a : option string) : bool :=
  negb (String.eqb s "") && str_forallb scheme_class s && str_forallb host_class h && opt_forall is_digit o &&
  opt_forall in_path p && opt_forall (none_of ["#"%char]) q && opt_forall dot a && no_at (address s h o p q a).

Lemma captured_address s h o p q a cs cs' x :
  length cs = 14 → capture_text cs 7 = "" → capture_text cs 12 = "" → capture_text cs 13 = "" →
  same_captures (<[2 := Some (h +:+ mark ":" o)]> (set_capture 7 o (<[6 := Some h]> (<[1 := Some s]> cs)))) cs' →
  captured s h o p q a (<[0 := x]> (<[8 := Some (mark "/" p +:+ mark "?" q +:+ mark "#" a)]>
                        (set_capture 13 a (set_capture 12 q (<[9 := Some (mark "/" p)]> cs'))))).
Proof.
  intros Hl H7 H12 H13 Hs. assert (length cs' = 14) as Hl'.
  { destruct Hs as [-> _]. by rewrite length_insert, length_set_capture, !length_insert. }
  unfold captured. repeat split;
    repeat first [rewrite capture_text_ne by lia | rewrite capture_text_set_ne by lia
      | rewrite capture_text_eq by (rewrite ?length_insert, ?length_set_capture, ?length_insert; lia)
      | rewrite capture_text_set_eq; [| rewrite ?length_insert, ?length_set_capture, ?length_insert; lia |]
      | rewrite (capture_text_same _ _ _ Hs) by lia]; done.
Qed.

Lemma ok_slashes b i cs k Q :
  ok Q (k (St (S (S i)) b cs)) → ok Q (m (Opt (Seq (lit "/") (lit "/"))) (St i ("//" +:+ b) cs) k).
Proof.
  intros Hk. apply ok_or_left. set (st := St i _ cs). change (ok Q (moved st (St (S (S i)) b cs) (k (St (S (S i)) b cs)))).
  unfold moved. cbn [pos st]. by rewrite (proj2 (Nat.eqb_neq _ _)) by lia.
Qed.

Lemma no_at_app s t : no_at (s +:+ t) = true → no_at t = true.
Proof. unfold no_at. rewrite str_forallb_app. by intros [_ H]%andb_true_iff. Qed.

Lemma exec_address s h o p q a :
  address_ok s h o p q a = true →
  ∃ cs, exec 14 loose_parser (address s h o p q a) = Some cs ∧ captured s h o p q a cs.
Proof.
  unfold address_ok. rewrite !andb_true_iff, negb_true_iff. intros [[[[[[[Hs0 Hs] Hh] Ho] Hp] Hq] Ha] Hat].
  apply String.eqb_neq in Hs0. set (u := address s h o p q a) in *. set (st0 := St 0 u (replicate 14 None)).
  assert (ok (λ x, captured s h o p q a (caps x)) (match_at 14 loose_parser 0 u)) as (x & Hx & HQ).
  { change (ok (λ x, captured s h o p q a (caps x)) (m (Opt (seqs [no_user_ahead; Group 1 (plus (cls [":"; "/"; "?"; "#"; "."]%char)); lit ":"])) st0
      (λ st1, m (Opt (Seq (lit "/") (lit "/"))) st1 (λ st2, m authority st2
      (λ st3, m (Group 8 (Seq path_part query_anchor)) st3 (λ st', Some (capture 0 st0 st'))))))).
    apply (ok_scheme s); [done..|]. apply ok_slashes.
    apply ok_authority; [done|by apply opt_forall_Some|by destruct p, q, a..|by apply no_at_app in Hat|].
    apply ok_tail; [done..|]. intros cs' j Hcs. eexists. split; [reflexivity|]. unfold capture. cbn [caps].
    by apply (captured_address _ _ _ _ _ _ (replicate 14 None)). }
  exists (caps x). split; [|done]. unfold exec. destruct u; cbn [exec_from]; by rewrite Hx.
Qed.

Lemma uri_get_fields cs qk i k :
  uri_key !! i = Some k → uri_get {| uri_fields := fill_fields cs; queryKey := qk |} k = capture_text cs i.
Proof.
  unfold uri_get, fill_fields. cbn [uri_fields]. generalize (capture_text cs) as f. intros f.
  do 14 (destruct i as [|i]; [intros [= <-]; vm_compute; reflexivity|]). done.
Qed.

(** Parsing an address gives fields that are its captures. *)
Lemma parse_captured s h o p q a :
  address_ok s h o p q a = true →
  ∃ u cs, parseUri (address s h o p q a) = Ret u ∧ captured s h o p q a cs ∧
          ∀ i k, uri_key !! i = Some k → uri_get u k = capture_text cs i.
Proof.
  intros Hok. destruct (exec_address _ _ _ _ _ _ Hok) as (cs & Hcs & Hc). unfold parseUri, parseUri_with. rewrite Hcs.
  eexists _, cs. split; [reflexivity|]. split; [done|]. intros i k. apply uri_get_fields.
Qed.


