(* ===== verification/WebSocketWrapper.v ===== *)
(** * The WebSocket of the white board over the Flash socket (WebSocket-wrapper.js)

    One [WebSocket] object over the sockets of [JSocket]: its closure (the
    parsed address, the protocol, the id of its socket), its [readyState], and
    the record of the events it dispatched, which the code writes to the console.
    What the movie's methods return, the page's location, the functions the page
    assigned to [onopen] and the others, and the dispatch of the DOM element
    that keeps the listeners are parameters; the page's functions may do anything
    with the state, also call [send] and [close]. *)

From Stdlib Require Import SpecFloat.
From S2P Require Import Prelude JSNum JSValue JSON JSocket ParseUri.

Definition CONNECTING : N := 0.
Definition OPEN : N := 1.
Definition CLOSING : N := 2.
Definition CLOSED : N := 3.

(** What the functions of one object close over. *)
Record websocket := { ws_uri : uri; ws_protocol : value; ws_socket : string }.

Record wsworld := {
  ws_js : jsworld;
  readyState : N;
  flashEl_id : option string;        (* set, and the element in the page, by [setup] *)
  ws_iv : bool;                      (* whether the interval is running *)
  ws_events : list (string * value)  (* type and [data] of the dispatched events *)
}.

Definition with_js (j : jsworld) (w : wsworld) : wsworld :=
  {| ws_js := j; readyState := readyState w; flashEl_id := flashEl_id w; ws_iv := ws_iv w; ws_events := ws_events w |}.
Definition set_readyState (n : N) : M wsworld unit := modify (λ w,
  {| ws_js := ws_js w; readyState := n; flashEl_id := flashEl_id w; ws_iv := ws_iv w; ws_events := ws_events w |}).
Definition set_flashEl (id : string) : M wsworld unit := modify (λ w,
  {| ws_js := ws_js w; readyState := readyState w; flashEl_id := Some id; ws_iv := ws_iv w; ws_events := ws_events w |}).
Definition set_iv (b : bool) : M wsworld unit := modify (λ w,
  {| ws_js := ws_js w; readyState := readyState w; flashEl_id := flashEl_id w; ws_iv := b; ws_events := ws_events w |}).
Definition log_event (type : string) (data : value) : M wsworld unit := modify (λ w,
  {| ws_js := ws_js w; readyState := readyState w; flashEl_id := flashEl_id w; ws_iv := ws_iv w;
     ws_events := ws_events w ++ [(type, data)] |}).

(** An operation of the Flash socket. *)
Definition on_js {A} (f : M jsworld A) : M wsworld A := λ w,
  let '(r, j) := f (ws_js w) in (r, with_js j w).

Section wrapper.
Context (has_swfobject : bool).
Context (location_protocol location_host : string).
Context (movie_result : nat → string → list value → value).
Context (on_handler : string → option (value → M wsworld unit)).
Context (eventEl_dispatch : string → value → M wsworld bool).

Definition dispatchEvent (type : string) (data : value) : M wsworld bool :=
  log_event type data;;
  (if existsb (String.eqb type) ["open"; "message"; "error"; "close"] then
     match on_handler type with Some h => h data | None => mret tt end
   else mret tt);;
  (if String.eqb type "close" then set_readyState CLOSED else mret tt);;
  eventEl_dispatch type data.

(** The text of the handshake; [protocol] is [undefined] when not given. *)
Definition request_text (ws : websocket) : res string :=
  let nl := String newline "" in
  let r := "GET " +:+ uri_get (ws_uri ws) "path" +:+ " HTTP/1.1" +:+ nl +:+
           "Upgrade: WebSocket" +:+ nl +:+ "Connection: Upgrade" +:+ nl +:+
           "Host: " +:+ uri_get (ws_uri ws) "host" +:+ ":" +:+ uri_get (ws_uri ws) "port" +:+ nl +:+
           "Origin: " +:+ location_protocol +:+ "://" +:+ location_host +:+ nl in
  r' ← (if truthy (ws_protocol ws)
        then p ← to_string (ws_protocol ws); Ret (r +:+ "WebSocket-Protocol: " +:+ p +:+ nl)
        else Ret r);
  Ret (r' +:+ nl).

Definition SendRequest (ws : websocket) : M wsworld unit :=
  r ← lift (request_text ws);
  on_js (write (ws_socket ws) (VStr r)).

Definition ondata (ws : websocket) (size : value) : M wsworld unit :=
  rs ← gets readyState;
  if (rs =? CONNECTING)%N then
    on_js (readUTFBytes movie_result (ws_socket ws) size);;
    dispatchEvent "open" VUndef;;
    set_readyState OPEN
  else if (rs =? OPEN)%N then
    on_js (readByte movie_result (ws_socket ws));;
    n ← lift (js_sub size (VInt 2));
    data ← on_js (readUTFBytes movie_result (ws_socket ws) n);
    on_js (readByte movie_result (ws_socket ws));;
    dispatchEvent "message" data;;
    mret tt
  else mret tt.

Definition onclose : M wsworld unit := dispatchEvent "close" VUndef;; mret tt.

Definition onready (ws : websocket) : M wsworld unit :=
  on_js (connect (ws_socket ws) (VStr (uri_get (ws_uri ws) "host")) (VStr (uri_get (ws_uri ws) "port"))).

Definition onconnect (ws : websocket) (result : bool) : M wsworld unit :=
  if result then SendRequest ws else dispatchEvent "close" VUndef;; mret tt.

Definition ws_setup (ws : websocket) : M wsworld unit :=
  let tar := "__" +:+ ws_socket ws in
  set_flashEl tar;;
  on_js (setup has_swfobject (ws_socket ws) tar VUndef).

(** [new WebSocket(url, protocol)], with [document.readyState === "complete"]. *)
Definition new_WebSocket (url : string) (protocol : value) (rdy : bool) : M wsworld websocket :=
  u ← lift (parseUri url);
  id ← on_js (new_jSocket true true true true);
  let ws := {| ws_uri := u; ws_protocol := protocol; ws_socket := id |} in
  (if rdy then ws_setup ws else set_iv true);;
  mret ws.

(** The function of the interval. *)
Definition interval_tick (ws : websocket) (rdy : bool) : M wsworld unit :=
  iv ← gets ws_iv;
  if iv && rdy then set_iv false;; ws_setup ws else mret tt.

Definition ws_send (ws : websocket) (data : value) : M wsworld unit :=
  on_js (writeByte (ws_socket ws) (VInt 0));;
  on_js (writeUTFBytes (ws_socket ws) data);;
  on_js (writeByte (ws_socket ws) (VInt 255));;
  on_js (flush movie_result (ws_socket ws));;
  mret tt.

Definition ws_close (ws : websocket) : M wsworld unit :=
  set_readyState CLOSING;;
  on_js (flush movie_result (ws_socket ws));;
  on_js (close (ws_socket ws)).

(** The callbacks of the object's socket. *)
Definition deliver (ws : websocket) (c : user_callback) : M wsworld unit :=
  match c with
  | OnReady => onready ws
  | OnConnect result _ => onconnect ws result
  | OnData size => ondata ws size
  | OnClose => onclose
  end.

(** The callbacks recorded for one socket among some effects. *)
Fixpoint callbacks_of (id : string) (l : list js_effect) : list user_callback :=
  match l with
  | Callback i c :: l' => if String.eqb i id then c :: callbacks_of id l' else callbacks_of id l'
  | _ :: l' => callbacks_of id l'
  | [] => []
  end.

(** The next timer runs, and the callback it makes, which is its last action. *)
Definition ws_timer (ws : websocket) (probe : option nat) (w : wsworld) : wsworld :=
  let j := run_timeout probe (ws_js w) in
  let new := drop (length (js_effects (ws_js w))) (js_effects j) in
  foldl (λ w c, (deliver ws c w).2) (with_js j w) (callbacks_of (ws_socket ws) new).
End wrapper.

(** [if (!"WebSocket" in window)]: the negation applies to the text. *)
Definition installs (window : list string) : bool :=
  match to_string (VBool (negb (truthy (VStr "WebSocket")))) with
  | Ret k => existsb (String.eqb k) window
  | Throw _ => false
  end.
