(* ===== verification/WebSocketFacts.v ===== *)
(** * The WebSocket over the Flash socket: handshake, framing, order of events *)

From Stdlib Require Import SpecFloat.
From S2P Require Import Prelude JSNum JSValue JSON JSocket JSocketFacts ParseUri WebSocketWrapper.

(** What happens to a [WebSocket]: an event of the Flash sockets (among them
    the timers, whose callbacks reach the object), the interval, and the calls of the page. *)
Inductive ws_event :=
| WJs (e : js_event)
| WInterval (rdy : bool)
| WSend (data : value)
| WClose.

Section facts.
Context (has_swfobject : bool).
Context (location_protocol location_host : string).
Context (movie_result : nat → string → list value → value).
Context (on_handler : string → option (value → M wsworld unit)).
Context (eventEl_dispatch : string → value → M wsworld bool).

Definition ws_step (ws : websocket) (w : wsworld) (e : ws_event) : wsworld :=
  match e with
  | WJs (Timer probe) => ws_timer location_protocol location_host movie_result on_handler eventEl_dispatch ws probe w
  | WJs e => with_js (js_step (ws_js w) e) w
  | WInterval rdy => (interval_tick has_swfobject ws rdy w).2
  | WSend data => (ws_send movie_result ws data w).2
  | WClose => (ws_close movie_result ws w).2
  end.

Definition ws_run (ws : websocket) : wsworld → list ws_event → wsworld := foldl (ws_step ws).

(** ** Framing *)

(** The calls of one frame. *)
Definition frame_calls (m : nat) (data : value) : list js_effect :=
  [MovieCall m "writeByte" [VInt 0]; MovieCall m "writeUTFBytes" [data]; MovieCall m "writeByte" [VInt 255]; MovieCall m "flush" []].

Definition emit_all (es : list js_effect) (w : wsworld) : wsworld :=
  with_js {| js_swf := js_swf (ws_js w); last_id := last_id (ws_js w); sockets := sockets (ws_js w);
             timeouts := timeouts (ws_js w); js_effects := js_effects (ws_js w) ++ es |} w.

(** The movie of a connected socket. *)
Definition live_movie (ws : websocket) (w : wsworld) : option nat :=
  match assoc (ws_socket ws) (sockets (ws_js w)) with
  | Some s => if js_connected s then js_movie s else None
  | None => None
  end.

Lemma on_js_void ws w method args m :
  live_movie ws w = Some m →
  on_js (movie_void method (ws_socket ws) args) w = (Ret tt, emit_all [MovieCall m method args] w).
Proof.
  unfold live_movie, on_js, movie_void, assertConnected, socket_at, mbind, M_bind. intros H.
  destruct (assoc _ _) as [s|] eqn:E; [|done]. cbn. destruct (js_connected s); [|done]. by rewrite H.
Qed.

Lemma on_js_return ws w method args m :
  live_movie ws w = Some m →
  on_js (movie_return movie_result method (ws_socket ws) args) w =
  (Ret (movie_result m method args), emit_all [MovieCall m method args] w).
Proof.
  unfold live_movie, on_js, movie_return, assertConnected, socket_at, mbind, M_bind. intros H.
  destruct (assoc _ _) as [s|] eqn:E; [|done]. cbn. destruct (js_connected s); [|done]. by rewrite H.
Qed.

Lemma live_emit ws w es : live_movie ws (emit_all es w) = live_movie ws w.
Proof. done. Qed.

Lemma emit_all_app es fs w : emit_all fs (emit_all es w) = emit_all (es ++ fs) w.
Proof. unfold emit_all, with_js. cbn. by rewrite app_assoc. Qed.

Lemma send_outcome ws data w :
  match live_movie ws w with
  | Some m => ws_send movie_result ws data w = (Ret tt, emit_all (frame_calls m data) w)
  | None => ∃ e, ws_send movie_result ws data w = (Throw e, w)
  end.
Proof.
  destruct (live_movie ws w) as [m|] eqn:E.
  - unfold ws_send, writeByte, writeUTFBytes, flush. unfold mbind, M_bind.
    rewrite (on_js_void ws w _ _ m), (on_js_void ws _ _ _ m), (on_js_void ws _ _ _ m), (on_js_return ws _ _ _ m)
      by (rewrite ?live_emit; done).
    by rewrite !emit_all_app.
  - assert (∃ e, on_js (writeByte (ws_socket ws) (VInt 0)) w = (Throw e, w)) as [e He].
    { revert E. unfold live_movie, on_js, writeByte, movie_void, assertConnected, socket_at, mbind, M_bind.
      destruct (assoc _ _) as [s|]; [cbn; destruct (js_connected s), (js_movie s); try done|]; intros _;
        eexists; destruct w; reflexivity. }
    unfold ws_send. unfold mbind, M_bind. rewrite He. by exists e.
Qed.

(** On a connected socket [send] writes one frame, the byte 0, the text as
    UTF-8 and the byte 255, and flushes it; on any other it throws, and nothing
    is written. *)
Theorem send_frames ws data w :
  match live_movie ws w with
  | Some m => ws_send movie_result ws data w = (Ret tt, emit_all (frame_calls m data) w)
  | None => (∃ e, (ws_send movie_result ws data w).1 = Throw e) ∧ (ws_send movie_result ws data w).2 = w
  end.
Proof.
  pose proof (send_outcome ws data w) as H. destruct (live_movie ws w); [done|]. destruct H as [e ->]. by split; [exists e|].
Qed.

(** ** The order of events *)

(** What code of the page does: it returns, dispatches no event itself, and
    leaves [readyState] alone or calls [close]. *)
Definition well_behaved {A} (f : M wsworld A) : Prop := ∀ w,
  (∃ a, (f w).1 = Ret a) ∧ ws_events (f w).2 = ws_events w ∧
  (readyState (f w).2 = readyState w ∨ readyState (f w).2 = CLOSING).

Definition page_ok : Prop :=
  (∀ t h d, on_handler t = Some h → well_behaved (h d)) ∧ ∀ t d, well_behaved (eventEl_dispatch t d).

Definition event_types (w : wsworld) : list string := (ws_events w).*1.

(** At most one [open], messages only after it, and no message after a [close]. *)
Definition life (opened : bool) (n m : nat) : list string :=
  (if opened then "open" :: replicate n "message" else []) ++ replicate m "close".

Definition in_life (w : wsworld) : Prop :=
  ∃ o n m, event_types w = life o n m ∧
    (readyState w = CONNECTING → o = false ∧ m = 0) ∧ (readyState w = OPEN → o = true ∧ m = 0).

Lemma in_life_same w w' :
  ws_events w' = ws_events w → readyState w' = readyState w ∨ readyState w' = CLOSING → in_life w → in_life w'.
Proof.
  intros He Hr (o & n & m & Ht & H0 & H1). exists o, n, m. unfold event_types in *. rewrite He. split; [done|].
  destruct Hr as [-> | ->]; [done|]. by split.
Qed.

Lemma life_close o n m : life o n m ++ ["close"] = life o n (S m).
Proof. unfold life. by rewrite <-app_assoc, <-replicate_S_end. Qed.

Lemma life_message n : life true n 0 ++ ["message"] = life true (S n) 0.
Proof. unfold life. cbn [replicate]. rewrite !app_nil_r. cbn [app]. by rewrite <-replicate_S_end. Qed.

Section page.
Context (Hpage : page_ok).

Lemma dispatch_ok t d w :
  let w' := (dispatchEvent on_handler eventEl_dispatch t d w).2 in
  (∃ b, (dispatchEvent on_handler eventEl_dispatch t d w).1 = Ret b) ∧ ws_events w' = ws_events w ++ [(t, d)] ∧
  (readyState w' = (if String.eqb t "close" then CLOSED else readyState w) ∨ readyState w' = CLOSING).
Proof.
  destruct Hpage as [Hh Hd]. unfold dispatchEvent. set (f := if existsb _ _ then _ else _).
  assert (well_behaved f) as Hf.
  { unfold f. destruct (existsb _ _); [destruct (on_handler t) as [h|] eqn:E; [by apply (Hh t)|]|]; intros w0; by eauto. }
  unfold log_event, modify. unfold mbind, M_bind. set (w1 := {| ws_events := _ |}).
  destruct (Hf w1) as ([[] E1] & E2 & E3). destruct (f w1) as [r w2]. cbn [fst snd] in *. rewrite E1.
  destruct (String.eqb t "close").
  - unfold set_readyState, modify. set (w3 := {| ws_events := _ |}). destruct (Hd t d w3) as (Hb & -> & Hr).
    split; [done|]. split; [exact E2|done].
  - unfold mret, M_ret. destruct (Hd t d w2) as (Hb & -> & Hr). split; [done|]. split; [done|].
    destruct Hr as [-> |]; [done|by right].
Qed.

(** Code that dispatches nothing and leaves [readyState] alone. *)
Definition silent {A} (f : M wsworld A) : Prop := ∀ w,
  ws_events (f w).2 = ws_events w ∧ readyState (f w).2 = readyState w.

Lemma silent_on_js {A} (f : M jsworld A) : silent (on_js f).
Proof. intros w. unfold on_js. by destruct (f (ws_js w)). Qed.

Lemma silent_bind {A B} (f : M wsworld A) (g : A → M wsworld B) : silent f → (∀ a, silent (g a)) → silent (f ≫= g).
Proof.
  intros Hf Hg w. unfold mbind, M_bind. specialize (Hf w). destruct (f w) as [[a|e] w1]; [|done].
  cbn [snd] in *. destruct (Hg a w1) as [-> ->]. done.
Qed.

Lemma silent_pure {A} (f : M wsworld A) : (∀ w, (f w).2 = w) → silent f.
Proof. intros H w. by rewrite H. Qed.

(** Silent code, then code that keeps the order of events. *)
Definition keeps_life {A} (f : M wsworld A) : Prop := ∀ w, in_life w → in_life (f w).2.

Lemma silent_keeps {A} (f : M wsworld A) : silent f → keeps_life f.
Proof. intros H w. destruct (H w) as [He Hr]. apply in_life_same; [done|by left]. Qed.

Lemma close_keeps : keeps_life (dispatchEvent on_handler eventEl_dispatch "close" VUndef).
Proof.
  intros w (o & n & m & Ht & _). destruct (dispatch_ok "close" VUndef w) as (_ & He & Hr).
  exists o, n, (S m). unfold event_types in *. rewrite He, fmap_app, Ht. split; [apply life_close|].
  destruct Hr as [-> | ->]; by split.
Qed.

Lemma ret_keeps {A} (f : M wsworld A) : keeps_life f → keeps_life (f;; mret tt).
Proof.
  intros Hf w Hw. specialize (Hf w Hw). unfold mbind, M_bind. by destruct (f w) as [[a|e] w1].
Qed.

Lemma open_keeps w :
  in_life w → readyState w = CONNECTING →
  in_life ((dispatchEvent on_handler eventEl_dispatch "open" VUndef;; set_readyState OPEN) w).2.
Proof.
  intros (o & n & m & Ht & H0 & _) Hr. destruct (H0 Hr) as [-> ->]. destruct (dispatch_ok "open" VUndef w) as ([b Hb] & He & _).
  unfold mbind, M_bind. destruct (dispatchEvent _ _ _ _ w) as [r w1]. cbn [fst snd] in *. rewrite Hb.
  exists true, 0, 0. unfold event_types in *. cbn. rewrite He, fmap_app, Ht. by split.
Qed.

Lemma message_keeps d w :
  in_life w → readyState w = OPEN → in_life (dispatchEvent on_handler eventEl_dispatch "message" d w).2.
Proof.
  intros (o & n & m & Ht & _ & H1) Hr. destruct (H1 Hr) as [-> ->]. destruct (dispatch_ok "message" d w) as (_ & He & Hr').
  exists true, (S n), 0. unfold event_types in *. rewrite He, fmap_app, Ht. split; [apply life_message|].
  cbn in Hr'. rewrite Hr in Hr'. destruct Hr' as [-> | ->]; by split.
Qed.

Lemma silent_then {A B} (f : M wsworld A) (g : A → M wsworld B) n w :
  silent f → readyState w = n → in_life w →
  (∀ a w', readyState w' = n → in_life w' → in_life (g a w').2) → in_life ((f ≫= g) w).2.
Proof.
  intros Hf Hn Hw Hg. pose proof (silent_keeps f Hf w Hw). destruct (Hf w) as [_ Hr].
  unfold mbind, M_bind. destruct (f w) as [[a|e] w1]; cbn [snd] in *; [|done]. apply Hg; [congruence|done].
Qed.

Lemma ondata_keeps ws size : keeps_life (ondata movie_result on_handler eventEl_dispatch ws size).
Proof.
  intros w Hw. unfold ondata, gets. unfold mbind at 1, M_bind at 1.
  destruct (N.eqb_spec (readyState w) CONNECTING) as [E0|_]; [|destruct (N.eqb_spec (readyState w) OPEN) as [E1|_]; [|done]].
  - apply (silent_then _ _ CONNECTING); [apply silent_on_js|done|done|]. intros _ w' Hr Hw'. by apply open_keeps.
  - apply (silent_then _ _ OPEN); [apply silent_on_js|done|done|]. intros _ w1 H1 Hw1.
    apply (silent_then _ _ OPEN); [by apply silent_pure|done|done|]. intros x w2 H2 Hw2.
    apply (silent_then _ _ OPEN); [apply silent_on_js|done|done|]. intros d w3 H3 Hw3.
    apply (silent_then _ _ OPEN); [apply silent_on_js|done|done|]. intros _ w4 H4 Hw4.
    pose proof (message_keeps d w4 Hw4 H4). unfold mbind, M_bind. by destruct (dispatchEvent _ _ _ _ w4) as [[]].
Qed.

Lemma deliver_keeps ws c : keeps_life (deliver location_protocol location_host movie_result on_handler eventEl_dispatch ws c).
Proof.
  destruct c as [|[] d|d|]; cbn [deliver].
  - apply silent_keeps, silent_on_js.
  - apply silent_keeps, silent_bind; [by apply silent_pure|]. intros r. apply silent_on_js.
  - apply ret_keeps, close_keeps.
  - apply ondata_keeps.
  - apply ret_keeps, close_keeps.
Qed.

Lemma ws_setup_silent ws : silent (ws_setup has_swfobject ws).
Proof. apply silent_bind; [by intros w|]. intros _. apply silent_on_js. Qed.

Lemma step_keeps ws e w : in_life w → in_life (ws_step ws w e).
Proof.
  intros Hw. destruct e as [e|rdy|d|]; cbn [ws_step].
  - destruct e as [| | | | | | |probe]; [by apply (in_life_same w); [|left|]..|]. unfold ws_timer.
    set (cs := callbacks_of _ _). assert (in_life (with_js (run_timeout probe (ws_js w)) w)) as H
      by (by apply (in_life_same w); [|left|]).
    revert H. generalize (with_js (run_timeout probe (ws_js w)) w). induction cs as [|c cs IH]; intros w1 H1; [done|].
    cbn [foldl]. apply IH. by apply deliver_keeps.
  - revert Hw. apply silent_keeps, silent_bind; [by apply silent_pure|]. intros iv.
    destruct (iv && rdy); [|by apply silent_pure]. apply silent_bind; [by intros w1|]. intros _. apply ws_setup_silent.
  - revert Hw. apply silent_keeps. repeat (apply silent_bind; [apply silent_on_js|intros _]). by apply silent_pure.
  - unfold ws_close, set_readyState, modify. unfold mbind at 1, M_bind at 1. set (w1 := {| ws_events := _ |}).
    apply (silent_keeps (_ ≫= _)); [|by apply (in_life_same w); [|right|]].
    apply silent_bind; [apply silent_on_js|intros _; apply silent_on_js].
Qed.
End page.


(** ** The handshake *)

(** The effects so far, the waiting timers, and the object's socket. *)
Definition stage (sid : string) (w : wsworld) (es : list js_effect) (ts : list task) (s : jsocket) : Prop :=
  js_effects (ws_js w) = es ∧ timeouts (ws_js w) = ts ∧ assoc sid (sockets (ws_js w)) = Some s.

Definition full_socket (sid : string) (t : option string) (m : option nat) (c : bool) : jsocket :=
  {| js_id := sid; js_target := t; js_movie := m; js_connected := c;
     has_onReady := true; has_onConnect := true; has_onData := true; has_onClose := true |}.

Lemma stage_new url protocol u w :
  has_swfobject = true → parseUri url = Ret u → timeouts (ws_js w) = [] →
  let sid := socket_id (last_id (ws_js w) + 1) in
  let ws := {| ws_uri := u; ws_protocol := protocol; ws_socket := sid |} in
  ∃ w', new_WebSocket has_swfobject url protocol true w = (Ret ws, w') ∧
    stage sid w' (js_effects (ws_js w) ++ [EmbedSWF
       (js_swf (ws_js w) +:+ "?" +:+ sid) ("__" +:+ sid) "0" "0" "9.0.0" "expressInstall.swf"])
      [] (full_socket sid (Some ("__" +:+ sid)) None false).
Proof.
  intros Hswf Hu Ht sid ws. unfold new_WebSocket, lift, on_js, new_jSocket. unfold mbind, M_bind. rewrite Hu.
  cbn [ws_js]. fold sid. fold ws. unfold ws_setup, set_flashEl, modify, on_js, setup. rewrite Hswf. cbn [negb].
  unfold mbind, M_bind, socket_at. cbn [ws_js sockets with_js ws_socket ws]. clearbody sid.
  rewrite assoc_prop_put, String.eqb_refl. cbn. rewrite assoc_prop_put, String.eqb_refl. cbn.
  eexists. split; [reflexivity|]. split; [done|split; [done|]]. cbn.
  by rewrite assoc_update_eq, assoc_prop_put, String.eqb_refl.
Qed.

(** The movie reports that it is loaded, and is found and usable. *)
Lemma stage_init ws w es t m :
  let sid := ws_socket ws in
  stage sid w es [] (full_socket sid t None false) →
  stage sid (ws_run ws w [WJs (Flash "init" sid VUndef); WJs (Timer None); WJs (Timer (Some m))])
    (es ++ [Callback sid OnReady;
            MovieCall m "connect" [VStr (uri_get (ws_uri ws) "host"); VStr (uri_get (ws_uri ws) "port")]])
    [] (full_socket sid t (Some m) false).
Proof.
  intros sid (He & Ht & Hs). destruct w as [[swf lid l ts efs] rs fl iv evs]. cbn in He, Ht, Hs. subst ts efs.
  cbn [ws_run foldl ws_step]. unfold ws_timer, run_timeout. cbn. rewrite drop_all. cbn. unfold init_poll. cbn.
  rewrite Hs. unfold with_timeouts, update_socket, emit, modify, with_sockets. unfold mbind, M_bind. cbn. rewrite Hs, drop_app_length. cbn. fold sid. rewrite String.eqb_refl. cbn.
  unfold onready, on_js, connect, socket_at. unfold mbind, M_bind. cbn. fold sid.
  rewrite assoc_update_eq, Hs. cbn. rewrite <-app_assoc. split_and!; [done|done|].
  cbn. by rewrite assoc_update_eq, Hs.
Qed.

(** The movie reports the connection. *)
Lemma stage_connect ws w es t m r :
  let sid := ws_socket ws in
  request_text location_protocol location_host ws = Ret r →
  stage sid w es [] (full_socket sid t (Some m) false) →
  stage sid (ws_run ws w [WJs (Flash "connect" sid VUndef); WJs (Timer None)])
    (es ++ [Callback sid (OnConnect true VUndef); MovieCall m "write" [VStr r]])
    [] (full_socket sid t (Some m) true).
Proof.
  intros sid Hr (He & Ht & Hs). destruct w as [[swf lid l ts efs] rs fl iv evs]. cbn in He, Ht, Hs. subst ts efs.
  cbn [ws_run foldl ws_step]. unfold ws_timer, run_timeout. cbn. unfold executeFlashCallback, socket_at. cbn.
  unfold mbind, M_bind. cbn. rewrite Hs. unfold with_timeouts, update_socket, emit, modify, with_sockets. cbn. rewrite Hs, drop_app_length. cbn. fold sid. rewrite String.eqb_refl. cbn.
  unfold SendRequest, lift, on_js, write, assertConnected, socket_at. unfold mbind, M_bind. rewrite Hr. cbn. fold sid.
  rewrite assoc_update_eq, Hs. cbn. rewrite <-app_assoc. split_and!; [done|done|].
  cbn. by rewrite assoc_update_eq, Hs.
Qed.

(** What the page asked for, as lines of the request. *)
Definition handshake_lines (h port p protocol : string) : list string :=
  ["GET /" +:+ p +:+ " HTTP/1.1"; "Upgrade: WebSocket"; "Connection: Upgrade"; "Host: " +:+ h +:+ ":" +:+ port;
   "Origin: " +:+ location_protocol +:+ "://" +:+ location_host] ++
  (if String.eqb protocol "" then [] else ["WebSocket-Protocol: " +:+ protocol]) ++ [""].

Lemma request_lines ws h port p protocol :
  uri_get (ws_uri ws) "host" = h → uri_get (ws_uri ws) "port" = port → uri_get (ws_uri ws) "path" = String "/" p →
  ws_protocol ws = VStr protocol →
  request_text location_protocol location_host ws = Ret (concat_lines (handshake_lines h port p protocol)).
Proof.
  intros Hh Ho Hp Hpr. unfold request_text. rewrite Hh, Ho, Hp, Hpr. cbn [truthy to_string].
  unfold handshake_lines. destruct (String.eqb protocol ""); cbn [negb]; unfold mbind, res_bind; f_equal;
    cbn [app concat_lines]; repeat (cbn [append]; rewrite ?str_app_assoc; f_equal).
Qed.

End facts.

(** ** A session *)

Definition plain_movie (m : nat) (method : string) (args : list value) : value :=
  if String.eqb method "readUTFBytes" then VStr "hello" else VInt 0.

Definition fresh_world : wsworld :=
  {| ws_js := js_initial; readyState := CONNECTING; flashEl_id := None; ws_iv := false; ws_events := [] |}.


(** A page that answers the [open] event with a message, whatever the outcome. *)
Definition greeting_page (sid : string) (t : string) : option (value → M wsworld unit) :=
  if String.eqb t "open"
  then Some (λ _, try_catch (ws_send plain_movie {| ws_uri := {| uri_fields := []; queryKey := [] |}; ws_protocol := VUndef; ws_socket := sid |} (VStr "hi"))
                            (λ _, mret tt))
  else None.

Lemma greeting_page_ok sid : page_ok (greeting_page sid) (λ _ _, mret true).
Proof.
  split; [|intros t d w; by eauto]. intros t h d. unfold greeting_page. destruct (String.eqb t "open"); [|done].
  intros [= <-] w. set (ws := {| ws_socket := sid |}). unfold try_catch. pose proof (send_outcome plain_movie ws (VStr "hi") w) as H.
  destruct (live_movie ws w) as [m|].
  - rewrite H. cbn. by eauto.
  - destruct H as [e ->]. cbn. by eauto.
Qed.

Definition session_socket : websocket :=
  {| ws_uri := {| uri_fields := []; queryKey := [] |}; ws_protocol := VUndef; ws_socket := "jSocket_1" |}.

(** The movie finds its way, connects, answers the handshake, sends one frame and closes. *)
Definition session : list ws_event :=
  let flash name data := [WJs (Flash name "jSocket_1" data); WJs (Timer None)] in
  flash "init" VUndef ++ [WJs (Timer (Some 7))] ++ flash "connect" VUndef ++ flash "data" (VInt 80) ++
  flash "data" (VInt 7) ++ flash "close" VUndef ++ flash "data" (VInt 7).

Definition session_start : wsworld := (on_js (new_jSocket true true true true) fresh_world).2.


(** ** Where the object departs from a WebSocket *)

(** A page that closes the socket when it opens. *)
Definition closing_page (t : string) : option (value → M wsworld unit) :=
  if String.eqb t "open" then Some (λ _, ws_close plain_movie session_socket) else None.

(** A [close] in the page's [onopen] is lost: the handler of the data sets
    [OPEN] after the event was dispatched, over the [CLOSING] of [close]. *)
Theorem close_in_onopen_lost :
  readyState (ws_run true "http:" "board.example.com" plain_movie closing_page (λ _ _, mret true)
    session_socket session_start (take 7 session)) = OPEN.
Proof. vm_compute. reflexivity. Qed.

(** The object is not installed where the browser has no WebSocket, unless
    the window has a property called [false]. *)
Theorem wrapper_not_installed window : "false" ∉ window → installs window = false.
Proof.
  intros H. change (installs window) with (existsb (String.eqb "false") window). apply Bool.not_true_iff_false. intros Hx.
  apply existsb_exists in Hx as (k & Hk & <-%String.eqb_eq). by apply H, list_elem_of_In.
Qed.
