(* ===== verification/JQueryCore.v ===== *)
(** * Core functions of jQuery (jquery-1.9.1.js)

    Types, [extend], [each], and the functions on arrays, on the values of
    [JSValue].  Values are trees: an object is never part of itself, so the test
    of [extend] against endless loops never applies, and two objects are never the
    same object.  A function is known by its name; what a callback does is a
    parameter. *)

From Stdlib Require Import SpecFloat.
From S2P Require Import Prelude JSNum JSValue JSON.

(** ** Types *)

Definition isFunction (v : value) : bool := match v with VFun _ => true | _ => false end.
Definition isArray (v : value) : bool := match v with VObj true _ => true | _ => false end.

(** [jQuery.type(obj)] *)
Definition jq_type (v : value) : string :=
  match v with
  | VUndef => "undefined" | VNull => "null"
  | VObj true _ => "array" | VObj false _ => "object"
  | _ => typeof v
  end.

(** [jQuery.isWindow(obj)] *)
Definition isWindow (v : value) : res bool :=
  match v with
  | VUndef | VNull => Ret false
  | _ => w ← get v "window"; loose_eq v w
  end.

(** [jQuery.isPlainObject(obj)]: no object made by another constructor is a tree. *)
Definition isPlainObject (v : value) : res bool :=
  match v with
  | VObj false ps =>
      n ← get v "nodeType";
      if truthy n then Ret false else w ← isWindow v; Ret (negb (w : bool))
  | _ => Ret false
  end.

(** The enumerable properties. *)
Fixpoint char_props (i : N) (s : string) : list (string * value) :=
  match s with
  | EmptyString => []
  | String c s' => (dec_of_N i, VStr (String c "")) :: char_props (i + 1) s'
  end.

Definition own_props (v : value) : list (string * value) :=
  match v with
  | VObj _ ps => ps
  | VStr s => char_props 0 s
  | _ => []
  end.

Definition isEmptyObject (v : value) : bool := match own_props v with [] => true | _ => false end.

(** [k in v] *)
Definition has_property (v : value) (k : string) : res bool :=
  match v with
  | VObj arr ps => Ret (bool_decide (is_Some (assoc k ps)) || (arr && String.eqb k "length") || bool_decide (k ∈ object_proto))
  | VFun _ => Ret (bool_decide (k ∈ object_proto))
  | _ => Throw TypeError
  end.

(** [isArraylike(obj)] *)
Definition isArraylike (v : value) : res bool :=
  len ← get v "length";
  win ← isWindow v;
  if (win : bool) then Ret false
  else
    node ← get v "nodeType";
    if match node with VNum n => num_eqb n (num_of_Z 1) | _ => false end && truthy len then Ret true
    else if isArray v then Ret true
    else if isFunction v then Ret false
    else match len with
         | VNum n =>
             if num_eqb n (num_of_Z 0) then Ret true
             else if num_ltb (num_of_Z 0) n then has_property v (num_to_string (num_sub n (num_of_Z 1)))
             else Ret false
         | _ => Ret false
         end.

(** ** extend *)

(** [target[name]] for a target that is an object. *)
Definition src_of (target : value) (name : string) : value :=
  match get target name with Ret v => v | Throw _ => VUndef end.

(** The object a nested object is merged into. *)
Definition clone_for (array : bool) (src : value) : res value :=
  if array then Ret (if isArray src then src else VObj true [])
  else p ← isPlainObject src; Ret (if (p : bool) then src else VObj false []).

(** One round of [for (name in options)]; [rec] extends an object from [copy]. *)
Definition extend_prop (deep : bool) (target : value) (name : string) (copy : value) (rec : value → res value) : res value :=
  plain ← (if deep then isPlainObject copy else Ret false);
  if deep && ((plain : bool) || isArray copy) then
    clone ← clone_for (isArray copy) (src_of target name);
    merged ← rec clone;
    Ret (put target name merged)
  else match copy with VUndef => Ret target | _ => Ret (put target name copy) end.

Fixpoint extend_props (deep : bool) (l : list (string * (value * (value → res value)))) (target : value) : res value :=
  match l with
  | [] => Ret target
  | (name, (copy, rec)) :: l' => target' ← extend_prop deep target name copy rec; extend_props deep l' target'
  end.

(** The loop over one argument [options], into an object [target]. *)
Fixpoint extend_from (deep : bool) (options target : value) {struct options} : res value :=
  match options with
  | VObj _ ps => extend_props deep (List.map (λ kv, (kv.1, (kv.2, extend_from deep kv.2))) ps) target
  | VStr s => Ret (foldl (λ t kv, put t kv.1 kv.2) target (char_props 0 s))
  | _ => Ret target
  end.

(** [jQuery.extend(args)]; without an object to extend it extends [self]. *)
Definition jq_extend (self : value) (args : list value) : res value :=
  let arg i := default VUndef (args !! i) in
  let or_object v := if truthy v then v else VObj false [] in
  let '(deep, target, i) :=
    match or_object (arg 0) with
    | VBool b => (b, or_object (arg 1), 2)
    | t => (false, t, 1)
    end in
  let target := match target with VObj _ _ | VFun _ => target | _ => VObj false [] end in
  let '(target, i) := if (length args =? i)%nat then (self, (i - 1)%nat) else (target, i) in
  foldl (λ t o, t' ← t; extend_from deep o t') (Ret target) (drop i args).

Example extend_ex :
  jq_extend VUndef [VBool true; VObj false [];
                    VObj false [("a", VObj false [("x", VInt 1); ("y", VInt 2)]); ("b", VInt 3)];
                    VObj false [("a", VObj false [("y", VInt 9)]); ("b", VUndef); ("c", VObj true [("0", VInt 1)])]] =
  Ret (VObj false [("a", VObj false [("x", VInt 1); ("y", VInt 9)]); ("b", VInt 3); ("c", VObj true [("0", VInt 1)])]).
Proof. vm_compute. reflexivity. Qed.

(** ** Iteration *)

(** How often [for (i = 0; i < length; i++)] runs. *)
Definition rounds (n : num) : N :=
  match n with
  | S754_finite false m e => if (0 <=? e)%Z then Z.to_N (Z.pos m * 2 ^ e) else Z.to_N (- (Z.neg m / 2 ^ (- e)))
  | _ => 0
  end.

(** The pairs [each] goes through: the indices of an array, or the keys of an object. *)
Definition each_items (v : value) : res (list (value * value)) :=
  len ← get v "length";
  arr ← isArraylike v;
  if (arr : bool) then
    Ret (match len with
         | VNum n => (λ i, (VInt (Z.of_nat i), src_of v (dec_of_N (N.of_nat i)))) <$> seq 0 (N.to_nat (rounds n))
         | _ => []
         end)
  else Ret ((λ kv, (VStr kv.1, kv.2)) <$> own_props v).

Section iteration.
Context {St : Type}.
Context (callback : value → value → M St value).

(** The loop, which ends early when the callback returns [false]. *)
Fixpoint each_loop (l : list (value * value)) : M St unit :=
  match l with
  | [] => mret tt
  | (i, v) :: l' =>
      r ← callback i v;
      match r with VBool false => mret tt | _ => each_loop l' end
  end.

(** [jQuery.each(obj, callback)] *)
Definition each (v : value) : M St unit := items ← lift (each_items v); each_loop items.

(** [jQuery.grep(elems, callback, inv)] *)
Fixpoint grep_loop (inv : bool) (i : nat) (elems : list value) : M St (list value) :=
  match elems with
  | [] => mret []
  | v :: l =>
      r ← callback v (VInt (Z.of_nat i));
      rest ← grep_loop inv (S i) l;
      mret (if Bool.eqb inv (truthy r) then rest else v :: rest)
  end.
Definition grep (elems : list value) (inv : bool) : M St (list value) := grep_loop inv 0 elems.

(** The elements of an array, holes as [undefined]. *)
Definition elements (v : value) : list value :=
  match v with
  | VObj true ps => (λ i, default VUndef (assoc (dec_of_N (N.of_nat i)) ps)) <$> seq 0 (N.to_nat (arr_len ps))
  | _ => [v]
  end.

(** [jQuery.map(elems, callback)]: [null] and [undefined] are left out, arrays are spliced in. *)
Fixpoint map_loop (l : list (value * value)) : M St (list value) :=
  match l with
  | [] => mret []
  | (i, v) :: l' =>
      r ← callback v i;
      rest ← map_loop l';
      mret (match r with VUndef | VNull => rest | _ => elements r ++ rest end)
  end.
Definition jq_map (v : value) : M St (list value) := items ← lift (each_items v); map_loop items.
End iteration.

(** ** Arrays and texts *)

(** [jQuery.trim(text)] *)
Definition trim (v : value) : res string :=
  match v with
  | VUndef | VNull => Ret ""
  | _ => s ← to_string v; Ret (rtrim (ltrim s))
  end.

(** [===] where the values are not the same object. *)
Definition strict_eq (a b : value) : bool :=
  match a, b with
  | VUndef, VUndef | VNull, VNull => true
  | VBool x, VBool y => Bool.eqb x y
  | VNum x, VNum y => num_eqb x y
  | VStr s, VStr t => String.eqb s t
  | VFun f, VFun g => String.eqb f g
  | _, _ => false
  end.

(** [jQuery.inArray(elem, arr, i)] for a start within the array. *)
Fixpoint inArray_from (elem : value) (i : nat) (arr : list value) : Z :=
  match arr with
  | [] => -1
  | v :: l => if strict_eq v elem then Z.of_nat i else inArray_from elem (S i) l
  end.
Definition inArray (elem : value) (arr : list value) (i : nat) : Z := inArray_from elem i (drop i arr).

(** [jQuery.merge(first, second)] on arrays. *)
Definition merge (first second : list value) : list value := first ++ second.

(** [jQuery.makeArray(arr)]; a text counts as one element. *)
Definition makeArray (v : value) : res (list value) :=
  match v with
  | VUndef | VNull => Ret []
  | VStr _ => Ret [v]
  | VObj _ _ =>
      arr ← isArraylike v;
      if (arr : bool) then items ← each_items v; Ret (merge [] items.*2) else Ret [v]
  | _ => Ret [v]
  end.

(** ** What [extend] computes *)

(** Trees without the properties that mark a DOM node or a window. *)
Fixpoint ordinary (v : value) : bool :=
  match v with
  | VObj _ ps => forallb (λ kv, negb (String.eqb kv.1 "window") && negb (String.eqb kv.1 "nodeType") && ordinary kv.2) ps
  | _ => true
  end.

Lemma ordinary_props arr ps : ordinary (VObj arr ps) = true ↔
  Forall (λ kv, kv.1 ≠ "window" ∧ kv.1 ≠ "nodeType" ∧ ordinary kv.2 = true) ps.
Proof.
  cbn [ordinary]. rewrite forallb_forall, Forall_forall. split; intros H kv Hkv; specialize (H kv).
  - apply list_elem_of_In in Hkv. specialize (H Hkv). rewrite !andb_true_iff, !negb_true_iff, !String.eqb_neq in H. tauto.
  - rewrite !andb_true_iff, !negb_true_iff, !String.eqb_neq. apply list_elem_of_In in Hkv. specialize (H Hkv). tauto.
Qed.

Lemma ordinary_assoc arr ps k v : ordinary (VObj arr ps) = true → assoc k ps = Some v → ordinary v = true.
Proof. rewrite ordinary_props, Forall_forall. intros H Hk%assoc_elem. by apply (H (k, v)). Qed.

Lemma isPlainObject_ordinary ps : ordinary (VObj false ps) = true → isPlainObject (VObj false ps) = Ret true.
Proof.
  intros H. assert (∀ k, k = "window" ∨ k = "nodeType" → assoc k ps = None) as Hn.
  { intros k Hk. apply assoc_None. intros (kv & -> & Hkv)%list_elem_of_fmap. rewrite ordinary_props, Forall_forall in H.
    destruct (H kv Hkv) as (? & ? & _). naive_solver. }
  unfold isPlainObject, isWindow. cbn [get]. rewrite !Hn by auto. done.
Qed.

Lemma prop_put_elem {V} k (v : V) ps kv : kv ∈ prop_put k v ps → kv = (k, v) ∨ kv ∈ ps.
Proof.
  unfold prop_put. assert (∀ l, kv ∈ assoc_update k v l → kv = (k, v) ∨ kv ∈ l) as Hu.
  { induction l as [|[k' v'] l IH]; csimpl; [set_solver|]. destruct (String.eqb k k') eqn:E; bool_prop; subst; set_solver. }
  assert (∀ n l, kv ∈ insert_index n k v l → kv = (k, v) ∨ kv ∈ l) as Hi.
  { intros n. induction l as [|[k' v'] l IH]; cbn [insert_index]; [set_solver|].
    destruct (index_of k') as [m|]; [destruct (m <? n)%N|]; set_solver. }
  destruct (assoc k ps); [apply Hu|]. destruct (index_of k); [apply Hi|]. set_solver.
Qed.

Lemma ordinary_put arr ps k v :
  ordinary (VObj arr ps) = true → ordinary v = true → k ≠ "window" → k ≠ "nodeType" → ordinary (put (VObj arr ps) k v) = true.
Proof.
  cbn [put]. rewrite !ordinary_props, !Forall_forall. intros H Hv Hw Hn kv [->|Hkv]%prop_put_elem; [done|]. by apply H.
Qed.

(** The object the value [copy] of a key is merged into. *)
Definition clone_of (ca : bool) (src : option value) : value :=
  match src with
  | Some (VObj sa sps) => if Bool.eqb sa ca then VObj sa sps else VObj ca []
  | _ => VObj ca []
  end.

Lemma clone_for_of arr tps k ca :
  ordinary (VObj arr tps) = true → clone_for ca (src_of (VObj arr tps) k) = Ret (clone_of ca (assoc k tps)).
Proof.
  intros Ht. unfold src_of. cbn [get]. destruct (assoc k tps) as [v|] eqn:E.
  - pose proof (ordinary_assoc _ _ _ _ Ht E) as Hv. unfold clone_for. destruct ca.
    + by destruct v as [| | | | | |[] sps].
    + destruct v as [| | | | | |[] sps]; try done. by rewrite isPlainObject_ordinary.
  - unfold clone_for, clone_of. destruct ca; destruct (arr && _); try done; unfold inherited; by case_bool_decide.
Qed.

Lemma clone_of_ordinary arr tps k ca : ordinary (VObj arr tps) = true →
  ∃ cps, clone_of ca (assoc k tps) = VObj ca cps ∧ ordinary (VObj ca cps) = true.
Proof.
  intros Ht. unfold clone_of. destruct (assoc k tps) as [[| | | | | |sa sps]|] eqn:E; try (by exists []).
  destruct (Bool.eqb sa ca) eqn:Eb; [|by exists []]. apply Bool.eqb_prop in Eb as ->. exists sps.
  split; [done|]. by apply (ordinary_assoc _ _ _ _ Ht E).
Qed.

(** What becomes of one key. *)
Definition extended (deep : bool) (tps : list (string * value)) (k : string) (copy : value) : res (option value) :=
  match copy with
  | VUndef => Ret (assoc k tps)
  | VObj ca _ => if deep then m ← extend_from deep copy (clone_of ca (assoc k tps)); Ret (Some m) else Ret (Some copy)
  | _ => Ret (Some copy)
  end.

Definition extends_well (deep : bool) (copy : value) : Prop := ∀ arr tps, ordinary (VObj arr tps) = true →
  ∃ tps', extend_from deep copy (VObj arr tps) = Ret (VObj arr tps') ∧ ordinary (VObj arr tps') = true.

(** One round: the key becomes what [extended] says, the others stay. *)
Lemma extend_prop_ok deep arr tps k copy :
  ordinary (VObj arr tps) = true → ordinary copy = true → k ≠ "window" → k ≠ "nodeType" → extends_well deep copy →
  ∃ tps' x, extend_prop deep (VObj arr tps) k copy (extend_from deep copy) = Ret (VObj arr tps') ∧ ordinary (VObj arr tps') = true ∧
    extended deep tps k copy = Ret x ∧ assoc k tps' = x ∧ ∀ k', k' ≠ k → assoc k' tps' = assoc k' tps.
Proof.
  intros Ht Hc Hw Hn IH. assert (∀ v, ordinary v = true → ordinary (VObj arr (prop_put k v tps)) = true ∧
    assoc k (prop_put k v tps) = Some v ∧ ∀ k', k' ≠ k → assoc k' (prop_put k v tps) = assoc k' tps) as Hput.
  { intros v Hv. split_and!; [by apply (ordinary_put arr tps)|by rewrite assoc_prop_put, String.eqb_refl|].
    intros k' Hk'. rewrite assoc_prop_put. by apply String.eqb_neq in Hk' as ->. }
  assert (∀ ca cps, copy = VObj ca cps → deep = true →
    extend_prop deep (VObj arr tps) k copy (extend_from deep copy) =
    (m ← extend_from deep copy (clone_of ca (assoc k tps)); Ret (put (VObj arr tps) k m))) as Hobj.
  { intros ca cps -> ->. unfold extend_prop. destruct ca; [|rewrite isPlainObject_ordinary by done];
      unfold mbind, res_bind; cbn [andb orb isArray isPlainObject]; by rewrite clone_for_of. }
  destruct copy as [| | | | | |ca cps]; try (eexists _, _; split; [by destruct deep|]; split; [|split; [reflexivity|]]; by apply Hput || done).
  destruct deep; [|eexists _, _; split; [done|]; split; [|split; [reflexivity|]]; by apply Hput].
  destruct (clone_of_ordinary arr tps k ca Ht) as (cl & Hcl & Hclo). destruct (IH ca cl Hclo) as (m & Hm & Hmo).
  rewrite (Hobj ca cps eq_refl eq_refl). unfold extended. rewrite Hcl, Hm.
  eexists _, _. split; [reflexivity|]. split; [by apply Hput|]. split; [reflexivity|]. by apply Hput.
Qed.

Definition recs (deep : bool) (ps : list (string * value)) : list (string * (value * (value → res value))) :=
  List.map (λ kv, (kv.1, (kv.2, extend_from deep kv.2))) ps.

(** The loop over the keys. *)
Lemma extend_props_ok deep ps : ∀ arr tps,
  Forall (λ kv, kv.1 ≠ "window" ∧ kv.1 ≠ "nodeType" ∧ ordinary kv.2 = true) ps →
  Forall (λ kv, extends_well deep kv.2) ps → ordinary (VObj arr tps) = true →
  ∃ tps', extend_props deep (recs deep ps) (VObj arr tps) = Ret (VObj arr tps') ∧ ordinary (VObj arr tps') = true ∧
    (NoDup ps.*1 → ∀ k, match assoc k ps with
                        | Some copy => extended deep tps k copy = Ret (assoc k tps')
                        | None => assoc k tps' = assoc k tps
                        end).
Proof.
  induction ps as [|[k copy] ps IH]; intros arr tps Ho Hw Ht; [by exists tps|].
  apply Forall_cons in Ho as [(Hk1 & Hk2 & Hc) Ho]. apply Forall_cons in Hw as [Hwc Hw].
  destruct (extend_prop_ok deep arr tps k copy Ht Hc Hk1 Hk2 Hwc) as (t1 & x & E1 & O1 & X1 & A1 & S1).
  destruct (IH arr t1 Ho Hw O1) as (t2 & E2 & O2 & L2). exists t2. split_and!; [|done|].
  - cbn [recs List.map extend_props fst snd]. change (List.map _ ps) with (recs deep ps). unfold mbind, res_bind in *. by rewrite E1.
  - rewrite fmap_cons, NoDup_cons. intros [Hnin Hnd] k'. specialize (L2 Hnd k'). cbn [assoc].
    destruct (String.eqb_spec k' k) as [->|Hne].
    + replace (assoc k ps) with (@None value) in L2 by (symmetry; by apply assoc_None). by rewrite L2, A1.
    + specialize (S1 k' Hne). destruct (assoc k' ps) as [c|]; [|congruence]. unfold extended in *. by rewrite S1 in L2.
Qed.

Lemma char_props_keys i s : Forall (λ kv, kv.1 ≠ "window" ∧ kv.1 ≠ "nodeType" ∧ ordinary kv.2 = true) (char_props i s).
Proof.
  revert i. induction s as [|c s IH]; intros i; [constructor|]. constructor; [|apply IH]. cbn [fst snd].
  pose proof (digits_dec_of_N i) as Hd. split_and!; [| |done]; intros E; by rewrite E in Hd.
Qed.

Lemma extends_all deep o : ordinary o = true → extends_well deep o.
Proof.
  induction o as [| | | |s| |oa ps IH] using value_ind; intros Ho arr tps Ht; try (by exists tps).
  - cbn [extend_from]. pose proof (char_props_keys 0 s) as Hk. revert tps Ht. induction Hk as [|[k v] l (H1 & H2 & H3) _ IHl]; intros tps Ht; [by exists tps|].
    cbn [foldl fst snd put]. apply IHl. by apply (ordinary_put arr tps).
  - apply ordinary_props in Ho. destruct (extend_props_ok deep ps arr tps Ho) as (t' & E & O & _); [|done|by exists t'].
    rewrite Forall_forall in IH, Ho |- *. intros kv Hkv. apply IH; [done|]. by apply Ho.
Qed.

(** Extending one object by another gives an object, for all nested
    objects that are not nodes or windows, and key by key: a key that the second
    has not, or has as [undefined], keeps its value; a nested object or array is,
    in a deep copy, merged into a fresh one or into what the first has under the
    key; any other value replaces the old one. *)
Theorem extend_by_key deep arr tps oa ps :
  ordinary (VObj arr tps) = true → ordinary (VObj oa ps) = true → NoDup ps.*1 →
  ∃ tps', extend_from deep (VObj oa ps) (VObj arr tps) = Ret (VObj arr tps') ∧
    ∀ k, match assoc k ps with
         | Some copy => extended deep tps k copy = Ret (assoc k tps')
         | None => assoc k tps' = assoc k tps
         end.
Proof.
  intros Ht Ho Hnd. apply ordinary_props in Ho. destruct (extend_props_ok deep ps arr tps Ho) as (t' & E & _ & L).
  - rewrite Forall_forall in Ho |- *. intros kv Hkv. apply extends_all. by apply Ho.
  - done.
  - exists t'. split; [exact E|]. by apply L.
Qed.

Lemma extend_by_key_witness :
  ∃ tps', extend_from true (VObj false [("a", VObj false [("y", VInt 9)]); ("b", VUndef)])
                           (VObj false [("a", VObj false [("x", VInt 1)]); ("b", VInt 3)]) = Ret (VObj false tps') ∧
    assoc "a" tps' = Some (VObj false [("x", VInt 1); ("y", VInt 9)]) ∧ assoc "b" tps' = Some (VInt 3).
Proof.
  destruct (extend_by_key true false [("a", VObj false [("x", VInt 1)]); ("b", VInt 3)] false
              [("a", VObj false [("y", VInt 9)]); ("b", VUndef)]) as (t & E & L); [reflexivity|reflexivity| |].
  - apply (bool_decide_unpack _). vm_compute. exact I.
  - exists t. split; [exact E|]. split.
    + assert (∀ x y : option value, Ret x = Ret y → x = y) as Hinj by congruence. apply Hinj. symmetry. etrans; [|exact (L "a")].
      vm_compute. reflexivity.
    + pose proof (L "b") as Lb. cbn in Lb. congruence.
Defined.
