(* ===== verification/JQueryParam.v ===== *)
(** * jQuery.param (jquery-1.9.1.js)

    The serialization of form data that the form plugin of the white board
    uses: [jQuery.param] on arrays of fields and on objects, with [buildParams].
    Functions among the values are called; what they return is a parameter. *)

From Stdlib Require Import SpecFloat.
From S2P Require Import Prelude JSNum JSValue JSON NodeUrl.

(** [encodeURIComponent] on code units below 256, which keeps the same
    characters as node's [querystring.escape]. *)
Definition encodeURIComponent : string → string := qs_escape.

(** [s.replace(/%20/g, "+")] *)
Fixpoint replace_20 (s : string) : string :=
  match s with
  | String "%" (String "2" (String "0" s')) => String "+" (replace_20 s')
  | String c s' => String c (replace_20 s')
  | EmptyString => ""
  end.

(** [/\[\]$/.test(prefix)] *)
Fixpoint ends_brackets (s : string) : bool :=
  match s with
  | EmptyString => false
  | String c s' => String.eqb s "[]" || ends_brackets s'
  end.

Section param.
Context (call : string → value).

(** One [add(key, value)]. *)
Definition add_field (key : string) (v : value) : res string :=
  t ← to_string (match v with VFun f => call f | VUndef | VNull => VStr "" | _ => v end);
  Ret (encodeURIComponent key +:+ "=" +:+ encodeURIComponent t).

(** The calls of [add] that [buildParams(prefix, obj, traditional, add)] makes. *)
Fixpoint buildParams (traditional : bool) (obj : value) (prefix : string) {struct obj} : list (string * value) :=
  match obj with
  | VObj true ps =>
      let kids := List.map (λ kv, (kv.1, (kv.2, buildParams traditional kv.2))) ps in
      foldr (λ i l,
        let key := dec_of_N (N.of_nat i) in
        let '(v, build) := default (VUndef, λ p, [(p, VUndef)]) (assoc key kids) in
        (if traditional || ends_brackets prefix then [(prefix, v)]
         else build (prefix +:+ "[" +:+ (if String.eqb (typeof v) "object" then key else "") +:+ "]")) ++ l)
        [] (seq 0 (N.to_nat (arr_len ps)))
  | VObj false ps =>
      if traditional then [(prefix, obj)]
      else foldr (λ kb l, kb.2 (prefix +:+ "[" +:+ kb.1 +:+ "]") ++ l) []
             (List.map (λ kv, (kv.1, buildParams traditional kv.2)) ps)
  | _ => [(prefix, obj)]
  end.

Fixpoint add_all (l : list (string * value)) : res (list string) :=
  match l with
  | [] => Ret []
  | (k, v) :: l' => t ← add_field k v; ts ← add_all l'; Ret (t :: ts)
  end.

Definition join_fields (l : list (string * value)) : res string :=
  s ← add_all l; Ret (replace_20 (join "&" s)).

(** [jQuery.param(a)] for an array of fields, *)
Definition param_array : list (string * value) → res string := join_fields.

(** and for an object. *)
Definition param_object (traditional : bool) (ps : list (string * value)) : res string :=
  join_fields (ps ≫= λ kv, buildParams traditional kv.2 kv.1).
End param.

Example param_ex :
  param_object (λ _, VUndef) false
    [("a", VObj true [("0", VInt 1); ("1", VObj true [("0", VStr "x y")])]); ("b", VObj false [("c", VNull); ("d", VStr "&")])] =
  Ret "a%5B%5D=1&a%5B1%5D%5B%5D=x+y&b%5Bc%5D=&b%5Bd%5D=%26".
Proof. vm_compute. reflexivity. Qed.

(** ** Reading the serialized fields back *)

Lemma replace_20_escape c t : replace_20 (escape_char c +:+ t) =
  (if Ascii.eqb c " " then "+" else escape_char c) +:+ replace_20 t.
Proof. destruct c as [[] [] [] [] [] [] [] []]; reflexivity. Qed.

(** The form encoding of a text. *)
Definition form_escape (s : string) : string := replace_20 (qs_escape s).

Lemma form_escape_cons c s : form_escape (String c s) = (if Ascii.eqb c " " then "+" else escape_char c) +:+ form_escape s.
Proof. unfold form_escape. cbn [qs_escape]. by rewrite replace_20_escape. Qed.

Lemma unescape_plus c s : qs_unescape ((if Ascii.eqb c " " then "+" else escape_char c) +:+ s) = String c (qs_unescape s).
Proof. destruct (Ascii.eqb_spec c " ") as [->|]; [done|]. apply unescape_char. Qed.

Lemma unescape_form s : qs_unescape (form_escape s) = s.
Proof. induction s as [|c s IH]; [done|]. by rewrite form_escape_cons, unescape_plus, IH. Qed.

Lemma form_no_separator s : str_forallb (λ c, negb (separator c)) (form_escape s) = true.
Proof.
  induction s as [|c s IH]; [done|]. rewrite form_escape_cons, str_forallb_app, IH.
  destruct c as [[] [] [] [] [] [] [] []]; reflexivity.
Qed.

Lemma replace_20_app s t : replace_20 (qs_escape s +:+ t) = form_escape s +:+ replace_20 t.
Proof.
  induction s as [|c s IH]; [done|]. cbn [qs_escape]. rewrite form_escape_cons, !str_app_assoc.
  by rewrite replace_20_escape, IH.
Qed.

Definition form_field (k v : string) : string := form_escape k +:+ "=" +:+ form_escape v.

Lemma replace_20_field k v t :
  replace_20 ((qs_escape k +:+ "=" +:+ qs_escape v) +:+ t) = form_field k v +:+ replace_20 t.
Proof.
  unfold form_field. rewrite !str_app_assoc, replace_20_app. cbn [append]. cbn [replace_20].
  by rewrite replace_20_app.
Qed.

Lemma join_cons sep a b l : join sep (a :: b :: l) = a +:+ sep +:+ join sep (b :: l).
Proof. done. Qed.

Lemma replace_20_amp s : replace_20 ("&" +:+ s) = "&" +:+ replace_20 s.
Proof. done. Qed.

Lemma replace_20_fields l :
  replace_20 (join "&" ((λ kv, qs_escape kv.1 +:+ "=" +:+ qs_escape kv.2) <$> l)) =
  join "&" ((λ kv, form_field kv.1 kv.2) <$> l).
Proof.
  induction l as [|[k v] l IH]; [done|]. destruct l as [|kv l].
  - rewrite <-(str_app_nil_r (join _ _)). cbn [fmap list_fmap join fst snd]. rewrite replace_20_field. cbn [replace_20].
    by rewrite str_app_nil_r.
  - rewrite !fmap_cons in IH |- *. rewrite !join_cons. cbn [fst snd] in *. rewrite replace_20_field, replace_20_amp, IH. done.
Qed.

(** Fields with texts as values. *)
Definition text_fields (l : list (string * string)) : list (string * value) := (λ kv, (kv.1, VStr kv.2)) <$> l.

Lemma param_text_fields call l :
  param_array call (text_fields l) = Ret (join "&" ((λ kv, form_field kv.1 kv.2) <$> l)).
Proof.
  unfold param_array, join_fields.
  assert (add_all call (text_fields l) = Ret ((λ kv, qs_escape kv.1 +:+ "=" +:+ qs_escape kv.2) <$> l)) as ->.
  { induction l as [|[k v] l IH]; [done|]. unfold text_fields in *. rewrite !fmap_cons. cbn [add_all fst snd].
    unfold add_field, encodeURIComponent. cbn [to_string]. unfold mbind, res_bind in *. by rewrite IH. }
  unfold mbind, res_bind. by rewrite replace_20_fields.
Qed.

Lemma form_field_plain k v : str_forallb (λ c, negb (Ascii.eqb c "&")) (form_field k v) = true.
Proof.
  assert (∀ s, str_forallb (λ c, negb (Ascii.eqb c "&")) (form_escape s) = true) as H.
  { intros s. induction s as [|c s IH]; [done|]. rewrite form_escape_cons, str_forallb_app, IH.
    destruct c as [[] [] [] [] [] [] [] []]; reflexivity. }
  unfold form_field. by rewrite !str_forallb_app, !H.
Qed.

(** Reading the serialization of fields gives the fields back, in order. *)
Lemma param_array_parse call l : ∃ s, param_array call (text_fields l) = Ret s ∧ qs_parse s = l.
Proof.
  eexists. split; [apply param_text_fields|]. unfold qs_parse. destruct l as [|kv l]; [done|].
  rewrite (proj2 (String.eqb_neq _ _)).
  - change "&" with (String "&"%char "") at 1. rewrite split_char_join.
    + rewrite <-list_fmap_compose. etrans; [|apply (list_fmap_id (kv :: l))]. apply list_fmap_ext. intros i [k v] _. cbn [compose fst snd id].
      unfold form_field. cbn [append]. rewrite split_eq_field by apply form_no_separator. by rewrite !unescape_form.
    + done.
    + apply Forall_fmap, Forall_forall. intros [k v] _. apply form_field_plain.
  - intros E. apply (f_equal String.length) in E. rewrite fmap_cons in E. unfold form_field in E.
    destruct l; cbn [fmap list_fmap join] in E; rewrite !str_length_app in E; simpl in E; lia.
Qed.
