(* ===== verification/Forms.v ===== *)
(** * Form fields (jquery.form.js, with the parts of jquery-1.9.1.js it uses)

    A document is a list of elements, referred to by position, and the forms
    over them.  The functions of the plugin that read, serialize and change
    fields, and of jQuery [val], [serializeArray] and the hooks of [val].  The
    properties of elements are those of the DOM: a [select] keeps its options,
    and its [selectedIndex] is the position of the first selected one. *)

From Stdlib Require Import SpecFloat.
From S2P Require Import Prelude JSNum JSValue JSON NodeUrl JQueryParam.

(** ** The document *)

Record opt := {
  op_value : string;
  op_text : string;
  op_selected : bool;
  op_value_attr : option bool;   (* [attributes.value], by its [specified] *)
  op_disabled : bool;
  op_in_group : bool;            (* its parent is an [optgroup], *)
  op_group_disabled : bool       (* which is disabled *)
}.

Record element := {
  el_tag : string;               (* [tagName] in lower case *)
  el_id : string;
  el_name : string;              (* empty also where there is no such property *)
  el_type : string;
  el_disabled : bool;
  el_in_disabled : bool;         (* inside a disabled [fieldset] *)
  el_checked : bool;
  el_value : option string;      (* [None] where there is no such property *)
  el_has_value : bool;           (* whether the attribute is there *)
  el_options : list opt;
  el_dropdown : bool;            (* a [select] that shows one option *)
  el_form : option nat
}.

Record form := {
  f_elements : list nat;         (* [form.elements] *)
  f_all : list nat;              (* [form.getElementsByTagName('*')] *)
  clk : option nat;              (* the clicked element, and where *)
  clk_x : value;
  clk_y : value
}.

Record document := { els : list element; forms : list form }.

Definition no_element : element :=
  {| el_tag := ""; el_id := ""; el_name := ""; el_type := ""; el_disabled := false; el_in_disabled := false; el_checked := false;
     el_value := None; el_has_value := false; el_options := []; el_dropdown := false; el_form := None |}.

Definition el_at (d : document) (r : nat) : element := default no_element (els d !! r).

Definition clk_of (d : document) (f : option nat) : option nat := f ← f; f ← forms d !! f; clk f.

(** The position of the first selected option, or -1. *)
Definition selectedIndex (e : element) : Z :=
  match list_find (λ o, op_selected o = true) (el_options e) with
  | Some (i, _) => Z.of_nat i
  | None => -1
  end.

(** ** jQuery: [val] and [serializeArray] *)

(** What the getters return: [null], a text, or an array of texts. *)
Inductive field_value :=
| FNull
| FOne (v : string)
| FMany (vs : list string).

Definition is_cr (c : ascii) : bool := Ascii.eqb c "013".
Definition is_lf (c : ascii) : bool := Ascii.eqb c "010".

(** [s.replace(/\r/g, "")] *)
Fixpoint drop_cr (s : string) : string :=
  match s with
  | EmptyString => ""
  | String c s' => if is_cr c then drop_cr s' else String c (drop_cr s')
  end.

(** [s.replace(/\r?\n/g, "\r\n")] *)
Fixpoint crlf (s : string) : string :=
  match s with
  | EmptyString => ""
  | String c s' =>
      if is_lf c then String "013" (String "010" (crlf s'))
      else if is_cr c then
        match s' with
        | String c' s'' => if is_lf c' then String "013" (String "010" (crlf s'')) else String c (crlf s')
        | EmptyString => String c ""
        end
      else String c (crlf s')
  end.

Section jquery.
Context (checkOn : bool).   (* [jQuery.support.checkOn] *)

(** [valHooks.option.get] *)
Definition option_val (o : opt) : string :=
  match op_value_attr o with
  | Some false => op_text o
  | _ => op_value o
  end.

(** The test of the loop of [valHooks.select.get]. *)
Definition option_counts (index : Z) (i : nat) (o : opt) : bool :=
  (op_selected o || (Z.of_nat i =? index)%Z) && negb (op_disabled o) && (negb (op_group_disabled o) || negb (op_in_group o)).

(** The values of the options that count, from position [i] on. *)
Fixpoint select_values (index : Z) (i : nat) (os : list opt) : list string :=
  match os with
  | [] => []
  | o :: os' => (if option_counts index i o then [option_val o] else []) ++ select_values index (S i) os'
  end.

Definition select_get (e : element) : field_value :=
  let index := selectedIndex e in
  if (index <? 0)%Z then FNull
  else if String.eqb (el_type e) "select-one" then
    match el_options e !! Z.to_nat index with
    | Some o => if option_counts index (Z.to_nat index) o then FOne (option_val o) else FNull
    | None => FNull
    end
  else FMany (select_values index 0 (el_options e)).

(** [$(el).val()] *)
Definition val (e : element) : field_value :=
  let plain := FOne (match el_value e with Some s => drop_cr s | None => "" end) in
  if String.eqb (el_type e) "radio" || String.eqb (el_type e) "checkbox" then
    if checkOn then plain
    else if el_has_value e then match el_value e with Some s => FOne s | None => FOne "" end else FOne "on"
  else if String.eqb (el_tag e) "select" then select_get e
  else plain.

Definition in_list (s : string) (l : list string) : bool := existsb (String.eqb s) l.

(** [this.is(":disabled")] *)
Definition is_disabled (e : element) : bool := el_disabled e || el_in_disabled e.

(** The filter of [serializeArray]. *)
Definition submittable (e : element) : bool :=
  negb (String.eqb (el_name e) "") && negb (is_disabled e) &&
  existsb (λ p, String.prefix p (el_tag e)) ["input"; "select"; "textarea"; "keygen"] &&
  negb (in_list (el_type e) ["submit"; "button"; "image"; "reset"; "file"]) &&
  (el_checked e || negb (in_list (el_type e) ["checkbox"; "radio"])).

Definition serialize_element (e : element) : list (string * value) :=
  match val e with
  | FNull => []
  | FOne v => [(el_name e, VStr (crlf v))]
  | FMany vs => (λ v, (el_name e, VStr (crlf v))) <$> vs
  end.

(** [$(form).serializeArray()] *)
Definition serializeArray (d : document) (f : form) : list (string * value) :=
  f_elements f ≫= λ r, if submittable (el_at d r) then serialize_element (el_at d r) else [].
End jquery.

(** ** The plugin: reading fields *)

Section plugin.
Context (checkOn : bool).

(** The value of an option; an empty one may be IE's way to say that the text counts. *)
Definition option_value (o : opt) : string :=
  if String.eqb (op_value o) "" then match op_value_attr o with Some false => op_text o | _ => op_value o end
  else op_value o.

(** A field without a name or switched off, a button other than the clicked
    one, a box not checked, a list with no choice. *)
Definition unsuccessful (d : document) (r : nat) : bool :=
  let e := el_at d r in
  let t := el_type e in
  String.eqb (el_name e) "" || el_disabled e || String.eqb t "reset" || String.eqb t "button" ||
  (in_list t ["checkbox"; "radio"] && negb (el_checked e)) ||
  (in_list t ["submit"; "image"] && bool_decide (is_Some (el_form e)) && negb (bool_decide (clk_of d (el_form e) = Some r))) ||
  (String.eqb (el_tag e) "select" && (selectedIndex e =? -1)%Z).

(** [$.fieldValue(el, successful)] *)
Definition fieldValue (d : document) (r : nat) (successful : bool) : field_value :=
  let e := el_at d r in
  if successful && unsuccessful d r then FNull
  else if String.eqb (el_tag e) "select" then
    let index := selectedIndex e in
    if (index <? 0)%Z then FNull
    else if String.eqb (el_type e) "select-one" then
      match el_options e !! Z.to_nat index with
      | Some o => if op_selected o then FOne (option_value o) else FMany []
      | None => FMany []
      end
    else FMany (option_value <$> filter (λ o, op_selected o = true) (el_options e))
  else val checkOn e.

Definition named (n : string) (v : field_value) : list (string * value) :=
  match v with
  | FNull => []
  | FOne v => [(n, VStr v)]
  | FMany vs => (λ v, (n, VStr v)) <$> vs
  end.

(** The three fields of a clicked image. *)
Definition image_fields (f : form) (e : element) : list (string * value) :=
  named (el_name e) (val checkOn e) ++ [(el_name e +:+ ".x", clk_x f); (el_name e +:+ ".y", clk_y f)].

(** One round of the loop over the elements. *)
Definition element_fields (d : document) (f : form) (semantic : bool) (r : nat) : list (string * value) :=
  let e := el_at d r in
  if String.eqb (el_name e) "" then []
  else if semantic && bool_decide (is_Some (clk f)) && String.eqb (el_type e) "image" then
    if negb (el_disabled e) && bool_decide (clk f = Some r) then image_fields f e else []
  else named (el_name e) (fieldValue d r true).

(** [$(form).formToArray(semantic)] *)
Definition formToArray (d : document) (f : form) (semantic : bool) : list (string * value) :=
  ((if semantic then f_all f else f_elements f) ≫= element_fields d f semantic) ++
  match clk f with
  | Some r =>
      let e := el_at d r in
      if negb semantic && negb (String.eqb (el_name e) "") && negb (el_disabled e) && String.eqb (el_type e) "image"
      then image_fields f e else []
  | None => []
  end.

Definition formSerialize (call : string → value) (d : document) (f : form) (semantic : bool) : res string :=
  param_array call (formToArray d f semantic).

(** [$(els).fieldSerialize(successful)] *)
Definition fieldSerialize (call : string → value) (d : document) (rs : list nat) (successful : bool) : res string :=
  param_array call (rs ≫= λ r, if String.eqb (el_name (el_at d r)) "" then [] else named (el_name (el_at d r)) (fieldValue d r successful)).

(** [$(els).fieldValue(successful)] *)
Definition fn_fieldValue (d : document) (rs : list nat) (successful : bool) : list string :=
  rs ≫= λ r, match fieldValue d r successful with FNull => [] | FOne v => [v] | FMany vs => vs end.
End plugin.

(** ** The plugin: changing fields *)

Definition with_els (l : list element) (d : document) : document := {| els := l; forms := forms d |}.
Definition update_el (r : nat) (g : element → element) (d : document) : document := with_els (alter g r (els d)) d.

Definition set_value (v : string) (e : element) : element :=
  {| el_tag := el_tag e; el_id := el_id e; el_name := el_name e; el_type := el_type e; el_disabled := el_disabled e;
     el_in_disabled := el_in_disabled e; el_checked := el_checked e; el_value := Some v; el_has_value := el_has_value e;
     el_options := el_options e; el_dropdown := el_dropdown e; el_form := el_form e |}.
Definition set_checked (b : bool) (e : element) : element :=
  {| el_tag := el_tag e; el_id := el_id e; el_name := el_name e; el_type := el_type e; el_disabled := el_disabled e;
     el_in_disabled := el_in_disabled e; el_checked := b; el_value := el_value e; el_has_value := el_has_value e;
     el_options := el_options e; el_dropdown := el_dropdown e; el_form := el_form e |}.
Definition set_disabled (b : bool) (e : element) : element :=
  {| el_tag := el_tag e; el_id := el_id e; el_name := el_name e; el_type := el_type e; el_disabled := b;
     el_in_disabled := el_in_disabled e; el_checked := el_checked e; el_value := el_value e; el_has_value := el_has_value e;
     el_options := el_options e; el_dropdown := el_dropdown e; el_form := el_form e |}.
Definition set_options (os : list opt) (e : element) : element :=
  {| el_tag := el_tag e; el_id := el_id e; el_name := el_name e; el_type := el_type e; el_disabled := el_disabled e;
     el_in_disabled := el_in_disabled e; el_checked := el_checked e; el_value := el_value e; el_has_value := el_has_value e;
     el_options := os; el_dropdown := el_dropdown e; el_form := el_form e |}.
Definition op_set (b : bool) (o : opt) : opt :=
  {| op_value := op_value o; op_text := op_text o; op_selected := b; op_value_attr := op_value_attr o;
     op_disabled := op_disabled o; op_in_group := op_in_group o; op_group_disabled := op_group_disabled o |}.

(** The types whose fields hold a text that can be cleared. *)
Definition text_types : list string :=
  ["color"; "date"; "datetime"; "email"; "month"; "number"; "password"; "range"; "search"; "tel"; "text"; "time"; "url"; "week"].

Definition lower_char (c : ascii) : ascii :=
  let n := N_of_ascii c in if ((65 <=? n) && (n <=? 90))%N then ascii_of_N (n + 32) else c.
Fixpoint lower (s : string) : string :=
  match s with EmptyString => "" | String c s' => String (lower_char c) (lower s') end.

(** [this.selectedIndex = -1] deselects all options. *)
Definition deselect (e : element) : element := set_options (op_set false <$> el_options e) e.

Definition clear_field (e : element) : element :=
  if in_list (lower (el_type e)) text_types || String.eqb (el_tag e) "textarea" then set_value "" e
  else if in_list (el_type e) ["checkbox"; "radio"] then set_checked false e
  else if String.eqb (el_tag e) "select" then deselect e
  else e.

(** [$(els).clearFields()] *)
Definition clearFields (rs : list nat) (d : document) : document := foldl (λ d r, update_el r clear_field d) d rs.

(** [$(form).clearForm()] *)
Definition clearForm (f : form) (d : document) : document :=
  clearFields (filter (λ r, in_list (el_tag (el_at d r)) ["input"; "select"; "textarea"] = true) (f_all f)) d.

(** [$(form).resetForm()] calls the form's [reset], unless a field of that name or id hides it. *)
Definition resetForm (d : document) (f : form) : bool :=
  negb (existsb (λ r, String.eqb (el_name (el_at d r)) "reset" || String.eqb (el_id (el_at d r)) "reset") (f_elements f)).

(** [$(els).enable(b)] *)
Definition enable (rs : list nat) (b : bool) (d : document) : document :=
  foldl (λ d r, update_el r (set_disabled (negb b)) d) d rs.

(** [option.selected = b]: choosing an option of a list with one choice takes
    the choice from the others, and a drop-down list is never left without one. *)
Definition ask_reset (e : element) : element :=
  if el_dropdown e && String.eqb (el_type e) "select-one" && (selectedIndex e =? -1)%Z then
    match list_find (λ o, op_disabled o = false) (el_options e) with
    | Some (i, _) => set_options (alter (op_set true) i (el_options e)) e
    | None => e
    end
  else e.

Definition set_selected (i : nat) (b : bool) (e : element) : element :=
  let os := if b && String.eqb (el_type e) "select-one" then op_set false <$> el_options e else el_options e in
  ask_reset (set_options (alter (op_set b) i os) e).

(** [radio.checked = true] takes the check from the others of its group. *)
Definition same_group (d : document) (r r' : nat) : bool :=
  let e := el_at d r in let e' := el_at d r' in
  negb (r =? r')%nat && String.eqb (el_type e') "radio" && negb (String.eqb (el_name e) "") &&
  String.eqb (el_name e) (el_name e') && bool_decide (el_form e = el_form e').

Definition check (r : nat) (b : bool) (d : document) : document :=
  let d' := if b && String.eqb (el_type (el_at d r)) "radio"
            then with_els (imap (λ r' e, if same_group d r r' then set_checked false e else e) (els d)) d else d in
  update_el r (set_checked b) d'.

(** What [selected] is called on: an element, or an option of a [select]. *)
Inductive target := TElement (r : nat) | TOption (r i : nat).

(** [$(els).selected(select)] *)
Definition select_one (select : bool) (d : document) (t : target) : document :=
  match t with
  | TElement r => if in_list (el_type (el_at d r)) ["checkbox"; "radio"] then check r select d else d
  | TOption r i =>
      let e := el_at d r in
      let child := match el_options e !! i with Some o => negb (op_in_group o) | None => false end in
      let others := if select && child && String.eqb (el_type e) "select-one" then seq 0 (length (el_options e)) else [] in
      update_el r (set_selected i select) (foldl (λ d j, update_el r (set_selected j false) d) d others)
  end.

Definition selected (ts : list target) (select : bool) (d : document) : document := foldl (select_one select) d ts.
