(* ===== verification/FormFacts.v ===== *)
(** * Form fields: agreement with jQuery, round trip, clearing *)

From Stdlib Require Import SpecFloat.
From S2P Require Import Prelude JSNum JSValue JSON NodeUrl JQueryParam Forms.

(** ** The plugin and [serializeArray] agree on plain forms *)

Definition one_line (s : string) : bool := str_forallb (λ c, negb (is_cr c) && negb (is_lf c)) s.

Lemma crlf_one_line s : one_line s = true → crlf s = s.
Proof.
  unfold one_line. induction s as [|c s IH]; [done|]. cbn [str_forallb crlf]. rewrite !andb_true_iff, !negb_true_iff.
  intros [[-> ->] Hs]. by rewrite IH.
Qed.

Lemma drop_cr_one_line s : one_line s = true → drop_cr s = s.
Proof.
  unfold one_line. induction s as [|c s IH]; [done|]. cbn [str_forallb drop_cr]. rewrite !andb_true_iff, !negb_true_iff.
  intros [[-> _] Hs]. by rewrite IH.
Qed.

(** An option that every browser reads alike. *)
Definition plain_option (o : opt) : bool :=
  negb (op_disabled o) && negb (op_group_disabled o) && bool_decide (op_value_attr o ≠ Some false) && one_line (op_value o).

(** A field of one of the usual kinds: not a file, not in a disabled group, on
    one line; other listed elements only as buttons. *)
Definition plain_element (e : element) : bool :=
  negb (el_in_disabled e) && negb (String.eqb (el_type e) "file") &&
  (existsb (λ p, String.prefix p (el_tag e)) ["input"; "select"; "textarea"; "keygen"] ||
   in_list (el_type e) ["submit"; "button"; "reset"]) &&
  match el_value e with Some v => one_line v | None => String.eqb (el_tag e) "select" end &&
  forallb plain_option (el_options e) &&
  (negb (String.eqb (el_tag e) "select") || in_list (el_type e) ["select-one"; "select-multiple"]).

Lemma selectedIndex_spec e i :
  selectedIndex e = Z.of_nat i → ∃ o, el_options e !! i = Some o ∧ op_selected o = true.
Proof.
  unfold selectedIndex. destruct (list_find _ _) as [[j o]|] eqn:E; [|lia]. intros H.
  apply list_find_Some in E as (Hj & Ho & _). exists o. by replace i with j by lia.
Qed.

Lemma selectedIndex_cases e : selectedIndex e = (-1)%Z ∨ ∃ i, selectedIndex e = Z.of_nat i.
Proof. unfold selectedIndex. destruct (list_find _ _) as [[j o]|]; eauto. Qed.

Lemma plain_option_values o : plain_option o = true →
  op_disabled o = false ∧ op_group_disabled o = false ∧ option_val o = op_value o ∧ option_value o = op_value o ∧
  crlf (op_value o) = op_value o.
Proof.
  unfold plain_option. rewrite !andb_true_iff, !negb_true_iff, bool_decide_eq_true. intros [[[Hd Hg] Ha] Hl].
  unfold option_val, option_value. split_and!; [done|done| | |by apply crlf_one_line].
  - by destruct (op_value_attr o) as [[]|].
  - destruct (String.eqb _ _); [|done]. by destruct (op_value_attr o) as [[]|].
Qed.

Lemma select_values_selected index i os :
  forallb plain_option os = true →
  (∀ j o, os !! j = Some o → Z.of_nat (i + j) = index → op_selected o = true) →
  select_values index i os = op_value <$> filter (λ o, op_selected o = true) os.
Proof.
  revert i. induction os as [|o os IH]; intros i; [done|]. cbn [forallb select_values]. rewrite andb_true_iff. intros [Ho Hos] Hj.
  rewrite IH; [|done|intros j o' Hl Hi; apply (Hj (S j)); [done|lia]].
  destruct (plain_option_values o Ho) as (Hd & Hg & Hv & _). unfold option_counts. rewrite Hd, Hg, Hv. cbn [negb orb].
  rewrite !andb_true_r. rewrite filter_cons. destruct (decide (op_selected o = true)) as [E|E].
  - by rewrite E.
  - apply not_true_is_false in E. rewrite E. cbn [orb].
    destruct (Z.eqb_spec (Z.of_nat i) index) as [Hi|Hi]; [|done].
    specialize (Hj 0 o eq_refl). rewrite Nat.add_0_r in Hj. by rewrite Hj in E.
Qed.

(** What a plain [select] with a choice holds. *)
Definition chosen (e : element) : field_value :=
  if String.eqb (el_type e) "select-one" then
    match el_options e !! Z.to_nat (selectedIndex e) with Some o => FOne (op_value o) | None => FNull end
  else FMany (op_value <$> filter (λ o, op_selected o = true) (el_options e)).

Lemma plain_options e : plain_element e = true → forallb plain_option (el_options e) = true.
Proof. unfold plain_element. rewrite !andb_true_iff. by intros [[_ H] _]. Qed.

Lemma plain_at e i o : plain_element e = true → el_options e !! i = Some o → plain_option o = true.
Proof.
  intros H%plain_options Hi. rewrite forallb_forall in H. apply H, list_elem_of_In. by eapply list_elem_of_lookup_2.
Qed.

Lemma select_get_chosen e : plain_element e = true → selectedIndex e ≠ (-1)%Z → select_get e = chosen e.
Proof.
  intros Hp Hi. destruct (selectedIndex_cases e) as [?|[i Hidx]]; [done|]. destruct (selectedIndex_spec e i Hidx) as (o & Ho & Hsel).
  unfold select_get, chosen. rewrite Hidx, Nat2Z.id, Ho. rewrite (proj2 (Z.ltb_ge _ _)) by lia.
  destruct (String.eqb _ _).
  - destruct (plain_option_values o (plain_at e i o Hp Ho)) as (Hd & Hg & Hv & _). unfold option_counts.
    by rewrite Hsel, Hd, Hg, Hv.
  - rewrite select_values_selected; [done|by apply plain_options|]. intros j o' Hj Hij. cbn in Hij.
    assert (j = i) as -> by lia. by simplify_eq.
Qed.

Lemma fieldValue_chosen checkOn d r s :
  let e := el_at d r in
  el_tag e = "select" → plain_element e = true → selectedIndex e ≠ (-1)%Z → s && unsuccessful d r = false →
  fieldValue checkOn d r s = chosen e.
Proof.
  intros e Ht Hp Hi Hs. destruct (selectedIndex_cases e) as [?|[i Hidx]]; [done|].
  destruct (selectedIndex_spec e i Hidx) as (o & Ho & Hsel). unfold fieldValue, chosen. fold e.
  rewrite Hs, Ht. cbn [String.eqb Ascii.eqb Bool.eqb]. rewrite Hidx, Nat2Z.id, Ho, Hsel. rewrite (proj2 (Z.ltb_ge _ _)) by lia.
  destruct (String.eqb (el_type e) "select-one").
  - by destruct (plain_option_values o (plain_at e i o Hp Ho)) as (_ & _ & _ & -> & _).
  - f_equal. apply list_fmap_ext. intros j o' Hj. apply list_elem_of_lookup_2, list_elem_of_filter in Hj as [_ Hj].
    apply list_elem_of_lookup in Hj as [k Hk]. by destruct (plain_option_values o' (plain_at e k o' Hp Hk)) as (_ & _ & _ & -> & _).
Qed.

Lemma chosen_one_line e : plain_element e = true →
  match chosen e with FNull => True | FOne v => crlf v = v | FMany vs => Forall (λ v, crlf v = v) vs end.
Proof.
  intros Hp. unfold chosen. destruct (String.eqb _ _).
  - destruct (el_options e !! _) as [o|] eqn:Ho; [|done]. by apply plain_option_values, (plain_at e (Z.to_nat (selectedIndex e)) o).
  - apply Forall_fmap, Forall_forall. intros o [_ Ho]%list_elem_of_filter. apply list_elem_of_lookup in Ho as [k Hk].
    by apply plain_option_values, (plain_at e k o).
Qed.

(** The fields of a value, with the line ends as jQuery sends them. *)
Lemma named_crlf n v :
  match v with FNull => True | FOne v => crlf v = v | FMany vs => Forall (λ v, crlf v = v) vs end →
  named n v = match v with FNull => [] | FOne v => [(n, VStr (crlf v))] | FMany vs => (λ v, (n, VStr (crlf v))) <$> vs end.
Proof.
  destruct v as [|v|vs]; [done|by intros ->|]. intros H. cbn [named]. apply list_fmap_ext. intros i v Hv.
  rewrite Forall_forall in H. by rewrite H by by eapply list_elem_of_lookup_2.
Qed.

Lemma val_text checkOn e : plain_element e = true → el_tag e ≠ "select" →
  ∃ v, val checkOn e = FOne v ∧ crlf v = v.
Proof.
  unfold plain_element. rewrite !andb_true_iff. intros [[[_ Hv] _] _] Ht. apply String.eqb_neq in Ht. unfold val. rewrite Ht in *.
  destruct (el_value e) as [v|]; [|done]. rewrite (drop_cr_one_line v Hv).
  destruct (_ || _); [destruct checkOn, (el_has_value e)|]; (eexists; split; [reflexivity|]); by apply crlf_one_line || reflexivity.
Qed.

(** The kinds of a field that decide whether it is sent. *)
Lemma unsuccessful_plain d f fid r :
  let e := el_at d r in
  forms d !! fid = Some f → clk f = None → el_form e = Some fid → el_name e ≠ "" → plain_element e = true →
  unsuccessful d r = negb (submittable e) || (String.eqb (el_tag e) "select" && (selectedIndex e =? -1)%Z).
Proof.
  intros e Hf Hc He Hn Hp. assert (clk_of d (Some fid) = None) as Hclk by (cbn; by rewrite Hf).
  unfold unsuccessful, submittable, is_disabled. fold e. rewrite He, Hclk. apply String.eqb_neq in Hn. rewrite Hn.
  revert Hp. unfold plain_element. rewrite !andb_true_iff, !negb_true_iff. intros [[[[[-> Hfile] Htag] _] _] _].
  set (tagok := existsb _ _) in *. cbn [in_list existsb] in *. rewrite Hfile. fold tagok.
  rewrite !(bool_decide_eq_true_2 (is_Some (Some fid))), (bool_decide_eq_false_2 (None = Some r)) by done.
  set (sel := String.eqb (el_tag e) "select" && _).
  destruct (String.eqb_spec (el_type e) "submit") as [->|Hs]; [by destruct (el_disabled e), tagok|].
  destruct (String.eqb_spec (el_type e) "button") as [->|Hb]; [by destruct (el_disabled e), tagok|].
  destruct (String.eqb_spec (el_type e) "reset") as [->|Hr]; [by destruct (el_disabled e), tagok|].
  destruct (String.eqb_spec (el_type e) "image") as [->|Hi]; [by destruct (el_disabled e), tagok, (el_checked e)|].
  cbn [orb] in Htag. rewrite orb_false_r in Htag. rewrite Htag.
  by destruct (el_disabled e), (String.eqb (el_type e) "checkbox"), (String.eqb (el_type e) "radio"), (el_checked e), sel.
Qed.

Lemma element_agrees checkOn d f fid r :
  let e := el_at d r in
  forms d !! fid = Some f → clk f = None → el_form e = Some fid → plain_element e = true →
  element_fields checkOn d f false r = if submittable e then serialize_element checkOn e else [].
Proof.
  intros e Hf Hc He Hp. unfold element_fields. fold e. cbn [andb].
  destruct (String.eqb_spec (el_name e) "") as [Hn|Hn]; [by unfold submittable; rewrite Hn|].
  pose proof (unsuccessful_plain d f fid r Hf Hc He Hn Hp) as Hu. fold e in Hu.
  destruct (submittable e) eqn:Hsub; [|unfold fieldValue; by rewrite Hu].
  destruct (String.eqb_spec (el_tag e) "select") as [Ht|Ht]; cbn [negb orb andb] in Hu.
  - assert (serialize_element checkOn e = match select_get e with FNull => [] | FOne v => [(el_name e, VStr (crlf v))]
              | FMany vs => (λ v, (el_name e, VStr (crlf v))) <$> vs end) as Hser.
    { unfold serialize_element, val. rewrite Ht. cbn [String.eqb Ascii.eqb Bool.eqb].
      revert Hp. unfold plain_element. rewrite !andb_true_iff. intros [_ Hty]. rewrite Ht in Hty. cbn in Hty.
      rewrite orb_false_r in Hty. by apply orb_true_iff in Hty as [->%String.eqb_eq | ->%String.eqb_eq]. }
    rewrite Hser. destruct (Z.eqb_spec (selectedIndex e) (-1)) as [Hi|Hi].
    + unfold fieldValue. rewrite Hu. unfold select_get. by rewrite Hi.
    + rewrite (fieldValue_chosen checkOn d r true) by done. fold e. rewrite select_get_chosen by done.
      apply named_crlf, (chosen_one_line e Hp).
  - destruct (val_text checkOn e Hp Ht) as (v & Hv & Hl). apply String.eqb_neq in Ht.
    unfold fieldValue, serialize_element. fold e. rewrite Hu, Ht, Hv. cbn [andb named]. by rewrite Hl.
Qed.

(** C33. On a form whose fields are of the usual kinds and hold texts of one
    line, with no button clicked, the plugin collects exactly the fields, in the
    order, that jQuery's own [serializeArray] collects. *)
Theorem formToArray_serializeArray checkOn d f fid :
  forms d !! fid = Some f → clk f = None →
  Forall (λ r, el_form (el_at d r) = Some fid ∧ plain_element (el_at d r) = true) (f_elements f) →
  formToArray checkOn d f false = serializeArray checkOn d f.
Proof.
  intros Hf Hc H. unfold formToArray, serializeArray. rewrite Hc, app_nil_r.
  induction H as [|r rs [He Hp] _ IH]; [done|]. cbn. rewrite IH. f_equal. by apply (element_agrees checkOn d f fid r).
Qed.

Definition text_input (name value : string) : element :=
  {| el_tag := "input"; el_id := ""; el_name := name; el_type := "text"; el_disabled := false; el_in_disabled := false; el_checked := false;
     el_value := Some value; el_has_value := true; el_options := []; el_dropdown := false; el_form := Some 0 |}.
Definition box (type name value : string) (checked : bool) : element :=
  {| el_tag := "input"; el_id := ""; el_name := name; el_type := type; el_disabled := false; el_in_disabled := false; el_checked := checked;
     el_value := Some value; el_has_value := true; el_options := []; el_dropdown := false; el_form := Some 0 |}.
Definition choice (value : string) (selected : bool) : opt :=
  {| op_value := value; op_text := value; op_selected := selected; op_value_attr := Some true; op_disabled := false;
     op_in_group := false; op_group_disabled := false |}.
Definition select_list (name : string) (os : list opt) : element :=
  {| el_tag := "select"; el_id := ""; el_name := name; el_type := "select-multiple"; el_disabled := false; el_in_disabled := false;
     el_checked := false; el_value := None; el_has_value := false; el_options := os; el_dropdown := false; el_form := Some 0 |}.

(** The form of a lesson: a title, two boxes, a list with two choices, a button and an image. *)
Definition lesson_form (clicked : option nat) : form :=
  {| f_elements := [0; 1; 2; 3; 4]; f_all := [0; 1; 2; 3; 4; 5]; clk := clicked; clk_x := VInt 12; clk_y := VInt 7 |}.
Definition lesson (clicked : option nat) : document :=
  {| els := [text_input "title" "a & b"; box "checkbox" "open" "yes" true; box "checkbox" "late" "yes" false;
             select_list "tags" [choice "x" true; choice "y" false; choice "z w" true]; box "submit" "go" "Send" false;
             box "image" "map" "" false];
     forms := [lesson_form clicked] |}.

Lemma formToArray_serializeArray_witness :
  formToArray true (lesson None) (lesson_form None) false = serializeArray true (lesson None) (lesson_form None) ∧
  formToArray true (lesson None) (lesson_form None) false =
    [("title", VStr "a & b"); ("open", VStr "yes"); ("tags", VStr "x"); ("tags", VStr "z w")].
Proof.
  split; [|vm_compute; reflexivity].
  apply (formToArray_serializeArray true (lesson None) (lesson_form None) 0); [reflexivity|reflexivity|].
  repeat (constructor; [split; reflexivity|]). constructor.
Defined.

(** ** What the server reads is what the form holds *)

Definition field_text (v : value) : string :=
  match v with VStr s => s | VNum n => num_to_string n | _ => "" end.

Definition textual (v : value) : bool := match v with VStr _ | VNum _ => true | _ => false end.

Lemma param_textual call l :
  Forall (λ kv, textual kv.2 = true) l → param_array call l = param_array call (text_fields ((λ kv, (kv.1, field_text kv.2)) <$> l)).
Proof.
  intros H. unfold param_array, join_fields. f_equal.
  induction H as [|[k v] l Hv _ IH]; [done|]. unfold text_fields in *. rewrite !fmap_cons. cbn [add_all fst snd]. rewrite <-IH.
  by destruct v.
Qed.

Lemma named_textual n v : Forall (λ kv, textual kv.2 = true) (named n v).
Proof. destruct v as [|v|vs]; [constructor|by repeat constructor|]. by apply Forall_fmap, Forall_true. Qed.

Lemma image_textual checkOn f e :
  textual (clk_x f) = true → textual (clk_y f) = true → Forall (λ kv, textual kv.2 = true) (image_fields checkOn f e).
Proof. intros Hx Hy. apply Forall_app. split; [apply named_textual|by repeat constructor]. Qed.

Lemma formToArray_textual checkOn d f semantic :
  textual (clk_x f) = true → textual (clk_y f) = true → Forall (λ kv, textual kv.2 = true) (formToArray checkOn d f semantic).
Proof.
  intros Hx Hy. unfold formToArray. apply Forall_app. split.
  - apply Forall_bind, Forall_true. intros r. unfold compose, element_fields. cbv zeta beta. case_match; [constructor|].
    case_match; [|apply named_textual]. case_match; [by apply image_textual|constructor].
  - destruct (clk f) as [r|]; [|constructor]. cbv zeta. case_match; [by apply image_textual|constructor].
Qed.

(** The query a form is serialized to, read the way a server reads it,
    gives back the fields the plugin collected, in their order: every name with
    its value, the coordinates of a clicked image as decimal numbers. *)
Theorem formSerialize_roundtrip call checkOn d f semantic :
  textual (clk_x f) = true → textual (clk_y f) = true →
  ∃ s, formSerialize checkOn call d f semantic = Ret s ∧
       qs_parse s = (λ kv, (kv.1, field_text kv.2)) <$> formToArray checkOn d f semantic.
Proof.
  intros Hx Hy. unfold formSerialize. rewrite param_textual by by apply formToArray_textual. apply param_array_parse.
Qed.

Lemma formSerialize_roundtrip_witness :
  ∃ s, formSerialize true (λ _, VUndef) (lesson (Some 5)) (lesson_form (Some 5)) false = Ret s ∧
       qs_parse s = [("title", "a & b"); ("open", "yes"); ("tags", "x"); ("tags", "z w"); ("map", ""); ("map.x", "12"); ("map.y", "7")].
Proof.
  destruct (formSerialize_roundtrip (λ _, VUndef) true (lesson (Some 5)) (lesson_form (Some 5)) false) as (s & Hs & Hq); [reflexivity|reflexivity|].
  exists s. split; [exact Hs|]. rewrite Hq. vm_compute. reflexivity.
Defined.

(** ** Clearing a form *)

Lemma el_at_update r g d r' : el_at (update_el r g d) r' = if decide (r = r') then default no_element (g <$> els d !! r') else el_at d r'.
Proof.
  unfold el_at, update_el, with_els. cbn [els]. rewrite list_lookup_alter. by destruct (decide (r = r')) as [->|].
Qed.

Lemma deselect_index e : selectedIndex (deselect e) = (-1)%Z.
Proof.
  unfold selectedIndex. destruct (list_find _ _) as [[i o]|] eqn:E; [|done]. apply list_find_Some in E as (Hi & Ho & _).
  cbn in Hi. rewrite list_lookup_fmap in Hi. destruct (el_options e !! i); [|done]. cbn in Hi. by simplify_eq.
Qed.

Lemma clear_field_twice e : clear_field (clear_field e) = clear_field e.
Proof.
  unfold clear_field at 2 3. destruct (_ || _) eqn:E1.
  - unfold clear_field. cbn [el_type el_tag set_value]. by rewrite E1.
  - destruct (in_list (el_type e) ["checkbox"; "radio"]) eqn:E2.
    + unfold clear_field. cbn [el_type el_tag set_checked]. by rewrite E1, E2.
    + destruct (String.eqb (el_tag e) "select") eqn:E3; [|unfold clear_field; by rewrite E1, E2, E3].
      unfold clear_field. cbn [el_type el_tag deselect set_options]. rewrite E1, E2, E3. unfold deselect, set_options. cbn.
      f_equal. rewrite <-list_fmap_compose. by apply list_fmap_ext.
Qed.

Lemma el_at_clearFields rs : ∀ d r,
  el_at (clearFields rs d) r = if decide (r ∈ rs) then default no_element (clear_field <$> els d !! r) else el_at d r.
Proof.
  induction rs as [|r0 rs IH]; intros d r; [done|]. cbn [clearFields foldl]. change (foldl _ ?x rs) with (clearFields rs x).
  rewrite IH, el_at_update. unfold update_el, with_els. cbn [els]. rewrite list_lookup_alter.
  destruct (decide (r0 = r)) as [->|Hne]; destruct (decide (r ∈ rs)), (decide (r ∈ _ :: rs)); try set_solver; try done.
  destruct (els d !! r); [|done]. cbn. by rewrite clear_field_twice.
Qed.

(** The fields [clearForm] clears. *)
Definition clearable (e : element) : bool :=
  in_list (el_tag e) ["input"; "select"; "textarea"] &&
  (in_list (lower (el_type e)) text_types || in_list (el_tag e) ["textarea"; "select"] || in_list (el_type e) ["checkbox"; "radio"]).

(** The types the DOM gives to lists and text areas. *)
Definition dom_type (e : element) : bool :=
  if String.eqb (el_tag e) "select" then in_list (el_type e) ["select-one"; "select-multiple"]
  else negb (String.eqb (el_tag e) "textarea") || String.eqb (el_type e) "textarea".

Lemma clear_field_kept e : in_list (el_tag e) ["input"; "select"; "textarea"] = true → clearable e = false → clear_field e = e.
Proof.
  unfold clearable, clear_field. intros ->. cbn [andb]. destruct (in_list (lower _) _); [done|].
  destruct (in_list (el_type e) _); [by rewrite orb_true_r|]. cbn [in_list existsb].
  by destruct (String.eqb (el_tag e) "textarea"), (String.eqb (el_tag e) "select").
Qed.

(** What a cleared field is sent as. *)
Lemma clear_field_value checkOn d r e :
  els d !! r = Some (clear_field e) → dom_type e = true → clearable e = true →
  fieldValue checkOn d r true = FNull ∨ fieldValue checkOn d r true = FOne "".
Proof.
  intros Hr Hd Hc. assert (el_at d r = clear_field e) as He by (unfold el_at; by rewrite Hr).
  unfold fieldValue. destruct (unsuccessful d r) eqn:Hu; [by left|]. cbn [andb]. right. unfold unsuccessful in Hu. rewrite He in Hu |- *.
  rewrite !orb_false_iff in Hu. destruct Hu as [[[_ Hbox] _] Hsel]. revert Hc Hd Hbox Hsel. unfold clearable, dom_type, clear_field.
  destruct (in_list (lower (el_type e)) text_types || String.eqb (el_tag e) "textarea") eqn:E1; [|
    destruct (in_list (el_type e) ["checkbox"; "radio"]) eqn:E2; [|destruct (String.eqb (el_tag e) "select") eqn:E3]].
  - cbn [el_tag el_type el_checked set_value]. intros _ Hd Hbox _. destruct (String.eqb_spec (el_tag e) "select") as [Ht|Ht].
    + rewrite Ht in E1. cbn in Hd. rewrite orb_false_r in Hd. exfalso. revert E1. by apply orb_true_iff in Hd as [->%String.eqb_eq | ->%String.eqb_eq].
    + unfold val. cbn [el_tag el_type el_value set_value]. apply String.eqb_neq in Ht. rewrite Ht.
      assert (String.eqb (el_type e) "radio" || String.eqb (el_type e) "checkbox" = false) as ->; [|done].
      apply orb_true_iff in E1 as [E1|E1]; [|rewrite E1 in Hd; cbn in Hd; by apply String.eqb_eq in Hd as ->].
      destruct (String.eqb_spec (el_type e) "radio") as [E|_]; [by rewrite E in E1|].
      destruct (String.eqb_spec (el_type e) "checkbox") as [E|_]; [by rewrite E in E1|done].
  - cbn [el_type el_checked set_checked]. rewrite E2. by intros.
  - cbn [el_tag deselect set_options]. change (set_options _ e) with (deselect e). by rewrite E3, deselect_index.
  - apply orb_false_iff in E1 as [-> E1]. cbn [in_list existsb]. rewrite E1, E3. cbn [orb]. by rewrite andb_false_r.
Qed.

Lemma el_at_clearForm d f r :
  r ∈ f_all f → is_Some (els d !! r) →
  el_at (clearForm f d) r = if clearable (el_at d r) then clear_field (el_at d r) else el_at d r.
Proof.
  intros Hr [e He]. unfold clearForm. rewrite el_at_clearFields. assert (el_at d r = e) as Hel by (unfold el_at; by rewrite He). rewrite He, Hel. cbn [fmap option_fmap option_map from_option id].
  destruct (in_list (el_tag e) ["input"; "select"; "textarea"]) eqn:Ht.
  - rewrite decide_True by (apply list_elem_of_filter; by rewrite Hel).
    destruct (clearable e) eqn:Hc; [done|]. by apply clear_field_kept.
  - rewrite decide_False by (rewrite list_elem_of_filter, Hel, Ht; by intros []).
    unfold clearable. by rewrite Ht.
Qed.

Lemma forms_clearFields rs : ∀ d, forms (clearFields rs d) = forms d.
Proof. induction rs as [|r rs IH]; intros d; [done|]. cbn [clearFields foldl]. etrans; [apply IH|done]. Qed.

Lemma length_clearFields rs : ∀ d, length (els (clearFields rs d)) = length (els d).
Proof. induction rs as [|r rs IH]; intros d; [done|]. cbn [clearFields foldl]. etrans; [apply IH|]. cbn. apply length_alter. Qed.

(** A field reads the same in two documents that agree on it and on the clicks. *)
Lemma element_fields_same checkOn d d' f r :
  el_at d' r = el_at d r → forms d' = forms d → element_fields checkOn d' f false r = element_fields checkOn d f false r.
Proof.
  intros He Hf. unfold element_fields, fieldValue, unsuccessful, clk_of. by rewrite He, Hf.
Qed.

(** After [clearForm], nothing the user typed or chose is left to be sent:
    every field the form still has is empty, or comes unchanged from a field of a
    kind that is not cleared, such as a hidden one. *)
Theorem clearForm_clears checkOn d f n v :
  clk f = None →
  Forall (λ r, r ∈ f_all f ∧ r < length (els d) ∧ dom_type (el_at d r) = true) (f_elements f) →
  (n, v) ∈ formToArray checkOn (clearForm f d) f false →
  v = VStr "" ∨ ∃ r, r ∈ f_elements f ∧ clearable (el_at d r) = false ∧ (n, v) ∈ element_fields checkOn d f false r.
Proof.
  intros Hc Hall Hin. unfold formToArray in Hin. rewrite Hc, app_nil_r in Hin. apply list_elem_of_bind in Hin as (r & Hin & Hr).
  rewrite Forall_forall in Hall. destruct (Hall r Hr) as (Ha & Hlt & Hd). apply lookup_lt_is_Some in Hlt.
  pose proof (el_at_clearForm d f r Ha Hlt) as He. destruct (clearable (el_at d r)) eqn:Hcl.
  - left. unfold element_fields in Hin. cbn [andb] in Hin. rewrite He in Hin. case_match; [by apply not_elem_of_nil in Hin|].
    assert (is_Some (els (clearForm f d) !! r)) as [e' He'].
    { apply lookup_lt_is_Some. unfold clearForm. rewrite length_clearFields. by apply lookup_lt_is_Some. }
    unfold el_at at 1 in He. rewrite He' in He. cbn in He. subst e'.
    destruct (clear_field_value checkOn _ r _ He' Hd Hcl) as [E|E]; rewrite E in Hin; cbn in Hin; set_solver.
  - right. exists r. split; [done|]. split; [done|]. rewrite <-(element_fields_same checkOn d (clearForm f d)); [done|done|].
    apply forms_clearFields.
Qed.

Lemma clearForm_clears_witness :
  let d := {| els := [text_input "title" "x"; box "hidden" "id" "7" false]; forms := [lesson_form None] |} in
  let f := {| f_elements := [0; 1]; f_all := [0; 1]; clk := None; clk_x := VNull; clk_y := VNull |} in
  (VStr "7" = VStr "" ∨ ∃ r, r ∈ f_elements f ∧ clearable (el_at d r) = false ∧ ("id", VStr "7") ∈ element_fields true d f false r) ∧
  formToArray true (clearForm f d) f false = [("title", VStr ""); ("id", VStr "7")].
Proof.
  intros d f. split; [|vm_compute; reflexivity].
  apply (clearForm_clears true d f "id" (VStr "7")).
  - reflexivity.
  - repeat (constructor; [split; [vm_compute; set_solver|split; [cbn; lia|reflexivity]]|]). constructor.
  - vm_compute. set_solver.
Defined.
