(* ===== verification/JQueryDeferred.v ===== *)
(** * Callback lists and deferred objects of jQuery (jquery-1.9.1.js)

    [jQuery.Callbacks], [jQuery.Deferred] and [jQuery.when].  The world holds
    the callback lists, the deferred objects and the counters of [when], and a
    record of the calls of the page's functions.  A function of the page is a
    number; the parameter [body] says which operations it carries out when it is
    called, and [result] what it returns.  The functions that jQuery itself adds
    to the lists are the other constructors of [fn].  Contexts ([this]) are not
    modelled.

    A callback may fire or extend the list that is calling it, for ever if it
    likes, as in the code; [run] therefore takes fuel, and what is proved about
    it says how much is enough. *)

From Stdlib Require Import SpecFloat.
From S2P Require Import Prelude JSNum JSValue JSON JQueryCore.

Definition args := list value.

Inductive action := Resolve | Reject | Notify.

Inductive fn :=
| User (f : nat)
| SetState (d : nat) (s : string)
| DisableList (l : nat)
| LockList (l : nat)
| Forward (a : action) (f : option nat) (nd : nat)   (* the function [then] adds *)
| Fires (a : action) (d : nat)                       (* [deferred.resolve] and the others *)
| Update (progress : bool) (k i : nat).              (* the functions of [when] *)

#[export] Instance action_eq_dec : EqDecision action.
Proof. solve_decision. Defined.
#[export] Instance fn_eq_dec : EqDecision fn.
Proof. solve_decision. Defined.

(** ** Callback lists *)

Record cblist := {
  c_once : bool; c_memory : bool; c_unique : bool; c_stopOnFalse : bool;
  firing : bool;
  memory : option args;          (* [None] when it is falsy *)
  fired : bool;
  firingLength : Z;
  firingIndex : Z;
  firingStart : nat;
  fns : option (list fn);        (* [list], [None] when disabled *)
  stack : option (list args)     (* [None] when it is falsy *)
}.

Definition createOptions (options : string) : list string := words_from "" options.

Definition new_Callbacks (options : string) : cblist :=
  let o := createOptions options in
  let flag k := existsb (String.eqb k) o in
  {| c_once := flag "once"; c_memory := flag "memory"; c_unique := flag "unique"; c_stopOnFalse := flag "stopOnFalse";
     firing := false; memory := None; fired := false; firingLength := 0; firingIndex := 0; firingStart := 0;
     fns := Some []; stack := if flag "once" then None else Some [] |}.

Definition set_fns (l : option (list fn)) (c : cblist) : cblist :=
  {| c_once := c_once c; c_memory := c_memory c; c_unique := c_unique c; c_stopOnFalse := c_stopOnFalse c; firing := firing c;
     memory := memory c; fired := fired c; firingLength := firingLength c; firingIndex := firingIndex c; firingStart := firingStart c;
     fns := l; stack := stack c |}.
Definition set_stack (s : option (list args)) (c : cblist) : cblist :=
  {| c_once := c_once c; c_memory := c_memory c; c_unique := c_unique c; c_stopOnFalse := c_stopOnFalse c; firing := firing c;
     memory := memory c; fired := fired c; firingLength := firingLength c; firingIndex := firingIndex c; firingStart := firingStart c;
     fns := fns c; stack := s |}.
Definition set_memory (m : option args) (c : cblist) : cblist :=
  {| c_once := c_once c; c_memory := c_memory c; c_unique := c_unique c; c_stopOnFalse := c_stopOnFalse c; firing := firing c;
     memory := m; fired := fired c; firingLength := firingLength c; firingIndex := firingIndex c; firingStart := firingStart c;
     fns := fns c; stack := stack c |}.
Definition set_firing (b : bool) (c : cblist) : cblist :=
  {| c_once := c_once c; c_memory := c_memory c; c_unique := c_unique c; c_stopOnFalse := c_stopOnFalse c; firing := b;
     memory := memory c; fired := fired c; firingLength := firingLength c; firingIndex := firingIndex c; firingStart := firingStart c;
     fns := fns c; stack := stack c |}.
Definition set_length (n : Z) (c : cblist) : cblist :=
  {| c_once := c_once c; c_memory := c_memory c; c_unique := c_unique c; c_stopOnFalse := c_stopOnFalse c; firing := firing c;
     memory := memory c; fired := fired c; firingLength := n; firingIndex := firingIndex c; firingStart := firingStart c;
     fns := fns c; stack := stack c |}.
Definition set_index (n : Z) (c : cblist) : cblist :=
  {| c_once := c_once c; c_memory := c_memory c; c_unique := c_unique c; c_stopOnFalse := c_stopOnFalse c; firing := firing c;
     memory := memory c; fired := fired c; firingLength := firingLength c; firingIndex := n; firingStart := firingStart c;
     fns := fns c; stack := stack c |}.
Definition set_start (n : nat) (c : cblist) : cblist :=
  {| c_once := c_once c; c_memory := c_memory c; c_unique := c_unique c; c_stopOnFalse := c_stopOnFalse c; firing := firing c;
     memory := memory c; fired := fired c; firingLength := firingLength c; firingIndex := firingIndex c; firingStart := n;
     fns := fns c; stack := stack c |}.

(** The start of [fire(data)], up to the loop. *)
Definition fire_start (data : args) (c : cblist) : cblist :=
  {| c_once := c_once c; c_memory := c_memory c; c_unique := c_unique c; c_stopOnFalse := c_stopOnFalse c; firing := true;
     memory := if c_memory c then Some data else None; fired := true;
     firingLength := Z.of_nat (length (default [] (fns c))); firingIndex := Z.of_nat (firingStart c); firingStart := 0;
     fns := fns c; stack := stack c |}.

(** The arguments of [add], which may hold arrays of functions. *)
Inductive add_arg := AFn (f : fn) | AArray (l : list add_arg) | AOther.

Fixpoint flatten_arg (a : add_arg) : list fn :=
  match a with
  | AFn f => [f]
  | AArray l => (fix go l := match l with [] => [] | a :: l' => flatten_arg a ++ go l' end) l
  | AOther => []
  end.

(** [self.has(fn)] *)
Definition has (f : fn) (c : cblist) : bool := match fns c with Some l => bool_decide (f ∈ l) | None => false end.

Definition push_fn (c : cblist) (f : fn) : cblist :=
  if negb (c_unique c) || negb (has f c) then set_fns (Some (default [] (fns c) ++ [f])) c else c.

(** [self.add], up to the call of [fire] with the remembered arguments, which is returned. *)
Definition add_fns (l : list add_arg) (c : cblist) : cblist * option args :=
  match fns c with
  | None => (c, None)
  | Some fs =>
      let c' := foldl push_fn c (l ≫= flatten_arg) in
      if firing c' then (set_length (Z.of_nat (length (default [] (fns c')))) c', None)
      else match memory c' with
           | Some m => (set_start (length fs) c', Some m)
           | None => (c', None)
           end
  end.

(** The loop of [remove] for one function, from position [i] on. *)
Fixpoint remove_from (fuel : nat) (f : fn) (i : nat) (c : cblist) : cblist :=
  match fuel, fns c with
  | S n, Some l =>
      match list_find (λ g, g = f) (drop i l) with
      | Some (j, _) =>
          let index := (i + j)%nat in
          let c1 := set_fns (Some (delete index l)) c in
          let c2 := if firing c1 && (Z.of_nat index <=? firingLength c1)%Z then set_length (firingLength c1 - 1) c1 else c1 in
          let c3 := if firing c2 && (Z.of_nat index <=? firingIndex c2)%Z then set_index (firingIndex c2 - 1) c2 else c2 in
          remove_from n f index c3
      | None => c
      end
  | _, _ => c
  end.

Definition remove_fns (l : list fn) (c : cblist) : cblist :=
  match fns c with
  | None => c
  | Some _ => foldl (λ c f, remove_from (length (default [] (fns c))) f 0 c) c l
  end.

Definition cb_empty : cblist → cblist := set_fns (Some []).
Definition cb_disable (c : cblist) : cblist := set_memory None (set_stack None (set_fns None c)).
Definition cb_disabled (c : cblist) : bool := bool_decide (fns c = None).
Definition cb_lock (c : cblist) : cblist :=
  let c' := set_stack None c in
  match memory c' with Some _ => c' | None => cb_disable c' end.
Definition cb_locked (c : cblist) : bool := bool_decide (stack c = None).

(** ** The world *)

Record deferred := { d_done : nat; d_fail : nat; d_progress : nat; d_state : string }.
Record when_state := { k_remaining : Z; k_values : list value; k_progress : list value; k_deferred : nat }.

Record world := {
  lists : list cblist;
  defs : list deferred;
  whens : list when_state;
  calls : list (nat * args)       (* calls of the page's functions *)
}.

Definition with_list (l : nat) (g : cblist → cblist) (w : world) : world :=
  {| lists := alter g l (lists w); defs := defs w; whens := whens w; calls := calls w |}.
Definition with_def (d : nat) (g : deferred → deferred) (w : world) : world :=
  {| lists := lists w; defs := alter g d (defs w); whens := whens w; calls := calls w |}.
Definition with_when (k : nat) (g : when_state → when_state) (w : world) : world :=
  {| lists := lists w; defs := defs w; whens := alter g k (whens w); calls := calls w |}.
Definition log_call (f : nat) (a : args) (w : world) : world :=
  {| lists := lists w; defs := defs w; whens := whens w; calls := calls w ++ [(f, a)] |}.
Definition set_state (s : string) (d : deferred) : deferred :=
  {| d_done := d_done d; d_fail := d_fail d; d_progress := d_progress d; d_state := s |}.

(** [jQuery.Deferred()], with the functions it puts on its lists. *)
Definition new_Deferred (w : world) : nat * world :=
  let d := length (defs w) in
  let l := length (lists w) in
  let done := foldl push_fn (new_Callbacks "once memory") [SetState d "resolved"; DisableList (l + 1); LockList (l + 2)] in
  let fail := foldl push_fn (new_Callbacks "once memory") [SetState d "rejected"; DisableList l; LockList (l + 2)] in
  (d, {| lists := lists w ++ [done; fail; new_Callbacks "memory"];
         defs := defs w ++ [{| d_done := l; d_fail := l + 1; d_progress := l + 2; d_state := "pending" |}];
         whens := whens w; calls := calls w |}).

Definition no_deferred : deferred := {| d_done := 0; d_fail := 0; d_progress := 0; d_state := "" |}.
Definition def_at (w : world) (d : nat) : deferred := default no_deferred (defs w !! d).
Definition list_of (w : world) (d : nat) (a : action) : nat :=
  match a with Resolve => d_done (def_at w d) | Reject => d_fail (def_at w d) | Notify => d_progress (def_at w d) end.

(** ** Operations *)

(** What a function returns: a value, or a promise. *)
Inductive ret := RVal (v : value) | RPromise (d : nat).

(** An argument of [when]. *)
Inductive subordinate := SValue (v : value) | SPromise (d : nat).

Inductive op :=
| OAdd (l : nat) (fs : list add_arg)
| ORemove (l : nat) (fs : list fn)
| OEmpty (l : nat)
| ODisable (l : nat)
| OLock (l : nat)
| OFire (l : nat) (data : args)                       (* [fireWith] *)
| ODeferred (func : option nat)
| OAddTo (d : nat) (a : action) (fs : list add_arg)   (* [done], [fail], [progress] *)
| OAlways (d : nat) (fs : list add_arg)
| OAct (a : action) (d : nat) (data : args)           (* [resolve], [reject], [notify] *)
| OThen (d : nat) (f g h : option nat)
| OWhen (subs : list subordinate)
| OCountdown (k : nat)                                (* [--remaining] in [when], *)
| OSettle (k : nat).                                  (* and its last test *)

(** The array of texts an array of values is passed as. *)
Definition array_of (l : list value) : value := VObj true (imap (λ i v, (dec_of_N (N.of_nat i), v)) l).

(** [arguments.length > 1 ? slice(arguments) : value] *)
Definition settled_value (a : args) : value :=
  match a with [] => VUndef | [v] => v | _ => array_of a end.

Section run.
Context (body : nat → args → list op).
Context (result : nat → args → ret).

Inductive job :=
| JOp (o : op)
| JOps (os : list op)
| JFire (l : nat) (data : args)
| JLoop (l : nat) (data : args)
| JCall (f : fn) (a : args).

Definition outcome := option (res ret * world).

Definition undefined (w : world) : outcome := Some (Ret (RVal VUndef), w).

Definition and_then (o : outcome) (k : ret → world → outcome) : outcome :=
  match o with
  | Some (Ret r, w) => k r w
  | _ => o
  end.

Definition is_false (r : ret) : bool := match r with RVal (VBool false) => true | _ => false end.

(** The loop of [when] over its arguments, from position [i] on. *)
Fixpoint when_ops (k dm i : nat) (subs : list subordinate) : list op :=
  match subs with
  | [] => [OSettle k]
  | SPromise d :: subs' =>
      [OAddTo d Resolve [AFn (Update false k i)]; OAddTo d Reject [AFn (Fires Reject dm)]; OAddTo d Notify [AFn (Update true k i)]]
      ++ when_ops k dm (S i) subs'
  | SValue _ :: subs' => OCountdown k :: when_ops k dm (S i) subs'
  end.

Definition sub_value (s : subordinate) : value := match s with SValue v => v | SPromise _ => VUndef end.

Definition countdown (k : when_state) : when_state :=
  {| k_remaining := k_remaining k - 1; k_values := k_values k; k_progress := k_progress k; k_deferred := k_deferred k |}.
Definition put_value (progress : bool) (i : nat) (v : value) (k : when_state) : when_state :=
  {| k_remaining := k_remaining k;
     k_values := if progress then k_values k else <[i := v]> (k_values k);
     k_progress := if progress then <[i := v]> (k_progress k) else k_progress k;
     k_deferred := k_deferred k |}.

(** The end of [fire], after the loop; [rec] carries out a job. *)
Definition loop_finish (rec : job → world → outcome) (l : nat) (w : world) : outcome :=
  let w := with_list l (set_firing false) w in
  match lists w !! l with
  | Some c =>
      match fns c, stack c, memory c with
      | None, _, _ => undefined w
      | Some _, Some (d :: st), _ => rec (JFire l d) (with_list l (set_stack (Some st)) w)
      | Some _, Some [], _ => undefined w
      | Some _, None, Some _ => undefined (with_list l (set_fns (Some [])) w)
      | Some _, None, None => undefined (with_list l cb_disable w)
      end
  | None => undefined w
  end.

(** Carrying out a job. *)
Fixpoint run (fuel : nat) (j : job) (w : world) {struct fuel} : outcome :=
  match fuel with
  | O => None
  | S n =>
      match j with
      | JOps [] => undefined w
      | JOps (o :: os) => and_then (run n (JOp o) w) (λ _ w1, run n (JOps os) w1)
      | JFire l data => run n (JLoop l data) (with_list l (fire_start data) w)
      | JLoop l data =>
          match lists w !! l with
          | None => undefined w
          | Some c =>
              match fns c with
              | Some fs =>
                  if (firingIndex c <? firingLength c)%Z then
                    match fs !! Z.to_nat (firingIndex c) with
                    | Some f =>
                        and_then (run n (JCall f data) w) (λ r w1,
                          if is_false r && c_stopOnFalse c then loop_finish (run n) l (with_list l (set_memory None) w1)
                          else run n (JLoop l data) (with_list l (λ c, set_index (firingIndex c + 1) c) w1))
                    | None => Some (Throw TypeError, w)
                    end
                  else loop_finish (run n) l w
              | None => loop_finish (run n) l w
              end
          end
      | JCall f a =>
          match f with
          | User u => and_then (run n (JOps (body u a)) (log_call u a w)) (λ _ w1, Some (Ret (result u a), w1))
          | SetState d s => undefined (with_def d (set_state s) w)
          | DisableList l => undefined (with_list l cb_disable w)
          | LockList l => undefined (with_list l cb_lock w)
          | Forward act f nd =>
              match f with
              | Some u =>
                  and_then (run n (JCall (User u) a) w) (λ r w1,
                    match r with
                    | RPromise p =>
                        run n (JOps [OAddTo p Resolve [AFn (Fires Resolve nd)]; OAddTo p Reject [AFn (Fires Reject nd)];
                                     OAddTo p Notify [AFn (Fires Notify nd)]]) w1
                    | RVal v => run n (JOp (OAct act nd [v])) w1
                    end)
              | None => run n (JOp (OAct act nd a)) w
              end
          | Fires act d => run n (JOp (OAct act d a)) w
          | Update progress k i =>
              let w1 := with_when k (put_value progress i (settled_value a)) w in
              match whens w1 !! k with
              | None => undefined w1
              | Some ks =>
                  if progress then run n (JOp (OAct Notify (k_deferred ks) (k_progress ks))) w1
                  else
                    let w2 := with_when k countdown w1 in
                    if (k_remaining ks - 1 =? 0)%Z then run n (JOp (OAct Resolve (k_deferred ks) (k_values ks))) w2
                    else undefined w2
              end
          end
      | JOp o =>
          match o with
          | OAdd l fs =>
              match lists w !! l with
              | None => undefined w
              | Some c =>
                  let '(c', m) := add_fns fs c in
                  let w1 := with_list l (λ _, c') w in
                  match m with Some m => run n (JFire l m) w1 | None => undefined w1 end
              end
          | ORemove l fs => undefined (with_list l (remove_fns fs) w)
          | OEmpty l => undefined (with_list l cb_empty w)
          | ODisable l => undefined (with_list l cb_disable w)
          | OLock l => undefined (with_list l cb_lock w)
          | OFire l data =>
              match lists w !! l with
              | None => undefined w
              | Some c =>
                  match fns c, stack c with
                  | None, _ => undefined w
                  | Some _, None => if fired c then undefined w else run n (JFire l data) w
                  | Some _, Some st =>
                      if firing c then undefined (with_list l (set_stack (Some (st ++ [data]))) w) else run n (JFire l data) w
                  end
              end
          | ODeferred func =>
              let '(d, w1) := new_Deferred w in
              and_then (match func with Some u => run n (JCall (User u) []) w1 | None => undefined w1 end)
                (λ _ w2, Some (Ret (RPromise d), w2))
          | OAddTo d act fs => run n (JOp (OAdd (list_of w d act) fs)) w
          | OAlways d fs => run n (JOps [OAddTo d Resolve [AArray fs]; OAddTo d Reject [AArray fs]]) w
          | OAct act d data => run n (JOp (OFire (list_of w d act) data)) w
          | OThen d f g h =>
              let '(nd, w1) := new_Deferred w in
              and_then (run n (JOps [OAddTo d Resolve [AFn (Forward Resolve f nd)]; OAddTo d Reject [AFn (Forward Reject g nd)];
                                     OAddTo d Notify [AFn (Forward Notify h nd)]]) w1)
                (λ _ w2, Some (Ret (RPromise nd), w2))
          | OWhen [SPromise d] => Some (Ret (RPromise d), w)
          | OWhen subs =>
              let '(dm, w1) := new_Deferred w in
              let k := length (whens w1) in
              let len := length subs in
              let ks := {| k_remaining := if (len =? 1)%nat then 0 else Z.of_nat len; k_values := sub_value <$> subs;
                           k_progress := replicate len VUndef; k_deferred := dm |} in
              let w2 := {| lists := lists w1; defs := defs w1; whens := whens w1 ++ [ks]; calls := calls w1 |} in
              and_then (run n (JOps (if (1 <? len)%nat then when_ops k dm 0 subs else [OSettle k])) w2)
                (λ _ w3, Some (Ret (RPromise dm), w3))
          | OCountdown k => undefined (with_when k countdown w)
          | OSettle k =>
              match whens w !! k with
              | Some ks => if (k_remaining ks =? 0)%Z then run n (JOp (OAct Resolve (k_deferred ks) (k_values ks))) w else undefined w
              | None => undefined w
              end
          end
      end
  end.
End run.

Definition empty_world : world := {| lists := []; defs := []; whens := []; calls := [] |}.

(** A chain of [then], resolved once; the callbacks run in order, and a later [done] is called at once. *)
Example then_ex :
  let body f _ := if (f =? 9)%nat then [OAct Resolve 0 [VInt 5]] else [] in
  let result f a := if (f =? 2)%nat then RVal (VStr "mapped") else RVal VUndef in
  option_map (λ o, (calls o.2, d_state (def_at o.2 0), d_state (def_at o.2 1)))
    (run body result 60 (JOps [ODeferred None; OAddTo 0 Resolve [AFn (User 1)]; OThen 0 (Some 2) None None; OAddTo 1 Resolve [AFn (User 3)];
                               OAddTo 0 Reject [AFn (User 4)]; OAct Resolve 0 [VInt 7]; OAct Reject 0 []; OAddTo 0 Resolve [AFn (User 5)]]) empty_world) =
  Some ([(1, [VInt 7]); (2, [VInt 7]); (3, [VStr "mapped"]); (5, [VInt 7])], "resolved", "resolved").
Proof. vm_compute. reflexivity. Qed.

Example when_ex :
  option_map (λ o, (calls o.2, d_state (def_at o.2 2)))
    (run (λ _ _, []) (λ _ _, RVal VUndef) 60
       (JOps [ODeferred None; ODeferred None; OWhen [SPromise 0; SValue (VInt 3); SPromise 1]; OAddTo 2 Resolve [AFn (User 1)];
              OAct Resolve 1 [VInt 2]; OAct Resolve 0 [VInt 1; VInt 11]]) empty_world) =
  Some ([(1, [array_of [VInt 1; VInt 11]; VInt 3; VInt 2])], "resolved").
Proof. vm_compute. reflexivity. Qed.

(** Emptying a list from one of its own callbacks: the loop goes on to the old
    length and calls what is not there. *)
Theorem empty_while_firing_throws :
  option_map fst
    (run (λ f _, if (f =? 1)%nat then [OEmpty 0] else []) (λ _ _, RVal VUndef) 60
       (JOps [OAdd 0 [AFn (User 1); AFn (User 2)]; OFire 0 []])
       {| lists := [new_Callbacks ""]; defs := []; whens := []; calls := [] |}) = Some (Throw TypeError).
Proof. vm_compute. reflexivity. Qed.
