(* ===== verification/DeferredFacts.v ===== *)
(** * A deferred object refines its specification

    The specification is a promise: pending with the functions waiting for it,
    or settled with a value, and in both cases the last notification.  The
    deferred object of jQuery, three callback lists with functions that disable
    and lock each other, is shown to behave like it, for callbacks that do not
    themselves act on deferred objects. *)

From Stdlib Require Import SpecFloat.
From S2P Require Import Prelude JSNum JSValue JSON JQueryCore JQueryDeferred.

(** ** The specification *)

Inductive promise :=
| Pending (done fail progress : list nat) (last : option args)
| Settled (resolved : bool) (a : args) (last : option args).

Inductive request :=
| Register (a : action) (f : nat)
| Act (a : action) (data : args).

Definition call_all (fs : list nat) (a : args) : list (nat * args) := (λ f, (f, a)) <$> fs.

(** The next state, and the calls made. *)
Definition promise_step (p : promise) (q : request) : promise * list (nat * args) :=
  match p, q with
  | Pending ds fs ps last, Register Resolve f => (Pending (ds ++ [f]) fs ps last, [])
  | Pending ds fs ps last, Register Reject f => (Pending ds (fs ++ [f]) ps last, [])
  | Pending ds fs ps last, Register Notify f =>
      (Pending ds fs (ps ++ [f]) last, match last with Some a => [(f, a)] | None => [] end)
  | Pending ds fs ps last, Act Resolve a => (Settled true a last, call_all ds a)
  | Pending ds fs ps last, Act Reject a => (Settled false a last, call_all fs a)
  | Pending ds fs ps last, Act Notify a => (Pending ds fs ps (Some a), call_all ps a)
  | Settled ok a last, Register Resolve f => (p, if ok then [(f, a)] else [])
  | Settled ok a last, Register Reject f => (p, if ok then [] else [(f, a)])
  | Settled ok a last, Register Notify f => (p, match last with Some b => [(f, b)] | None => [] end)
  | Settled ok a last, Act _ _ => (p, [])
  end.

Fixpoint promise_run (p : promise) (qs : list request) : promise * list (nat * args) :=
  match qs with
  | [] => (p, [])
  | q :: qs' => let '(p1, cs) := promise_step p q in let '(p2, cs') := promise_run p1 qs' in (p2, cs ++ cs')
  end.

Definition promise_state (p : promise) : string :=
  match p with Pending _ _ _ _ => "pending" | Settled true _ _ => "resolved" | Settled false _ _ => "rejected" end.

(** ** The lists of a deferred object *)

Definition op_of (d : nat) (q : request) : op :=
  match q with
  | Register a f => OAddTo d a [AFn (User f)]
  | Act a data => OAct a d data
  end.

(** A list at rest. *)
Record at_rest (c : cblist) (mem : option args) (was_fired : bool) (fs : list fn) (st : option (list args)) : Prop := {
  r_firing : firing c = false;
  r_memory_option : c_memory c = true;
  r_unique : c_unique c = false;
  r_stop : c_stopOnFalse c = false;
  r_memory : memory c = mem;
  r_fired : fired c = was_fired;
  r_start : firingStart c = 0;
  r_fns : fns c = Some fs;
  r_stack : stack c = st
}.

Definition disabled_list (c : cblist) : Prop := fns c = None.

(** The functions jQuery puts first on the lists. *)
Definition own_fns (d : nat) (state : string) (other progress : nat) : list fn :=
  [SetState d state; DisableList other; LockList progress].

(** A settled deferred has one list left to answer from; so has a locked
    progress list, if there was a notification. *)
Definition progress_after (last : option args) (c : cblist) : Prop :=
  match last with
  | Some b => ∃ fs, at_rest c (Some b) true fs None
  | None => disabled_list c
  end.

Definition implements (w : world) (d : nat) (p : promise) : Prop :=
  ∃ l0 l1 l2 c0 c1 c2,
    l0 ≠ l1 ∧ l0 ≠ l2 ∧ l1 ≠ l2 ∧
    defs w !! d = Some {| d_done := l0; d_fail := l1; d_progress := l2; d_state := promise_state p |} ∧
    lists w !! l0 = Some c0 ∧ lists w !! l1 = Some c1 ∧ lists w !! l2 = Some c2 ∧
    match p with
    | Pending ds fs ps last =>
        at_rest c0 None false (own_fns d "resolved" l1 l2 ++ (User <$> ds)) None ∧
        at_rest c1 None false (own_fns d "rejected" l0 l2 ++ (User <$> fs)) None ∧
        at_rest c2 last (bool_decide (is_Some last)) (User <$> ps) (Some [])
    | Settled true a last => at_rest c0 (Some a) true [] None ∧ disabled_list c1 ∧ progress_after last c2
    | Settled false a last => disabled_list c0 ∧ at_rest c1 (Some a) true [] None ∧ progress_after last c2
    end.

Lemma new_Deferred_implements w d w' : new_Deferred w = (d, w') → implements w' d (Pending [] [] [] None) ∧ calls w' = calls w.
Proof.
  intros [= <- <-]. split; [|done]. set (l := length (lists w)). exists l, (l + 1), (l + 2). eexists _, _, _.
  repeat (split; [lia|]). cbn [defs lists].
  split; [by rewrite lookup_app_r, Nat.sub_diag by lia|].
  rewrite !lookup_app_r by lia. replace (l - length (lists w)) with 0 by lia.
  replace (l + 1 - length (lists w)) with 1 by lia. replace (l + 2 - length (lists w)) with 2 by lia.
  split; [reflexivity|]. split; [reflexivity|]. split; [reflexivity|]. by repeat split.
Qed.

(** ** More fuel does not change a result *)

Lemma and_then_mono x y k k' o :
  (∀ o, x = Some o → y = Some o) → (∀ r w o, k r w = Some o → k' r w = Some o) → and_then x k = Some o → and_then y k' = Some o.
Proof.
  intros Hx Hk. destruct x as [[[r|e] w]|] eqn:E; cbn; [|intros [= <-]; by rewrite (Hx _ eq_refl)|done].
  rewrite (Hx _ eq_refl). apply Hk.
Qed.

Lemma run_mono body result n : ∀ j w o m, run body result n j w = Some o → n ≤ m → run body result m j w = Some o.
Proof.
  induction n as [|n IH]; intros j w o m H Hm; [done|]. destruct m as [|m]; [lia|].
  assert (∀ j w o, run body result n j w = Some o → run body result m j w = Some o) as Hrun by (intros; eapply IH; [done|lia]).
  clear IH Hm. revert H. cbn [run].
  destruct j as [op|os|l data|l data|f a].
  - destruct op; try done; try apply Hrun.
    + destruct (lists w !! l); [|done]. destruct (add_fns fs c) as [c' [m'|]]; [apply Hrun|done].
    + destruct (lists w !! l); [|done]. destruct (fns c); [|done]. destruct (stack c); [destruct (firing c)|destruct (fired c)]; try done; apply Hrun.
    + destruct (new_Deferred w) as [d w1]. apply and_then_mono; [|done]. destruct func; [|done]. intros. by apply Hrun.
    + destruct (new_Deferred w) as [nd w1]. apply and_then_mono; [|done]. intros. by apply Hrun.
    + destruct (new_Deferred w) as [dm w1].
      destruct subs as [|[v|d] [|sub subs]]; try done; apply and_then_mono; try done; intros; by apply Hrun.
    + destruct (whens w !! k); [|done]. destruct (_ =? _)%Z; [apply Hrun|done].
  - destruct os; [done|]. apply and_then_mono; intros; by apply Hrun.
  - apply Hrun.
  - destruct (lists w !! l) as [c|]; [|done].
    assert (∀ w o, loop_finish (run body result n) l w = Some o → loop_finish (run body result m) l w = Some o) as Hfin.
    { intros w0 o0. unfold loop_finish. cbv zeta. destruct (lists _ !! l) as [c0|]; [|done]. destruct (fns c0); [|done].
      destruct (stack c0) as [[|d st]|]; [done|apply Hrun|done]. }
    destruct (fns c) as [fs|]; [|apply Hfin]. destruct (_ <? _)%Z; [|apply Hfin]. destruct (fs !! _) as [f|]; [|done].
    apply and_then_mono; [intros; by apply Hrun|]. intros r w1 o1. destruct (_ && _); [apply Hfin|apply Hrun].
  - destruct f as [u| | | |act [u|] nd|act d|progress k i]; try done; try apply Hrun.
    + apply and_then_mono; [intros; by apply Hrun|done].
    + apply and_then_mono; [intros; by apply Hrun|]. intros [v|p] w1 o1; apply Hrun.
    + cbv zeta. destruct (whens _ !! k); [|done]. destruct progress; [apply Hrun|]. destruct (_ =? _)%Z; [apply Hrun|done].
Qed.

(** ** Running quiet callbacks *)

Section quiet.
Context (body : nat → args → list op) (result : nat → args → ret).
Context (Hquiet : ∀ f a, body f a = []).

Notation run := (run body result).

(** The world with a list replaced and calls added. *)
Definition upd (w : world) (l : nat) (c : cblist) (cs : list (nat * args)) : world :=
  {| lists := <[l := c]> (lists w); defs := defs w; whens := whens w; calls := calls w ++ cs |}.

Lemma with_list_upd w l g c : lists w !! l = Some c → with_list l g w = upd w l (g c) [].
Proof.
  intros H. unfold with_list, upd. rewrite app_nil_r. f_equal. apply list_eq. intros i. rewrite list_lookup_alter, list_lookup_insert.
  destruct (decide (l = i)) as [<-|]; [|by rewrite decide_False by naive_solver]. rewrite H.
  by rewrite decide_True by (split; [done|by eapply lookup_lt_Some]).
Qed.

Lemma upd_upd w l c c' cs cs' : upd (upd w l c cs) l c' cs' = upd w l c' (cs ++ cs').
Proof. unfold upd. cbn. by rewrite list_insert_insert_eq, app_assoc. Qed.

Lemma lists_upd w l c cs : l < length (lists w) → lists (upd w l c cs) !! l = Some c.
Proof. intros H. cbn. by apply list_lookup_insert_eq. Qed.

Lemma lists_upd_ne w l l' c cs : l ≠ l' → lists (upd w l c cs) !! l' = lists w !! l'.
Proof. intros H. cbn. by apply list_lookup_insert_ne. Qed.

(** What the end of the loop leaves of a list. *)
Definition rested (c : cblist) : cblist :=
  match stack c with
  | None => set_fns (Some []) (set_firing false c)
  | Some _ => set_firing false c
  end.

Definition can_rest (c : cblist) : Prop := stack c = Some [] ∨ stack c = None ∧ is_Some (memory c).

Lemma loop_end n l data w c fs :
  lists w !! l = Some c → fns c = Some fs → (firingLength c ≤ firingIndex c)%Z → can_rest c →
  run (S n) (JLoop l data) w = undefined (upd w l (rested c) []).
Proof.
  intros Hl Hf Hi Hc. cbn [JQueryDeferred.run]. rewrite Hl, Hf, (proj2 (Z.ltb_ge _ _)) by done.
  unfold loop_finish. rewrite (with_list_upd w l _ c) by done. pose proof (lookup_lt_Some _ _ _ Hl) as Hlt.
  rewrite lists_upd by done. cbn [fns stack memory set_firing].
  rewrite Hf. unfold rested. destruct Hc as [-> | [-> [m ->]]]; [done|].
  rewrite (with_list_upd _ l _ (set_firing false c)) by by apply lists_upd. by rewrite upd_upd.
Qed.

Lemma call_user n u a w : 2 ≤ n → run n (JCall (User u) a) w = Some (Ret (result u a), log_call u a w).
Proof. intros Hn. destruct n as [|[|n]]; [lia|lia|]. cbn. by rewrite Hquiet. Qed.

(** The rest of a loop calls the page's functions that are left, in order. *)
Lemma user_loop us : ∀ n l data w c pre,
  lists w !! l = Some c → fns c = Some (pre ++ (User <$> us)) → firingIndex c = Z.of_nat (length pre) →
  firingLength c = Z.of_nat (length pre + length us) → c_stopOnFalse c = false → can_rest c → length us + 3 ≤ n →
  ∃ c', run n (JLoop l data) w = undefined (upd w l (rested c') (call_all us data)) ∧
        ∃ i, c' = set_index i c.
Proof.
  induction us as [|u us IH]; intros n l data w c pre Hl Hf Hi Hlen Hs Hc Hn.
  - destruct n as [|n]; [lia|]. exists c. split.
    + rewrite (loop_end n l data w c) with (fs := pre) by (done || (rewrite ?Hf; cbn; by rewrite app_nil_r) || (cbn in Hlen; lia)). done.
    + exists (firingIndex c). by destruct c.
  - destruct n as [|n]; [lia|]. cbn [JQueryDeferred.run]. rewrite Hl, Hf, Hi, Hlen. cbn [length] in Hlen, Hn.
    rewrite (proj2 (Z.ltb_lt _ _)) by (cbn; lia). rewrite Nat2Z.id, fmap_cons, lookup_app_r, Nat.sub_diag by done. cbn [lookup list_lookup].
    rewrite call_user by lia. cbn [and_then]. rewrite Hs, andb_false_r.
    set (w1 := log_call u data w). assert (lists w1 !! l = Some c) as Hl1 by done.
    rewrite (with_list_upd w1 l _ c) by done. pose proof (lookup_lt_Some _ _ _ Hl) as Hlt.
    destruct (IH n l data (upd w1 l (set_index (firingIndex c + 1) c) []) (set_index (firingIndex c + 1) c) (pre ++ [User u]))
      as (c' & Hrun & i & Hc').
    + by apply lists_upd.
    + cbn [fns set_index]. rewrite Hf, fmap_cons, <-app_assoc. done.
    + cbn [firingIndex set_index]. rewrite Hi, length_app. cbn. lia.
    + cbn [firingLength set_index]. rewrite Hlen, length_app. cbn. lia.
    + done.
    + done.
    + lia.
    + exists c'. split; [|exists i; by rewrite Hc'].
      rewrite Hrun, upd_upd. unfold undefined, upd, w1. cbn. by rewrite <-app_assoc.
Qed.

(** Firing a list from its start on, when only functions of the page are left. *)
Lemma fire_users n l data w c pre us :
  lists w !! l = Some c → fns c = Some (pre ++ (User <$> us)) → firingStart c = length pre →
  c_memory c = true → c_unique c = false → c_stopOnFalse c = false → stack c = None ∨ stack c = Some [] → length us + 4 ≤ n →
  ∃ c', run n (JFire l data) w = undefined (upd w l c' (call_all us data)) ∧
        at_rest c' (Some data) true (match stack c with None => [] | Some _ => pre ++ (User <$> us) end) (stack c).
Proof.
  intros Hl Hf Hst Hm Hu Hs Hsk Hn. destruct n as [|n]; [lia|]. cbn [JQueryDeferred.run].
  pose proof (lookup_lt_Some _ _ _ Hl) as Hlt. rewrite (with_list_upd w l _ c) by done.
  destruct (user_loop us n l data (upd w l (fire_start data c) []) (fire_start data c) pre) as (c' & Hrun & i & ->).
  - by apply lists_upd.
  - done.
  - cbn. by rewrite Hst.
  - cbn. rewrite Hf. cbn. by rewrite length_app, length_fmap.
  - done.
  - unfold can_rest. cbn. rewrite Hm. destruct Hsk as [-> | ->]; [right|left]; by eauto.
  - lia.
  - eexists. split; [by rewrite Hrun, upd_upd|]. unfold rested. cbn. destruct Hsk as [E|E]; rewrite E.
    + split; cbn; try done; by rewrite ?Hm.
    + split; cbn; try done; by rewrite ?Hm.
Qed.

Lemma loop_step n l data w w1 c fs f :
  lists w !! l = Some c → fns c = Some fs → (0 ≤ firingIndex c < firingLength c)%Z → fs !! Z.to_nat (firingIndex c) = Some f →
  run n (JCall f data) w = undefined w1 →
  run (S n) (JLoop l data) w = run n (JLoop l data) (with_list l (λ c, set_index (firingIndex c + 1) c) w1).
Proof.
  intros Hl Hf Hi Hfs Hcall. cbn [JQueryDeferred.run]. rewrite Hl, Hf, (proj2 (Z.ltb_lt _ _)), Hfs by lia.
  rewrite Hcall. done.
Qed.

Lemma lookup_with_list l g w l' : lists (with_list l g w) !! l' = if decide (l = l') then g <$> lists w !! l' else lists w !! l'.
Proof. cbn. rewrite list_lookup_alter. by destruct (decide (l = l')) as [->|]. Qed.

(** Settling: the loop sets the state, disables the opposite list, locks the
    progress list, and calls the functions of the page. *)
Lemma settle_loop n l o p d s data w c us co cp :
  l ≠ o → l ≠ p → o ≠ p → lists w !! l = Some c → lists w !! o = Some co → lists w !! p = Some cp →
  fns c = Some (own_fns d s o p ++ (User <$> us)) → firingIndex c = 0%Z → firingLength c = Z.of_nat (3 + length us) →
  c_stopOnFalse c = false → can_rest c → length us + 8 ≤ n →
  ∃ w' i, run n (JLoop l data) w = undefined w' ∧ lists w' !! l = Some (rested (set_index i c)) ∧
    lists w' !! o = Some (cb_disable co) ∧ lists w' !! p = Some (cb_lock cp) ∧
    defs w' = alter (set_state s) d (defs w) ∧ calls w' = calls w ++ call_all us data.
Proof.
  intros Hlo Hlp Hop Hl Ho Hp Hf Hi Hlen Hs Hc Hn. do 4 (destruct n as [|n]; [lia|]).
  set (bump := λ c, set_index (firingIndex c + 1) c).
  set (w1 := with_list l bump (with_def d (set_state s) w)).
  set (w2 := with_list l bump (with_list o cb_disable w1)).
  set (w3 := with_list l bump (with_list p cb_lock w2)).
  assert (lists w1 !! l = Some (bump c)) as L1 by (unfold w1; rewrite lookup_with_list, decide_True by done; cbn; by rewrite Hl).
  assert (lists w2 !! l = Some (bump (bump c))) as L2.
  { unfold w2. rewrite lookup_with_list, decide_True, lookup_with_list, decide_False by done. by rewrite L1. }
  assert (lists w3 !! l = Some (bump (bump (bump c)))) as L3.
  { unfold w3. rewrite lookup_with_list, decide_True, lookup_with_list, decide_False by done. by rewrite L2. }
  assert (firingIndex (bump c) = 1%Z ∧ firingIndex (bump (bump c)) = 2%Z ∧ firingIndex (bump (bump (bump c))) = 3%Z) as (I1 & I2 & I3)
    by (unfold bump; cbn; rewrite Hi; done).
  rewrite (loop_step _ l data w (with_def d (set_state s) w) c _ (SetState d s) Hl Hf) by (rewrite ?Hi, ?Hlen; (done || lia)).
  fold bump. fold w1.
  rewrite (loop_step _ l data w1 (with_list o cb_disable w1) (bump c) _ (DisableList o) L1 Hf) by (rewrite ?I1; cbn; rewrite ?Hlen; (done || lia)).
  fold bump. fold w2.
  rewrite (loop_step _ l data w2 (with_list p cb_lock w2) (bump (bump c)) _ (LockList p) L2 Hf) by (rewrite ?I2; cbn; rewrite ?Hlen; (done || lia)).
  fold bump. fold w3.
  destruct (user_loop us (S n) l data w3 (bump (bump (bump c))) (own_fns d s o p) L3 Hf I3 Hlen Hs Hc) as (c' & Hrun & i & ->); [lia|].
  eexists _, i. split; [exact Hrun|]. pose proof (lookup_lt_Some _ _ _ L3) as Hlt.
  split; [by rewrite lists_upd|]. rewrite !lists_upd_ne by done. unfold w3, w2, w1.
  repeat rewrite lookup_with_list. cbn [lists with_def]. rewrite Ho, Hp.
  destruct (decide (o = o)), (decide (p = p)), (decide (l = o)), (decide (l = p)), (decide (o = p)), (decide (p = o)); by try congruence.
Qed.

(** ** One operation *)

Lemma add_at_rest c mem fr fs st f :
  at_rest c mem fr fs st →
  add_fns [AFn (User f)] c =
  match mem with
  | None => (set_fns (Some (fs ++ [User f])) c, None)
  | Some m => (set_start (length fs) (set_fns (Some (fs ++ [User f])) c), Some m)
  end.
Proof.
  intros []. unfold add_fns. rewrite r_fns0. cbn [mbind list_bind flatten_arg app foldl]. unfold push_fn. rewrite r_unique0, r_fns0.
  cbn [negb orb default]. cbn. rewrite r_firing0, r_memory0. by destruct mem.
Qed.

(** Registering a function on a list at rest: it is kept, and called at once
    if the list remembers arguments. *)
Lemma op_register n l w c f mem fr fs st :
  lists w !! l = Some c → at_rest c mem fr fs st → st = None ∨ st = Some [] → 8 ≤ n →
  ∃ c', run n (JOp (OAdd l [AFn (User f)])) w = undefined (upd w l c' (match mem with None => [] | Some m => [(f, m)] end)) ∧
        at_rest c' mem (match mem with None => fr | Some _ => true end)
          (match mem, st with Some _, None => [] | _, _ => fs ++ [User f] end) st.
Proof.
  intros Hl Hc Hst Hn. destruct n as [|n]; [lia|]. cbn [JQueryDeferred.run]. rewrite Hl, (add_at_rest c mem fr fs st f Hc).
  pose proof (lookup_lt_Some _ _ _ Hl) as Hlt. destruct Hc. destruct mem as [m|].
  - rewrite (with_list_upd w l _ c) by done. set (c1 := set_start _ _).
    destruct (fire_users n l m (upd w l c1 []) c1 fs [f]) as (c' & Hrun & Hrest); try done.
    + by apply lists_upd.
    + cbn. by rewrite r_stack0.
    + cbn. lia.
    + exists c'. split; [by rewrite Hrun, upd_upd|]. cbn in Hrest. by rewrite r_stack0 in Hrest.
  - rewrite (with_list_upd w l _ c) by done. eexists. split; [reflexivity|]. by split.
Qed.

(** Nothing happens on a disabled list. *)
Lemma op_register_disabled n l w c f :
  lists w !! l = Some c → disabled_list c → 1 ≤ n →
  run n (JOp (OAdd l [AFn (User f)])) w = undefined (upd w l c []).
Proof.
  intros Hl Hc Hn. destruct n as [|n]; [lia|]. cbn [JQueryDeferred.run]. rewrite Hl. unfold add_fns. rewrite Hc.
  by rewrite (with_list_upd w l _ c).
Qed.

(** Firing is ignored when the list is disabled, or fired before and not repeatable. *)
Lemma op_fire_ignored n l w c data :
  lists w !! l = Some c → disabled_list c ∨ (stack c = None ∧ fired c = true) → 1 ≤ n →
  run n (JOp (OFire l data)) w = undefined w.
Proof.
  intros Hl Hc Hn. destruct n as [|n]; [lia|]. cbn [JQueryDeferred.run]. rewrite Hl.
  destruct Hc as [Hd | [Hs Hf]]; [by rewrite Hd|]. rewrite Hs, Hf. by destruct (fns c).
Qed.

Lemma upd_same w l c : lists w !! l = Some c → upd w l c [] = w.
Proof. intros H. unfold upd. rewrite list_insert_id, app_nil_r by done. by destruct w. Qed.

(** What one request does to the lists of a deferred. *)
Definition step_ok (d : nat) (w : world) (p : promise) (q : request) : Prop :=
  ∃ n0, ∀ n, n0 ≤ n → ∃ r w', run n (JOp (op_of d q)) w = Some (Ret r, w') ∧
    implements w' d (promise_step p q).1 ∧ calls w' = calls w ++ (promise_step p q).2.

Lemma list_of_def w d l0 l1 l2 s a :
  defs w !! d = Some {| d_done := l0; d_fail := l1; d_progress := l2; d_state := s |} →
  list_of w d a = match a with Resolve => l0 | Reject => l1 | Notify => l2 end.
Proof. intros H. unfold list_of, def_at. rewrite H. by destruct a. Qed.

Lemma lookup_upd w l c cs l' : l < length (lists w) → lists (upd w l c cs) !! l' = if decide (l = l') then Some c else lists w !! l'.
Proof. intros H. destruct (decide (l = l')) as [<-|]; [by apply lists_upd|by apply lists_upd_ne]. Qed.

Ltac lookups := rewrite ?lookup_upd by (by eapply lookup_lt_Some); repeat case_decide; done || congruence.

Lemma rest_stack c mem fr fs st : at_rest c mem fr fs st → stack c = st ∧ fired c = fr.
Proof. by intros []. Qed.

Lemma register_pending d w ds fs ps last a f :
  implements w d (Pending ds fs ps last) → step_ok d w (Pending ds fs ps last) (Register a f).
Proof.
  intros (l0 & l1 & l2 & c0 & c1 & c2 & N1 & N2 & N3 & Hd & H0 & H1 & H2 & R0 & R1 & R2).
  exists 9. intros n Hn. destruct n as [|n]; [lia|]. cbn [op_of JQueryDeferred.run]. rewrite (list_of_def _ _ _ _ _ _ _ Hd).
  destruct a.
  - destruct (op_register n l0 w c0 f _ _ _ _ H0 R0) as (c' & Hrun & R'); [by left|lia|]. eexists _, _. split; [exact Hrun|].
    split; [|done]. exists l0, l1, l2, c', c1, c2. do 3 (split; [done|]). split; [exact Hd|]. do 3 (split; [lookups|]).
    cbn [promise_step fst]. split; [|done]. by rewrite fmap_app, app_assoc.
  - destruct (op_register n l1 w c1 f _ _ _ _ H1 R1) as (c' & Hrun & R'); [by left|lia|]. eexists _, _. split; [exact Hrun|].
    split; [|done]. exists l0, l1, l2, c0, c', c2. do 3 (split; [done|]). split; [exact Hd|]. do 3 (split; [lookups|]).
    cbn [promise_step fst]. split; [done|]. split; [|done]. by rewrite fmap_app, app_assoc.
  - destruct (op_register n l2 w c2 f _ _ _ _ H2 R2) as (c' & Hrun & R'); [by right|lia|]. eexists _, _. split; [exact Hrun|].
    split; [|by destruct last]. exists l0, l1, l2, c0, c1, c'. do 3 (split; [done|]). split; [exact Hd|]. do 3 (split; [lookups|]).
    cbn [promise_step fst]. split; [done|]. split; [done|]. rewrite fmap_app. by destruct last.
Qed.

(** Registering on the progress list of a settled deferred. *)
Lemma register_progress n l w c f last :
  lists w !! l = Some c → progress_after last c → 8 ≤ n →
  ∃ c', run n (JOp (OAdd l [AFn (User f)])) w = undefined (upd w l c' (match last with Some b => [(f, b)] | None => [] end)) ∧ progress_after last c'.
Proof.
  intros Hl Hc Hn. destruct last as [b|]; cbn [progress_after] in *.
  - destruct Hc as [fs Hc]. destruct (op_register n l w c f _ _ _ _ Hl Hc) as (c' & Hrun & R'); [by left|done|]. by eauto.
  - exists c. split; [|done]. apply op_register_disabled; [done|done|lia].
Qed.

Lemma register_settled d w ok a0 last a f :
  implements w d (Settled ok a0 last) → step_ok d w (Settled ok a0 last) (Register a f).
Proof.
  intros (l0 & l1 & l2 & c0 & c1 & c2 & N1 & N2 & N3 & Hd & H0 & H1 & H2 & HR).
  exists 9. intros n Hn. destruct n as [|n]; [lia|]. cbn [op_of JQueryDeferred.run]. rewrite (list_of_def _ _ _ _ _ _ _ Hd).
  destruct a; cbn [promise_step fst snd].
  - destruct ok; destruct HR as (R0 & R1 & R2).
    + destruct (op_register n l0 w c0 f _ _ _ _ H0 R0) as (c' & Hrun & R'); [by left|lia|]. eexists _, _. split; [exact Hrun|].
      split; [|done]. exists l0, l1, l2, c', c1, c2. do 3 (split; [done|]). split; [exact Hd|]. do 3 (split; [lookups|]). done.
    + eexists _, _. split; [apply (op_register_disabled n l0 w c0 f H0 R0); lia|]. rewrite upd_same by done.
      split; [|by rewrite app_nil_r]. by exists l0, l1, l2, c0, c1, c2.
  - destruct ok; destruct HR as (R0 & R1 & R2).
    + eexists _, _. split; [apply (op_register_disabled n l1 w c1 f H1 R1); lia|]. rewrite upd_same by done.
      split; [|by rewrite app_nil_r]. by exists l0, l1, l2, c0, c1, c2.
    + destruct (op_register n l1 w c1 f _ _ _ _ H1 R1) as (c' & Hrun & R'); [by left|lia|]. eexists _, _. split; [exact Hrun|].
      split; [|done]. exists l0, l1, l2, c0, c', c2. do 3 (split; [done|]). split; [exact Hd|]. do 3 (split; [lookups|]). done.
  - assert (progress_after last c2) as R2 by (by destruct ok, HR as (_ & _ & ?)).
    destruct (register_progress n l2 w c2 f last H2 R2) as (c' & Hrun & R'); [lia|]. eexists _, _. split; [exact Hrun|].
    split; [|done]. exists l0, l1, l2, c0, c1, c'. do 3 (split; [done|]). split; [exact Hd|]. do 3 (split; [lookups|]).
    by destruct ok, HR as (? & ? & ?).
Qed.

Lemma act_settled d w ok a0 last a data :
  implements w d (Settled ok a0 last) → step_ok d w (Settled ok a0 last) (Act a data).
Proof.
  intros Hi. pose proof Hi as (l0 & l1 & l2 & c0 & c1 & c2 & N1 & N2 & N3 & Hd & H0 & H1 & H2 & HR).
  assert (∀ c fs m, at_rest c (Some m) true fs None → disabled_list c ∨ (stack c = None ∧ fired c = true)) as Hrest.
  { intros c fs m []. by right. }
  assert (disabled_list c2 ∨ (stack c2 = None ∧ fired c2 = true)) as R2.
  { assert (progress_after last c2) as Hp by (by destruct ok, HR as (_ & _ & ?)).
    destruct last; [destruct Hp as [fs Hp]; by eapply Hrest|by left]. }
  exists 2. intros n Hn. destruct n as [|n]; [lia|]. cbn [op_of JQueryDeferred.run]. rewrite (list_of_def _ _ _ _ _ _ _ Hd).
  exists (RVal VUndef), w. cbn [promise_step fst snd]. rewrite app_nil_r. split; [|done].
  destruct a; [apply (op_fire_ignored n l0 w c0)|apply (op_fire_ignored n l1 w c1)|apply (op_fire_ignored n l2 w c2)]; try done; try lia;
    destruct ok; destruct HR as (R0 & R1 & _); (by left) || by eapply Hrest.
Qed.

Lemma act_notify d w ds fs ps last data :
  implements w d (Pending ds fs ps last) → step_ok d w (Pending ds fs ps last) (Act Notify data).
Proof.
  intros (l0 & l1 & l2 & c0 & c1 & c2 & N1 & N2 & N3 & Hd & H0 & H1 & H2 & R0 & R1 & R2).
  exists (length ps + 6). intros n Hn. do 2 (destruct n as [|n]; [lia|]). cbn [op_of JQueryDeferred.run].
  rewrite (list_of_def _ _ _ _ _ _ _ Hd), H2. pose proof R2 as []. rewrite r_fns0, r_stack0, r_firing0.
  destruct (fire_users n l2 data w c2 [] ps) as (c' & Hrun & R'); try done; [by right|lia|].
  eexists _, _. split; [exact Hrun|]. split; [|done]. exists l0, l1, l2, c0, c1, c'. do 3 (split; [done|]). split; [exact Hd|].
  do 3 (split; [lookups|]). cbn [promise_step fst]. split; [done|]. split; [done|]. by rewrite r_stack0 in R'.
Qed.

(** The list that settles a deferred: [l] is fired, [o] is the opposite one. *)
Lemma fire_settles n l o p d s data w c co cp us fr :
  l ≠ o → l ≠ p → o ≠ p → lists w !! l = Some c → lists w !! o = Some co → lists w !! p = Some cp →
  at_rest c None fr (own_fns d s o p ++ (User <$> us)) None → length us + 9 ≤ n →
  ∃ w' c', run n (JFire l data) w = undefined w' ∧ lists w' !! l = Some c' ∧ at_rest c' (Some data) true [] None ∧
    lists w' !! o = Some (cb_disable co) ∧ lists w' !! p = Some (cb_lock cp) ∧
    defs w' = alter (set_state s) d (defs w) ∧ calls w' = calls w ++ call_all us data.
Proof.
  intros Hlo Hlp Hop Hl Ho Hp [] Hn. destruct n as [|n]; [lia|]. cbn [JQueryDeferred.run]. rewrite (with_list_upd w l _ c) by done.
  pose proof (lookup_lt_Some _ _ _ Hl) as Hlt.
  destruct (settle_loop n l o p d s data (upd w l (fire_start data c) []) (fire_start data c) us co cp) as (w' & i & Hrun & L & O & P & D & C);
    try done.
  - by apply lists_upd.
  - by rewrite lists_upd_ne.
  - by rewrite lists_upd_ne.
  - cbn. by rewrite r_start0.
  - cbn. rewrite r_fns0. cbn. rewrite length_fmap. done.
  - unfold can_rest. cbn. rewrite r_memory_option0, r_stack0. right. by eauto.
  - lia.
  - eexists w', _. split; [exact Hrun|]. split; [exact L|]. split; [|split_and!; try done].
    + unfold rested. cbn. rewrite r_stack0. split; cbn; rewrite ?r_memory_option0; done.
    + rewrite C. cbn. by rewrite app_nil_r.
Qed.

Lemma lock_progress c last ps :
  at_rest c last (bool_decide (is_Some last)) (User <$> ps) (Some []) → progress_after last (cb_lock c).
Proof.
  intros []. unfold cb_lock. cbn [memory set_stack]. rewrite r_memory0. destruct last as [b|]; cbn [progress_after].
  - exists (User <$> ps). by split.
  - done.
Qed.

Lemma alter_state w d l0 l1 l2 s s' :
  defs w !! d = Some {| d_done := l0; d_fail := l1; d_progress := l2; d_state := s |} →
  alter (set_state s') d (defs w) !! d = Some {| d_done := l0; d_fail := l1; d_progress := l2; d_state := s' |}.
Proof. intros H. by rewrite list_lookup_alter_eq, H. Qed.

Lemma act_settle d w ds fs ps last a data :
  a ≠ Notify → implements w d (Pending ds fs ps last) → step_ok d w (Pending ds fs ps last) (Act a data).
Proof.
  intros Ha (l0 & l1 & l2 & c0 & c1 & c2 & N1 & N2 & N3 & Hd & H0 & H1 & H2 & R0 & R1 & R2).
  exists (length ds + length fs + 12). intros n Hn. do 2 (destruct n as [|n]; [lia|]). cbn [op_of JQueryDeferred.run].
  rewrite (list_of_def _ _ _ _ _ _ _ Hd). pose proof (lock_progress _ _ _ R2) as Hlock. destruct a; [| |done].
  - rewrite H0. pose proof R0 as []. rewrite r_fns0, r_stack0, r_fired0.
    destruct (fire_settles n l0 l1 l2 d "resolved" data w c0 c1 c2 ds false) as (w' & c' & Hrun & L & R & O & P & D & C); try done; [lia|].
    eexists _, w'. split; [exact Hrun|]. split; [|done]. exists l0, l1, l2, c', (cb_disable c1), (cb_lock c2). do 3 (split; [done|]).
    split; [rewrite D; by eapply alter_state|]. done.
  - rewrite H1. pose proof R1 as []. rewrite r_fns0, r_stack0, r_fired0.
    destruct (fire_settles n l1 l0 l2 d "rejected" data w c1 c0 c2 fs false) as (w' & c' & Hrun & L & R & O & P & D & C); try done; [lia|].
    eexists _, w'. split; [exact Hrun|]. split; [|done]. exists l0, l1, l2, (cb_disable c0), c', (cb_lock c2). do 3 (split; [done|]).
    split; [rewrite D; by eapply alter_state|]. done.
Qed.

Lemma step_refines d w p q : implements w d p → step_ok d w p q.
Proof.
  intros Hi. destruct p as [ds fs ps last|ok a0 last], q as [a f|a data].
  - by apply register_pending.
  - destruct (decide (a = Notify)) as [->|Ha]; [by apply act_notify|by apply act_settle].
  - by apply register_settled.
  - by apply act_settled.
Qed.


Lemma run_refines d qs : ∀ w p, implements w d p →
  ∃ n0 r w', (∀ n, n0 ≤ n → run n (JOps (op_of d <$> qs)) w = Some (Ret r, w')) ∧
    implements w' d (promise_run p qs).1 ∧ calls w' = calls w ++ (promise_run p qs).2.
Proof.
  induction qs as [|q qs IH]; intros w p Hi.
  - exists 1, (RVal VUndef), w. split_and!; [|done|by rewrite app_nil_r]. intros [|n] Hn; [lia|done].
  - destruct (step_refines d w p q Hi) as [n1 H1]. destruct (H1 n1 (Nat.le_refl n1)) as (r1 & w1 & E1 & I1 & C1).
    destruct (IH w1 _ I1) as (n2 & r & w' & E2 & I2 & C2). exists (S (n1 + n2)), r, w'.
    cbn [promise_run]. destruct (promise_step p q) as [p1 cs1]. cbn [fst snd] in *. destruct (promise_run p1 qs) as [p2 cs2]. cbn [fst snd] in *.
    split_and!; [|done|by rewrite C2, C1, <-app_assoc]. intros [|n] Hn; [lia|]. rewrite fmap_cons. cbn [JQueryDeferred.run].
    rewrite (run_mono _ _ _ _ _ _ n E1) by lia. cbn [and_then]. apply E2. lia.
Qed.
End quiet.

(** C4. A deferred object behaves like a promise: whatever is registered on it
    and done to it, with callbacks that do not act on deferred objects, every
    request comes to an end, the page's functions are called exactly when, with
    the arguments and in the order the specification says, and its state is the
    state of the promise. *)
Theorem deferred_refines body result w d w1 qs :
  (∀ f a, body f a = []) → new_Deferred w = (d, w1) →
  ∃ n0 r w', (∀ n, n0 ≤ n → run body result n (JOps (op_of d <$> qs)) w1 = Some (Ret r, w')) ∧
    calls w' = calls w ++ (promise_run (Pending [] [] [] None) qs).2 ∧
    d_state (def_at w' d) = promise_state (promise_run (Pending [] [] [] None) qs).1.
Proof.
  intros Hquiet Hnew. destruct (new_Deferred_implements w d w1 Hnew) as [Hi Hc].
  destruct (run_refines body result Hquiet d qs w1 _ Hi) as (n0 & r & w' & E & (l0 & l1 & l2 & ? & ? & ? & _ & _ & _ & Hd & _) & C).
  exists n0, r, w'. split; [done|]. split; [by rewrite C, Hc|]. unfold def_at. by rewrite Hd.
Qed.

Lemma deferred_refines_witness :
  let qs := [Register Resolve 1; Register Notify 2; Act Notify [VInt 5]; Register Reject 3; Act Resolve [VInt 7]; Act Reject []; Register Resolve 4] in
  ∃ n0 r w', (∀ n, n0 ≤ n → run (λ _ _, []) (λ _ _, RVal VUndef) n (JOps (op_of 0 <$> qs)) (new_Deferred empty_world).2 = Some (Ret r, w')) ∧
    calls w' = [(2, [VInt 5]); (1, [VInt 7]); (4, [VInt 7])] ∧ d_state (def_at w' 0) = "resolved".
Proof.
  intros qs. destruct (deferred_refines (λ _ _, []) (λ _ _, RVal VUndef) empty_world 0 (new_Deferred empty_world).2 qs)
    as (n0 & r & w' & E & C & S); [reflexivity|reflexivity|]. exists n0, r, w'. split; [exact E|]. split; [exact C|exact S].
Defined.

(** ** Removing callbacks from a list that is being fired *)

Definition without (f : fn) (l : list fn) : list fn := filter (λ g, g ≠ f) l.

Lemma without_app f l l' : without f (l ++ l') = without f l ++ without f l'.
Proof. apply filter_app. Qed.

Lemma without_delete f l i : l !! i = Some f → without f (delete i l) = without f l.
Proof.
  intros H. rewrite <-(take_drop_middle l i f H) at 2. rewrite delete_take_drop, !without_app. f_equal.
  unfold without. by rewrite filter_cons_False by naive_solver.
Qed.

(** What is still to be called. *)
Definition to_call (c : cblist) (l : list fn) : list fn := drop (Z.to_nat (firingIndex c + 1)) l.

Lemma drop_delete_before {A} (l : list A) i k : i < k → k ≤ length l → drop (k - 1) (delete i l) = drop k l.
Proof.
  intros Hi Hk. rewrite delete_take_drop, drop_app, length_take, drop_ge by (rewrite length_take; lia). cbn [app].
  rewrite drop_drop. f_equal. lia.
Qed.

Lemma drop_delete_after {A} (l : list A) i k : k ≤ i → drop k (delete i l) = delete (i - k) (drop k l).
Proof.
  revert l i. induction k as [|k IH]; intros l i Hi; [by rewrite !drop_0, Nat.sub_0_r|].
  destruct l as [|x l]; [done|]. destruct i as [|i]; [lia|]. cbn [drop delete list_delete]. by apply IH, le_S_n.
Qed.

(** A list in the middle of its loop. *)
Record in_loop (c : cblist) (l : list fn) : Prop := {
  il_fns : fns c = Some l;
  il_firing : firing c = true;
  il_length : firingLength c = Z.of_nat (length l);
  il_index : (-1 ≤ firingIndex c < Z.of_nat (length l))%Z
}.

(** The loop of [remove] for one function. *)
Lemma remove_from_firing n f : ∀ i c l,
  in_loop c l → f ∉ take i l → length l ≤ n →
  in_loop (remove_from n f i c) (without f l) ∧ to_call (remove_from n f i c) (without f l) = without f (to_call c l).
Proof.
  induction n as [|n IH]; intros i c l [Hf Hfi Hlen Hidx] Hpre Hn.
  { destruct l; [|cbn in Hn; lia]. cbn [remove_from]. split; [by split|]. unfold to_call. rewrite drop_nil. change (without f []) with (@nil fn). by rewrite drop_nil. }
  cbn [remove_from]. rewrite Hf. destruct (list_find _ (drop i l)) as [[j g]|] eqn:E.
  - apply list_find_Some in E as (Hj & -> & Hbefore). rewrite lookup_drop in Hj. set (index := i + j) in *.
    pose proof (lookup_lt_Some _ _ _ Hj) as Hlt. cbn [firing set_fns firingLength]. rewrite Hfi, Hlen, (proj2 (Z.leb_le _ _)) by lia.
    cbn [andb firing set_length firingIndex set_fns]. rewrite Hfi. cbn [andb].
    set (c3 := if (_ <=? _)%Z then _ else _). assert (length (delete index l) = length l - 1) as Hl' by (apply length_delete; by exists f).
    assert (in_loop c3 (delete index l)) as Hc3.
    { unfold c3. destruct (Z.leb_spec (Z.of_nat index) (firingIndex c)); split; cbn; try done; rewrite Hl'; lia. }
    assert (without f (to_call c3 (delete index l)) = without f (to_call c l)) as Ht.
    { unfold to_call, c3. destruct (Z.leb_spec (Z.of_nat index) (firingIndex c)) as [Hle|Hgt]; cbn.
      - replace (Z.to_nat (firingIndex c - 1 + 1)) with (Z.to_nat (firingIndex c + 1) - 1) by lia. by rewrite drop_delete_before by lia.
      - rewrite drop_delete_after by lia. apply without_delete. rewrite lookup_drop. rewrite <-Hj. f_equal. lia. }
    destruct (IH index c3 (delete index l) Hc3) as [H1 H2]; [|lia|].
    + intros Hin. apply elem_of_take in Hin as (k & Hk & Hlk). rewrite list_lookup_delete_lt in Hk by done.
      destruct (decide (k < i)); [apply Hpre, elem_of_take; by eauto|]. eapply (Hbefore (k - i) f); [|unfold index in *; lia|done].
      rewrite lookup_drop, <-Hk. f_equal. lia.
    + rewrite without_delete in H1, H2 by done. by rewrite H2, Ht.
  - assert (f ∉ l) as Hnot.
    { rewrite <-(take_drop i l). intros [?|Hin]%elem_of_app; [done|]. apply list_find_None in E. rewrite Forall_forall in E. by apply (E f). }
    assert (∀ l', (∀ g, g ∈ l' → g ∈ l) → without f l' = l') as Hw.
    { intros l' Hsub. unfold without. induction l' as [|g l' IHl]; [done|]. rewrite filter_cons_True by (intros ->; apply Hnot, Hsub; set_solver).
      f_equal. apply IHl. set_solver. }
    rewrite (Hw l), (Hw (to_call c l)) by (auto || (intros g Hg; rewrite <-(take_drop (Z.to_nat (firingIndex c + 1)) l); apply elem_of_app; by right)). split; [by split|done].
Qed.

(** Functions can be taken off a list while it is being fired: the list
    loses exactly them, and of the functions that were still to be called exactly
    the others still are, in their order; none is skipped or called twice. *)
Theorem remove_while_firing fs c l :
  in_loop c l →
  in_loop (remove_fns fs c) (foldl (λ l f, without f l) l fs) ∧
  to_call (remove_fns fs c) (foldl (λ l f, without f l) l fs) = foldl (λ l f, without f l) (to_call c l) fs.
Proof.
  intros H. assert (remove_fns fs c = foldl (λ c f, remove_from (length (default [] (fns c))) f 0 c) c fs) as ->.
  { unfold remove_fns. by rewrite (il_fns _ _ H). }
  revert c l H. induction fs as [|f fs IH]; intros c l H; [done|]. cbn [foldl].
  destruct (remove_from_firing (length (default [] (fns c))) f 0 c l H) as [H1 H2]; [set_solver|by rewrite (il_fns _ _ H)|].
  destruct (IH _ _ H1) as [H3 H4]. split; [done|]. by rewrite H4, H2.
Qed.

Lemma remove_while_firing_witness :
  let c := set_index 1 (fire_start [] (set_fns (Some [User 1; User 2; User 1; User 3]) (new_Callbacks ""))) in
  to_call (remove_fns [User 1] c) [User 2; User 3] = [User 3].
Proof.
  intros c. destruct (remove_while_firing [User 1] c [User 1; User 2; User 1; User 3]) as [_ H]; [split; (reflexivity || (cbn; lia))|].
  exact H.
Defined.
