(* ===== verification/AjaxSubmit.v ===== *)
(** * Submitting a form in the background (jquery.form.js: ajaxSubmit, ajaxForm)

    [ajaxSubmit] from the options to the request: it gives the page several
    occasions to change or stop the submission, collects the fields, encodes
    them, and hands over to [$.ajax] or to the upload through a frame (modelled in
    [Upload]).  The functions of the page and the handlers of its events are the
    parameter [user], which may change the document, the options and the fields.
    [browser] is [$.browser] (absent since jQuery 1.9) with its [msie]. *)

From Stdlib Require Import SpecFloat.
From S2P Require Import Prelude JSNum JSValue JSON NodeUrl JQueryCore JQueryParam Forms.

Definition fields := list (string * value).

(** The attributes of the form; [None] when there is none. *)
Record form_attrs := {
  a_method : option string;
  a_action : option string;
  a_target : option string;
  a_enctype : option string;
  a_encoding : option string
}.

Inductive submit_effect :=
| Log (msg : string)
| Trigger (event : string)
| AjaxCall (options : value)
| GetCall (url : value) (a : fields)     (* [$.get], after which the upload starts *)
| FileUpload (a : fields)
| ResetCalled
| Loaded (target : value) (how : string) (data : value) (old : value)
| SuccessCalled (f : value) (data : value).

(** The functions to call when the request succeeds. *)
Inductive success_step :=
| ResetForm
| ClearForm
| LoadTarget (old : value)               (* then the old function, for each target *)
| CallSuccess (f : value).

Record submission := {
  s_doc : document;
  s_attrs : form_attrs;
  s_options : value;
  s_success : list success_step;
  s_log : list submit_effect
}.

Definition with_options (o : value) (s : submission) : submission :=
  {| s_doc := s_doc s; s_attrs := s_attrs s; s_options := o; s_success := s_success s; s_log := s_log s |}.
Definition with_success (l : list success_step) (s : submission) : submission :=
  {| s_doc := s_doc s; s_attrs := s_attrs s; s_options := s_options s; s_success := l; s_log := s_log s |}.
Definition emit_effect (e : submit_effect) : M submission unit := modify (λ s,
  {| s_doc := s_doc s; s_attrs := s_attrs s; s_options := s_options s; s_success := s_success s; s_log := s_log s ++ [e] |}).

Definition opt_get (k : string) : M submission value := λ s, (get (s_options s) k, s).
Definition opt_put (k : string) (v : value) : M submission unit := modify (λ s, with_options (put (s_options s) k v) s).

(** [(url.match(/^([^#]+)/)||[])[1]] *)
Fixpoint before_hash (s : string) : string :=
  match s with
  | EmptyString => ""
  | String c s' => if Ascii.eqb c "#" then "" else String c (before_hash s')
  end.
Definition clean_url (url : string) : value :=
  if String.eqb url "" then VStr ""
  else let u := before_hash url in if String.eqb u "" then VUndef else VStr u.

Definition upper_char (c : ascii) : ascii :=
  let n := N_of_ascii c in if ((97 <=? n) && (n <=? 122))%N then ascii_of_N (n - 32) else c.
Fixpoint upper (s : string) : string :=
  match s with EmptyString => "" | String c s' => String (upper_char c) (upper s') end.

(** A method of texts called on a value. *)
Definition text_of (v : value) : res string := match v with VStr s => Ret s | _ => Throw TypeError end.

Definition has_char (c : ascii) (s : string) : bool := existsb (Ascii.eqb c) (list_ascii_of_string s).

Section submit.
Context (checkOn : bool).
Context (browser : option bool).
Context (location_href : string).
Context (ajax_success : value).            (* [$.ajaxSettings.success] *)
Context (call : string → value).           (* functions among the data *)
Context (user : string → fields → M submission (fields * value)).

(** The address of the form, or of the page. *)
Definition form_url (attrs : form_attrs) : value :=
  let url := match a_action attrs with Some a => rtrim (ltrim a) | None => "" end in
  clean_url (if String.eqb url "" then location_href else url).

Definition default_options (attrs : form_attrs) : value :=
  VObj false [("url", form_url attrs); ("success", ajax_success);
              ("type", VStr (match a_method attrs with Some m => if String.eqb m "" then "GET" else m | None => "GET" end));
              ("iframeSrc", VStr (if String.prefix "https" (lower location_href) then "javascript:false" else "about:blank"))].

(** [options = $.extend(true, {...}, options)] *)
Definition prepare_options (options : value) : M submission unit :=
  attrs ← gets s_attrs;
  let options := if isFunction options then VObj false [("success", options)] else options in
  o ← lift (jq_extend VUndef [VBool true; default_options attrs; options]);
  modify (with_options o).

(** An event the page can veto, and a callback that can stop the submission;
    the result says whether to go on. *)
Definition vetoable (event msg : string) (a : fields) : M submission (fields * bool) :=
  emit_effect (Trigger event);;
  av ← user event a;
  if truthy av.2 then emit_effect (Log msg);; mret (av.1, false) else mret (av.1, true).

Definition stoppable (option msg : string) (a : fields) : M submission (fields * bool) :=
  f ← opt_get option;
  if truthy f then
    ar ← user option a;
    match ar.2 with
    | VBool false => emit_effect (Log msg);; mret (ar.1, false)
    | _ => mret (ar.1, true)
    end
  else mret (a, true).

(** The fields of [options.data]. *)
Definition extra_fields (data : value) : fields :=
  own_props data ≫= λ nv,
    if isArray nv.2 then (λ kv, (nv.1, kv.2)) <$> own_props nv.2
    else [(nv.1, match nv.2 with VFun f => call f | v => v end)].

(** The fields of the form and of the options. *)
Definition collect (f : form) : M submission fields :=
  sem ← opt_get "semantic";
  d ← gets s_doc;
  let a := formToArray checkOn d f (truthy sem) in
  data ← opt_get "data";
  if truthy data then opt_put "extraData" data;; mret (a ++ extra_fields data) else mret a.

(** The query goes to the address of a GET, and is the data of any other request. *)
Definition encode (a : fields) : M submission unit :=
  q ← lift (param_array call a);
  type ← opt_get "type";
  t ← lift (text_of type);
  if String.eqb (upper t) "GET" then
    url ← opt_get "url";
    u ← lift (text_of url);
    opt_put "url" (VStr (u +:+ (if has_char "?" u then "&" else "?") +:+ q));;
    opt_put "data" VNull
  else opt_put "data" (VStr q).

(** The callbacks, and the function that calls them in place of [options.success]. *)
Definition set_callbacks : M submission unit :=
  reset ← opt_get "resetForm";
  clear ← opt_get "clearForm";
  dataType ← opt_get "dataType";
  target ← opt_get "target";
  success ← opt_get "success";
  modify (with_success (
    (if truthy reset then [ResetForm] else []) ++ (if truthy clear then [ClearForm] else []) ++
    (if negb (truthy dataType) && truthy target then [LoadTarget success]
     else if truthy success then [CallSuccess success] else [])));;
  opt_put "success" (VFun "ajaxSubmit.success").

Definition multipart : string := "multipart/form-data".

Definition has_file_input (d : document) (f : form) : bool :=
  existsb (λ r, String.eqb (el_tag (el_at d r)) "input" && String.eqb (el_type (el_at d r)) "file") (f_all f).

(** Through a frame, or by [$.ajax]. *)
Definition send (f : form) (a : fields) : M submission unit :=
  d ← gets s_doc;
  attrs ← gets s_attrs;
  iframe ← opt_get "iframe";
  let mp := bool_decide (a_enctype attrs = Some multipart) || bool_decide (a_encoding attrs = Some multipart) in
  if negb (match iframe with VBool false => true | _ => false end) && (has_file_input d f || truthy iframe || mp) then
    keep ← opt_get "closeKeepAlive";
    if truthy keep then emit_effect (GetCall keep a) else emit_effect (FileUpload a)
  else
    match browser with
    | None => raise TypeError
    | Some msie =>
        (if msie && bool_decide (a_method attrs = Some "get") then opt_put "type" (VStr "get") else mret tt);;
        o ← gets s_options;
        emit_effect (AjaxCall o)
    end.

(** [$(forms).ajaxSubmit(options)]; [this] are the selected forms. *)
Definition ajaxSubmit (this : list form) (options : value) : M submission unit :=
  match this with
  | [] => emit_effect (Log "ajaxSubmit: skipping submit process - no element selected")
  | f :: _ =>
      prepare_options options;;
      p1 ← vetoable "form-pre-serialize" "ajaxSubmit: submit vetoed via form-pre-serialize trigger" [];
      if negb p1.2 then mret tt else
      p2 ← stoppable "beforeSerialize" "ajaxSubmit: submit aborted via beforeSerialize callback" [];
      if negb p2.2 then mret tt else
      a ← collect f;
      p3 ← stoppable "beforeSubmit" "ajaxSubmit: submit aborted via beforeSubmit callback" a;
      if negb p3.2 then mret tt else
      p4 ← vetoable "form-submit-validate" "ajaxSubmit: submit vetoed via form-submit-validate trigger" p3.1;
      if negb p4.2 then mret tt else
      encode p4.1;;
      set_callbacks;;
      send f p4.1;;
      emit_effect (Trigger "form-submit-notify")
  end.

(** ** When the request succeeds *)

Definition success_step_run (f : form) (data : value) (st : success_step) : M submission unit :=
  match st with
  | ResetForm =>
      d ← gets s_doc;
      if resetForm d f then emit_effect ResetCalled else mret tt
  | ClearForm => modify (λ s, {| s_doc := clearForm f (s_doc s); s_attrs := s_attrs s; s_options := s_options s;
                                 s_success := s_success s; s_log := s_log s |})
  | LoadTarget old =>
      replace ← opt_get "replaceTarget";
      target ← opt_get "target";
      emit_effect (Loaded target (if truthy replace then "replaceWith" else "html") data old)
  | CallSuccess g => emit_effect (SuccessCalled g data)
  end.

Fixpoint success_steps_run (f : form) (data : value) (l : list success_step) : M submission unit :=
  match l with
  | [] => mret tt
  | st :: l' => success_step_run f data st;; success_steps_run f data l'
  end.

(** [options.success(data, status, xhr)] *)
Definition run_success (f : form) (data : value) : M submission unit :=
  l ← gets s_success; success_steps_run f data l.

(** ** ajaxForm *)

(** The handlers bound to a form, by event and namespace. *)
Definition handlers := list (string * string).

(** [form.unbind('submit.form-plugin click.form-plugin')] *)
Definition ajaxFormUnbind (h : handlers) : handlers :=
  filter (λ b, ¬ (b = ("submit", "form-plugin") ∨ b = ("click", "form-plugin"))) h.

Inductive ajaxForm_result :=
| Queued                       (* until the document is ready *)
| NoElements
| Bound (h : list handlers).   (* of every selected form *)

Definition ajaxForm (is_ready : bool) (selector : string) (forms : list handlers) : ajaxForm_result :=
  match forms with
  | [] => if negb is_ready && negb (String.eqb selector "") then Queued else NoElements
  | _ => Bound ((λ h, ajaxFormUnbind h ++ [("submit", "form-plugin"); ("click", "form-plugin")]) <$> forms)
  end.

(** The handler of [submit]; the result says whether the default is prevented. *)
Definition on_submit (prevented : bool) (this : list form) (options : value) : M submission bool :=
  if prevented then mret true else ajaxSubmit this options;; mret true.

(** A click: on which element, where, and the offset of the element in the page. *)
Record click := {
  ck_target : nat;
  ck_offsetX : value; ck_offsetY : value;
  ck_pageX : value; ck_pageY : value;
  ck_left : value; ck_top : value
}.

Definition is_submit (e : element) : bool :=
  (String.eqb (el_tag e) "input" || String.eqb (el_tag e) "button") && String.eqb (el_type e) "submit".
Definition is_image (e : element) : bool := String.eqb (el_tag e) "input" && String.eqb (el_type e) "image".

(** The handler of [click]; [closest] finds the submit element around another. *)
Definition on_click (closest : nat → option nat) (d : document) (c : click) (f : form) : res form :=
  let e := el_at d (ck_target c) in
  match (if is_submit e || is_image e then Some (ck_target c) else closest (ck_target c)) with
  | None => Ret f
  | Some target =>
      if String.eqb (el_type (el_at d target)) "image" then
        match ck_offsetX c with
        | VUndef | VNull =>
            x ← js_sub (ck_pageX c) (ck_left c);
            y ← js_sub (ck_pageY c) (ck_top c);
            Ret {| f_elements := f_elements f; f_all := f_all f; clk := Some target; clk_x := x; clk_y := y |}
        | _ => Ret {| f_elements := f_elements f; f_all := f_all f; clk := Some target; clk_x := ck_offsetX c; clk_y := ck_offsetY c |}
        end
      else Ret {| f_elements := f_elements f; f_all := f_all f; clk := Some target; clk_x := clk_x f; clk_y := clk_y f |}
  end.

(** What the timer of a click does. *)
Definition forget_click (f : form) : form :=
  {| f_elements := f_elements f; f_all := f_all f; clk := None; clk_x := VNull; clk_y := VNull |}.
End submit.
