(* ===== verification/SubmitFacts.v ===== *)
(** * Submitting a form: requests and their content *)

From Stdlib Require Import SpecFloat.
From S2P Require Import Prelude JSNum JSValue JSON NodeUrl JQueryCore JQueryParam Forms FormFacts AjaxSubmit.

(** ** Requests *)

Definition is_request (e : submit_effect) : bool :=
  match e with AjaxCall _ | GetCall _ _ | FileUpload _ => true | _ => false end.

Definition requests (s : submission) : list submit_effect := filter (λ e, is_request e = true) (s_log s).

(** Code that makes no request. *)
Definition makes_none {A} (m : M submission A) : Prop := ∀ s, requests (m s).2 = requests s.

(** Code that makes one request or none, and none when it throws. *)
Definition makes_one {A} (m : M submission A) : Prop := ∀ s,
  ∃ l, requests (m s).2 = requests s ++ l ∧ length l ≤ 1 ∧ ((∃ e, (m s).1 = Throw e) → l = []).

Lemma none_bind {A B} (m : M submission A) (k : A → M submission B) : makes_none m → (∀ a, makes_none (k a)) → makes_none (m ≫= k).
Proof.
  intros Hm Hk s. specialize (Hm s). unfold mbind, M_bind. destruct (m s) as [[a|e] s1]; cbn [snd] in *; [|done]. by rewrite Hk.
Qed.

Lemma none_pure {A} (m : M submission A) : (∀ s, s_log (m s).2 = s_log s) → makes_none m.
Proof. intros H s. unfold requests. by rewrite H. Qed.

Lemma none_emit e : is_request e = false → makes_none (emit_effect e).
Proof.
  intros He s. unfold requests. cbn. rewrite filter_app, filter_cons_False, filter_nil, app_nil_r by (by rewrite He). done.
Qed.

Lemma one_none {A} (m : M submission A) : makes_none m → makes_one m.
Proof. intros H s. exists []. rewrite H, app_nil_r. split_and!; [done|cbn; lia|done]. Qed.

Lemma one_after_none {A B} (m : M submission A) (k : A → M submission B) : makes_none m → (∀ a, makes_one (k a)) → makes_one (m ≫= k).
Proof.
  intros Hm Hk s. specialize (Hm s). unfold mbind, M_bind. destruct (m s) as [[a|e] s1]; cbn [fst snd] in *.
  - destruct (Hk a s1) as (l & Hl & ?). exists l. by rewrite Hl, Hm.
  - exists []. rewrite Hm, app_nil_r. split_and!; [done|cbn; lia|done].
Qed.

Lemma one_then_emit (m : M submission unit) e : is_request e = false → makes_one m → makes_one (m;; emit_effect e).
Proof.
  intros He Hm s. destruct (Hm s) as (l & Hl & Hlen & Hthrow). unfold mbind, M_bind. destruct (m s) as [[[]|ex] s1]; cbn [fst snd] in *.
  - exists l. rewrite none_emit by done. split_and!; [done|done|]. intros [ex Hex]. done.
  - exists l. split_and!; [done|done|]. intros _. apply Hthrow. by exists ex.
Qed.

Lemma one_emit e : makes_one (emit_effect e).
Proof.
  intros s. unfold requests. cbn. rewrite filter_app. eexists. split; [reflexivity|]. split; [|by intros [ex Hex]].
  cbn. case_decide; cbn; lia.
Qed.

Section facts.
Context (checkOn : bool) (browser : option bool) (location_href : string) (ajax_success : value) (call : string → value).
Context (user : string → fields → M submission (fields * value)).

Abbreviation ajaxSubmit := (ajaxSubmit checkOn browser location_href ajax_success call user).

Lemma none_opt_get k : makes_none (opt_get k).
Proof. by apply none_pure. Qed.
Lemma none_opt_put k v : makes_none (opt_put k v).
Proof. by apply none_pure. Qed.

Ltac quiet := repeat first
  [ apply none_opt_get | apply none_opt_put | by apply none_emit | by apply none_pure
  | apply none_bind; [|intros ?] | progress case_match ].

Lemma none_prepare o : makes_none (prepare_options location_href ajax_success o).
Proof. unfold prepare_options. quiet. Qed.

Lemma none_collect f : makes_none (collect checkOn call f).
Proof. unfold collect. quiet. Qed.

Lemma none_encode a : makes_none (encode call a).
Proof. unfold encode. quiet. Qed.

Lemma none_callbacks : makes_none set_callbacks.
Proof. unfold set_callbacks. quiet. Qed.

Lemma one_send f a : makes_one (send browser f a).
Proof.
  unfold send. apply one_after_none; [by apply none_pure|]. intros d. apply one_after_none; [by apply none_pure|]. intros attrs.
  apply one_after_none; [apply none_opt_get|]. intros iframe. cbv zeta. destruct (_ && _).
  - apply one_after_none; [apply none_opt_get|]. intros keep. destruct (truthy keep); apply one_emit.
  - destruct browser as [msie|]; [|by apply one_none, none_pure]. apply one_after_none; [quiet|]. intros _.
    apply one_after_none; [by apply none_pure|]. intros o. apply one_emit.
Qed.

Context (Huser : ∀ n a, makes_none (user n a)).

Lemma none_vetoable ev msg a : makes_none (vetoable user ev msg a).
Proof.
  unfold vetoable. apply none_bind; [by apply none_emit|]. intros _. apply none_bind; [apply Huser|]. intros av. quiet.
Qed.

Lemma none_stoppable o msg a : makes_none (stoppable user o msg a).
Proof.
  unfold stoppable. apply none_bind; [apply none_opt_get|]. intros g. destruct (truthy g); [|by apply none_pure].
  apply none_bind; [apply Huser|]. intros ar. destruct (ar.2) as [| |[]| | | |]; try (by apply none_pure).
  apply none_bind; [by apply none_emit|]. intros _. by apply none_pure.
Qed.

(** One of the tests that may end the submission, then the rest. *)
Lemma one_test (m : M submission (fields * bool)) (k : fields * bool → M submission unit) :
  makes_none m → (∀ p, makes_one (k p)) → makes_one (p ← m; if negb p.2 then mret tt else k p).
Proof.
  intros Hm Hk. apply one_after_none; [done|]. intros p. destruct (negb p.2); [by apply one_none, none_pure|apply Hk].
Qed.

(** However the page's functions and handlers change the document, the
    options and the fields, as long as they make no request of their own, a call
    of [ajaxSubmit] makes at most one request, and none when it throws. *)
Theorem at_most_one_request this options s :
  ∃ l, requests (ajaxSubmit this options s).2 = requests s ++ l ∧ length l ≤ 1 ∧
       ((∃ e, (ajaxSubmit this options s).1 = Throw e) → l = []).
Proof.
  revert s. change (makes_one (ajaxSubmit this options)). unfold AjaxSubmit.ajaxSubmit. destruct this as [|f this]; [by apply one_none, none_emit|].
  apply one_after_none; [apply none_prepare|]. intros _. apply one_test; [apply none_vetoable|]. intros p1.
  apply one_test; [apply none_stoppable|]. intros p2. apply one_after_none; [apply none_collect|]. intros a.
  apply one_test; [apply none_stoppable|]. intros p3. apply one_test; [apply none_vetoable|]. intros p4.
  apply one_after_none; [apply none_encode|]. intros _. apply one_after_none; [apply none_callbacks|]. intros _.
  apply one_then_emit; [done|]. apply one_send.
Qed.
End facts.

(** A page that does not interfere. *)
Definition silent_user (n : string) (a : fields) : M submission (fields * value) := mret (a, VUndef).

Lemma at_most_one_request_witness :
  let s := {| s_doc := lesson None; s_attrs := {| a_method := None; a_action := Some "/save"; a_target := None; a_enctype := None; a_encoding := None |};
              s_options := VUndef; s_success := []; s_log := [] |} in
  ∃ l, requests (ajaxSubmit true (Some false) "http://board/" VUndef (λ _, VUndef) silent_user [lesson_form None] VUndef s).2 = requests s ++ l ∧
       length l ≤ 1 ∧ ((∃ e, (ajaxSubmit true (Some false) "http://board/" VUndef (λ _, VUndef) silent_user [lesson_form None] VUndef s).1 = Throw e) → l = []).
Proof. intros s. apply at_most_one_request. intros n a s'. reflexivity. Defined.

(** ** What the request carries *)

(** A form with an address of its own, no file in it, and not sent as multipart. *)
Record plain_submission (s : submission) (f : form) (u m : string) : Prop := {
  ps_action : a_action (s_attrs s) = Some u;
  ps_trimmed : rtrim (ltrim u) = u;
  ps_url : u ≠ "" ∧ before_hash u = u;
  ps_method : a_method (s_attrs s) = Some m;
  ps_type : m ≠ "";
  ps_files : has_file_input (s_doc s) f = false;
  ps_enctype : a_enctype (s_attrs s) ≠ Some multipart ∧ a_encoding (s_attrs s) ≠ Some multipart;
  ps_clk : textual (clk_x f) = true ∧ textual (clk_y f) = true
}.

Section content.
Context (checkOn : bool) (location_href : string) (ajax_success : value) (call : string → value).

(** The options of a plain submission without options. *)
Definition plain_options (u m : string) : list (string * value) :=
  [("url", VStr u); ("success", ajax_success); ("type", VStr m);
   ("iframeSrc", VStr (if String.prefix "https" (lower location_href) then "javascript:false" else "about:blank"))].

Lemma default_options_plain s f u m :
  plain_submission s f u m → default_options location_href ajax_success (s_attrs s) = VObj false (plain_options u m).
Proof.
  intros [Ha Ht [Hu Hh] Hm Hty _ _ _]. unfold default_options, form_url, plain_options. rewrite Ha, Hm, Ht.
  apply String.eqb_neq in Hu as Hu'. rewrite Hu'. unfold clean_url. rewrite Hu', Hh, Hu'. apply String.eqb_neq in Hty. by rewrite Hty.
Qed.

(** The query of the form's fields. *)
Definition query_of (s : submission) (f : form) : res string := param_array call (formToArray checkOn (s_doc s) f false).

Lemma query_reads s f u m : plain_submission s f u m →
  ∃ q, query_of s f = Ret q ∧ qs_parse q = (λ kv, (kv.1, field_text kv.2)) <$> formToArray checkOn (s_doc s) f false.
Proof.
  intros [_ _ _ _ _ _ _ [Hx Hy]]. unfold query_of. rewrite param_textual by by apply formToArray_textual. apply param_array_parse.
Qed.

(** The options at hand, and the effects so far. *)
Definition at_point (s : submission) (ps : list (string * value)) (l : list submit_effect) (st : list success_step) : submission :=
  {| s_doc := s_doc s; s_attrs := s_attrs s; s_options := VObj false ps; s_success := st; s_log := s_log s ++ l |}.

Lemma bind_eq {A B} (m : M submission A) (k : A → M submission B) s a s' : m s = (Ret a, s') → (m ≫= k) s = k a s'.
Proof. intros H. unfold mbind, M_bind. by rewrite H. Qed.

Lemma point_prepare s f u m : plain_submission s f u m →
  prepare_options location_href ajax_success VUndef s = (Ret tt, at_point s (plain_options u m) [] (s_success s)).
Proof.
  intros Hp. unfold prepare_options, gets, lift, modify. unfold mbind, M_bind. cbn [isFunction].
  rewrite (default_options_plain s f u m Hp). unfold at_point. rewrite app_nil_r. done.
Qed.

Lemma point_veto s ps l st ev msg a :
  vetoable silent_user ev msg a (at_point s ps l st) = (Ret (a, true), at_point s ps (l ++ [Trigger ev]) st).
Proof. unfold vetoable, emit_effect, modify, silent_user, at_point. unfold mbind, M_bind. cbn. by rewrite <-app_assoc. Qed.

Lemma point_stop s ps l st o msg a : assoc o ps = None → inherited o = VUndef →
  stoppable silent_user o msg a (at_point s ps l st) = (Ret (a, true), at_point s ps l st).
Proof. intros H1 H2. unfold stoppable, opt_get, at_point. unfold mbind, M_bind. cbn [s_options get]. by rewrite H1, H2. Qed.

Lemma point_collect s u m f l st :
  collect checkOn call f (at_point s (plain_options u m) l st) =
  (Ret (formToArray checkOn (s_doc s) f false), at_point s (plain_options u m) l st).
Proof. reflexivity. Qed.

(** The options after the query was put into them. *)
Definition encoded_options (u m q : string) : list (string * value) :=
  if String.eqb (upper m) "GET"
  then prop_put "data" VNull (prop_put "url" (VStr (u +:+ (if has_char "?" u then "&" else "?") +:+ q)) (plain_options u m))
  else prop_put "data" (VStr q) (plain_options u m).

Lemma point_encode s u m a q l st : param_array call a = Ret q →
  encode call a (at_point s (plain_options u m) l st) = (Ret tt, at_point s (encoded_options u m q) l st).
Proof.
  intros Hq. unfold encode, lift. unfold mbind, M_bind. rewrite Hq. cbn [opt_get at_point s_options].
  unfold encoded_options. change (get (VObj false (plain_options u m)) "type") with (Ret (VStr m) : res value). cbn [text_of].
  by destruct (String.eqb (upper m) "GET").
Qed.

Lemma encoded_other k u m q : k ≠ "url" → k ≠ "data" → assoc k (encoded_options u m q) = assoc k (plain_options u m).
Proof.
  intros H1%String.eqb_neq H2%String.eqb_neq. unfold encoded_options. destruct (String.eqb (upper m) "GET");
    rewrite !assoc_prop_put, ?H1, ?H2; done.
Qed.

Lemma point_callbacks s u m q l st : ∃ st',
  set_callbacks (at_point s (encoded_options u m q) l st) =
  (Ret tt, at_point s (prop_put "success" (VFun "ajaxSubmit.success") (encoded_options u m q)) l st').
Proof.
  unfold set_callbacks, opt_get. unfold mbind, M_bind. cbn [s_options at_point get].
  rewrite !encoded_other by done. eexists. reflexivity.
Qed.

Definition before_send : list submit_effect := [Trigger "form-pre-serialize"; Trigger "form-submit-validate"].

(** Without interference everything before the request goes through. *)
Lemma reaches_send browser s f u m q : plain_submission s f u m → query_of s f = Ret q →
  ∃ st, ajaxSubmit checkOn browser location_href ajax_success call silent_user [f] VUndef s =
    (send browser f (formToArray checkOn (s_doc s) f false);; emit_effect (Trigger "form-submit-notify"))
      (at_point s (prop_put "success" (VFun "ajaxSubmit.success") (encoded_options u m q)) before_send st).
Proof.
  intros Hp Hq. destruct (point_callbacks s u m q before_send (s_success s)) as [st Hst]. exists st.
  unfold ajaxSubmit. rewrite (bind_eq _ _ _ _ _ (point_prepare s f u m Hp)), (bind_eq _ _ _ _ _ (point_veto _ _ _ _ _ _ _)). cbn [negb snd app].
  rewrite (bind_eq _ _ _ _ _ (point_stop s (plain_options u m) _ _ "beforeSerialize" _ _ eq_refl eq_refl)). cbn [negb snd].
  rewrite (bind_eq _ _ _ _ _ (point_collect _ _ _ _ _ _)), (bind_eq _ _ _ _ _ (point_stop s (plain_options u m) _ _ "beforeSubmit" _ _ eq_refl eq_refl)).
  cbn [negb snd fst]. rewrite (bind_eq _ _ _ _ _ (point_veto _ _ _ _ _ _ _)). cbn [negb snd fst app].
  by rewrite (bind_eq _ _ _ _ _ (point_encode _ _ _ _ _ _ _ Hq)), (bind_eq _ _ _ _ _ Hst).
Qed.

(** No frame is used for a plain submission. *)
Lemma send_plain browser s f u m q l st a : plain_submission s f u m →
  let o := prop_put "success" (VFun "ajaxSubmit.success") (encoded_options u m q) in
  send browser f a (at_point s o l st) =
  match browser with
  | None => (Throw TypeError, at_point s o l st)
  | Some msie =>
      let o' := if msie && bool_decide (a_method (s_attrs s) = Some "get") then prop_put "type" (VStr "get") o else o in
      (Ret tt, at_point s o' (l ++ [AjaxCall (VObj false o')]) st)
  end.
Proof.
  intros [_ _ _ _ _ Hfile [He1 He2] _] o. unfold send, gets, opt_get. unfold mbind, M_bind. cbn [s_doc s_attrs at_point s_options get].
  assert (assoc "iframe" o = None) as -> by (unfold o; rewrite assoc_prop_put, encoded_other by done; done).
  change (inherited "iframe") with VUndef. rewrite Hfile, !bool_decide_eq_false_2 by done. cbn [negb orb andb truthy].
  destruct browser as [msie|]; [|done]. destruct (msie && _); unfold emit_effect, with_options, modify, at_point; cbn; by rewrite <-app_assoc.
Qed.


(** With a jQuery that has no [$.browser], 1.9 or later, such a submission
    throws before the request. *)
Theorem no_browser_no_request s f u m :
  plain_submission s f u m →
  let r := ajaxSubmit checkOn None location_href ajax_success call silent_user [f] VUndef s in
  r.1 = Throw TypeError ∧ requests r.2 = requests s.
Proof.
  intros Hp r. destruct (query_reads s f u m Hp) as (q & Hq & Hqs). destruct (reaches_send None s f u m q Hp Hq) as [st E].
  unfold r. rewrite E. unfold mbind, M_bind. rewrite (send_plain None s f u m q) by done. split; [done|].
  unfold requests. cbn [snd s_log at_point]. rewrite filter_app. cbn. by rewrite app_nil_r.
Qed.
End content.

Definition lesson_submission : submission :=
  {| s_doc := lesson None; s_attrs := {| a_method := Some "get"; a_action := Some "/save?room=1"; a_target := None; a_enctype := None; a_encoding := None |};
     s_options := VUndef; s_success := []; s_log := [] |}.

Lemma lesson_plain : plain_submission lesson_submission (lesson_form None) "/save?room=1" "get".
Proof. split; try reflexivity; try (split; reflexivity || (intros [=])); intros [=]. Qed.

