(* ===== verification/Upload.v ===== *)
(** * Uploads through a frame (jquery.form.js: fileUpload)

    A form with files is submitted to a hidden frame, and a mock of an
    XMLHttpRequest is kept up to date with what the frame loads.  The local
    variables of [fileUpload], which its inner functions share, are the state; a
    step is a timer that fires, a [load] event of the frame, or a call of
    [xhr.abort] by the page.  What the browser lets the script see of the frame
    comes with the step.  Functions of the page are the parameter [user].  Names
    of fields are looked up among the elements of the form only, not among the
    properties that every form has.  The context of the callbacks is not
    modelled, and messages of the log are kept without the values after them. *)

From Stdlib Require Import SpecFloat.
From S2P Require Import Prelude JSNum JSValue JSON NodeUrl JQueryCore JQueryParam Forms AjaxSubmit.

(** ** What is in the frame *)

(** An element that carries a status: its content and attributes. *)
Record frame_root := { r_html : string; r_status : option string; r_statusText : option string }.

(** A document of the frame: [body], the root element with its [nodeName], the
    first [textarea] (its value and attributes) and the first [pre] (its text and
    its content). *)
Record frame_document := {
  fd_href : string;
  fd_readyState : string;
  fd_XMLDocument : option (option string);
  fd_rootName : option string;
  fd_body : option frame_root;
  fd_documentElement : option frame_root;
  fd_textarea : option frame_root;
  fd_pre : option (string * string);
  fd_bodyTag : option string     (* the content of the first element named [body] *)
}.

(** An XML document, by the name of its root element. *)
Definition xml_doc := option string.

(** The properties of the frame element; the document of a window of another
    origin cannot be read. *)
Record frame_view := {
  contentWindow : option (res (option frame_document));
  contentDocument : option frame_document;
  frame_doc : option frame_document
}.

Definition getDoc (frame : option frame_view) : res (option frame_document) :=
  match frame with
  | None => Throw TypeError
  | Some v =>
      match contentWindow v with
      | Some w => w
      | None => match contentDocument v with Some d => Ret (Some d) | None => Ret (frame_doc v) end
      end
  end.

(** ** The state *)

Inductive payload := PValue (v : value) | PDoc (d : xml_doc).

(** What [xhr.error] and the error message may be. *)
Inductive errv := EUndef | EText (s : string) | EValue (v : value) | EExn (e : exn).

Record xhr_mock := {
  x_aborted : bool;
  x_responseText : value;
  x_responseXML : option xml_doc;
  x_status : num;
  x_statusText : string;
  x_error : errv;
  x_headers : bool               (* [getResponseHeader] was replaced *)
}.

Inductive timer := TSubmit | TTimeout | TState | TLoad | TClean.
#[export] Instance timer_eq_dec : EqDecision timer.
Proof. solve_decision. Defined.

(** Calls of functions of the page. *)
Inductive user_call :=
| BeforeSend
| Filter (data : payload)
| Script (code : string)
| Success (data : payload)
| Error (status : string) (msg : errv)
| Complete (status : option string).

Inductive upload_effect :=
| ULog (msg : string)
| Alert (msg : string)
| Called (c : user_call)
| GlobalEvent (name : string)
| FrameSrc (src : value)
| FormSubmitted (attrs : form_attrs) (extra : list (string * option string)).

Record upload := {
  u_doc : document;
  u_attrs : form_attrs;
  u_s : value;
  u_g : bool;
  u_xhr : xhr_mock;
  u_id : string;
  u_io : bool;                   (* there is a frame element *)
  u_in_page : bool;              (* the frame of the upload is in the page *)
  u_listening : bool;
  u_timers : list timer;
  u_handle : bool;               (* [timeoutHandle] *)
  u_timedOut : bool;
  u_domCheckCount : Z;
  u_data : payload;
  u_processed : bool;            (* [callbackProcessed] *)
  u_active : Z;                  (* [$.active] *)
  u_log : list upload_effect
}.

Definition with_xhr (f : xhr_mock → xhr_mock) (u : upload) : upload :=
  {| u_doc := u_doc u; u_attrs := u_attrs u; u_s := u_s u; u_g := u_g u; u_xhr := f (u_xhr u); u_id := u_id u; u_io := u_io u;
     u_in_page := u_in_page u; u_listening := u_listening u; u_timers := u_timers u; u_handle := u_handle u;
     u_timedOut := u_timedOut u; u_domCheckCount := u_domCheckCount u; u_data := u_data u; u_processed := u_processed u;
     u_active := u_active u; u_log := u_log u |}.
Definition with_settings (s : value) (g : bool) (u : upload) : upload :=
  {| u_doc := u_doc u; u_attrs := u_attrs u; u_s := s; u_g := g; u_xhr := u_xhr u; u_id := u_id u; u_io := u_io u;
     u_in_page := u_in_page u; u_listening := u_listening u; u_timers := u_timers u; u_handle := u_handle u;
     u_timedOut := u_timedOut u; u_domCheckCount := u_domCheckCount u; u_data := u_data u; u_processed := u_processed u;
     u_active := u_active u; u_log := u_log u |}.
Definition with_attrs (f : form_attrs → form_attrs) (u : upload) : upload :=
  {| u_doc := u_doc u; u_attrs := f (u_attrs u); u_s := u_s u; u_g := u_g u; u_xhr := u_xhr u; u_id := u_id u; u_io := u_io u;
     u_in_page := u_in_page u; u_listening := u_listening u; u_timers := u_timers u; u_handle := u_handle u;
     u_timedOut := u_timedOut u; u_domCheckCount := u_domCheckCount u; u_data := u_data u; u_processed := u_processed u;
     u_active := u_active u; u_log := u_log u |}.
Definition with_fields (d : document) (u : upload) : upload :=
  {| u_doc := d; u_attrs := u_attrs u; u_s := u_s u; u_g := u_g u; u_xhr := u_xhr u; u_id := u_id u; u_io := u_io u;
     u_in_page := u_in_page u; u_listening := u_listening u; u_timers := u_timers u; u_handle := u_handle u;
     u_timedOut := u_timedOut u; u_domCheckCount := u_domCheckCount u; u_data := u_data u; u_processed := u_processed u;
     u_active := u_active u; u_log := u_log u |}.
Definition with_timers (f : list timer → list timer) (u : upload) : upload :=
  {| u_doc := u_doc u; u_attrs := u_attrs u; u_s := u_s u; u_g := u_g u; u_xhr := u_xhr u; u_id := u_id u; u_io := u_io u;
     u_in_page := u_in_page u; u_listening := u_listening u; u_timers := f (u_timers u); u_handle := u_handle u;
     u_timedOut := u_timedOut u; u_domCheckCount := u_domCheckCount u; u_data := u_data u; u_processed := u_processed u;
     u_active := u_active u; u_log := u_log u |}.
Definition with_handle (b : bool) (u : upload) : upload :=
  {| u_doc := u_doc u; u_attrs := u_attrs u; u_s := u_s u; u_g := u_g u; u_xhr := u_xhr u; u_id := u_id u; u_io := u_io u;
     u_in_page := u_in_page u; u_listening := u_listening u; u_timers := u_timers u; u_handle := b; u_timedOut := u_timedOut u;
     u_domCheckCount := u_domCheckCount u; u_data := u_data u; u_processed := u_processed u; u_active := u_active u; u_log := u_log u |}.
Definition with_timedOut (b : bool) (u : upload) : upload :=
  {| u_doc := u_doc u; u_attrs := u_attrs u; u_s := u_s u; u_g := u_g u; u_xhr := u_xhr u; u_id := u_id u; u_io := u_io u;
     u_in_page := u_in_page u; u_listening := u_listening u; u_timers := u_timers u; u_handle := u_handle u; u_timedOut := b;
     u_domCheckCount := u_domCheckCount u; u_data := u_data u; u_processed := u_processed u; u_active := u_active u; u_log := u_log u |}.
Definition with_frame (p l : bool) (u : upload) : upload :=
  {| u_doc := u_doc u; u_attrs := u_attrs u; u_s := u_s u; u_g := u_g u; u_xhr := u_xhr u; u_id := u_id u; u_io := u_io u;
     u_in_page := p; u_listening := l; u_timers := u_timers u; u_handle := u_handle u; u_timedOut := u_timedOut u;
     u_domCheckCount := u_domCheckCount u; u_data := u_data u; u_processed := u_processed u; u_active := u_active u; u_log := u_log u |}.
Definition with_checks (n : Z) (u : upload) : upload :=
  {| u_doc := u_doc u; u_attrs := u_attrs u; u_s := u_s u; u_g := u_g u; u_xhr := u_xhr u; u_id := u_id u; u_io := u_io u;
     u_in_page := u_in_page u; u_listening := u_listening u; u_timers := u_timers u; u_handle := u_handle u;
     u_timedOut := u_timedOut u; u_domCheckCount := n; u_data := u_data u; u_processed := u_processed u; u_active := u_active u;
     u_log := u_log u |}.
Definition with_data (p : payload) (u : upload) : upload :=
  {| u_doc := u_doc u; u_attrs := u_attrs u; u_s := u_s u; u_g := u_g u; u_xhr := u_xhr u; u_id := u_id u; u_io := u_io u;
     u_in_page := u_in_page u; u_listening := u_listening u; u_timers := u_timers u; u_handle := u_handle u;
     u_timedOut := u_timedOut u; u_domCheckCount := u_domCheckCount u; u_data := p; u_processed := u_processed u;
     u_active := u_active u; u_log := u_log u |}.
Definition with_processed (u : upload) : upload :=
  {| u_doc := u_doc u; u_attrs := u_attrs u; u_s := u_s u; u_g := u_g u; u_xhr := u_xhr u; u_id := u_id u; u_io := u_io u;
     u_in_page := u_in_page u; u_listening := u_listening u; u_timers := u_timers u; u_handle := u_handle u;
     u_timedOut := u_timedOut u; u_domCheckCount := u_domCheckCount u; u_data := u_data u; u_processed := true; u_active := u_active u;
     u_log := u_log u |}.
Definition with_active (f : Z → Z) (u : upload) : upload :=
  {| u_doc := u_doc u; u_attrs := u_attrs u; u_s := u_s u; u_g := u_g u; u_xhr := u_xhr u; u_id := u_id u; u_io := u_io u;
     u_in_page := u_in_page u; u_listening := u_listening u; u_timers := u_timers u; u_handle := u_handle u;
     u_timedOut := u_timedOut u; u_domCheckCount := u_domCheckCount u; u_data := u_data u; u_processed := u_processed u;
     u_active := f (u_active u); u_log := u_log u |}.
Definition with_log (e : upload_effect) (u : upload) : upload :=
  {| u_doc := u_doc u; u_attrs := u_attrs u; u_s := u_s u; u_g := u_g u; u_xhr := u_xhr u; u_id := u_id u; u_io := u_io u;
     u_in_page := u_in_page u; u_listening := u_listening u; u_timers := u_timers u; u_handle := u_handle u;
     u_timedOut := u_timedOut u; u_domCheckCount := u_domCheckCount u; u_data := u_data u; u_processed := u_processed u;
     u_active := u_active u; u_log := u_log u ++ [e] |}.

Definition x_abort (e : errv) (x : xhr_mock) : xhr_mock :=
  {| x_aborted := true; x_responseText := x_responseText x; x_responseXML := x_responseXML x; x_status := x_status x;
     x_statusText := x_statusText x; x_error := e; x_headers := x_headers x |}.
Definition x_response (t : value) (d : option xml_doc) (x : xhr_mock) : xhr_mock :=
  {| x_aborted := x_aborted x; x_responseText := t; x_responseXML := d; x_status := x_status x; x_statusText := x_statusText x;
     x_error := x_error x; x_headers := true |}.
Definition x_text (t : value) (x : xhr_mock) : xhr_mock :=
  {| x_aborted := x_aborted x; x_responseText := t; x_responseXML := x_responseXML x; x_status := x_status x;
     x_statusText := x_statusText x; x_error := x_error x; x_headers := x_headers x |}.
Definition x_xml (d : option xml_doc) (x : xhr_mock) : xhr_mock :=
  {| x_aborted := x_aborted x; x_responseText := x_responseText x; x_responseXML := d; x_status := x_status x;
     x_statusText := x_statusText x; x_error := x_error x; x_headers := x_headers x |}.
Definition x_codes (st : num) (t : string) (x : xhr_mock) : xhr_mock :=
  {| x_aborted := x_aborted x; x_responseText := x_responseText x; x_responseXML := x_responseXML x; x_status := st; x_statusText := t;
     x_error := x_error x; x_headers := x_headers x |}.
Definition x_fail (e : errv) (x : xhr_mock) : xhr_mock :=
  {| x_aborted := x_aborted x; x_responseText := x_responseText x; x_responseXML := x_responseXML x; x_status := x_status x;
     x_statusText := x_statusText x; x_error := e; x_headers := x_headers x |}.

Definition no_attrs : form_attrs := {| a_method := None; a_action := None; a_target := None; a_enctype := None; a_encoding := None |}.

Definition set_action (v : option string) (a : form_attrs) : form_attrs :=
  {| a_method := a_method a; a_action := v; a_target := a_target a; a_enctype := a_enctype a; a_encoding := a_encoding a |}.
Definition set_target (v : option string) (a : form_attrs) : form_attrs :=
  {| a_method := a_method a; a_action := a_action a; a_target := v; a_enctype := a_enctype a; a_encoding := a_encoding a |}.
Definition set_method (v : option string) (a : form_attrs) : form_attrs :=
  {| a_method := v; a_action := a_action a; a_target := a_target a; a_enctype := a_enctype a; a_encoding := a_encoding a |}.
Definition set_encoding (v : option string) (a : form_attrs) : form_attrs :=
  {| a_method := a_method a; a_action := a_action a; a_target := a_target a; a_enctype := v; a_encoding := v |}.

Definition emit (e : upload_effect) : M upload unit := modify (with_log e).
Definition opt (k : string) : M upload value := λ u, (get (u_s u) k, u).
Definition add_timer (t : timer) : M upload unit := modify (with_timers (λ l, l ++ [t])).
Definition drop_timer (t : timer) : M upload unit := modify (with_timers (filter (λ t', t' ≠ t))).

Definition finally {St A} (m : M St A) (h : M St unit) : M St A := λ s,
  let rs := m s in
  match h rs.2 with
  | (Ret _, s'') => (rs.1, s'')
  | (Throw e, s'') => (Throw e, s'')
  end.

(** Enable the fields of a name. *)
Definition enable_element (e : element) : element :=
  {| el_tag := el_tag e; el_id := el_id e; el_name := el_name e; el_type := el_type e; el_disabled := false;
     el_in_disabled := el_in_disabled e; el_checked := el_checked e; el_value := el_value e; el_has_value := el_has_value e;
     el_options := el_options e; el_dropdown := el_dropdown e; el_form := el_form e |}.
Definition named_items (d : document) (f : form) (n : string) : list nat :=
  filter (λ r, (el_name (el_at d r) = n ∨ el_id (el_at d r) = n) ∧ el_type (el_at d r) ≠ "image" ∧ n ≠ "") (f_elements f).
Definition enable_named (f : form) (d : document) (n : string) : document :=
  {| els := imap (λ i e, if bool_decide (i ∈ named_items d f n) then enable_element e else e) (els d); forms := forms d |}.
Definition enable_fields (f : form) (a : fields) (d : document) : document := foldl (enable_named f) d a.*1.

Definition is_input (e : element) : bool := existsb (String.eqb (el_tag e)) ["input"; "select"; "textarea"; "button"].

(** [$(':input[name=submit],:input[id=submit]', form).length] *)
Definition submit_named (d : document) (f : form) : bool :=
  existsb (λ r, let e := el_at d r in is_input e && (String.eqb (el_name e) "submit" || String.eqb (el_id e) "submit")) (f_all f).

Definition isXMLDoc (d : frame_document) : bool :=
  match fd_rootName d with Some n => negb (String.eqb n "HTML") | None => false end.

(** [Number(attr) || status], and [attr || statusText] *)
Definition or_status (attr : option string) (st : num) : num :=
  match attr with
  | Some s => let n := string_to_num s in if truthy (VNum n) then n else st
  | None => st
  end.
Definition or_text (attr : option string) (t : string) : string :=
  match attr with Some s => if String.eqb s "" then t else s | None => t end.

Definition new_xhr : xhr_mock :=
  {| x_aborted := false; x_responseText := VNull; x_responseXML := None; x_status := num_of_Z 0; x_statusText := "n/a";
     x_error := EUndef; x_headers := false |}.

Section upload.
Context (ajaxSettings : value).
Context (now : string).                              (* [new Date().getTime()] *)
Context (target_frame : option (option string)).     (* [$(s.iframeTarget)], by its name *)
Context (opera : bool).
Context (html_name : string → string).               (* a name as the HTML parser reads it *)
Context (parseXML : string → res (option xml_doc)).  (* [$.parseXML] *)
Context (call : string → value).
Context (user : user_call → M upload value).
Context (method : option string).                    (* of the form, when [ajaxSubmit] was called *)
Context (f : form).

Definition call_user (c : user_call) : M upload value := emit (Called c);; user c.

(** [s.k && s.k.call(...)] *)
Definition call_option (k : string) (c : user_call) : M upload value :=
  g ← opt k;
  if truthy g then if isFunction g then call_user c else raise TypeError else mret g.

(** [g && $.event.trigger(name, ...)] *)
Definition trigger (name : string) : M upload unit :=
  g ← gets u_g;
  if (g : bool) then emit (GlobalEvent name) else mret tt.

Definition abort (status : value) : M upload unit :=
  let e := match status with VStr "timeout" => "timeout" | _ => "aborted" end in
  emit (ULog ("aborting upload... " +:+ e));;
  modify (with_xhr (x_abort (EText e)));;
  src ← opt "iframeSrc";
  emit (FrameSrc src);;
  call_option "error" (Error e (EValue status));;
  trigger "ajaxError";;
  call_option "complete" (Complete (Some e));;
  mret tt.

(** The data of the response, by its type. *)
Definition httpData (type : value) : M upload payload :=
  x ← gets u_xhr;
  dt ← opt "dataType";
  let ct := if x_headers x && truthy dt then dt else VStr "" in
  let ct_has w := if truthy type then mret false else t ← lift (text_of ct); mret (occurs w t) in
  let type_is w := match type with VStr t => String.eqb t w | _ => false end in
  ct_xml ← ct_has "xml";
  (if type_is "xml" || ct_xml then
     match x_responseXML x with
     | Some (Some n) => if String.eqb n "parsererror" then raise (Raised "parsererror") else mret tt
     | _ => raise TypeError
     end
   else mret tt);;
  let data := if type_is "xml" || ct_xml then PDoc (default None (x_responseXML x)) else PValue (x_responseText x) in
  filtered ← opt "dataFilter";
  data ← (if truthy filtered then
            if isFunction filtered then v ← call_user (Filter data); mret (PValue v) else raise TypeError
          else mret data);
  match data with
  | PValue (VStr t) =>
      ct_json ← ct_has "json";
      ct_script ← ct_has "javascript";
      if type_is "json" || ct_json then
        match parse t with Some v => mret (PValue v) | None => raise SyntaxError end
      else if type_is "script" || ct_script then
        (if String.eqb (rtrim (ltrim t)) "" then mret VUndef else call_user (Script t));; mret data
      else mret data
  | _ => mret data
  end.

(** What the attempt to read the response gives. *)
Inductive outcome :=
| Requeued
| Status (s : string) (msg : errv).

(** [/(json|script|text)/.test(dt.toLowerCase())] *)
Definition is_text_type (dt : string) : bool :=
  let t := lower dt in occurs "json" t || occurs "script" t || occurs "text" t.

(** The text of a response that is not read from the root: a [textarea] around
    it, or what browsers put around a text. *)
Definition unwrap_text (d : frame_document) (scr : bool) : M upload unit :=
  match fd_textarea d with
  | Some ta =>
      modify (with_xhr (λ x, x_codes (or_status (r_status ta) (x_status x)) (or_text (r_statusText ta) (x_statusText x)) (x_text (VStr (r_html ta)) x)))
  | None =>
      if scr then
        match fd_pre d, fd_bodyTag d with
        | Some (text, html), _ => modify (with_xhr (x_text (VStr (if String.eqb text "" then html else text))))
        | None, Some html => modify (with_xhr (x_text (VStr html)))
        | None, None => mret tt
        end
      else mret tt
  end.

(** The fields of [xhr] from the document of the frame, and the data. *)
Definition read_response (d : frame_document) (isXml : bool) : M upload outcome :=
  let docRoot := match fd_body d with Some r => Some r | None => fd_documentElement d end in
  modify (with_xhr (x_response (match docRoot with Some r => VStr (r_html r) | None => VNull end)
                               (Some (match fd_XMLDocument d with Some xd => xd | None => fd_rootName d end))));;
  (if isXml then modify (λ u, with_settings (put (u_s u) "dataType" (VStr "xml")) (u_g u) u) else mret tt);;
  (match docRoot with
   | Some r => modify (with_xhr (λ x, x_codes (or_status (r_status r) (x_status x)) (or_text (r_statusText r) (x_statusText x)) x))
   | None => mret tt
   end);;
  dt ← opt "dataType";
  t ← lift (if truthy dt then text_of dt else Ret "");
  let scr := is_text_type t in
  textarea ← opt "textarea";
  (if scr || truthy textarea then unwrap_text d scr
   else
     x ← gets u_xhr;
     match String.eqb t "xml", x_responseXML x, x_responseText x with
     | true, None, VStr text => xd ← lift (parseXML text); modify (with_xhr (x_xml xd))
     | _, _, _ => mret tt
     end);;
  try_catch (data ← httpData dt; modify (with_data data);; mret (Status "success" EUndef))
            (λ e, modify (with_xhr (x_fail (EExn e)));; mret (Status "parsererror" (EExn e))).

(** Opera: the document may not be there yet when [load] fires. *)
Definition read_document (d : frame_document) : M upload outcome :=
  dt ← opt "dataType";
  is_xml ← lift (loose_eq dt (VStr "xml"));
  let isXml := is_xml || bool_decide (is_Some (fd_XMLDocument d)) || isXMLDoc d in
  emit (ULog "isXml");;
  let empty := match fd_body d with Some r => String.eqb (r_html r) "" | None => true end in
  if negb isXml && opera && empty then
    n ← gets u_domCheckCount;
    modify (with_checks (n - 1));;
    if negb (n - 1 =? 0)%Z then
      emit (ULog "requeing onLoad callback, DOM not available");;
      add_timer TLoad;;
      mret Requeued
    else read_response d isXml
  else read_response d isXml.

(** The attempt to read the response. *)
Definition attempt (doc : option frame_document) : M upload outcome :=
  timedOut ← gets u_timedOut;
  if (timedOut : bool) then
    emit (ULog "error caught");; modify (with_xhr (x_fail (EText "timeout")));; mret (Status "error" (EText "timeout"))
  else
    try_catch (match doc with Some d => read_document d | None => raise TypeError end)
              (λ e, emit (ULog "error caught");; modify (with_xhr (x_fail (EExn e)));; mret (Status "error" (EExn e))).

(** The status that is reported. *)
Definition final_status (x : xhr_mock) (status : string) : option string :=
  if truthy (VNum (x_status x)) then
    Some (if num_leb (num_of_Z 200) (x_status x) && num_ltb (x_status x) (num_of_Z 300) || num_eqb (x_status x) (num_of_Z 304)
          then "success" else "error")
  else if x_aborted x then None else Some status.

(** The callback and event of an outcome; one request less is active; the
    callbacks and events of a response. *)
Definition report_outcome (status : option string) (msg : errv) : M upload unit :=
  match status with
  | Some st =>
      if String.eqb st "success" then
        data ← gets u_data;
        call_option "success" (Success data);;
        trigger "ajaxSuccess"
      else
        x ← gets u_xhr;
        let msg := match msg with EUndef => EText (x_statusText x) | _ => msg end in
        call_option "error" (Error st msg);;
        trigger "ajaxError"
  | None => mret tt
  end.

Definition one_less : M upload unit :=
  g ← gets u_g;
  if (g : bool) then
    modify (with_active (λ n, n - 1)%Z);;
    n ← gets u_active;
    if (n =? 0)%Z then emit (GlobalEvent "ajaxStop") else mret tt
  else mret tt.

Definition report (status : option string) (msg : errv) : M upload unit :=
  report_outcome status msg;;
  trigger "ajaxComplete";;
  one_less;;
  call_option "complete" (Complete status);;
  modify with_processed;;
  timeout ← opt "timeout";
  (if truthy timeout then drop_timer TTimeout else mret tt);;
  add_timer TClean.

Inductive cb_arg := LoadEvent | ClientTimeout | ServerAbort.

Definition cb (frame : option frame_view) (e : cb_arg) : M upload unit :=
  x ← gets u_xhr;
  processed ← gets u_processed;
  if x_aborted x || (processed : bool) then mret tt else
  p ← (match getDoc frame with
       | Ret doc => mret (doc, e)
       | Throw _ => emit (ULog "cannot access response document: ");; mret (None, ServerAbort)
       end);
  match (p : option frame_document * cb_arg).2 with
  | ClientTimeout => abort (VStr "timeout")
  | ServerAbort => abort (VStr "server abort")
  | LoadEvent =>
      src ← opt "iframeSrc";
      pending ← lift (match p.1 with Some d => loose_eq (VStr (fd_href d)) src | None => Ret true end);
      timedOut ← gets u_timedOut;
      if (pending : bool) && negb timedOut then mret tt else
      modify (λ u, with_frame (u_in_page u) false u);;
      o ← attempt p.1;
      match o with
      | Requeued => mret tt
      | Status st msg =>
          x ← gets u_xhr;
          (if x_aborted x then emit (ULog "upload aborted") else mret tt);;
          report (final_status x st) msg
      end
  end.

Definition checkState (frame : option frame_view) : M upload unit :=
  let server_abort :=
    emit (ULog "Server abort: ");;
    cb frame ServerAbort;;
    handle ← gets u_handle;
    (if (handle : bool) then drop_timer TTimeout else mret tt);;
    modify (with_handle false) in
  match getDoc frame with
  | Ret (Some d) =>
      emit (ULog ("state = " +:+ fd_readyState d));;
      if String.eqb (lower (fd_readyState d)) "uninitialized" then add_timer TState else mret tt
  | _ => server_abort
  end.

(** [.attr('value', v)] of a new input *)
Definition input_value (v : value) : res (option string) :=
  match (match v with VFun g => call g | _ => v end) with
  | VUndef | VNull => Ret None
  | w => t ← to_string w; Ret (Some t)
  end.

Fixpoint extra_inputs (ps : list (string * value)) : res (list (string * option string)) :=
  match ps with
  | [] => Ret []
  | (n, v) :: ps' => i ← input_value v; l ← extra_inputs ps'; Ret ((html_name n, i) :: l)
  end.

(** [/post/i.test(method)] *)
Definition is_post (m : option string) : bool := match m with Some t => occurs "post" (lower t) | None => false end.
Definition no_method (m : option string) : bool := match m with Some t => String.eqb t "" | None => true end.

(** The attributes of the form for its submission. *)
Definition set_form_attrs : M upload unit :=
  a ← gets (λ u, a_action (u_attrs u));
  id ← gets u_id;
  url ← opt "url";
  skip ← opt "skipEncodingOverride";
  modify (with_attrs (set_target (Some id)));;
  (if no_method method then modify (with_attrs (set_method (Some "POST"))) else mret tt);;
  same ← lift (loose_eq (match a with Some t => VStr t | None => VUndef end) url);
  (if (same : bool) then mret tt else t ← lift (to_string url); modify (with_attrs (set_action (Some t))));;
  if negb (truthy skip) && (no_method method || is_post method)
  then modify (with_attrs (set_encoding (Some multipart))) else mret tt.

(** The extra fields, the frame, and the submission. *)
Definition submit_form : M upload unit :=
  data ← opt "extraData";
  extra ← lift (if truthy data then extra_inputs (own_props data) else Ret []);
  target ← opt "iframeTarget";
  (if truthy target then mret tt else modify (with_frame true true));;
  add_timer TState;;
  attrs ← gets u_attrs;
  emit (FormSubmitted attrs extra).

Definition doSubmit : M upload unit :=
  attrs ← gets u_attrs;
  set_form_attrs;;
  timeout ← opt "timeout";
  (if truthy timeout then add_timer TTimeout;; modify (with_handle true) else mret tt);;
  finally submit_form
    (modify (with_attrs (set_action (Some (match a_action attrs with Some t => t | None => "undefined" end))));;
     modify (with_attrs (set_target (if no_method (a_target attrs) then None else a_target attrs)))).

(** The fields of the clicked element, among the extra fields. *)
Definition add_clicked : M upload unit :=
  d ← gets u_doc;
  match clk f with
  | None => mret tt
  | Some r =>
      let sub := el_at d r in
      if String.eqb (el_name sub) "" || el_disabled sub then mret tt else
      data ← opt "extraData";
      let n := el_name sub in
      let data := put (if truthy data then data else empty_object) n (match el_value sub with Some v => VStr v | None => VUndef end) in
      let data := if String.eqb (el_type sub) "image" then put (put data (n +:+ ".x") (clk_x f)) (n +:+ ".y") (clk_y f) else data in
      modify (λ u, with_settings (put (u_s u) "extraData" data) (u_g u) u)
  end.

(** The variables of a new upload. *)
Definition new_upload (s : value) (id : string) (io g : bool) (u : upload) : upload :=
  {| u_doc := u_doc u; u_attrs := u_attrs u; u_s := s; u_g := g; u_xhr := new_xhr; u_id := id; u_io := io; u_in_page := false;
     u_listening := false; u_timers := []; u_handle := false; u_timedOut := false; u_domCheckCount := 50; u_data := PValue VUndef;
     u_processed := false; u_active := u_active u; u_log := u_log u |}.

(** The counter of active requests, and the events of its start. *)
Definition announce : M upload unit :=
  g ← gets u_g;
  if (g : bool) then
    n ← gets u_active;
    modify (with_active (λ n, n + 1)%Z);;
    (if (n =? 0)%Z then emit (GlobalEvent "ajaxStart") else mret tt);;
    emit (GlobalEvent "ajaxSend")
  else mret tt.

(** The name of the frame, and whether there is one. *)
Definition frame_id (target : value) : string * bool :=
  let id := "jqFormIO" +:+ now in
  if truthy target then
    match target_frame with
    | Some (Some n) => (n, true)
    | Some None => (id, true)
    | None => (id, false)
    end
  else (id, true).

(** From the last chance to stop the upload to its start. *)
Definition launch : M upload unit :=
  before ← opt "beforeSend";
  r ← call_option "beforeSend" BeforeSend;
  g ← opt "global";
  match truthy before, r with
  | true, VBool false => if truthy g then modify (with_active (λ n, n - 1)%Z) else mret tt
  | _, _ =>
      x ← gets u_xhr;
      if x_aborted x then mret tt else
      add_clicked;;
      sync ← opt "forceSync";
      if truthy sync then doSubmit else add_timer TSubmit
  end.

Definition fileUpload (options : value) (a : fields) : M upload unit :=
  modify (λ u, with_fields (enable_fields f a (u_doc u)) u);;
  d ← gets u_doc;
  if submit_named d f then emit (Alert ("Error: Form elements must not have name or id of " +:+ quote "submit" +:+ ".")) else
  s ← lift (jq_extend VUndef [VBool true; empty_object; ajaxSettings; options]);
  target ← lift (get s "iframeTarget");
  global ← lift (get s "global");
  modify (new_upload s (frame_id target).1 (frame_id target).2 (truthy global));;
  announce;;
  launch.

(** ** Steps *)

Inductive upload_event :=
| EvTimer (t : timer) (v : frame_view)
| EvLoad (v : frame_view)
| EvAbort (status : value).

Definition run_timer (t : timer) (frame : option frame_view) : M upload unit :=
  match t with
  | TSubmit => doSubmit
  | TTimeout => modify (with_timedOut true);; cb frame ClientTimeout
  | TState => checkState frame
  | TLoad => cb frame LoadEvent
  | TClean =>
      target ← opt "iframeTarget";
      (if truthy target then mret tt else modify (with_frame false false));;
      modify (with_xhr (x_xml None))
  end.

Definition remove_timer (t : timer) (l : list timer) : list timer :=
  match list_find (λ t', t' = t) l with Some (i, _) => delete i l | None => l end.

(** A step; what an event handler throws goes to the browser. *)
Definition upload_step (ev : upload_event) : M upload unit :=
  io ← gets u_io;
  let frame v := if io : bool then Some v else None in
  match ev with
  | EvTimer t v =>
      timers ← gets u_timers;
      if bool_decide (t ∈ timers) then modify (with_timers (remove_timer t));; run_timer t (frame v) else mret tt
  | EvLoad v =>
      listening ← gets u_listening;
      if (listening : bool) then cb (frame v) LoadEvent else mret tt
  | EvAbort status => abort status
  end.

Definition run_upload (evs : list upload_event) (u : upload) : upload :=
  foldl (λ u ev, (upload_step ev u).2) u evs.
End upload.
