(* ===== verification/UploadFacts.v ===== *)
(** * Uploads: what is reported, and how often *)

From Stdlib Require Import SpecFloat.
From S2P Require Import Prelude JSNum JSValue JSON NodeUrl JQueryCore JQueryParam Forms AjaxSubmit Upload.

Local Open Scope Z_scope.

(** ** The core of the state *)

(** The outcomes that were reported to the page. *)
Definition as_report (e : upload_effect) : option user_call :=
  match e with
  | Called (Success d) => Some (Success d)
  | Called (Error s m) => Some (Error s m)
  | Called (Complete s) => Some (Complete s)
  | _ => None
  end.
Definition reported (u : upload) : list user_call := omap as_report (u_log u).

Record core := { c_reported : list user_call; c_aborted : bool; c_processed : bool; c_active : Z; c_global : bool }.

Definition core_of (u : upload) : core :=
  {| c_reported := reported u; c_aborted := x_aborted (u_xhr u); c_processed := u_processed u; c_active := u_active u; c_global := u_g u |}.

(** An option that is absent or a function. *)
Definition callable (s : value) (k : string) : Prop := ∃ v, get s k = Ret v ∧ (truthy v = true → isFunction v = true).

(** The callbacks of the settings can be called. *)
Definition callbacks_ok (s : value) : Prop :=
  Forall (callable s) ["success"; "error"; "complete"] ∧ ∃ ps, s = VObj false ps.

Lemma callbacks_put s k v : k ∉ ["success"; "error"; "complete"] → callbacks_ok s → callbacks_ok (put s k v).
Proof.
  intros Hk [Hs [ps ->]]. split; [|by eexists]. rewrite Forall_forall in Hs |- *. intros k' Hin.
  destruct (Hs k' Hin) as (w & Hw & Hf). exists w. split; [|done]. cbn [put]. cbn [get] in Hw |- *. rewrite assoc_prop_put.
  destruct (String.eqb k' k) eqn:E; [|exact Hw]. apply String.eqb_eq in E. by subst k'.
Qed.

(** Code that leaves the core alone. *)
Definition quiet {A} (m : M upload A) : Prop :=
  ∀ u, callbacks_ok (u_s u) → core_of (m u).2 = core_of u ∧ callbacks_ok (u_s (m u).2).

Lemma quiet_then {A B} (m : M upload A) (k : A → M upload B) : quiet m → (∀ a, quiet (k a)) → quiet (m ≫= k).
Proof.
  intros Hm Hk u Hu. unfold mbind, M_bind. destruct (Hm u Hu) as [H1 H2]. destruct (m u) as [[a|e] u']; cbn in *; [|done].
  destruct (Hk a u' H2) as [-> ?]. done.
Qed.
Lemma quiet_nop {A} (m : M upload A) : (∀ u, (m u).2 = u) → quiet m.
Proof. intros H u Hu. by rewrite H. Qed.
Lemma quiet_modify f : (∀ u, core_of (f u) = core_of u) → (∀ u, u_s (f u) = u_s u) → quiet (modify f).
Proof. intros H1 H2 u Hu. cbn. by rewrite H1, H2. Qed.
Lemma quiet_emit e : as_report e = None → quiet (emit e).
Proof.
  intros He. apply quiet_modify; [|done]. intros u. unfold core_of, reported. cbn. rewrite omap_app. cbn. rewrite He. by rewrite app_nil_r.
Qed.
Lemma quiet_put k v : k ∉ ["success"; "error"; "complete"] → quiet (modify (λ u, with_settings (put (u_s u) k v) (u_g u) u)).
Proof. intros Hk u Hu. cbn. split; [done|]. by apply callbacks_put. Qed.
Lemma quiet_catch {A} (m : M upload A) h : quiet m → (∀ e, quiet (h e)) → quiet (try_catch m h).
Proof.
  intros Hm Hh u Hu. unfold try_catch. destruct (Hm u Hu) as [H1 H2]. destruct (m u) as [[a|e] u']; cbn in *; [done|].
  destruct (Hh e u' H2) as [-> ?]. done.
Qed.
Lemma quiet_finally {A} (m : M upload A) h : quiet m → quiet h → quiet (finally m h).
Proof.
  intros Hm Hh u Hu. unfold finally. destruct (Hm u Hu) as [H1 H2]. destruct (m u) as [r u']; cbn in *.
  destruct (Hh u' H2) as [H3 H4]. destruct (h u') as [[?|e] u'']; cbn in *; by rewrite H3.
Qed.

(** Code that returns, and what holds then. *)
Definition runs {A} (m : M upload A) (u : upload) (P : A → upload → Prop) : Prop := ∃ a u', m u = (Ret a, u') ∧ P a u'.

Lemma runs_bind {A B} (m : M upload A) (k : A → M upload B) u P : runs m u (λ a u', runs (k a) u' P) → runs (m ≫= k) u P.
Proof. intros (a & u' & E & b & u'' & E' & HP). exists b, u''. split; [|done]. unfold mbind, M_bind. by rewrite E. Qed.
Lemma runs_mono {A} (m : M upload A) u (P Q : A → upload → Prop) : runs m u P → (∀ a u', P a u' → Q a u') → runs m u Q.
Proof. intros (a & u' & E & HP) H. exists a, u'. split; [done|by apply H]. Qed.
Lemma runs_ret {A} (m : M upload A) u a u' (P : A → upload → Prop) : m u = (Ret a, u') → P a u' → runs m u P.
Proof. intros E H. by exists a, u'. Qed.

(** The reports and what else an upload that ends changes. *)
Definition after (l : list user_call) (aborted processed : bool) (active : Z) (c : core) : core :=
  {| c_reported := c_reported c ++ l; c_aborted := aborted || c_aborted c; c_processed := processed || c_processed c;
     c_active := c_active c + active; c_global := c_global c |}.

Lemma after_after l l' a a' p p' n n' c : after l' a' p' n' (after l a p n c) = after (l ++ l') (a' || a) (p' || p) (n + n') c.
Proof. unfold after. cbn. f_equal; [by rewrite app_assoc|by rewrite orb_assoc|by rewrite orb_assoc|lia]. Qed.
Lemma after_none c : after [] false false 0 c = c.
Proof. destruct c. unfold after. cbn. by rewrite app_nil_r, Z.add_0_r. Qed.

(** An outcome, then the completion with the same status; either may have no function. *)
Definition one_report (l : list user_call) : bool :=
  match l with
  | [] | [Success _] | [Error _ _] | [Complete _] => true
  | [Success _; Complete (Some st)] => String.eqb st "success"
  | [Error st _; Complete (Some st')] => String.eqb st st'
  | _ => false
  end.

Ltac quietly_by t := repeat first
  [ by t | by apply quiet_nop | by apply quiet_emit | by apply quiet_modify
  | apply quiet_put; rewrite !not_elem_of_cons; split_and!; (done || apply not_elem_of_nil)
  | apply quiet_then; [|intros ?] | apply quiet_catch; [|intros ?] | apply quiet_finally | progress case_match ].

Section facts.
Context (ajaxSettings : value) (now : string) (target_frame : option (option string)) (opera : bool) (html_name : string → string).
Context (parseXML : string → res (option xml_doc)) (call : string → value) (user : user_call → M upload value).
Context (method : option string) (f : form).

(** The functions of the page return, and do not touch the upload. *)
Context (Huser : ∀ c u, ∃ v, user c u = (Ret v, u)).

Lemma quiet_user c : as_report (Called c) = None → quiet (call_user user c).
Proof.
  intros Hc. unfold call_user. apply quiet_then; [by apply quiet_emit|]. intros _. apply quiet_nop. intros u.
  by destruct (Huser c u) as [v ->].
Qed.

Lemma quiet_option k c : as_report (Called c) = None → quiet (call_option user k c).
Proof.
  intros Hc. unfold call_option. apply quiet_then; [by apply quiet_nop|]. intros g.
  destruct (truthy g); [|by apply quiet_nop]. destruct (isFunction g); [by apply quiet_user|by apply quiet_nop].
Qed.

Lemma quiet_trigger name : quiet (trigger name).
Proof. unfold trigger. apply quiet_then; [by apply quiet_nop|]. intros []; [by apply quiet_emit|by apply quiet_nop]. Qed.

Ltac quietly := quietly_by ltac:(first [apply quiet_user | apply quiet_option | apply quiet_trigger]).

Lemma quiet_httpData type : quiet (httpData user type).
Proof. unfold httpData. quietly. Qed.

Lemma quiet_unwrap d scr : quiet (unwrap_text d scr).
Proof. unfold unwrap_text. quietly. Qed.

Lemma quiet_read_response d isXml : quiet (read_response parseXML user d isXml).
Proof.
  unfold read_response. quietly_by ltac:(first [apply quiet_httpData | apply quiet_unwrap]).
Qed.

Lemma quiet_attempt doc : quiet (attempt opera parseXML user doc).
Proof. unfold attempt, read_document. quietly_by ltac:(apply quiet_read_response). Qed.

Lemma quiet_doSubmit : quiet (doSubmit html_name call method).
Proof. unfold doSubmit, set_form_attrs, submit_form. quietly. Qed.

(** The effects of code on the core, when it returns. *)
Definition yields {A} (m : M upload A) (u : upload) (l : list user_call) (aborted processed : bool) (active : Z) : Prop :=
  runs m u (λ _ u', core_of u' = after l aborted processed active (core_of u) ∧ callbacks_ok (u_s u')).

Lemma yields_bind {A B} (m : M upload A) (k : A → M upload B) u l a p n l' a' p' n' :
  yields m u l a p n → (∀ v u', callbacks_ok (u_s u') → c_global (core_of u') = c_global (core_of u) → yields (k v) u' l' a' p' n') →
  yields (m ≫= k) u (l ++ l') (a' || a) (p' || p) (n + n').
Proof.
  intros Hm Hk. apply runs_bind. eapply runs_mono; [exact Hm|]. intros v u' [H1 H2]. cbn beta.
  eapply runs_mono; [apply Hk; [done|by rewrite H1]|]. intros v' u'' [H3 H4]. cbn beta. rewrite H3, H1, after_after. done.
Qed.

Lemma yields_quiet {A} (m : M upload A) u : callbacks_ok (u_s u) → quiet m → (∃ a u', m u = (Ret a, u')) → yields m u [] false false 0.
Proof. intros Hu Hm (a & u' & E). exists a, u'. split; [done|]. rewrite after_none. specialize (Hm u Hu). by rewrite E in Hm. Qed.

Lemma yields_trigger name u : callbacks_ok (u_s u) → yields (trigger name) u [] false false 0.
Proof.
  intros Hu. apply yields_quiet; [done|apply quiet_trigger|]. unfold trigger, gets. unfold mbind, M_bind. destruct (u_g u); by eexists _, _.
Qed.

Lemma yields_report k c u : callbacks_ok (u_s u) → k ∈ ["success"; "error"; "complete"] → as_report (Called c) = Some c →
  ∃ l, yields (call_option user k c) u l false false 0 ∧ (l = [] ∨ l = [c]).
Proof.
  intros Hu Hk Hc. destruct Hu as [Hf Hps]. rewrite Forall_forall in Hf. destruct (Hf k Hk) as (v & Hv & Hfun).
  unfold yields, call_option, opt. destruct (truthy v) eqn:Ht.
  - exists [c]. split; [|by right]. apply runs_bind. eapply runs_ret; [by rewrite Hv|]. rewrite Ht, Hfun by done.
    unfold call_user. apply runs_bind. eapply runs_ret; [done|]. destruct (Huser c (with_log (Called c) u)) as [w Hw].
    eapply runs_ret; [exact Hw|]. split; [|split; [by rewrite Forall_forall|done]]. unfold core_of, reported, after. cbn.
    rewrite omap_app, Z.add_0_r. by destruct c.
  - exists []. split; [|by left]. apply runs_bind. eapply runs_ret; [by rewrite Hv|]. rewrite Ht. eapply runs_ret; [done|].
    rewrite after_none. split; [done|]. split; [by rewrite Forall_forall|done].
Qed.

(** The page has aborted, or the frame has timed out or cannot be read. *)
Lemma yields_abort status u : callbacks_ok (u_s u) → ∃ l, yields (abort user status) u l true false 0 ∧ one_report l = true.
Proof.
  intros Hu. unfold abort. set (e := match status with VStr "timeout" => _ | _ => _ end).
  pose (u1 := with_xhr (x_abort (EText e)) (with_log (ULog ("aborting upload... " +:+ e)) u)).
  assert (core_of u1 = after [] true false 0 (core_of u)) as H1.
  { unfold core_of, after, reported. cbn. by rewrite omap_app, app_nil_r, Z.add_0_r, app_nil_r. }
  assert (∃ src, get (u_s u) "iframeSrc" = Ret src) as [src Hsrc] by (destruct Hu as [_ [ps ->]]; by eexists).
  pose (u2 := with_log (FrameSrc src) u1).
  assert (core_of u2 = core_of u1) as H2 by (unfold core_of, reported; cbn; by rewrite !omap_app, !app_nil_r).
  assert (callbacks_ok (u_s u2)) as Hu2 by done.
  destruct (yields_report "error" (Error e (EValue status)) u2 Hu2) as (l3 & (? & u3 & E3 & H3 & Hu3) & Hl3); [by apply (bool_decide_unpack _)|done|].
  destruct (yields_trigger "ajaxError" u3 Hu3) as (? & u4 & E4 & H4 & Hu4).
  destruct (yields_report "complete" (Complete (Some e)) u4 Hu4) as (l5 & (? & u5 & E5 & H5 & Hu5) & Hl5); [by apply (bool_decide_unpack _)|done|].
  exists (l3 ++ l5). split.
  - exists tt, u5. split; [|split; [|done]].
    + change (u_s u) with (u_s u1) in Hsrc. unfold emit, modify, opt. unfold mbind, M_bind. fold u1. rewrite Hsrc. fold u2.
      by rewrite E3, E4, E5.
    + rewrite H5, H4, H3, H2, H1, !after_after. done.
  - destruct Hl3 as [-> | ->], Hl5 as [-> | ->]; cbn; try done. apply String.eqb_refl.
Qed.

Lemma yields_outcome status msg u : callbacks_ok (u_s u) →
  ∃ l, yields (report_outcome user status msg) u l false false 0 ∧
    (l = [] ∨ (∃ d, l = [Success d] ∧ status = Some "success") ∨ ∃ st m, l = [Error st m] ∧ status = Some st).
Proof.
  intros Hu. destruct status as [st|]; cbn [report_outcome].
  2: { exists []. split; [|by left]. apply yields_quiet; [done|by apply quiet_nop|by eexists _, _]. }
  destruct (String.eqb_spec st "success") as [->|Hne].
  - destruct (yields_report "success" (Success (u_data u)) u Hu) as (l & Hl & Hll); [by apply (bool_decide_unpack _)|done|].
    exists l. split.
    + apply runs_bind. eapply runs_ret; [done|]. rewrite <-(app_nil_r l). eapply (yields_bind _ _ _ l false false 0 [] false false 0); [done|].
      intros v u' Hu' _. by apply yields_trigger.
    + destruct Hll as [-> | ->]; [by left|right; left]. by eexists.
  - set (msg' := match msg with EUndef => EText (x_statusText (u_xhr u)) | _ => msg end).
    destruct (yields_report "error" (Error st msg') u Hu) as (l & Hl & Hll); [by apply (bool_decide_unpack _)|done|].
    exists l. split.
    + apply runs_bind. eapply runs_ret; [done|]. rewrite <-(app_nil_r l). eapply (yields_bind _ _ _ l false false 0 [] false false 0); [done|].
      intros v u' Hu' _. by apply yields_trigger.
    + destruct Hll as [-> | ->]; [by left|right; right]. by eexists _, _.
Qed.

Lemma yields_one_less u : callbacks_ok (u_s u) → yields one_less u [] false false (- Z.b2z (u_g u)).
Proof.
  intros Hu. unfold yields, one_less. apply runs_bind. eapply runs_ret; [done|]. destruct (u_g u) eqn:Hg.
  - apply runs_bind. eapply runs_ret; [done|]. apply runs_bind. eapply runs_ret; [done|]. destruct (_ =? 0).
    all: eapply runs_ret; [done|]; split; [|done]; unfold core_of, after, reported; cbn; rewrite ?omap_app, ?app_nil_r; done.
  - eapply runs_ret; [done|]. by rewrite after_none.
Qed.

(** A response is reported. *)
Lemma yields_response status msg u : callbacks_ok (u_s u) →
  ∃ l, yields (report user status msg) u l false true (- Z.b2z (u_g u)) ∧ one_report l = true.
Proof.
  intros Hu. destruct (yields_outcome status msg u Hu) as (l1 & (? & u1 & E1 & H1 & Hu1) & Hl1).
  destruct (yields_trigger "ajaxComplete" u1 Hu1) as (? & u2 & E2 & H2 & Hu2).
  destruct (yields_one_less u2 Hu2) as (? & u3 & E3 & H3 & Hu3).
  destruct (yields_report "complete" (Complete status) u3 Hu3) as (l4 & (? & u4 & E4 & H4 & Hu4) & Hl4); [by apply (bool_decide_unpack _)|done|].
  pose (u5 := with_processed u4).
  assert (yields (timeout ← opt "timeout"; (if truthy timeout then drop_timer TTimeout else mret tt);; add_timer TClean) u5 [] false false 0)
    as (? & u6 & E6 & H6 & Hu6).
  { apply yields_quiet; [done|by quietly|]. destruct Hu4 as [_ [ps Hps]]. unfold opt. unfold mbind, M_bind. cbn [u5 with_processed u_s].
    rewrite Hps. cbn [get]. destruct (truthy _); by eexists _, _. }
  exists (l1 ++ l4). split.
  - exists tt, u6. split; [|split; [|done]].
    + unfold report. unfold mbind, M_bind in E6 |- *. rewrite E1, E2, E3, E4. cbn [modify]. fold u5. destruct x3. exact E6.
    + assert (core_of u5 = after [] false true 0 (core_of u4)) as H5 by (unfold core_of, after, reported; cbn; by rewrite app_nil_r, Z.add_0_r).
      assert (u_g u2 = u_g u) as Hg by (change (c_global (core_of u2) = u_g u); by rewrite H2, H1).
      rewrite H6, H5, H4, H3, H2, H1, Hg, !after_after, !app_nil_r. cbn. f_equal; lia.
  - destruct Hl1 as [-> | [(d & -> & ->) | (st & m & -> & ->)]], Hl4 as [-> | ->]; cbn; try done. apply String.eqb_refl.
Qed.

Lemma quiet_add_clicked : quiet (add_clicked f).
Proof. unfold add_clicked. quietly. Qed.
(** ** The phases of an upload: open, aborted, or processed *)

Definition open_core (n : Z) (g : bool) : core :=
  {| c_reported := []; c_aborted := false; c_processed := false; c_active := n; c_global := g |}.

Inductive phase (n : Z) (g : bool) : core → Prop :=
| phase_open : phase n g (open_core n g)
| phase_aborted l : one_report l = true → phase n g (after l true false 0 (open_core n g))
| phase_processed l : one_report l = true → phase n g (after l false true (- Z.b2z g) (open_core n g)).

Definition is_open (n : Z) (g : bool) (u : upload) : Prop := callbacks_ok (u_s u) ∧ core_of u = open_core n g.
Definition inv (n : Z) (g : bool) (u : upload) : Prop := callbacks_ok (u_s u) ∧ phase n g (core_of u).

Lemma inv_quiet {A} (m : M upload A) n g u : quiet m → inv n g u → inv n g (m u).2.
Proof. intros Hm [H1 H2]. destruct (Hm u H1) as [E ?]. split; [done|by rewrite E]. Qed.

Lemma open_then {A B} (m : M upload A) (k : A → M upload B) n g u :
  quiet m → (∀ a u', is_open n g u' → inv n g (k a u').2) → is_open n g u → inv n g ((m ≫= k) u).2.
Proof.
  intros Hm Hk [H1 H2]. destruct (Hm u H1) as [E1 E2]. unfold mbind, M_bind. destruct (m u) as [[a|e] u']; cbn [snd] in *.
  - apply Hk. split; [done|by rewrite E1].
  - split; [done|]. rewrite E1, H2. apply phase_open.
Qed.

Lemma open_inv n g u : is_open n g u → inv n g u.
Proof. intros [H1 H2]. split; [done|]. rewrite H2. apply phase_open. Qed.

Lemma open_abort n g u status : is_open n g u → inv n g (abort user status u).2.
Proof.
  intros [H1 H2]. destruct (yields_abort status u H1) as (l & (v & u' & -> & Hc & Hu) & Hl). split; [done|]. cbn [snd].
  rewrite Hc, H2. by apply phase_aborted.
Qed.

Lemma open_report n g u status msg : is_open n g u → inv n g (report user status msg u).2.
Proof.
  intros [H1 H2]. destruct (yields_response status msg u H1) as (l & (v & u' & -> & Hc & Hu) & Hl). split; [done|]. cbn [snd].
  assert (u_g u = g) as Hg by (change (c_global (core_of u) = g); by rewrite H2). rewrite Hc, H2, Hg. by apply phase_processed.
Qed.

Lemma bind_gets {A B} (h : upload → A) (k : A → M upload B) u : (gets h ≫= k) u = k (h u) u.
Proof. done. Qed.

Lemma inv_cb n g frame e u : inv n g u → inv n g (cb opera parseXML user frame e u).2.
Proof.
  intros [H1 H2]. unfold cb. rewrite (bind_gets u_xhr), (bind_gets u_processed).
  destruct (x_aborted (u_xhr u) || u_processed u) eqn:Hd; [by split|].
  assert (is_open n g u) as Ho.
  { split; [done|]. revert Hd. change (c_aborted (core_of u) || c_processed (core_of u) = false → core_of u = open_core n g). by destruct H2. }
  clear Hd H1 H2. revert Ho. apply open_then; [quietly|]. intros [doc e'] u1 Ho. cbn [fst snd].
  destruct e'; [|by apply open_abort|by apply open_abort]. revert Ho. apply open_then; [quietly|]. intros src u2.
  apply open_then; [quietly|]. intros pending u3. apply open_then; [quietly|]. intros timedOut u4 Ho.
  destruct (pending && negb timedOut); [by apply open_inv|]. revert Ho. apply open_then; [quietly|]. intros _ u5.
  apply open_then; [apply quiet_attempt|]. intros [|st msg] u6 Ho; [by apply open_inv|]. revert Ho.
  apply open_then; [quietly|]. intros x u7. apply open_then; [quietly|]. intros _ u8. apply open_report.
Qed.

Lemma inv_then {A B} (m : M upload A) (k : A → M upload B) n g u :
  (inv n g u → inv n g (m u).2) → (∀ a u', inv n g u' → inv n g (k a u').2) → inv n g u → inv n g ((m ≫= k) u).2.
Proof.
  intros Hm Hk Hu. specialize (Hm Hu). unfold mbind, M_bind. destruct (m u) as [[a|e] u']; cbn [snd] in *; [by apply Hk|done].
Qed.

Lemma inv_checkState n g frame u : inv n g u → inv n g (checkState opera parseXML user frame u).2.
Proof.
  unfold checkState. destruct (getDoc frame) as [[d|]|e]; [apply inv_quiet; quietly| |].
  all: apply inv_then; [by apply inv_quiet, quiet_emit|]; intros _ u1; apply inv_then; [apply inv_cb|]; intros _ u2; apply inv_quiet; quietly.
Qed.

Definition not_abort (ev : upload_event) : bool := match ev with EvAbort _ => false | _ => true end.

Lemma inv_step n g ev u : not_abort ev = true → inv n g u →
  inv n g (upload_step opera html_name parseXML call user method ev u).2.
Proof.
  intros Hev. unfold upload_step. apply inv_then; [by apply inv_quiet, quiet_nop|]. intros io u1.
  destruct ev as [t v|v|status]; [| |done]; (apply inv_then; [by apply inv_quiet, quiet_nop|]); intros x u2.
  - destruct (bool_decide _); [|done]. apply inv_then; [by apply inv_quiet, quiet_modify|]. intros _ u3. destruct t; cbn [run_timer].
    + apply inv_quiet, quiet_doSubmit.
    + apply inv_then; [by apply inv_quiet, quiet_modify|]. intros _ u4. apply inv_cb.
    + apply inv_checkState.
    + apply inv_cb.
    + apply inv_quiet. quietly.
  - destruct x; [apply inv_cb|done].
Qed.

Lemma inv_run n g evs u : forallb not_abort evs = true → inv n g u →
  inv n g (run_upload opera html_name parseXML call user method evs u).
Proof.
  revert u. unfold run_upload. induction evs as [|ev evs IH]; intros u Hevs Hu; [done|]. cbn in *. bool_prop. apply IH; [done|]. by apply inv_step.
Qed.
(** ** The start *)

Record started (options : value) (a : fields) (u : upload) (s : value) (g : bool) : Prop := {
  st_settings : jq_extend VUndef [VBool true; empty_object; ajaxSettings; options] = Ret s;
  st_callbacks : callbacks_ok s;
  st_global : ∃ gv, get s "global" = Ret gv ∧ truthy gv = g;
  st_names : submit_named (enable_fields f a (u_doc u)) f = false;
  st_fresh : reported u = []
}.

Definition vetoes : Prop := ∃ u, (user BeforeSend u).1 = Ret (VBool false).

Lemma announce_open n g u : is_open n g u → ∃ u', announce u = (Ret tt, u') ∧ is_open (n + Z.b2z g) g u'.
Proof.
  intros [H1 H2]. assert (u_g u = g) as Hg by (change (c_global (core_of u) = g); by rewrite H2).
  assert (u_active u = n) as Hn by (change (c_active (core_of u) = n); by rewrite H2).
  assert (reported u = [] ∧ x_aborted (u_xhr u) = false ∧ u_processed u = false) as (Hr & Hx & Hp).
  { split_and!; [change (c_reported (core_of u) = [])|change (c_aborted (core_of u) = false)|change (c_processed (core_of u) = false)]; by rewrite H2. }
  unfold announce, gets, modify, emit. unfold mbind, M_bind. rewrite Hg. destruct g; [|exists u; split; [done|]; split; [done|]; by rewrite H2, Z.add_0_r].
  destruct (u_active u =? 0); eexists; (split; [done|]); (split; [done|]); unfold core_of, open_core, reported in *; cbn;
    rewrite ?omap_app, Hr, Hx, Hp, Hn, Hg; done.
Qed.

Abbreviation fileUpload := (fileUpload ajaxSettings now target_frame html_name call user method f).

(** A truthy option that answers [false] vetoes. *)
Lemma answer_vetoes before u u' : get (u_s u) "beforeSend" = Ret before → truthy before = true →
  call_option user "beforeSend" BeforeSend u = (Ret (VBool false), u') → vetoes.
Proof.
  intros Hb Ht. unfold call_option, opt. unfold mbind, M_bind. rewrite Hb, Ht. destruct (isFunction before); [|done].
  unfold call_user, emit, modify. unfold mbind, M_bind. intros E. eexists. by rewrite E.
Qed.

Lemma launch_inv n g u : is_open n g u →
  ∃ n', inv n' g (launch html_name call user method f u).2 ∧ (¬ vetoes → n' = n).
Proof.
  intros Ho. pose proof (proj1 Ho) as [_ [ps Hps]]. unfold launch.
  assert (∃ v, get (u_s u) "beforeSend" = Ret v) as [before Hb] by (rewrite Hps; by eexists).
  unfold mbind at 1, M_bind at 1, opt at 1. rewrite Hb. unfold mbind at 1, M_bind at 1.
  destruct (quiet_option "beforeSend" BeforeSend eq_refl u (proj1 Ho)) as [E2 Hu2].
  destruct (call_option user "beforeSend" BeforeSend u) as [[r|e] u2] eqn:Ec; cbn [snd] in E2, Hu2.
  2: { exists n. split; [|done]. split; [done|]. cbn [snd]. rewrite E2, (proj2 Ho). apply phase_open. }
  assert (is_open n g u2) as Ho2 by (split; [done|]; rewrite E2; by apply Ho). pose proof Hu2 as [_ [ps2 Hps2]].
  assert (∃ v, get (u_s u2) "global" = Ret v) as [gv Hgv] by (rewrite Hps2; by eexists).
  unfold mbind at 1, M_bind at 1, opt at 1. rewrite Hgv.
  set (rest := x ← gets u_xhr; _).
  assert (inv n g (rest u2).2) as Hrest.
  { apply inv_quiet; [|by apply open_inv]. unfold rest. quietly_by ltac:(first [apply quiet_add_clicked | apply quiet_doSubmit]). }
  destruct (truthy before) eqn:Ht; [|by exists n]. destruct r as [| |[]| | | |]; try (by exists n).
  destruct (truthy gv); [|exists n; split; [by apply open_inv|done]].
  exists (n - 1). split; [|intros Hv; destruct Hv; by eapply answer_vetoes].
  apply open_inv. destruct Ho2 as [? Ho2]. split; [done|]. unfold core_of, open_core, reported in Ho2 |- *. cbn. by injection Ho2 as -> -> -> -> ->.
Qed.

Lemma start_inv options a u s g : started options a u s g →
  ∃ n, inv n g (fileUpload options a u).2 ∧ (¬ vetoes → n = u_active u + Z.b2z g).
Proof.
  intros [Hs Hcb (gv & Hgv & Hg) Hn Hr]. unfold Upload.fileUpload.
  destruct Hcb as [Hcb [ps ->]]. assert (∃ tv, get (VObj false ps) "iframeTarget" = Ret tv) as [tv Htv] by by eexists.
  set (u0 := new_upload (VObj false ps) (frame_id now target_frame tv).1 (frame_id now target_frame tv).2 g (with_fields (enable_fields f a (u_doc u)) u)).
  assert (is_open (u_active u) g u0) as Ho by (split; [by split; [|eexists]|]; unfold core_of, reported in *; cbn; by rewrite Hr).
  destruct (announce_open _ _ _ Ho) as (u1 & E1 & Ho1). destruct (launch_inv _ _ _ Ho1) as (n & Hn1 & Hn2). exists n. split; [|done].
  unfold modify, gets, lift. unfold mbind, M_bind. cbn [with_fields u_doc]. rewrite Hn, Hs, Htv, Hgv, Hg.
  fold u0. by rewrite E1.
Qed.
Abbreviation run_upload := (run_upload opera html_name parseXML call user method).


(** The counter of active requests: an upload that was not vetoed is counted
    until its response is processed, and one that ends by a timeout or by a frame that
    cannot be read is counted for ever, so that [ajaxStop] is not triggered any more. *)
Theorem upload_active options a u s evs :
  started options a u s true → ¬ vetoes → forallb not_abort evs = true →
  let u' := run_upload evs (fileUpload options a u).2 in
  u_active u' = u_active u + (if u_processed u' then 0 else 1) ∧
  (x_aborted (u_xhr u') = true → u_processed u' = false).
Proof.
  intros Hst Hv Hevs u'. destruct (start_inv _ _ _ _ _ Hst) as (n & Hn & Hn'). rewrite Hn' in Hn by done.
  destruct (inv_run _ _ _ _ Hevs Hn) as [_ Hp]. fold u' in Hp.
  change (c_active (core_of u') = u_active u + (if c_processed (core_of u') then 0 else 1) ∧ (c_aborted (core_of u') = true → c_processed (core_of u') = false)).
  destruct Hp; cbn; split; (done || lia).
Qed.
(** ** The submission of the form *)

Lemma set_form_attrs_runs u ps w : u_s u = VObj false ps → get (VObj false ps) "url" = Ret (VStr w) →
  runs (set_form_attrs method) u (λ _ u', ∃ attrs, u' = with_attrs (λ _, attrs) u ∧ a_target attrs = Some (u_id u) ∧ a_action attrs = Some w).
Proof.
  intros Hs Hurl. unfold set_form_attrs. do 2 (apply runs_bind; eapply runs_ret; [done|]).
  apply runs_bind. eapply runs_ret; [unfold opt; by rewrite Hs, Hurl|]. apply runs_bind. eapply runs_ret; [unfold opt; rewrite Hs; done|].
  apply runs_bind. eapply runs_ret; [done|]. apply runs_bind.
  apply runs_ret with tt (with_attrs (λ a, if no_method method then set_method (Some "POST"%string) (set_target (Some (u_id u)) a) else set_target (Some (u_id u)) a) u);
    [by destruct (no_method method)|].
  set (u1 := with_attrs _ u). apply runs_bind.
  apply runs_ret with (bool_decide (a_action (u_attrs u) = Some w)) u1.
  { destruct (a_action (u_attrs u)) as [t|]; [|by rewrite bool_decide_eq_false_2]. unfold lift. cbn. f_equal. f_equal.
    destruct (String.eqb_spec t w) as [->|Hne]; [by rewrite bool_decide_eq_true_2|by rewrite bool_decide_eq_false_2 by congruence]. }
  apply runs_bind. apply runs_ret with tt (with_attrs (set_action (Some w)) u1).
  { case_bool_decide as Hact; [|done]. unfold mret, M_ret. f_equal. unfold u1, with_attrs, set_action. cbn. f_equal.
    destruct (u_attrs u), (no_method method); cbn in *; by subst. }
  destruct (negb _ && _); (eapply runs_ret; [done|]); (eexists; split; [reflexivity|]); unfold u1; cbn; by destruct (no_method method).
Qed.

Lemma submit_form_runs u ps data extra : u_s u = VObj false ps → get (VObj false ps) "extraData" = Ret data →
  (if truthy data then extra_inputs html_name call (own_props data) else Ret []) = Ret extra →
  runs (submit_form html_name call) u (λ _ u', u_log u' = u_log u ++ [FormSubmitted (u_attrs u) extra] ∧ u_attrs u' = u_attrs u).
Proof.
  intros Hs Hdata Hextra. unfold submit_form. apply runs_bind. eapply runs_ret; [unfold opt; by rewrite Hs, Hdata|].
  assert (∃ tv, get (u_s u) "iframeTarget" = Ret tv) as [tv Htv] by (rewrite Hs; by eexists).
  apply runs_bind. eapply runs_ret; [unfold lift; by rewrite Hextra|]. apply runs_bind. eapply runs_ret; [unfold opt; by rewrite Htv|].
  apply runs_bind. destruct (truthy tv); (eapply runs_ret; [reflexivity|]); (apply runs_bind; eapply runs_ret; [done|]); (apply runs_bind; eapply runs_ret; [done|]);
    (eapply runs_ret; [reflexivity|split; reflexivity]).
Qed.

(** The form is submitted once, to the frame and to the address of the
    settings, with the extra fields; afterwards its target is what it was, and its
    address too, except that a form without one is left with the address "undefined". *)
Theorem doSubmit_submits u ps w data extra :
  u_s u = VObj false ps → get (VObj false ps) "url" = Ret (VStr w) → get (VObj false ps) "extraData" = Ret data →
  (if truthy data then extra_inputs html_name call (own_props data) else Ret []) = Ret extra →
  a_target (u_attrs u) ≠ Some ""%string →
  ∃ attrs u', doSubmit html_name call method u = (Ret tt, u') ∧
    u_log u' = u_log u ++ [FormSubmitted attrs extra] ∧
    a_target attrs = Some (u_id u) ∧ a_action attrs = Some w ∧
    a_target (u_attrs u') = a_target (u_attrs u) ∧
    a_action (u_attrs u') = Some (default "undefined"%string (a_action (u_attrs u))).
Proof.
  intros Hs Hurl Hdata Hextra Ht. destruct (set_form_attrs_runs u ps w Hs Hurl) as ([] & u1 & E1 & attrs & Hu1 & Hat & Hac).
  assert (∃ v, get (u_s u1) "timeout" = Ret v) as [tv Htv] by (subst u1; cbn; rewrite Hs; by eexists).
  pose (u2 := if truthy tv then with_handle true (with_timers (λ l, l ++ [TTimeout]) u1) else u1).
  assert ((if truthy tv then add_timer TTimeout;; modify (with_handle true) else mret tt) u1 = (Ret tt, u2)) as E2 by (unfold u2; by destruct (truthy tv)).
  assert (u_s u2 = VObj false ps ∧ u_attrs u2 = attrs ∧ u_log u2 = u_log u) as (Hs2 & Ha2 & Hl2).
  { unfold u2. subst u1. by destruct (truthy tv). }
  destruct (submit_form_runs u2 ps data extra Hs2 Hdata Hextra) as ([] & u3 & E3 & Hl3 & Ha3).
  eexists attrs, _. split.
  { unfold doSubmit. rewrite bind_gets. unfold mbind at 1, M_bind at 1. rewrite E1. unfold mbind at 1, M_bind at 1, opt at 1. rewrite Htv.
    unfold mbind at 1, M_bind at 1. rewrite E2. unfold finally. rewrite E3. cbn [snd fst]. unfold modify. unfold mbind, M_bind. reflexivity. }
  cbn. rewrite Hl3, Ha2, Hl2. split_and!; [done|done|done| |by destruct (a_action (u_attrs u))].
  destruct (a_target (u_attrs u)) as [t|]; [|done]. cbn. destruct (String.eqb_spec t ""); [congruence|done].
Qed.
(** ** Giving up on an empty document *)

Definition never_requeued (m : M upload outcome) : Prop := ∀ u, (m u).1 ≠ Ret Requeued.

Lemma never_bind {A} (m : M upload A) k : (∀ a, never_requeued (k a)) → never_requeued (m ≫= k).
Proof. intros Hk u. unfold mbind, M_bind. destruct (m u) as [[a|e] u']; [apply Hk|done]. Qed.
Lemma never_status st msg : never_requeued (mret (Status st msg)).
Proof. by intros u. Qed.
Lemma never_try m h : never_requeued m → (∀ e, never_requeued (h e)) → never_requeued (try_catch m h).
Proof. intros Hm Hh u. unfold try_catch. specialize (Hm u). destruct (m u) as [[a|e] u']; [done|apply Hh]. Qed.

Lemma never_read_response d isXml : never_requeued (read_response parseXML user d isXml).
Proof.
  unfold read_response. cbv zeta. do 6 (apply never_bind; intros ?). apply never_bind; intros ?. apply never_try; [|intros e].
  - do 2 (apply never_bind; intros ?). apply never_status.
  - apply never_bind; intros ?. apply never_status.
Qed.

(** In Opera, an upload whose document [d] is there but still empty, and which
    tries again after a while. *)
Record waiting (v : frame_view) (d : frame_document) (u : upload) : Prop := {
  w_callbacks : callbacks_ok (u_s u);
  w_view : getDoc (Some v) = Ret (Some d);
  w_src : ∃ src, get (u_s u) "iframeSrc" = Ret src ∧ loose_eq (VStr (fd_href d)) src = Ret false;
  w_type : ∃ dt, get (u_s u) "dataType" = Ret dt ∧ loose_eq dt (VStr "xml") = Ret false;
  w_html : fd_XMLDocument d = None ∧ isXMLDoc d = false;
  w_empty : match fd_body d with Some r => String.eqb (r_html r) "" | None => true end = true;
  w_open : x_aborted (u_xhr u) = false ∧ u_processed u = false ∧ u_timedOut u = false;
  w_frame : u_io u = true;
  w_timer : TLoad ∈ u_timers u
}.

Definition try_again : M upload outcome :=
  emit (ULog "requeing onLoad callback, DOM not available");; add_timer TLoad;; mret Requeued.

Lemma read_document_empty d u dt : opera = true → get (u_s u) "dataType" = Ret dt → loose_eq dt (VStr "xml") = Ret false →
  fd_XMLDocument d = None → isXMLDoc d = false → match fd_body d with Some r => String.eqb (r_html r) "" | None => true end = true →
  read_document opera parseXML user d u =
  (if negb (u_domCheckCount u - 1 =? 0) then try_again else read_response parseXML user d false)
    (with_checks (u_domCheckCount u - 1) (with_log (ULog "isXml") u)).
Proof.
  intros Hop Hdt Hxml Hh1 Hh2 He. unfold read_document, opt. unfold mbind at 1, M_bind at 1. rewrite Hdt. unfold lift. unfold mbind at 1, M_bind at 1.
  rewrite Hxml, Hh1, Hh2, He, Hop. cbn [orb andb negb]. rewrite bool_decide_eq_false_2 by (by intros []). done.
Qed.

Lemma waiting_step v d u : opera = true → waiting v d u →
  let u1 := with_frame (u_in_page u) false (with_timers (remove_timer TLoad) u) in
  upload_step opera html_name parseXML call user method (EvTimer TLoad v) u =
  (o ← attempt opera parseXML user (Some d);
   match o with
   | Requeued => mret tt
   | Status st msg =>
       x ← gets u_xhr;
       (if x_aborted x then emit (ULog "upload aborted") else mret tt);;
       report user (final_status x st) msg
   end) u1.
Proof.
  intros Hop [Hcb Hv (src & Hsrc & Hne) (dt & Hdt & Hxml) [Hh1 Hh2] He (Hx & Hp & Ht) Hio Htm] u1.
  unfold upload_step. rewrite (bind_gets u_io), Hio. cbv zeta. rewrite (bind_gets u_timers), bool_decide_eq_true_2 by done.
  unfold mbind at 1, M_bind at 1, modify at 1. cbn [run_timer]. unfold cb. rewrite (bind_gets u_xhr), (bind_gets u_processed). cbn [with_timers u_xhr u_processed].
  rewrite Hx, Hp, Hv. cbn [orb]. unfold mbind at 1, M_bind at 1, mret at 1, M_ret at 1. cbn [snd fst].
  unfold mbind at 1, M_bind at 1, opt at 1. cbn [with_timers u_s]. rewrite Hsrc. unfold mbind at 1, M_bind at 1, lift at 1. rewrite Hne.
  rewrite (bind_gets u_timedOut). cbn [with_timers u_timedOut andb]. unfold mbind at 1, M_bind at 1, modify at 1. cbn [with_timers u_in_page].
  done.
Qed.

Lemma attempt_requeues v d u1 : opera = true → waiting v d u1 → ∀ u, u_s u = u_s u1 → u_timedOut u = false → u_domCheckCount u ≠ 1 →
  attempt opera parseXML user (Some d) u =
  (Ret Requeued, with_timers (λ l, l ++ [TLoad]) (with_log (ULog "requeing onLoad callback, DOM not available")
    (with_checks (u_domCheckCount u - 1) (with_log (ULog "isXml") u)))).
Proof.
  intros Hop [Hcb Hv (src & Hsrc & Hne) (dt & Hdt & Hxml) [Hh1 Hh2] He _ _ _] u Hs Ht Hn. unfold attempt. rewrite (bind_gets u_timedOut), Ht.
  unfold try_catch. rewrite <-Hs in Hdt. rewrite (read_document_empty d u dt) by done. by rewrite (proj2 (Z.eqb_neq _ _)) by lia.
Qed.

Lemma attempt_settles v d u1 : opera = true → waiting v d u1 → ∀ u, u_s u = u_s u1 → u_timedOut u = false → u_domCheckCount u = 1 →
  ∃ st msg u', attempt opera parseXML user (Some d) u = (Ret (Status st msg), u').
Proof.
  intros Hop [Hcb Hv (src & Hsrc & Hne) (dt & Hdt & Hxml) [Hh1 Hh2] He _ _ _] u Hs Ht Hn. unfold attempt. rewrite (bind_gets u_timedOut), Ht.
  unfold try_catch. rewrite <-Hs in Hdt. rewrite (read_document_empty d u dt), Hn by done. cbn [negb Z.sub Z.eqb].
  pose proof (never_read_response d false (with_checks (1 - 1) (with_log (ULog "isXml") u))) as Hnr. change (1 - 1 =? 0) with true. cbn [negb].
  destruct (read_response parseXML user d false _) as [[[|st msg]|e] u']; [done|by eexists _, _, _|by eexists _, _, _].
Qed.

(** In Opera the upload waits for a document that is empty when the frame
    has loaded, but not for ever: when its counter is at [n + 1], it has
    processed the response, whatever it is, after [n + 1] more tries. *)
Theorem opera_gives_up v d n u :
  opera = true → waiting v d u → u_domCheckCount u = Z.of_nat (S n) →
  u_processed (run_upload (replicate (S n) (EvTimer TLoad v)) u) = true.
Proof.
  intros Hop. revert u. induction n as [|n IH]; intros u Hw Hn; cbn [replicate]; unfold Upload.run_upload; cbn [foldl];
    rewrite (waiting_step v d u Hop Hw); set (u1 := with_frame _ _ _).
  - assert (callbacks_ok (u_s u1)) as Hcb by apply Hw. assert (u_timedOut u1 = false) as Ht by apply Hw.
    destruct (attempt_settles v d u Hop Hw u1 eq_refl Ht Hn) as (st & msg & u2 & E). unfold mbind at 1, M_bind at 1. rewrite E.
    assert (callbacks_ok (u_s u2)) as Hcb2 by (pose proof (quiet_attempt (Some d) u1 Hcb) as [_ H]; by rewrite E in H).
    rewrite (bind_gets u_xhr). set (u3 := if x_aborted (u_xhr u2) then with_log (ULog "upload aborted") u2 else u2).
    assert ((if x_aborted (u_xhr u2) then emit (ULog "upload aborted") else mret tt) u2 = (Ret tt, u3)) as E3 by (unfold u3; by destruct (x_aborted _)).
    unfold mbind, M_bind. rewrite E3. assert (callbacks_ok (u_s u3)) as Hcb3 by (unfold u3; by destruct (x_aborted _)).
    destruct (yields_response (final_status (u_xhr u2) st) msg u3 Hcb3) as (l & (? & u4 & E4 & H4 & _) & _). rewrite E4. cbn [snd].
    change (c_processed (core_of u4) = true). by rewrite H4.
  - assert (u_timedOut u1 = false) as Ht by apply Hw. assert (u_domCheckCount u1 ≠ 1) as Hn1 by (change (u_domCheckCount u ≠ 1); lia).
    unfold mbind, M_bind. rewrite (attempt_requeues v d u Hop Hw u1 eq_refl Ht Hn1). cbn [snd]. apply IH.
    + destruct Hw. split; try done. cbn. apply elem_of_app. right. by apply list_elem_of_singleton.
    + cbn. lia.
Qed.
End facts.

(** ** A sample upload *)

Definition no_user (c : user_call) : M upload value := mret VUndef.
Lemma no_user_quiet : ∀ c u, ∃ v, no_user c u = (Ret v, u).
Proof. intros c u. by eexists. Qed.

Definition sample_form : form := {| f_elements := []; f_all := []; clk := None; clk_x := VUndef; clk_y := VUndef |}.
Definition page_defaults : value := VObj false [("global", VBool true)].
Definition sample_options (more : list (string * value)) : value :=
  VObj false ([("url", VStr "/upload"); ("iframeSrc", VStr "about:blank"); ("success", VFun "s"); ("error", VFun "e"); ("complete", VFun "c")] ++ more).

Definition before_upload (action : option string) : upload :=
  {| u_doc := {| els := []; forms := [sample_form] |}; u_attrs := set_action action no_attrs; u_s := VUndef; u_g := false; u_xhr := new_xhr;
     u_id := ""; u_io := false; u_in_page := false; u_listening := false; u_timers := []; u_handle := false; u_timedOut := false;
     u_domCheckCount := 0; u_data := PValue VUndef; u_processed := false; u_active := 0; u_log := [] |}.

Definition html_page (html : string) (status : option string) : frame_document :=
  {| fd_href := "http://board/upload"; fd_readyState := "complete"; fd_XMLDocument := None; fd_rootName := Some "HTML"%string;
     fd_body := Some {| r_html := html; r_status := status; r_statusText := None |}; fd_documentElement := None;
     fd_textarea := None; fd_pre := None; fd_bodyTag := Some html |}.
Definition shows (d : frame_document) : frame_view :=
  {| contentWindow := Some (Ret (Some d)); contentDocument := None; frame_doc := None |}.
(** The frame shows a document of another origin. *)
Definition hidden : frame_view := {| contentWindow := Some (Throw (Raised "SecurityError")); contentDocument := None; frame_doc := None |}.

Abbreviation sample_start := (fileUpload page_defaults "1" None (λ n, n) (λ _, VUndef) no_user None sample_form).
Abbreviation sample_run opera := (run_upload opera (λ n, n) (λ _, Ret None) (λ _, VUndef) no_user None).

Definition sample_settings : value :=
  VObj false [("global", VBool true); ("url", VStr "/upload"); ("iframeSrc", VStr "about:blank"); ("success", VFun "s"); ("error", VFun "e"); ("complete", VFun "c")].

Lemma sample_callbacks : callbacks_ok sample_settings.
Proof. split; [|by eexists]. repeat constructor; by eexists. Qed.

Lemma sample_started : started page_defaults sample_form (sample_options []) [] (before_upload (Some "/form"%string)) sample_settings true.
Proof. split; [vm_compute; reflexivity|apply sample_callbacks|by eexists|done|done]. Qed.


Lemma no_veto : ¬ vetoes no_user.
Proof. by intros [u Hu]. Qed.

Lemma upload_active_witness :
  let run v := sample_run false [EvTimer TSubmit v; EvLoad v] (sample_start (sample_options []) [] (before_upload (Some "/form"%string))).2 in
  u_active (run (shows (html_page "saved" None))) = 0 ∧ u_active (run hidden) = 1.
Proof.
  intros run. pose (evs v := [EvTimer TSubmit v; EvLoad v]).
  pose proof (λ v, upload_active page_defaults "1" None false (λ n, n) (λ _, Ret None) (λ _, VUndef) no_user None sample_form no_user_quiet
               _ _ _ _ (evs v) sample_started no_veto eq_refl) as H.
  destruct (H (shows (html_page "saved" None))) as [H1 _]. destruct (H hidden) as [H2 _]. split; [etransitivity; [exact H1|]|etransitivity; [exact H2|]]; vm_compute; reflexivity.
Defined.

Lemma doSubmit_submits_witness :
  ∃ attrs u', doSubmit (λ n, n) (λ _, VUndef) None (new_upload sample_settings "frame" true true (before_upload (Some "/form"%string))) = (Ret tt, u') ∧
    u_log u' = [FormSubmitted attrs []] ∧ a_target attrs = Some "frame"%string ∧ a_action attrs = Some "/upload"%string ∧
    a_target (u_attrs u') = None ∧ a_action (u_attrs u') = Some "/form"%string.
Proof.
  exact (doSubmit_submits (λ n, n) (λ _, VUndef) None (new_upload sample_settings "frame" true true (before_upload (Some "/form"%string)))
           _ "/upload" VUndef [] eq_refl eq_refl eq_refl eq_refl ltac:(discriminate)).
Defined.

Definition empty_view : frame_view := shows (html_page "" None).
Definition in_opera : upload :=
  sample_run true [EvTimer TSubmit empty_view; EvLoad empty_view] (sample_start (sample_options []) [] (before_upload (Some "/form"%string))).2.

Lemma opera_gives_up_witness :
  u_processed in_opera = false ∧ u_processed (sample_run true (replicate 49 (EvTimer TLoad empty_view)) in_opera) = true.
Proof.
  split; [vm_compute; reflexivity|].
  apply (opera_gives_up true (λ n, n) (λ _, Ret None) (λ _, VUndef) no_user None no_user_quiet empty_view (html_page "" None) 48);
    [reflexivity| |vm_compute; reflexivity].
  assert (u_s in_opera = sample_settings) as Hs by (vm_compute; reflexivity).
  assert (u_timers in_opera = [TState; TLoad]) as Ht by (vm_compute; reflexivity).
  split; [rewrite Hs; apply sample_callbacks|reflexivity|rewrite Hs; eexists; split; reflexivity|rewrite Hs; eexists; split; reflexivity
         |split; reflexivity|reflexivity|vm_compute; repeat split|vm_compute; reflexivity|rewrite Ht; by right; left].
Defined.

(** ** Behaviours worth knowing *)

(** A response that carries a status attribute of 200 is reported as a success
    even when its data cannot be parsed, with no data. *)
Example parse_error_reported_as_success :
  let v := shows (html_page "not json" (Some "200"%string)) in
  reported (sample_run false [EvTimer TSubmit v; EvLoad v]
              (sample_start (sample_options [("dataType", VStr "json")]) [] (before_upload (Some "/form"%string))).2) =
  [Success (PValue VUndef); Complete (Some "success"%string)].
Proof. vm_compute. reflexivity. Qed.

(** An abort by the page after the end is reported again. *)
Example abort_after_end :
  let v := shows (html_page "saved" None) in
  reported (sample_run false [EvTimer TSubmit v; EvLoad v; EvAbort VUndef]
              (sample_start (sample_options []) [] (before_upload (Some "/form"%string))).2) =
  [Success (PValue (VStr "saved")); Complete (Some "success"%string);
   Error "aborted" (EValue VUndef); Complete (Some "aborted"%string)].
Proof. vm_compute. reflexivity. Qed.

(** With a frame of the page as target, nobody listens to its [load] event. *)
Example target_frame_never_loads :
  let v := shows (html_page "saved" None) in
  let start := fileUpload page_defaults "1" (Some (Some "io"%string)) (λ n, n) (λ _, VUndef) no_user None sample_form in
  let u := sample_run false [EvTimer TSubmit v; EvLoad v; EvTimer TState v]
             (start (sample_options [("iframeTarget", VStr "#io")]) [] (before_upload (Some "/form"%string))).2 in
  reported u = [] ∧ u_listening u = false ∧ u_timers u = [].
Proof. vm_compute. done. Qed.
