(* ===== verification/AjaxBase.v ===== *)
(** * Settings, types and converters of jQuery.ajax (jquery-1.9.1.js)

    The parts of [jQuery.ajax] that depend on their arguments only: the settings
    ([ajaxExtend], [ajaxSetup]), the registration of prefilters and transports,
    the comparison of addresses, the headers of a response, the choice of the
    response ([ajaxHandleResponses]) and its conversion ([ajaxConvert]).

    A regular expression among the settings is, like a function, an object known
    by its name, and the parameter [test] says what it matches.  [apply] is what a
    converter or filter returns.  The table of converters and the other tables
    are read without the properties that every object inherits. *)

From Stdlib Require Import SpecFloat.
From S2P Require Import Prelude JSNum JSValue JSON NodeUrl Regex ParseUri JQueryCore JQueryParam Forms JQueryDeferred AjaxSubmit.

(** ** Expressions *)

Definition re_word (s : string) : re := seqs (lit <$> list_ascii_of_string s).
Definition word_char (c : ascii) : bool :=
  is_digit c || (let n := N_of_ascii c in ((65 <=? n) && (n <=? 90) || (97 <=? n) && (n <=? 122) || (n =? 95))%N).

Definition rhash : re := seqs [lit "#"; Star (Chr dot); Eol].
(** An optional question mark or ampersand in front of the parameter [_]. *)
Definition rts : re := seqs [Group 1 (Chr (λ c, Ascii.eqb c "?" || Ascii.eqb c "&")); re_word "_="; Star (Chr (none_of ["&"%char]))].
(** Protocol, host and port. *)
Definition rurl : re :=
  seqs [Bol; Group 1 (Seq (plus (Chr (λ c, word_char c || existsb (Ascii.eqb c) ["."; "+"; "-"]%char))) (lit ":"));
        Alt (seqs [re_word "//"; Group 2 (Star (Chr (none_of ["/"; "?"; "#"; ":"]%char)));
                   Alt (Seq (lit ":") (Group 3 (plus (Chr is_digit)))) Eps]) Eps].

(** [s.replace(re, f)] for an expression that is not global. *)
Definition replace_match (ngroups : nat) (r : re) (f : list (option string) → string) (s : string) : string :=
  match exec_from ngroups r 0 s with
  | None => s
  | Some st =>
      let len := String.length (default "" (mjoin (caps st !! 0))) in
      str_take (pos st - len) s +:+ f (caps st) +:+ rest st
  end.
Definition matches (ngroups : nat) (r : re) (s : string) : bool := bool_decide (is_Some (exec_from ngroups r 0 s)).

(** [s.replace(rprotocol, by)] *)
Definition replace_protocol (by_ : string) (s : string) : string :=
  match s with
  | String "/" (String "/" s') => by_ +:+ s'
  | _ => s
  end.

(** ** Addresses *)

Section location.
Context (ajaxLocation : string).

Definition parts_of (url : string) : option (list (option string)) := exec 4 rurl (lower url).
Definition part (ps : list (option string)) (i : nat) : option string := mjoin (ps !! i).
Definition ajaxLocParts : list (option string) := default [] (parts_of ajaxLocation).

Definition port (ps : list (option string)) : value :=
  match part ps 3 with
  | Some p => VStr p
  | None => VInt (if bool_decide (part ps 1 = Some "http:") then 80 else 443)
  end.

(** A protocol, host and port mismatch. *)
Definition cross_domain (url : string) : bool :=
  match parts_of url with
  | None => false
  | Some ps => bool_decide (part ps 1 ≠ part ajaxLocParts 1) || bool_decide (part ps 2 ≠ part ajaxLocParts 2) ||
               negb (prim_loose_eq (port ps) (port ajaxLocParts))
  end.

(** [s.url] from the argument and the settings. *)
Definition request_url (url s_url : value) : res string :=
  t ← to_string (if truthy url then url else if truthy s_url then s_url else VStr ajaxLocation);
  Ret (replace_protocol (default "undefined" (part ajaxLocParts 1) +:+ "//") (replace_match 1 rhash (λ _, "") t)).
End location.

(** ** Settings *)

Section settings.
Context (ajaxSettings : value).

Fixpoint split_flat (flat : value) (ps : list (string * value)) (target : value) (deep : option value) : res (value * option value) :=
  match ps with
  | [] => Ret (target, deep)
  | (k, v) :: ps' =>
      match v with
      | VUndef => split_flat flat ps' target deep
      | _ =>
          b ← get flat k;
          if truthy b then split_flat flat ps' (put target k v) deep
          else split_flat flat ps' target (Some (put (default (VObj false []) deep) k v))
      end
  end.

Definition ajaxExtend (target src : value) : res value :=
  f ← get ajaxSettings "flatOptions";
  td ← split_flat (if truthy f then f else VObj false []) (own_props src) target None;
  match td.2 with
  | Some deep => jq_extend VUndef [VBool true; td.1; deep]
  | None => Ret td.1
  end.

(** [jQuery.ajaxSetup(target, settings)]; without [settings] the result is the new [ajaxSettings]. *)
Definition ajaxSetup (target settings : value) : res value :=
  if truthy settings then t ← ajaxExtend target ajaxSettings; ajaxExtend t settings
  else ajaxExtend ajaxSettings target.

(** [jQuery.param(s.data, s.traditional)]; the elements of an array are objects. *)
Fixpoint data_fields (l : list value) : res (list (string * value)) :=
  match l with
  | [] => Ret []
  | v :: l' => n ← get v "name"; k ← to_string n; x ← get v "value"; fs ← data_fields l'; Ret ((k, x) :: fs)
  end.
Definition request_data (call : string → value) (data traditional : value) : res string :=
  t ← match traditional with VUndef => get ajaxSettings "traditional" | _ => Ret traditional end;
  match data with
  | VObj true ps => fs ← data_fields ps.*2; param_array call fs
  | _ => param_object call (truthy t) (own_props data)
  end.
End settings.

(** The settings of the library itself; the converters that are functions are
    known by their names. *)
Definition allTypes : string := "*/" +:+ "*".

Definition library_settings (ajaxLocation : string) (isLocal : bool) : value := VObj false [
  ("url", VStr ajaxLocation); ("type", VStr "GET"); ("isLocal", VBool isLocal); ("global", VBool true);
  ("processData", VBool true); ("async", VBool true);
  ("contentType", VStr "application/x-www-form-urlencoded; charset=UTF-8");
  ("accepts", VObj false [("*", VStr allTypes); ("text", VStr "text/plain"); ("html", VStr "text/html");
                          ("xml", VStr "application/xml, text/xml"); ("json", VStr "application/json, text/javascript")]);
  ("contents", VObj false [("xml", VFun "/xml/"); ("html", VFun "/html/"); ("json", VFun "/json/")]);
  ("responseFields", VObj false [("xml", VStr "responseXML"); ("text", VStr "responseText")]);
  ("converters", VObj false [("* text", VFun "String"); ("text html", VBool true); ("text json", VFun "parseJSON");
                             ("text xml", VFun "parseXML")]);
  ("flatOptions", VObj false [("url", VBool true); ("context", VBool true)])].

(** ** Prefilters and transports *)

(** The functions registered for each data type. *)
Definition registry := list (string * list string).

Definition or_list (o : option (list string)) : list string := default [] o.
Definition register_type (func : string) (r : registry) (dataType : string) : registry :=
  match dataType with
  | String "+" t => let t := if String.eqb t "" then "*" else t in prop_put t (func :: or_list (assoc t r)) r
  | _ => prop_put dataType (or_list (assoc dataType r) ++ [func]) r
  end.

(** [jQuery.ajaxPrefilter] and [jQuery.ajaxTransport] *)
Definition addToPrefiltersOrTransports (structure : registry) (dataTypeExpression func : value) : registry :=
  let '(e, f) := match dataTypeExpression with VStr e => (e, func) | v => ("*", v) end in
  match f with
  | VFun name => foldl (register_type name) structure (createOptions (lower e))
  | _ => structure
  end.

(** ** The headers of a response *)

Definition line_end (c : ascii) : bool := Ascii.eqb c "010" || Ascii.eqb c "013".

(** The text up to the first character of a class, and the text after it. *)
Fixpoint cut (p : ascii → bool) (s : string) : string * option string :=
  match s with
  | EmptyString => ("", None)
  | String c s' => if p c then ("", Some s') else let '(a, b) := cut p s' in (String c a, b)
  end.
Fixpoint lines_of (fuel : nat) (s : string) : list string :=
  match fuel with
  | O => []
  | S n => match cut line_end s with
           | (l, Some s') => l :: lines_of n s'
           | (l, None) => [l]
           end
  end.
Fixpoint skip_blanks (s : string) : string :=
  match s with
  | String c s' => if Ascii.eqb c " " || Ascii.eqb c "009" then skip_blanks s' else s
  | EmptyString => ""
  end.

(** The matches of [rheaders], one in each line that has a colon. *)
Definition header_of (line : string) : option (string * string) :=
  match cut (Ascii.eqb ":") line with
  | (name, Some v) => Some (name, skip_blanks v)
  | (_, None) => None
  end.
Definition response_headers (s : string) : list (string * string) :=
  foldl (λ h nv, prop_put (lower nv.1) nv.2 h) [] (omap header_of (lines_of (S (String.length s)) s)).

(** ** The response of the expected type *)

Section responses.
Context (test : string → string → bool).

Fixpoint drop_stars (l : list string) : list string :=
  match l with
  | t :: l' => if String.eqb t "*" then drop_stars l' else l
  | [] => []
  end.

(** The type of the content, when the type is left open. *)
Fixpoint content_type_of (contents : list (string * value)) (ct : string) : res (option string) :=
  match contents with
  | [] => Ret None
  | (type, r) :: l =>
      if truthy r then
        match r with
        | VFun f => if test f ct then Ret (Some type) else content_type_of l ct
        | _ => Throw TypeError
        end
      else content_type_of l ct
  end.

(** The first type of a response that will do, or else the first one. *)
Fixpoint convertible (converters : list (string * value)) (want : option string) (types : list string) (first : string) : string :=
  match types with
  | [] => first
  | t :: l =>
      match want with
      | Some w =>
          if String.eqb w "" || truthy (default VUndef (assoc (t +:+ " " +:+ w) converters)) then (if String.eqb t "" then first else t)
          else convertible converters want l (if String.eqb first "" then t else first)
      | None => if String.eqb t "" then first else t
      end
  end.

Record handled := { h_types : list string; h_fields : list (string * value); h_response : value }.

(** [header] is what [jqXHR.getResponseHeader] gives for Content-Type. *)
Definition ajaxHandleResponses (s : value) (dataTypes : list string) (header : option string) (responses : list (string * value)) : res handled :=
  contents ← get s "contents";
  fields ← get s "responseFields";
  converters ← get s "converters";
  mime ← get s "mimeType";
  let set := omap (λ tf, x ← assoc tf.1 responses; n ← match to_string tf.2 with Ret n => Some n | Throw _ => None end; Some (n, x)) (own_props fields) in
  let rest := drop_stars dataTypes in
  let ct := if bool_decide (rest = dataTypes) then VUndef
            else if truthy mime then mime else match header with Some h => VStr h | None => VNull end in
  found ← (if truthy ct then t ← to_string ct; content_type_of (own_props contents) t else Ret None);
  let types := match found with Some t => t :: rest | None => rest end in
  let final :=
    if bool_decide (is_Some (assoc (default "undefined" (head types)) responses)) then default "" (head types)
    else convertible (own_props converters) (head types) responses.*1 "" in
  Ret (if String.eqb final "" then {| h_types := types; h_fields := set; h_response := VUndef |}
       else {| h_types := if bool_decide (head types = Some final) then types else final :: types; h_fields := set;
               h_response := default VUndef (assoc final responses) |}).
End responses.

(** ** Conversion *)

Inductive conversion :=
| Converted (data : value)
| ParserError (why : string + exn).

Section convert.
Context (apply : string → list value → res value).

Definition call_value (f : value) (a : list value) : res value :=
  match f with VFun name => apply name a | _ => Throw TypeError end.

Definition converter (convs : list (string * value)) (a b : string) : value :=
  let v := default VUndef (assoc (a +:+ " " +:+ b) convs) in
  if truthy v then v else default VUndef (assoc ("* " +:+ b) convs).

Definition is_true (v : value) : bool := match v with VBool true => true | _ => false end.

(** The loop over the converters for a pair that leads to [current], and the type in
    between when there is to be one. *)
Fixpoint seek_pair (convs l : list (string * value)) (prev current : string) : value * option string :=
  match l with
  | [] => (VUndef, None)
  | (conv2, c2) :: l' =>
      match split_char " " conv2 with
      | a :: b :: _ =>
          let conv := converter convs prev a in
          if String.eqb b current && truthy conv then
            if is_true conv then (c2, None) else if is_true c2 then (conv, None) else (conv, Some a)
          else seek_pair convs l' prev current
      | _ => seek_pair convs l' prev current
      end
  end.

Definition seek (convs : list (string * value)) (prev current : string) : value * option string :=
  let conv := converter convs prev current in
  if truthy conv then (conv, None) else seek_pair convs convs prev current.

Definition no_conversion (prev current : string) : string := "No conversion from " +:+ prev +:+ " to " +:+ current.

(** One application of a converter; the sum is the error that ends the conversion. *)
Definition apply_converter (throws : bool) (conv response : value) (prev current : string) : res (value + (string + exn)) :=
  if is_true conv then Ret (inl response)
  else if truthy conv && throws then r ← call_value conv [response]; Ret (inl r)
  else match call_value conv [response] with
       | Ret r => Ret (inl r)
       | Throw e => Ret (inr (if truthy conv then inr e else inl (no_conversion prev current)))
       end.

(** The loop over the types after [prev]; [None] when the fuel runs out. *)
Fixpoint convert_loop (throws : bool) (convs : list (string * value)) (fuel : nat) (prev : string) (types : list string) (response : value) : option (res conversion) :=
  match fuel with
  | O => None
  | S n =>
      match types with
      | [] => Some (Ret (Converted response))
      | current :: types' =>
          if String.eqb current "" then Some (Ret (Converted response))
          else if String.eqb current "*" then convert_loop throws convs n prev types' response
          else if negb (String.eqb prev "*") && negb (String.eqb prev current) then
            let '(conv, between) := seek convs prev current in
            let current' := default current between in
            match apply_converter throws conv response prev current' with
            | Throw e => Some (Throw e)
            | Ret (inr why) => Some (Ret (ParserError why))
            | Ret (inl r) =>
                convert_loop throws convs n current' (match between with Some a => a :: types | None => types' end) r
            end
          else convert_loop throws convs n current types' response
      end
  end.

Definition lower_keys (convs : list (string * value)) : list (string * value) :=
  foldl (λ t kv, prop_put (lower kv.1) kv.2 t) [] convs.

Definition ajaxConvert (fuel : nat) (s : value) (dataTypes : list string) (response : value) : option (res conversion) :=
  match
    filter ← get s "dataFilter";
    dataType ← get s "dataType";
    converters ← get s "converters";
    throws ← get s "throws";
    r ← (if truthy filter then call_value filter [response; dataType] else Ret response);
    Ret (lower_keys (own_props converters), truthy throws, r)
  with
  | Throw e => Some (Throw e)
  | Ret (convs, throws, r) =>
      match dataTypes with
      | [] => Some (Ret (Converted r))
      | prev :: types => convert_loop throws convs fuel prev types r
      end
  end.
End convert.
