(* ===== verification/Ajax.v ===== *)
(** * Requests of jQuery.ajax (jquery-1.9.1.js)

    [jQuery.ajax] from the options to the end of the request.  A request is the
    record of the variables that its closure keeps ([s], the types, the headers,
    [state], ...) and of the fields of its [jqXHR]; the requests of a page share
    [jQuery.active], the caches [lastModified] and [etag], [ajax_nonce] and the log of
    what can be seen from outside.  The page and the transports act on a request
    through events.

    The functions of the page that get the request in hand while it is prepared
    (prefilters, [beforeSend], the factories of transports, handlers of [ajaxSend])
    are the parameter [hook]: the settings they leave, the methods of [jqXHR] they
    call, and their result.  [sends] and [aborts] are what the methods of a transport
    do at once.  The functions called at the end of a request ([success], [error],
    [complete], the table [statusCode], handlers of global events) are recorded
    and return; they neither throw nor call the request again.  A [Deferred] is the
    promise that [DeferredFacts] shows it to refine, and the list of [complete] is
    the resolved side of one.  Contexts ([this]) are not modelled. *)

From Stdlib Require Import SpecFloat.
From S2P Require Import Prelude JSNum JSValue JSON NodeUrl Regex JQueryCore JQueryParam Forms JQueryDeferred DeferredFacts AjaxSubmit AjaxBase.

Definition headers := list (string * value).

Inductive ajax_effect :=
| Triggers (event : string)
| Sends (transport : string) (s : value) (h : headers)
| Aborts (transport : string) (text : value)
| Calls (f : nat) (a : args).

(** What a transport hands to its callback. *)
Record answer := {
  an_status : Z;
  an_text : string;
  an_responses : option (list (string * value));
  an_headers : string
}.

(** The first argument of [done] after the status: a text or an exception. *)
Definition native := (value + exn)%type.

Record ajax_request := {
  r_options : value;                  (* as given *)
  r_s : value;                        (* [s], without its list [dataTypes] *)
  r_types : list string;              (* [s.dataTypes] *)
  r_cacheURL : string;
  r_responseHeaders : string;
  r_timer : bool;                     (* the timeout is running *)
  r_fireGlobals : bool;
  r_transport : value;
  r_statusCode : value;
  r_headers : headers;
  r_names : list (string * string);   (* [requestHeadersNames] *)
  r_state : nat;
  r_strAbort : string;
  r_readyState : Z;
  r_status : Z;
  r_statusText : native;
  r_fields : list (string * value);   (* [responseText] and the like *)
  r_deferred : promise;
  r_complete : promise
}.

Record shared := {
  g_active : Z;
  g_lastModified : list (string * string);
  g_etag : list (string * string);
  g_nonce : Z;
  g_log : list ajax_effect
}.

(** The state that a request works on. *)
Record ajax := { a_req : ajax_request; a_shared : shared }.

(** ** Access *)

Definition no_promise : promise := Pending [] [] [] None.

Definition new_request (options s : value) : ajax_request :=
  {| r_options := options; r_s := s; r_types := []; r_cacheURL := ""; r_responseHeaders := ""; r_timer := false; r_fireGlobals := false;
     r_transport := VUndef; r_statusCode := VUndef; r_headers := []; r_names := []; r_state := 0; r_strAbort := "canceled";
     r_readyState := 0; r_status := 0; r_statusText := inl VUndef; r_fields := []; r_deferred := no_promise; r_complete := no_promise |}.

Definition up_s (s : value) (r : ajax_request) : ajax_request :=
  {| r_options := r_options r; r_s := s; r_types := r_types r; r_cacheURL := r_cacheURL r;
     r_responseHeaders := r_responseHeaders r; r_timer := r_timer r; r_fireGlobals := r_fireGlobals r;
     r_transport := r_transport r; r_statusCode := r_statusCode r; r_headers := r_headers r; r_names := r_names r;
     r_state := r_state r; r_strAbort := r_strAbort r; r_readyState := r_readyState r; r_status := r_status r;
     r_statusText := r_statusText r; r_fields := r_fields r; r_deferred := r_deferred r; r_complete := r_complete r |}.
Definition up_types (l : list string) (r : ajax_request) : ajax_request :=
  {| r_options := r_options r; r_s := r_s r; r_types := l; r_cacheURL := r_cacheURL r; r_responseHeaders := r_responseHeaders r;
     r_timer := r_timer r; r_fireGlobals := r_fireGlobals r; r_transport := r_transport r; r_statusCode := r_statusCode r;
     r_headers := r_headers r; r_names := r_names r; r_state := r_state r; r_strAbort := r_strAbort r;
     r_readyState := r_readyState r; r_status := r_status r; r_statusText := r_statusText r; r_fields := r_fields r;
     r_deferred := r_deferred r; r_complete := r_complete r |}.
Definition up_cacheURL (u : string) (r : ajax_request) : ajax_request :=
  {| r_options := r_options r; r_s := r_s r; r_types := r_types r; r_cacheURL := u; r_responseHeaders := r_responseHeaders r;
     r_timer := r_timer r; r_fireGlobals := r_fireGlobals r; r_transport := r_transport r; r_statusCode := r_statusCode r;
     r_headers := r_headers r; r_names := r_names r; r_state := r_state r; r_strAbort := r_strAbort r;
     r_readyState := r_readyState r; r_status := r_status r; r_statusText := r_statusText r; r_fields := r_fields r;
     r_deferred := r_deferred r; r_complete := r_complete r |}.
Definition up_timer (b : bool) (r : ajax_request) : ajax_request :=
  {| r_options := r_options r; r_s := r_s r; r_types := r_types r; r_cacheURL := r_cacheURL r;
     r_responseHeaders := r_responseHeaders r; r_timer := b; r_fireGlobals := r_fireGlobals r; r_transport := r_transport r;
     r_statusCode := r_statusCode r; r_headers := r_headers r; r_names := r_names r; r_state := r_state r;
     r_strAbort := r_strAbort r; r_readyState := r_readyState r; r_status := r_status r; r_statusText := r_statusText r;
     r_fields := r_fields r; r_deferred := r_deferred r; r_complete := r_complete r |}.
Definition up_fireGlobals (b : bool) (r : ajax_request) : ajax_request :=
  {| r_options := r_options r; r_s := r_s r; r_types := r_types r; r_cacheURL := r_cacheURL r;
     r_responseHeaders := r_responseHeaders r; r_timer := r_timer r; r_fireGlobals := b; r_transport := r_transport r;
     r_statusCode := r_statusCode r; r_headers := r_headers r; r_names := r_names r; r_state := r_state r;
     r_strAbort := r_strAbort r; r_readyState := r_readyState r; r_status := r_status r; r_statusText := r_statusText r;
     r_fields := r_fields r; r_deferred := r_deferred r; r_complete := r_complete r |}.
Definition up_transport (t : value) (r : ajax_request) : ajax_request :=
  {| r_options := r_options r; r_s := r_s r; r_types := r_types r; r_cacheURL := r_cacheURL r;
     r_responseHeaders := r_responseHeaders r; r_timer := r_timer r; r_fireGlobals := r_fireGlobals r; r_transport := t;
     r_statusCode := r_statusCode r; r_headers := r_headers r; r_names := r_names r; r_state := r_state r;
     r_strAbort := r_strAbort r; r_readyState := r_readyState r; r_status := r_status r; r_statusText := r_statusText r;
     r_fields := r_fields r; r_deferred := r_deferred r; r_complete := r_complete r |}.
Definition up_statusCode (v : value) (r : ajax_request) : ajax_request :=
  {| r_options := r_options r; r_s := r_s r; r_types := r_types r; r_cacheURL := r_cacheURL r;
     r_responseHeaders := r_responseHeaders r; r_timer := r_timer r; r_fireGlobals := r_fireGlobals r;
     r_transport := r_transport r; r_statusCode := v; r_headers := r_headers r; r_names := r_names r; r_state := r_state r;
     r_strAbort := r_strAbort r; r_readyState := r_readyState r; r_status := r_status r; r_statusText := r_statusText r;
     r_fields := r_fields r; r_deferred := r_deferred r; r_complete := r_complete r |}.
Definition up_headers (h : headers) (n : list (string * string)) (r : ajax_request) : ajax_request :=
  {| r_options := r_options r; r_s := r_s r; r_types := r_types r; r_cacheURL := r_cacheURL r;
     r_responseHeaders := r_responseHeaders r; r_timer := r_timer r; r_fireGlobals := r_fireGlobals r;
     r_transport := r_transport r; r_statusCode := r_statusCode r; r_headers := h; r_names := n; r_state := r_state r;
     r_strAbort := r_strAbort r; r_readyState := r_readyState r; r_status := r_status r; r_statusText := r_statusText r;
     r_fields := r_fields r; r_deferred := r_deferred r; r_complete := r_complete r |}.
Definition up_state (n : nat) (r : ajax_request) : ajax_request :=
  {| r_options := r_options r; r_s := r_s r; r_types := r_types r; r_cacheURL := r_cacheURL r;
     r_responseHeaders := r_responseHeaders r; r_timer := r_timer r; r_fireGlobals := r_fireGlobals r;
     r_transport := r_transport r; r_statusCode := r_statusCode r; r_headers := r_headers r; r_names := r_names r; r_state := n;
     r_strAbort := r_strAbort r; r_readyState := r_readyState r; r_status := r_status r; r_statusText := r_statusText r;
     r_fields := r_fields r; r_deferred := r_deferred r; r_complete := r_complete r |}.
Definition up_strAbort (t : string) (r : ajax_request) : ajax_request :=
  {| r_options := r_options r; r_s := r_s r; r_types := r_types r; r_cacheURL := r_cacheURL r;
     r_responseHeaders := r_responseHeaders r; r_timer := r_timer r; r_fireGlobals := r_fireGlobals r;
     r_transport := r_transport r; r_statusCode := r_statusCode r; r_headers := r_headers r; r_names := r_names r;
     r_state := r_state r; r_strAbort := t; r_readyState := r_readyState r; r_status := r_status r;
     r_statusText := r_statusText r; r_fields := r_fields r; r_deferred := r_deferred r; r_complete := r_complete r |}.
Definition up_ready (n : Z) (r : ajax_request) : ajax_request :=
  {| r_options := r_options r; r_s := r_s r; r_types := r_types r; r_cacheURL := r_cacheURL r;
     r_responseHeaders := r_responseHeaders r; r_timer := r_timer r; r_fireGlobals := r_fireGlobals r;
     r_transport := r_transport r; r_statusCode := r_statusCode r; r_headers := r_headers r; r_names := r_names r;
     r_state := r_state r; r_strAbort := r_strAbort r; r_readyState := n; r_status := r_status r; r_statusText := r_statusText r;
     r_fields := r_fields r; r_deferred := r_deferred r; r_complete := r_complete r |}.
Definition up_response (l : list string) (f : list (string * value)) (r : ajax_request) : ajax_request :=
  {| r_options := r_options r; r_s := r_s r; r_types := l; r_cacheURL := r_cacheURL r; r_responseHeaders := r_responseHeaders r;
     r_timer := r_timer r; r_fireGlobals := r_fireGlobals r; r_transport := r_transport r; r_statusCode := r_statusCode r;
     r_headers := r_headers r; r_names := r_names r; r_state := r_state r; r_strAbort := r_strAbort r;
     r_readyState := r_readyState r; r_status := r_status r; r_statusText := r_statusText r; r_fields := f;
     r_deferred := r_deferred r; r_complete := r_complete r |}.
Definition up_status (n : Z) (t : native) (r : ajax_request) : ajax_request :=
  {| r_options := r_options r; r_s := r_s r; r_types := r_types r; r_cacheURL := r_cacheURL r;
     r_responseHeaders := r_responseHeaders r; r_timer := r_timer r; r_fireGlobals := r_fireGlobals r;
     r_transport := r_transport r; r_statusCode := r_statusCode r; r_headers := r_headers r; r_names := r_names r;
     r_state := r_state r; r_strAbort := r_strAbort r; r_readyState := r_readyState r; r_status := n; r_statusText := t;
     r_fields := r_fields r; r_deferred := r_deferred r; r_complete := r_complete r |}.
Definition up_deferred (p : promise) (r : ajax_request) : ajax_request :=
  {| r_options := r_options r; r_s := r_s r; r_types := r_types r; r_cacheURL := r_cacheURL r;
     r_responseHeaders := r_responseHeaders r; r_timer := r_timer r; r_fireGlobals := r_fireGlobals r;
     r_transport := r_transport r; r_statusCode := r_statusCode r; r_headers := r_headers r; r_names := r_names r;
     r_state := r_state r; r_strAbort := r_strAbort r; r_readyState := r_readyState r; r_status := r_status r;
     r_statusText := r_statusText r; r_fields := r_fields r; r_deferred := p; r_complete := r_complete r |}.
Definition up_complete (p : promise) (r : ajax_request) : ajax_request :=
  {| r_options := r_options r; r_s := r_s r; r_types := r_types r; r_cacheURL := r_cacheURL r;
     r_responseHeaders := r_responseHeaders r; r_timer := r_timer r; r_fireGlobals := r_fireGlobals r;
     r_transport := r_transport r; r_statusCode := r_statusCode r; r_headers := r_headers r; r_names := r_names r;
     r_state := r_state r; r_strAbort := r_strAbort r; r_readyState := r_readyState r; r_status := r_status r;
     r_statusText := r_statusText r; r_fields := r_fields r; r_deferred := r_deferred r; r_complete := p |}.
(** The first assignments of [done]. *)
Definition up_done (h : string) (n : Z) (r : ajax_request) : ajax_request :=
  {| r_options := r_options r; r_s := r_s r; r_types := r_types r; r_cacheURL := r_cacheURL r; r_responseHeaders := h;
     r_timer := false; r_fireGlobals := r_fireGlobals r; r_transport := VUndef; r_statusCode := r_statusCode r;
     r_headers := r_headers r; r_names := r_names r; r_state := 2; r_strAbort := r_strAbort r; r_readyState := n;
     r_status := r_status r; r_statusText := r_statusText r; r_fields := r_fields r; r_deferred := r_deferred r;
     r_complete := r_complete r |}.

Definition on_req (f : ajax_request → ajax_request) : M ajax unit := modify (λ a, {| a_req := f (a_req a); a_shared := a_shared a |}).
Definition on_shared (f : shared → shared) : M ajax unit := modify (λ a, {| a_req := a_req a; a_shared := f (a_shared a) |}).
Definition asks {A} (f : ajax_request → A) : M ajax A := gets (λ a, f (a_req a)).

Definition up_active (n : Z) (g : shared) : shared :=
  {| g_active := n; g_lastModified := g_lastModified g; g_etag := g_etag g; g_nonce := g_nonce g; g_log := g_log g |}.
Definition up_caches (m e : list (string * string)) (g : shared) : shared :=
  {| g_active := g_active g; g_lastModified := m; g_etag := e; g_nonce := g_nonce g; g_log := g_log g |}.
Definition up_nonce (n : Z) (g : shared) : shared :=
  {| g_active := g_active g; g_lastModified := g_lastModified g; g_etag := g_etag g; g_nonce := n; g_log := g_log g |}.
Definition up_log (l : list ajax_effect) (g : shared) : shared :=
  {| g_active := g_active g; g_lastModified := g_lastModified g; g_etag := g_etag g; g_nonce := g_nonce g; g_log := g_log g ++ l |}.

Definition tell (l : list ajax_effect) : M ajax unit := on_shared (up_log l).
Definition setting (k : string) : M ajax value := s ← asks r_s; lift (get s k).
Definition set_setting (k : string) (v : value) : M ajax unit := on_req (λ r, up_s (put (r_s r) k v) r).

(** The object [jqXHR] among the arguments of a function. *)
Definition jqXHR : value := VFun "jqXHR".

Definition exn_name (e : exn) : string :=
  match e with
  | TypeError => "TypeError" | SyntaxError => "SyntaxError" | RangeError => "RangeError" | ReferenceError => "ReferenceError"
  | Raised _ => "Error"
  end.
(** An exception as a value, with the message where it is known. *)
Definition exn_value (e : exn) : value :=
  VObj false [("name", VStr (exn_name e)); ("message", VStr (match e with Raised m => m | _ => "" end))].
Definition native_value (n : native) : value := match n with inl v => v | inr e => exn_value e end.

(** The functions in an argument of [add], which may be an array of them. *)
Fixpoint fns_of (v : value) : list string :=
  match v with
  | VFun f => [f]
  | VObj true ps => (fix go l := match l with [] => [] | kv :: l' => fns_of kv.2 ++ go l' end) ps
  | _ => []
  end.

(** The methods of [jqXHR] that a function of the page may call. *)
Inductive xhr_op :=
| SetRequestHeader (name : string) (v : value)
| OverrideMimeType (v : value)
| StatusCode (map : value)
| Abort (text : value)
| Done (f : value)
| Fail (f : value)
| Always (f : value)
| Complete (f : value).

Record hooked := {
  k_settings : value;
  k_types : list string;
  k_ops : list xhr_op;
  k_result : res value
}.

Section ajax.
Context (fn_id : string → nat).                                 (* the number of a function *)
Context (hook : string → value → list string → hooked).
Context (sends : string → value → headers → option answer * option exn).
Context (aborts : string → option answer).
Context (prefilters transports : registry).
Context (ajaxSettings : value) (ajaxLocation : string).
Context (apply : string → list value → res value).              (* converters and filters *)
Context (test : string → string → bool).
Context (call : string → value).                                (* functions among the data *)

(** ** The methods of jqXHR *)

Definition on_deferred (q : request) : M ajax unit :=
  p ← asks r_deferred;
  on_req (up_deferred (promise_step p q).1);; tell ((λ fa, Calls fa.1 fa.2) <$> (promise_step p q).2).
Definition on_complete (q : request) : M ajax unit :=
  p ← asks r_complete;
  on_req (up_complete (promise_step p q).1);; tell ((λ fa, Calls fa.1 fa.2) <$> (promise_step p q).2).

Fixpoint each_fn (m : nat → M ajax unit) (fs : list string) : M ajax unit :=
  match fs with [] => mret tt | f :: fs' => m (fn_id f);; each_fn m fs' end.

Definition xhr_add (a : action) (v : value) : M ajax unit := each_fn (λ f, on_deferred (Register a f)) (fns_of v).
Definition xhr_always (v : value) : M ajax unit := xhr_add Resolve v;; xhr_add Reject v.
Definition xhr_complete (v : value) : M ajax unit := each_fn (λ f, on_complete (Register Resolve f)) (fns_of v).

Definition getResponseHeader (key : string) : M ajax (option string) :=
  st ← asks r_state;
  hs ← asks r_responseHeaders;
  mret (if (st =? 2)%nat then assoc (lower key) (response_headers hs) else None).

Definition getAllResponseHeaders : M ajax (option string) :=
  st ← asks r_state;
  hs ← asks r_responseHeaders;
  mret (if (st =? 2)%nat then Some hs else None).

Definition setRequestHeader (name : string) (v : value) : M ajax unit :=
  st ← asks r_state;
  if (st =? 0)%nat : bool then
    on_req (λ r,
      let lname := lower name in
      let known := default "" (assoc lname (r_names r)) in
      let name := if String.eqb known "" then name else known in
      up_headers (prop_put name v (r_headers r)) (prop_put lname name (r_names r)) r)
  else mret tt.

Definition overrideMimeType (v : value) : M ajax unit :=
  st ← asks r_state;
  if (st =? 0)%nat : bool then set_setting "mimeType" v else mret tt.

Fixpoint add_codes (ps : list (string * value)) : M ajax unit :=
  match ps with
  | [] => mret tt
  | (code, f) :: ps' =>
      t ← asks r_statusCode;
      old ← lift (get t code);
      on_req (up_statusCode (put t code (VObj true [("0", old); ("1", f)])));;
      add_codes ps'
  end.

Definition statusCode (map : value) : M ajax unit :=
  if truthy map then
    st ← asks r_state;
    if (st <? 2)%nat : bool then add_codes (own_props map)
    else status ← asks r_status; v ← lift (get map (dec_of_Z status)); xhr_always v
  else mret tt.

(** ** The end of a request *)

(** The response of the expected type; the fields of [jqXHR] are filled on the way. *)
Definition read_responses (responses : option (list (string * value))) : M ajax value :=
  match responses with
  | None => mret VUndef
  | Some rs =>
      s ← asks r_s;
      types ← asks r_types;
      ct ← getResponseHeader "Content-Type";
      h ← lift (ajaxHandleResponses test s types ct rs);
      on_req (λ r, up_response (h_types h) (foldl (λ fs nv, prop_put nv.1 nv.2 fs) (r_fields r) (h_fields h)) r);;
      mret (h_response h)
  end.

Definition success_status (status : Z) : bool := ((200 <=? status) && (status <? 300) || (status =? 304))%Z.

Definition remember (cache : list (string * string)) (url : string) (v : option string) : list (string * string) :=
  match v with
  | Some t => if String.eqb t "" then cache else prop_put url t cache
  | None => cache
  end.

Definition remember_modified : M ajax unit :=
  m ← setting "ifModified";
  if truthy m then
    url ← asks r_cacheURL;
    l ← getResponseHeader "Last-Modified";
    e ← getResponseHeader "etag";
    on_shared (λ g, up_caches (remember (g_lastModified g) url l) (remember (g_etag g) url e) g)
  else mret tt.

(** Every type needs at most three rounds. *)
Definition conversion_fuel (types : list string) : nat := S (3 * length types).

Record verdict := { v_ok : bool; v_data : value; v_text : value; v_error : value; v_status : Z }.

Definition conversion_verdict (status : Z) (c : conversion) : verdict :=
  match c with
  | Converted d => {| v_ok := true; v_data := d; v_text := VStr "success"; v_error := VUndef; v_status := status |}
  | ParserError why =>
      {| v_ok := false; v_data := VUndef; v_text := VStr "parsererror";
         v_error := match why with inl t => VStr t | inr e => exn_value e end; v_status := status |}
  end.

Definition failure_verdict (status : Z) (n : native) : verdict :=
  if negb (status =? 0)%Z || negb (truthy (native_value n)) then
    {| v_ok := false; v_data := VUndef; v_text := VStr "error"; v_error := native_value n; v_status := if (status <? 0)%Z then 0 else status |}
  else {| v_ok := false; v_data := VUndef; v_text := native_value n; v_error := native_value n; v_status := status |}.

Definition judge (status : Z) (n : native) (response : value) : M ajax verdict :=
  if success_status status then
    remember_modified;;
    if (status =? 204)%Z : bool then mret {| v_ok := true; v_data := VUndef; v_text := VStr "nocontent"; v_error := VUndef; v_status := status |}
    else if (status =? 304)%Z : bool then
      mret {| v_ok := true; v_data := VUndef; v_text := VStr "notmodified"; v_error := VUndef; v_status := status |}
    else
      s ← asks r_s;
      types ← asks r_types;
      match ajaxConvert apply (conversion_fuel types) s types response with
      | None => raise (Raised "conversion without end")
      | Some c => c ← lift c; mret (conversion_verdict status c)
      end
  else mret (failure_verdict status n).

Definition xhr_text (n : native) (v : verdict) : res native :=
  match n with
  | inl t => s ← to_string (if truthy t then t else v_text v); Ret (inl (VStr s))
  | inr e => Ret (inr e)
  end.

(** A request less in progress. *)
Definition one_request_less : M ajax unit :=
  tell [Triggers "ajaxComplete"];;
  n ← gets (λ a, g_active (a_shared a));
  on_shared (up_active (n - 1));;
  if (n - 1 =? 0)%Z : bool then tell [Triggers "ajaxStop"] else mret tt.

Definition report_verdict (v : verdict) : M ajax unit :=
  on_deferred (if v_ok v then Act Resolve [v_data v; v_text v; jqXHR] else Act Reject [jqXHR; v_text v; v_error v]);;
  codes ← asks r_statusCode;
  statusCode codes;;
  on_req (up_statusCode VUndef);;
  g ← asks r_fireGlobals;
  (if g : bool then tell [Triggers (if v_ok v then "ajaxSuccess" else "ajaxError")] else mret tt);;
  on_complete (Act Resolve [jqXHR; v_text v]);;
  if g : bool then one_request_less else mret tt.

(** [done(status, nativeStatusText, responses, headers)] *)
Definition xhr_done (status : Z) (n : native) (responses : option (list (string * value))) (hs : string) : M ajax unit :=
  st ← asks r_state;
  if (st =? 2)%nat : bool then mret tt
  else
    on_req (up_done hs (if (0 <? status)%Z then 4 else 0));;
    response ← read_responses responses;
    v ← judge status n response;
    t ← lift (xhr_text n v);
    on_req (up_status (v_status v) t);;
    report_verdict v.

Definition answered (an : answer) : M ajax unit := xhr_done (an_status an) (inl (VStr (an_text an))) (an_responses an) (an_headers an).

Definition xhr_abort (text : value) : M ajax unit :=
  str ← asks r_strAbort;
  let final := if truthy text then text else VStr str in
  t ← asks r_transport;
  (if truthy t then
     match t with
     | VFun name => tell [Aborts name final];; match aborts name with Some an => answered an | None => mret tt end
     | _ => raise TypeError
     end
   else mret tt);;
  xhr_done 0 (inl final) None "".

(** ** The functions of the page *)

Definition run_op (op : xhr_op) : M ajax unit :=
  match op with
  | SetRequestHeader n v => setRequestHeader n v
  | OverrideMimeType v => overrideMimeType v
  | StatusCode m => statusCode m
  | Abort t => xhr_abort t
  | Done f => xhr_add Resolve f
  | Fail f => xhr_add Reject f
  | Always f => xhr_always f
  | Complete f => xhr_complete f
  end.
Fixpoint run_ops (ops : list xhr_op) : M ajax unit :=
  match ops with [] => mret tt | op :: ops' => run_op op;; run_ops ops' end.

Definition call_hook (f : string) : M ajax value :=
  s ← asks r_s;
  types ← asks r_types;
  let k := hook f s types in
  on_req (λ r, up_types (k_types k) (up_s (k_settings k) r));;
  run_ops (k_ops k);;
  lift (k_result k).

(** The functions for one data type; a prefilter that names a new type hands over
    to it.  [out] stands for the computation without fuel. *)
Fixpoint inspect (out : M ajax (value * list string)) (structure : registry) (seekingTransport : bool) (fuel : nat) (dataType : string) (inspected : list string) : M ajax (value * list string) :=
  match fuel with
  | O => out
  | S n =>
      let inspected := dataType :: inspected in
      (fix each (fs : list string) (selected : value) : M ajax (value * list string) :=
        match fs with
        | [] => mret (selected, inspected)
        | f :: fs' =>
            x ← call_hook f;
            match x, seekingTransport with
            | VStr t, false =>
                if bool_decide (t ∈ inspected) then each fs' selected
                else
                  on_req (λ r, up_types (t :: r_types r) r);;
                  r ← inspect out structure seekingTransport n t inspected;
                  mret (selected, r.2)
            | _, true => if truthy x then mret (x, inspected) else each fs' x
            | _, false => each fs' selected
            end
        end) (or_list (assoc dataType structure)) VUndef
  end.

Definition inspectPrefiltersOrTransports (structure : registry) (seekingTransport : bool) : M ajax value :=
  types ← asks r_types;
  let fuel := S (length structure) in
  let out := raise (Raised "inspection without end") in
  r ← inspect out structure seekingTransport fuel (default "undefined" (head types)) [];
  if truthy r.1 then mret r.1
  else if bool_decide ("*" ∈ r.2) then mret (VBool false)
  else r' ← inspect out structure seekingTransport fuel "*" r.2; mret r'.1.

(** ** Preparing a request *)

(** [s.type = options.method || options.type || s.method || s.type] *)
Definition request_type (options s : value) : res value :=
  om ← get options "method"; ot ← get options "type"; sm ← get s "method"; st ← get s "type";
  Ret (if truthy om then om else if truthy ot then ot else if truthy sm then sm else st).

Definition data_types (dataType : value) : res (list string) :=
  t ← trim (if truthy dataType then dataType else VStr "*");
  Ret (match createOptions (lower t) with [] => [""] | l => l end).

Definition is_null (v : value) : bool := match v with VUndef | VNull => true | _ => false end.

Definition normalize_request (url : value) : M ajax unit :=
  options ← asks r_options;
  s ← asks r_s;
  su ← setting "url";
  u ← lift (request_url ajaxLocation url su);
  set_setting "url" (VStr u);;
  t ← lift (request_type options s);
  set_setting "type" t;;
  d ← setting "dataType";
  types ← lift (data_types d);
  on_req (up_types types);;
  cross ← setting "crossDomain";
  (if is_null cross then set_setting "crossDomain" (VBool (cross_domain ajaxLocation u)) else mret tt);;
  data ← setting "data";
  process ← setting "processData";
  traditional ← setting "traditional";
  if truthy data && truthy process && negb (String.eqb (typeof data) "string") then
    q ← lift (request_data ajaxSettings call data traditional);
    set_setting "data" (VStr q)
  else mret tt.

(** A request more in progress, if it is to fire global events. *)
Definition announce_request : M ajax unit :=
  g ← setting "global";
  on_req (up_fireGlobals (truthy g));;
  if truthy g then
    n ← gets (λ a, g_active (a_shared a));
    on_shared (up_active (n + 1));;
    if (n =? 0)%Z : bool then tell [Triggers "ajaxStart"] else mret tt
  else mret tt.

Definition del_prop (k : string) (v : value) : value :=
  match v with VObj a ps => VObj a (List.filter (λ kv, negb (String.eqb kv.1 k)) ps) | _ => v end.

(** The separator in front of a further parameter. *)
Definition query_sep (url : string) : string := if has_char "?" url then "&" else "?".

Definition anti_cache (nonce : Z) (url : string) : string :=
  if matches 2 rts url then replace_match 2 rts (λ cs, default "" (mjoin (cs !! 1)) +:+ "_=" +:+ dec_of_Z nonce) url
  else url +:+ query_sep url +:+ "_=" +:+ dec_of_Z nonce.

Definition has_content (type : string) : bool := negb (String.eqb type "GET" || String.eqb type "HEAD").

(** The data of a request without content goes to its address. *)
Definition data_to_url : M ajax unit :=
  url ← asks r_cacheURL;
  data ← setting "data";
  if truthy data then
    d ← lift (to_string data);
    let u := url +:+ query_sep url +:+ d in
    on_req (up_cacheURL u);; set_setting "url" (VStr u);; on_req (λ r, up_s (del_prop "data" (r_s r)) r)
  else mret tt.

Definition add_anti_cache : M ajax unit :=
  cache ← setting "cache";
  match cache with
  | VBool false =>
      url ← asks r_cacheURL;
      n ← gets (λ a, g_nonce (a_shared a));
      on_shared (up_nonce (n + 1));;
      set_setting "url" (VStr (anti_cache n url))
  | _ => mret tt
  end.

Definition set_type_and_url : M ajax unit :=
  type ← setting "type";
  t ← lift (text_of type);
  set_setting "type" (VStr (upper t));;
  set_setting "hasContent" (VBool (has_content (upper t)));;
  url ← setting "url";
  u ← lift (to_string url);
  on_req (up_cacheURL u);;
  if has_content (upper t) then mret tt else data_to_url;; add_anti_cache.

Definition set_conditional_headers : M ajax unit :=
  m ← setting "ifModified";
  if truthy m then
    url ← asks r_cacheURL;
    g ← gets a_shared;
    (match assoc url (g_lastModified g) with Some t => if String.eqb t "" then mret tt else setRequestHeader "If-Modified-Since" (VStr t) | None => mret tt end);;
    match assoc url (g_etag g) with Some t => if String.eqb t "" then mret tt else setRequestHeader "If-None-Match" (VStr t) | None => mret tt end
  else mret tt.

Definition set_content_type : M ajax unit :=
  options ← asks r_options;
  data ← setting "data";
  has ← setting "hasContent";
  ct ← setting "contentType";
  own ← lift (get options "contentType");
  if truthy data && truthy has && negb (match ct with VBool false => true | _ => false end) || truthy own then
    setRequestHeader "Content-Type" ct
  else mret tt.

Definition accept_of (accepts : value) (types : list string) : res value :=
  let t := default "" (head types) in
  a ← get accepts t;
  if negb (String.eqb t "") && truthy a then js_add a (VStr (if String.eqb t "*" then "" else ", " +:+ allTypes +:+ "; q=0.01"))
  else get accepts "*".

Fixpoint set_headers (ps : list (string * value)) : M ajax unit :=
  match ps with [] => mret tt | (n, v) :: ps' => setRequestHeader n v;; set_headers ps' end.

Definition set_all_headers : M ajax unit :=
  set_conditional_headers;;
  set_content_type;;
  accepts ← setting "accepts";
  types ← asks r_types;
  a ← lift (accept_of accepts types);
  setRequestHeader "Accept" a;;
  h ← setting "headers";
  set_headers (own_props h).

(** ** Sending *)

(** [transport.send(requestHeaders, done)]; a transport may answer at once. *)
Definition transport_send : M ajax unit :=
  t ← asks r_transport;
  match t with
  | VFun name =>
      s ← asks r_s;
      h ← asks r_headers;
      tell [Sends name s h];;
      (match (sends name s h).1 with Some an => answered an | None => mret tt end);;
      match (sends name s h).2 with Some e => raise e | None => mret tt end
  | _ => raise TypeError
  end.

Definition start_timeout : M ajax unit :=
  async ← setting "async";
  if truthy async then
    timeout ← setting "timeout";
    n ← lift (to_primitive timeout);
    if num_ltb (num_of_Z 0) (prim_to_num n) then on_req (up_timer true) else mret tt
  else mret tt.

(** The handlers of [ajaxSend] are functions of the page too. *)
Definition trigger_send : M ajax unit :=
  g ← asks r_fireGlobals;
  if g : bool then tell [Triggers "ajaxSend"];; call_hook "ajaxSend";; mret tt else mret tt.

Definition dispatch (transport : value) : M ajax unit :=
  on_req (up_transport transport);;
  if truthy transport then
    on_req (up_ready 1);;
    trigger_send;;
    start_timeout;;
    on_req (up_state 1);;
    try_catch transport_send (λ e,
      st ← asks r_state;
      if (st <? 2)%nat : bool then xhr_done (-1) (inr e) None "" else raise e)
  else xhr_done (-1) (inl (VStr "No Transport")) None "".

(** [s.beforeSend]; the result says whether to go on. *)
Definition call_beforeSend : M ajax bool :=
  f ← setting "beforeSend";
  if truthy f then
    x ← match f with VFun name => call_hook name | _ => raise TypeError end;
    st ← asks r_state;
    mret (negb (match x with VBool false => true | _ => false end || (st =? 2)%nat))
  else mret true.

Definition install_callbacks : M ajax unit :=
  success ← setting "success";
  xhr_add Resolve success;;
  error ← setting "error";
  xhr_add Reject error;;
  complete ← setting "complete";
  xhr_complete complete.

(** [jQuery.ajax(url, options)], once the settings are made. *)
Definition ajax_body (url : value) : M ajax unit :=
  codes ← setting "statusCode";
  on_req (up_statusCode (if truthy codes then codes else VObj false []));;
  normalize_request url;;
  inspectPrefiltersOrTransports prefilters false;;
  st ← asks r_state;
  if (st =? 2)%nat : bool then mret tt else
  announce_request;;
  set_type_and_url;;
  set_all_headers;;
  go ← call_beforeSend;
  if negb go then xhr_abort VUndef else
  on_req (up_strAbort "abort");;
  install_callbacks;;
  transport ← inspectPrefiltersOrTransports transports true;
  dispatch transport.

(** The arguments: the address may be left out. *)
Definition ajax_args (url options : value) : value * value :=
  let '(u, o) := if String.eqb (typeof url) "object" then (VUndef, url) else (url, options) in
  (u, if truthy o then o else VObj false []).

(** ** The page *)

Record page := { p_shared : shared; p_requests : list ajax_request }.

Inductive ajax_event :=
| EvAjax (url options : value)
| EvAnswer (i : nat) (an : answer)      (* the transport calls [done] *)
| EvTimeout (i : nat)
| EvCall (i : nat) (op : xhr_op).       (* the page calls a method of [jqXHR] *)

(** A computation on the request number [i]. *)
Definition on_request (i : nat) (m : M ajax unit) (p : page) : res unit * page :=
  match p_requests p !! i with
  | None => (Ret tt, p)
  | Some r =>
      let '(x, a) := m {| a_req := r; a_shared := p_shared p |} in
      (x, {| p_shared := a_shared a; p_requests := <[i := a_req a]> (p_requests p) |})
  end.

Definition timeout_fires : M ajax unit :=
  b ← asks r_timer;
  if b : bool then on_req (up_timer false);; xhr_abort (VStr "timeout") else mret tt.

Definition page_step (ev : ajax_event) (p : page) : res unit * page :=
  match ev with
  | EvAjax url options =>
      let '(u, o) := ajax_args url options in
      match ajaxSetup ajaxSettings (VObj false []) o with
      | Throw e => (Throw e, p)
      | Ret s => on_request (length (p_requests p)) (ajax_body u)
                   {| p_shared := p_shared p; p_requests := p_requests p ++ [new_request o s] |}
      end
  | EvAnswer i an => on_request i (answered an) p
  | EvTimeout i => on_request i timeout_fires p
  | EvCall i op => on_request i (run_op op) p
  end.

(** The results of the steps, and the page at the end. *)
Fixpoint run_page (evs : list ajax_event) (p : page) : list (res unit) * page :=
  match evs with
  | [] => ([], p)
  | ev :: evs' => let '(x, p1) := page_step ev p in let '(xs, p2) := run_page evs' p1 in (x :: xs, p2)
  end.
End ajax.

Definition new_page (nonce : Z) : page :=
  {| p_shared := {| g_active := 0; g_lastModified := []; g_etag := []; g_nonce := nonce; g_log := [] |}; p_requests := [] |}.

(** ** Shorthands *)

(** The options that [jQuery.get] and [jQuery.post] give to [jQuery.ajax]. *)
Definition shorthand (method : string) (url data callback type : value) : value :=
  let '(data, callback, type) :=
    if isFunction data then (VUndef, data, if truthy type then type else callback) else (data, callback, type) in
  VObj false [("url", url); ("type", VStr method); ("dataType", type); ("data", data); ("success", callback)].
Definition getScript (url callback : value) : value := shorthand "get" url VUndef callback (VStr "script").
Definition getJSON (url data callback : value) : value := shorthand "get" url data callback (VStr "json").
