(* ===== verification/AjaxFacts.v ===== *)
(** * Requests end once, and are counted (about Ajax)

    Whatever the page and the transports do, a request that is over stays over:
    its deferred object is settled exactly when [state] is 2, and [jQuery.active] is
    the number of requests that are announced and not over.  Shown by following
    the few variables that matter ([view]) through the code. *)

From Stdlib Require Import SpecFloat.
From S2P Require Import Prelude JSNum JSValue JSON NodeUrl Regex JQueryCore JQueryParam Forms JQueryDeferred DeferredFacts AjaxSubmit AjaxBase Ajax.

Definition pending (p : promise) : bool := match p with Pending _ _ _ _ => true | Settled _ _ _ => false end.

(** How many more times [ajaxStart] was triggered than [ajaxStop]. *)
Definition start_stop (e : ajax_effect) : Z :=
  match e with
  | Triggers t => if String.eqb t "ajaxStart" then 1 else if String.eqb t "ajaxStop" then -1 else 0
  | _ => 0
  end.
Definition balance (l : list ajax_effect) : Z := foldr (λ e n, start_stop e + n)%Z 0%Z l.

Record view := { w_state : nat; w_global : bool; w_active : Z; w_balance : Z; w_deferred : bool; w_complete : bool }.

Definition view_of (a : ajax) : view :=
  {| w_state := r_state (a_req a); w_global := r_fireGlobals (a_req a); w_active := g_active (a_shared a);
     w_balance := balance (g_log (a_shared a)); w_deferred := pending (r_deferred (a_req a)); w_complete := pending (r_complete (a_req a)) |}.

(** What [done] does to it. *)
Definition end_view (v : view) : view :=
  if (w_state v =? 2)%nat then v
  else {| w_state := 2; w_global := w_global v; w_active := if w_global v then w_active v - 1 else w_active v;
          w_balance := if w_global v && (w_active v =? 1)%Z then w_balance v - 1 else w_balance v; w_deferred := false; w_complete := false |}.

Lemma end_view_idem v : end_view (end_view v) = end_view v.
Proof. unfold end_view. destruct (w_state v =? 2)%nat eqn:E; [by rewrite E|done]. Qed.

Lemma balance_app l l' : balance (l ++ l') = (balance l + balance l')%Z.
Proof. induction l as [|e l IH]; [done|]. change (balance ((e :: l) ++ l')) with (start_stop e + balance (l ++ l'))%Z.
  rewrite IH. unfold balance. cbn [foldr]. lia. Qed.
Lemma balance_calls (cs : list (nat * args)) : balance ((λ fa, Calls fa.1 fa.2) <$> cs) = 0%Z.
Proof. induction cs as [|c cs IH]; [done|]. cbn [fmap list_fmap balance foldr start_stop]. exact IH. Qed.

(** ** Computations that leave the view alone *)

(** [m] does not change what [proj] shows of the state. *)
Definition frame {T A} (proj : ajax → T) (m : M ajax A) : Prop := ∀ a, proj (m a).2 = proj a.

Lemma frame_bind {T A B} (proj : ajax → T) (m : M ajax A) (k : A → M ajax B) : frame proj m → (∀ x, frame proj (k x)) → frame proj (m ≫= k).
Proof.
  intros Hm Hk a. unfold mbind, M_bind. specialize (Hm a). destruct (m a) as [[x|e] a1]; cbn [snd] in *; [|done].
  rewrite <- Hm. apply Hk.
Qed.

Definition still {A} (m : M ajax A) : Prop := frame view_of m.

(** Or that may end the request, when they return; an exception leaves it as it was or ended. *)
Definition settles {A} (m : M ajax A) : Prop := ∀ a, match m a with
  | (Ret _, a') => view_of a' = view_of a ∨ view_of a' = end_view (view_of a)
  | (Throw _, a') => view_of a' = view_of a ∨ r_state (a_req a') = 2
  end.

Lemma still_ret {A} (x : A) : still (mret x).
Proof. by intros a. Qed.
Lemma still_lift {A} (x : res A) : still (lift x).
Proof. by intros a. Qed.
Lemma still_raise {A} e : still (raise e : M ajax A).
Proof. by intros a. Qed.
Lemma still_gets {A} (f : ajax → A) : still (gets f).
Proof. by intros a. Qed.
Lemma still_bind {A B} (m : M ajax A) (k : A → M ajax B) : still m → (∀ x, still (k x)) → still (m ≫= k).
Proof. apply frame_bind. Qed.
Lemma still_req f : (∀ r, r_state (f r) = r_state r ∧ r_fireGlobals (f r) = r_fireGlobals r ∧ r_deferred (f r) = r_deferred r ∧ r_complete (f r) = r_complete r) →
  still (on_req f).
Proof. intros H [r g]. destruct (H r) as (E1 & E2 & E3 & E4). unfold on_req, modify, view_of. cbn [snd a_req a_shared]. by rewrite E1, E2, E3, E4. Qed.
Lemma still_shared f : (∀ g, g_active (f g) = g_active g ∧ balance (g_log (f g)) = balance (g_log g)) → still (on_shared f).
Proof. intros H [r g]. destruct (H g) as (E1 & E2). unfold on_shared, modify, view_of. cbn [snd a_req a_shared]. by rewrite E1, E2. Qed.
Lemma still_tell l : balance l = 0%Z → still (tell l).
Proof. intros H. apply still_shared. intros g. split; [done|]. cbn [up_log g_log]. rewrite balance_app. lia. Qed.

Lemma still_setting k : still (setting k).
Proof. apply still_bind; [apply still_gets|]. intros. apply still_lift. Qed.
Lemma still_set_setting k v : still (set_setting k v).
Proof. by apply still_req. Qed.

Create HintDb still.
#[export] Hint Resolve still_ret still_lift still_raise still_gets still_setting still_set_setting : still.

Ltac stilly :=
  repeat first
    [ progress (eauto with still; fail)
    | progress intros
    | apply still_bind
    | apply still_req; by intros
    | apply still_tell; done
    | apply still_gets
    | case_match ].

Lemma pending_register p a f : pending (promise_step p (Register a f)).1 = pending p.
Proof. by destruct p, a. Qed.

(** ** Pages *)

(** Announced and not over. *)
Definition in_progress (r : ajax_request) : bool := r_fireGlobals r && negb (r_state r =? 2)%nat.
Definition progress_count (rs : list ajax_request) : Z := Z.of_nat (length (List.filter in_progress rs)).

(** Settled exactly when it is over. *)
Definition settled_when_over (r : ajax_request) : Prop :=
  pending (r_deferred r) = negb (r_state r =? 2)%nat ∧ pending (r_complete r) = negb (r_state r =? 2)%nat.

Definition started (n : Z) : Z := if (n =? 0)%Z then 0 else 1.

Definition page_ok (p : page) : Prop :=
  g_active (p_shared p) = progress_count (p_requests p) ∧
  balance (g_log (p_shared p)) = started (progress_count (p_requests p)) ∧
  Forall settled_when_over (p_requests p).

Definition weight (r : ajax_request) : Z := if in_progress r then 1 else 0.

Lemma progress_cons r rs : progress_count (r :: rs) = (weight r + progress_count rs)%Z.
Proof. unfold progress_count, weight. cbn [List.filter]. destruct (in_progress r); cbn [length]; lia. Qed.
Lemma progress_app rs rs' : progress_count (rs ++ rs') = (progress_count rs + progress_count rs')%Z.
Proof. unfold progress_count. rewrite List.filter_app, length_app. lia. Qed.
Lemma progress_pos rs : (0 <= progress_count rs)%Z.
Proof. unfold progress_count. lia. Qed.
(** The others, when one request is set aside. *)
Lemma progress_insert rs i r r' : rs !! i = Some r →
  (weight r <= progress_count rs ∧ progress_count (<[i := r']> rs) = progress_count rs - weight r + weight r')%Z.
Proof.
  intros H. assert (progress_count rs = progress_count (take i rs) + (weight r + progress_count (drop (S i) rs)))%Z as ->.
  { by rewrite <- progress_cons, <- progress_app, take_drop_middle. }
  rewrite insert_take_drop by (by eapply lookup_lt_Some). rewrite progress_app, progress_cons.
  pose proof (progress_pos (take i rs)). pose proof (progress_pos (drop (S i) rs)). lia.
Qed.

Section facts.
Context (fn_id : string → nat).
Context (hook : string → value → list string → hooked).
Context (sends : string → value → headers → option answer * option exn).
Context (aborts : string → option answer).
Context (prefilters transports : registry).
Context (ajaxSettings : value) (ajaxLocation : string).
Context (apply : string → list value → res value).
Context (test : string → string → bool).
Context (call : string → value).

Abbreviation step := (page_step fn_id hook sends aborts prefilters transports ajaxSettings ajaxLocation apply test call).
Abbreviation run := (run_page fn_id hook sends aborts prefilters transports ajaxSettings ajaxLocation apply test call).

Lemma still_register a f : still (on_deferred (Register a f)).
Proof.
  intros [r g]. unfold on_deferred, mbind, M_bind, asks, gets, on_req, tell, on_shared, modify, view_of. cbn [snd a_req a_shared up_deferred up_log g_log g_active r_state r_fireGlobals r_deferred r_complete].
  by rewrite pending_register, balance_app, balance_calls, Z.add_0_r.
Qed.
Lemma still_register_complete f : still (on_complete (Register Resolve f)).
Proof.
  intros [r g]. unfold on_complete, mbind, M_bind, asks, gets, on_req, tell, on_shared, modify, view_of. cbn [snd a_req a_shared up_complete up_log g_log g_active r_state r_fireGlobals r_deferred r_complete].
  by rewrite pending_register, balance_app, balance_calls, Z.add_0_r.
Qed.
Hint Resolve still_register still_register_complete : still.

Lemma still_each m fs : (∀ f, still (m f)) → still (each_fn fn_id m fs).
Proof. intros H. induction fs as [|f fs IH]; cbn [each_fn]; [apply still_ret|]. apply still_bind; [apply H|by intros]. Qed.
Lemma still_add a v : still (xhr_add fn_id a v).
Proof. apply still_each. auto with still. Qed.
Lemma still_complete v : still (xhr_complete fn_id v).
Proof. apply still_each. auto with still. Qed.
Hint Resolve still_add still_complete : still.
Lemma still_always v : still (xhr_always fn_id v).
Proof. unfold xhr_always. stilly. Qed.
Hint Resolve still_always : still.

Lemma still_codes ps : still (add_codes ps).
Proof. induction ps as [|[c f] ps IH]; cbn [add_codes]; stilly. Qed.
Hint Resolve still_codes : still.
Lemma still_statusCode v : still (statusCode fn_id v).
Proof. unfold statusCode. stilly. Qed.
Lemma still_header n v : still (setRequestHeader n v).
Proof. unfold setRequestHeader. stilly. Qed.
Lemma still_mime v : still (overrideMimeType v).
Proof. unfold overrideMimeType. stilly. Qed.
Lemma still_response_header k : still (getResponseHeader k).
Proof. unfold getResponseHeader. stilly. Qed.
Hint Resolve still_statusCode still_header still_mime still_response_header : still.
Lemma still_responses rs : still (read_responses test rs).
Proof. unfold read_responses. stilly. Qed.
Lemma still_modified : still remember_modified.
Proof. unfold remember_modified. stilly. apply still_shared. done. Qed.
Hint Resolve still_responses still_modified : still.
Lemma still_judge status n x : still (judge apply status n x).
Proof. unfold judge. stilly. Qed.
Hint Resolve still_judge : still.

(** ** The end of a request *)

(** A computation that changes the view by [f]; exceptions keep [state]. *)
Definition moves {A} (f : view → view) (m : M ajax A) : Prop := ∀ a, match m a with
  | (Ret _, a') => view_of a' = f (view_of a)
  | (Throw _, a') => r_state (a_req a') = r_state (a_req a)
  end.

Lemma moves_still {A} (m : M ajax A) : still m → moves (λ v, v) m.
Proof. intros H a. specialize (H a). destruct (m a) as [[x|e] a']; cbn [snd] in H; [done|]. by apply (f_equal w_state) in H. Qed.
Lemma moves_bind {A B} f g (m : M ajax A) (k : A → M ajax B) :
  (∀ v, w_state (f v) = w_state v) → moves f m → (∀ x, moves g (k x)) → moves (λ v, g (f v)) (m ≫= k).
Proof.
  intros Hf Hm Hk a. unfold mbind, M_bind. specialize (Hm a). destruct (m a) as [[x|e] a1]; [|done].
  specialize (Hk x a1). destruct (k x a1) as [[y|e] a2].
  - by rewrite Hk, Hm.
  - rewrite Hk. apply (f_equal w_state) in Hm. rewrite Hf in Hm. exact Hm.
Qed.
Lemma moves_ext {A} f g (m : M ajax A) : (∀ v, f v = g v) → moves f m → moves g m.
Proof. intros E H a. specialize (H a). destruct (m a) as [[x|e] a']; [|done]. by rewrite <- E. Qed.

Definition v_settled (v : view) : view :=
  {| w_state := w_state v; w_global := w_global v; w_active := w_active v; w_balance := w_balance v; w_deferred := false; w_complete := w_complete v |}.
Definition v_completed (v : view) : view :=
  {| w_state := w_state v; w_global := w_global v; w_active := w_active v; w_balance := w_balance v; w_deferred := w_deferred v; w_complete := false |}.
Definition v_less (v : view) : view :=
  {| w_state := w_state v; w_global := w_global v; w_active := w_active v - 1;
     w_balance := if (w_active v =? 1)%Z then w_balance v - 1 else w_balance v; w_deferred := w_deferred v; w_complete := w_complete v |}.

Lemma pending_act p a x : a ≠ Notify → pending (promise_step p (Act a x)).1 = false.
Proof. by destruct p, a. Qed.

Lemma moves_act a x : a ≠ Notify → moves v_settled (on_deferred (Act a x)).
Proof.
  intros Ha [r g]. unfold on_deferred, mbind, M_bind, asks, gets, on_req, tell, on_shared, modify, view_of, v_settled.
  cbn [a_req a_shared up_deferred up_log g_log g_active r_state r_fireGlobals r_deferred r_complete w_state w_global w_active w_balance w_complete].
  by rewrite pending_act, balance_app, balance_calls, Z.add_0_r.
Qed.
Lemma moves_act_complete x : moves v_completed (on_complete (Act Resolve x)).
Proof.
  intros [r g]. unfold on_complete, mbind, M_bind, asks, gets, on_req, tell, on_shared, modify, view_of, v_completed.
  cbn [a_req a_shared up_complete up_log g_log g_active r_state r_fireGlobals r_deferred r_complete w_state w_global w_active w_balance w_deferred].
  by rewrite pending_act, balance_app, balance_calls, Z.add_0_r.
Qed.
Lemma moves_less : moves v_less one_request_less.
Proof.
  intros [r g]. unfold one_request_less, mbind, M_bind, gets, tell, on_shared, modify.
  cbn [a_req a_shared up_active up_log g_log g_active].
  destruct (g_active g - 1 =? 0)%Z eqn:E; unfold mret, M_ret, view_of, v_less;
    cbn [a_req a_shared up_active up_log g_log g_active w_state w_global w_active w_balance w_deferred w_complete];
    rewrite !balance_app; [replace (g_active g =? 1)%Z with true by lia|replace (g_active g =? 1)%Z with false by lia]; f_equal; cbn; lia.
Qed.

(** A step that leaves the view alone, in front of others. *)
Lemma moves_after {A B} f (m : M ajax A) (k : A → M ajax B) : still m → (∀ x, moves f (k x)) → moves f (m ≫= k).
Proof. intros Hm Hk. apply (moves_bind (λ v, v) f); [done|by apply moves_still|done]. Qed.
Lemma moves_global {B} f (k : bool → M ajax B) : (∀ b, moves (f b) (k b)) → moves (λ v, f (w_global v) v) (asks r_fireGlobals ≫= k).
Proof. intros Hk a. exact (Hk (r_fireGlobals (a_req a)) a). Qed.

Definition v_reported (v : view) : view :=
  if w_global v then v_less (v_completed (v_settled v)) else v_completed (v_settled v).

Lemma moves_report v : moves v_reported (report_verdict fn_id v).
Proof.
  unfold report_verdict. eapply moves_ext; cycle 1.
  - apply (moves_bind v_settled); [done| |].
    { destruct (v_ok v); by apply moves_act. }
    intros _. apply moves_after; [apply still_gets|]. intros codes. apply moves_after; [apply still_statusCode|]. intros _.
    apply moves_after; [by apply still_req|]. intros _. apply (moves_global (λ b w, if b then v_less (v_completed w) else v_completed w)).
    intros b. apply moves_after.
    { destruct b; [|apply still_ret]. apply still_tell. by destruct (v_ok v). }
    intros _. eapply moves_ext; cycle 1.
    + apply (moves_bind v_completed (if b then v_less else λ w, w)); [done|apply moves_act_complete|].
      intros _. destruct b; [apply moves_less|apply moves_still, still_ret].
    + by destruct b.
  - done.
Qed.

Lemma done_ends status n rs hs a :
  match xhr_done fn_id apply test status n rs hs a with
  | (Ret _, a') => view_of a' = end_view (view_of a)
  | (Throw _, a') => r_state (a_req a') = 2
  end.
Proof.
  unfold xhr_done, mbind at 1, M_bind at 1, asks, gets. cbn beta iota.
  destruct (r_state (a_req a) =? 2)%nat eqn:Est.
  { unfold end_view. change (w_state (view_of a)) with (r_state (a_req a)). by rewrite Est. }
  unfold mbind at 1, M_bind at 1, on_req at 1, modify at 1. cbn beta iota.
  set (a1 := {| a_req := _; a_shared := _ |}).
  assert (moves v_reported (response ← read_responses test rs; v ← judge apply status n response; t ← lift (xhr_text n v);
    on_req (up_status (v_status v) t);; report_verdict fn_id v)) as H.
  { apply moves_after; [apply still_responses|]. intros x. apply moves_after; [apply still_judge|]. intros v.
    apply moves_after; [apply still_lift|]. intros t. apply moves_after; [by apply still_req|]. intros _. apply moves_report. }
  specialize (H a1). match goal with |- context [mbind ?f ?m a1] => destruct (mbind f m a1) as [[x|e] a2] end; [|by rewrite H].
  rewrite H. assert (view_of a1 = {| w_state := 2; w_global := w_global (view_of a); w_active := w_active (view_of a);
    w_balance := w_balance (view_of a); w_deferred := w_deferred (view_of a); w_complete := w_complete (view_of a) |}) as -> by reflexivity.
  unfold end_view. change (w_state (view_of a)) with (r_state (a_req a)). rewrite Est.
  destruct (view_of a) as [? [] ????]; reflexivity.
Qed.

Lemma settles_done status n rs hs : settles (xhr_done fn_id apply test status n rs hs).
Proof. intros a. pose proof (done_ends status n rs hs a) as H. destruct (xhr_done _ _ _ _ _ _ _ a) as [[x|e] a']; by right. Qed.

(** ** Methods and functions of the page *)

Lemma settles_still {A} (m : M ajax A) : still m → settles m.
Proof. intros H a. specialize (H a). destruct (m a) as [[x|e] a']; by left. Qed.
Lemma end_view_state v : w_state (end_view v) = 2.
Proof. unfold end_view. destruct (w_state v =? 2)%nat eqn:E; [|done]. by apply Nat.eqb_eq. Qed.
Lemma settles_bind {A B} (m : M ajax A) (k : A → M ajax B) : settles m → (∀ x, settles (k x)) → settles (m ≫= k).
Proof.
  intros Hm Hk a. unfold mbind, M_bind. specialize (Hm a). destruct (m a) as [[x|e] a1]; [|done].
  specialize (Hk x a1). destruct (k x a1) as [[y|e] a2].
  - destruct Hm as [Hm|Hm]; rewrite Hm in Hk; [done|]. rewrite end_view_idem in Hk. by destruct Hk; right.
  - destruct Hk as [Hk|Hk]; [|by right]. destruct Hm as [Hm|Hm]; [left; by rewrite Hk|].
    right. change (w_state (view_of a2) = 2). by rewrite Hk, Hm, end_view_state.
Qed.

Lemma settles_answered an : settles (answered fn_id apply test an).
Proof. apply settles_done. Qed.
Lemma settles_transport_abort final tr : settles (if truthy tr then
     match tr with
     | VFun name => tell [Aborts name final];; match aborts name with Some an => answered fn_id apply test an | None => mret tt end
     | _ => raise TypeError
     end
   else mret tt).
Proof.
  destruct (truthy tr); [|apply settles_still, still_ret].
  destruct tr; try (apply settles_still, still_raise).
  apply settles_bind; [by apply settles_still, still_tell|]. intros _.
  case_match; [apply settles_answered|apply settles_still, still_ret].
Qed.
Lemma settles_abort t : settles (xhr_abort fn_id aborts apply test t).
Proof.
  unfold xhr_abort. apply settles_bind; [apply settles_still, still_gets|]. intros str.
  apply settles_bind; [apply settles_still, still_gets|]. intros tr.
  apply settles_bind; [apply settles_transport_abort|intros; apply settles_done].
Qed.

Definition is_abort (op : xhr_op) : bool := match op with Abort _ => true | _ => false end.

Lemma still_op op : is_abort op = false → still (run_op fn_id aborts apply test op).
Proof. destruct op; intros H; try done; cbn [run_op]; auto with still. Qed.
Lemma settles_op op : settles (run_op fn_id aborts apply test op).
Proof.
  destruct (is_abort op) eqn:E; [|by apply settles_still, still_op].
  destruct op; try done. apply settles_abort.
Qed.
Lemma still_ops ops : Forall (λ op, is_abort op = false) ops → still (run_ops fn_id aborts apply test ops).
Proof.
  induction 1 as [|op ops Hop _ IH]; cbn [run_ops]; [apply still_ret|]. apply still_bind; [by apply still_op|done].
Qed.
Lemma settles_ops ops : settles (run_ops fn_id aborts apply test ops).
Proof.
  induction ops as [|op ops IH]; cbn [run_ops]; [apply settles_still, still_ret|]. apply settles_bind; [apply settles_op|done].
Qed.

(** A function that never aborts the request. *)
Definition never_aborts (f : string) : Prop := ∀ s types, Forall (λ op, is_abort op = false) (k_ops (hook f s types)).

Lemma settles_hook f : settles (call_hook fn_id hook aborts apply test f).
Proof.
  unfold call_hook. repeat (apply settles_bind; [by apply settles_still, still_gets|intros ?]).
  apply settles_bind; [by apply settles_still, still_req|intros _].
  apply settles_bind; [apply settles_ops|intros _]. apply settles_still, still_lift.
Qed.
Lemma still_hook f : never_aborts f → still (call_hook fn_id hook aborts apply test f).
Proof.
  intros H. unfold call_hook. repeat (apply still_bind; [by apply still_gets|intros ?]).
  apply still_bind; [by apply still_req|intros _].
  apply still_bind; [by apply still_ops|intros _]. apply still_lift.
Qed.

Lemma settles_inspect out structure b n : settles out → ∀ dt ins, settles (inspect fn_id hook aborts apply test out structure b n dt ins).
Proof.
  intros Hout. induction n as [|n IH]; intros dt ins; cbn [inspect]; [done|].
  generalize (or_list (assoc dt structure)) VUndef. intros fs. induction fs as [|f fs IHf]; intros sel; [apply settles_still, still_ret|].
  apply settles_bind; [apply settles_hook|]. intros x.
  destruct x, b; try apply IHf; try (case_match; [apply settles_still, still_ret|apply IHf]).
  case_bool_decide; [apply IHf|]. apply settles_bind; [by apply settles_still, still_req|]. intros _.
  apply settles_bind; [apply IH|]. intros. apply settles_still, still_ret.
Qed.
Lemma settles_inspection structure b : settles (inspectPrefiltersOrTransports fn_id hook aborts apply test structure b).
Proof.
  unfold inspectPrefiltersOrTransports. apply settles_bind; [apply settles_still, still_gets|]. intros types.
  apply settles_bind; [apply settles_inspect, settles_still, still_raise|]. intros [sel ins]. cbn [fst snd].
  repeat case_match; try apply settles_still, still_ret. apply settles_bind; [apply settles_inspect, settles_still, still_raise|]. intros. apply settles_still, still_ret.
Qed.

(** The functions registered in a table. *)
Definition quiet_table (structure : registry) : Prop := Forall (λ tf, Forall never_aborts tf.2) structure.

Lemma quiet_at structure dt : quiet_table structure → Forall never_aborts (or_list (assoc dt structure)).
Proof.
  induction 1 as [|[t fs] l Hfs _ IH]; [by constructor|]. cbn [assoc]. by destruct (String.eqb dt t).
Qed.
Lemma still_inspect out structure b n : still out → quiet_table structure →
  ∀ dt ins, still (inspect fn_id hook aborts apply test out structure b n dt ins).
Proof.
  intros Hout Hq. induction n as [|n IH]; intros dt ins; cbn [inspect]; [done|].
  pose proof (quiet_at _ dt Hq) as Hfs. revert Hfs.
  generalize (or_list (assoc dt structure)) VUndef. intros fs sel Hfs. revert sel.
  induction Hfs as [|f fs Hf _ IHf]; intros sel; [apply still_ret|].
  apply still_bind; [by apply still_hook|]. intros x.
  destruct x, b; try apply IHf; try (case_match; [apply still_ret|apply IHf]).
  case_bool_decide; [apply IHf|]. apply still_bind; [by apply still_req|]. intros _.
  apply still_bind; [apply IH|]. intros. apply still_ret.
Qed.
Lemma still_inspection structure b : quiet_table structure → still (inspectPrefiltersOrTransports fn_id hook aborts apply test structure b).
Proof.
  intros Hq. unfold inspectPrefiltersOrTransports. apply still_bind; [apply still_gets|]. intros types.
  apply still_bind; [by apply still_inspect; [apply still_raise|]|]. intros [sel ins]. cbn [fst snd].
  repeat case_match; try apply still_ret. apply still_bind; [by apply still_inspect; [apply still_raise|]|]. intros. apply still_ret.
Qed.

(** ** From the options to the transport *)

Lemma still_normalize url : still (normalize_request ajaxSettings ajaxLocation call url).
Proof. unfold normalize_request. stilly. Qed.
Lemma still_type_and_url : still set_type_and_url.
Proof.
  unfold set_type_and_url, data_to_url, add_anti_cache. stilly. by apply still_shared.
Qed.
Lemma still_set_headers ps : still (set_headers ps).
Proof. induction ps as [|[n v] ps IH]; cbn [set_headers]; stilly. Qed.
Hint Resolve still_set_headers : still.
Lemma still_all_headers : still set_all_headers.
Proof. unfold set_all_headers, set_conditional_headers, set_content_type. stilly. Qed.
Lemma still_install : still (install_callbacks fn_id).
Proof. unfold install_callbacks. stilly. Qed.
Lemma settles_before : settles (call_beforeSend fn_id hook aborts apply test).
Proof.
  unfold call_beforeSend. apply settles_bind; [apply settles_still, still_setting|]. intros f.
  destruct (truthy f); [|apply settles_still, still_ret].
  apply settles_bind; [destruct f; first [apply settles_hook|apply settles_still, still_raise]|]. intros x.
  apply settles_still. stilly.
Qed.
Lemma still_trigger : never_aborts "ajaxSend" → still (trigger_send fn_id hook aborts apply test).
Proof.
  intros H. unfold trigger_send. apply still_bind; [apply still_gets|]. intros g. destruct g; [|apply still_ret].
  apply still_bind; [by apply still_tell|]. intros _. apply still_bind; [by apply still_hook|]. intros _. apply still_ret.
Qed.
Lemma still_timeout : still start_timeout.
Proof. unfold start_timeout. stilly. Qed.

Lemma bind_returns {A B} (m : M ajax A) (k : A → M ajax B) a y a' :
  (m ≫= k) a = (Ret y, a') → ∃ x a1, m a = (Ret x, a1) ∧ k x a1 = (Ret y, a').
Proof. unfold mbind, M_bind. destruct (m a) as [[x|e] a1]; [eauto|done]. Qed.
Lemma still_returns {A} (m : M ajax A) a x a' : still m → m a = (Ret x, a') → view_of a' = view_of a.
Proof. intros H E. specialize (H a). by rewrite E in H. Qed.
Lemma settles_returns {A} (m : M ajax A) a x a' : settles m → m a = (Ret x, a') → view_of a' = view_of a ∨ view_of a' = end_view (view_of a).
Proof. intros H E. specialize (H a). by rewrite E in H. Qed.

(** A request in progress, and one that is over, on a page with [n] others in progress. *)
Definition v_open (st : nat) (g : bool) (n b : Z) : view :=
  {| w_state := st; w_global := g; w_active := if g then n + 1 else n; w_balance := if g && (n =? 0)%Z then b + 1 else b;
     w_deferred := true; w_complete := true |}.
Definition v_over (g : bool) (n b : Z) : view :=
  {| w_state := 2; w_global := g; w_active := n; w_balance := b; w_deferred := false; w_complete := false |}.

Lemma end_open st g n b : st ≠ 2 → end_view (v_open st g n b) = v_over g n b.
Proof.
  intros H. unfold end_view, v_open, v_over. cbn [w_state w_global w_active w_balance].
  rewrite (proj2 (Nat.eqb_neq st 2) H). destruct g; [|done]. cbn [andb].
  replace (n + 1 =? 1)%Z with (n =? 0)%Z by (destruct (n =? 0)%Z eqn:E; lia). f_equal; [lia|]. destruct (n =? 0)%Z; lia.
Qed.
Lemma end_over g n b : end_view (v_over g n b) = v_over g n b.
Proof. done. Qed.

Lemma announced n b a x a' : view_of a = v_open 0 false n b → announce_request a = (Ret x, a') → ∃ g, view_of a' = v_open 0 g n b.
Proof.
  intros Hv H. unfold announce_request in H. apply bind_returns in H as (v & a1 & H1 & H).
  apply still_returns in H1; [|apply still_setting]. rewrite Hv in H1. exists (truthy v). destruct a1 as [r g].
  unfold view_of, v_open in H1. cbn [a_req a_shared andb] in H1. injection H1 as Hs Hg Ha Hb Hd Hc. revert H.
  unfold mbind, M_bind, on_req, on_shared, tell, on_shared, gets, modify. cbn [a_req a_shared].
  destruct (truthy v); cbn [andb a_req a_shared up_active g_active g_log up_log]; unfold mret, M_ret, view_of, v_open.
  - rewrite Ha. destruct (n =? 0)%Z; intros [= <- <-]; cbn [a_req a_shared andb up_active up_fireGlobals up_log g_active g_log r_state r_fireGlobals r_deferred r_complete];
      rewrite ?balance_app, Hs, Hb, Hd, Hc; done.
  - intros [= <- <-]. cbn [a_req a_shared andb up_fireGlobals r_state r_fireGlobals r_deferred r_complete]. by rewrite Hs, Ha, Hb, Hd, Hc.
Qed.

Lemma settles_transport : settles (transport_send fn_id sends apply test).
Proof.
  unfold transport_send. apply settles_bind; [apply settles_still, still_gets|]. intros t.
  destruct t; try (apply settles_still, still_raise).
  repeat (apply settles_bind; [by apply settles_still, still_gets|intros ?]).
  apply settles_bind; [by apply settles_still, still_tell|intros _].
  apply settles_bind; [case_match; [apply settles_answered|apply settles_still, still_ret]|intros _].
  case_match; [apply settles_still, still_raise|apply settles_still, still_ret].
Qed.

(** In progress or over. *)
Definition fair (n b : Z) (v : view) : Prop := ∃ g, v = v_open 1 g n b ∨ v = v_over g n b.

Lemma sent n b g a x a' : view_of a = v_open 1 g n b →
  try_catch (transport_send fn_id sends apply test) (λ e,
    st ← asks r_state; if (st <? 2)%nat : bool then xhr_done fn_id apply test (-1) (inr e) None "" else raise e) a = (Ret x, a') →
  fair n b (view_of a').
Proof.
  intros Hv. unfold try_catch. pose proof (settles_transport a) as Ht. destruct (transport_send _ _ _ _ a) as [[y|e] a1].
  - intros [= _ <-]. rewrite Hv, end_open in Ht by done. exists g. tauto.
  - unfold mbind, M_bind, asks, gets. destruct (r_state (a_req a1) <? 2)%nat eqn:E; [|done].
    intros H. pose proof (done_ends (-1) (inr e) None "" a1) as Hd. rewrite H in Hd.
    destruct Ht as [Ht|Ht]; [|rewrite Ht in E; done]. rewrite Hd, Ht, Hv, end_open by done. exists g. by right.
Qed.

Lemma up_state_open g n b a : view_of a = v_open 0 g n b → view_of (on_req (up_state 1) a).2 = v_open 1 g n b.
Proof.
  destruct a as [r s]. unfold view_of, v_open. intros [= Hs Hg Ha Hb Hd Hc].
  unfold on_req, modify. cbn [snd a_req a_shared up_state r_state r_fireGlobals r_deferred r_complete]. by rewrite Hg, Ha, Hb, Hd, Hc.
Qed.

Lemma abort_ends t a x a' : xhr_abort fn_id aborts apply test t a = (Ret x, a') → view_of a' = end_view (view_of a).
Proof.
  intros H. unfold xhr_abort in H. apply bind_returns in H as (str & a1 & [= <- <-] & H).
  apply bind_returns in H as (tr & a2 & [= <- <-] & H). apply bind_returns in H as (? & a3 & H3 & H).
  pose proof (done_ends 0 (inl (if truthy t then t else VStr (r_strAbort (a_req a)))) None "" a3) as Hd. rewrite H in Hd.
  rewrite Hd. apply settles_returns in H3 as [H3|H3]; [by rewrite H3|by rewrite H3, end_view_idem|apply settles_transport_abort].
Qed.

Lemma before_goes a a' : call_beforeSend fn_id hook aborts apply test a = (Ret true, a') → r_state (a_req a) ≠ 2 → r_state (a_req a') ≠ 2.
Proof.
  intros H Ha. unfold call_beforeSend in H. apply bind_returns in H as (f & a1 & H1 & H). apply still_returns in H1; [|apply still_setting].
  apply (f_equal w_state) in H1. cbn in H1. destruct (truthy f); [|injection H as <-; by rewrite H1].
  apply bind_returns in H as (x & a2 & _ & H). apply bind_returns in H as (st & a3 & [= <- <-] & H).
  injection H as Hb <-. apply negb_true_iff, orb_false_iff in Hb as [_ Hb]. by apply Nat.eqb_neq.
Qed.

Section quiet.
Context (Hsend : never_aborts "ajaxSend").
Context (Htransports : quiet_table transports).

Lemma dispatched n b g t a x a' : view_of a = v_open 0 g n b → dispatch fn_id hook sends aborts apply test t a = (Ret x, a') →
  fair n b (view_of a').
Proof.
  intros Hv H. unfold dispatch in H. apply bind_returns in H as (? & a1 & H1 & H).
  apply still_returns in H1; [|by apply still_req]. rewrite Hv in H1. destruct (truthy t).
  - apply bind_returns in H as (? & a2 & H2 & H). apply still_returns in H2; [|by apply still_req].
    apply bind_returns in H as (? & a3 & H3 & H). apply still_returns in H3; [|by apply still_trigger].
    apply bind_returns in H as (? & a4 & H4 & H). apply still_returns in H4; [|apply still_timeout].
    apply bind_returns in H as (? & a5 & H5 & H). pose proof (up_state_open g n b a4) as H6. rewrite H5 in H6.
    apply sent with (n := n) (b := b) (g := g) in H; [done|]. apply H6. by rewrite H4, H3, H2.
  - pose proof (done_ends (-1) (inl (VStr "No Transport")) None "" a1) as Hd. rewrite H in Hd.
    rewrite Hd, H1, end_open by done. exists g. by right.
Qed.

Lemma body_fair url n b a x a' : view_of a = v_open 0 false n b →
  ajax_body fn_id hook sends aborts prefilters transports ajaxSettings ajaxLocation apply test call url a = (Ret x, a') → fair n b (view_of a').
Proof.
  intros Hv H. unfold ajax_body in H. apply bind_returns in H as (codes & a1 & H1 & H). apply still_returns in H1; [|apply still_setting].
  apply bind_returns in H as (? & a2 & H2 & H). apply still_returns in H2; [|by apply still_req].
  apply bind_returns in H as (? & a3 & H3 & H). apply still_returns in H3; [|apply still_normalize].
  apply bind_returns in H as (? & a4 & H4 & H). apply settles_returns in H4; [|apply settles_inspection].
  rewrite H3, H2, H1, Hv, end_open in H4 by done.
  apply bind_returns in H as (st & a5 & [= <- <-] & H).
  destruct H4 as [H4|H4]; pose proof (f_equal w_state H4) as Hs; cbn in Hs; rewrite Hs in H; cbn [Nat.eqb] in H.
  2: { injection H as _ <-. exists false. by right. }
  apply bind_returns in H as (? & a6 & H6 & H). apply (announced n b) in H6 as [g H6]; [|done].
  apply bind_returns in H as (? & a7 & H7 & H). apply still_returns in H7; [|apply still_type_and_url].
  apply bind_returns in H as (? & a8 & H8 & H). apply still_returns in H8; [|apply still_all_headers].
  apply bind_returns in H as (go & a9 & H9 & H). 
  pose proof (settles_returns _ _ _ _ settles_before H9) as Hv9. rewrite H8, H7, H6, end_open in Hv9 by done.
  destruct go; cbn [negb] in H.
  - destruct Hv9 as [Hv9|Hv9]; [|exfalso; apply before_goes in H9; [by apply (f_equal w_state) in Hv9|]].
    2: { apply (f_equal w_state) in H8, H7, H6. cbn in H8, H7, H6. by rewrite H8, H7, H6. }
    apply bind_returns in H as (? & a10 & H10 & H). apply still_returns in H10; [|by apply still_req].
    apply bind_returns in H as (? & a11 & H11 & H). apply still_returns in H11; [|apply still_install].
    apply bind_returns in H as (t & a12 & H12 & H). apply still_returns in H12; [|by apply still_inspection].
    apply (dispatched n b g) in H; [done|]. by rewrite H12, H11, H10.
  - apply abort_ends in H. exists g. right. destruct Hv9 as [Hv9|Hv9]; rewrite Hv9 in H; [|done]. by rewrite end_open in H.
Qed.

(** The views that a request can have next to [n] others. *)
Definition good (n : Z) (v : view) : Prop := ∃ g, (∃ st, st ≠ 2 ∧ v = v_open st g n (started n)) ∨ v = v_over g n (started n).

Lemma good_end n v : good n v → good n (end_view v).
Proof. intros (g & [(st & Hst & ->)| ->]); exists g; right; [by apply end_open|done]. Qed.

Lemma good_before p i r : page_ok p → p_requests p !! i = Some r →
  good (progress_count (p_requests p) - weight r) (view_of {| a_req := r; a_shared := p_shared p |}).
Proof.
  intros (Ha & Hb & Hs) Hi. destruct (progress_insert _ _ _ r Hi) as [Hw _].
  rewrite Forall_lookup in Hs. destruct (Hs _ _ Hi) as [Hd Hc]. exists (r_fireGlobals r).
  unfold view_of, v_open, v_over. cbn [a_req a_shared]. rewrite Ha, Hb, Hd, Hc. unfold weight, in_progress in *.
  destruct (r_state r =? 2)%nat eqn:E; cbn [negb andb] in *.
  - right. apply Nat.eqb_eq in E. rewrite E, andb_false_r, Z.sub_0_r. done.
  - left. exists (r_state r). apply Nat.eqb_neq in E. split; [done|]. rewrite andb_true_r in *. unfold started in *.
    destruct (r_fireGlobals r); cbn [andb]; f_equal; try lia; repeat case_match; lia.
Qed.

Lemma good_after p i r a : page_ok p → p_requests p !! i = Some r → good (progress_count (p_requests p) - weight r) (view_of a) →
  page_ok {| p_shared := a_shared a; p_requests := <[i := a_req a]> (p_requests p) |}.
Proof.
  intros (_ & _ & Hs) Hi Hg. destruct (progress_insert _ _ _ (a_req a) Hi) as [Hw Hc]. unfold page_ok. cbn [p_shared p_requests].
  rewrite Hc. set (n := (progress_count (p_requests p) - weight r)%Z) in *.
  assert (0 <= n)%Z by (unfold n; lia). clearbody n.
  destruct Hg as (g & [(st & Hst & Hv)|Hv]); unfold view_of, v_open, v_over in Hv; injection Hv as E1 E2 E3 E4 E5 E6.
  - assert (weight (a_req a) = if g then 1 else 0)%Z as ->.
    { unfold weight, in_progress. rewrite E1, E2, (proj2 (Nat.eqb_neq st 2) Hst). by destruct g. }
    split_and!.
    + rewrite E3. destruct g; lia.
    + rewrite E4. unfold started. destruct g; cbn [andb]; repeat case_match; lia.
    + apply Forall_insert; [done|]. unfold settled_when_over. by rewrite E5, E6, E1, (proj2 (Nat.eqb_neq st 2) Hst).
  - assert (weight (a_req a) = 0)%Z as ->. { unfold weight, in_progress. rewrite E1. by rewrite andb_false_r. }
    rewrite Z.add_0_r. split_and!; [done|done|]. apply Forall_insert; [done|]. unfold settled_when_over. by rewrite E5, E6, E1.
Qed.

Lemma on_request_ok i m p x p' : settles m → page_ok p → on_request i m p = (Ret x, p') → page_ok p'.
Proof.
  intros Hm Hp. unfold on_request. destruct (p_requests p !! i) as [r|] eqn:Hi; [|by intros [= _ <-]].
  specialize (Hm {| a_req := r; a_shared := p_shared p |}).
  destruct (m {| a_req := r; a_shared := p_shared p |}) as [[y|e] a]; [|done]. intros [= _ <-].
  apply (good_after _ _ _ _ Hp Hi). pose proof (good_before _ _ _ Hp Hi) as Hg. destruct Hm as [-> | ->]; [done|by apply good_end].
Qed.

Lemma settles_fires : settles (timeout_fires fn_id aborts apply test).
Proof.
  unfold timeout_fires. apply settles_bind; [apply settles_still, still_gets|]. intros [].
  - apply settles_bind; [by apply settles_still, still_req|]. intros _. apply settles_abort.
  - apply settles_still, still_ret.
Qed.

Lemma new_ok u o s p x p' : page_ok p →
  on_request (length (p_requests p)) (ajax_body fn_id hook sends aborts prefilters transports ajaxSettings ajaxLocation apply test call u)
    {| p_shared := p_shared p; p_requests := p_requests p ++ [new_request o s] |} = (Ret x, p') → page_ok p'.
Proof.
  intros Hp. set (q := {| p_shared := _; p_requests := _ |}).
  assert (p_requests q !! length (p_requests p) = Some (new_request o s)) as Hi by (by apply list_lookup_middle).
  assert (page_ok q) as Hq.
  { destruct Hp as (H1 & H2 & H3). unfold page_ok, q. cbn [p_shared p_requests]. rewrite progress_app. cbn. rewrite Z.add_0_r.
    split_and!; [done|done|]. apply Forall_app. split; [done|]. by constructor. }
  unfold on_request. rewrite Hi. destruct (ajax_body _ _ _ _ _ _ _ _ _ _ _ _ _) as [[y|e] a] eqn:E; [|done]. intros [= _ <-].
  apply (good_after _ _ _ _ Hq Hi). change (weight (new_request o s)) with 0%Z. rewrite Z.sub_0_r.
  destruct Hq as (H1 & H2 & _). apply (body_fair _ (progress_count (p_requests q)) (started (progress_count (p_requests q)))) in E as (g & [E|E]).
  - exists g. left. exists 1. done.
  - exists g. by right.
  - unfold view_of, v_open. cbn [a_req a_shared new_request r_state r_fireGlobals r_deferred r_complete andb pending no_promise]. by rewrite H1, H2.
Qed.

Lemma step_ok_page ev p x p' : page_ok p → step ev p = (Ret x, p') → page_ok p'.
Proof.
  intros Hp. destruct ev as [u o|i an|i|i op]; cbn [page_step].
  - destruct (ajax_args u o) as [u' o']. destruct (ajaxSetup _ _ _) as [s|e]; [|done]. by apply new_ok.
  - by apply on_request_ok, Hp; apply settles_answered.
  - by apply on_request_ok, Hp; apply settles_fires.
  - by apply on_request_ok, Hp; apply settles_op.
Qed.

Definition returned (x : res unit) : Prop := match x with Ret _ => True | Throw _ => False end.

Lemma run_ok evs p : page_ok p → Forall returned (run evs p).1 → page_ok (run evs p).2.
Proof.
  revert p. induction evs as [|ev evs IH]; intros p Hp; cbn [run_page]; [done|].
  destruct (step ev p) as [x p1] eqn:E1. specialize (IH p1). destruct (run evs p1) as [xs p2]. cbn [fst snd] in *.
  intros H. apply Forall_cons in H as [Hx Hxs]. destruct x as [x|]; [|done]. apply IH; [|done]. by eapply step_ok_page.
Qed.
End quiet.

End facts.

(** ** A page with the settings of the library *)

Definition sample_location : string := "http://host/dir/page".
Definition sample_settings : value := library_settings sample_location false.

(** One transport; the function "rude" of the page aborts whatever it is called for. *)
Definition sample_hook (rude : string) (f : string) (s : value) (types : list string) : hooked :=
  {| k_settings := s; k_types := types; k_ops := if String.eqb f rude then [Abort VUndef] else [];
     k_result := Ret (if String.eqb f "xhrFactory" then VFun "xhr" else VUndef) |}.
Definition sample_apply (f : string) (a : list value) : res value :=
  match f, a with
  | "parseJSON", [VStr t] => match parse t with Some v => Ret v | None => Throw SyntaxError end
  | "broken", _ => Throw (Raised "broken")
  | _, v :: _ => Ret v
  | _, [] => Ret VUndef
  end.
Definition sample_test (f ct : string) : bool := occurs (String.substring 1 (String.length f - 2) f) ct.
Definition sample_run (rude : string) : list ajax_event → page → list (res unit) * page :=
  run_page String.length (sample_hook rude) (λ _ _ _, (None, None)) (λ _, None) [] [("*", ["xhrFactory"])]
    sample_settings sample_location sample_apply sample_test (λ _, VUndef).

Definition sample_answer : answer :=
  {| an_status := 200; an_text := "OK"; an_responses := Some [("text", VStr "[1,2]")];
     an_headers := "Content-Type: application/json" +:+ String "010" "" |}.

Definition sample_options : value :=
  VObj false [("url", VStr "/data#top"); ("data", VObj false [("k", VStr "a b")]); ("success", VFun "shown")].

Definition sample_events : list ajax_event := [EvAjax sample_options VUndef; EvAnswer 0 sample_answer; EvAnswer 0 sample_answer].

(** What the log says, with the address of what is sent. *)
Definition seen (e : ajax_effect) : string :=
  match e with
  | Triggers t => t
  | Sends t s _ => match get s "url" with Ret (VStr u) => t +:+ " " +:+ u | _ => t end
  | Aborts t _ => "abort " +:+ t
  | Calls _ _ => "call"
  end.

(** A request goes out with its data in the address, and is over when the
    transport answers for the first time. *)
Example request_ex :
  seen <$> g_log (p_shared (sample_run "" sample_events (new_page 7)).2) =
  ["ajaxStart"; "ajaxSend"; "xhr /data?k=a+b"; "call"; "ajaxSuccess"; "ajaxComplete"; "ajaxStop"].
Proof. vm_compute. reflexivity. Qed.


(** When a handler of [ajaxSend] aborts its request, the code goes on to send it
    with a transport that is gone: the request ends a second time, and
    [jQuery.active] falls below zero, so that [ajaxStart] is not triggered for the
    next request. *)
Theorem abort_in_send_counts_twice :
  let p := (sample_run "ajaxSend" [EvAjax sample_options VUndef] (new_page 7)).2 in
  g_active (p_shared p) = (-1)%Z ∧
  seen <$> g_log (p_shared p) =
    ["ajaxStart"; "ajaxSend"; "abort xhr"; "ajaxError"; "ajaxComplete"; "ajaxStop"; "ajaxError"; "ajaxComplete"].
Proof. split; vm_compute; reflexivity. Qed.

(** A filter that throws leaves the request over but neither settled nor counted out. *)
Theorem throwing_filter_stays_counted :
  let p := (sample_run "" [EvAjax (VObj false [("dataFilter", VFun "broken")]) VUndef; EvAnswer 0 sample_answer] (new_page 7)).2 in
  g_active (p_shared p) = 1%Z ∧ (λ r, (r_state r, pending (r_deferred r))) <$> p_requests p = [(2, true)].
Proof. split; vm_compute; reflexivity. Qed.
