(* ===== verification/AjaxRules.v ===== *)
(** * Types, headers and addresses of requests (about AjaxBase and Ajax)

    The conversion of a response and the inspection of prefilters end; a request
    has one header of each name; the data of a request without content is read
    back from its address. *)

From Stdlib Require Import SpecFloat.
From S2P Require Import Prelude JSNum JSValue JSON NodeUrl Regex JQueryCore JQueryParam Forms FormFacts JQueryDeferred DeferredFacts AjaxSubmit SubmitFacts AjaxBase Ajax AjaxFacts.

(** ** Conversions end *)

(** Keys of two words, and converters that are not falsy. *)
Definition converters_ok (convs : list (string * value)) : bool :=
  forallb (λ kv, truthy kv.2 && (length (split_char " " kv.1) =? 2)%nat) convs.

Lemma split_some c s : split_char c s ≠ [].
Proof. destruct s as [|d s]; cbn [split_char]; [done|]. destruct (Ascii.eqb d c); [done|]. by destruct (split_char c s). Qed.
Lemma split_one c s b : split_char c s = [b] → s = b.
Proof.
  revert b. induction s as [|d s IH]; intros b; cbn [split_char]; [by intros [= <-]|].
  destruct (Ascii.eqb d c); [intros [= _ H]; by apply split_some in H|].
  destruct (split_char c s) as [|x l] eqn:E; [by apply split_some in E|]. intros [= <- ->]. f_equal. by apply IH.
Qed.
Lemma split_two s a b : split_char " " s = [a; b] → s = a +:+ " " +:+ b.
Proof.
  revert a b. induction s as [|c s IH]; intros a b; cbn [split_char]; [done|].
  destruct (Ascii.eqb c " ") eqn:Ec.
  - apply Ascii.eqb_eq in Ec as ->. intros [= <- H]. apply split_one in H as ->. done.
  - destruct (split_char " " s) as [|x l] eqn:E; [done|]. intros [= <- ->].
    change (String c x +:+ " " +:+ b) with (String c (x +:+ " " +:+ b)). f_equal. by apply IH.
Qed.

Lemma converters_truthy convs k v : converters_ok convs = true → assoc k convs = Some v → truthy v = true.
Proof.
  induction convs as [|[k' v'] convs IH]; [done|]. cbn [converters_ok forallb assoc]. intros H.
  apply andb_true_iff in H as [H1 H2]. apply andb_true_iff in H1 as [H1 _].
  destruct (String.eqb k k'); [by intros [= <-]|by apply IH].
Qed.

Lemma seek_pair_between convs l prev current conv a : converters_ok l = true →
  seek_pair convs l prev current = (conv, Some a) → is_Some (assoc (a +:+ " " +:+ current) l).
Proof.
  induction l as [|[k c] l IH]; [done|]. cbn [converters_ok forallb seek_pair fst snd]. intros H.
  apply andb_true_iff in H as [H1 H2]. apply andb_true_iff in H1 as [_ H1]. apply Nat.eqb_eq in H1.
  assert (is_Some (assoc (a +:+ " " +:+ current) l) → is_Some (assoc (a +:+ " " +:+ current) ((k, c) :: l))) as Hl.
  { cbn [assoc]. destruct (String.eqb _ k); [by eexists|done]. }
  destruct (split_char " " k) as [|x [|y [|z r]]] eqn:E; try done.
  destruct (String.eqb y current && truthy (converter convs prev x)) eqn:Ec; [|by intros; apply Hl, IH].
  apply andb_true_iff in Ec as [Ey _]. apply String.eqb_eq in Ey as ->.
  destruct (is_true _); [done|]. destruct (is_true c); [done|]. intros [= _ <-].
  apply split_two in E as ->. cbn [assoc]. rewrite String.eqb_refl. by eexists.
Qed.

(** The type between leads to the one looked for. *)
Lemma seek_between convs prev current conv a : converters_ok convs = true → seek convs prev current = (conv, Some a) →
  ∃ c, seek convs a current = (c, None).
Proof.
  intros Hok H. unfold seek in H. destruct (truthy (converter convs prev current)); [done|].
  destruct (seek_pair_between _ _ _ _ _ _ Hok H) as [v Hv]. exists v. assert (converter convs a current = v) as E.
  { unfold converter. rewrite Hv. change (default VUndef (Some v)) with v. by rewrite (converters_truthy _ _ _ Hok Hv). }
  unfold seek. rewrite E. by rewrite (converters_truthy _ _ _ Hok Hv).
Qed.

Section rules.
Context (apply : string → list value → res value).

Abbreviation loop := (convert_loop apply).

Lemma convert_loop_cons throws convs n prev current types x :
  loop throws convs (S n) prev (current :: types) x =
  if String.eqb current "" then Some (Ret (Converted x))
  else if String.eqb current "*" then loop throws convs n prev types x
  else if negb (String.eqb prev "*") && negb (String.eqb prev current) then
    let '(conv, between) := seek convs prev current in
    match apply_converter apply throws conv x prev (default current between) with
    | Throw e => Some (Throw e)
    | Ret (inr why) => Some (Ret (ParserError why))
    | Ret (inl r) => loop throws convs n (default current between) (match between with Some a => a :: current :: types | None => types end) r
    end
  else loop throws convs n current types x.
Proof. done. Qed.

Lemma convert_step_direct throws convs prev current types n x c : seek convs prev current = (c, None) →
  (∀ p y, loop throws convs n p types y ≠ None) → loop throws convs (S n) prev (current :: types) x ≠ None.
Proof.
  intros Hs Hn. rewrite convert_loop_cons. repeat (case_match; try done); simplify_eq; try apply Hn.
Qed.

Lemma convert_loop_ends throws convs : converters_ok convs = true →
  ∀ types n prev x, (3 * length types < n)%nat → loop throws convs n prev types x ≠ None.
Proof.
  intros Hok types. induction types as [|current types IH]; intros n prev x Hn; (destruct n as [|n]; [cbn in Hn; lia|]); [done|].
  cbn [length] in Hn. destruct (seek convs prev current) as [c [a|]] eqn:Hs.
  2: { eapply convert_step_direct; [done|]. intros. apply IH. lia. }
  destruct n as [|[|n]]; [lia|lia|].
  assert (∀ y, loop throws convs (S n) a (current :: types) y ≠ None) as Hc.
  { intros y. destruct (seek_between _ _ _ _ _ Hok Hs) as [c' Hs']. eapply convert_step_direct; [done|]. intros. apply IH. lia. }
  rewrite convert_loop_cons, Hs. change (default current (Some a)) with a.
  destruct (String.eqb current "") eqn:E1; [done|]. destruct (String.eqb current "*") eqn:E2; [apply (IH (S (S n))); lia|].
  destruct (negb (String.eqb prev "*") && negb (String.eqb prev current)) eqn:E3; [|apply (IH (S (S n))); lia].
  destruct (apply_converter _ _ _ _ _ _) as [[y|w]|e]; try done. rewrite convert_loop_cons.
  destruct (String.eqb a "") eqn:A1; [done|]. destruct (String.eqb a "*") eqn:A2; [apply Hc|].
  rewrite String.eqb_refl, andb_false_r. apply Hc.
Qed.

(** C38. The conversion of a response ends within three rounds for each data
    type, whatever the converters return or throw, when every key names two types
    and no converter is falsy. *)
Theorem ajaxConvert_ends s types response :
  (∀ c, get s "converters" = Ret c → converters_ok (lower_keys (own_props c)) = true) →
  ajaxConvert apply (conversion_fuel types) s types response ≠ None.
Proof.
  intros Hok. unfold ajaxConvert. destruct (get s "dataFilter") as [f|]; [|done]. destruct (get s "dataType") as [d|]; [|done].
  destruct (get s "converters") as [c|]; [|done]. destruct (get s "throws") as [t|]; [|done]. cbn [mbind res_bind].
  destruct (if truthy f then _ else _) as [r|]; [|done]. destruct types as [|prev types]; [done|].
  apply convert_loop_ends; [by apply Hok|]. unfold conversion_fuel. cbn [length]. lia.
Qed.
End rules.

Definition sample_types : list string := ["text"; "xml"; "tree"].
Definition tree_settings : value := put sample_settings "converters"
  (VObj false [("text xml", VFun "String"); ("xml list", VFun "String"); ("list tree", VFun "parseJSON")]).

Lemma ajaxConvert_ends_witness : ajaxConvert sample_apply (conversion_fuel sample_types) tree_settings sample_types (VStr "7") ≠ None.
Proof. apply ajaxConvert_ends. intros c [= <-]. vm_compute. reflexivity. Defined.

(** A type in between is found. *)
Example convert_between :
  ajaxConvert sample_apply (conversion_fuel sample_types) tree_settings sample_types (VStr "7") = Some (Ret (Converted (VInt 7))).
Proof. vm_compute. reflexivity. Qed.

(** ** The inspection of prefilters ends *)

Section inspection.
Context (fn_id : string → nat).
Context (hook : string → value → list string → hooked).
Context (aborts : string → option answer).
Context (apply : string → list value → res value).
Context (test : string → string → bool).
Context (structure : registry).

Abbreviation inspect out := (inspect fn_id hook aborts apply test out structure).

(** The types of the table that are still to be seen. *)
Definition fresh (inspected : list string) : nat :=
  length (List.filter (λ tf, negb (bool_decide (tf.1 ∈ inspected))) structure).

Lemma fresh_le l dt inspected :
  length (List.filter (λ tf : string * list string, negb (bool_decide (tf.1 ∈ dt :: inspected))) l) ≤
  length (List.filter (λ tf : string * list string, negb (bool_decide (tf.1 ∈ inspected))) l).
Proof.
  induction l as [|[t fs] l IH]; cbn [List.filter fst]; [done|].
  destruct (bool_decide (t ∈ dt :: inspected)) eqn:E1, (bool_decide (t ∈ inspected)) eqn:E2; cbn [negb length]; try lia.
  apply bool_decide_eq_true in E2. apply bool_decide_eq_false in E1. set_solver.
Qed.
Lemma fresh_less dt inspected : dt ∉ inspected → is_Some (assoc dt structure) → fresh (dt :: inspected) < fresh inspected.
Proof.
  intros Hdt. unfold fresh. generalize structure as l. induction l as [|[t fs] l IH]; cbn [assoc]; [by intros []|].
  cbn [List.filter fst]. destruct (String.eqb dt t) eqn:E.
  - apply String.eqb_eq in E as <-. intros _. rewrite (bool_decide_eq_true_2 (dt ∈ dt :: inspected)) by set_solver.
    rewrite (bool_decide_eq_false_2 (dt ∈ inspected)) by done. cbn [negb length]. pose proof (fresh_le l dt inspected). lia.
  - apply String.eqb_neq in E. intros H. specialize (IH H).
    replace (bool_decide (t ∈ dt :: inspected)) with (bool_decide (t ∈ inspected)) by (apply bool_decide_ext; set_solver).
    destruct (bool_decide (t ∈ inspected)); cbn [negb length]; lia.
Qed.

Lemma bind_same {A B} (m : M ajax A) (k k' : A → M ajax B) a : (∀ x a1, k x a1 = k' x a1) → (m ≫= k) a = (m ≫= k') a.
Proof. intros H. unfold mbind, M_bind. destruct (m a) as [[x|e] a1]; [apply H|done]. Qed.
Lemma bind_first {A B} (m m' : M ajax A) (k : A → M ajax B) a : m a = m' a → (m ≫= k) a = (m' ≫= k) a.
Proof. intros H. unfold mbind, M_bind. by rewrite H. Qed.

Lemma inspect_fuel out out' b m : ∀ n dt inspected a, dt ∉ inspected → fresh inspected < m → fresh inspected < n →
  inspect out b m dt inspected a = inspect out' b n dt inspected a.
Proof.
  induction m as [|m IH]; intros n dt inspected a Hdt Hm Hn; [lia|]. destruct n as [|n]; [lia|]. cbn [Ajax.inspect].
  destruct (assoc dt structure) as [fs|] eqn:Hfs; [|done]. cbn [or_list default from_option].
  assert (fresh (dt :: inspected) < fresh inspected) as Hf by (apply fresh_less; [done|by eexists]).
  change (or_list (Some fs)) with fs. generalize VUndef as sel. revert a.
  clear Hfs. induction fs as [|f fs IHf]; intros a sel; [done|]. apply bind_same. intros x a1.
  destruct x, b; try apply IHf; try (case_match; [done|apply IHf]).
  case_bool_decide; [apply IHf|]. apply bind_same. intros _ a2. apply bind_first. apply IH; [done|lia|lia].
Qed.

(** Prefilters that hand a request over from one data type to another, and
    factories of transports, are inspected to an end: each type is inspected
    once, so that a depth of one more than the types of the table is enough, and
    what would happen beyond it does not matter. *)
Theorem inspection_ends out out' seekingTransport n dt a : length structure < n →
  inspect out seekingTransport n dt [] a = inspect out' seekingTransport (S (length structure)) dt [] a.
Proof.
  intros Hn. assert (fresh [] ≤ length structure) as Hf by apply List.filter_length_le.
  apply inspect_fuel; [set_solver|lia|lia].
Qed.
End inspection.

(** ** Data in the address *)

Lemma no_hash p u : has_char "#" u = false → exec_from 1 rhash p u = None.
Proof.
  unfold has_char. revert p. induction u as [|c u IH]; intros p H; [done|]. cbn [list_ascii_of_string existsb] in H.
  apply orb_false_iff in H as [Hc Hu]. cbn [exec_from]. rewrite (IH _ Hu).
  unfold match_at, rhash. cbn [m seqs lit rest]. by rewrite Hc.
Qed.

Lemma get_prop arr ps k v : assoc k ps = Some v → get (VObj arr ps) k = Ret v.
Proof. intros H. cbn [get]. by rewrite H. Qed.

Lemma replace_protocol_none b u : String.prefix "//" u = false → replace_protocol b u = u.
Proof.
  destruct u as [|c [|d u]]; [done|by destruct c as [[] [] [] [] [] [] [] []]|].
  destruct c as [[] [] [] [] [] [] [] []], d as [[] [] [] [] [] [] [] []]; try done. by destruct u.
Qed.

Lemma request_url_plain loc u : truthy (VStr u) = true → has_char "#" u = false → String.prefix "//" u = false →
  request_url loc VUndef (VStr u) = Ret u.
Proof.
  intros Ht Hh Hp. unfold request_url. cbn [truthy] in *. rewrite Ht. cbn [to_string mbind res_bind].
  unfold replace_match. rewrite no_hash by done. by rewrite replace_protocol_none.
Qed.

Lemma request_data_text settings call traditional l : is_Some (match get settings "traditional" with Ret v => Some v | Throw _ => None end) →
  ∃ q, request_data settings call (VObj false (text_fields l)) traditional = Ret q ∧ qs_parse q = l.
Proof.
  intros [v Hv]. destruct (param_array_parse call l) as (q & Hq & Hl). exists q. split; [|done].
  unfold request_data. destruct (get settings "traditional") as [w|]; [|done].
  assert (param_object call (truthy (match traditional with VUndef => w | _ => traditional end)) (own_props (VObj false (text_fields l))) = Ret q) as H.
  { rewrite <- Hq. unfold param_object, param_array. cbn [own_props]. f_equal. clear. generalize (truthy (match traditional with VUndef => w | _ => traditional end)).
    intros b. unfold text_fields. induction l as [|[k x] l IH]; [done|]. rewrite fmap_cons, bind_cons, IH. done. }
  destruct traditional; exact H.
Qed.

Section address.
Context (ajaxSettings : value) (ajaxLocation : string) (call : string → value).

(** The settings of a request with an address and text fields as its data. *)
Record data_request (r : ajax_request) (u t : string) (l : list (string * string)) : Prop := {
  dr_settings : ∃ ps, r_s r = VObj false ps ∧
    assoc "url" ps = Some (VStr u) ∧ assoc "data" ps = Some (VObj false (text_fields l)) ∧ assoc "processData" ps = Some (VBool true) ∧
    assoc "dataType" ps = None ∧ assoc "cache" ps = None ∧ assoc "crossDomain" ps = None ∧ assoc "traditional" ps = None;
  dr_type : request_type (r_options r) (r_s r) = Ret (VStr t);
  dr_url : u ≠ "" ∧ has_char "#" u = false ∧ String.prefix "//" u = false;
  dr_data : l ≠ []
}.

Definition normalized (ps : list (string * value)) (u t q : string) : value :=
  VObj false (prop_put "data" (VStr q) (prop_put "crossDomain" (VBool (cross_domain ajaxLocation u))
    (prop_put "type" (VStr t) (prop_put "url" (VStr u) ps)))).

Lemma step_eq {A B} (m : M ajax A) (k : A → M ajax B) a x a' : m a = (Ret x, a') → (m ≫= k) a = k x a'.
Proof. intros E. unfold mbind, M_bind. by rewrite E. Qed.

Lemma setting_own k v ps a : r_s (a_req a) = VObj false ps → assoc k ps = Some v → setting k a = (Ret v, a).
Proof. intros E Hk. unfold setting, mbind, M_bind, asks, gets, lift. rewrite E. by rewrite (get_prop _ _ _ _ Hk). Qed.
Lemma setting_none k ps a : r_s (a_req a) = VObj false ps → assoc k ps = None → inherited k = VUndef → setting k a = (Ret VUndef, a).
Proof. intros E Hk Hi. unfold setting, mbind, M_bind, asks, gets, lift. rewrite E. cbn [get andb]. by rewrite Hk, Hi. Qed.

Ltac assocs := rewrite ?assoc_prop_put; cbn [String.eqb Ascii.eqb Bool.eqb]; try done.
Ltac own := eapply step_eq; eapply setting_own; [reflexivity|assocs].
Ltac unset := eapply step_eq; eapply setting_none; [reflexivity|assocs|reflexivity].

Lemma normalize_plain a u t l : data_request (a_req a) u t l → is_Some (match get ajaxSettings "traditional" with Ret v => Some v | Throw _ => None end) →
  ∃ ps q a', r_s (a_req a) = VObj false ps ∧ qs_parse q = l ∧ normalize_request ajaxSettings ajaxLocation call VUndef a = (Ret tt, a') ∧
    r_s (a_req a') = normalized ps u t q ∧ a_shared a' = a_shared a.
Proof.
  intros [(ps & Es & Hurl & Hdata & Hproc & Hdt & Hcache & Hcross & Htrad) Htype (Hu & Hh & Hp) Hl] Htr.
  destruct (request_data_text ajaxSettings call VUndef l Htr) as (q & Hq & Hqs). exists ps, q.
  destruct a as [r g]. cbn [a_req a_shared] in *. eexists. split; [done|]. split; [done|]. split.
  - unfold normalize_request. etrans; [by eapply step_eq|]. cbn [a_req]. etrans; [by eapply step_eq|]. cbn [a_req].
    etrans; [eapply step_eq, setting_own; [exact Es|exact Hurl]|].
    etrans; [eapply step_eq; unfold lift; rewrite request_url_plain; [reflexivity| |done|done]|].
    { cbn [truthy]. by apply negb_true_iff, String.eqb_neq. }
    unfold set_setting at 1. etrans; [by eapply step_eq|]. cbn [a_req a_shared]. rewrite Htype, Es. cbn [put].
    etrans; [by eapply step_eq|]. etrans; [by eapply step_eq|]. cbn [a_req a_shared up_s r_s put].
    etrans; [unset|]. etrans; [by eapply step_eq|]. etrans; [by eapply step_eq|]. cbn [a_req a_shared up_s up_types r_s put].
    etrans; [unset|]. cbn [is_null]. etrans; [by eapply step_eq|]. cbn [a_req a_shared up_s up_types r_s put].
    etrans; [own|]. etrans; [own|]. etrans; [unset|]. cbn [truthy typeof String.eqb Ascii.eqb Bool.eqb andb negb].
    etrans; [eapply step_eq; unfold lift; rewrite Hq; reflexivity|]. reflexivity.
  - done.
Qed.

Lemma parse_some q l : qs_parse q = l → l ≠ [] → truthy (VStr q) = true.
Proof. intros <- H. cbn [truthy]. destruct (String.eqb q "") eqn:E; [|done]. by apply String.eqb_eq in E as ->. Qed.

Lemma type_and_url_plain a ps u t q : r_s (a_req a) = VObj false ps → truthy (VStr q) = true →
  assoc "url" ps = Some (VStr u) → assoc "type" ps = Some (VStr t) → assoc "data" ps = Some (VStr q) → assoc "cache" ps = None →
  ∃ a' ps', set_type_and_url a = (Ret tt, a') ∧ r_s (a_req a') = VObj false ps' ∧ assoc "type" ps' = Some (VStr (upper t)) ∧
    if has_content (upper t) then assoc "url" ps' = Some (VStr u) ∧ assoc "data" ps' = Some (VStr q)
    else assoc "url" ps' = Some (VStr (u +:+ query_sep u +:+ q)) ∧ assoc "data" ps' = None.
Proof.
  intros Es Hq Hurl Htype Hdata Hcache. destruct a as [r g]. cbn [a_req] in Es.
  unfold set_type_and_url. destruct (has_content (upper t)) eqn:Hc; do 2 eexists; split.
  - etrans; [eapply step_eq, setting_own; [exact Es|exact Htype]|]. etrans; [by eapply step_eq|].
    etrans; [by eapply step_eq|]. etrans; [by eapply step_eq|]. cbn [a_req a_shared up_s r_s]. rewrite Es, Hc. cbn [put].
    etrans; [own|]. etrans; [by eapply step_eq|]. etrans; [by eapply step_eq|]. reflexivity.
  - split; [reflexivity|]. assocs.
  - etrans; [eapply step_eq, setting_own; [exact Es|exact Htype]|]. etrans; [by eapply step_eq|].
    etrans; [by eapply step_eq|]. etrans; [by eapply step_eq|]. cbn [a_req a_shared up_s r_s]. rewrite Es, Hc. cbn [put].
    etrans; [own|]. etrans; [by eapply step_eq|]. etrans; [by eapply step_eq|]. cbn [a_req a_shared up_s up_cacheURL r_s r_cacheURL].
    unfold data_to_url. etrans; [eapply step_eq|].
    { etrans; [by eapply step_eq|]. cbn [a_req a_shared up_s up_cacheURL r_s r_cacheURL]. etrans; [own|]. rewrite Hq.
      etrans; [by eapply step_eq|]. etrans; [by eapply step_eq|]. etrans; [by eapply step_eq|]. reflexivity. }
    cbn [a_req a_shared up_s up_cacheURL r_s put del_prop]. unfold add_anti_cache.
    etrans; [eapply step_eq, setting_none; [reflexivity|rewrite assoc_deleted; assocs|reflexivity]|]. reflexivity.
  - split; [reflexivity|]. rewrite !assoc_deleted. assocs.
Qed.

End address.

(** The request of [sample_options] before it is prepared. *)
Definition sample_request (type : string) : ajax := {|
  a_req := new_request (VObj false [("type", VStr type)])
    (VObj false [("url", VStr "/data"); ("type", VStr type); ("processData", VBool true); ("data", VObj false [("k", VStr "a b"); ("n", VStr "&")])]);
  a_shared := p_shared (new_page 7) |}.


Lemma inspection_ends_witness :
  inspect String.length (sample_hook "") (λ _, None) sample_apply sample_test (raise TypeError) [("*", ["xhrFactory"])] true 5 "*" [] (sample_request "get") =
  inspect String.length (sample_hook "") (λ _, None) sample_apply sample_test (mret (VNull, [])) [("*", ["xhrFactory"])] true 2 "*" [] (sample_request "get").
Proof. apply inspection_ends. cbn. lia. Defined.

(** ** From a form to the wire *)

(** The options that [ajaxSubmit] hands to [jQuery.ajax]. *)
Definition ajax_call (e : submit_effect) : option value := match e with AjaxCall o => Some o | _ => None end.

(** A form of a page: submitting it makes one request, and a
    transport gets it with the fields in the address. *)
Example form_on_the_wire :
  let r := requests (ajaxSubmit true (Some false) sample_location VUndef (λ _, VUndef) silent_user [lesson_form None] VUndef lesson_submission).2 in
  let p := (sample_run "" ((λ o, EvAjax o VUndef) <$> omap ajax_call r) (new_page 7)).2 in
  seen <$> g_log (p_shared p) = ["ajaxStart"; "ajaxSend"; "xhr /save?room=1&title=a+%26+b&open=yes&tags=x&tags=z+w"].
Proof. vm_compute. reflexivity. Qed.
