(* ===== verification/AjaxHeaders.v ===== *)
(** * The headers of a request (about Ajax)

    The names of headers do not depend on the case of their letters; [jqXHR] tidy
    the spelling that was used first.  Followed through every computation on a
    request, whether it returns or throws. *)

From Stdlib Require Import SpecFloat.
From S2P Require Import Prelude JSNum JSValue JSON NodeUrl Regex JQueryCore JQueryParam Forms JQueryDeferred DeferredFacts AjaxSubmit AjaxBase Ajax AjaxFacts.

Definition headers_ok (r : ajax_request) : Prop :=
  NoDup (r_headers r).*1 ∧
  (∀ n, is_Some (assoc n (r_headers r)) → assoc (lower n) (r_names r) = Some n) ∧
  (∀ l n, assoc l (r_names r) = Some n → lower n = l).

(** No two headers with the same name. *)
Definition unique_names (h : headers) : Prop := NoDup (lower <$> h.*1).

Definition sent_ok (e : ajax_effect) : Prop := match e with Sends _ _ h => unique_names h | _ => True end.

Lemma headers_unique r : headers_ok r → unique_names (r_headers r).
Proof.
  intros (Hnd & Hn & _). apply NoDup_fmap_2_strong; [|done]. intros x y Hx Hy E.
  assert (∀ z, z ∈ (r_headers r).*1 → assoc (lower z) (r_names r) = Some z) as H.
  { intros z Hz. apply Hn. destruct (assoc z (r_headers r)) eqn:Ez; [by eexists|]. by apply assoc_None in Ez. }
  pose proof (H x Hx) as Ex. rewrite E, (H y Hy) in Ex. by injection Ex.
Qed.

Lemma lower_empty n : lower n = "" → n = "".
Proof. by destruct n. Qed.

Lemma put_header r name v : headers_ok r →
  let known := default "" (assoc (lower name) (r_names r)) in
  let name' := if String.eqb known "" then name else known in
  headers_ok (up_headers (prop_put name' v (r_headers r)) (prop_put (lower name) name' (r_names r)) r).
Proof.
  intros (Hnd & Hn & Hl) known name'.
  assert (lower name' = lower name) as Hname.
  { unfold name', known. destruct (String.eqb _ "") eqn:E; [done|]. destruct (assoc (lower name) (r_names r)) as [k|] eqn:Ek; [|done]. by apply Hl. }
  assert (∀ n, assoc (lower name) (r_names r) = Some n → name' = n) as Hknown.
  { intros n En. unfold name', known. rewrite En. change (default "" (Some n)) with n.
    destruct (String.eqb n "") eqn:E0; [|done]. apply String.eqb_eq in E0 as ->. apply Hl in En. symmetry in En. by apply lower_empty in En. }
  unfold headers_ok. cbn [up_headers r_headers r_names]. split_and!.
  - by apply prop_put_NoDup.
  - intros n. rewrite !assoc_prop_put. destruct (String.eqb n name') eqn:E.
    + apply String.eqb_eq in E as ->. by rewrite Hname, String.eqb_refl.
    + apply String.eqb_neq in E. intros Hh. specialize (Hn n Hh). destruct (String.eqb (lower n) (lower name)) eqn:El; [|done].
      apply String.eqb_eq in El. rewrite El in Hn. by rewrite (Hknown n Hn) in E.
  - intros l n. rewrite assoc_prop_put. destruct (String.eqb l (lower name)) eqn:E; [|apply Hl].
    apply String.eqb_eq in E as ->. by intros [= <-].
Qed.

(** ** Kept by every computation *)

Definition well (a : ajax) : Prop := headers_ok (a_req a) ∧ Forall sent_ok (g_log (a_shared a)).
Definition tidy {A} (m : M ajax A) : Prop := ∀ a, well a → well (m a).2.

Lemma tidy_ret {A} (x : A) : tidy (mret x).
Proof. by intros a. Qed.
Lemma tidy_lift {A} (x : res A) : tidy (lift x).
Proof. by intros a. Qed.
Lemma tidy_raise {A} e : tidy (raise e : M ajax A).
Proof. by intros a. Qed.
Lemma tidy_gets {A} (f : ajax → A) : tidy (gets f).
Proof. by intros a. Qed.
Lemma tidy_asks {A} (f : ajax_request → A) : tidy (asks f).
Proof. by intros a. Qed.
Lemma tidy_bind {A B} (m : M ajax A) (k : A → M ajax B) : tidy m → (∀ x, tidy (k x)) → tidy (m ≫= k).
Proof.
  intros Hm Hk a Ha. unfold mbind, M_bind. specialize (Hm a Ha). destruct (m a) as [[x|e] a1]; cbn [snd] in *; [by apply Hk|done].
Qed.
Lemma tidy_catch {A} (m : M ajax A) h : tidy m → (∀ e, tidy (h e)) → tidy (try_catch m h).
Proof.
  intros Hm Hh a Ha. unfold try_catch. specialize (Hm a Ha). destruct (m a) as [[x|e] a1]; cbn [snd] in *; [done|by apply Hh].
Qed.
Lemma tidy_req f : (∀ r, r_headers (f r) = r_headers r ∧ r_names (f r) = r_names r) → tidy (on_req f).
Proof.
  intros H [r g] [Hr Hg]. destruct (H r) as [E1 E2]. split; [|done]. unfold on_req, modify, headers_ok in *. cbn [snd a_req a_shared] in *.
  by rewrite E1, E2.
Qed.
Lemma tidy_shared f : (∀ g, g_log (f g) = g_log g) → tidy (on_shared f).
Proof. intros H [r g] [Hr Hg]. split; [done|]. unfold on_shared, modify. cbn [snd a_req a_shared]. by rewrite H. Qed.
Lemma tidy_tell l : Forall sent_ok l → tidy (tell l).
Proof. intros H [r g] [Hr Hg]. split; [done|]. by apply Forall_app. Qed.
Lemma tidy_calls (cs : list (nat * args)) : tidy (tell ((λ fa, Calls fa.1 fa.2) <$> cs)).
Proof. apply tidy_tell. apply Forall_fmap, Forall_true. done. Qed.
Lemma tidy_header name v : tidy (setRequestHeader name v).
Proof.
  unfold setRequestHeader. apply tidy_bind; [apply tidy_asks|]. intros st. destruct (st =? 0)%nat; [|apply tidy_ret].
  intros [r g] [Hr Hg]. split; [|done]. by apply put_header.
Qed.
Lemma tidy_setting k : tidy (setting k).
Proof. apply tidy_bind; [apply tidy_asks|]. intros. apply tidy_lift. Qed.

Create HintDb tidy.
#[export] Hint Resolve tidy_ret tidy_lift tidy_raise tidy_gets tidy_asks tidy_calls tidy_header tidy_setting : tidy.

Ltac keep :=
  repeat first
    [ progress (eauto with tidy; fail)
    | progress intros
    | apply tidy_bind
    | apply tidy_catch
    | apply tidy_req; by intros
    | apply tidy_shared; by intros
    | apply tidy_tell; by repeat constructor
    | case_match ].

Section headers.
Context (fn_id : string → nat).
Context (hook : string → value → list string → hooked).
Context (sends : string → value → headers → option answer * option exn).
Context (aborts : string → option answer).
Context (prefilters transports : registry).
Context (ajaxSettings : value) (ajaxLocation : string).
Context (apply : string → list value → res value).
Context (test : string → string → bool).
Context (call : string → value).

Abbreviation step := (page_step fn_id hook sends aborts prefilters transports ajaxSettings ajaxLocation apply test call).
Abbreviation run := (run_page fn_id hook sends aborts prefilters transports ajaxSettings ajaxLocation apply test call).

Lemma tidy_deferred q : tidy (on_deferred q).
Proof. unfold on_deferred. keep. Qed.
Lemma tidy_complete q : tidy (on_complete q).
Proof. unfold on_complete. keep. Qed.
Hint Resolve tidy_deferred tidy_complete : tidy.
Lemma tidy_each m fs : (∀ f, tidy (m f)) → tidy (each_fn fn_id m fs).
Proof. intros H. induction fs as [|f fs IH]; cbn [each_fn]; keep. Qed.
Lemma tidy_add a v : tidy (xhr_add fn_id a v).
Proof. apply tidy_each. auto with tidy. Qed.
Lemma tidy_xhr_complete v : tidy (xhr_complete fn_id v).
Proof. apply tidy_each. auto with tidy. Qed.
Hint Resolve tidy_add tidy_xhr_complete : tidy.
Lemma tidy_codes ps : tidy (add_codes ps).
Proof. induction ps as [|[c f] ps IH]; cbn [add_codes]; keep. Qed.
Hint Resolve tidy_codes : tidy.
Lemma tidy_statusCode v : tidy (statusCode fn_id v).
Proof. unfold statusCode, xhr_always. keep. Qed.
Hint Resolve tidy_statusCode : tidy.
Lemma tidy_judge status n x : tidy (judge apply status n x).
Proof. unfold judge, remember_modified, getResponseHeader. keep. Qed.
Lemma tidy_report v : tidy (report_verdict fn_id v).
Proof. unfold report_verdict, one_request_less. keep. Qed.
Hint Resolve tidy_judge tidy_report : tidy.
Lemma tidy_done status n rs hs : tidy (xhr_done fn_id apply test status n rs hs).
Proof. unfold xhr_done, read_responses, getResponseHeader. keep. Qed.
Hint Resolve tidy_done : tidy.
Lemma tidy_answered an : tidy (answered fn_id apply test an).
Proof. apply tidy_done. Qed.
Hint Resolve tidy_answered : tidy.
Lemma tidy_abort t : tidy (xhr_abort fn_id aborts apply test t).
Proof. unfold xhr_abort. keep. Qed.
Hint Resolve tidy_abort : tidy.
Lemma tidy_op op : tidy (run_op fn_id aborts apply test op).
Proof. destruct op; cbn [run_op]; unfold overrideMimeType, set_setting, xhr_always; keep. Qed.
Hint Resolve tidy_op : tidy.
Lemma tidy_ops ops : tidy (run_ops fn_id aborts apply test ops).
Proof. induction ops as [|op ops IH]; cbn [run_ops]; keep. Qed.
Hint Resolve tidy_ops : tidy.
Lemma tidy_hook f : tidy (call_hook fn_id hook aborts apply test f).
Proof. unfold call_hook. keep. Qed.
Hint Resolve tidy_hook : tidy.

Lemma tidy_inspect out structure b n : tidy out → ∀ dt ins, tidy (inspect fn_id hook aborts apply test out structure b n dt ins).
Proof.
  intros Hout. induction n as [|n IH]; intros dt ins; cbn [inspect]; [done|].
  generalize (or_list (assoc dt structure)) VUndef. intros fs. induction fs as [|f fs IHf]; intros sel; keep.
Qed.
Hint Resolve tidy_inspect : tidy.
Lemma tidy_inspection structure b : tidy (inspectPrefiltersOrTransports fn_id hook aborts apply test structure b).
Proof. unfold inspectPrefiltersOrTransports. keep. Qed.
Lemma tidy_normalize url : tidy (normalize_request ajaxSettings ajaxLocation call url).
Proof. unfold normalize_request, set_setting. keep. Qed.
Lemma tidy_announce : tidy announce_request.
Proof. unfold announce_request. keep. Qed.
Lemma tidy_type_and_url : tidy set_type_and_url.
Proof. unfold set_type_and_url, data_to_url, add_anti_cache, set_setting. keep. Qed.
Lemma tidy_set_headers ps : tidy (set_headers ps).
Proof. induction ps as [|[n v] ps IH]; cbn [set_headers]; keep. Qed.
Hint Resolve tidy_inspection tidy_normalize tidy_announce tidy_type_and_url tidy_set_headers : tidy.
Lemma tidy_all_headers : tidy set_all_headers.
Proof. unfold set_all_headers, set_conditional_headers, set_content_type. keep. Qed.

(** What is sent are the headers at that moment. *)
Lemma tidy_transport : tidy (transport_send fn_id sends apply test).
Proof.
  intros a Ha. unfold transport_send, mbind at 1, M_bind at 1, asks at 1, gets at 1. cbn beta iota.
  destruct (r_transport (a_req a)) as [| | | | |name|]; try done.
  unfold mbind at 1, M_bind at 1, asks at 1, gets at 1. cbn beta iota.
  unfold mbind at 1, M_bind at 1, asks at 1, gets at 1. cbn beta iota.
  apply tidy_bind; [|keep|done]. apply tidy_tell. constructor; [|done]. apply headers_unique, Ha.
Qed.
Hint Resolve tidy_all_headers tidy_transport : tidy.
Lemma tidy_dispatch t : tidy (dispatch fn_id hook sends aborts apply test t).
Proof. unfold dispatch, trigger_send, start_timeout. keep. Qed.
Hint Resolve tidy_dispatch : tidy.
Lemma tidy_body url : tidy (ajax_body fn_id hook sends aborts prefilters transports ajaxSettings ajaxLocation apply test call url).
Proof. unfold ajax_body, call_beforeSend, install_callbacks. keep. Qed.
Lemma tidy_fires : tidy (timeout_fires fn_id aborts apply test).
Proof. unfold timeout_fires. keep. Qed.

(** ** Pages *)

Definition well_page (p : page) : Prop := Forall headers_ok (p_requests p) ∧ Forall sent_ok (g_log (p_shared p)).

Lemma on_request_well i m p : tidy m → well_page p → well_page (on_request i m p).2.
Proof.
  intros Hm [Hr Hl]. unfold on_request. destruct (p_requests p !! i) as [r|] eqn:Hi; [|done].
  specialize (Hm {| a_req := r; a_shared := p_shared p |}).
  destruct (m {| a_req := r; a_shared := p_shared p |}) as [x a]. cbn [snd] in Hm.
  destruct Hm as [H1 H2]; [split; [|done]; by eapply Forall_lookup_1|]. split; [by apply Forall_insert|done].
Qed.
Lemma step_well ev p : well_page p → well_page (step ev p).2.
Proof.
  intros Hp. destruct ev as [u o|i an|i|i op]; cbn [page_step].
  - destruct (ajax_args u o) as [u' o']. destruct (ajaxSetup _ _ _) as [s|e]; [|done]. apply on_request_well; [apply tidy_body|].
    destruct Hp as [Hr Hl]. split; [|done]. apply Forall_app. split; [done|]. constructor; [|done].
    split; [constructor|]. split; [by intros n []|done].
  - by apply on_request_well; [apply tidy_answered|].
  - by apply on_request_well; [apply tidy_fires|].
  - by apply on_request_well; [apply tidy_op|].
Qed.
Lemma run_well evs p : well_page p → well_page (run evs p).2.
Proof.
  revert p. induction evs as [|ev evs IH]; intros p Hp; cbn [run_page]; [done|].
  pose proof (step_well ev p Hp) as H1. destruct (step ev p) as [x p1]. specialize (IH p1 H1). by destruct (run evs p1).
Qed.

(** Whatever the page, its prefilters and its hooks do, no request is sent
    with two headers of the same name, in any spelling. *)
Theorem sent_headers_unique nonce evs t s h :
  Sends t s h ∈ g_log (p_shared (run evs (new_page nonce)).2) → NoDup (lower <$> h.*1).
Proof.
  intros H. destruct (run_well evs (new_page nonce)) as [_ Hl]; [split; constructor|].
  by rewrite Forall_forall in Hl; apply (Hl _ H).
Qed.
End headers.

(** A request that sets the header of its type again, in capitals. *)
Definition header_events : list ajax_event :=
  [EvAjax (VObj false [("headers", VObj false [("ACCEPT", VStr "text/x"); ("X-a", VStr "1"); ("x-A", VStr "2")])]) VUndef].

Lemma sent_headers_unique_witness :
  NoDup (lower <$> ([("Accept", VStr "text/x"); ("X-a", VStr "2")] : headers).*1).
Proof.
  eapply (sent_headers_unique String.length (sample_hook "") (λ _ _ _, (None, None)) (λ _, None) [] [("*", ["xhrFactory"])]
    sample_settings sample_location sample_apply sample_test (λ _, VUndef) 7 header_events "xhr").
  apply list_elem_of_lookup_2 with (i := 2). vm_compute. reflexivity.
Defined.
