(* ===== verification/AjaxReport.v ===== *)
(** * What a request reports at its end (about Ajax)

    The functions that are called when a request ends, in their order: those of
    [success] or [error], those of the status, and those of [complete], with the
    global events in between. *)

From Stdlib Require Import SpecFloat.
From S2P Require Import Prelude JSNum JSValue JSON NodeUrl Regex JQueryCore JQueryParam Forms JQueryDeferred DeferredFacts AjaxSubmit AjaxBase Ajax AjaxFacts.

Definition calls_of (fs : list nat) (x : args) : list ajax_effect := (λ f, Calls f x) <$> fs.
Definition logged (l : list ajax_effect) (a : ajax) : ajax := {| a_req := a_req a; a_shared := up_log l (a_shared a) |}.

Lemma logged_logged l l' a : logged l' (logged l a) = logged (l ++ l') a.
Proof. unfold logged, up_log. cbn [a_req a_shared g_active g_lastModified g_etag g_nonce g_log]. by rewrite app_assoc. Qed.
Lemma logged_nil a : logged [] a = a.
Proof. destruct a as [r []]. unfold logged, up_log. cbn. by rewrite app_nil_r. Qed.
Lemma calls_all fs x : (λ fa, Calls fa.1 fa.2) <$> call_all fs x = calls_of fs x.
Proof. unfold call_all, calls_of. by rewrite <- list_fmap_compose. Qed.

Section report.
Context (fn_id : string → nat).
Context (apply : string → list value → res value).
Context (test : string → string → bool).

(** A function added to a settled deferred object is called at once. *)
Lemma register_late act f ok x last a : r_deferred (a_req a) = Settled ok x last → act ≠ Notify →
  on_deferred (Register act f) a = (Ret tt, logged (if Bool.eqb ok (bool_decide (act = Resolve)) then calls_of [f] x else []) a).
Proof.
  intros E Hact. destruct a as [r g]. cbn [a_req] in E. unfold on_deferred, mbind, M_bind, asks, gets, on_req, tell, on_shared, modify, logged.
  cbn [a_req a_shared]. rewrite E. assert (up_deferred (Settled ok x last) r = r) as Er by (destruct r; cbn in *; by rewrite <- E).
  destruct act; [| |done]; cbn [promise_step fst snd]; rewrite Er; by destruct ok.
Qed.
Lemma add_settled act ok x last a v : r_deferred (a_req a) = Settled ok x last → act ≠ Notify →
  xhr_add fn_id act v a = (Ret tt, logged (if Bool.eqb ok (bool_decide (act = Resolve)) then calls_of (fn_id <$> fns_of v) x else []) a).
Proof.
  intros E Hact. unfold xhr_add. generalize (fns_of v). intros fs. revert a E. induction fs as [|f fs IH]; intros a E; cbn [each_fn].
  - unfold mret, M_ret. f_equal. by case_match; rewrite ?logged_nil.
  - unfold mbind, M_bind. rewrite (register_late _ _ ok x last) by done. rewrite IH by done. f_equal. rewrite logged_logged.
    by destruct (Bool.eqb _ _).
Qed.
Lemma always_settled ok x last a v : r_deferred (a_req a) = Settled ok x last →
  xhr_always fn_id v a = (Ret tt, logged (calls_of (fn_id <$> fns_of v) x) a).
Proof.
  intros E. unfold xhr_always, mbind, M_bind. rewrite (add_settled Resolve ok x last) by done.
  rewrite (add_settled Reject ok x last) by done. rewrite logged_logged. f_equal. destruct ok; cbn; [by rewrite app_nil_r|done].
Qed.

(** The arguments of the functions, by the verdict. *)
Definition report_args (v : verdict) : args := if v_ok v then [v_data v; v_text v; jqXHR] else [jqXHR; v_text v; v_error v].
Definition chosen {A} (v : verdict) (ds fs : A) : A := if v_ok v then ds else fs.

Definition global_outcome (g : bool) (v : verdict) : list ajax_effect :=
  if g then [Triggers (if v_ok v then "ajaxSuccess" else "ajaxError")] else [].
Definition global_end (g : bool) (active : Z) : list ajax_effect :=
  if g then Triggers "ajaxComplete" :: (if (active =? 1)%Z then [Triggers "ajaxStop"] else []) else [].

Lemma act_pending v a ds fs ps last : r_deferred (a_req a) = Pending ds fs ps last →
  on_deferred (if v_ok v then Act Resolve [v_data v; v_text v; jqXHR] else Act Reject [jqXHR; v_text v; v_error v]) a =
  (Ret tt, logged (calls_of (chosen v ds fs) (report_args v)) {| a_req := up_deferred (Settled (v_ok v) (report_args v) last) (a_req a); a_shared := a_shared a |}).
Proof.
  intros E. unfold on_deferred, mbind, M_bind, asks, gets, on_req, tell, on_shared, modify, logged, report_args, chosen. rewrite E.
  destruct (v_ok v); cbn [promise_step fst snd a_req a_shared]; by rewrite calls_all.
Qed.
Lemma complete_pending t a cs c2 c3 c4 : r_complete (a_req a) = Pending cs c2 c3 c4 →
  on_complete (Act Resolve [jqXHR; t]) a =
  (Ret tt, logged (calls_of cs [jqXHR; t]) {| a_req := up_complete (Settled true [jqXHR; t] c4) (a_req a); a_shared := a_shared a |}).
Proof.
  intros E. unfold on_complete, mbind, M_bind, asks, gets, on_req, tell, on_shared, modify, logged. rewrite E.
  cbn [promise_step fst snd a_req a_shared]. by rewrite calls_all.
Qed.
Lemma less_log a : ∃ a', one_request_less a = (Ret tt, a') ∧ g_log (a_shared a') = g_log (a_shared a) ++ global_end true (g_active (a_shared a)).
Proof.
  destruct a as [r g]. unfold one_request_less, mbind, M_bind, gets, tell, on_shared, modify. cbn [a_req a_shared up_active up_log g_log g_active].
  unfold global_end. replace (g_active g =? 1)%Z with (g_active g - 1 =? 0)%Z by (destruct (g_active g - 1 =? 0)%Z eqn:E; lia).
  destruct (g_active g - 1 =? 0)%Z; eexists; (split; [reflexivity|]); cbn [a_shared up_log g_log up_active]; [by rewrite <- app_assoc|done].
Qed.

Lemma status_code_settled table ps a ok x last : r_deferred (a_req a) = Settled ok x last → r_state (a_req a) = 2 → table = VObj false ps →
  ∃ w, get table (dec_of_Z (r_status (a_req a))) = Ret w ∧ statusCode fn_id table a = (Ret tt, logged (calls_of (fn_id <$> fns_of w) x) a).
Proof.
  intros Ed Es ->. destruct (get (VObj false ps) (dec_of_Z (r_status (a_req a)))) as [w|e] eqn:Eg; [|done].
  exists w. split; [done|]. unfold statusCode, mbind, M_bind, asks, gets, lift. cbn [truthy]. rewrite Es. cbn [Nat.ltb Nat.leb].
  rewrite Eg. by rewrite (always_settled ok x last).
Qed.

Lemma report_log v a ds fs ps last cs c2 c3 c4 tbl :
  r_state (a_req a) = 2 → r_deferred (a_req a) = Pending ds fs ps last → r_complete (a_req a) = Pending cs c2 c3 c4 →
  r_statusCode (a_req a) = VObj false tbl →
  ∃ w a', get (VObj false tbl) (dec_of_Z (r_status (a_req a))) = Ret w ∧ report_verdict fn_id v a = (Ret tt, a') ∧
    g_log (a_shared a') = g_log (a_shared a) ++ calls_of (chosen v ds fs ++ (fn_id <$> fns_of w)) (report_args v) ++
      global_outcome (r_fireGlobals (a_req a)) v ++ calls_of cs [jqXHR; v_text v] ++ global_end (r_fireGlobals (a_req a)) (g_active (a_shared a)).
Proof.
  intros Es Ed Ec Et. unfold report_verdict.
  unfold mbind at 1, M_bind at 1. rewrite (act_pending v a ds fs ps last Ed).
  set (a1 := logged _ _). unfold mbind at 1, M_bind at 1, asks at 1, gets at 1. cbn beta iota.
  change (r_statusCode (a_req a1)) with (r_statusCode (a_req a)). rewrite Et.
  destruct (status_code_settled (VObj false tbl) tbl a1 (v_ok v) (report_args v) last eq_refl Es eq_refl) as (w & Hw & Hs).
  exists w. change (r_status (a_req a1)) with (r_status (a_req a)) in Hw.
  unfold mbind at 1, M_bind at 1. rewrite Hs. unfold mbind at 1, M_bind at 1, on_req at 1, modify at 1. cbn beta iota.
  set (a2 := {| a_req := up_statusCode VUndef _; a_shared := _ |}).
  unfold mbind at 1, M_bind at 1, asks at 1, gets at 1. cbn beta iota.
  change (r_fireGlobals (a_req a2)) with (r_fireGlobals (a_req a)). set (g := r_fireGlobals (a_req a)).
  assert ((if g then tell [Triggers (if v_ok v then "ajaxSuccess" else "ajaxError")] else mret tt) a2 = (Ret tt, logged (global_outcome g v) a2)) as E3.
  { destruct g; [done|]. unfold mret, M_ret. f_equal. by rewrite logged_nil. }
  unfold mbind at 1, M_bind at 1. rewrite E3. unfold mbind at 1, M_bind at 1.
  rewrite (complete_pending (v_text v) (logged (global_outcome g v) a2) cs c2 c3 c4 Ec). set (a3 := logged (calls_of cs _) _).
  assert (g_log (a_shared a3) = g_log (a_shared a) ++ calls_of (chosen v ds fs ++ (fn_id <$> fns_of w)) (report_args v) ++
    global_outcome g v ++ calls_of cs [jqXHR; v_text v]) as E4.
  { unfold a3, a2, a1, logged, up_log. cbn [a_req a_shared g_log]. unfold calls_of. rewrite fmap_app. by rewrite <- !app_assoc. }
  change (g_active (a_shared a)) with (g_active (a_shared a3)). destruct g.
  - destruct (less_log a3) as (a' & H & Hl). exists a'. split; [done|]. split; [done|]. rewrite Hl, E4. by rewrite <- !app_assoc.
  - exists a3. split; [done|]. split; [done|]. rewrite E4. cbn [global_end]. by rewrite app_nil_r.
Qed.

(** ** Reading the response *)

(** What the report depends on. *)
Definition reported (a : ajax) :=
  (r_state (a_req a), r_deferred (a_req a), r_complete (a_req a), r_statusCode (a_req a), r_fireGlobals (a_req a),
   g_active (a_shared a), g_log (a_shared a)).

Ltac reads := repeat first [progress intros|apply frame_bind|by intros [? ?]|case_match].

Lemma frame_setting k : frame reported (setting k).
Proof. unfold setting. reads. Qed.
Lemma frame_header k : frame reported (getResponseHeader k).
Proof. unfold getResponseHeader. reads. Qed.
Lemma frame_responses rs : frame reported (read_responses test rs).
Proof. unfold read_responses. destruct rs; [|by intros]. apply frame_bind; [done|]. intros. apply frame_bind; [done|]. intros.
  apply frame_bind; [apply frame_header|]. intros. apply frame_bind; [done|]. intros. by apply frame_bind. Qed.
Lemma frame_modified : frame reported remember_modified.
Proof.
  unfold remember_modified. apply frame_bind; [apply frame_setting|]. intros v. destruct (truthy v); [|done].
  apply frame_bind; [done|]. intros u. apply frame_bind; [apply frame_header|]. intros l. apply frame_bind; [apply frame_header|]. done.
Qed.

Lemma judge_frame status n x : frame reported (judge apply status n x).
Proof.
  unfold judge. destruct (success_status status); [|done]. apply frame_bind; [apply frame_modified|]. intros _.
  destruct (status =? 204)%Z; [done|]. destruct (status =? 304)%Z; [done|]. apply frame_bind; [done|]. intros s.
  apply frame_bind; [done|]. intros types. destruct (ajaxConvert _ _ _ _ _); [|done]. by apply frame_bind.
Qed.

(** Success needs a good status, and another status is a failure. *)
Lemma judge_verdict status n x a v a' : judge apply status n x a = (Ret v, a') →
  if success_status status then v_status v = status else v = failure_verdict status n.
Proof.
  unfold judge. destruct (success_status status); [|by intros [= <- _]]. intros H. apply bind_returns in H as (? & a1 & _ & H).
  destruct (status =? 204)%Z; [by injection H as <-|]. destruct (status =? 304)%Z; [by injection H as <-|].
  apply bind_returns in H as (s & a2 & _ & H). apply bind_returns in H as (types & a3 & _ & H).
  destruct (ajaxConvert _ _ _ _ _) as [c|]; [|done]. apply bind_returns in H as (c' & a4 & _ & H). injection H as <- _.
  by destruct c'.
Qed.

End report.

(** A request that fails with a status for which there is a function. *)
Definition failing : ajax := {|
  a_req := up_statusCode (VObj false [("404", VFun "gone")]) (up_fireGlobals true
    (up_deferred (Pending [1] [2] [] None) (up_complete (Pending [3] [] [] None) (new_request VUndef (VObj false [])))));
  a_shared := up_active 1 (p_shared (new_page 7)) |}.

