(* ===== verification/XhrTransport.v ===== *)
(** * The transport over XMLHttpRequest (jquery-1.9.1.js)

    The transport that jQuery registers for all data types, with the option [xhr] of
    the library: which requests it takes, what it does with the browser's request object, and when it reports to
    the callback of [jQuery.ajax].  The browser is a parameter: which objects it can
    create, what they refuse, and, with every event, what the object shows; reading
    a property may throw.  The listener and the flags around it are the state. *)

From Stdlib Require Import SpecFloat.
From S2P Require Import Prelude JSNum JSValue JSON NodeUrl Regex JQueryCore JQueryParam Forms JQueryDeferred DeferredFacts AjaxSubmit AjaxBase Ajax AjaxFacts.

Inductive xhr_effect :=
| Opens (a : list value)
| SetsField (k : string) (v : value)
| OverridesMime (v : value)
| SetsHeader (k : string) (v : value)
| SendsBody (v : value)
| CancelsXhr
| CompletesError (e : exn)                                   (* [complete(-1, e)] *)
| Completes (status : option Z) (text : value) (responses : list (string * value)) (headers : value).

(** What the object shows. *)
Record xhr_view := {
  xv_readyState : Z;
  xv_status : res Z;
  xv_headers : res value;
  xv_responseText : res value;
  xv_statusText : res string
}.

Record xhr_state := {
  x_callback : bool;       (* the variable [callback] is set *)
  x_handle : bool;
  x_listening : bool;      (* [xhr.onreadystatechange] is the callback *)
  x_timer : bool;          (* [setTimeout(callback)] *)
  x_kept : bool;           (* in [xhrCallbacks] *)
  x_log : list xhr_effect
}.

Definition new_xhr_state : xhr_state :=
  {| x_callback := false; x_handle := false; x_listening := false; x_timer := false; x_kept := false; x_log := [] |}.

Definition x_emit (e : xhr_effect) : M xhr_state unit := modify (λ x,
  {| x_callback := x_callback x; x_handle := x_handle x; x_listening := x_listening x; x_timer := x_timer x; x_kept := x_kept x; x_log := x_log x ++ [e] |}).
Definition x_flags (cb handle listening timer kept : bool) : M xhr_state unit := modify (λ x,
  {| x_callback := cb; x_handle := handle; x_listening := listening; x_timer := timer; x_kept := kept; x_log := x_log x |}).

Section xhr.
Context (activeX : bool).                           (* [window.ActiveXObject] *)
Context (standard active : bool).                   (* which constructors succeed *)
Context (cors : bool).                              (* [withCredentials] is known *)
Context (can_override : bool).
Context (opens : option exn) (body_sent : option exn).
Context (refuses : string → value → option exn).    (* [xhr.setRequestHeader] *)

(** [jQuery.ajaxSettings.xhr], with whether an object comes out. *)
Definition create_xhr (isLocal : bool) : bool := if activeX then negb isLocal && standard || active else standard.

(** [jQuery.support.cors] and [jQuery.support.ajax] *)
Definition support_ajax (isLocal : bool) : bool := create_xhr isLocal.
Definition support_cors (isLocal : bool) : bool := create_xhr isLocal && cors.

(** The factory: cross domain requests only where they are supported. *)
Definition xhr_factory (isLocal : bool) (s : value) : res value :=
  cross ← get s "crossDomain";
  Ret (if negb (truthy cross) || support_cors isLocal then VFun "xhr" else VUndef).

(** ** The listener *)

(** Status quirks of local files and of Internet Explorer. *)
Definition filter_status (s : value) (status : Z) (responses : list (string * value)) : res Z :=
  local ← get s "isLocal";
  cross ← get s "crossDomain";
  Ret (if (status =? 0)%Z && truthy local && negb (truthy cross) then
         (if truthy (default VUndef (assoc "text" responses)) then 200 else 404)%Z
       else if (status =? 1223)%Z then 204%Z else status).

Record reading := { rd_status : option Z; rd_headers : value; rd_responses : list (string * value); rd_text : value }.
Definition no_reading : reading := {| rd_status := None; rd_headers := VUndef; rd_responses := []; rd_text := VUndef |}.

(** The reading of the object; an exception keeps what was read before it. *)
Definition read_xhr (s : value) (v : xhr_view) : reading * option exn :=
  match xv_status v with
  | Throw e => (no_reading, Some e)
  | Ret st =>
      match xv_headers v with
      | Throw e => ({| rd_status := Some st; rd_headers := VUndef; rd_responses := []; rd_text := VUndef |}, Some e)
      | Ret hs =>
          match xv_responseText v with
          | Throw e => ({| rd_status := Some st; rd_headers := hs; rd_responses := []; rd_text := VUndef |}, Some e)
          | Ret t =>
              let responses := match t with VStr _ => [("text", t)] | _ => [] end in
              let text := VStr match xv_statusText v with Ret t => t | Throw _ => "" end in
              match filter_status s st responses with
              | Ret st' => ({| rd_status := Some st'; rd_headers := hs; rd_responses := responses; rd_text := text |}, None)
              | Throw e => ({| rd_status := Some st; rd_headers := hs; rd_responses := responses; rd_text := text |}, Some e)
              end
          end
      end
  end.

(** [callback(_, isAbort)] *)
Definition listener (s : value) (isAbort : bool) (v : xhr_view) : M xhr_state unit :=
  x ← gets (λ x, x);
  if x_callback x && (isAbort || (xv_readyState v =? 4)%Z) then
    x_flags false (x_handle x) (negb (x_handle x) && x_listening x) (x_timer x) (negb (x_handle x && activeX) && x_kept x);;
    if isAbort then
      if (xv_readyState v =? 4)%Z : bool then mret tt else x_emit CancelsXhr
    else
      let '(r, e) := read_xhr s v in
      (match e with Some e => x_emit (CompletesError e) | None => mret tt end);;
      x_emit (Completes (rd_status r) (rd_text r) (rd_responses r) (rd_headers r))
  else mret tt.

(** ** Sending *)

Definition requested_with (s : value) (h : headers) : res headers :=
  cross ← get s "crossDomain";
  Ret (if negb (truthy cross) && negb (truthy (default VUndef (assoc "X-Requested-With" h)))
       then prop_put "X-Requested-With" (VStr "XMLHttpRequest") h else h).

(** An exception ends the loop, and is dropped. *)
Fixpoint apply_headers (h : headers) : M xhr_state unit :=
  match h with
  | [] => mret tt
  | (k, v) :: h' => match refuses k v with Some _ => mret tt | None => x_emit (SetsHeader k v);; apply_headers h' end
  end.

Fixpoint apply_fields (ps : list (string * value)) : M xhr_state unit :=
  match ps with [] => mret tt | (k, v) :: ps' => x_emit (SetsField k v);; apply_fields ps' end.

Definition open_args (s : value) : res (list value) :=
  type ← get s "type"; url ← get s "url"; async ← get s "async"; username ← get s "username"; password ← get s "password";
  Ret (if truthy username then [type; url; async; username; password] else [type; url; async]).

Definition body_of (s : value) : res value :=
  has ← get s "hasContent"; data ← get s "data";
  Ret (if truthy has && truthy data then data else VNull).

Definition or_raise (e : option exn) : M xhr_state unit := match e with Some e => raise e | None => mret tt end.

(** [send(headers, complete)]; [v] is what the object shows afterwards. *)
Definition xhr_send (s : value) (h : headers) (v : xhr_view) : M xhr_state unit :=
  isLocal ← lift (get s "isLocal");
  (if create_xhr (truthy isLocal) then mret tt else raise TypeError);;
  a ← lift (open_args s);
  x_emit (Opens a);; or_raise opens;;
  fields ← lift (get s "xhrFields");
  apply_fields (own_props fields);;
  mime ← lift (get s "mimeType");
  (if truthy mime && can_override then x_emit (OverridesMime mime) else mret tt);;
  h' ← lift (requested_with s h);
  apply_headers h';;
  b ← lift (body_of s);
  x_emit (SendsBody b);; or_raise body_sent;;
  async ← lift (get s "async");
  x_flags true false false false false;;
  if negb (truthy async) then listener s false v
  else if (xv_readyState v =? 4)%Z : bool then x_flags true false false true false
  else x_flags true true true false activeX.

(** [abort()] *)
Definition xhr_cancel (s : value) (v : xhr_view) : M xhr_state unit :=
  cb ← gets x_callback;
  if cb : bool then listener s true v else mret tt.

(** ** Events *)

Inductive xhr_event :=
| XReady (v : xhr_view)       (* [onreadystatechange] *)
| XTimer (v : xhr_view)
| XAbort (v : xhr_view)       (* [jQuery.ajax] aborts *)
| XUnload (v : xhr_view).     (* the page goes away *)

Definition xhr_step (s : value) (ev : xhr_event) : M xhr_state unit :=
  x ← gets (λ x, x);
  match ev with
  | XReady v => if x_listening x then listener s false v else mret tt
  | XTimer v => if x_timer x then x_flags (x_callback x) (x_handle x) (x_listening x) false (x_kept x);; listener s false v else mret tt
  | XAbort v => xhr_cancel s v
  | XUnload v => if x_kept x then listener s true v else mret tt
  end.

Fixpoint xhr_steps (s : value) (evs : list xhr_event) : M xhr_state unit :=
  match evs with [] => mret tt | ev :: evs' => xhr_step s ev;; xhr_steps s evs' end.

(** ** What is reported *)

Definition is_report (e : xhr_effect) : bool := match e with CompletesError _ | Completes _ _ _ _ => true | _ => false end.
Definition reports (x : xhr_state) : list xhr_effect := List.filter is_report (x_log x).

(** The reports that one reading of the object makes. *)
Definition reading_reports (s : value) (v : xhr_view) : list xhr_effect :=
  let '(r, e) := read_xhr s v in
  (match e with Some e => [CompletesError e] | None => [] end) ++ [Completes (rd_status r) (rd_text r) (rd_responses r) (rd_headers r)].

(** Nothing reported yet, or one reading of a finished object and no listener. *)
Definition once (s : value) (x : xhr_state) : Prop :=
  reports x = [] ∨ (x_callback x = false ∧ ∃ v, xv_readyState v = 4%Z ∧ reports x = reading_reports s v).

Lemma reports_emit e x : reports (x_emit e x).2 = reports x ++ (if is_report e then [e] else []).
Proof. unfold reports, x_emit, modify. cbn [snd x_log]. rewrite List.filter_app. cbn [List.filter]. by destruct (is_report e). Qed.

Lemma listener_once s isAbort v x : once s x → once s (listener s isAbort v x).2.
Proof.
  intros Hx. unfold listener, mbind, M_bind, gets. destruct (x_callback x && _) eqn:E; [|done].
  apply andb_true_iff in E as [Ec Er]. destruct Hx as [Hx|[Hc _]]; [|by rewrite Ec in Hc].
  unfold x_flags, modify. cbn beta iota. set (x1 := {| x_callback := false |}). assert (reports x1 = []) as H1 by exact Hx.
  assert (x_callback x1 = false) as C1 by done. clearbody x1. destruct isAbort.
  - destruct (xv_readyState v =? 4)%Z; [by left|]. left. by rewrite reports_emit, H1.
  - cbn [orb] in Er. apply Z.eqb_eq in Er. right. unfold reading_reports. destruct (read_xhr s v) as [r e] eqn:Erd.
    split; [by destruct e|]. exists v. split; [done|]. rewrite Erd. destruct e as [e|].
    + change (reports (x_emit (Completes (rd_status r) (rd_text r) (rd_responses r) (rd_headers r)) (x_emit (CompletesError e) x1).2).2 =
        [CompletesError e] ++ [Completes (rd_status r) (rd_text r) (rd_responses r) (rd_headers r)]). by rewrite !reports_emit, H1.
    + change (reports (x_emit (Completes (rd_status r) (rd_text r) (rd_responses r) (rd_headers r)) x1).2 =
        [Completes (rd_status r) (rd_text r) (rd_responses r) (rd_headers r)]). by rewrite reports_emit, H1.
Qed.

(** Computations without reports. *)
Definition mute {A} (m : M xhr_state A) : Prop := ∀ x, reports (m x).2 = reports x.

Lemma mute_bind {A B} (m : M xhr_state A) (k : A → M xhr_state B) : mute m → (∀ y, mute (k y)) → mute (m ≫= k).
Proof.
  intros Hm Hk x. unfold mbind, M_bind. specialize (Hm x). destruct (m x) as [[y|e] x1]; cbn [snd] in *; [|done]. by rewrite Hk.
Qed.
Lemma mute_emit e : is_report e = false → mute (x_emit e).
Proof. intros H x. rewrite reports_emit, H. apply app_nil_r. Qed.
Lemma mute_fields ps : mute (apply_fields ps).
Proof. induction ps as [|[k v] ps IH]; cbn [apply_fields]; [done|]. apply mute_bind; [by apply mute_emit|done]. Qed.
Lemma mute_headers h : mute (apply_headers h).
Proof.
  induction h as [|[k v] h IH]; cbn [apply_headers]; [done|]. destruct (refuses k v); [done|]. apply mute_bind; [by apply mute_emit|done].
Qed.
Lemma mute_raise e : mute (or_raise e).
Proof. by destruct e. Qed.

(** A step in front of one that keeps [once]. *)
Lemma once_after {A} s (m : M xhr_state A) (k : A → M xhr_state unit) x : mute m → reports x = [] →
  (∀ y x1, reports x1 = [] → once s (k y x1).2) → once s ((m ≫= k) x).2.
Proof.
  intros Hm Hx Hk. unfold mbind, M_bind. specialize (Hm x). destruct (m x) as [[y|e] x1]; cbn [snd] in *.
  - apply Hk. by rewrite Hm.
  - left. by rewrite Hm.
Qed.

Lemma send_once s h v x : reports x = [] → once s (xhr_send s h v x).2.
Proof.
  intros Hx. unfold xhr_send. revert x Hx.
  assert (∀ x, reports x = [] → once s ((async ← lift (get s "async"); x_flags true false false false false;;
    if negb (truthy async) then listener s false v
    else if (xv_readyState v =? 4)%Z : bool then x_flags true false false true false else x_flags true true true false activeX) x).2) as Hend.
  { intros x Hx. apply once_after; [done|done|]. intros async x1 H1. apply once_after; [done|done|]. intros _ x2 H2.
    destruct (negb (truthy async)); [by apply listener_once; left|]. destruct (xv_readyState v =? 4)%Z; by left. }
  intros x Hx. do 1 (apply once_after; [done|done|]; intros ? ? ?). apply once_after; [by destruct (create_xhr _)|done|]. intros _ x2 H2.
  apply once_after; [done|done|]. intros a x3 H3. apply once_after; [by apply mute_emit|done|]. intros _ x4 H4.
  apply once_after; [apply mute_raise|done|]. intros _ x5 H5. apply once_after; [done|done|]. intros fields x6 H6.
  apply once_after; [apply mute_fields|done|]. intros _ x7 H7. apply once_after; [done|done|]. intros mime x8 H8.
  apply once_after; [destruct (_ && _); [by apply mute_emit|done]|done|]. intros _ x9 H9. apply once_after; [done|done|]. intros h' x10 H10.
  apply once_after; [apply mute_headers|done|]. intros _ x11 H11. apply once_after; [done|done|]. intros b x12 H12.
  apply once_after; [by apply mute_emit|done|]. intros _ x13 H13. apply once_after; [apply mute_raise|done|]. intros _ x14 H14.
  by apply Hend.
Qed.

Lemma step_once s ev x : once s x → once s (xhr_step s ev x).2.
Proof.
  intros Hx. unfold xhr_step, mbind, M_bind, gets. destruct ev as [v|v|v|v].
  - destruct (x_listening x); [by apply listener_once|done].
  - destruct (x_timer x); [|done]. unfold x_flags, modify. cbn beta iota. by apply listener_once.
  - unfold xhr_cancel, mbind, M_bind, gets. destruct (x_callback x); [by apply listener_once|done].
  - destruct (x_kept x); [by apply listener_once|done].
Qed.
Lemma steps_once s evs x : once s x → once s (xhr_steps s evs x).2.
Proof.
  revert x. induction evs as [|ev evs IH]; intros x Hx; [done|]. cbn [xhr_steps]. unfold mbind, M_bind.
  pose proof (step_once s ev x Hx) as H1. destruct (xhr_step s ev x) as [[y|e] x1]; [by apply IH|done].
Qed.

(** Without a callback nothing happens any more. *)
Lemma listener_off s b v x : x_callback x = false → listener s b v x = (Ret tt, x).
Proof. intros H. unfold listener, mbind, M_bind, gets. by rewrite H. Qed.
Lemma steps_off s evs x : x_callback x = false → reports (xhr_steps s evs x).2 = reports x.
Proof.
  revert x. induction evs as [|ev evs IH]; intros x Hx; [done|]. cbn [xhr_steps]. unfold mbind, M_bind.
  assert (∃ x1, xhr_step s ev x = (Ret tt, x1) ∧ x_callback x1 = false ∧ reports x1 = reports x) as (x1 & -> & H1 & H2); [|by rewrite IH].
  unfold xhr_step, mbind, M_bind, gets. destruct ev as [v|v|v|v].
  - destruct (x_listening x); rewrite ?listener_off by done; by eexists.
  - destruct (x_timer x); [|by eexists]. unfold x_flags, modify. cbn beta iota. rewrite listener_off by done. by eexists.
  - unfold xhr_cancel, mbind, M_bind, gets. rewrite Hx. by eexists.
  - destruct (x_kept x); rewrite ?listener_off by done; by eexists.
Qed.
Lemma cancel_off s v x : ∃ x1, xhr_step s (XAbort v) x = (Ret tt, x1) ∧ x_callback x1 = false ∧ reports x1 = reports x.
Proof.
  unfold xhr_step, xhr_cancel, mbind, M_bind, gets. destruct (x_callback x) eqn:E; [|by eexists].
  unfold listener, mbind, M_bind, gets, x_flags, modify. rewrite E. cbn [andb orb].
  destruct (xv_readyState v =? 4)%Z; eexists; (split; [reflexivity|]); (split; [done|]); [done|].
  unfold reports. cbn [x_log]. rewrite List.filter_app. apply app_nil_r.
Qed.

(** Whatever the browser shows and whatever happens after a request is sent:
    the transport reports at most one reading of the object, made when it is
    finished, and once it is aborted it reports nothing more. *)
Theorem xhr_reports_once s h v evs evs' w :
  let x := ((xhr_send s h v;; xhr_steps s evs) new_xhr_state).2 in
  (reports x = [] ∨ ∃ u, xv_readyState u = 4%Z ∧ reports x = reading_reports s u) ∧
  reports (xhr_steps s (XAbort w :: evs') x).2 = reports x.
Proof.
  intros x. split.
  - assert (once s x) as [Hx|(_ & Hx)]; [|by left|by right]. unfold x, mbind, M_bind.
    pose proof (send_once s h v new_xhr_state eq_refl) as H. destruct (xhr_send s h v new_xhr_state) as [[y|e] x1]; [by apply steps_once|done].
  - cbn [xhr_steps]. destruct (cancel_off s w x) as (x1 & E & H1 & H2). unfold mbind, M_bind. rewrite E. by rewrite steps_off.
Qed.
End xhr.

(** A request that is answered. *)
Definition sample_view (ready : Z) : xhr_view :=
  {| xv_readyState := ready; xv_status := Ret 200%Z; xv_headers := Ret (VStr ""); xv_responseText := Ret (VStr "ok"); xv_statusText := Ret "OK" |}.
Definition xhr_settings (cross : bool) : value :=
  VObj false [("type", VStr "POST"); ("url", VStr "/save"); ("async", VBool true); ("isLocal", VBool false); ("crossDomain", VBool cross);
              ("hasContent", VBool true); ("data", VStr "k=v")].
Definition sample_xhr (h : headers) : xhr_state :=
  ((xhr_send false true false true None None (λ _ _, None) (xhr_settings false) h (sample_view 1);;
    xhr_steps false (xhr_settings false) [XReady (sample_view 2); XReady (sample_view 4); XReady (sample_view 4)]) new_xhr_state).2.

Example xhr_answered :
  x_log (sample_xhr [("Accept", VStr "*/*")]) =
  [Opens [VStr "POST"; VStr "/save"; VBool true]; SetsHeader "Accept" (VStr "*/*"); SetsHeader "X-Requested-With" (VStr "XMLHttpRequest");
   SendsBody (VStr "k=v"); Completes (Some 200%Z) (VStr "OK") [("text", VStr "ok")] (VStr "")].
Proof. vm_compute. reflexivity. Qed.

(** The header X-Requested-With is not left alone when it is given in another
    spelling: the object is told twice, and joins the values. *)
Theorem requested_with_doubled :
  List.filter (λ e, match e with SetsHeader _ _ => true | _ => false end) (x_log (sample_xhr [("x-requested-with", VStr "me")])) =
  [SetsHeader "x-requested-with" (VStr "me"); SetsHeader "X-Requested-With" (VStr "XMLHttpRequest")].
Proof. vm_compute. reflexivity. Qed.
