(* ===== verification/Jsonp.v ===== *)
(** * Scripts and JSONP (jquery-1.9.1.js)

    The prefilter and the transport for scripts, and the prefilter that turns a
    request for JSON into one for a script which calls a function with the data.
    The functions that jQuery puts into [window] are known by the number of their
    request; the page's own functions that make up a name are the parameter [names].
    The name of the function is used as it is in the address. *)

From Stdlib Require Import SpecFloat.
From S2P Require Import Prelude JSNum JSValue JSON NodeUrl Regex JQueryCore JQueryParam Forms JQueryDeferred DeferredFacts AjaxSubmit AjaxBase Ajax AjaxFacts XhrTransport.

(** ** Scripts *)

(** The prefilter for scripts. *)
Definition script_prefilter (s : value) : res value :=
  cache ← get s "cache";
  let s := match cache with VUndef => put s "cache" (VBool false) | _ => s end in
  cross ← get s "crossDomain";
  Ret (if truthy cross then put (put s "type" (VStr "GET")) "global" (VBool false) else s).

(** The transport only deals with cross domain requests. *)
Definition script_factory (s : value) : res value :=
  cross ← get s "crossDomain";
  Ret (if truthy cross then VFun "script" else VUndef).

Inductive script_effect :=
| InsertsScript (src charset : value)
| RemovesScript
| ScriptDone.                     (* [callback(200, "success")] *)

Record script_state := {
  sc_script : bool;               (* the variable [script] *)
  sc_handlers : bool;             (* [onload] and [onreadystatechange] *)
  sc_attached : bool;             (* it has a parent *)
  sc_log : list script_effect
}.

Definition script_send (s : value) : M script_state unit :=
  charset ← lift (get s "scriptCharset");
  url ← lift (get s "url");
  modify (λ x, {| sc_script := true; sc_handlers := true; sc_attached := true;
                  sc_log := sc_log x ++ [InsertsScript url (if truthy charset then charset else VUndef)] |}).

(** [/loaded|complete/.test(script.readyState)], or the browser has no such property. *)
Definition script_ready (readyState : option string) : bool :=
  match readyState with Some t => String.eqb t "" || occurs "loaded" t || occurs "complete" t | None => true end.

(** The handler; only called while it is attached. *)
Definition script_onload (readyState : option string) (isAbort : bool) : M script_state unit :=
  if isAbort || script_ready readyState then
    modify (λ x, {| sc_script := false; sc_handlers := false; sc_attached := false;
                    sc_log := sc_log x ++ (if sc_attached x then [RemovesScript] else []) ++ (if isAbort then [] else [ScriptDone]) |})
  else mret tt.

Inductive script_event := ScLoad (readyState : option string) | ScAbort.

Definition script_step (ev : script_event) : M script_state unit :=
  x ← gets (λ x, x);
  match ev with
  | ScLoad r => if sc_handlers x then script_onload r false else mret tt
  | ScAbort => if sc_script x then script_onload None true else mret tt
  end.
Fixpoint script_steps (evs : list script_event) : M script_state unit :=
  match evs with [] => mret tt | ev :: evs' => script_step ev;; script_steps evs' end.

(** ** JSONP *)

(** An equals sign and a question mark at the end of a parameter, or two question marks. *)
Definition rjsonp : re :=
  Alt (seqs [Group 1 (lit "="); lit "?"; NegLook (Chr (λ c, negb (Ascii.eqb c "&")))]) (Seq (lit "?") (lit "?")).

Record jsonp_request := {
  jr_name : string;
  jr_overwritten : value;
  jr_container : option value;
  jr_s : value;                  (* the settings *)
  jr_original : value            (* [originalSettings.jsonpCallback] *)
}.

Record jsonp_world := {
  j_window : list (string * value);
  j_old : list string;            (* [oldCallbacks], the last one first *)
  j_nonce : Z;
  j_requests : list jsonp_request;
  j_calls : list (string * value) (* calls of the page's functions *)
}.

Definition installed (i : nat) : string := "jsonp " +:+ dec_of_N (N.of_nat i).

Definition window_at (w : jsonp_world) (k : string) : value := default VUndef (assoc k (j_window w)).

Section jsonp.
Context (expando : string).
Context (names : string → string).

(** The default [jsonpCallback], called on the settings. *)
Definition default_name (s : value) : M jsonp_world (string * value) := λ w,
  match j_old w with
  | n :: old =>
      if String.eqb n "" then
        let n := expando +:+ "_" +:+ dec_of_Z (j_nonce w) in
        (Ret (n, put s n (VBool true)), {| j_window := j_window w; j_old := old; j_nonce := j_nonce w + 1; j_requests := j_requests w; j_calls := j_calls w |})
      else (Ret (n, put s n (VBool true)), {| j_window := j_window w; j_old := old; j_nonce := j_nonce w; j_requests := j_requests w; j_calls := j_calls w |})
  | [] =>
      let n := expando +:+ "_" +:+ dec_of_Z (j_nonce w) in
      (Ret (n, put s n (VBool true)), {| j_window := j_window w; j_old := []; j_nonce := j_nonce w + 1; j_requests := j_requests w; j_calls := j_calls w |})
  end.

Definition callback_name (s : value) : M jsonp_world (string * value) :=
  f ← lift (get s "jsonpCallback");
  ns ← match f with
       | VFun g => if String.eqb g "jsonpCallback" then default_name s else mret (names g, s)
       | _ => n ← lift (to_string f); mret (n, s)
       end;
  mret (ns.1, put ns.2 "jsonpCallback" (VStr ns.1)).

(** Where the function is to be named, when a place is marked. *)
Definition json_prop (s : value) : res (option string) :=
  jsonp ← get s "jsonp";
  url ← get s "url";
  data ← get s "data";
  ct ← get s "contentType";
  match jsonp with
  | VBool false => Ret None
  | _ =>
      u ← to_string url;
      if matches 2 rjsonp u then Ret (Some "url")
      else match data with
           | VStr d =>
               c ← (if truthy ct then text_of ct else Ret "");
               Ret (if String.prefix "application/x-www-form-urlencoded" c && matches 2 rjsonp d then Some "data" else None)
           | _ => Ret None
           end
  end.

Definition insert_name (n text : string) : string := replace_match 2 rjsonp (λ cs, default "" (mjoin (cs !! 1)) +:+ n) text.

(** The name in the address or in the data, or as a further parameter. *)
Definition name_in_request (prop : option string) (n : string) (s : value) : res value :=
  match prop with
  | Some p => v ← get s p; t ← to_string v; Ret (put s p (VStr (insert_name n t)))
  | None =>
      jsonp ← get s "jsonp";
      match jsonp with
      | VBool false => Ret s
      | _ => v ← get s "url"; u ← to_string v; j ← to_string jsonp;
             Ret (put s "url" (VStr (u +:+ query_sep u +:+ j +:+ "=" +:+ n)))
      end
  end.

(** The prefilter; the result is [None] when the request is left alone, and else the
    settings and the types it leaves, with which it hands over to "script". *)
Definition jsonp_prefilter (original s : value) (types : list string) : M jsonp_world (option (value * list string)) :=
  prop ← lift (json_prop s);
  if bool_decide (is_Some prop) || bool_decide (head types = Some "jsonp") then
    ns ← callback_name s;
    s2 ← lift (name_in_request prop ns.1 ns.2);
    convs ← lift (get s2 "converters");
    old ← lift (get original "jsonpCallback");
    i ← gets (λ w, length (j_requests w));
    let s3 := put s2 "converters" (put convs "script json" (VFun (installed i))) in
    modify (λ w, {| j_window := prop_put ns.1 (VFun (installed i)) (j_window w); j_old := j_old w; j_nonce := j_nonce w;
                    j_requests := j_requests w ++ [{| jr_name := ns.1; jr_overwritten := window_at w ns.1; jr_container := None; jr_s := s3; jr_original := old |}];
                    j_calls := j_calls w |});;
    mret (Some (s3, "json" :: drop 1 types))
  else mret None.

(** A call of a function of [window], jQuery's or the page's. *)
Definition call_window (f data : value) (w : jsonp_world) : jsonp_world :=
  match f with
  | VFun f =>
      match List.find (λ i, String.eqb f (installed i)) (seq 0 (length (j_requests w))) with
      | Some i =>
          {| j_window := j_window w; j_old := j_old w; j_nonce := j_nonce w;
             j_requests := alter (λ r, {| jr_name := jr_name r; jr_overwritten := jr_overwritten r; jr_container := Some data;
                                          jr_s := jr_s r; jr_original := jr_original r |}) i (j_requests w);
             j_calls := j_calls w |}
      | None => {| j_window := j_window w; j_old := j_old w; j_nonce := j_nonce w; j_requests := j_requests w; j_calls := j_calls w ++ [(f, data)] |}
      end
  | _ => w
  end.

(** The script of a response calls the function [n]. *)
Definition script_calls (n : string) (data : value) : M jsonp_world unit := λ w,
  match window_at w n with
  | VFun f => (Ret tt, call_window (VFun f) data w)
  | _ => (Throw TypeError, w)
  end.

(** The converter from "script" to "json". *)
Definition script_json (i : nat) (w : jsonp_world) : res value :=
  match j_requests w !! i with
  | Some r => match jr_container r with Some d => Ret d | None => Throw (Raised (jr_name r +:+ " was not called")) end
  | None => Throw TypeError
  end.

(** What the prefilter adds to the end of the request. *)
Definition jsonp_cleanup (i : nat) : M jsonp_world unit := modify (λ w,
  match j_requests w !! i with
  | None => w
  | Some r =>
      let generated := match get (jr_s r) (jr_name r) with Ret v => truthy v | Throw _ => false end in
      let w1 :=
        {| j_window := prop_put (jr_name r) (jr_overwritten r) (j_window w);
           j_old := if generated then jr_name r :: j_old w else j_old w;
           j_nonce := j_nonce w;
           j_requests := <[i := {| jr_name := jr_name r; jr_overwritten := VUndef; jr_container := None;
                                   jr_s := if generated then put (jr_s r) "jsonpCallback" (jr_original r) else jr_s r;
                                   jr_original := jr_original r |}]> (j_requests w);
           j_calls := j_calls w |} in
      match jr_container r with Some d => call_window (jr_overwritten r) d w1 | None => w1 end
  end).
End jsonp.

(** ** A script reports once *)

Definition completions (x : script_state) : nat :=
  length (List.filter (λ e, match e with ScriptDone => true | _ => false end) (sc_log x)).

(** While the handlers are there the script is, and nothing is reported. *)
Definition script_ok (x : script_state) : Prop :=
  (sc_handlers x = sc_script x) ∧ completions x + (if sc_script x then 1 else 0) ≤ 1.

Lemma onload_ok r b x : script_ok x → sc_script x = true → script_ok (script_onload r b x).2.
Proof.
  intros [H1 H2] Hs. unfold script_onload. destruct (b || script_ready r); [|done]. split; [done|].
  unfold completions, modify in *. cbn [snd sc_log sc_script]. rewrite Hs in H2. rewrite !List.filter_app, !length_app.
  destruct (sc_attached x), b; cbn; lia.
Qed.

(** Whatever the browser and the page do, a script that is sent reports its
    success at most once. *)
Theorem script_reports_once s evs log : completions {| sc_script := false; sc_handlers := false; sc_attached := false; sc_log := log |} = 0 →
  completions ((script_send s;; script_steps evs) {| sc_script := false; sc_handlers := false; sc_attached := false; sc_log := log |}).2 ≤ 1.
Proof.
  intros H0.
  assert (∀ evs x, script_ok x → script_ok (script_steps evs x).2) as Hsteps.
  { clear. intros evs. induction evs as [|ev evs IH]; intros x Hx; [done|]. cbn [script_steps]. unfold mbind, M_bind.
    assert (script_ok (script_step ev x).2) as H1.
    { unfold script_step, mbind, M_bind, gets. destruct ev as [r|].
      - destruct (sc_handlers x) eqn:E; [|done]. apply onload_ok; [done|]. destruct Hx as [Hx _]. by rewrite <- Hx.
      - destruct (sc_script x) eqn:E; [by apply onload_ok|done]. }
    destruct (script_step ev x) as [[y|e] x1]; [by apply IH|done]. }
  unfold script_send, mbind, M_bind, lift. destruct (get s "scriptCharset") as [c|]; [|cbn [snd]; lia].
  destruct (get s "url") as [u|]; [|cbn [snd]; lia]. unfold modify. cbn beta iota.
  match goal with |- completions (script_steps evs ?x).2 ≤ 1 => assert (script_ok x) as Hx end.
  { split; [done|]. unfold completions in *. cbn [sc_log sc_script] in *. rewrite List.filter_app, length_app. cbn. lia. }
  destruct (Hsteps evs _ Hx) as [_ H]. lia.
Qed.

(** ** A JSONP request leaves the window as it was *)

Lemma installed_inj i j : installed i = installed j → i = j.
Proof.
  unfold installed. intros H. assert (dec_of_N (N.of_nat i) = dec_of_N (N.of_nat j)) as E by (by injection H).
  apply (f_equal N_of_dec) in E. rewrite !N_of_dec_of_N in E. injection E as E. lia.
Qed.

Lemma find_installed i n : i < n → List.find (λ j, String.eqb (installed i) (installed j)) (seq 0 n) = Some i.
Proof.
  intros H. assert (∀ k m, k ≤ i → i < k + m → List.find (λ j, String.eqb (installed i) (installed j)) (seq k m) = Some i) as G.
  { intros k m. revert k. induction m as [|m IH]; intros k Hk Hm; [lia|]. cbn [seq List.find].
    destruct (String.eqb (installed i) (installed k)) eqn:E.
    - apply String.eqb_eq, installed_inj in E. by subst.
    - apply IH; [|lia]. assert (i ≠ k) by (intros ->; by rewrite String.eqb_refl in E). lia. }
  apply G; lia.
Qed.

Lemma find_foreign f l : (∀ i, f ≠ installed i) → List.find (λ j, String.eqb f (installed j)) l = None.
Proof. intros H. induction l as [|j l IH]; [done|]. cbn [List.find]. by rewrite (proj2 (String.eqb_neq _ _) (H j)). Qed.

Lemma call_window_frame f d w : j_window (call_window f d w) = j_window w.
Proof. unfold call_window. destruct f; try done. by case_match. Qed.

Section roundtrip.
Context (expando : string).
Context (names : string → string).

(** The choice of a name does not touch the window or the requests. *)
Lemma callback_name_frame s w ns w1 : callback_name expando names s w = (Ret ns, w1) →
  j_window w1 = j_window w ∧ j_requests w1 = j_requests w ∧ j_calls w1 = j_calls w.
Proof.
  unfold callback_name, mbind, M_bind, lift. destruct (get s "jsonpCallback") as [f|]; [|done].
  assert (∀ g, (if String.eqb g "jsonpCallback" then default_name expando s else mret (names g, s)) w = (Ret (names g, s), w) ∨
    ∃ x w2, (if String.eqb g "jsonpCallback" then default_name expando s else mret (names g, s)) w = (Ret x, w2) ∧
      j_window w2 = j_window w ∧ j_requests w2 = j_requests w ∧ j_calls w2 = j_calls w) as Hfun.
  { intros g. destruct (String.eqb g "jsonpCallback"); [|by left]. right. unfold default_name.
    destruct (j_old w) as [|o old]; [|destruct (String.eqb o "")]; by do 2 eexists. }
  destruct f as [| | | | |g|]; try (destruct (to_string _); [|done]; by intros [= _ <-]).
  destruct (Hfun g) as [-> |(x & w2 & -> & H)]; unfold mret, M_ret; intros E; injection E as _ <-; done.
Qed.

(** A request over JSONP that was called gets the data of the call, and at its
    end every variable of the window has the value it had before, with the
    function of the page that was covered called with the data, too. *)
Theorem jsonp_roundtrip original s types w s' types' w1 d :
  jsonp_prefilter expando names original s types w = (Ret (Some (s', types')), w1) →
  ∃ n w2, jr_name <$> last (j_requests w1) = Some n ∧ script_calls n d w1 = (Ret tt, w2) ∧
    script_json (length (j_requests w)) w2 = Ret d ∧
    (∀ k, window_at (jsonp_cleanup (length (j_requests w)) w2).2 k = window_at w k) ∧
    (∀ f, window_at w n = VFun f → (∀ i, f ≠ installed i) →
       j_calls (jsonp_cleanup (length (j_requests w)) w2).2 = j_calls w ++ [(f, d)]).
Proof.
  intros H. unfold jsonp_prefilter, mbind, M_bind, lift, gets, modify in H. destruct (json_prop s) as [prop|]; [|done].
  destruct (bool_decide (is_Some prop) || _); [|done].
  destruct (callback_name expando names s w) as [[[n s1]|] w0] eqn:En; [|done]. cbn [fst snd] in H.
  destruct (name_in_request prop n s1) as [s2|]; [|done]. destruct (get s2 "converters") as [c|]; [|done].
  destruct (get original "jsonpCallback") as [old|]; [|done]. apply callback_name_frame in En as (E1 & E2 & E3).
  rewrite E2 in H. set (i := length (j_requests w)) in *. unfold mret, M_ret in H. injection H as _ _ Hw1.
  assert (window_at w0 n = window_at w n) as Ew by (unfold window_at; by rewrite E1).
  set (r := {| jr_name := n |}) in Hw1. assert (j_requests w1 = j_requests w ++ [r]) as Hr by (by rewrite <- Hw1).
  assert (window_at w1 n = VFun (installed i)) as Hn.
  { rewrite <- Hw1. unfold window_at. cbn [j_window]. by rewrite assoc_prop_put, String.eqb_refl. }
  exists n. eexists. split; [by rewrite Hr, last_snoc|]. unfold script_calls. rewrite Hn. split; [reflexivity|].
  unfold call_window. rewrite Hr, length_app, find_installed by (cbn; lia).
  set (w2 := {| j_window := j_window w1 |}).
  set (r2 := {| jr_name := n; jr_overwritten := window_at w n; jr_container := Some d; jr_s := jr_s r; jr_original := jr_original r |}).
  assert (j_requests w2 !! i = Some r2) as Hi.
  { unfold w2. cbn [j_requests]. rewrite list_lookup_alter. rewrite (list_lookup_middle (j_requests w) [] r i eq_refl). cbn [fmap option_fmap option_map].
    unfold r2, r. cbn [jr_name jr_overwritten jr_s jr_original]. rewrite Ew. by rewrite decide_True. }
  split; [unfold script_json; by rewrite Hi|].
  unfold jsonp_cleanup, modify. cbn [snd]. rewrite Hi. cbn [jr_container jr_name jr_overwritten r2]. split.
  - intros k. unfold window_at at 1. rewrite call_window_frame. cbn [j_window]. rewrite assoc_prop_put. unfold w2. cbn [j_window].
    destruct (String.eqb k n) eqn:Ek; [apply String.eqb_eq in Ek; by subst|]. rewrite <- Hw1. cbn [j_window].
    rewrite assoc_prop_put, Ek, E1. done.
  - intros f Hf Hnot. rewrite Hf. unfold call_window.
    rewrite find_foreign by done.
    cbn [j_calls]. unfold w2. cbn [j_calls]. rewrite <- Hw1. cbn [j_calls]. by rewrite E3.
Qed.
End roundtrip.

(** ** Pages *)

Definition jsonp_settings (name : value) : value :=
  VObj false [("url", VStr "http://other/feed?a=1"); ("jsonp", VStr "callback"); ("jsonpCallback", name); ("converters", VObj false [])].
Definition quiet_window : jsonp_world :=
  {| j_window := [("show", VFun "page.show")]; j_old := []; j_nonce := 7; j_requests := []; j_calls := [] |}.

Definition start_jsonp (name : value) (w : jsonp_world) : jsonp_world :=
  (jsonp_prefilter "jQ" (λ g, g) (VObj false []) (jsonp_settings name) ["jsonp"] w).2.

(** The name is made up, and ends up in the address. *)
Example jsonp_ex :
  let w := start_jsonp (VFun "jsonpCallback") quiet_window in
  (λ r, (jr_name r, get (jr_s r) "url")) <$> j_requests w = [("jQ_7", Ret (VStr "http://other/feed?a=1&callback=jQ_7"))].
Proof. vm_compute. reflexivity. Qed.

Lemma jsonp_roundtrip_witness :
  let w := quiet_window in
  let w1 := start_jsonp (VStr "show") w in
  ∃ n w2, jr_name <$> last (j_requests w1) = Some n ∧ script_calls n (VInt 5) w1 = (Ret tt, w2) ∧ script_json 0 w2 = Ret (VInt 5) ∧
    (∀ k, window_at (jsonp_cleanup 0 w2).2 k = window_at w k) ∧
    (∀ f, window_at w n = VFun f → (∀ i, f ≠ installed i) → j_calls (jsonp_cleanup 0 w2).2 = [(f, VInt 5)]).
Proof.
  exact (jsonp_roundtrip "jQ" (λ g, g) (VObj false []) (jsonp_settings (VStr "show")) ["jsonp"] quiet_window
    _ _ (start_jsonp (VStr "show") quiet_window) (VInt 5) eq_refl).
Defined.

(** Two requests with the same name at once get each other's data: the script of
    the first one calls the function of the second. *)
Theorem same_name_mixed_up :
  let w := start_jsonp (VStr "show") (start_jsonp (VStr "show") quiet_window) in
  let w' := (script_calls "show" (VStr "answer to the first") w).2 in
  script_json 0 w' = Throw (Raised "show was not called") ∧ script_json 1 w' = Ret (VStr "answer to the first").
Proof. split; vm_compute; reflexivity. Qed.

(** ** The transports of the library *)

(** As they are registered: first the one for scripts, then the one for everything. *)
Definition library_transports : registry :=
  addToPrefiltersOrTransports (addToPrefiltersOrTransports [] (VStr "script") (VFun "scriptFactory")) (VFun "xhrFactory") VUndef.

(** Their factories next to the functions of a page. *)
Definition library_hook (factory : value → res value) (page : string → value → list string → hooked) (f : string) (s : value) (types : list string) : hooked :=
  if String.eqb f "scriptFactory" then {| k_settings := s; k_types := types; k_ops := []; k_result := script_factory s |}
  else if String.eqb f "xhrFactory" then {| k_settings := s; k_types := types; k_ops := []; k_result := factory s |}
  else page f s types.

(** They never abort a request, which is what the counting of requests asks of them. *)
Lemma library_quiet factory page : quiet_table (library_hook factory page) library_transports.
Proof. repeat constructor. Qed.
