(* ===== verification/SwfBase.v ===== *)
(** * swfobject.js: the browser, versions of the player, and the query

    What [ua] finds out about the browser and the Flash player, from the
    properties of [navigator] and the ActiveX object; the comparison of
    versions; and the parameters of the query with their filter. *)

From Stdlib Require Import SpecFloat.
From S2P Require Import Prelude JSNum JSValue JSON NodeUrl JQueryParam Forms AjaxSubmit Regex.

(** ** Numbers in texts *)

(** [parseInt(s, 10)] *)
Definition parseInt (s : string) : num :=
  let '(neg, t) := match ltrim s with
                   | String "-" t => (true, t)
                   | String "+" t => (false, t)
                   | t => (false, t)
                   end in
  let ds := (span_digits t).1 in
  if String.eqb ds "" then NaN else num_of_decimal neg (nat_of_digits ds) 0.

(** [parseInt(l[i], 10)]; there is no number in [undefined]. *)
Definition parseInt_at (l : list string) (i : nat) : num :=
  match l !! i with Some s => parseInt s | None => NaN end.

(** [parseFloat(s)] *)
Definition parseFloat (s : string) : num :=
  let '(neg, t) := match ltrim s with
                   | String "-" t => (true, t)
                   | String "+" t => (false, t)
                   | t => (false, t)
                   end in
  if String.prefix "Infinity" t then S754_infinity neg else
  let '(i, r) := span_digits t in
  let '(f, r') := match r with
                  | String "." u => span_digits u
                  | _ => (""%string, r)
                  end in
  if String.eqb i "" && String.eqb f "" then NaN
  else num_of_decimal neg (nat_of_digits (i +:+ f)) ((scan_exponent r').1 - Z.of_nat (String.length f)).

(** ** The regular expressions *)

Definition any : re := Star (Chr dot).
Definition spaces : re := plus (Chr is_space).
Definition non_spaces : re := plus (Chr (λ c, negb (is_space c))).
Definition is_letter (c : ascii) : bool :=
  let n := N_of_ascii c in ((65 <=? n) && (n <=? 90) || (97 <=? n) && (n <=? 122))%N.
Definition word (s : string) : re := seqs (lit <$> list_ascii_of_string s).

(** [/^.*webkit\/(\d+(\.\d+)?).*$/] *)
Definition re_webkit : re :=
  seqs [Bol; any; word "webkit/"; Group 1 (Seq (plus (Chr is_digit)) (Opt (Group 2 (Seq (lit ".") (plus (Chr is_digit)))))); any; Eol].
(** [/^.*\s+(\S+\s+\S+$)/] *)
Definition re_version : re := seqs [Bol; any; spaces; Group 1 (seqs [non_spaces; spaces; non_spaces; Eol])].
(** All before the last dot of the line. *)
Definition re_major : re := seqs [Bol; Group 1 any; lit "."; any; Eol].
(** From the last dot that has a space after it to the last such space. *)
Definition re_minor : re := seqs [Bol; any; lit "."; Group 1 any; Chr is_space; any; Eol].
(** All after the last letter. *)
Definition re_release : re := seqs [Bol; any; plus (Chr is_letter); Group 1 any; Eol].

(** [s.replace(r, "$1")] for an expression that starts at the beginning *)
Definition replace_by_group (ngroups : nat) (r : re) (s : string) : string :=
  match match_at ngroups r 0 s with
  | Some st => default ""%string (mjoin (caps st !! 1)) +:+ rest st
  | None => s
  end.

(** ** [ua] *)

Record version := { major : num; minor : num; release : num }.

Definition no_version : version := {| major := num_of_Z 0; minor := num_of_Z 0; release := num_of_Z 0 |}.

(** What the script sees of the browser. *)
Record browser := {
  has_dom : bool;                                  (* the methods of the W3C DOM *)
  userAgent : string;
  platform : string;
  old_number : bool;                               (* a vertical tab and a one do not make a number *)
  flash_plugin : option string;                    (* its description, where it is an object *)
  flash_disabled : bool;                           (* its MIME type has no enabled plug-in *)
  activeX : option (res (option (res string)))     (* creating the control, and [$version] *)
}.

Record ua := { w3 : bool; pv : version; wk : option num; ie : bool; win : bool; mac : bool }.

(** [d.split(" ")[1].split(",")] *)
Definition version_of (d : string) : res version :=
  match split_char " " d !! 1%nat with
  | Some v => let l := split_char "," v in Ret {| major := parseInt_at l 0; minor := parseInt_at l 1; release := parseInt_at l 2 |}
  | None => Throw TypeError
  end.

(** The version in the description of the plug-in. *)
Definition described_version (description : string) : version :=
  let d := replace_by_group 2 re_version description in
  {| major := parseInt (replace_by_group 2 re_major d);
     minor := parseInt (replace_by_group 2 re_minor d);
     release := if existsb is_letter (list_ascii_of_string d) then parseInt (replace_by_group 2 re_release d) else num_of_Z 0 |}.

(** The result is [ua] and whether the plug-in was found. *)
Definition detect (b : browser) : ua * bool :=
  let u := lower (userAgent b) in
  let p := lower (platform b) in
  let system w := if String.eqb p "" then occurs w u else occurs w p in
  let webkit := if occurs "webkit" u then Some (parseFloat (replace_by_group 3 re_webkit u)) else None in
  let found pv ie plugin := ({| w3 := has_dom b; pv := pv; wk := webkit; ie := ie; win := system "win"; mac := system "mac" |}, plugin) in
  match flash_plugin b with
  | Some d =>
      if negb (String.eqb d "") && negb (flash_disabled b) then found (described_version d) false true
      else found no_version (old_number b) false
  | None =>
      match activeX b with
      | Some (Ret (Some (Ret d))) =>
          if String.eqb d "" then found no_version (old_number b) false
          else match version_of d with
               | Ret v => found v true false
               | Throw _ => found no_version true false
               end
      | _ => found no_version (old_number b) false
      end
  end.

(** [ua.wk && ua.wk < 312] *)
Definition old_webkit (u : ua) : bool :=
  match wk u with Some n => truthy (VNum n) && num_ltb n (num_of_Z 312) | None => false end.

(** ** Versions *)

(** [n || 0] *)
Definition or_zero (n : num) : num := if truthy (VNum n) then n else num_of_Z 0.

Definition num_gtb (a b : num) : bool := num_ltb b a.

Definition hasPlayerVersion (pv : version) (rv : string) : bool :=
  let v := split_char "." rv in
  let v0 := parseInt_at v 0 in
  let v1 := or_zero (parseInt_at v 1) in
  let v2 := or_zero (parseInt_at v 2) in
  num_gtb (major pv) v0 ||
  (num_eqb (major pv) v0 && num_gtb (minor pv) v1) ||
  (num_eqb (major pv) v0 && num_eqb (minor pv) v1 && num_leb v2 (release pv)).

(** ** The query *)

(** Backslash, double quote, angle brackets, dot and semicolon. *)
Definition bad_char (c : ascii) : bool := existsb (N.eqb (N_of_ascii c)) [92; 34; 60; 62; 46; 59]%N.

Definition urlEncodeIfNecessary (s : string) : string :=
  if existsb bad_char (list_ascii_of_string s) then encodeURIComponent s else s.

(** The text before and after the first [=]; [indexOf] is -1 without one, and then
    the name is empty and the value is the whole. *)
Fixpoint split_pair (s : string) : option (string * string) :=
  match s with
  | EmptyString => None
  | String c s' => if Ascii.eqb c "=" then Some (""%string, s') else (λ nv, (String c nv.1, nv.2)) <$> split_pair s'
  end.
Definition pair_of (s : string) : string * string := default (""%string, s) (split_pair s).

(** The loop over the pairs. *)
Fixpoint find_param (pairs : list string) (param : string) : string :=
  match pairs with
  | [] => ""
  | p :: ps => if String.eqb (pair_of p).1 param then urlEncodeIfNecessary (pair_of p).2 else find_param ps param
  end.

Definition getQueryParamValue (search hash : string) (param : option string) : string :=
  let q := if String.eqb search "" then hash else search in
  if String.eqb q "" then "" else
  let q := if has_char "?" q then default ""%string (split_char "?" q !! 1%nat) else q in
  match param with
  | None => urlEncodeIfNecessary q
  | Some p => find_param (split_char "&" q) p
  end.
