(* ===== verification/DomTree.v ===== *)
(** * A document as a tree

    The part of the DOM that swfobject.js uses: elements with a reference,
    attributes and inline style, texts and comments.  References are unique in a
    document; an element is found by its id in document order. *)

From Stdlib Require Import SpecFloat.
From S2P Require Import Prelude JSNum JSValue.

Unset Elimination Schemes.
Inductive node :=
| Elem (r : nat) (tag : string) (attrs style : list (string * string)) (kids : list node)
| Text (s : string)
| Comment (s : string).
Set Elimination Schemes.

Section node_ind.
Context (P : node → Prop).
Context (Helem : ∀ r tag attrs style kids, Forall P kids → P (Elem r tag attrs style kids)).
Context (Htext : ∀ s, P (Text s)) (Hcomment : ∀ s, P (Comment s)).

Definition node_ind : ∀ n, P n :=
  fix go n :=
    match n with
    | Elem r tag attrs style kids =>
        Helem r tag attrs style kids
          ((fix all (l : list node) : Forall P l :=
              match l with [] => Forall_nil_2 P | k :: l' => Forall_cons_2 P k l' (go k) (all l') end) kids)
    | Text s => Htext s
    | Comment s => Hcomment s
    end.
End node_ind.

Definition ref_of (n : node) : option nat := match n with Elem r _ _ _ _ => Some r | _ => None end.
Definition tag_of (n : node) : string := match n with Elem _ t _ _ _ => t | _ => "" end.
Definition kids_of (n : node) : list node := match n with Elem _ _ _ _ ks => ks | _ => [] end.
Definition attr (k : string) (n : node) : option string := match n with Elem _ _ a _ _ => assoc k a | _ => None end.

(** [getAttribute(k) || d] *)
Definition attr_or (k d : string) (n : node) : string :=
  match attr k n with Some v => if String.eqb v "" then d else v | None => d end.

(** The elements in document order. *)
Fixpoint elements_of (n : node) : list node :=
  match n with
  | Elem _ _ _ _ ks => n :: mjoin (elements_of <$> ks)
  | _ => []
  end.

Definition refs_of (n : node) : list nat := omap ref_of (elements_of n).

(** [getElementById], and the element of a reference. *)
Definition find_id (id : string) (root : node) : option node :=
  if String.eqb id "" then None else snd <$> list_find (λ e, attr "id" e = Some id) (elements_of root).
Definition find_ref (r : nat) (root : node) : option node := snd <$> list_find (λ e, ref_of e = Some r) (elements_of root).

(** The first element of a tag below a node. *)
Definition find_tag (tag : string) (n : node) : option node :=
  snd <$> list_find (λ e, tag_of e = tag) (mjoin (elements_of <$> kids_of n)).

(** Put a list of nodes in the place of the child with a reference. *)
Fixpoint replace_ref (r : nat) (new : list node) (n : node) : node :=
  match n with
  | Elem r' t a s ks =>
      Elem r' t a s (mjoin ((λ k, if bool_decide (ref_of k = Some r) then new else [replace_ref r new k]) <$> ks))
  | _ => n
  end.

(** Change the element of a reference. *)
Fixpoint update_ref (r : nat) (f : list (string * string) → list (string * string) → list (string * string) * list (string * string)) (n : node) : node :=
  match n with
  | Elem r' t a s ks =>
      let '(a', s') := if bool_decide (r' = r) then f a s else (a, s) in
      Elem r' t a' s' (update_ref r f <$> ks)
  | _ => n
  end.

(** A deep copy with references from [next] on; the result has the next free one. *)
Fixpoint copy_nodes (copy : nat → node → node * nat) (next : nat) (l : list node) : list node * nat :=
  match l with
  | [] => ([], next)
  | n :: l' => let '(n', next') := copy next n in let '(l'', next'') := copy_nodes copy next' l' in (n' :: l'', next'')
  end.
Fixpoint copy_node (next : nat) (n : node) : node * nat :=
  match n with
  | Elem _ t a s ks => let '(ks', next') := copy_nodes copy_node (S next) ks in (Elem next t a s ks', next')
  | _ => (n, next)
  end.

Definition set_prop (k v : string) (l : list (string * string)) : list (string * string) :=
  prop_put k v l.

(** ** Elements and references *)

Lemma elem_of_below e f (ks : list node) : e ∈ mjoin (f <$> ks) ↔ ∃ k, k ∈ ks ∧ e ∈ (f k : list node).
Proof. rewrite list_elem_of_join. setoid_rewrite list_elem_of_fmap. naive_solver. Qed.

Lemma elements_elem r t a st ks e :
  e ∈ elements_of (Elem r t a st ks) ↔ e = Elem r t a st ks ∨ ∃ k, k ∈ ks ∧ e ∈ elements_of k.
Proof. cbn [elements_of]. by rewrite elem_of_cons, elem_of_below. Qed.

Lemma self_element n r : ref_of n = Some r → n ∈ elements_of n.
Proof. destruct n; [|done|done]. intros _. cbn. left. Qed.

Lemma elem_of_refs r n : r ∈ refs_of n ↔ ∃ e, e ∈ elements_of n ∧ ref_of e = Some r.
Proof. unfold refs_of. by rewrite list_elem_of_omap. Qed.

(** What is changed in an element by changes below it. *)
Definition same_head (e e' : node) : Prop :=
  match e, e' with
  | Elem r t a st _, Elem r' t' a' st' _ => r = r' ∧ t = t' ∧ a = a' ∧ st = st'
  | _, _ => False
  end.

Lemma same_head_attr e e' k : same_head e e' → attr k e = attr k e'.
Proof. destruct e, e'; cbn; naive_solver. Qed.
Lemma same_head_ref e e' : same_head e e' → ref_of e = ref_of e'.
Proof. destruct e, e'; cbn; naive_solver. Qed.

Lemma replace_ref_ref r new n : ref_of (replace_ref r new n) = ref_of n.
Proof. by destruct n. Qed.

(** The elements after a replacement are new ones and old ones, without the one replaced. *)
Lemma elements_replace r new n e : e ∈ elements_of (replace_ref r new n) →
  (∃ n', n' ∈ new ∧ e ∈ elements_of n') ∨ ∃ e0, e0 ∈ elements_of n ∧ same_head e e0 ∧ (ref_of e0 = Some r → ref_of n = Some r).
Proof.
  revert e. induction n as [r' t a st ks IH|s|s] using node_ind; intros e He; [|by apply elem_of_nil in He|by apply elem_of_nil in He].
  cbn [replace_ref] in He. apply elements_elem in He as [-> | (k' & Hk' & He)].
  - right. eexists. split; [apply elements_elem; by left|done].
  - apply elem_of_below in Hk' as (k & Hk & Hk'). case_bool_decide as Hkr; [by left; exists k'|].
    apply list_elem_of_singleton in Hk' as ->. rewrite Forall_forall in IH. destruct (IH k Hk e He) as [?|(e0 & He0 & ? & Hr)]; [by left|].
    right. exists e0. split_and!; [|done|by intros ?%Hr]. apply elements_elem. right. eauto.
Qed.

(** Replacing and putting back. *)
Lemma replace_back r r' el o n :
  ref_of o = Some r' → (∀ e, e ∈ elements_of n → ref_of e = Some r → e = el) → r' ∉ refs_of n →
  replace_ref r' [el] (replace_ref r [o] n) = n.
Proof.
  intros Ho. induction n as [r0 t a st ks IH|s|s] using node_ind; intros Hel Hr'; [|done|done].
  cbn [replace_ref]. f_equal. assert (∀ k, k ∈ ks → ref_of k ≠ Some r') as Hne.
  { intros k Hk Hkr. apply Hr'. apply elem_of_refs. exists k. split; [|done]. apply elements_elem. right. exists k. split; [done|by eapply self_element]. }
  assert (∀ k, k ∈ ks → ref_of k = Some r → k = el) as Hkel.
  { intros k Hk Hkr. apply Hel; [|done]. apply elements_elem. right. exists k. split; [done|by eapply self_element]. }
  assert (Forall (λ k, ref_of k ≠ Some r → replace_ref r' [el] (replace_ref r [o] k) = k) ks) as IH'.
  { rewrite Forall_forall in IH |- *. intros k Hk _. apply IH; [done| |].
    - intros e He Her. apply Hel; [|done]. apply elements_elem. right. eauto.
    - intros Hin. apply Hr'. apply elem_of_refs in Hin as (e & He & Her). apply elem_of_refs. exists e. split; [|done]. apply elements_elem. right. eauto. }
  clear IH Hel Hr'. induction ks as [|k ks IHks]; [done|]. apply Forall_cons in IH' as [Hk IH'].
  change (mjoin ((λ k, if bool_decide (ref_of k = Some r') then [el] else [replace_ref r' [el] k]) <$>
     ((if bool_decide (ref_of k = Some r) then [o] else [replace_ref r [o] k]) ++
      mjoin ((λ k, if bool_decide (ref_of k = Some r) then [o] else [replace_ref r [o] k]) <$> ks))) = k :: ks).
  rewrite fmap_app, join_app, IHks by (done || (intros; by apply Hne, elem_of_cons; right) || (intros; apply Hkel; [by apply elem_of_cons; right|done])).
  case_bool_decide as Hkr; cbn.
  - rewrite bool_decide_eq_true_2 by done. cbn. f_equal. symmetry. apply Hkel; [left|done].
  - rewrite replace_ref_ref, bool_decide_eq_false_2 by (apply Hne; left). cbn. by rewrite Hk.
Qed.

(** The elements below a node. *)
Definition below (n : node) : list node := mjoin (elements_of <$> kids_of n).

Lemma elements_below e n : e ∈ elements_of n ↔ (e = n ∧ is_Some (ref_of n)) ∨ e ∈ below n.
Proof.
  destruct n as [r t a st ks|s|s].
  - rewrite elements_elem. unfold below. cbn [kids_of]. rewrite elem_of_below. cbn. naive_solver.
  - cbn. rewrite elem_of_nil. split; [done|]. by intros [[_ [? ?]]|?].
  - cbn. rewrite elem_of_nil. split; [done|]. by intros [[_ [? ?]]|?].
Qed.

Lemma replaced_in r o n : is_Some (ref_of o) → (∃ e, e ∈ below n ∧ ref_of e = Some r) → o ∈ elements_of (replace_ref r [o] n).
Proof.
  intros Ho. induction n as [r0 t a st ks IH|s|s] using node_ind; intros (e & He & Her); [|by apply elem_of_nil in He|by apply elem_of_nil in He].
  unfold below in He. cbn [kids_of] in He. apply elem_of_below in He as (k & Hk & He). cbn [replace_ref]. apply elements_elem. right.
  destruct (decide (ref_of k = Some r)) as [Hkr|Hkr].
  - exists o. split; [|apply elements_below; by left]. apply elem_of_below. exists k. rewrite bool_decide_eq_true_2 by done. split; [done|by apply list_elem_of_singleton].
  - exists (replace_ref r [o] k). split.
    + apply elem_of_below. exists k. rewrite bool_decide_eq_false_2 by done. split; [done|by apply list_elem_of_singleton].
    + rewrite Forall_forall in IH. apply IH; [done|]. exists e. split; [|done]. apply elements_below in He as [[-> _]|?]; done.
Qed.

(** The element found by an id that only the new element has, and perhaps the old one had. *)
Lemma find_id_replaced r o n id : id ≠ ""%string →
  (∃ e, e ∈ below n ∧ ref_of e = Some r) →
  (∀ e, e ∈ elements_of n → attr "id" e = Some id → ref_of e = Some r) → ref_of n ≠ Some r →
  (∀ e, e ∈ elements_of o → attr "id" e = Some id → e = o) → attr "id" o = Some id → is_Some (ref_of o) →
  find_id id (replace_ref r [o] n) = Some o.
Proof.
  intros Hid Hr Hn Hrt Ho Hoid Hor. unfold find_id. apply String.eqb_neq in Hid. rewrite Hid.
  pose proof (replaced_in r o n Hor Hr) as Hin.
  destruct (list_find (λ e, attr "id" e = Some id) (elements_of (replace_ref r [o] n))) as [[i e]|] eqn:Hf.
  - apply list_find_Some in Hf as (Hi & He & _). cbn. f_equal. apply list_elem_of_lookup_2 in Hi.
    apply elements_replace in Hi as [(n' & Hn' & He')|(e0 & He0 & Hsame & Hroot)].
    + apply list_elem_of_singleton in Hn' as ->. by apply Ho.
    + destruct Hrt. apply Hroot, Hn; [done|]. by rewrite <-(same_head_attr e e0).
  - apply list_find_None in Hf. rewrite Forall_forall in Hf. by destruct (Hf o Hin).
Qed.

(** Changing the new element. *)
Lemma fmap_same {A} (g : A → A) (l : list A) : (∀ k, k ∈ l → g k = k) → g <$> l = l.
Proof.
  induction l as [|k l IH]; intros H; [done|]. cbn. rewrite H by left. f_equal. apply IH. intros k' Hk'. apply H. by right.
Qed.

Lemma update_absent r f n : r ∉ refs_of n → update_ref r f n = n.
Proof.
  induction n as [r0 t a st ks IH|s|s] using node_ind; intros Hr; [|done|done]. cbn [update_ref].
  rewrite bool_decide_eq_false_2.
  2: { intros ->. apply Hr, elem_of_refs. eexists. split; [apply elements_elem; by left|done]. }
  f_equal. apply fmap_same. intros k Hk. rewrite Forall_forall in IH. apply IH; [done|]. intros (e & He & Her)%elem_of_refs.
  apply Hr, elem_of_refs. exists e. split; [|done]. apply elements_elem. right. eauto.
Qed.

Lemma update_replaced r r' f o n : r' ∉ refs_of n → update_ref r' f (replace_ref r [o] n) = replace_ref r [update_ref r' f o] n.
Proof.
  induction n as [r0 t a st ks IH|s|s] using node_ind; intros Hr; [|done|done]. cbn [replace_ref update_ref].
  rewrite bool_decide_eq_false_2.
  2: { intros ->. apply Hr, elem_of_refs. eexists. split; [apply elements_elem; by left|done]. }
  f_equal. assert (∀ k, k ∈ ks → update_ref r' f (replace_ref r [o] k) = replace_ref r [update_ref r' f o] k) as IH'.
  { rewrite Forall_forall in IH. intros k Hk. apply IH; [done|]. intros (e & He & Her)%elem_of_refs. apply Hr, elem_of_refs. exists e. split; [|done].
    apply elements_elem. right. eauto. }
  clear IH Hr. induction ks as [|k ks IHks]; [done|]. cbn. rewrite fmap_app. f_equal.
  - case_bool_decide; [done|]. cbn. f_equal. apply IH'. left.
  - apply IHks. intros k' Hk'. apply IH'. by right.
Qed.

Lemma omap_inj {A B} (f : A → option B) (l : list A) b x y :
  NoDup (omap f l) → x ∈ l → y ∈ l → f x = Some b → f y = Some b → x = y.
Proof.
  induction l as [|z l IH]; intros Hnd Hx Hy Hfx Hfy; [by apply elem_of_nil in Hx|]. cbn in Hnd.
  assert (∀ w, w ∈ l → f w = Some b → b ∈ omap f l) as Hin by (intros w Hw Hf; apply list_elem_of_omap; eauto).
  apply elem_of_cons in Hx as [-> | Hx]; apply elem_of_cons in Hy as [-> | Hy]; [done| | |].
  - rewrite Hfx in Hnd. apply NoDup_cons in Hnd as [Hnd _]. by destruct (Hnd (Hin y Hy Hfy)).
  - rewrite Hfy in Hnd. apply NoDup_cons in Hnd as [Hnd _]. by destruct (Hnd (Hin x Hx Hfx)).
  - apply IH; try done. destruct (f z); [by apply NoDup_cons in Hnd as [_ ?]|done].
Qed.

(** In a document whose references are all different, an element is known by its own. *)
Lemma unique_ref n r e e' : NoDup (refs_of n) → e ∈ elements_of n → e' ∈ elements_of n → ref_of e = Some r → ref_of e' = Some r → e = e'.
Proof. intros. by eapply omap_inj. Qed.

Lemma find_ref_unique n r e : NoDup (refs_of n) → e ∈ elements_of n → ref_of e = Some r → find_ref r n = Some e.
Proof.
  intros Hnd He Hr. unfold find_ref. destruct (list_find (λ e, ref_of e = Some r) (elements_of n)) as [[i e']|] eqn:Hf.
  - apply list_find_Some in Hf as (Hi & He' & _). cbn. f_equal. apply list_elem_of_lookup_2 in Hi. by eapply unique_ref.
  - apply list_find_None in Hf. rewrite Forall_forall in Hf. by destruct (Hf e He).
Qed.

Lemma find_id_spec id n e : find_id id n = Some e → id ≠ ""%string ∧ e ∈ elements_of n ∧ attr "id" e = Some id.
Proof.
  unfold find_id. destruct (String.eqb_spec id ""); [done|]. destruct (list_find _ _) as [[i e']|] eqn:Hf; [|done]. intros [= ->].
  apply list_find_Some in Hf as (Hi & He' & _). split; [done|]. split; [by eapply list_elem_of_lookup_2|done].
Qed.
