(* ===== verification/SwfObject.v ===== *)
(** * swfobject.js: embedding Flash movies

    The closure of [swfobject]: its variables are the state, with the document
    as a tree.  Functions of the page are names; a call is recorded and then
    [user] runs it, and it may call the library again.  What the browser and the
    plug-in show changes between steps and is part of the state ([look]).
    Internet Explorer parses the HTML of an object by [parse_object]. *)

From Stdlib Require Import SpecFloat.
From S2P Require Import Prelude JSNum JSValue JSON NodeUrl JQueryCore JQueryParam Forms AjaxSubmit Regex SwfBase DomTree.

(** ** The state *)

(** A call of [embedSWF]. *)
Record embed := {
  e_url : string; e_id : string; e_width : value; e_height : value; e_version : string; e_install : string;
  e_flashvars : value; e_params : value; e_attrs : value; e_callback : option string
}.

Inductive dom_fn := DMain | DEmbed (e : embed) | DUser (f : string).

(** An object element of the page. *)
Record registered := { g_id : string; g_version : string; g_install : string; g_callback : option string }.

Record sheet := { sh_media : string; sh_rules : list string }.

Inductive swf_timer :=
| WTest (r counter : nat)        (* probe the test movie *)
| WRemove (r : nat)              (* remove an element when it is loaded *)
| WRemoveIE (id : string) (r : nat)
| WScroll                        (* probe for the end of loading in IE *)
| WLoaded.                       (* and in WebKit *)

Inductive swf_effect :=
| CalledBack (f : string) (success : bool) (id : string) (ref : option nat)
| RanUser (f : string)
| Listens (target event fn : string)
| Detached (target event : string).

(** What the browser shows. *)
Record look := {
  l_loaded : nat → bool;                    (* [readyState == 4] of an object *)
  l_scriptable : nat → bool;                (* it has [SetVariable] *)
  l_version : nat → option (option string); (* [GetVariable("$version")], where there is such a method *)
  l_readyState : option string;             (* of the document *)
  l_scrolls : bool;                         (* [doScroll] does not throw *)
  l_top : bool;
  l_doc_listens : bool; l_win_listens : bool; l_win_attaches : bool; l_win_onload : bool;
  l_adds_rules : bool                       (* [addRule] is an object *)
}.

Record swf := {
  d_title : string;
  d_location : string;
  d_root : node;
  d_loose : list node;                      (* elements taken out of the document *)
  d_next : nat;                             (* the next reference *)
  d_head : bool;
  d_sheets : list sheet;
  s_ua : ua;
  s_plugin : bool;
  domLoadFnArr : list dom_fn;
  regObjArr : list registered;
  objIdArr : list string;
  listenersArr : list (string * string);
  storedAltContent : option nat;
  storedAltContentId : option string;
  storedCallbackFn : option string;
  storedCallbackId : string;
  isDomLoaded : bool;
  isExpressInstallActive : bool;
  dynamicStylesheet : option nat;
  dynamicStylesheetMedia : option string;
  autoHideShow : bool;
  s_timers : list swf_timer;
  s_look : look;
  s_unloaded : bool;                        (* [ua] and [swfobject] are [null] *)
  s_log : list swf_effect
}.

Definition on_title (t : string) (s : swf) : swf :=
  {| d_title := t; d_location := d_location s; d_root := d_root s; d_loose := d_loose s; d_next := d_next s; d_head := d_head s;
     d_sheets := d_sheets s; s_ua := s_ua s; s_plugin := s_plugin s; domLoadFnArr := domLoadFnArr s; regObjArr := regObjArr s;
     objIdArr := objIdArr s; listenersArr := listenersArr s; storedAltContent := storedAltContent s; storedAltContentId := storedAltContentId s;
     storedCallbackFn := storedCallbackFn s; storedCallbackId := storedCallbackId s; isDomLoaded := isDomLoaded s;
     isExpressInstallActive := isExpressInstallActive s; dynamicStylesheet := dynamicStylesheet s;
     dynamicStylesheetMedia := dynamicStylesheetMedia s; autoHideShow := autoHideShow s; s_timers := s_timers s; s_look := s_look s; s_unloaded := s_unloaded s;
     s_log := s_log s |}.
Definition on_document (n : node) (l : list node) (s : swf) : swf :=
  {| d_title := d_title s; d_location := d_location s; d_root := n; d_loose := l; d_next := d_next s; d_head := d_head s; d_sheets := d_sheets s;
     s_ua := s_ua s; s_plugin := s_plugin s; domLoadFnArr := domLoadFnArr s; regObjArr := regObjArr s; objIdArr := objIdArr s;
     listenersArr := listenersArr s; storedAltContent := storedAltContent s; storedAltContentId := storedAltContentId s;
     storedCallbackFn := storedCallbackFn s; storedCallbackId := storedCallbackId s; isDomLoaded := isDomLoaded s;
     isExpressInstallActive := isExpressInstallActive s; dynamicStylesheet := dynamicStylesheet s;
     dynamicStylesheetMedia := dynamicStylesheetMedia s; autoHideShow := autoHideShow s; s_timers := s_timers s; s_look := s_look s; s_unloaded := s_unloaded s;
     s_log := s_log s |}.
Definition on_next (n : nat) (s : swf) : swf :=
  {| d_title := d_title s; d_location := d_location s; d_root := d_root s; d_loose := d_loose s; d_next := n; d_head := d_head s;
     d_sheets := d_sheets s; s_ua := s_ua s; s_plugin := s_plugin s; domLoadFnArr := domLoadFnArr s; regObjArr := regObjArr s;
     objIdArr := objIdArr s; listenersArr := listenersArr s; storedAltContent := storedAltContent s; storedAltContentId := storedAltContentId s;
     storedCallbackFn := storedCallbackFn s; storedCallbackId := storedCallbackId s; isDomLoaded := isDomLoaded s;
     isExpressInstallActive := isExpressInstallActive s; dynamicStylesheet := dynamicStylesheet s;
     dynamicStylesheetMedia := dynamicStylesheetMedia s; autoHideShow := autoHideShow s; s_timers := s_timers s; s_look := s_look s; s_unloaded := s_unloaded s;
     s_log := s_log s |}.
Definition on_sheets (l : list sheet) (s : swf) : swf :=
  {| d_title := d_title s; d_location := d_location s; d_root := d_root s; d_loose := d_loose s; d_next := d_next s; d_head := d_head s;
     d_sheets := l; s_ua := s_ua s; s_plugin := s_plugin s; domLoadFnArr := domLoadFnArr s; regObjArr := regObjArr s; objIdArr := objIdArr s;
     listenersArr := listenersArr s; storedAltContent := storedAltContent s; storedAltContentId := storedAltContentId s;
     storedCallbackFn := storedCallbackFn s; storedCallbackId := storedCallbackId s; isDomLoaded := isDomLoaded s;
     isExpressInstallActive := isExpressInstallActive s; dynamicStylesheet := dynamicStylesheet s;
     dynamicStylesheetMedia := dynamicStylesheetMedia s; autoHideShow := autoHideShow s; s_timers := s_timers s; s_look := s_look s; s_unloaded := s_unloaded s;
     s_log := s_log s |}.
Definition on_version (v : version) (s : swf) : swf :=
  {| d_title := d_title s; d_location := d_location s; d_root := d_root s; d_loose := d_loose s; d_next := d_next s; d_head := d_head s;
     d_sheets := d_sheets s;
     s_ua := {| w3 := w3 (s_ua s); pv := v; wk := wk (s_ua s); ie := ie (s_ua s); win := win (s_ua s); mac := mac (s_ua s) |};
     s_plugin := s_plugin s; domLoadFnArr := domLoadFnArr s; regObjArr := regObjArr s; objIdArr := objIdArr s; listenersArr := listenersArr s;
     storedAltContent := storedAltContent s; storedAltContentId := storedAltContentId s; storedCallbackFn := storedCallbackFn s;
     storedCallbackId := storedCallbackId s; isDomLoaded := isDomLoaded s; isExpressInstallActive := isExpressInstallActive s;
     dynamicStylesheet := dynamicStylesheet s; dynamicStylesheetMedia := dynamicStylesheetMedia s; autoHideShow := autoHideShow s;
     s_timers := s_timers s; s_look := s_look s; s_unloaded := s_unloaded s; s_log := s_log s |}.
Definition on_queue (l : list dom_fn) (s : swf) : swf :=
  {| d_title := d_title s; d_location := d_location s; d_root := d_root s; d_loose := d_loose s; d_next := d_next s; d_head := d_head s;
     d_sheets := d_sheets s; s_ua := s_ua s; s_plugin := s_plugin s; domLoadFnArr := l; regObjArr := regObjArr s; objIdArr := objIdArr s;
     listenersArr := listenersArr s; storedAltContent := storedAltContent s; storedAltContentId := storedAltContentId s;
     storedCallbackFn := storedCallbackFn s; storedCallbackId := storedCallbackId s; isDomLoaded := isDomLoaded s;
     isExpressInstallActive := isExpressInstallActive s; dynamicStylesheet := dynamicStylesheet s;
     dynamicStylesheetMedia := dynamicStylesheetMedia s; autoHideShow := autoHideShow s; s_timers := s_timers s; s_look := s_look s; s_unloaded := s_unloaded s;
     s_log := s_log s |}.
Definition on_registered (l : list registered) (s : swf) : swf :=
  {| d_title := d_title s; d_location := d_location s; d_root := d_root s; d_loose := d_loose s; d_next := d_next s; d_head := d_head s;
     d_sheets := d_sheets s; s_ua := s_ua s; s_plugin := s_plugin s; domLoadFnArr := domLoadFnArr s; regObjArr := l; objIdArr := objIdArr s;
     listenersArr := listenersArr s; storedAltContent := storedAltContent s; storedAltContentId := storedAltContentId s;
     storedCallbackFn := storedCallbackFn s; storedCallbackId := storedCallbackId s; isDomLoaded := isDomLoaded s;
     isExpressInstallActive := isExpressInstallActive s; dynamicStylesheet := dynamicStylesheet s;
     dynamicStylesheetMedia := dynamicStylesheetMedia s; autoHideShow := autoHideShow s; s_timers := s_timers s; s_look := s_look s; s_unloaded := s_unloaded s;
     s_log := s_log s |}.
Definition on_ids (l : list string) (s : swf) : swf :=
  {| d_title := d_title s; d_location := d_location s; d_root := d_root s; d_loose := d_loose s; d_next := d_next s; d_head := d_head s;
     d_sheets := d_sheets s; s_ua := s_ua s; s_plugin := s_plugin s; domLoadFnArr := domLoadFnArr s; regObjArr := regObjArr s; objIdArr := l;
     listenersArr := listenersArr s; storedAltContent := storedAltContent s; storedAltContentId := storedAltContentId s;
     storedCallbackFn := storedCallbackFn s; storedCallbackId := storedCallbackId s; isDomLoaded := isDomLoaded s;
     isExpressInstallActive := isExpressInstallActive s; dynamicStylesheet := dynamicStylesheet s;
     dynamicStylesheetMedia := dynamicStylesheetMedia s; autoHideShow := autoHideShow s; s_timers := s_timers s; s_look := s_look s; s_unloaded := s_unloaded s;
     s_log := s_log s |}.
Definition on_listeners (l : list (string * string)) (s : swf) : swf :=
  {| d_title := d_title s; d_location := d_location s; d_root := d_root s; d_loose := d_loose s; d_next := d_next s; d_head := d_head s;
     d_sheets := d_sheets s; s_ua := s_ua s; s_plugin := s_plugin s; domLoadFnArr := domLoadFnArr s; regObjArr := regObjArr s;
     objIdArr := objIdArr s; listenersArr := l; storedAltContent := storedAltContent s; storedAltContentId := storedAltContentId s;
     storedCallbackFn := storedCallbackFn s; storedCallbackId := storedCallbackId s; isDomLoaded := isDomLoaded s;
     isExpressInstallActive := isExpressInstallActive s; dynamicStylesheet := dynamicStylesheet s;
     dynamicStylesheetMedia := dynamicStylesheetMedia s; autoHideShow := autoHideShow s; s_timers := s_timers s; s_look := s_look s; s_unloaded := s_unloaded s;
     s_log := s_log s |}.
Definition on_stored (r : option nat) (i : option string) (s : swf) : swf :=
  {| d_title := d_title s; d_location := d_location s; d_root := d_root s; d_loose := d_loose s; d_next := d_next s; d_head := d_head s;
     d_sheets := d_sheets s; s_ua := s_ua s; s_plugin := s_plugin s; domLoadFnArr := domLoadFnArr s; regObjArr := regObjArr s;
     objIdArr := objIdArr s; listenersArr := listenersArr s; storedAltContent := r; storedAltContentId := i;
     storedCallbackFn := storedCallbackFn s; storedCallbackId := storedCallbackId s; isDomLoaded := isDomLoaded s;
     isExpressInstallActive := isExpressInstallActive s; dynamicStylesheet := dynamicStylesheet s;
     dynamicStylesheetMedia := dynamicStylesheetMedia s; autoHideShow := autoHideShow s; s_timers := s_timers s; s_look := s_look s; s_unloaded := s_unloaded s;
     s_log := s_log s |}.
Definition on_stored_callback (f : option string) (i : string) (s : swf) : swf :=
  {| d_title := d_title s; d_location := d_location s; d_root := d_root s; d_loose := d_loose s; d_next := d_next s; d_head := d_head s;
     d_sheets := d_sheets s; s_ua := s_ua s; s_plugin := s_plugin s; domLoadFnArr := domLoadFnArr s; regObjArr := regObjArr s;
     objIdArr := objIdArr s; listenersArr := listenersArr s; storedAltContent := storedAltContent s; storedAltContentId := storedAltContentId s;
     storedCallbackFn := f; storedCallbackId := i; isDomLoaded := isDomLoaded s; isExpressInstallActive := true;
     dynamicStylesheet := dynamicStylesheet s; dynamicStylesheetMedia := dynamicStylesheetMedia s; autoHideShow := autoHideShow s;
     s_timers := s_timers s; s_look := s_look s; s_unloaded := s_unloaded s; s_log := s_log s |}.
Definition on_loaded (s : swf) : swf :=
  {| d_title := d_title s; d_location := d_location s; d_root := d_root s; d_loose := d_loose s; d_next := d_next s; d_head := d_head s;
     d_sheets := d_sheets s; s_ua := s_ua s; s_plugin := s_plugin s; domLoadFnArr := domLoadFnArr s; regObjArr := regObjArr s;
     objIdArr := objIdArr s; listenersArr := listenersArr s; storedAltContent := storedAltContent s; storedAltContentId := storedAltContentId s;
     storedCallbackFn := storedCallbackFn s; storedCallbackId := storedCallbackId s; isDomLoaded := true;
     isExpressInstallActive := isExpressInstallActive s; dynamicStylesheet := dynamicStylesheet s;
     dynamicStylesheetMedia := dynamicStylesheetMedia s; autoHideShow := autoHideShow s; s_timers := s_timers s; s_look := s_look s; s_unloaded := s_unloaded s;
     s_log := s_log s |}.
Definition on_install_end (s : swf) : swf :=
  {| d_title := d_title s; d_location := d_location s; d_root := d_root s; d_loose := d_loose s; d_next := d_next s; d_head := d_head s;
     d_sheets := d_sheets s; s_ua := s_ua s; s_plugin := s_plugin s; domLoadFnArr := domLoadFnArr s; regObjArr := regObjArr s;
     objIdArr := objIdArr s; listenersArr := listenersArr s; storedAltContent := storedAltContent s; storedAltContentId := storedAltContentId s;
     storedCallbackFn := storedCallbackFn s; storedCallbackId := storedCallbackId s; isDomLoaded := isDomLoaded s;
     isExpressInstallActive := false; dynamicStylesheet := dynamicStylesheet s; dynamicStylesheetMedia := dynamicStylesheetMedia s;
     autoHideShow := autoHideShow s; s_timers := s_timers s; s_look := s_look s; s_unloaded := s_unloaded s; s_log := s_log s |}.
Definition on_stylesheet (i : option nat) (m : option string) (s : swf) : swf :=
  {| d_title := d_title s; d_location := d_location s; d_root := d_root s; d_loose := d_loose s; d_next := d_next s; d_head := d_head s;
     d_sheets := d_sheets s; s_ua := s_ua s; s_plugin := s_plugin s; domLoadFnArr := domLoadFnArr s; regObjArr := regObjArr s;
     objIdArr := objIdArr s; listenersArr := listenersArr s; storedAltContent := storedAltContent s; storedAltContentId := storedAltContentId s;
     storedCallbackFn := storedCallbackFn s; storedCallbackId := storedCallbackId s; isDomLoaded := isDomLoaded s;
     isExpressInstallActive := isExpressInstallActive s; dynamicStylesheet := i; dynamicStylesheetMedia := m; autoHideShow := autoHideShow s;
     s_timers := s_timers s; s_look := s_look s; s_unloaded := s_unloaded s; s_log := s_log s |}.
Definition on_auto_off (s : swf) : swf :=
  {| d_title := d_title s; d_location := d_location s; d_root := d_root s; d_loose := d_loose s; d_next := d_next s; d_head := d_head s;
     d_sheets := d_sheets s; s_ua := s_ua s; s_plugin := s_plugin s; domLoadFnArr := domLoadFnArr s; regObjArr := regObjArr s;
     objIdArr := objIdArr s; listenersArr := listenersArr s; storedAltContent := storedAltContent s; storedAltContentId := storedAltContentId s;
     storedCallbackFn := storedCallbackFn s; storedCallbackId := storedCallbackId s; isDomLoaded := isDomLoaded s;
     isExpressInstallActive := isExpressInstallActive s; dynamicStylesheet := dynamicStylesheet s;
     dynamicStylesheetMedia := dynamicStylesheetMedia s; autoHideShow := false; s_timers := s_timers s; s_look := s_look s; s_unloaded := s_unloaded s; s_log := s_log s |}.
Definition on_timers (l : list swf_timer) (s : swf) : swf :=
  {| d_title := d_title s; d_location := d_location s; d_root := d_root s; d_loose := d_loose s; d_next := d_next s; d_head := d_head s;
     d_sheets := d_sheets s; s_ua := s_ua s; s_plugin := s_plugin s; domLoadFnArr := domLoadFnArr s; regObjArr := regObjArr s;
     objIdArr := objIdArr s; listenersArr := listenersArr s; storedAltContent := storedAltContent s; storedAltContentId := storedAltContentId s;
     storedCallbackFn := storedCallbackFn s; storedCallbackId := storedCallbackId s; isDomLoaded := isDomLoaded s;
     isExpressInstallActive := isExpressInstallActive s; dynamicStylesheet := dynamicStylesheet s;
     dynamicStylesheetMedia := dynamicStylesheetMedia s; autoHideShow := autoHideShow s; s_timers := l; s_look := s_look s; s_unloaded := s_unloaded s; s_log := s_log s |}.
Definition on_look (l : look) (s : swf) : swf :=
  {| d_title := d_title s; d_location := d_location s; d_root := d_root s; d_loose := d_loose s; d_next := d_next s; d_head := d_head s;
     d_sheets := d_sheets s; s_ua := s_ua s; s_plugin := s_plugin s; domLoadFnArr := domLoadFnArr s; regObjArr := regObjArr s;
     objIdArr := objIdArr s; listenersArr := listenersArr s; storedAltContent := storedAltContent s; storedAltContentId := storedAltContentId s;
     storedCallbackFn := storedCallbackFn s; storedCallbackId := storedCallbackId s; isDomLoaded := isDomLoaded s;
     isExpressInstallActive := isExpressInstallActive s; dynamicStylesheet := dynamicStylesheet s;
     dynamicStylesheetMedia := dynamicStylesheetMedia s; autoHideShow := autoHideShow s; s_timers := s_timers s; s_look := l; s_unloaded := s_unloaded s; s_log := s_log s |}.
Definition on_log (e : swf_effect) (s : swf) : swf :=
  {| d_title := d_title s; d_location := d_location s; d_root := d_root s; d_loose := d_loose s; d_next := d_next s; d_head := d_head s;
     d_sheets := d_sheets s; s_ua := s_ua s; s_plugin := s_plugin s; domLoadFnArr := domLoadFnArr s; regObjArr := regObjArr s;
     objIdArr := objIdArr s; listenersArr := listenersArr s; storedAltContent := storedAltContent s; storedAltContentId := storedAltContentId s;
     storedCallbackFn := storedCallbackFn s; storedCallbackId := storedCallbackId s; isDomLoaded := isDomLoaded s;
     isExpressInstallActive := isExpressInstallActive s; dynamicStylesheet := dynamicStylesheet s;
     dynamicStylesheetMedia := dynamicStylesheetMedia s; autoHideShow := autoHideShow s; s_timers := s_timers s; s_look := s_look s; s_unloaded := s_unloaded s;
     s_log := s_log s ++ [e] |}.
Definition on_unloaded (s : swf) : swf :=
  {| d_title := d_title s; d_location := d_location s; d_root := d_root s; d_loose := d_loose s; d_next := d_next s; d_head := d_head s;
     d_sheets := d_sheets s; s_ua := s_ua s; s_plugin := s_plugin s; domLoadFnArr := domLoadFnArr s; regObjArr := regObjArr s;
     objIdArr := objIdArr s; listenersArr := listenersArr s; storedAltContent := storedAltContent s; storedAltContentId := storedAltContentId s;
     storedCallbackFn := storedCallbackFn s; storedCallbackId := storedCallbackId s; isDomLoaded := isDomLoaded s;
     isExpressInstallActive := isExpressInstallActive s; dynamicStylesheet := dynamicStylesheet s;
     dynamicStylesheetMedia := dynamicStylesheetMedia s; autoHideShow := autoHideShow s; s_timers := s_timers s; s_look := s_look s; s_unloaded := true;
     s_log := s_log s |}.

Definition note (e : swf_effect) : M swf unit := modify (on_log e).
Definition set_timer (t : swf_timer) : M swf unit := modify (λ s, on_timers (s_timers s ++ [t]) s).

(** ** The document *)

Definition getElementById (id : string) : M swf (option node) := gets (λ s, find_id id (d_root s)).

(** [createElement(tag)]: a new element with attributes and children, not yet in the document. *)
Definition createElement (tag : string) (attrs : list (string * string)) (kids : list node) : M swf node := λ s,
  (Ret (Elem (d_next s) tag attrs [] kids), on_next (S (d_next s)) s).

(** [el.parentNode.replaceChild(new, el)] and the like: [new] in the place of the
    element [r], which is taken out. *)
Definition replace_element (r : nat) (new : list node) : M swf unit := modify (λ s,
  on_document (replace_ref r new (d_root s)) (match find_ref r (d_root s) with Some n => d_loose s ++ [n] | None => d_loose s end) s).
Definition removeChild (r : nat) : M swf unit := replace_element r [].
(** [el.parentNode.insertBefore(new, el)] *)
Definition insertBefore (new : node) (r : nat) : M swf unit := modify (λ s,
  on_document (match find_ref r (d_root s) with Some n => replace_ref r [new; n] (d_root s) | None => d_root s end) (d_loose s) s).
(** [r.appendChild(new)] *)
Fixpoint append_to (r : nat) (new : node) (n : node) : node :=
  match n with
  | Elem r' t a s ks => Elem r' t a s ((append_to r new <$> ks) ++ (if bool_decide (r' = r) then [new] else []))
  | _ => n
  end.
Definition appendChild (r : nat) (new : node) : M swf unit := modify (λ s, on_document (append_to r new (d_root s)) (d_loose s) s).
(** [el.style.k = v] *)
Definition set_style (r : nat) (k v : string) : M swf unit := modify (λ s,
  on_document (update_ref r (λ a st, (a, set_prop k v st)) (d_root s)) (update_ref r (λ a st, (a, set_prop k v st)) <$> d_loose s) s).

Definition the_ref (n : node) : nat := default 0%nat (ref_of n).

Definition ie_win (u : ua) : bool := ie u && win u.

Definition loaded_object (s : swf) (r : nat) : bool := l_loaded (s_look s) r.

(** A style of the page by a dynamic style sheet. *)
Definition createCSS (sel decl : string) (media : option string) (newStyle : bool) : M swf unit :=
  u ← gets s_ua;
  head ← gets d_head;
  if ie u && mac u then mret tt else
  if negb head then mret tt else
  let m := match media with Some t => if String.eqb t "" then "screen"%string else t | None => "screen"%string end in
  (if newStyle then modify (on_stylesheet None None) else mret tt);;
  current ← gets dynamicStylesheet;
  current_media ← gets dynamicStylesheetMedia;
  (if bool_decide (current = None) || negb (bool_decide (current_media = Some m)) then
     modify (λ s, on_stylesheet (Some (length (d_sheets s))) (Some m) (on_sheets (d_sheets s ++ [{| sh_media := m; sh_rules := [] |}]) s))
   else mret tt);;
  l ← gets s_look;
  let rule := sel +:+ " {" +:+ decl +:+ "}" in
  if negb (ie_win u) || l_adds_rules l then
    modify (λ s, match dynamicStylesheet s with
                 | Some i => on_sheets (alter (λ sh, {| sh_media := sh_media sh; sh_rules := sh_rules sh ++ [rule] |}) i (d_sheets s)) s
                 | None => s
                 end)
  else mret tt.

Definition setVisibility (id : string) (isVisible : bool) : M swf unit :=
  auto ← gets autoHideShow;
  if negb auto then mret tt else
  let v := if isVisible then "visible"%string else "hidden"%string in
  loaded ← gets isDomLoaded;
  el ← getElementById id;
  match (loaded : bool), el with
  | true, Some n => set_style (the_ref n) "visibility" v
  | _, _ => createCSS ("#" +:+ id) ("visibility:" +:+ v) None false
  end.

(** The object element of an id, or the one nested in it. *)
Definition getObjectById (id : string) : M swf (option nat) :=
  o ← getElementById id;
  l ← gets s_look;
  mret (match o with
        | Some n =>
            if String.eqb (tag_of n) "OBJECT" then
              if l_scriptable l (the_ref n) then Some (the_ref n) else the_ref <$> find_tag "OBJECT" n
            else None
        | None => None
        end).

Definition canExpressInstall : M swf bool :=
  active ← gets isExpressInstallActive;
  u ← gets s_ua;
  mret (negb active && hasPlayerVersion (pv u) "6.0.65" && (win u || mac u) && negb (old_webkit u)).

(** What is shown instead of a movie: a copy of what is in the object. *)
Definition is_alt (n : node) : bool :=
  match n with Elem _ t _ _ _ => negb (String.eqb t "PARAM") | Text _ => true | Comment _ => false end.

Definition abstractAltContent (obj : node) : M swf node :=
  u ← gets s_ua;
  next ← gets d_next;
  let content := if ie_win u then kids_of obj
                 else match find_tag "OBJECT" obj with Some n => List.filter is_alt (kids_of n) | None => [] end in
  let '(ks, next') := copy_nodes copy_node (S next) content in
  modify (on_next next');;
  mret (Elem next "DIV" [] [] ks).

(** [(function(){ if (obj.readyState == 4) ... else setTimeout(arguments.callee, 10) })()] *)
Definition remove_when_loaded (r : nat) : M swf unit :=
  ready ← gets (λ s, loaded_object s r);
  if (ready : bool) then removeChild r else set_timer (WRemove r).

Definition displayAltContent (obj : node) : M swf unit :=
  u ← gets s_ua;
  ready ← gets (λ s, loaded_object s (the_ref obj));
  if ie_win u && negb ready then
    el ← createElement "DIV" [] [];
    insertBefore el (the_ref obj);;
    ac ← abstractAltContent obj;
    replace_element (the_ref el) [ac];;
    set_style (the_ref obj) "display" "none";;
    remove_when_loaded (the_ref obj)
  else
    ac ← abstractAltContent obj;
    replace_element (the_ref obj) [ac].

(** ** Creating an object *)

Definition props := list (string * value).

Definition FLASH_MIME_TYPE : string := "application/x-shockwave-flash".
Definition EXPRESS_INSTALL_ID : string := "SWFObjectExprInst".
Definition CLASS_ID : string := "clsid:D27CDB6E-AE6D-11cf-96B8-444553540000".

Definition quoted (s : string) : string := String dquote (s +:+ String dquote "").

(** [o[k] != Object.prototype[k]] *)
Definition own_value (kv : string * value) : res bool := b ← loose_eq kv.2 (inherited kv.1); Ret (negb b).

(** The attributes in the HTML for Internet Explorer, and the parameters with the
    address of the movie. *)
Fixpoint ie_attrs (att : props) (par : props) : res (string * props) :=
  match att with
  | [] => Ret (""%string, par)
  | (i, v) :: att' =>
      own ← own_value (i, v);
      if (own : bool) then
        if String.eqb (lower i) "data" then ie_attrs att' (prop_put "movie" v par)
        else
          t ← to_string v;
          r ← ie_attrs att' par;
          Ret ((if String.eqb (lower i) "styleclass" then " class=" +:+ quoted t
                else if String.eqb (lower i) "classid" then ""
                else " " +:+ i +:+ "=" +:+ quoted t) +:+ r.1, r.2)
      else ie_attrs att' par
  end.

Fixpoint ie_params (par : props) : res string :=
  match par with
  | [] => Ret ""%string
  | (j, v) :: par' =>
      own ← own_value (j, v);
      rest ← ie_params par';
      if (own : bool) then
        t ← to_string v;
        Ret ("<param name=" +:+ quoted j +:+ " value=" +:+ quoted t +:+ " />" +:+ rest)
      else Ret rest
  end.

Definition object_html (att par : string) : string := "<object classid=" +:+ quoted CLASS_ID +:+ att +:+ ">" +:+ par +:+ "</object>".

(** The attributes of the object element. *)
Fixpoint object_attrs (att : props) (acc : list (string * string)) : res (list (string * string)) :=
  match att with
  | [] => Ret acc
  | (m, v) :: att' =>
      own ← own_value (m, v);
      if (own : bool) then
        t ← to_string v;
        object_attrs att' (if String.eqb (lower m) "styleclass" then set_prop "class" t acc
                           else if String.eqb (lower m) "classid" then acc
                           else set_prop (lower m) t acc)
      else object_attrs att' acc
  end.

(** [createObjParam] for every parameter but the movie. *)
Fixpoint object_params (par : props) : M swf (list node) :=
  match par with
  | [] => mret []
  | (n, v) :: par' =>
      own ← lift (own_value (n, v));
      if (own : bool) && negb (String.eqb (lower n) "movie") then
        t ← lift (to_string v);
        p ← createElement "PARAM" [("name", n); ("value", t)] [];
        ps ← object_params par';
        mret (p :: ps)
      else object_params par'
  end.

(** The attributes, with the id of the element that is replaced when there is none. *)
Definition with_id (att : props) (id : string) : props :=
  match assoc "id" att with None | Some VUndef => prop_put "id" (VStr id) att | Some _ => att end.

Section swfobject.
Context (parse_object : string → nat → node * nat).
Context (user : string → M swf unit).

(** The element of an object takes the place of the element [id]; the result is
    its reference and the attributes and parameters, which are written to. *)
Definition createSWF (att par : props) (id : string) : M swf (option nat * props * props) :=
  el ← getElementById id;
  u ← gets s_ua;
  if old_webkit u then mret (None, att, par) else
  match el with
  | None => mret (None, att, par)
  | Some n =>
      let att := with_id att id in
      if ie_win u then
        ap ← lift (ie_attrs att par);
        ps ← lift (ie_params ap.2);
        next ← gets d_next;
        let '(o, next') := parse_object (object_html ap.1 ps) next in
        modify (on_next next');;
        replace_element (the_ref n) [o];;
        own ← lift (get (VObj false att) "id");
        oid ← lift (to_string own);
        modify (λ s, on_ids (objIdArr s ++ [oid]) s);;
        r ← getElementById oid;
        mret (the_ref <$> r, att, ap.2)
      else
        o ← createElement "OBJECT" [] [];
        attrs ← lift (object_attrs att [("type"%string, FLASH_MIME_TYPE)]);
        ps ← object_params par;
        replace_element (the_ref n) [Elem (the_ref o) "OBJECT" attrs [] ps];;
        mret (Some (the_ref o), att, par)
  end.

Definition call_back (f : option string) (success : bool) (id : string) (ref : option nat) : M swf unit :=
  match f with
  | Some f => note (CalledBack f success id ref);; user f
  | None => mret tt
  end.

(** ** Express install *)

Fixpoint ends_percent (s : string) : bool :=
  match s with
  | EmptyString => false
  | String c s' => String.eqb s "%" || ends_percent s'
  end.

(** Whether a size is absent or too small. *)
Definition too_small (v : option value) (limit : Z) : res bool :=
  match v with
  | None | Some VUndef => Ret true
  | Some v => t ← to_string v; Ret (negb (ends_percent t) && num_ltb (parseInt t) (num_of_Z limit))
  end.

Definition at_least (att : props) (k : string) (limit : Z) : res props :=
  small ← too_small (assoc k att) limit;
  Ret (if (small : bool) then prop_put k (VStr (dec_of_Z limit)) att else att).

(** [replace(/&/g, "%26")] *)
Fixpoint escape_amp (s : string) : string :=
  match s with
  | EmptyString => ""
  | String c s' => (if Ascii.eqb c "&" then "%26" else String c "") +:+ escape_amp s'
  end.

Definition install_vars (u : ua) (location title : string) : string :=
  "MMredirectURL=" +:+ escape_amp location +:+ "&MMplayerType=" +:+ (if ie_win u then "ActiveX" else "PlugIn") +:+ "&MMdoctitle=" +:+ title.

(** [par.flashvars += "&" + fv], or a new one *)
Definition add_flashvars (par : props) (fv : string) : res props :=
  match assoc "flashvars" par with
  | None | Some VUndef => Ret (prop_put "flashvars" (VStr fv) par)
  | Some v => w ← js_add v (VStr ("&" +:+ fv)); Ret (prop_put "flashvars" w par)
  end.

(** Keep what the dialog replaces. *)
Definition store_content (obj : node) (id : string) : M swf unit :=
  if String.eqb (tag_of obj) "OBJECT" then
    ac ← abstractAltContent obj;
    modify (λ s, on_document (d_root s) (d_loose s ++ [ac]) s);;
    modify (on_stored (Some (the_ref ac)) None)
  else modify (on_stored (Some (the_ref obj)) (Some id)).

Definition showExpressInstall (att par : props) (id : string) (callbackFn : option string) : M swf unit :=
  modify (on_stored_callback callbackFn id);;
  obj ← getElementById id;
  match obj with
  | None => mret tt
  | Some obj =>
      store_content obj id;;
      let att := prop_put "id" (VStr EXPRESS_INSTALL_ID) att in
      att ← lift (at_least att "width" 310);
      att ← lift (at_least att "height" 137);
      title ← gets d_title;
      let title := String.substring 0 47 title +:+ " - Flash Player Installation" in
      modify (on_title title);;
      u ← gets s_ua;
      location ← gets d_location;
      par ← lift (add_flashvars par (install_vars u location title));
      ready ← gets (λ s, loaded_object s (the_ref obj));
      if ie_win u && negb ready then
        let id' := id +:+ "SWFObjectNew" in
        newObj ← createElement "DIV" [("id", id')] [];
        insertBefore newObj (the_ref obj);;
        set_style (the_ref obj) "display" "none";;
        remove_when_loaded (the_ref obj);;
        createSWF att par id';;
        mret tt
      else
        createSWF att par id;;
        mret tt
  end.

(** Take an element out of where it is, to put it elsewhere. *)
Definition take_out (r : nat) : M swf (option node) := λ s,
  match list_find (λ n, ref_of n = Some r) (d_loose s) with
  | Some (i, n) => (Ret (Some n), on_document (d_root s) (delete i (d_loose s)) s)
  | None => (Ret (find_ref r (d_root s)), on_document (replace_ref r [] (d_root s)) (d_loose s) s)
  end.

Definition expressInstallCallback : M swf unit :=
  active ← gets isExpressInstallActive;
  if negb active then mret tt else
  obj ← getElementById EXPRESS_INSTALL_ID;
  stored ← gets storedAltContent;
  (match obj, stored with
   | Some obj, Some r =>
       content ← take_out r;
       replace_element (the_ref obj) (option_list content);;
       id ← gets storedAltContentId;
       (match id with
        | Some id =>
            setVisibility id true;;
            u ← gets s_ua;
            if ie_win u then set_style r "display" "block" else mret tt
        | None => mret tt
        end);;
       f ← gets storedCallbackFn;
       cid ← gets storedCallbackId;
       call_back f false cid None
   | _, _ => mret tt
   end);;
  modify on_install_end.

(** ** Registered objects *)

(** The parameters of an object element, but for the movie. *)
Fixpoint params_of (l : list node) (par : props) : res props :=
  match l with
  | [] => Ret par
  | p :: l' =>
      match attr "name" p with
      | None => Throw TypeError
      | Some n =>
          params_of l' (if String.eqb (lower n) "movie" then par
                        else prop_put n (match attr "value" p with Some v => VStr v | None => VNull end) par)
      end
  end.

Definition install_attrs (obj : node) (url : string) : props :=
  let optional k k' := match attr k obj with Some v => if String.eqb v "" then [] else [(k', VStr v)] | None => [] end in
  [("data"%string, VStr url); ("width"%string, VStr (attr_or "width" "0" obj)); ("height"%string, VStr (attr_or "height" "0" obj))]
  ++ optional "class"%string "styleclass"%string ++ optional "align"%string "align"%string.

Definition match_version (g : registered) : M swf unit :=
  u ← gets s_ua;
  let id := g_id g in
  if num_gtb (major (pv u)) (num_of_Z 0) then
    obj ← getElementById id;
    match obj with
    | None => mret tt
    | Some obj =>
        if hasPlayerVersion (pv u) (g_version g) && negb (old_webkit u) then
          setVisibility id true;;
          match g_callback g with
          | Some f => ref ← getObjectById id; call_back (Some f) true id ref
          | None => mret tt
          end
        else
          can ← canExpressInstall;
          if negb (String.eqb (g_install g) "") && (can : bool) then
            par ← lift (params_of (List.filter (λ e, String.eqb (tag_of e) "PARAM") (mjoin (elements_of <$> kids_of obj))) []);
            showExpressInstall (install_attrs obj (g_install g)) par id (g_callback g)
          else
            displayAltContent obj;;
            call_back (g_callback g) false id None
    end
  else
    setVisibility id true;;
    match g_callback g with
    | Some f =>
        o ← getObjectById id;
        l ← gets s_look;
        match o with
        | Some r => if l_scriptable l r then call_back (Some f) true id (Some r) else call_back (Some f) false id None
        | None => call_back (Some f) false id None
        end
    | None => mret tt
    end.

Fixpoint match_all (l : list registered) : M swf unit :=
  match l with
  | [] => mret tt
  | g :: l' => match_version g;; match_all l'
  end.

Definition matchVersions : M swf unit := l ← gets regObjArr; match_all l.

(** ** The version of the player, by a test movie *)

Definition probe (r counter : nat) : M swf unit :=
  l ← gets s_look;
  match l_version l r with
  | Some d =>
      (match d with
       | Some t => if String.eqb t "" then mret tt else v ← lift (version_of t); modify (on_version v)
       | None => mret tt
       end);;
      removeChild r;; matchVersions
  | None => if (counter <? 10)%nat then set_timer (WTest r (S counter)) else removeChild r;; matchVersions
  end.

Definition testPlayerVersion : M swf unit :=
  b ← gets (λ s, find_tag "BODY" (d_root s));
  o ← createElement "OBJECT" [("type"%string, FLASH_MIME_TYPE)] [];
  match b with
  | None => raise TypeError
  | Some b => appendChild (the_ref b) o;; probe (the_ref o) 0
  end.

Definition main : M swf unit :=
  plugin ← gets s_plugin;
  if (plugin : bool) then testPlayerVersion else matchVersions.

(** ** Embedding *)

Definition is_object (v : value) : bool := match v with VObj _ _ => true | _ => false end.

(** A copy of the properties of an object. *)
Definition copied (v : value) : props := if is_object v then own_props v else [].

(** The variables for the movie, appended to the parameter [flashvars]. *)
Fixpoint add_vars (vars par : props) : res props :=
  match vars with
  | [] => Ret par
  | (k, v) :: vars' =>
      t ← to_string v;
      par ← add_flashvars par (k +:+ "=" +:+ t);
      add_vars vars' par
  end.

(** What [embedSWF] does when the document is loaded. *)
Definition embed_now (e : embed) : M swf unit :=
  w ← lift (to_string (e_width e));
  h ← lift (to_string (e_height e));
  let att := prop_put "height" (VStr h) (prop_put "width" (VStr w) (prop_put "data" (VStr (e_url e)) (copied (e_attrs e)))) in
  par ← lift (add_vars (copied (e_flashvars e)) (copied (e_params e)));
  u ← gets s_ua;
  can ← canExpressInstall;
  if hasPlayerVersion (pv u) (e_version e) then
    r ← createSWF att par (e_id e);
    own ← lift (get (VObj false r.1.2) "id");
    same ← lift (loose_eq own (VStr (e_id e)));
    (if (same : bool) then setVisibility (e_id e) true else mret tt);;
    call_back (e_callback e) true (e_id e) r.1.1
  else if negb (String.eqb (e_install e) "") && (can : bool) then
    showExpressInstall (prop_put "data" (VStr (e_install e)) att) par (e_id e) (e_callback e)
  else
    setVisibility (e_id e) true;;
    call_back (e_callback e) false (e_id e) None.

Definition run_dom_fn (f : dom_fn) : M swf unit :=
  match f with
  | DMain => main
  | DEmbed e => embed_now e
  | DUser g => note (RanUser g);; user g
  end.

Fixpoint run_dom_fns (l : list dom_fn) : M swf unit :=
  match l with
  | [] => mret tt
  | f :: l' => run_dom_fn f;; run_dom_fns l'
  end.

(** ** The end of loading *)

(** An element is added to the body and removed again, to see whether it can be. *)
Definition callDomLoadFunctions : M swf unit :=
  loaded ← gets isDomLoaded;
  if (loaded : bool) then mret tt else
  body ← gets (λ s, find_tag "BODY" (d_root s));
  match body with
  | None => mret tt
  | Some b =>
      modify (λ s, on_next (S (d_next s)) s);;
      modify on_loaded;;
      l ← gets domLoadFnArr;
      run_dom_fns l
  end.

Definition addDomLoadEvent (f : dom_fn) : M swf unit :=
  loaded ← gets isDomLoaded;
  if (loaded : bool) then run_dom_fn f else modify (λ s, on_queue (domLoadFnArr s ++ [f]) s).

(** [addListener(target, event, fn)] *)
Definition addListener (target event fn : string) : M swf unit :=
  note (Listens target event fn);;
  modify (λ s, on_listeners (listenersArr s ++ [(target, event)]) s).

Definition addLoadEvent (fn : string) : M swf unit :=
  l ← gets s_look;
  if l_win_listens l then note (Listens "window" "load" fn)
  else if l_doc_listens l then note (Listens "document" "load" fn)
  else if l_win_attaches l then addListener "window" "onload" fn
  else note (Listens "window" (if l_win_onload l then "onload, after the old one" else "onload") fn).

Definition scroll_probe : M swf unit :=
  loaded ← gets isDomLoaded;
  if (loaded : bool) then mret tt else
  l ← gets s_look;
  if l_scrolls l then callDomLoadFunctions else set_timer WScroll.

Definition loaded_probe : M swf unit :=
  loaded ← gets isDomLoaded;
  if (loaded : bool) then mret tt else
  l ← gets s_look;
  let state := default "undefined"%string (l_readyState l) in
  if occurs "loaded" state || occurs "complete" state then callDomLoadFunctions else set_timer WLoaded.

(** The ways to hear of the end of loading. *)
Definition onDomLoad : M swf unit :=
  u ← gets s_ua;
  if negb (w3 u) then mret tt else
  l ← gets s_look;
  body ← gets (λ s, find_tag "BODY" (d_root s));
  (if match l_readyState l with Some st => String.eqb st "complete" | None => bool_decide (body ≠ None) end
   then callDomLoadFunctions else mret tt);;
  loaded ← gets isDomLoaded;
  if (loaded : bool) then mret tt else
  (if l_doc_listens l then note (Listens "document" "DOMContentLoaded" "callDomLoadFunctions") else mret tt);;
  (if ie_win u then
     note (Listens "document" "onreadystatechange" "callDomLoadFunctions");;
     if l_top l then scroll_probe else mret tt
   else mret tt);;
  (match wk u with Some n => if truthy (VNum n) then loaded_probe else mret tt | None => mret tt end);;
  addLoadEvent "callDomLoadFunctions".

(** ** Removing *)

Definition removeObjectInIE (id : string) : M swf unit :=
  obj ← getElementById id;
  match obj with Some n => removeChild (the_ref n) | None => mret tt end.

Definition remove_in_ie_when_loaded (id : string) (r : nat) : M swf unit :=
  ready ← gets (λ s, loaded_object s r);
  if (ready : bool) then removeObjectInIE id else set_timer (WRemoveIE id r).

Definition removeSWF (id : string) : M swf unit :=
  obj ← getElementById id;
  u ← gets s_ua;
  match obj with
  | Some n =>
      if String.eqb (tag_of n) "OBJECT" then
        if ie_win u then
          set_style (the_ref n) "display" "none";;
          remove_in_ie_when_loaded id (the_ref n)
        else removeChild (the_ref n)
      else mret tt
  | None => mret tt
  end.

Fixpoint remove_all (ids : list string) : M swf unit :=
  match ids with [] => mret tt | id :: ids' => removeSWF id;; remove_all ids' end.

(** The handler of [onunload] in Internet Explorer: listeners and objects go, and
    then the variables of the library. *)
Definition on_unload : M swf unit :=
  ls ← gets listenersArr;
  modify (λ s, foldl (λ s te, on_log (Detached te.1 te.2) s) s ls);;
  ids ← gets objIdArr;
  remove_all ids;;
  modify on_unloaded.

Definition cleanup : M swf unit :=
  u ← gets s_ua;
  if ie_win u then note (Listens "window" "onunload" "on_unload") else mret tt.

(** ** The public functions *)

Definition registerObject (id version install : string) (callbackFn : option string) : M swf unit :=
  u ← gets s_ua;
  if w3 u && negb (String.eqb id "") && negb (String.eqb version "") then
    modify (λ s, on_registered (regObjArr s ++ [{| g_id := id; g_version := version; g_install := install; g_callback := callbackFn |}]) s);;
    setVisibility id false
  else call_back callbackFn false id None.

Definition embedSWF (e : embed) : M swf unit :=
  u ← gets s_ua;
  if w3 u && negb (old_webkit u) && negb (String.eqb (e_url e) "") && negb (String.eqb (e_id e) "") &&
     truthy (e_width e) && truthy (e_height e) && negb (String.eqb (e_version e) "")
  then setVisibility (e_id e) false;; addDomLoadEvent (DEmbed e)
  else call_back (e_callback e) false (e_id e) None.

Definition switchOffAutoHideShow : M swf unit := modify on_auto_off.

Definition getFlashPlayerVersion : M swf (num * num * num) :=
  gets (λ s, (major (pv (s_ua s)), minor (pv (s_ua s)), release (pv (s_ua s)))).

Definition if_w3 (f : M swf unit) : M swf unit := u ← gets s_ua; if w3 u then f else mret tt.

Definition public_createSWF (att par : props) (id : string) : M swf unit := if_w3 (createSWF att par id;; mret tt).
Definition public_removeSWF (id : string) : M swf unit := if_w3 (removeSWF id).
Definition public_createCSS (sel decl : string) (media : option string) (newStyle : bool) : M swf unit := if_w3 (createCSS sel decl media newStyle).
Definition public_showExpressInstall (att par : props) (id : string) (f : option string) : M swf unit :=
  if_w3 (can ← canExpressInstall; if (can : bool) then showExpressInstall att par id f else mret tt).
Definition public_getObjectById (id : string) : M swf (option nat) :=
  u ← gets s_ua; if w3 u then getObjectById id else mret None.

(** ** Steps *)

(** A timer fires. *)
Definition run_swf_timer (t : swf_timer) : M swf unit :=
  match t with
  | WTest r counter => probe r counter
  | WRemove r => remove_when_loaded r
  | WRemoveIE id r => remove_in_ie_when_loaded id r
  | WScroll => scroll_probe
  | WLoaded => loaded_probe
  end.

Inductive swf_event :=
| EvLook (l : look)                       (* the browser goes on *)
| EvFire (i : nat)                        (* a timer *)
| EvLoaded                                (* the end of loading *)
| EvRegister (id version install : string) (f : option string)
| EvEmbed (e : embed)
| EvOnLoad (f : string)                   (* [swfobject.addDomLoadEvent] *)
| EvExpress (att par : props) (id : string) (f : option string)
| EvInstalled                             (* the dialog calls back *)
| EvRemove (id : string)
| EvOnPageLoad (f : string)               (* [swfobject.addLoadEvent] *)
| EvUnload.

Definition swf_step (ev : swf_event) : M swf unit :=
  match ev with
  | EvLook l => modify (on_look l)
  | EvFire i =>
      timers ← gets s_timers;
      match timers !! i with
      | Some t => modify (λ s, on_timers (delete i (s_timers s)) s);; run_swf_timer t
      | None => mret tt
      end
  | EvLoaded => callDomLoadFunctions
  | EvRegister id v i f => registerObject id v i f
  | EvEmbed e => embedSWF e
  | EvOnLoad f => addDomLoadEvent (DUser f)
  | EvExpress att par id f => public_showExpressInstall att par id f
  | EvInstalled => expressInstallCallback
  | EvRemove id => public_removeSWF id
  | EvOnPageLoad f => addLoadEvent f
  | EvUnload => u ← gets s_ua; if ie_win u then on_unload else mret tt
  end.

Definition run_swf (evs : list swf_event) (s : swf) : swf := foldl (λ s ev, (swf_step ev s).2) s evs.
End swfobject.

(** A page where the script was just loaded, before [onDomLoad]. *)
Definition new_swf (b : browser) (l : look) (root : node) (next : nat) (head : bool) (title location : string) : swf :=
  {| d_title := title; d_location := location; d_root := root; d_loose := []; d_next := next; d_head := head; d_sheets := [];
     s_ua := (detect b).1; s_plugin := (detect b).2; domLoadFnArr := [DMain]; regObjArr := []; objIdArr := []; listenersArr := [];
     storedAltContent := None; storedAltContentId := None; storedCallbackFn := None; storedCallbackId := "";
     isDomLoaded := false; isExpressInstallActive := false; dynamicStylesheet := None; dynamicStylesheetMedia := None;
     autoHideShow := true; s_timers := []; s_look := l; s_unloaded := false; s_log := [] |}.
