(* ===== verification/SwfFacts.v ===== *)
(** * swfobject: versions, the query, the queue of functions, express install

    Facts about the closure of swfobject in [SwfObject] and the functions in
    [SwfBase]. *)

From Stdlib Require Import SpecFloat.
From S2P Require Import Prelude JSNum JSValue JSON NodeUrl JQueryCore JQueryParam Forms AjaxSubmit Regex SwfBase DomTree SwfObject.

(** ** Versions *)

Lemma digit_start c s : is_digit c = true →
  ltrim (String c s) = String c s ∧
  match String c s with String "-" t => (true, t) | String "+" t => (false, t) | t => (false, t) end = (false, String c s).
Proof. destruct c as [[] [] [] [] [] [] [] []]; try done. Qed.

Lemma parseInt_dec n : parseInt (dec_of_N n) = num_of_Z (Z.of_N n).
Proof.
  unfold parseInt. pose proof (digits_dec_of_N n) as Hd. pose proof (dec_of_N_nonempty n) as Hne.
  assert (span_digits (dec_of_N n) = (dec_of_N n, ""%string)) as Hspan.
  { pose proof (span_digits_app (dec_of_N n) "" Hd eq_refl) as H. by rewrite str_app_nil_r in H. }
  assert (nat_of_digits (dec_of_N n) = n) as Hnat by (unfold nat_of_digits; by rewrite N_of_dec_of_N).
  destruct (dec_of_N n) as [|c s]; [done|]. cbn in Hd. apply andb_true_iff in Hd as [Hc _].
  destruct (digit_start c s Hc) as [-> ->]. rewrite Hspan. cbn [fst String.eqb]. rewrite Hnat.
  destruct n as [|p]; [done|]. apply num_of_decimal_int.
Qed.

Lemma or_zero_num z : safe z → or_zero (num_of_Z z) = num_of_Z z.
Proof.
  intros Hz. unfold or_zero. change (VNum (num_of_Z z)) with (VInt z). rewrite truthy_VInt by done.
  destruct (Z.eqb_spec z 0) as [->|]; done.
Qed.

Lemma no_dot n : str_forallb (λ a, negb (Ascii.eqb a ".")) (dec_of_N n) = true.
Proof.
  pose proof (digits_dec_of_N n) as Hd. induction (dec_of_N n) as [|c s IH]; [done|]. cbn in *. apply andb_true_iff in Hd as [Hc Hd].
  rewrite IH by done. destruct c as [[] [] [] [] [] [] [] []]; done.
Qed.

Lemma split_last c s : str_forallb (λ a, negb (Ascii.eqb a c)) s = true → split_char c s = [s].
Proof.
  induction s as [|a s IH]; [done|]. cbn. intros H. apply andb_true_iff in H as [Ha Hs]. apply negb_true_iff in Ha. by rewrite Ha, IH.
Qed.

(** A version of natural numbers, and its usual text. *)
Definition version_text (x y z : N) : string := dec_of_N x +:+ "." +:+ dec_of_N y +:+ "." +:+ dec_of_N z.
Definition version_nums (a b c : N) : version :=
  {| major := num_of_Z (Z.of_N a); minor := num_of_Z (Z.of_N b); release := num_of_Z (Z.of_N c) |}.

Definition small (n : N) : Prop := (n < 2 ^ 53)%N.
Lemma small_safe n : small n → safe (Z.of_N n).
Proof. unfold small, safe. intros H. change (2 ^ 53)%N with 9007199254740992%N in H. change (2 ^ 53)%Z with 9007199254740992%Z. lia. Qed.

(** The order of versions. *)
Definition version_le (x y z a b c : N) : Prop := (x < a ∨ x = a ∧ (y < b ∨ y = b ∧ z ≤ c))%N.

(** The comparison of the installed version with a required one is the
    lexicographic order of the numbers of the versions. *)
Theorem hasPlayerVersion_lex a b c x y z :
  small a → small b → small c → small x → small y → small z →
  hasPlayerVersion (version_nums a b c) (version_text x y z) = true ↔ version_le x y z a b c.
Proof.
  intros Ha%small_safe Hb%small_safe Hc%small_safe Hx%small_safe Hy%small_safe Hz%small_safe.
  unfold hasPlayerVersion, version_text. cbn [String.append].
  change ("." +:+ dec_of_N y +:+ "." +:+ dec_of_N z) with (String "." (dec_of_N y +:+ String "." (dec_of_N z))).
  rewrite !split_char_line, split_last by apply no_dot. unfold parseInt_at. cbn [lookup list_lookup].
  rewrite !parseInt_dec, !or_zero_num by done. unfold num_gtb. cbn [major minor release version_nums].
  rewrite !num_ltb_safe, !num_eqb_safe, num_leb_safe by done. unfold version_le.
  rewrite !orb_true_iff, !andb_true_iff, !Z.ltb_lt, !Z.eqb_eq, Z.leb_le. lia.
Qed.

Lemma hasPlayerVersion_lex_witness : hasPlayerVersion (version_nums 11 2 202) (version_text 10 3 183) = true ↔ version_le 10 3 183 11 2 202.
Proof. apply hasPlayerVersion_lex; vm_compute; reflexivity. Defined.

(** ** The filter of the query *)

(** The characters that would end an attribute, a tag or a statement. *)
Definition harmful (c : ascii) : bool := existsb (N.eqb (N_of_ascii c)) [92; 34; 60; 62; 59]%N.

Lemma escape_char_harmless c : existsb harmful (list_ascii_of_string (escape_char c)) = false.
Proof. destruct c as [[] [] [] [] [] [] [] []]; vm_compute; reflexivity. Qed.

Lemma encode_harmless s : existsb harmful (list_ascii_of_string (encodeURIComponent s)) = false.
Proof.
  unfold encodeURIComponent. induction s as [|c s IH]; [done|]. cbn [qs_escape]. rewrite list_ascii_app, existsb_app, IH, escape_char_harmless. done.
Qed.

Lemma harmful_bad c : harmful c = true → bad_char c = true.
Proof. destruct c as [[] [] [] [] [] [] [] []]; done. Qed.

Lemma filter_harmless s : existsb harmful (list_ascii_of_string (urlEncodeIfNecessary s)) = false.
Proof.
  unfold urlEncodeIfNecessary. destruct (existsb bad_char _) eqn:Hb; [apply encode_harmless|].
  destruct (existsb harmful _) eqn:Hh; [|done]. apply existsb_exists in Hh as (c & Hc & Hh%harmful_bad).
  assert (existsb bad_char (list_ascii_of_string s) = true) as Hb' by (apply existsb_exists; eauto). congruence.
Qed.

(** Whatever the address of the page, the value of a parameter of the query
    has no backslash, double quote, angle bracket or semicolon: it cannot end an attribute or
    a tag of the page it is written to. *)
Theorem query_value_safe search hash param :
  existsb harmful (list_ascii_of_string (getQueryParamValue search hash param)) = false.
Proof.
  unfold getQueryParamValue. destruct (String.eqb (if String.eqb search "" then hash else search) ""); [done|].
  destruct param as [p|]; [|apply filter_harmless].
  induction (split_char "&" _) as [|q qs IH]; [done|]. cbn [find_param]. destruct (String.eqb _ p); [apply filter_harmless|apply IH].
Qed.

(** ** The functions for the end of loading *)

Definition is_Ret {A} (r : res A) : Prop := ∃ a, r = Ret a.

Definition ran (s : swf) : list string := omap (λ e, match e with RanUser f => Some f | _ => None end) (s_log s).
Definition users (l : list dom_fn) : list string := omap (λ f, match f with DUser g => Some g | _ => None end) l.
Definition added (evs : list swf_event) : list string := omap (λ e, match e with EvOnLoad f => Some f | _ => None end) evs.

(** What the rest of the library leaves alone. *)
Definition load_state (s : swf) : list string * bool * list string := (ran s, isDomLoaded s, users (domLoadFnArr s)).
Definition calm {A} (m : M swf A) : Prop := ∀ s, load_state (m s).2 = load_state s.

Lemma calm_bind {A B} (m : M swf A) (k : A → M swf B) : calm m → (∀ a, calm (k a)) → calm (m ≫= k).
Proof.
  intros Hm Hk s. unfold mbind, M_bind. specialize (Hm s). destruct (m s) as [[a|e] s']; cbn in *; [|done]. by rewrite Hk.
Qed.
Lemma calm_pure {A} (m : M swf A) : (∀ s, (m s).2 = s) → calm m.
Proof. intros H s. by rewrite H. Qed.
Lemma calm_modify f : (∀ s, load_state (f s) = load_state s) → calm (modify f).
Proof. intros H s. apply H. Qed.
Lemma calm_note e : match e with RanUser _ => false | _ => true end = true → calm (note e).
Proof.
  intros He. apply calm_modify. intros s. unfold load_state, ran. cbn. rewrite omap_app. destruct e; [|done| |]; cbn; by rewrite app_nil_r.
Qed.
Lemma calm_created t a k : calm (createElement t a k).
Proof. by intros s. Qed.
Lemma calm_taken r : calm (take_out r).
Proof. intros s. unfold take_out. by destruct (list_find _ _) as [[i n]|]. Qed.

Ltac calmly_by t := repeat first
  [ by t | by apply calm_pure | by apply calm_note | apply calm_created | apply calm_taken | by apply calm_modify
  | apply calm_bind; [|intros ?] | progress case_match ].

Section loading.
Context (parse_object : string → nat → node * nat) (user : string → M swf unit).
(** The functions of the page may throw, and do not call the library. *)
Context (Huser : ∀ f s, (user f s).2 = s).

Lemma calm_css sel decl media new : calm (createCSS sel decl media new).
Proof.
  unfold createCSS. calmly_by idtac. apply calm_modify. intros s. by destruct (dynamicStylesheet s).
Qed.
Lemma calm_visible id b : calm (setVisibility id b).
Proof. unfold setVisibility. calmly_by ltac:(apply calm_css). Qed.
Lemma calm_get_object id : calm (getObjectById id).
Proof. unfold getObjectById. calmly_by idtac. Qed.
Lemma calm_can : calm canExpressInstall.
Proof. unfold canExpressInstall. calmly_by idtac. Qed.
Lemma calm_abstract obj : calm (abstractAltContent obj).
Proof. unfold abstractAltContent. calmly_by idtac. Qed.
Lemma calm_display obj : calm (displayAltContent obj).
Proof. unfold displayAltContent, remove_when_loaded, replace_element. calmly_by ltac:(apply calm_abstract). Qed.
Lemma calm_params par : calm (object_params par).
Proof. induction par as [|[n v] par IH]; cbn [object_params]; calmly_by ltac:(apply IH). Qed.
Lemma calm_create att par id : calm (createSWF parse_object att par id).
Proof. unfold createSWF. calmly_by ltac:(apply calm_params). Qed.
Lemma calm_back f b id r : calm (call_back user f b id r).
Proof. unfold call_back. calmly_by ltac:(apply calm_pure; apply Huser). Qed.
Lemma calm_express att par id f : calm (showExpressInstall parse_object att par id f).
Proof.
  unfold showExpressInstall, store_content, remove_when_loaded. calmly_by ltac:(first [apply calm_create | apply calm_abstract]).
Qed.
Lemma calm_installed : calm (expressInstallCallback user).
Proof. unfold expressInstallCallback. calmly_by ltac:(first [apply calm_visible | apply calm_back]). Qed.
Lemma calm_match g : calm (match_version parse_object user g).
Proof.
  unfold match_version.
  calmly_by ltac:(first [apply calm_visible | apply calm_back | apply calm_get_object | apply calm_can | apply calm_express | apply calm_display]).
Qed.
Lemma calm_versions : calm (matchVersions parse_object user).
Proof.
  unfold matchVersions. apply calm_bind; [by apply calm_pure|]. intros l. induction l as [|g l IH]; cbn [match_all]; [by apply calm_pure|].
  apply calm_bind; [apply calm_match|done].
Qed.
Lemma calm_probe r n : calm (probe parse_object user r n).
Proof. unfold probe. calmly_by ltac:(apply calm_versions). Qed.
Lemma calm_main : calm (main parse_object user).
Proof. unfold main, testPlayerVersion. calmly_by ltac:(first [apply calm_versions | apply calm_probe]). Qed.
Lemma calm_embed e : calm (embed_now parse_object user e).
Proof.
  unfold embed_now. calmly_by ltac:(first [apply calm_can | apply calm_create | apply calm_visible | apply calm_back | apply calm_express]).
Qed.
Lemma calm_remove_ie id r : calm (remove_in_ie_when_loaded id r).
Proof. unfold remove_in_ie_when_loaded, removeObjectInIE. calmly_by idtac. Qed.
Lemma calm_remove id : calm (removeSWF id).
Proof. unfold removeSWF. calmly_by ltac:(apply calm_remove_ie). Qed.
Lemma calm_unload : calm on_unload.
Proof.
  unfold on_unload. apply calm_bind; [by apply calm_pure|]. intros ls. apply calm_bind.
  { apply calm_modify. induction ls as [|te ls IH]; intros s; [done|]. cbn [foldl]. rewrite IH. unfold load_state, ran. cbn. by rewrite omap_app, app_nil_r. }
  intros _. apply calm_bind; [by apply calm_pure|]. intros ids. apply calm_bind; [|intros _; by apply calm_modify].
  induction ids as [|id ids IH]; cbn [remove_all]; [by apply calm_pure|]. apply calm_bind; [apply calm_remove|done].
Qed.
Lemma calm_load_event f : calm (addLoadEvent f).
Proof. unfold addLoadEvent, addListener. calmly_by idtac. Qed.
Lemma calm_register id v i f : calm (registerObject user id v i f).
Proof. unfold registerObject. calmly_by ltac:(first [apply calm_visible | apply calm_back]). Qed.
Lemma users_cons f l : users (f :: l) = users [f] ++ users l.
Proof. by destruct f. Qed.

(** One function, and then the others as long as none throws. *)
Lemma run_fn_state f s : load_state (run_dom_fn parse_object user f s).2 = (ran s ++ users [f], isDomLoaded s, users (domLoadFnArr s)).
Proof.
  destruct f as [|e|g]; cbn [run_dom_fn].
  - rewrite calm_main. cbn. by rewrite app_nil_r.
  - rewrite calm_embed. cbn. by rewrite app_nil_r.
  - unfold note, modify. unfold mbind, M_bind. rewrite Huser. unfold load_state, ran. cbn. by rewrite omap_app.
Qed.

Lemma run_fns_state l s : ∃ l', l' `prefix_of` l ∧
  load_state (run_dom_fns parse_object user l s).2 = (ran s ++ users l', isDomLoaded s, users (domLoadFnArr s)) ∧
  (is_Ret (run_dom_fns parse_object user l s).1 → l' = l).
Proof.
  revert s. induction l as [|f l IH]; intros s; cbn [run_dom_fns].
  - exists []. split_and!; [done| |done]. cbn. by rewrite app_nil_r.
  - pose proof (run_fn_state f s) as Hf. unfold mbind, M_bind. destruct (run_dom_fn parse_object user f s) as [[[]|e] s1]; cbn [snd fst] in *.
    + destruct (IH s1) as (l' & Hp & Hs & Hr). exists (f :: l'). split_and!; [by apply prefix_cons| |intros H; by rewrite Hr].
      rewrite Hs. unfold load_state in Hf. injection Hf as -> -> ->. by rewrite (users_cons f l'), app_assoc.
    + exists [f]. split_and!; [by exists l|done|by intros [? ?]].
Qed.

(** The functions that the page has added are waiting, or were run. *)
Definition load_inv (fs : list string) (ok : Prop) (s : swf) : Prop :=
  (isDomLoaded s = false → ran s = [] ∧ users (domLoadFnArr s) = fs) ∧
  (isDomLoaded s = true → ran s `sublist_of` fs ∧ (ok → ran s = fs)).

Lemma load_inv_calm {A} (m : M swf A) fs (ok : Prop) s : calm m → load_inv fs ok s → load_inv fs (ok ∧ is_Ret (m s).1) (m s).2.
Proof.
  intros Hm [H1 H2]. specialize (Hm s). unfold load_state in Hm. injection Hm as E1 E2 E3. unfold load_inv. rewrite E1, E2, E3. naive_solver.
Qed.

Lemma callDomLoad_eq s : callDomLoadFunctions parse_object user s =
  if isDomLoaded s then (Ret tt, s) else
  match find_tag "BODY" (d_root s) with
  | None => (Ret tt, s)
  | Some _ => run_dom_fns parse_object user (domLoadFnArr s) (on_loaded (on_next (S (d_next s)) s))
  end.
Proof.
  unfold callDomLoadFunctions, gets, modify. unfold mbind, M_bind. destruct (isDomLoaded s); [done|]. by destruct (find_tag "BODY" (d_root s)).
Qed.

Lemma load_inv_loaded fs ok s : load_inv fs ok s → load_inv fs (ok ∧ is_Ret (callDomLoadFunctions parse_object user s).1) (callDomLoadFunctions parse_object user s).2.
Proof.
  intros Hinv. rewrite callDomLoad_eq. destruct (isDomLoaded s) eqn:Hl; [destruct Hinv; split; naive_solver|].
  destruct (find_tag "BODY" (d_root s)); [|destruct Hinv; split; naive_solver]. set (s1 := on_loaded _).
  destruct Hinv as [H _]. destruct (H Hl) as [Hr Hq]. destruct (run_fns_state (domLoadFnArr s) s1) as (l' & Hp & Hs & Hret).
  unfold load_state in Hs. injection Hs as E1 E2 E3. split; rewrite E2; [done|]. intros _. rewrite E1. change (ran s1) with (ran s). rewrite Hr. cbn [app].
  split.
  - rewrite <-Hq. destruct Hp as [l'' ->]. unfold users. rewrite omap_app. by apply sublist_inserts_r.
  - intros [_ Hok]. by rewrite (Hret Hok).
Qed.

(** The page adds a function. *)
Lemma load_inv_add f fs ok s : load_inv fs ok s →
  load_inv (fs ++ users [f]) (ok ∧ is_Ret (addDomLoadEvent parse_object user f s).1) (addDomLoadEvent parse_object user f s).2.
Proof.
  intros [H1 H2]. unfold addDomLoadEvent, gets. unfold mbind, M_bind. destruct (isDomLoaded s) eqn:Hl.
  - pose proof (run_fn_state f s) as Hs. unfold load_state in Hs. injection Hs as E1 E2 E3. destruct (H2 eq_refl) as [Hsub Hok].
    split; rewrite E2, Hl; [done|]. intros _. rewrite E1. split; [by apply sublist_app|]. intros [Hok' _]. by rewrite Hok.
  - destruct (H1 eq_refl) as [Hr Hq]. cbn [fst snd modify]. split; [|cbn; by rewrite Hl]. intros _. split; [done|].
    cbn. unfold users. rewrite omap_app. fold (users (domLoadFnArr s)). by rewrite Hq.
Qed.

Lemma load_inv_weaken fs (ok ok' : Prop) s : (ok' → ok) → load_inv fs ok s → load_inv fs ok' s.
Proof. intros H [H1 H2]. split; naive_solver. Qed.

Lemma load_inv_then {A B} (m : M swf A) (k : A → M swf B) fs (ok : Prop) s :
  (load_inv fs ok s → load_inv fs (ok ∧ is_Ret (m s).1) (m s).2) →
  (∀ a s' (ok' : Prop), load_inv fs ok' s' → load_inv fs (ok' ∧ is_Ret (k a s').1) (k a s').2) →
  load_inv fs ok s → load_inv fs (ok ∧ is_Ret ((m ≫= k) s).1) ((m ≫= k) s).2.
Proof.
  intros Hm Hk Hs. specialize (Hm Hs). unfold mbind, M_bind. destruct (m s) as [[a|e] s']; cbn [fst snd] in *.
  2: { eapply load_inv_weaken; [|exact Hm]. by intros [_ [? ?]]. }
  apply (Hk a) in Hm. eapply load_inv_weaken; [|exact Hm]. intros [? ?]. split_and!; [done|by eexists|done].
Qed.

Lemma load_inv_probe fs ok s : load_inv fs ok s →
  load_inv fs (ok ∧ is_Ret (scroll_probe parse_object user s).1) (scroll_probe parse_object user s).2 ∧
  load_inv fs (ok ∧ is_Ret (loaded_probe parse_object user s).1) (loaded_probe parse_object user s).2.
Proof.
  intros H. split; revert H; (apply load_inv_then; [by apply load_inv_calm, calm_pure|]; intros [] s1 ok1; [by apply load_inv_calm, calm_pure|];
    apply load_inv_then; [by apply load_inv_calm, calm_pure|]; intros l s2 ok2).
  - destruct (l_scrolls l); [apply load_inv_loaded|by apply load_inv_calm, calm_modify].
  - cbv zeta. destruct (_ || _); [apply load_inv_loaded|by apply load_inv_calm, calm_modify].
Qed.

Lemma load_inv_step fs ok ev s : load_inv fs ok s →
  load_inv (fs ++ added [ev]) (ok ∧ is_Ret (swf_step parse_object user ev s).1) (swf_step parse_object user ev s).2.
Proof.
  intros H. destruct ev as [l|i| |id v i f|e|f|att par id f| |id|f|]; cbn [swf_step added omap list_omap]; rewrite ?app_nil_r.
  - revert H. by apply load_inv_calm, calm_modify.
  - revert H. apply load_inv_then; [by apply load_inv_calm, calm_pure|]. intros timers s1 ok1. destruct (timers !! i) as [t|]; [|by apply load_inv_calm, calm_pure].
    apply load_inv_then; [by apply load_inv_calm, calm_modify|]. intros _ s2 ok2 H. destruct t; cbn [run_swf_timer].
    + revert H. apply load_inv_calm, calm_probe; exact Huser.
    + revert H. apply load_inv_calm. unfold remove_when_loaded. calmly_by idtac.
    + revert H. apply load_inv_calm, calm_remove_ie.
    + by apply load_inv_probe.
    + by apply load_inv_probe.
  - by apply load_inv_loaded.
  - revert H. by apply load_inv_calm, calm_register.
  - revert H. unfold embedSWF. apply load_inv_then; [by apply load_inv_calm, calm_pure|]. intros u s1 ok1. destruct (_ && _).
    + apply load_inv_then; [apply load_inv_calm, calm_visible|]. intros _ s2 ok2 H. apply (load_inv_add (DEmbed e)) in H. by rewrite app_nil_r in H.
    + apply load_inv_calm. by apply calm_back.
  - by apply (load_inv_add (DUser f)).
  - revert H. apply load_inv_calm. unfold public_showExpressInstall, if_w3. calmly_by ltac:(first [apply calm_can | apply calm_express]).
  - revert H. by apply load_inv_calm, calm_installed.
  - revert H. apply load_inv_calm. unfold public_removeSWF, if_w3. calmly_by ltac:(apply calm_remove).
  - revert H. apply load_inv_calm, calm_load_event.
  - revert H. apply load_inv_calm. calmly_by ltac:(apply calm_unload).
Qed.
Abbreviation run_swf := (run_swf parse_object user).

(** Every step returns normally. *)
Fixpoint all_return (evs : list swf_event) (s : swf) : Prop :=
  match evs with
  | [] => True
  | ev :: evs' => is_Ret (swf_step parse_object user ev s).1 ∧ all_return evs' (swf_step parse_object user ev s).2
  end.

Lemma load_inv_run evs fs (ok : Prop) s : load_inv fs ok s → load_inv (fs ++ added evs) (ok ∧ all_return evs s) (run_swf evs s).
Proof.
  revert fs ok s. induction evs as [|ev evs IH]; intros fs ok s H.
  - cbn. rewrite app_nil_r. eapply load_inv_weaken; [|exact H]. by intros [? _].
  - apply (load_inv_step fs ok ev) in H. apply IH in H. cbn [all_return]. unfold SwfObject.run_swf. cbn [foldl].
    replace (fs ++ added (ev :: evs)) with ((fs ++ added [ev]) ++ added evs); [|by destruct ev; cbn; rewrite <-?app_assoc, ?app_nil_r].
    eapply load_inv_weaken; [|exact H]. tauto.
Qed.

Lemma load_inv_start s : domLoadFnArr s = [DMain] → isDomLoaded s = false → s_log s = [] →
  load_inv [] True (onDomLoad parse_object user s).2.
Proof.
  intros Hq Hl Hlog. assert (load_inv [] True s) as H by (split; [|by rewrite Hl]; intros _; unfold ran; by rewrite Hlog, Hq).
  assert (load_inv [] (True ∧ is_Ret (onDomLoad parse_object user s).1) (onDomLoad parse_object user s).2) as Hend.
  { revert H. unfold onDomLoad. apply load_inv_then; [by apply load_inv_calm, calm_pure|]. intros u s1 ok1.
    destruct (negb (w3 u)); [by apply load_inv_calm, calm_pure|]. do 2 (apply load_inv_then; [by apply load_inv_calm, calm_pure|]; intros ???).
    apply load_inv_then; [case_match; [apply load_inv_loaded|by apply load_inv_calm, calm_pure]|]. intros _ s4 ok4.
    apply load_inv_then; [by apply load_inv_calm, calm_pure|]. intros [] s5 ok5; [by apply load_inv_calm, calm_pure|].
    apply load_inv_then; [apply load_inv_calm; calmly_by idtac|]. intros _ s6 ok6.
    apply load_inv_then.
    { destruct (ie_win u); [|by apply load_inv_calm, calm_pure]. apply load_inv_then; [by apply load_inv_calm, calm_note|]. intros _ s7 ok7.
      destruct (l_top _); [|by apply load_inv_calm, calm_pure]. intros H. by apply load_inv_probe. }
    intros _ s8 ok8. apply load_inv_then.
    { destruct (wk u) as [n|]; [|by apply load_inv_calm, calm_pure]. destruct (truthy _); [|by apply load_inv_calm, calm_pure]. intros H. by apply load_inv_probe. }
    intros _ s9 ok9. apply load_inv_calm, calm_load_event. }
  destruct Hend as [H1 H2]. split; [done|]. intros Hd. destruct (H2 Hd) as [Hs _]. split; [done|]. intros _. by apply sublist_nil_r in Hs.
Qed.

(** Whatever else the page does with the library, in whatever order, and
    whichever way the end of loading is noticed: the functions the page adds are run at most once each, in the
    order they were added, and none before the document is loaded; and when it is
    loaded and nothing has thrown, all of them were run. *)
Theorem load_functions_once evs s :
  domLoadFnArr s = [DMain] → isDomLoaded s = false → s_log s = [] →
  let s0 := (onDomLoad parse_object user s).2 in
  let s' := run_swf evs s0 in
  ran s' `sublist_of` added evs ∧ (isDomLoaded s' = false → ran s' = []) ∧
  (isDomLoaded s' = true → all_return evs s0 → ran s' = added evs).
Proof.
  intros Hq Hl Hlog s0 s'. pose proof (load_inv_run evs [] True s0 (load_inv_start s Hq Hl Hlog)) as [H1 H2]. fold s' in H1, H2. cbn [app] in *.
  split_and!.
  - destruct (isDomLoaded s'); [by apply H2|]. destruct H1 as [-> _]; [done|]. apply sublist_nil_l.
  - intros Hd. by apply H1.
  - intros Hd Hr. by apply H2.
Qed.
End loading.

(** ** A sample page *)

Definition sample_browser (description : string) : browser :=
  {| has_dom := true; userAgent := "Mozilla/5.0 (Windows NT 6.1) Gecko/20100101 Firefox/11.0"; platform := "Win32"; old_number := false;
     flash_plugin := Some description; flash_disabled := false; activeX := None |}.
Definition sample_look : look :=
  {| l_loaded := λ _, true; l_scriptable := λ _, true; l_version := λ _, None; l_readyState := Some "loading"%string; l_scrolls := false; l_top := true;
     l_doc_listens := true; l_win_listens := true; l_win_attaches := false; l_win_onload := false; l_adds_rules := false |}.
Definition sample_div : node := Elem 2 "DIV" [("id"%string, "movie"%string)] [] [Text "No Flash"].
Definition sample_page : node := Elem 0 "HTML" [] [] [Elem 1 "BODY" [] [] [Text "A board: "; sample_div]].
Definition sample_swf (description : string) : swf :=
  new_swf (sample_browser description) sample_look sample_page 3 true "Board" "http://board/?a=1&b=2".

Definition silent (f : string) : M swf unit := mret tt.
Definition no_html (h : string) (next : nat) : node * nat := (Text h, next).

(** A user function that throws. *)
Definition throwing (f : string) : M swf unit := if String.eqb f "bad" then raise (Raised "bad") else mret tt.

Definition sample_events : list swf_event := [EvOnLoad "first"; EvOnLoad "second"; EvLoaded; EvLoaded; EvOnLoad "third"].

Lemma load_functions_once_witness :
  let s0 := (onDomLoad no_html silent (sample_swf "")).2 in
  ran (run_swf no_html silent sample_events s0) = ["first"; "second"; "third"]%string.
Proof.
  intros s0. destruct (load_functions_once no_html silent (λ _ _, eq_refl) sample_events (sample_swf "") eq_refl eq_refl eq_refl) as (_ & _ & H).
  apply H; [vm_compute; reflexivity|]. vm_compute. repeat (split; [by eexists|]). exact I.
Defined.

(** A function that throws keeps the later ones from being run, for ever. *)
Example throwing_function_loses_others :
  let s0 := (onDomLoad no_html throwing (sample_swf "")).2 in
  ran (run_swf no_html throwing [EvOnLoad "bad"; EvOnLoad "good"; EvLoaded; EvLoaded] s0) = ["bad"]%string.
Proof. vm_compute. reflexivity. Qed.
