(* ===== verification/EmbedFacts.v ===== *)
(** * swfobject: what embedding does to the document

    In a browser other than Internet Explorer on Windows: the object element
    that takes the place of an element, its attributes and parameters, and the
    express install dialog, after which the element is back. *)

From Stdlib Require Import SpecFloat.
From S2P Require Import Prelude JSNum JSValue JSON NodeUrl JQueryCore JQueryParam Forms AjaxSubmit Regex SwfBase DomTree SwfObject SwfFacts.

(** ** Attributes and parameters that are texts *)

Definition text_of_value (v : value) : string := match v with VStr t => t | _ => "" end.

(** A text under a name in lower case that no object has of its own. *)
Definition text_prop (kv : string * value) : Prop := (∃ t, kv.2 = VStr t) ∧ lower kv.1 = kv.1 ∧ inherited kv.1 = VUndef.
Definition text_props (ps : props) : Prop := Forall text_prop ps ∧ NoDup ps.*1.

Lemma text_props_put k t ps : lower k = k → inherited k = VUndef → text_props ps → text_props (prop_put k (VStr t) ps).
Proof.
  intros Hk Hi [Hps Hnd]. split; [|by apply prop_put_NoDup]. rewrite Forall_forall in Hps |- *. intros kv [-> | Hkv]%prop_put_elem; [|by apply Hps].
  split_and!; [by eexists|done|done].
Qed.

Lemma own_text k t : inherited k = VUndef → own_value (k, VStr t) = Ret true.
Proof. intros H. unfold own_value. cbn [fst snd]. by rewrite H. Qed.

(** Names that are not written as they are. *)
Definition special : list string := ["class"; "styleclass"; "classid"].

Lemma object_attrs_ok att acc : text_props att →
  ∃ l, object_attrs att acc = Ret l ∧
    ∀ k, k ∉ special → assoc k l = match assoc k att with Some v => Some (text_of_value v) | None => assoc k acc end.
Proof.
  revert acc. induction att as [|[m v] att IH]; intros acc [Hps Hnd]; [by exists acc|].
  apply Forall_cons in Hps as [((t & Ht) & Hlow & Hinh) Hps]. apply NoDup_cons in Hnd as [Hm Hnd]. cbn in Ht, Hlow, Hinh, Hm. subst v.
  cbn [object_attrs]. rewrite own_text by done. change (mbind (M := res) ?f (Ret ?a)) with (f a). cbn [to_string].
  destruct (IH (if String.eqb (lower m) "styleclass" then set_prop "class" t acc
                else if String.eqb (lower m) "classid" then acc else set_prop (lower m) t acc)) as (l & Hl & Hlk); [by split|].
  exists l. split; [exact Hl|]. intros k Hk. rewrite Hlk by done. rewrite Hlow. cbn [assoc].
  assert (k ≠ "class"%string ∧ k ≠ "styleclass"%string ∧ k ≠ "classid"%string) as (H1 & H2 & H3) by (unfold special in Hk; set_solver).
  destruct (String.eqb_spec k m) as [->|Hkm].
  - rewrite (proj2 (assoc_None m att)) by done. apply String.eqb_neq in H2, H3. rewrite H2, H3. unfold set_prop. by rewrite assoc_prop_put, String.eqb_refl.
  - destruct (assoc k att); [done|]. unfold set_prop. apply String.eqb_neq in H1, Hkm.
    destruct (String.eqb m "styleclass"), (String.eqb m "classid"); by rewrite ?assoc_prop_put, ?H1, ?Hkm.
Qed.

Definition param_pair (p : node) : string * string := (default ""%string (attr "name" p), default ""%string (attr "value" p)).

(** The parameters but the movie, as texts. *)
Definition param_texts (par : props) : list (string * string) :=
  (λ kv, (kv.1, text_of_value kv.2)) <$> List.filter (λ kv, negb (String.eqb kv.1 "movie")) par.

Definition is_param (from : nat) (p : node) : Prop :=
  ∃ r n v, p = Elem r "PARAM" [("name"%string, n); ("value"%string, v)] [] [] ∧ from ≤ r.

Lemma object_params_ok par s : Forall text_prop par →
  ∃ ps n', object_params par s = (Ret ps, on_next n' s) ∧ d_next s ≤ n' ∧ Forall (is_param (d_next s)) ps ∧ param_pair <$> ps = param_texts par.
Proof.
  revert s. induction par as [|[k v] par IH]; intros s Hps.
  - exists [], (d_next s). split_and!; [by destruct s|done|done|done].
  - apply Forall_cons in Hps as [((t & Ht) & Hlow & Hinh) Hps]. cbn in Ht, Hlow, Hinh. subst v.
    cbn [object_params]. rewrite own_text, Hlow by done. unfold mbind at 1, M_bind at 1, lift at 1. cbn [andb]. unfold param_texts. cbn [List.filter fst].
    destruct (String.eqb k "movie"); cbn [negb]; [by apply IH|]. cbn [to_string].
    destruct (IH (on_next (S (d_next s)) s) Hps) as (ps & n' & E & Hn & Hf & Hp). cbn [d_next on_next] in Hn, Hf.
    exists (Elem (d_next s) "PARAM" [("name"%string, k); ("value"%string, t)] [] [] :: ps), n'. split_and!; [|lia| |].
    + unfold createElement, lift. unfold mbind, M_bind. by rewrite E.
    + constructor; [by eexists _, _, _|]. eapply Forall_impl; [exact Hf|]. intros p (r & n & v & -> & Hr). eexists _, _, _. split; [done|lia].
    + cbn. unfold param_pair at 1. cbn. by rewrite Hp.
Qed.

(** ** Creating an object element *)

(** A document in which the element [n] has the id [id], and no other has. *)
Record replaceable (s : swf) (id : string) (n : node) : Prop := {
  rp_browser : ie_win (s_ua s) = false ∧ old_webkit (s_ua s) = false;
  rp_found : find_id id (d_root s) = Some n;
  rp_refs : NoDup (refs_of (d_root s));
  rp_fresh : Forall (λ r, (r < d_next s)%nat) (refs_of (d_root s));
  rp_root : ref_of (d_root s) ≠ ref_of n;
  rp_only : ∀ e, e ∈ elements_of (d_root s) → attr "id" e = Some id → e = n
}.

Lemma elements_ref e n : e ∈ elements_of n → is_Some (ref_of e).
Proof.
  revert e. induction n as [r t a st ks IH|s|s] using node_ind; intros e He; [|by apply elem_of_nil in He|by apply elem_of_nil in He].
  apply elements_elem in He as [-> | (k & Hk & He)]; [by eexists|]. rewrite Forall_forall in IH. by eapply IH.
Qed.

Section embedding.
Context (s : swf) (id : string) (n : node).
Context (Hrp : replaceable s id n).

Lemma rp_elem : n ∈ elements_of (d_root s) ∧ attr "id" n = Some id ∧ ref_of n = Some (the_ref n) ∧ id ≠ ""%string.
Proof.
  destruct (find_id_spec _ _ _ (rp_found _ _ _ Hrp)) as (Hid & Hn & Ha). split_and!; [done|done| |done].
  unfold the_ref. by destruct (elements_ref _ _ Hn) as [r ->].
Qed.

Lemma rp_below : n ∈ below (d_root s).
Proof.
  destruct rp_elem as (Hn & _ & Hr & _). apply elements_below in Hn as [[-> _]|?]; [|done]. by destruct (rp_root _ _ _ Hrp).
Qed.

Lemma rp_find_ref : find_ref (the_ref n) (d_root s) = Some n.
Proof. destruct rp_elem as (Hn & _ & Hr & _). apply find_ref_unique; [apply Hrp|done|done]. Qed.

Lemma fresh_ref r : d_next s ≤ r → r ∉ refs_of (d_root s).
Proof. intros Hr Hin. pose proof (rp_fresh _ _ _ Hrp) as Hf. rewrite Forall_forall in Hf. specialize (Hf r Hin). lia. Qed.

Lemma with_id_text att : text_props att → text_props (with_id att id).
Proof. intros H. unfold with_id. destruct (assoc "id" att) as [[]|]; try done; by apply text_props_put. Qed.

(** The object element that takes the place of the element. *)
Record object_for (att par : props) (o : node) : Prop := {
  of_shape : ∃ attrs st ps, o = Elem (d_next s) "OBJECT" attrs st ps ∧ Forall (is_param (S (d_next s))) ps ∧ param_pair <$> ps = param_texts par;
  of_type : assoc "type" (with_id att id) = None → attr "type" o = Some FLASH_MIME_TYPE;
  of_attrs : ∀ k v, k ∉ special → assoc k (with_id att id) = Some v → attr k o = Some (text_of_value v)
}.

Lemma createSWF_ok parse_object att par : text_props att → Forall text_prop par →
  ∃ o n', createSWF parse_object att par id s =
    (Ret (Some (d_next s), with_id att id, par),
     on_document (replace_ref (the_ref n) [o] (d_root s)) (d_loose s ++ [n]) (on_next n' s)) ∧
    object_for att par o ∧ (S (d_next s) ≤ n')%nat ∧ ∃ attrs ps, o = Elem (d_next s) "OBJECT" attrs [] ps.
Proof.
  intros Hatt Hpar. destruct (rp_browser _ _ _ Hrp) as [Hie Hwk].
  destruct (object_attrs_ok (with_id att id) [("type"%string, FLASH_MIME_TYPE)] (with_id_text att Hatt)) as (attrs & Hattrs & Hlk).
  destruct (object_params_ok par (on_next (S (d_next s)) s) Hpar) as (ps & n' & Hps & Hn' & Hf & Hpp). cbn [d_next on_next] in Hn', Hf.
  exists (Elem (d_next s) "OBJECT" attrs [] ps), n'. split_and!.
  - unfold createSWF, getElementById, gets. unfold mbind at 1, M_bind at 1. rewrite (rp_found _ _ _ Hrp). unfold mbind at 1, M_bind at 1.
    rewrite Hwk, Hie. unfold mbind at 1, M_bind at 1, createElement. unfold mbind at 1, M_bind at 1, lift. rewrite Hattrs.
    unfold mbind at 1, M_bind at 1. rewrite Hps. unfold replace_element, modify. unfold mbind, M_bind. cbn [d_root on_next d_loose].
    rewrite rp_find_ref. done.
  - split.
    + by eexists _, _, _.
    + intros H. cbn. rewrite Hlk, H by (unfold special; set_solver). done.
    + intros k v Hk H. cbn. by rewrite Hlk, H.
  - done.
  - by eexists _, _.
Qed.

(** The new element is the one with its id. *)
Lemma find_new o id' : attr "id" o = Some id' → id' ≠ ""%string → ref_of o = Some (d_next s) →
  (∀ e, e ∈ elements_of o → attr "id" e = Some id' → e = o) →
  (∀ e, e ∈ elements_of (d_root s) → attr "id" e = Some id' → e = n) →
  find_id id' (replace_ref (the_ref n) [o] (d_root s)) = Some o.
Proof.
  intros Ho Hid Hr Hin Hold. destruct rp_elem as (Hn & _ & Hnr & _). apply find_id_replaced; try done.
  - exists n. split; [apply rp_below|done].
  - intros e He Hid'. by rewrite (Hold e He Hid').
  - rewrite <-Hnr. apply Hrp.
Qed.

Lemma find_ref_new o : ref_of o = Some (d_next s) → (∀ e, e ∈ elements_of o → ref_of e = Some (d_next s) → e = o) →
  find_ref (d_next s) (replace_ref (the_ref n) [o] (d_root s)) = Some o.
Proof.
  intros Ho Hin. destruct rp_elem as (Hn & _ & Hnr & _).
  pose proof (replaced_in (the_ref n) o (d_root s) (mk_is_Some _ _ Ho) (ex_intro _ n (conj rp_below Hnr))) as Ho'.
  unfold find_ref. destruct (list_find _ _) as [[i e]|] eqn:Hf.
  - apply list_find_Some in Hf as (Hi & He & _). cbn. f_equal. apply list_elem_of_lookup_2 in Hi.
    apply elements_replace in Hi as [(m & Hm & He')|(e0 & He0 & Hsame & _)]; [apply list_elem_of_singleton in Hm as ->; by apply Hin|].
    destruct (fresh_ref (d_next s)); [done|]. apply elem_of_refs. exists e0. split; [done|]. by rewrite <-(same_head_ref e e0).
  - apply list_find_None in Hf. rewrite Forall_forall in Hf. by destruct (Hf o Ho').
Qed.

Lemma params_no_id from ps r attrs st id' : Forall (is_param from) ps →
  ∀ e, e ∈ elements_of (Elem r "OBJECT" attrs st ps) → attr "id" e = Some id' → e = Elem r "OBJECT" attrs st ps.
Proof.
  intros Hps e [-> | (k & Hk & He)]%elements_elem Ha; [done|]. rewrite Forall_forall in Hps. destruct (Hps k Hk) as (r' & m & v & -> & _).
  apply elements_elem in He as [-> | (k' & Hk' & _)]; [done|by apply elem_of_nil in Hk'].
Qed.

Lemma params_no_ref ps r attrs st : Forall (is_param (S r)) ps →
  ∀ e, e ∈ elements_of (Elem r "OBJECT" attrs st ps) → ref_of e = Some r → e = Elem r "OBJECT" attrs st ps.
Proof.
  intros Hps e [-> | (k & Hk & He)]%elements_elem Ha; [done|]. rewrite Forall_forall in Hps. destruct (Hps k Hk) as (r' & m & v & -> & Hr').
  apply elements_elem in He as [-> | (k' & Hk' & _)]; [|by apply elem_of_nil in Hk']. cbn in Ha. injection Ha as ->. lia.
Qed.
End embedding.

(** ** The variables for the movie *)

Definition text_values (ps : props) : Prop := Forall (λ kv, ∃ t, kv.2 = VStr t) ps.

Definition var_texts (vars : props) : list string := (λ kv, kv.1 +:+ "=" +:+ text_of_value kv.2) <$> vars.

(** Texts joined by ampersands, after an old text if there is one. *)
Definition joined_after (old : option value) (l : list string) : option value :=
  match old with
  | Some (VStr t) => Some (VStr (foldl (λ acc x, acc +:+ "&" +:+ x) t l))
  | _ => match l with [] => old | x :: l' => Some (VStr (foldl (λ acc x, acc +:+ "&" +:+ x) x l')) end
  end.

Lemma foldl_join x l : foldl (λ acc y, acc +:+ "&" +:+ y) x l = join "&" (x :: l).
Proof.
  revert x. induction l as [|y l IH]; intros x; [done|]. cbn [foldl]. rewrite IH. cbn [join]. destruct l as [|z l]; cbn [join]; by rewrite ?str_app_assoc.
Qed.

Lemma add_vars_ok vars par : text_values vars → Forall text_prop par →
  ∃ par', add_vars vars par = Ret par' ∧ Forall text_prop par' ∧
    assoc "flashvars" par' = joined_after (assoc "flashvars" par) (var_texts vars) ∧
    ∀ k, k ≠ "flashvars"%string → assoc k par' = assoc k par.
Proof.
  revert par. induction vars as [|[k v] vars IH]; intros par Hv Hp.
  - exists par. split_and!; [done|done| |done]. by destruct (assoc "flashvars" par) as [[]|].
  - apply Forall_cons in Hv as [[t Ht] Hv]. cbn in Ht. subst v. cbn [add_vars to_string var_texts fmap list_fmap fst snd text_of_value].
    set (x := k +:+ "=" +:+ t).
    assert (∃ old', add_flashvars par x = Ret (prop_put "flashvars" (VStr old') par) ∧
      joined_after (assoc "flashvars" par) (x :: var_texts vars) = joined_after (Some (VStr old')) (var_texts vars)) as (old' & E & Hj).
    { unfold add_flashvars. destruct (assoc "flashvars" par) as [v|] eqn:Ha; [|by exists x]. apply assoc_elem in Ha. rewrite Forall_forall in Hp.
      destruct (Hp _ Ha) as [[w Hw] _]. cbn in Hw. subst v. by exists (w +:+ "&" +:+ x). }
    change (mbind (M := res) ?f (Ret t)) with (f t). cbv beta. fold x. rewrite E. change (mbind (M := res) ?f (Ret ?a)) with (f a). cbv beta.
    destruct (IH (prop_put "flashvars" (VStr old') par)) as (par' & E' & Hp' & Hf' & Hk'); [done| |].
    { rewrite Forall_forall in Hp |- *. intros kv [-> | Hkv]%prop_put_elem; [|by apply Hp]. split_and!; [by eexists|done|done]. }
    exists par'. rewrite assoc_prop_put in Hf'. cbn [String.eqb] in Hf'. split_and!; [done|done| |].
    + rewrite Hf'. fold (var_texts vars). rewrite Hj. done.
    + intros k' Hne. rewrite Hk', assoc_prop_put by done. apply String.eqb_neq in Hne. by rewrite Hne.
Qed.

(** ** Embedding a movie *)

(** An embedding with texts for everything, for an element of the document and
    an installed player that is recent enough. *)
Record embeddable (s : swf) (e : embed) (n : node) (w h : string) : Prop := {
  eb_place : replaceable s (e_id e) n;
  eb_loaded : isDomLoaded s = true;
  eb_player : hasPlayerVersion (pv (s_ua s)) (e_version e) = true;
  eb_size : to_string (e_width e) = Ret w ∧ to_string (e_height e) = Ret h;
  eb_attrs : text_props (copied (e_attrs e)) ∧ assoc "id" (copied (e_attrs e)) = None ∧ assoc "type" (copied (e_attrs e)) = None;
  eb_params : Forall text_prop (copied (e_params e));
  eb_vars : text_values (copied (e_flashvars e))
}.

Definition embed_attrs (e : embed) (w h : string) : props :=
  prop_put "height" (VStr h) (prop_put "width" (VStr w) (prop_put "data" (VStr (e_url e)) (copied (e_attrs e)))).

Lemma embed_attrs_text s e n w h : embeddable s e n w h → text_props (embed_attrs e w h).
Proof. intros H. destruct (eb_attrs _ _ _ _ _ H) as [Ha _]. unfold embed_attrs. repeat apply text_props_put; try done. Qed.

Lemma embed_attrs_id s e n w h : embeddable s e n w h → with_id (embed_attrs e w h) (e_id e) = prop_put "id" (VStr (e_id e)) (embed_attrs e w h).
Proof.
  intros H. destruct (eb_attrs _ _ _ _ _ H) as (_ & Hid & _). unfold with_id.
  assert (assoc "id" (embed_attrs e w h) = None) as -> by (unfold embed_attrs; by rewrite !assoc_prop_put). done.
Qed.

(** The style that shows an element. *)
Definition visible : list (string * string) → list (string * string) → list (string * string) * list (string * string) :=
  λ a st, (a, set_prop "visibility" "visible" st).

Lemma update_own r f t a st ps from : Forall (is_param from) ps → r < from → 
  update_ref r f (Elem r t a st ps) = Elem r t (f a st).1 (f a st).2 ps.
Proof.
  intros Hps Hr. cbn [update_ref]. rewrite bool_decide_eq_true_2 by done. destruct (f a st) as [a' st']. f_equal.
  apply fmap_same. intros p Hp. rewrite Forall_forall in Hps. destruct (Hps p Hp) as (r' & m & v & -> & Hr'). cbn. by rewrite bool_decide_eq_false_2 by lia.
Qed.

Section embed.
Context (parse_object : string → nat → node * nat) (user : string → M swf unit).
Context (Huser : ∀ f s, (user f s).2 = s).

(** Showing the new element. *)
Lemma show_new s id n o n' attrs ps : replaceable s id n → isDomLoaded s = true → 
  o = Elem (d_next s) "OBJECT" attrs [] ps → Forall (is_param (S (d_next s))) ps → attr "id" o = Some id →
  ∃ o', setVisibility id true (on_document (replace_ref (the_ref n) [o] (d_root s)) (d_loose s ++ [n]) (on_next n' s)) =
    (Ret tt, on_document (replace_ref (the_ref n) [o'] (d_root s))
       (if autoHideShow s then update_ref (d_next s) visible <$> (d_loose s ++ [n]) else d_loose s ++ [n]) (on_next n' s)) ∧
    ∃ st, o' = Elem (d_next s) "OBJECT" attrs st ps.
Proof.
  intros Hrp Hl -> Hps Hid. destruct (rp_elem _ _ _ Hrp) as (_ & _ & _ & Hne).
  assert (find_id id (replace_ref (the_ref n) [Elem (d_next s) "OBJECT" attrs [] ps] (d_root s)) = Some (Elem (d_next s) "OBJECT" attrs [] ps)) as Hf.
  { apply (find_new s id n Hrp); [done|done|done|by eapply params_no_id|apply Hrp]. }
  unfold setVisibility, getElementById, gets. unfold mbind, M_bind. cbn [autoHideShow on_document on_next]. destruct (autoHideShow s); cbn [negb].
  - cbn [isDomLoaded d_root on_document on_next]. rewrite Hl, Hf. change (the_ref (Elem (d_next s) "OBJECT" attrs [] ps)) with (d_next s). exists (Elem (d_next s) "OBJECT" attrs (set_prop "visibility" "visible" []) ps).
    split; [|by eexists]. unfold set_style, modify. cbn [d_root d_loose on_document on_next].
    rewrite update_replaced by (apply (fresh_ref s id n Hrp); done). rewrite (update_own _ _ _ _ _ _ (S (d_next s)) Hps) by lia. done.
  - eexists. split; [done|by eexists].
Qed.

(** Embedding a movie in a loaded document, with an installed player that is
    recent enough, puts an object element in the place of the element: it has the address, the
    size and the id that was asked for, its parameters are those of the page without
    [movie], and the variables are joined in [flashvars]; nothing else of the document changes, and the
    page is told of the success once. *)
Theorem embed_replaces s e n w h :
  embeddable s e n w h →
  let s' := (embed_now parse_object user e s).2 in
  ∃ o par, d_root s' = replace_ref (the_ref n) [o] (d_root s) ∧
    tag_of o = "OBJECT"%string ∧ attr "type" o = Some FLASH_MIME_TYPE ∧
    attr "data" o = Some (e_url e) ∧ attr "width" o = Some w ∧ attr "height" o = Some h ∧ attr "id" o = Some (e_id e) ∧
    param_pair <$> kids_of o = param_texts par ∧
    assoc "flashvars" par = joined_after (assoc "flashvars" (copied (e_params e))) (var_texts (copied (e_flashvars e))) ∧
    (∀ k, k ≠ "flashvars"%string → assoc k par = assoc k (copied (e_params e))) ∧
    s_log s' = s_log s ++ match e_callback e with Some f => [CalledBack f true (e_id e) (Some (d_next s))] | None => [] end.
Proof.
  intros He s'. pose proof (eb_place _ _ _ _ _ He) as Hrp. pose proof (embed_attrs_text _ _ _ _ _ He) as Hatt.
  destruct (add_vars_ok _ _ (eb_vars _ _ _ _ _ He) (eb_params _ _ _ _ _ He)) as (par & Hpar & Htp & Hfv & Hother).
  destruct (createSWF_ok s (e_id e) n Hrp parse_object (embed_attrs e w h) par Hatt Htp) as (o & n' & Hc & [Hshape Htype Hof] & Hn' & attrs & ps & Ho).
  destruct Hshape as (attrs' & st' & ps' & Ho' & Hps & Hpp). rewrite Ho in Ho'. injection Ho' as <- <- <-.
  rewrite (embed_attrs_id _ _ _ _ _ He) in Hc, Hof, Htype.
  assert (∀ k v, k ∈ ["data"; "width"; "height"; "id"]%string → assoc k (prop_put "id" (VStr (e_id e)) (embed_attrs e w h)) = Some (VStr v) → attr k o = Some v) as Hget.
  { intros k v Hk Hv. apply (Hof k (VStr v)); [|done]. unfold special. set_solver. }
  assert (attr "id" o = Some (e_id e)) as Hid by (apply Hget; [set_solver|by rewrite assoc_prop_put]).
  destruct (show_new s (e_id e) n o n' attrs ps Hrp (eb_loaded _ _ _ _ _ He) Ho Hps Hid) as (o' & Hvis & st & Ho').
  assert (∀ k, attr k o' = attr k o) as Hsame by (intros k; by rewrite Ho, Ho').
  destruct (eb_size _ _ _ _ _ He) as [Hw Hh].
  assert (embed_now parse_object user e s =
    call_back user (e_callback e) true (e_id e) (Some (d_next s))
      (on_document (replace_ref (the_ref n) [o'] (d_root s))
        (if autoHideShow s then update_ref (d_next s) visible <$> (d_loose s ++ [n]) else d_loose s ++ [n]) (on_next n' s))) as Hrun.
  { unfold embed_now, lift. unfold mbind at 1, M_bind at 1. rewrite Hw. unfold mbind at 1, M_bind at 1. rewrite Hh. cbv zeta. fold (embed_attrs e w h).
    unfold mbind at 1, M_bind at 1. rewrite Hpar. unfold gets at 1. unfold mbind at 1, M_bind at 1. unfold mbind at 1, M_bind at 1, canExpressInstall at 1. cbn [gets].
    unfold gets. unfold mbind at 1, M_bind at 1. unfold mbind at 1, M_bind at 1. unfold mret at 1, M_ret at 1. rewrite (eb_player _ _ _ _ _ He).
    unfold mbind at 1, M_bind at 1. rewrite Hc. cbn [fst snd]. unfold mbind at 1, M_bind at 1. cbn [get]. rewrite assoc_prop_put. cbn [String.eqb Ascii.eqb Bool.eqb].
    unfold mbind at 1, M_bind at 1. cbn [loose_eq to_primitive]. unfold mbind at 1 2, res_bind at 1 2. cbn [prim_loose_eq]. rewrite String.eqb_refl.
    unfold mbind at 1, M_bind at 1. by rewrite Hvis. }
  assert (s_log s' = s_log s ++ match e_callback e with Some f => [CalledBack f true (e_id e) (Some (d_next s))] | None => [] end ∧
          d_root s' = replace_ref (the_ref n) [o'] (d_root s)) as [Hlog Hroot].
  { unfold s'. rewrite Hrun. unfold call_back, note, modify. destruct (e_callback e) as [f|]; unfold mbind, M_bind; [rewrite Huser|]; cbn; by rewrite ?app_nil_r. }
  exists o', par. rewrite !Hsame, Hid. split_and!; try done.
  - by rewrite Ho'.
  - apply Htype. rewrite assoc_prop_put. unfold embed_attrs. rewrite !assoc_prop_put. apply (eb_attrs _ _ _ _ _ He).
  - apply Hget; [set_solver|]. unfold embed_attrs. by rewrite !assoc_prop_put.
  - apply Hget; [set_solver|]. unfold embed_attrs. by rewrite !assoc_prop_put.
  - apply Hget; [set_solver|]. unfold embed_attrs. by rewrite !assoc_prop_put.
  - rewrite Ho'. exact Hpp.
Qed.
End embed.

(** ** The dialog of the express install *)

Lemma at_least_ok att k z : text_props att → lower k = k → inherited k = VUndef →
  ∃ att', at_least att k z = Ret att' ∧ text_props att' ∧ ∀ k', k' ≠ k → assoc k' att' = assoc k' att.
Proof.
  intros Ha Hk Hi. assert (∃ b, too_small (assoc k att) z = Ret b) as [b Hb].
  { destruct (assoc k att) as [v|] eqn:E; [|by eexists]. apply assoc_elem in E. destruct Ha as [Ha _]. rewrite Forall_forall in Ha.
    destruct (Ha _ E) as [[t Ht] _]. cbn in Ht. subst v. by eexists. }
  unfold at_least. rewrite Hb. destruct b; (eexists; split; [reflexivity|]); [|done]. split; [by apply text_props_put|].
  intros k' Hne. rewrite assoc_prop_put. apply String.eqb_neq in Hne. by rewrite Hne.
Qed.

Lemma add_flashvars_ok par fv : Forall text_prop par → ∃ par', add_flashvars par fv = Ret par' ∧ Forall text_prop par'.
Proof.
  intros Hp. unfold add_flashvars. destruct (assoc "flashvars" par) as [v|] eqn:Ha.
  - apply assoc_elem in Ha. pose proof Hp as Hp'. rewrite Forall_forall in Hp'. destruct (Hp' _ Ha) as [[w Hw] _]. cbn in Hw. subst v.
    eexists. split; [reflexivity|]. rewrite Forall_forall. intros kv [-> | Hkv]%prop_put_elem; [|by apply Hp']. split_and!; [by eexists|done|done].
  - eexists. split; [reflexivity|]. rewrite Forall_forall in Hp |- *. intros kv [-> | Hkv]%prop_put_elem; [|by apply Hp]. split_and!; [by eexists|done|done].
Qed.

(** A loaded document with an element [n] to be replaced by the dialog. *)
Record installable (s : swf) (id : string) (n : node) : Prop := {
  in_place : replaceable s id n;
  in_loaded : isDomLoaded s = true;
  in_tag : tag_of n ≠ "OBJECT"%string;
  in_can : w3 (s_ua s) = true ∧ (canExpressInstall s).1 = Ret true;
  in_new : ∀ e, e ∈ elements_of (d_root s) → attr "id" e ≠ Some EXPRESS_INSTALL_ID;
  in_loose : Forall (λ m, ref_of m ≠ Some (the_ref n)) (d_loose s)
}.

Section install.
Context (parse_object : string → nat → node * nat) (user : string → M swf unit).
Context (Huser : ∀ f s, user f s = (Ret tt, s)).

(** The state in which the dialog is created. *)
Definition before_dialog (s : swf) (id : string) (n : node) (f : option string) : swf :=
  on_title (String.substring 0 47 (d_title s) +:+ " - Flash Player Installation")
    (on_stored (Some (the_ref n)) (Some id) (on_stored_callback f id s)).

Lemma before_dialog_place s id n f : replaceable s id n → replaceable (before_dialog s id n f) id n.
Proof. by intros [? ? ? ? ? ?]. Qed.

Lemma show_dialog s id n f att par : installable s id n → text_props att → Forall text_prop par →
  ∃ o n', public_showExpressInstall parse_object att par id f s =
    (Ret tt, on_document (replace_ref (the_ref n) [o] (d_root s)) (d_loose s ++ [n]) (on_next n' (before_dialog s id n f))) ∧
    attr "id" o = Some EXPRESS_INSTALL_ID ∧ ∃ attrs ps, o = Elem (d_next s) "OBJECT" attrs [] ps ∧ Forall (is_param (S (d_next s))) ps.
Proof.
  intros [Hrp Hl Htag [Hw3 Hcan] Hnew Hloose] Hatt Hpar.
  destruct (at_least_ok (prop_put "id" (VStr EXPRESS_INSTALL_ID) att) "width" 310) as (att1 & E1 & H1 & K1); [by apply text_props_put|done|done|].
  destruct (at_least_ok att1 "height" 137) as (att2 & E2 & H2 & K2); [done|done|done|].
  destruct (add_flashvars_ok par (install_vars (s_ua s) (d_location s) (String.substring 0 47 (d_title s) +:+ " - Flash Player Installation")) Hpar) as (par' & E3 & H3).
  destruct (createSWF_ok _ id n (before_dialog_place s id n f Hrp) parse_object att2 par' H2 H3) as (o & n' & Hc & [Hshape _ Hof] & _ & attrs & ps & Ho).
  assert (assoc "id" att2 = Some (VStr EXPRESS_INSTALL_ID)) as Hid by (by rewrite K2, K1, assoc_prop_put).
  assert (with_id att2 id = att2) as Hw by (unfold with_id; by rewrite Hid). rewrite Hw in Hc, Hof.
  exists o, n'. split_and!.
  - unfold public_showExpressInstall, if_w3, gets. unfold mbind at 1, M_bind at 1. rewrite Hw3. unfold mbind at 1, M_bind at 1.
    assert (canExpressInstall s = (Ret true, s)) as -> by (rewrite <-Hcan; done).
    unfold showExpressInstall, modify. unfold mbind at 1, M_bind at 1. unfold getElementById, gets. unfold mbind at 1, M_bind at 1. cbn [d_root on_stored_callback].
    rewrite (rp_found _ _ _ Hrp). apply String.eqb_neq in Htag. unfold store_content. rewrite Htag. unfold mbind at 1, M_bind at 1, modify. unfold mbind at 1, M_bind at 1, lift.
    rewrite E1. unfold mbind at 1, M_bind at 1. rewrite E2. do 4 (unfold mbind at 1, M_bind at 1).
    cbn [d_title d_location s_ua on_title on_stored on_stored_callback] in *. unfold mbind at 1, M_bind at 1. rewrite E3.
    unfold mbind at 1, M_bind at 1. destruct (rp_browser _ _ _ Hrp) as [-> _]. cbn [andb].
    unfold mbind, M_bind. fold (before_dialog s id n f). rewrite Hc. done.
  - rewrite (Hof "id"%string (VStr EXPRESS_INSTALL_ID)); [done|unfold special; set_solver|done].
  - destruct Hshape as (attrs' & st' & ps' & Ho' & Hps & _). rewrite Ho in Ho'. injection Ho' as <- <- <-. by eexists _, _.
Qed.
Lemma take_last l n r : Forall (λ m, ref_of m ≠ Some r) l → ref_of n = Some r → list_find (λ m, ref_of m = Some r) (l ++ [n]) = Some (length l, n).
Proof.
  intros Hl Hn. apply list_find_Some. split_and!; [by rewrite lookup_app_r, Nat.sub_diag by lia|done|].
  intros j y Hy Hj. rewrite lookup_app_l in Hy by done. rewrite Forall_forall in Hl. apply Hl. by eapply list_elem_of_lookup_2.
Qed.

(** The dialog is gone and the element is back. *)
Lemma dialog_back s id n f o n' attrs ps : installable s id n →
  o = Elem (d_next s) "OBJECT" attrs [] ps → Forall (is_param (S (d_next s))) ps → attr "id" o = Some EXPRESS_INSTALL_ID →
  let s1 := on_document (replace_ref (the_ref n) [o] (d_root s)) (d_loose s ++ [n]) (on_next n' (before_dialog s id n f)) in
  ∃ s2, expressInstallCallback user s1 = (Ret tt, s2) ∧
    d_root s2 = (if autoHideShow s then update_ref (the_ref n) visible (d_root s) else d_root s) ∧
    isExpressInstallActive s2 = false ∧
    s_log s2 = s_log s ++ match f with Some g => [CalledBack g false id None] | None => [] end.
Proof.
  intros [Hrp Hl Htag [Hw3 Hcan] Hnew Hloose] -> Hps Hid s1. destruct (rp_elem _ _ _ Hrp) as (Hn & Hnid & Hnr & Hne).
  assert (find_id EXPRESS_INSTALL_ID (d_root s1) = Some (Elem (d_next s) "OBJECT" attrs [] ps)) as Hf.
  { apply (find_new s id n Hrp); [done|done|done|by eapply params_no_id|]. intros e He Hex. by destruct (Hnew e He). }
  pose (s3 := on_document (d_root s) (d_loose s ++ [Elem (d_next s) "OBJECT" attrs [] ps]) (on_next n' (before_dialog s id n f))).
  assert (∃ s4, setVisibility id true s3 = (Ret tt, s4) ∧ d_root s4 = (if autoHideShow s then update_ref (the_ref n) visible (d_root s) else d_root s) ∧
     s_log s4 = s_log s ∧ storedCallbackFn s4 = f ∧ storedCallbackId s4 = id ∧ s_ua s4 = s_ua s) as (s4 & E4 & Hd4 & Hl4 & Hf4 & Hi4 & Hu4).
  { unfold setVisibility, getElementById, gets. unfold mbind, M_bind. change (autoHideShow s3) with (autoHideShow s). destruct (autoHideShow s); cbn [negb].
    - change (isDomLoaded s3) with (isDomLoaded s). change (d_root s3) with (d_root s). rewrite Hl, (rp_found _ _ _ Hrp). eexists. split; [reflexivity|]. done.
    - eexists. split; [reflexivity|done]. }
  assert (find_ref (d_next s) (replace_ref (the_ref n) [Elem (d_next s) "OBJECT" attrs [] ps] (d_root s)) = Some (Elem (d_next s) "OBJECT" attrs [] ps)) as Hfr.
  { apply (find_ref_new s id n Hrp); [done|]. by eapply params_no_ref. }
  assert (replace_ref (d_next s) [n] (replace_ref (the_ref n) [Elem (d_next s) "OBJECT" attrs [] ps] (d_root s)) = d_root s) as Hrb.
  { apply replace_back; [done| |by apply (fresh_ref s id n Hrp)]. intros e He Hr. by eapply (unique_ref (d_root s)); [apply Hrp|..]. }
  assert (∀ k : M swf unit, (content ← take_out (the_ref n); replace_element (d_next s) (option_list content);; k) s1 = k s3) as Hback.
  { intros k. unfold take_out, replace_element, modify. unfold mbind, M_bind. change (d_loose s1) with (d_loose s ++ [n]). rewrite (take_last _ _ _ Hloose Hnr).
    rewrite delete_middle, app_nil_r. change (option_list (Some n)) with [n]. cbn [d_root d_loose on_document s1].
    by rewrite Hfr, Hrb. }
  pose (s5 := match f with Some g => on_log (CalledBack g false id None) s4 | None => s4 end).
  assert (call_back user f false id None s4 = (Ret tt, s5)) as E5.
  { unfold s5, call_back, note, modify. destruct f as [g|]; [|done]. unfold mbind, M_bind. by rewrite Huser. }
  exists (on_install_end s5). split_and!.
  - unfold expressInstallCallback. unfold mbind at 1, M_bind at 1, gets at 1. change (isExpressInstallActive s1) with true. cbn [negb].
    unfold getElementById. unfold mbind at 1, M_bind at 1, gets at 1. rewrite Hf. unfold mbind at 1, M_bind at 1, gets at 1.
    change (storedAltContent s1) with (Some (the_ref n)). change (the_ref (Elem (d_next s) "OBJECT" attrs [] ps)) with (d_next s).
    unfold mbind at 1, M_bind at 1. rewrite Hback. unfold mbind at 1, M_bind at 1, gets at 1. change (storedAltContentId s3) with (Some id).
    unfold mbind at 1, M_bind at 1. unfold mbind at 1, M_bind at 1. rewrite E4. unfold mbind at 1, M_bind at 1, gets at 1. rewrite Hu4.
    destruct (rp_browser _ _ _ Hrp) as [-> _]. unfold mret at 1, M_ret at 1. unfold mbind at 1, M_bind at 1, gets at 1. rewrite Hf4.
    unfold mbind at 1, M_bind at 1, gets at 1. rewrite Hi4, E5. done.
  - unfold s5. by destruct f.
  - done.
  - unfold s5. destruct f; cbn; by rewrite Hl4, ?app_nil_r.
Qed.

(** The dialog of the express install takes the place of an element, and when
    it is done the document is as it was, with the element shown again: the page is told
    once, that there is no movie, and another install can start. *)
Theorem express_install_roundtrip s id n f att par :
  installable s id n → text_props att → Forall text_prop par →
  let s1 := (public_showExpressInstall parse_object att par id f s).2 in
  let s2 := (expressInstallCallback user s1).2 in
  (∃ o, find_id EXPRESS_INSTALL_ID (d_root s1) = Some o ∧ tag_of o = "OBJECT"%string ∧ d_root s1 = replace_ref (the_ref n) [o] (d_root s)) ∧
  isExpressInstallActive s1 = true ∧ isExpressInstallActive s2 = false ∧
  d_root s2 = (if autoHideShow s then update_ref (the_ref n) visible (d_root s) else d_root s) ∧
  s_log s2 = s_log s ++ match f with Some g => [CalledBack g false id None] | None => [] end.
Proof.
  intros Hin Hatt Hpar s1 s2. destruct (show_dialog s id n f att par Hin Hatt Hpar) as (o & n' & E1 & Hid & attrs & ps & Ho & Hps).
  unfold s2, s1. rewrite E1. cbn [snd]. destruct (dialog_back s id n f o n' attrs ps Hin Ho Hps Hid) as (s3 & E3 & Hd & Ha & Hlog). rewrite E3. cbn [snd].
  split_and!; try done. exists o. split_and!; [|by rewrite Ho|done]. subst o. destruct Hin as [Hrp _ _ _ Hnew _].
  apply (find_new s id n Hrp); [done|done|done|by eapply params_no_id|]. intros e He Hex. by destruct (Hnew e He).
Qed.
End install.

(** ** A sample page *)

Definition sample_embed : embed :=
  {| e_url := "board.swf"; e_id := "movie"; e_width := VInt 550; e_height := VStr "400"; e_version := "9.0.0"; e_install := "";
     e_flashvars := VObj false [("room"%string, VStr "7"); ("user"%string, VStr "ann")]; e_params := VObj false [("menu"%string, VStr "false")];
     e_attrs := VUndef; e_callback := Some "ready"%string |}.

Definition loaded_swf (description : string) : swf := on_loaded (sample_swf description).

(** The version that is read from the description of the plug-in. *)
Example sample_version : pv (s_ua (sample_swf "Shockwave Flash 11.2 r202")) = {| major := num_of_Z 11; minor := num_of_Z 2; release := num_of_Z 202 |}.
Proof. vm_compute. reflexivity. Qed.

Lemma sample_elements : elements_of sample_page = [sample_page; Elem 1 "BODY" [] [] [Text "A board: "; sample_div]; sample_div].
Proof. reflexivity. Qed.

Lemma sample_replaceable description : description ≠ ""%string → replaceable (loaded_swf description) "movie" sample_div.
Proof.
  intros Hd%String.eqb_neq. assert (s_ua (loaded_swf description) =
    {| w3 := true; pv := described_version description; wk := None; ie := false; win := true; mac := false |}) as Hua.
  { cbn. unfold detect. cbn [flash_plugin sample_browser]. rewrite Hd. reflexivity. }
  split.
  - rewrite Hua. split; reflexivity.
  - reflexivity.
  - apply (bool_decide_unpack _). vm_compute. exact I.
  - apply (bool_decide_unpack _). vm_compute. exact I.
  - discriminate.
  - intros e. change (d_root (loaded_swf description)) with sample_page. rewrite sample_elements.
    intros [-> | [-> | [-> | []%elem_of_nil]%elem_of_cons]%elem_of_cons]%elem_of_cons Ha; done.
Qed.

Lemma embed_replaces_witness :
  let s := loaded_swf "Shockwave Flash 11.2 r202" in
  ∃ o, d_root (embed_now no_html silent sample_embed s).2 = replace_ref 2 [o] sample_page ∧ attr "width" o = Some "550"%string ∧
    s_log (embed_now no_html silent sample_embed s).2 = [CalledBack "ready" true "movie" (Some 3)].
Proof.
  intros s. destruct (embed_replaces no_html silent (λ _ _, eq_refl) s sample_embed sample_div "550" "400") as (o & par & H & _ & _ & _ & Hw & _ & _ & _ & _ & _ & Hl).
  - split; [by apply sample_replaceable|reflexivity|vm_compute; reflexivity|split; vm_compute; reflexivity| | |].
    + split; [split; [constructor|constructor]|split; reflexivity].
    + constructor; [|constructor]. split; [by eexists|split; reflexivity].
    + repeat constructor; by eexists.
  - exists o. split; [exact H|split; [exact Hw|exact Hl]].
Defined.

(** The page as the movie leaves it. *)
Example sample_embedded :
  d_root (embed_now no_html silent sample_embed (loaded_swf "Shockwave Flash 11.2 r202")).2 =
  Elem 0 "HTML" [] [] [Elem 1 "BODY" [] [] [Text "A board: ";
    Elem 3 "OBJECT"
      [("type"%string, FLASH_MIME_TYPE); ("data"%string, "board.swf"%string); ("width"%string, "550"%string); ("height"%string, "400"%string); ("id"%string, "movie"%string)]
      [("visibility"%string, "visible"%string)]
      [Elem 4 "PARAM" [("name"%string, "menu"%string); ("value"%string, "false"%string)] [] [];
       Elem 5 "PARAM" [("name"%string, "flashvars"%string); ("value"%string, "room=7&user=ann"%string)] [] []]]].
Proof. vm_compute. reflexivity. Qed.

Lemma express_install_roundtrip_witness :
  let s := loaded_swf "Shockwave Flash 6.0 r65" in
  let s1 := (public_showExpressInstall no_html [("data"%string, VStr "install.swf")] [] "movie" None s).2 in
  d_root s1 ≠ sample_page ∧ isExpressInstallActive s1 = true ∧
  d_root (expressInstallCallback silent s1).2 = update_ref 2 visible sample_page.
Proof.
  intros s s1. destruct (express_install_roundtrip no_html silent (λ _ _, eq_refl) s "movie" sample_div None [("data"%string, VStr "install.swf")] [])
    as (_ & Ha & _ & Hd & _).
  - split; [by apply sample_replaceable|reflexivity|discriminate|split; [reflexivity|vm_compute; reflexivity]| |constructor].
    intros e. change (d_root s) with sample_page. rewrite sample_elements. intros [-> | [-> | [-> | []%elem_of_nil]%elem_of_cons]%elem_of_cons]%elem_of_cons; discriminate.
  - split; [constructor; [|constructor]|apply (bool_decide_unpack _); vm_compute; exact I]. split; [by eexists|split; reflexivity].
  - constructor.
  - split; [vm_compute; discriminate|]. split; [exact Ha|exact Hd].
Defined.

(** ** Behaviours worth knowing *)

(** Without an element of the id the page is told of a success, with no movie. *)
Example embed_missing_reports_success :
  let e := {| e_url := "board.swf"; e_id := "absent"; e_width := VInt 550; e_height := VInt 400; e_version := "9"; e_install := "";
              e_flashvars := VUndef; e_params := VUndef; e_attrs := VUndef; e_callback := Some "ready"%string |} in
  s_log (embed_now no_html silent e (loaded_swf "Shockwave Flash 11.2 r202")).2 = [CalledBack "ready" true "absent" None].
Proof. vm_compute. reflexivity. Qed.

(** An install for an element that is not there blocks every later one. *)
Example missing_element_blocks_install :
  let s1 := (public_showExpressInstall no_html [] [] "absent" None (loaded_swf "Shockwave Flash 6.0 r65")).2 in
  d_root s1 = sample_page ∧ (canExpressInstall s1).1 = Ret false.
Proof. vm_compute. done. Qed.
