(* ===== verification/SyntaxTree.v ===== *)
(** * Trees of matches (jquery.syntax.core.js: Syntax.Match)

    The syntax highlighter of the documentation pages keeps the pieces of a text
    that its rules have matched in a tree: every node has a range of the text, an
    expression that says how it is shown and what it may contain, and its children.
    Here are the operations on such trees: insertion in order, insertion of a range
    across a tree, cutting a tree at offsets, and its reduction to elements.

    A text is a list of characters.  The links to the parent and to the next part of
    a node are not part of the tree: where the code follows parents, the path from
    the root is an argument.  The owner of an expression is the name of a brush. *)

From S2P Require Import Prelude.

Definition text := list ascii.

(** [s.substr(start, length)] *)
Definition substr (s : text) (start len : Z) : text :=
  let st := if (start <? 0)%Z then Z.max 0 (Z.of_nat (length s) + start) else start in
  take (Z.to_nat len) (drop (Z.to_nat st) s).

(** ** Nodes *)

Inductive allowed :=
| NoAllow                        (* undefined *)
| AllowAll                       (* the text with the star *)
| AllowList (l : list string)
| AllowOther.

Record expression := {
  e_klass : option string;
  e_allow : allowed;
  e_disallow : option (list string);
  e_only : option (list string);
  e_force : bool;
  e_owner : option string
}.

Inductive node :=
| Node (offset endOffset len : Z) (e : expression) (val : text) (children : list node) (complete : bool).

Definition m_offset (n : node) : Z := let '(Node o _ _ _ _ _ _) := n in o.
Definition m_end (n : node) : Z := let '(Node _ e _ _ _ _ _) := n in e.
Definition m_length (n : node) : Z := let '(Node _ _ l _ _ _ _) := n in l.
Definition m_expr (n : node) : expression := let '(Node _ _ _ x _ _ _) := n in x.
Definition m_value (n : node) : text := let '(Node _ _ _ _ v _ _) := n in v.
Definition m_children (n : node) : list node := let '(Node _ _ _ _ _ c _) := n in c.
Definition m_complete (n : node) : bool := let '(Node _ _ _ _ _ _ b) := n in b.

Definition set_children (l : list node) (n : node) : node :=
  let '(Node o e k x v _ b) := n in Node o e k x v l b.
Definition set_complete (n : node) : node :=
  let '(Node o e k x v l _) := n in Node o e k x v l true.
Definition set_expr (x : expression) (n : node) : node :=
  let '(Node o e k _ v l b) := n in Node o e k x v l b.

(** [new Syntax.Match(offset, length, expression, value)] *)
Definition new_Match (offset len : Z) (x : expression) (v : text) : node := Node offset (offset + len) len x v [] false.

(** [match.adjust(offset, length, text)]; a length or text of [None] is falsy. *)
Definition adjust (offset : Z) (len : option Z) (t : option text) (n : node) : node :=
  let '(Node o e k x v l b) := n in
  let o' := (o + offset)%Z in
  let k' := match len with Some k' => if (k' =? 0)%Z then k else k' | None => k end in
  let e' := match len with Some k' => if (k' =? 0)%Z then (e + offset)%Z else (o' + k')%Z | None => (e + offset)%Z end in
  let v' := match t with Some [] | None => v | Some t => substr t o' k' end in
  Node o' e' k' x v' l b.

(** [match.shift(offset)] of a whole tree. *)
Fixpoint shift (offset : Z) (n : node) : node :=
  let '(Node o e k x v l b) := n in
  Node (o + offset) (e + offset) k x v (List.map (shift offset) l) b.

(** [Syntax.Match.sort], the order of the text, longer ones first. *)
Definition compare_matches (a b : node) : Z :=
  let d := (m_offset a - m_offset b)%Z in if (d =? 0)%Z then (m_length b - m_length a)%Z else d.

Definition contains (n m : node) : bool := (m_offset n <=? m_offset m)%Z && (m_end m <=? m_end n)%Z.

(** ** What may contain what *)

Definition klass_in (k : option string) (l : list string) : bool :=
  match k with Some k => existsb (String.eqb k) l | None => false end.

Definition canContain (n m : node) : bool :=
  if e_force (m_expr m) then true
  else if m_complete n then false
  else match e_only (m_expr m) with
       | Some _ => true
       | None =>
           match e_allow (m_expr n) with
           | NoAllow => false
           | a =>
               if match e_disallow (m_expr n) with Some l => klass_in (e_klass (m_expr m)) l | None => false end then false
               else match a with
                    | AllowAll => true
                    | AllowList l => klass_in (e_klass (m_expr m)) l
                    | _ => false
                    end
           end
       end.

(** The classes on the way to the root, with whether the node is complete. *)
Definition path := list (option string * bool).
Definition step_of (n : node) : option string * bool := (e_klass (m_expr n), m_complete n).

(** The walk over the parents, which does not enter other trees. *)
Fixpoint only_within (only : list string) (p : path) : bool :=
  match p with
  | [] => false
  | (k, _) :: p' =>
      klass_in k only || match p' with (_, true) :: _ => false | _ => only_within only p' end
  end.

Definition canHaveChild (p : path) (m : node) : bool :=
  match e_only (m_expr m) with Some only => only_within only p | None => true end.

(** The match as [_splice] leaves it. *)
Definition adopt (n m : node) : node :=
  let x := m_expr m in
  match e_owner x with
  | Some _ => m
  | None => set_expr {| e_klass := e_klass x; e_allow := e_allow x; e_disallow := e_disallow x; e_only := e_only x;
                        e_force := e_force x; e_owner := e_owner (m_expr n) |} m
  end.

(** ** Insertion in order *)

(** [top.insertAtEnd(match)] for a node with the path [p] above it: the node with
    the match in it, or [None] when there is no place for it.  The property [force] of
    a match, which the code looks at in two places, is never set. *)
Fixpoint insertAtEnd (p : path) (this m : node) {struct this} : option node :=
  if negb (contains this m) then None
  else if negb (canContain this m) then None
  else
    let '(Node o e k x v l b) := this in
    let p' := step_of this :: p in
    new ← (fix last_child (l : list node) : option (list node) :=
      match l with
      | [] => if canHaveChild p' m then Some [adopt this m] else None
      | [child] =>
          if (m_offset m <? m_offset child)%Z then None
          else if (m_offset m <? m_end child)%Z then
            if (m_end m <=? m_end child)%Z then child' ← insertAtEnd p' child m; Some [child'] else None
          else if canHaveChild p' m then Some [child; adopt this m] else None
      | c :: l' => l2 ← last_child l'; Some (c :: l2)
      end) l;
    Some (Node o e k x v new b).

(** ** Cutting a tree *)

Fixpoint insert_split (z : Z) (l : list Z) : list Z :=
  match l with [] => [z] | y :: l' => if (z <=? y)%Z then z :: l else y :: insert_split z l' end.
Definition sort_splits (l : list Z) : list Z := foldr insert_split [] l.

(** The parts between the splits, without children; [None] keeps the place of an
    empty one. *)
Fixpoint make_parts (this : node) (start : Z) (splits : list Z) : list (option node) :=
  match splits with
  | [] => []
  | offset :: splits' =>
      if (m_end this <? offset)%Z then []
      else if (offset <? m_offset this)%Z || (offset - start =? 0)%Z then None :: make_parts this offset splits'
      else
        let start := if (start <? m_offset this)%Z then m_offset this else start in
        let len := (offset - start)%Z in
        let part := new_Match start len (m_expr this) (substr (m_value this) (start - m_offset this) len) in
        Some part :: make_parts this (m_end part) splits'
  end.

Definition push_child (c n : node) : node := set_children (m_children n ++ [c]) n.

(** [parts[j].children.push(c)] *)
Definition push_to (parts : list (option node)) (j : Z) (c : node) : res (list (option node)) :=
  if (j <? 0)%Z then Throw TypeError
  else match parts !! Z.to_nat j with
       | Some (Some n) => Ret (<[Z.to_nat j := Some (push_child c n)]> parts)
       | _ => Throw TypeError
       end.

Fixpoint push_parts (parts : list (option node)) (i : Z) (cs : list (option node)) : res (list (option node)) :=
  match cs with
  | [] => Ret parts
  | None :: cs' => push_parts parts (i + 1) cs'
  | Some c :: cs' => parts' ← push_to parts i c; push_parts parts' (i + 1) cs'
  end.

(** A child, and how it is cut. *)
Definition kid := (node * (list Z → res (list (option node))))%type.

(** The children that end within the part. *)
Fixpoint take_within (e : Z) (kids : list kid) : list node * list kid :=
  match kids with
  | (c, f) :: kids' => if (m_end c <=? e)%Z then let '(cs, r) := take_within e kids' in (c :: cs, r) else ([], kids)
  | [] => ([], [])
  end.

(** The second loop; [fuel] bounds its rounds, each of which moves on or uses up a child. *)
Fixpoint deal (fuel : nat) (parts : list (option node)) (i : Z) (splits : list Z) (kids : list kid) : res (list (option node)) :=
  match fuel with
  | O => Ret parts
  | S fuel =>
      if (Z.of_nat (length parts) <=? i)%Z then Ret parts
      else match parts !! Z.to_nat i with
           | Some (Some part) =>
               let '(cs, kids) := take_within (m_end part) kids in
               let parts := <[Z.to_nat i := Some (set_children (m_children part ++ cs) part)]> parts in
               match kids with
               | (child, cut) :: kids' =>
                   if (m_offset child <? m_end part)%Z then
                     child_parts ← cut splits;
                     parts ← push_parts parts i child_parts;
                     let n := (Z.of_nat (length child_parts) - 2)%Z in
                     deal fuel parts (i + n + 1) (drop 1 (drop (Z.to_nat n) splits)) kids'
                   else deal fuel parts (i + 1) (drop 1 splits) kids
               | [] => deal fuel parts (i + 1) (drop 1 splits) []
               end
           | _ => deal fuel parts (i + 1) splits kids
           end
  end.

(** [top.bisectAtOffsets(splits)] *)
Fixpoint bisectAtOffsets (this : node) (splits : list Z) {struct this} : res (list (option node)) :=
  let '(Node o e k x v l b) := this in
  let splits := sort_splits (splits ++ [e]) in
  let parts := make_parts this o splits in
  let kids := List.map (λ c, (c, bisectAtOffsets c)) l in
  deal (length parts + length l) parts 0 (take (length parts) splits) kids.

(** The parts that are there. *)
Fixpoint somes (parts : list (option node)) : list node :=
  match parts with [] => [] | Some n :: l => n :: somes l | None :: l => somes l end.

(** [top.split(pattern)], with the values of [pattern.lastIndex] after its matches. *)
Definition split (this : node) (ends : list Z) : res (list node) :=
  parts ← bisectAtOffsets this ends; Ret (somes parts).

(** Those of [/\n/g]. *)
Fixpoint line_ends (i : Z) (v : text) : list Z :=
  match v with
  | [] => []
  | c :: v' => if Ascii.eqb c newline then (i + 1)%Z :: line_ends (i + 1) v' else line_ends (i + 1) v'
  end.

Definition split_lines (this : node) : res (list node) := split this (line_ends 0 (m_value this)).

(** ** Insertion across a tree *)

Section insert_whole.
Context (rule_for : string → option string → option expression).   (* [owner.getRuleForKlass(klass)] *)

Definition part_children (parts : list (option node)) (i : nat) : option (list node) :=
  match parts !! i with Some (Some n) => Some (m_children n) | _ => None end.

Definition insertWhole (this m : node) : res node :=
  parts ← bisectAtOffsets this [m_offset m; m_end m];
  let before := default [] (part_children parts 0) in
  let middle :=
    match part_children parts 1 with
    | Some cs =>
        let x := match e_owner (m_expr this) with
                 | Some owner => default (m_expr m) (rule_for owner (e_klass (m_expr m)))
                 | None => m_expr m
                 end in
        let m := set_expr x (set_children [] m) in
        [set_children (List.filter (canContain m) cs) m]
    | None => []
    end in
  Ret (set_children (before ++ middle ++ default [] (part_children parts 2)) this).

(** The smallest node around the match, and its insertion there. *)
Fixpoint insert_at (this m : node) {struct this} : res node :=
  let '(Node o e k x v l b) := this in
  match (fix scan (l : list node) : option (res (list node)) :=
    match l with
    | [] => None
    | c :: l' =>
        if contains c m then Some (c' ← insert_at c m; Ret (c' :: l'))
        else match scan l' with Some r => Some (l2 ← r; Ret (c :: l2)) | None => None end
    end) l with
  | Some r => l' ← r; Ret (Node o e k x v l' b)
  | None => insertWhole this m
  end.

(** [top.insert(match, true)] *)
Definition insert (this m : node) : res node := if contains this m then insert_at this m else Ret this.
End insert_whole.

(** ** Reduction *)

Inductive html :=
| HText (t : text)
| HSpan (klass : option string) (l : list html)
| HLink (href : text) (klass : option string) (l : list html).

Fixpoint html_text (h : html) : text :=
  match h with
  | HText t => t
  | HSpan _ l | HLink _ _ l => (fix go l := match l with [] => [] | h :: l' => html_text h ++ go l' end) l
  end.

Section reduce.
Context (process : html → node → html).

(** [match.reduce(append, process)] with the default [append]. *)
Fixpoint reduce (this : node) : html :=
  let '(Node o e k x v l b) := this in
  process (HSpan (match e_klass x with Some "" | None => None | k => k end)
    ((fix go (start : Z) (l : list node) : list html :=
      match l with
      | [] => if (start =? o)%Z then [HText v] else if (start <? e)%Z then [HText (substr v (start - o) (e - start))] else []
      | c :: l' => HText (substr v (start - o) (m_offset c - start)) :: reduce c :: go (m_end c) l'
      end) o l)) this.
End reduce.
