(* ===== verification/SyntaxTreeFacts.v ===== *)
(** * Trees of matches keep the text (about SyntaxTree)

    A tree is in order when every node has the text of its range, and its children
    lie in it one after the other.  Insertion and cutting keep trees in order,
    and the elements that a tree in order is reduced to have its text. *)

From S2P Require Import Prelude SyntaxTree.

(** ** Ranges of a text *)

(** The text between two offsets, for a text that starts at [base]. *)
Definition range (T : text) (base a b : Z) : text := take (Z.to_nat (b - a)) (drop (Z.to_nat (a - base)) T).

Lemma range_app T base a b c : (base <= a)%Z → (a <= b)%Z → (b <= c)%Z → range T base a b ++ range T base b c = range T base a c.
Proof.
  intros Ha Hb Hc. unfold range. replace (Z.to_nat (b - base)) with (Z.to_nat (a - base) + Z.to_nat (b - a)) by lia.
  replace (Z.to_nat (c - a)) with (Z.to_nat (b - a) + Z.to_nat (c - b)) by lia.
  rewrite <- drop_drop. apply take_take_drop.
Qed.
Lemma range_nil T base a : range T base a a = [].
Proof. unfold range. by replace (Z.to_nat (a - a)) with 0 by lia. Qed.

(** A part of a range. *)
Lemma substr_range T base o e s len : (base <= o)%Z → (o <= s)%Z → (0 <= len)%Z → (s + len <= e)%Z →
  substr (range T base o e) (s - o) len = range T base s (s + len).
Proof.
  intros Ho Hs Hl He. unfold substr, range. destruct (s - o <? 0)%Z eqn:E; [lia|].
  rewrite skipn_firstn_comm, firstn_firstn, drop_drop. f_equal; [lia|]. f_equal. lia.
Qed.
Lemma range_length T base a b : (base <= a)%Z → (a <= b)%Z → (b <= base + Z.of_nat (length T))%Z → Z.of_nat (length (range T base a b)) = (b - a)%Z.
Proof. intros. unfold range. rewrite length_take, length_drop. lia. Qed.

(** ** Trees in order *)

Section order.
Context (T : text) (base : Z).

Inductive node_ok : node → Prop :=
| NodeOk o e k x v l b :
    (base <= o)%Z → (o <= e)%Z → (e <= base + Z.of_nat (length T))%Z → k = (e - o)%Z → v = range T base o e → chain o e l →
    node_ok (Node o e k x v l b)
with chain : Z → Z → list node → Prop :=
| ChainNil lo hi : (lo <= hi)%Z → chain lo hi []
| ChainCons lo hi c l : (lo <= m_offset c)%Z → node_ok c → chain (m_end c) hi l → chain lo hi (c :: l).

Scheme node_ok_mut := Induction for node_ok Sort Prop
with chain_mut := Induction for chain Sort Prop.

Lemma chain_le lo hi l : chain lo hi l → (lo <= hi)%Z.
Proof.
  intros H. induction l as [|c l IH] in lo, H |- *; inversion H as [|? ? ? ? H1 H2 H3]; subst; [done|].
  apply IH in H3. inversion H2; subst. cbn in *. lia.
Qed.
Lemma node_range n : node_ok n → (base <= m_offset n <= m_end n)%Z.
Proof. intros H. inversion H; subst. cbn. lia. Qed.
Lemma node_value n : node_ok n → m_value n = range T base (m_offset n) (m_end n).
Proof. intros H. by inversion H. Qed.

Lemma chain_app lo hi l l' : chain lo hi (l ++ l') ↔ ∃ mid, chain lo mid l ∧ chain mid hi l'.
Proof.
  split.
  - induction l as [|c l IH] in lo |- *; intros H.
    + exists lo. split; [constructor; lia|done].
    + inversion H as [|? ? ? ? H1 H2 H3]; subst. destruct (IH _ H3) as (mid & Ha & Hb). exists mid. split; [by constructor|done].
  - intros (mid & Ha & Hb). induction l as [|c l IH] in lo, Ha |- *.
    + inversion Ha; subst. cbn. destruct l' as [|c l']; inversion Hb; subst; constructor; try done; lia.
    + inversion Ha as [|? ? ? ? H1 H2 H3]; subst. constructor; [done|done|]. by apply IH.
Qed.
Lemma chain_weaken lo lo' hi hi' l : chain lo hi l → (lo' <= lo)%Z → (hi <= hi')%Z → chain lo' hi' l.
Proof.
  intros H Hlo Hhi. induction l as [|c l IH] in lo, lo', H, Hlo |- *; inversion H as [|? ? ? ? H1 H2 H3]; subst; constructor; try done; try lia.
  by eapply IH.
Qed.
Lemma chain_snoc lo hi l c : chain lo (m_offset c) l → node_ok c → (m_end c <= hi)%Z → chain lo hi (l ++ [c]).
Proof. intros H1 H2 H3. apply chain_app. exists (m_offset c). split; [done|]. constructor; [lia|done|]. by constructor. Qed.

(** ** Reduction *)

Lemma html_span k l : html_text (HSpan k l) = concat (html_text <$> l).
Proof. induction l as [|h l IH]; [done|]. cbn [fmap list_fmap concat]. by rewrite <- IH. Qed.

Section reduce.
Context (process : html → node → html).
Context (Hprocess : ∀ h n, html_text (process h n) = html_text h).

Lemma reduce_text n : node_ok n → html_text (reduce process n) = m_value n.
Proof.
  revert n. apply (node_ok_mut (λ n _, html_text (reduce process n) = m_value n)
    (λ lo hi l _, ∀ o, (base <= o <= lo)%Z →
      concat (html_text <$> (fix go (start : Z) (l : list node) : list html :=
        match l with
        | [] => if (start =? o)%Z then [HText (range T base o hi)] else if (start <? hi)%Z then [HText (substr (range T base o hi) (start - o) (hi - start))] else []
        | c :: l' => HText (substr (range T base o hi) (start - o) (m_offset c - start)) :: reduce process c :: go (m_end c) l'
        end) lo l) = range T base lo hi)).
  - intros o e k x v l b Ho Hoe He -> -> Hl IH. cbn [reduce m_value]. rewrite Hprocess, html_span. apply IH. lia.
  - intros lo hi Hle o Ho. destruct (lo =? o)%Z eqn:E1.
    + apply Z.eqb_eq in E1 as ->. cbn. by rewrite app_nil_r.
    + destruct (lo <? hi)%Z eqn:E2.
      * cbn. rewrite app_nil_r, substr_range by lia. f_equal. lia.
      * replace hi with lo by lia. by rewrite range_nil.
  - intros lo hi c l Hlo Hc IHc Hl IHl o Ho. pose proof (chain_le _ _ _ Hl). pose proof (node_range _ Hc).
    cbn [fmap list_fmap concat html_text]. rewrite IHl by lia. rewrite IHc, (node_value c Hc).
    rewrite substr_range by lia. replace (lo + (m_offset c - lo))%Z with (m_offset c) by lia.
    rewrite !range_app by lia. done.
Qed.
End reduce.

(** ** Classes *)

Definition covers (c : node) (i : Z) : bool := (m_offset c <=? i)%Z && (i <? m_end c)%Z.

(** The classes that a character of the text is shown with, from the outside in. *)
Fixpoint classes (n : node) (i : Z) : list (option string) :=
  let '(Node _ _ _ x _ l _) := n in
  e_klass x :: (fix go (l : list node) : list (option string) :=
    match l with [] => [] | c :: l' => if covers c i then classes c i else go l' end) l.

(** Those by the children only. *)
Fixpoint inner_classes (l : list node) (i : Z) : list (option string) :=
  match l with [] => [] | c :: l' => if covers c i then classes c i else inner_classes l' i end.

Lemma classes_eq n i : classes n i = e_klass (m_expr n) :: inner_classes (m_children n) i.
Proof. destruct n as [o e k x v l b]. cbn. f_equal. induction l as [|c l IH]; cbn; [done|]. by rewrite IH. Qed.

Lemma covers_false c i : (i < m_offset c ∨ m_end c <= i)%Z → covers c i = false.
Proof. unfold covers. intros H. apply andb_false_iff. rewrite Z.leb_gt, Z.ltb_ge. lia. Qed.
Lemma covers_true c i : (m_offset c <= i < m_end c)%Z → covers c i = true.
Proof. unfold covers. intros H. apply andb_true_iff. rewrite Z.leb_le, Z.ltb_lt. lia. Qed.

Lemma inner_before lo hi l i : chain lo hi l → (i < lo)%Z → inner_classes l i = [].
Proof.
  induction l as [|c l IH] in lo |- *; [done|]. intros H Hi. inversion H as [|? ? ? ? H1 H2 H3]; subst. pose proof (node_range _ H2).
  cbn. rewrite covers_false by lia. by apply (IH (m_end c)); [|lia].
Qed.
Lemma inner_after lo hi l i : chain lo hi l → (hi <= i)%Z → inner_classes l i = [].
Proof.
  induction l as [|c l IH] in lo |- *; [done|]. intros H Hi. inversion H as [|? ? ? ? H1 H2 H3]; subst. pose proof (chain_le _ _ _ H3).
  cbn. rewrite covers_false by lia. by apply (IH (m_end c)).
Qed.
Lemma inner_app_before mid hi l l' i : chain mid hi l' → (i < mid)%Z → inner_classes (l ++ l') i = inner_classes l i.
Proof. intros H Hi. induction l as [|c l IH]; cbn; [by eapply inner_before|]. destruct (covers c i); [done|exact IH]. Qed.
Lemma inner_app_after lo mid l l' i : chain lo mid l → (mid <= i)%Z → inner_classes (l ++ l') i = inner_classes l' i.
Proof.
  induction l as [|c l IH] in lo |- *; [done|]. intros H Hi. inversion H as [|? ? ? ? H1 H2 H3]; subst. pose proof (chain_le _ _ _ H3).
  cbn. rewrite covers_false by lia. by apply (IH (m_end c)).
Qed.

(** ** Characters with their classes *)

(** The characters of an element, each with the classes of the elements around it. *)
Fixpoint styled (p : list (option string)) (h : html) : list (ascii * list (option string)) :=
  match h with
  | HText t => (λ c, (c, p)) <$> t
  | HSpan k l | HLink _ k l => (fix go l := match l with [] => [] | h :: l' => styled (p ++ [k]) h ++ go l' end) l
  end.

(** An element has no class when its expression has none. *)
Definition shown_class (k : option string) : option string := match k with Some "" | None => None | k => k end.

Definition char_at (i : Z) : ascii := default " "%char (T !! Z.to_nat (i - base)).

(** The characters of a range with the classes [f]. *)
Definition styles (f : Z → list (option string)) (a b : Z) : list (ascii * list (option string)) := (λ i, (char_at i, f i)) <$> seqZ a (b - a).

Lemma styles_app f a b c : (a <= b <= c)%Z → styles f a b ++ styles f b c = styles f a c.
Proof.
  intros H. unfold styles. replace (c - a)%Z with (b - a + (c - b))%Z by lia. rewrite seqZ_app, fmap_app by lia. by replace (a + (b - a))%Z with b by lia.
Qed.
Lemma styles_ext f g a b : (∀ i, (a <= i < b)%Z → f i = g i) → styles f a b = styles g a b.
Proof. intros H. apply list_fmap_ext. intros j i Hj. apply list_elem_of_lookup_2, elem_of_seqZ in Hj. rewrite H by lia. done. Qed.
Lemma styles_range p a b : (base <= a)%Z → (a <= b)%Z → (b <= base + Z.of_nat (length T))%Z → (λ c, (c, p)) <$> range T base a b = styles (λ _, p) a b.
Proof.
  intros Ha Hab Hb. unfold styles. apply list_eq. intros j. rewrite !list_lookup_fmap. destruct (decide (Z.of_nat j < b - a)%Z) as [Hj|Hj].
  - rewrite lookup_seqZ_lt by lia. unfold range. rewrite lookup_take_lt, lookup_drop by lia.
    cbn [fmap option_fmap option_map]. unfold char_at. replace (Z.to_nat (a + Z.of_nat j - base)) with (Z.to_nat (a - base) + j) by lia.
    destruct (lookup_lt_is_Some_2 T (Z.to_nat (a - base) + j)) as [c Hc]; [lia|]. unfold text in *. rewrite Hc. done.
  - rewrite lookup_seqZ_ge by lia. pose proof (range_length T base a b Ha Hab Hb) as Hl. rewrite lookup_ge_None_2 by lia. done.
Qed.

Lemma styled_span p k l : styled p (HSpan k l) = concat (styled (p ++ [k]) <$> l).
Proof. induction l as [|h l IH]; [done|]. cbn [fmap list_fmap concat]. by rewrite <- IH. Qed.

(** The elements of a tree in order show each character of its range, with the classes
    that it has in the tree. *)
Lemma reduce_styled n : node_ok n → ∀ p, styled p (reduce (λ h _, h) n) = styles (λ i, p ++ (shown_class <$> classes n i)) (m_offset n) (m_end n).
Proof.
  revert n. apply (node_ok_mut (λ n _, ∀ p, styled p (reduce (λ h _, h) n) = styles (λ i, p ++ (shown_class <$> classes n i)) (m_offset n) (m_end n))
    (λ lo hi l _, ∀ o p, (base <= o <= lo)%Z → (hi <= base + Z.of_nat (length T))%Z →
      concat (styled p <$> (fix go (start : Z) (l : list node) : list html :=
        match l with
        | [] => if (start =? o)%Z then [HText (range T base o hi)] else if (start <? hi)%Z then [HText (substr (range T base o hi) (start - o) (hi - start))] else []
        | c :: l' => HText (substr (range T base o hi) (start - o) (m_offset c - start)) :: reduce (λ h _, h) c :: go (m_end c) l'
        end) lo l) = styles (λ i, p ++ (shown_class <$> inner_classes l i)) lo hi)).
  - intros o e k x v l b Ho Hoe He -> -> Hl IH p. cbn [reduce m_offset m_end]. rewrite styled_span, IH by lia. apply styles_ext. intros i Hi.
    rewrite classes_eq. cbn [m_expr m_children fmap list_fmap]. rewrite <- app_assoc. by destruct (e_klass x) as [[|]|].
  - intros lo hi Hle o p Ho Hhi. destruct (lo =? o)%Z eqn:E1.
    + apply Z.eqb_eq in E1 as ->. cbn. rewrite app_nil_r, styles_range by lia. by rewrite app_nil_r.
    + destruct (lo <? hi)%Z eqn:E2.
      * cbn. rewrite app_nil_r, substr_range by lia. replace (lo + (hi - lo))%Z with hi by lia. rewrite styles_range by lia. by rewrite app_nil_r.
      * unfold styles. by rewrite seqZ_nil by lia.
  - intros lo hi c l Hlo Hc IHc Hl IHl o p Ho Hhi. pose proof (chain_le _ _ _ Hl). pose proof (node_range _ Hc).
    cbn [fmap list_fmap concat styled]. rewrite IHl by lia. rewrite IHc, substr_range by lia.
    replace (lo + (m_offset c - lo))%Z with (m_offset c) by lia. rewrite styles_range by lia.
    rewrite <- (styles_app _ lo (m_offset c) hi), <- (styles_app _ (m_offset c) (m_end c) hi) by lia. f_equal; [|f_equal]; apply styles_ext; intros i Hi.
    + rewrite (inner_before (m_offset c) hi); [by rewrite app_nil_r|by constructor|lia].
    + cbn. by rewrite covers_true by lia.
    + cbn. by rewrite covers_false by lia.
Qed.

(** ** Insertion in order *)

Lemma set_expr_ok x n : node_ok n → node_ok (set_expr x n).
Proof. intros H. inversion H; subst. by constructor. Qed.
Lemma set_expr_range x n : m_offset (set_expr x n) = m_offset n ∧ m_end (set_expr x n) = m_end n.
Proof. by destruct n. Qed.
Lemma adopt_ok n m : node_ok m → node_ok (adopt n m).
Proof. intros H. unfold adopt. destruct (e_owner (m_expr m)); [done|by apply set_expr_ok]. Qed.
Lemma adopt_range n m : m_offset (adopt n m) = m_offset m ∧ m_end (adopt n m) = m_end m.
Proof. unfold adopt. destruct (e_owner (m_expr m)); [done|apply set_expr_range]. Qed.

Definition same_range (n n' : node) : Prop := m_offset n' = m_offset n ∧ m_end n' = m_end n.

Lemma single_chain n m lo hi : node_ok m → (lo <= m_offset m)%Z → (m_end m <= hi)%Z → chain lo hi [adopt n m].
Proof.
  intros Hm Hlo Hhi. destruct (adopt_range n m) as [E1 E2]. constructor; [by rewrite E1|by apply adopt_ok|]. constructor. by rewrite E2.
Qed.

Lemma insertAtEnd_ok m : node_ok m → ∀ n, node_ok n → ∀ p n', insertAtEnd p n m = Some n' → node_ok n' ∧ same_range n n'.
Proof.
  intros Hm. apply (node_ok_mut (λ n _, ∀ p n', insertAtEnd p n m = Some n' → node_ok n' ∧ same_range n n')
    (λ lo hi l _, ∀ p this new, (l = [] → (lo <= m_offset m)%Z) → (m_end m <= hi)%Z →
      (fix last_child (l : list node) : option (list node) :=
        match l with
        | [] => if canHaveChild p m then Some [adopt this m] else None
        | [child] =>
            if (m_offset m <? m_offset child)%Z then None
            else if (m_offset m <? m_end child)%Z then
              if (m_end m <=? m_end child)%Z then child' ← insertAtEnd p child m; Some [child'] else None
            else if canHaveChild p m then Some [child; adopt this m] else None
        | c :: l' => l2 ← last_child l'; Some (c :: l2)
        end) l = Some new → chain lo hi new)).
  - intros o e k x v l b Ho Hoe He -> -> Hl IH p n' H. cbn [insertAtEnd] in H.
    destruct (negb (contains _ m)) eqn:Ec; [done|]. destruct (negb (canContain _ m)); [done|].
    apply negb_false_iff, andb_true_iff in Ec as [E1 E2]. cbn in E1, E2.
    match type of H with (?o ≫= _) = _ => destruct o as [new|] eqn:En; [|done] end. injection H as <-.
    split; [|done]. constructor; try done. eapply IH; [intros _; lia|lia|exact En].
  - intros lo hi Hle p this new Hlo Hhi H. destruct (canHaveChild p m); [|done]. injection H as <-. apply single_chain; auto.
  - intros lo hi c l Hlo Hc IHc Hl IHl p this new _ Hhi H. destruct l as [|c2 l].
    + destruct (m_offset m <? m_offset c)%Z eqn:E1; [done|]. destruct (m_offset m <? m_end c)%Z eqn:E2.
      * destruct (m_end m <=? m_end c)%Z eqn:E3; [|done]. destruct (insertAtEnd p c m) as [c'|] eqn:Ei; [|done]. injection H as <-.
        destruct (IHc _ _ Ei) as [Hc' [R1 R2]]. constructor; [by rewrite R1|done|by rewrite R2].
      * destruct (canHaveChild p m); [|done]. injection H as <-. constructor; [done|done|]. apply single_chain; [done|lia|done].
    + match type of H with (?o ≫= _) = _ => destruct o as [l2|] eqn:El; [|done] end. injection H as <-.
      constructor; [done|done|]. eapply IHl; [done|done|exact El].
Qed.

Lemma set_expr_classes x n i : e_klass x = e_klass (m_expr n) → classes (set_expr x n) i = classes n i.
Proof. intros Hx. destruct n as [o e k y v l b]. rewrite !classes_eq. cbn in *. by rewrite Hx. Qed.
Lemma adopt_classes n m i : classes (adopt n m) i = classes m i.
Proof. unfold adopt. destruct (e_owner (m_expr m)); [done|]. by apply set_expr_classes. Qed.
Lemma covers_range n n' i : same_range n n' → covers n' i = covers n i.
Proof. intros [E1 E2]. unfold covers. by rewrite E1, E2. Qed.

(** What a match adds to the classes. *)
Definition added (m : node) (i : Z) : list (option string) := if covers m i then classes m i else [].

Lemma added_outside m i : (i < m_offset m ∨ m_end m <= i)%Z → added m i = [].
Proof. intros H. unfold added. by rewrite covers_false. Qed.
Lemma adopted_inner n m i : inner_classes [adopt n m] i = added m i.
Proof. cbn. rewrite adopt_classes. unfold added. by rewrite (covers_range m (adopt n m)) by apply adopt_range. Qed.

(** The characters of the match get its class inside of those they have, the others
    keep theirs. *)
Lemma insertAtEnd_classes m : node_ok m → ∀ n, node_ok n → ∀ p n', insertAtEnd p n m = Some n' → ∀ i, classes n' i = classes n i ++ added m i.
Proof.
  intros Hm. apply (node_ok_mut (λ n _, ∀ p n', insertAtEnd p n m = Some n' → ∀ i, classes n' i = classes n i ++ added m i)
    (λ lo hi l _, ∀ p this new, (l = [] → (lo <= m_offset m)%Z) →
      (fix last_child (l : list node) : option (list node) :=
        match l with
        | [] => if canHaveChild p m then Some [adopt this m] else None
        | [child] =>
            if (m_offset m <? m_offset child)%Z then None
            else if (m_offset m <? m_end child)%Z then
              if (m_end m <=? m_end child)%Z then child' ← insertAtEnd p child m; Some [child'] else None
            else if canHaveChild p m then Some [child; adopt this m] else None
        | c :: l' => l2 ← last_child l'; Some (c :: l2)
        end) l = Some new → (lo <= m_offset m)%Z ∧ ∀ i, inner_classes new i = inner_classes l i ++ added m i)).
  - intros o e k x v l b Ho Hoe He Hk Hv Hl IH p n' H i. cbn [insertAtEnd] in H.
    destruct (negb (contains _ m)) eqn:Ec; [done|]. destruct (negb (canContain _ m)); [done|].
    apply negb_false_iff, andb_true_iff in Ec as [E1 E2]. cbn in E1, E2.
    match type of H with (?o ≫= _) = _ => destruct o as [new|] eqn:En; [|done] end. injection H as <-.
    rewrite !classes_eq. cbn [m_expr m_children app]. f_equal. eapply IH; [intros _; lia|exact En].
  - intros lo hi Hle p this new Hlo H. destruct (canHaveChild p m); [|done]. injection H as <-. split; [by apply Hlo|]. intros i. apply adopted_inner.
  - intros lo hi c l Hlo Hc IHc Hl IHl p this new _ H. pose proof (node_range _ Hc). pose proof (node_range _ Hm). destruct l as [|c2 l].
    + destruct (m_offset m <? m_offset c)%Z eqn:E1; [done|]. destruct (m_offset m <? m_end c)%Z eqn:E2.
      * destruct (m_end m <=? m_end c)%Z eqn:E3; [|done]. destruct (insertAtEnd p c m) as [c'|] eqn:Ei; [|done]. injection H as <-. split; [lia|].
        intros i. destruct (insertAtEnd_ok _ Hm _ Hc _ _ Ei) as [_ R]. cbn. rewrite (covers_range _ _ _ R), (IHc _ _ Ei). destruct (covers c i) eqn:Ec; [done|].
        apply andb_false_iff in Ec. rewrite Z.leb_gt, Z.ltb_ge in Ec. by rewrite added_outside by lia.
      * destruct (canHaveChild p m); [|done]. injection H as <-. split; [lia|]. intros i. change [c; adopt this m] with ([c] ++ [adopt this m]).
        cbn [app inner_classes]. destruct (covers c i) eqn:Ec; [|apply adopted_inner].
        apply andb_true_iff in Ec. rewrite Z.leb_le, Z.ltb_lt in Ec. by rewrite added_outside, app_nil_r by lia.
    + match type of H with (?o ≫= _) = _ => destruct o as [l2|] eqn:El; [|done] end. injection H as <-.
      destruct (IHl p this l2 ltac:(done) El) as [Hlo' Hcl]. split; [lia|]. intros i. cbn [inner_classes]. destruct (covers c i) eqn:Ec; [|exact (Hcl i)].
      apply andb_true_iff in Ec. rewrite Z.leb_le, Z.ltb_lt in Ec. by rewrite added_outside, app_nil_r by lia.
Qed.
End order.

(** ** The claim *)

(** C13. Inserting a match in order keeps a tree of matches in order, with its range,
    and changes the classes that characters are shown with only as it should: those of the
    match get its class inside of the classes they had, the others keep theirs. *)
Theorem insertion_adds_class T base p n m n' : node_ok T base n → node_ok T base m → insertAtEnd p n m = Some n' →
  node_ok T base n' ∧ m_offset n' = m_offset n ∧ m_end n' = m_end n ∧
  ∀ i, classes n' i = classes n i ++ (if covers m i then classes m i else []).
Proof.
  intros Hn Hm E. destruct (insertAtEnd_ok _ _ _ Hm _ Hn _ _ E) as [H [H1 H2]]. repeat split; try done. exact (insertAtEnd_classes _ _ _ Hm _ Hn _ _ E).
Qed.

Definition some_expr (k : string) (a : allowed) : expression :=
  {| e_klass := Some k; e_allow := a; e_disallow := None; e_only := None; e_force := false; e_owner := Some "b" |}.
Definition some_text : text := list_ascii_of_string "ab cd".
Definition some_match : node := new_Match 3 2 (some_expr "word" NoAllow) (list_ascii_of_string "cd").
Definition some_tree : node := Node 0 5 5 (some_expr "b" AllowAll) some_text [new_Match 0 2 (some_expr "word" NoAllow) (list_ascii_of_string "ab")] false.

Lemma some_match_ok : node_ok some_text 0 some_match.
Proof. constructor; try done. by constructor. Qed.
Lemma some_tree_ok : node_ok some_text 0 some_tree.
Proof. constructor; try done. constructor; [done| |by constructor]. constructor; try done. by constructor. Qed.

Lemma insertion_adds_class_witness : ∃ n', insertAtEnd [] some_tree some_match = Some n' ∧ classes n' 4 = [Some "b"; Some "word"].
Proof.
  eexists. split; [vm_compute; reflexivity|].
  destruct (insertion_adds_class some_text 0 [] some_tree some_match _ some_tree_ok some_match_ok eq_refl) as (_ & _ & _ & H).
  etrans; [exact (H 4%Z)|]. vm_compute. reflexivity.
Defined.
