(* ===== verification/SyntaxCut.v ===== *)
(** * Cutting trees of matches (about bisectAtOffsets of SyntaxTree)

    A tree in order that is cut at offsets inside it gives one tree in order for every
    piece, and the pieces lie one after the other over the whole range: the
    routine that folds all the cuts into one pass over the tree agrees with what a cut
    means.  Cutting at the ends of the lines therefore gives the lines. *)

From S2P Require Import Prelude SyntaxTree SyntaxTreeFacts.

(** ** Rising offsets *)

(** Each offset above the one before, the first above [a]. *)
Fixpoint rising (a : Z) (l : list Z) : Prop :=
  match l with [] => True | b :: l' => (a < b)%Z ∧ rising b l' end.

(** The last of them. *)
Fixpoint end_of (a : Z) (l : list Z) : Z := match l with [] => a | b :: l' => end_of b l' end.

Lemma rising_app a l l' : rising a (l ++ l') ↔ rising a l ∧ rising (end_of a l) l'.
Proof. induction l as [|b l IH] in a |- *; cbn [app rising end_of]; [by intuition|]. rewrite IH. by intuition. Qed.
Lemma end_of_app a l l' : end_of a (l ++ l') = end_of (end_of a l) l'.
Proof. induction l as [|b l IH] in a |- *; cbn [app end_of]; [done|]. by rewrite IH. Qed.
Lemma rising_end a l : rising a l → (a <= end_of a l)%Z.
Proof. induction l as [|b l IH] in a |- *; cbn [rising end_of]; [lia|]. intros [H1 H2]. apply IH in H2. lia. Qed.
Lemma rising_bounds a l : rising a l → Forall (λ b, (a < b <= end_of a l)%Z) l.
Proof.
  induction l as [|b l IH] in a |- *; cbn [rising end_of]; [done|]. intros [H1 H2]. constructor; [apply rising_end in H2; lia|].
  apply (Forall_impl _ _ _ (IH _ H2)). intros; cbn in *; lia.
Qed.

Lemma end_of_below l z : ∀ a, l ≠ [] → Forall (λ k, (k < z)%Z) l → (end_of a l < z)%Z.
Proof. induction l as [|b [|c l] IH]; intros a Hne H; [done| |]; inversion H; subst; [done|]. by apply (IH b). Qed.

(** Where an offset falls. *)
Lemma rising_at a l z : rising a l → l ≠ [] → (z <= end_of a l)%Z →
  ∃ ks b ls, l = ks ++ b :: ls ∧ Forall (λ k, (k < z)%Z) ks ∧ (z <= b)%Z.
Proof.
  induction l as [|b l IH] in a |- *; [done|]. cbn [rising end_of]. intros [H1 H2] _ Hz.
  destruct (decide (z <= b)%Z) as [|Hb]; [by exists [], b, l|].
  destruct l as [|c l]; [cbn in Hz; lia|]. destruct (IH _ H2) as (ks & b' & ls & E & Hk & Hb'); [done|done|].
  exists (b :: ks), b', ls. rewrite E. split; [done|]. split; [|done]. constructor; [lia|done].
Qed.

(** ** Sorted splits *)

Lemma insert_first z l : Forall (λ y, (z <= y)%Z) l → insert_split z l = z :: l.
Proof. destruct l as [|y l]; [done|]. intros H. inversion H; subst. cbn. by destruct (Z.leb_spec z y); [|lia]. Qed.
Lemma Forall_insert (P : Z → Prop) z l : P z → Forall P l → Forall P (insert_split z l).
Proof. intros Hz. induction 1 as [|y l Hy H IH]; cbn; [by constructor|]. destruct (z <=? y)%Z; by repeat constructor. Qed.
Lemma Forall_sort (P : Z → Prop) l : Forall P l → Forall P (sort_splits l).
Proof. induction 1 as [|y l Hy H IH]; [done|]. by apply Forall_insert. Qed.

Lemma sort_rising a ins e c outs : rising a (ins ++ [e]) → Forall (λ y, (e < y)%Z) outs →
  sort_splits ((ins ++ replicate c e ++ outs) ++ [e]) = ins ++ e :: replicate c e ++ sort_splits outs.
Proof.
  intros Hr Ho. rewrite <- !app_assoc. unfold sort_splits at 1.
  assert (Hout : sort_splits (outs ++ [e]) = e :: sort_splits outs).
  { induction Ho as [|y l Hy H IH]; [done|]. cbn [app]. unfold sort_splits in *. cbn [foldr]. rewrite IH. cbn. by destruct (Z.leb_spec y e); [lia|]. }
  assert (Hrep : foldr insert_split (e :: sort_splits outs) (replicate c e) = e :: replicate c e ++ sort_splits outs).
  { induction c as [|c IH]; [done|]. cbn [replicate foldr app]. rewrite IH. apply insert_first.
    constructor; [done|]. apply Forall_app. split; [by apply Forall_replicate|]. eapply Forall_impl; [by apply (Forall_sort _ _ Ho)|]. cbn. lia. }
  rewrite foldr_app. rewrite foldr_app. fold (sort_splits (outs ++ [e])). rewrite Hout, Hrep.
  clear Hrep Hout. induction ins as [|b ins IH] in a, Hr |- *; [done|]. cbn [foldr app]. destruct Hr as [H1 H2].
  rewrite (IH b H2). pose proof (rising_bounds _ _ H2) as Hb. rewrite end_of_app in Hb. cbn [end_of] in Hb.
  apply Forall_app in Hb as [Hb1 Hb2]. inversion Hb2; subst. apply insert_first. apply Forall_app. split.
  { eapply Forall_impl; [exact Hb1|]. cbn. lia. }
  constructor; [lia|]. apply Forall_app. split; [apply Forall_replicate; lia|]. eapply Forall_impl; [by apply (Forall_sort _ _ Ho)|]. cbn. lia.
Qed.

(** ** Pieces one after the other *)

Section cut.
Context (T : text) (base : Z).
Abbreviation node_ok := (node_ok T base).
Abbreviation chain := (chain T base).

(** Trees in order over the ranges from [a] to the first offset, and so on. *)
Fixpoint tiles (a : Z) (bs : list Z) (ns : list node) : Prop :=
  match bs, ns with
  | [], [] => True
  | b :: bs', n :: ns' => node_ok n ∧ m_offset n = a ∧ m_end n = b ∧ tiles b bs' ns'
  | _, _ => False
  end.

Lemma tiles_app a bs bs' ns ns' : tiles a bs ns → tiles (end_of a bs) bs' ns' → tiles a (bs ++ bs') (ns ++ ns').
Proof. induction bs as [|b bs IH] in a, ns |- *; destruct ns as [|n ns]; try done. cbn. intros (H1 & H2 & H3 & H4) H. by auto. Qed.
Lemma tiles_length a bs ns : tiles a bs ns → length ns = length bs.
Proof. induction bs as [|b bs IH] in a, ns |- *; destruct ns as [|n ns]; try done. cbn. intros (H1 & H2 & H3 & H4). f_equal. by eapply IH. Qed.

(** The pieces have the whole text. *)
Lemma tiles_text a bs ns : (base <= a)%Z → tiles a bs ns → rising a bs → concat (m_value <$> ns) = range T base a (end_of a bs).
Proof.
  induction bs as [|b bs IH] in a, ns |- *; destruct ns as [|n ns]; try done; cbn [tiles end_of rising fmap list_fmap concat].
  - intros _ _ _. by rewrite range_nil.
  - intros Ha (H1 & H2 & H3 & H4) [Hr1 Hr2]. subst. rewrite (IH (m_end n)), (node_value _ _ _ H1); [|lia|done|done].
    apply range_app; [done|lia|by apply rising_end].
Qed.

Definition fresh (x : expression) (n : node) : Prop := m_children n = [] ∧ m_expr n = x.

(** The first loop makes the pieces. *)
Lemma make_parts_tiles n start bs rest : node_ok n → (m_offset n <= start)%Z → rising start bs → (end_of start bs <= m_end n)%Z →
  ∃ ps, make_parts n start (bs ++ rest) = (Some <$> ps) ++ make_parts n (end_of start bs) rest ∧ tiles start bs ps ∧ Forall (fresh (m_expr n)) ps.
Proof.
  intros Hn. induction bs as [|b bs IH] in start |- *; [by exists []|]. cbn [rising end_of]. intros Hs [H1 H2] He.
  pose proof (rising_end _ _ H2). cbn [app make_parts].
  destruct (Z.ltb_spec (m_end n) b); [lia|]. destruct (Z.ltb_spec b (m_offset n)); [lia|]. destruct (Z.eqb_spec (b - start) 0); [lia|].
  destruct (Z.ltb_spec start (m_offset n)); [lia|]. cbn [orb m_end new_Match].
  replace (start + (b - start))%Z with b by lia.
  destruct (IH b) as (ps & E & Ht & Hc); [lia|done|done|]. rewrite E. eexists (_ :: ps). split; [done|].
  split; [|by constructor]. cbn [tiles]. split; [|cbn; split; [done|split; [lia|done]]].
  inversion Hn as [o e k x v l b' Ho Hoe He' Hk Hv Hl]; subst. cbn in *. constructor; try lia.
  - rewrite substr_range by lia. done.
  - constructor. lia.
Qed.

(** The splits at the end and past it. *)
Lemma make_parts_ends n d outs : (m_offset n <= m_end n)%Z → Forall (λ y, (m_end n < y)%Z) outs →
  make_parts n (m_end n) (replicate d (m_end n) ++ outs) = replicate d None.
Proof.
  intros Hn Ho. induction d as [|d IH]; cbn [replicate app make_parts].
  - destruct Ho as [|y l Hy Ho]; [done|]. cbn. by destruct (Z.ltb_spec (m_end n) y); [|lia].
  - rewrite Z.ltb_irrefl, Z.sub_diag. destruct (Z.ltb_spec (m_end n) (m_offset n)); [lia|]. cbn. by rewrite IH.
Qed.

(** ** The second loop *)

(** A piece with the classes of the characters in its range. *)
Definition piece_of (f : Z → list (option string)) (n : node) : Prop := ∀ i, (m_offset n <= i < m_end n)%Z → classes n i = f i.

(** What cutting a node from [o] to [e] gives: a piece for each split inside,
    the last piece, and a place for each split at its end. *)
Definition cuts (f : list Z → res (list (option node))) (o e : Z) (col : Z → list (option string)) : Prop :=
  ∀ ins c outs, rising o (ins ++ [e]) → Forall (λ y, (e < y)%Z) outs →
    ∃ ns, f (ins ++ replicate c e ++ outs) = Ret ((Some <$> ns) ++ replicate c None) ∧ tiles o (ins ++ [e]) ns ∧ Forall (piece_of col) ns.

Definition kid_ok (k : kid) : Prop := (m_offset k.1 < m_end k.1)%Z → cuts k.2 (m_offset k.1) (m_end k.1) (classes k.1).

(** The node has the children's classes [col] up to [lo]. *)
Definition shown_to (col : Z → list (option string)) (n : node) (lo : Z) : Prop :=
  ∀ i, (m_offset n <= i < lo)%Z → inner_classes (m_children n) i = col i.

Lemma push_child_ok n c lo col : node_ok n → chain (m_offset n) lo (m_children n) → (lo <= m_offset c)%Z → node_ok c → (m_end c <= m_end n)%Z →
  shown_to col n lo → (∀ i, (lo <= i < m_offset c)%Z → col i = []) → (∀ i, (m_offset c <= i < m_end c)%Z → classes c i = col i) →
  let n' := push_child c n in
  node_ok n' ∧ chain (m_offset n) (m_end c) (m_children n') ∧ shown_to col n' (m_end c) ∧ m_expr n' = m_expr n.
Proof.
  intros Hn Hl Hlo Hc He Hs Hgap Hcol. inversion Hn; subst. cbn in *.
  assert (H' : ∀ hi, (m_end c <= hi)%Z → chain o hi (l ++ [c])).
  { intros hi Hhi. apply chain_snoc; [|done|done]. by apply (chain_weaken _ _ o o lo (m_offset c)). }
  split; [constructor; auto|]. split; [apply H'; lia|]. split; [|done]. intros i Hi. cbn in *. destruct (decide (i < lo)%Z) as [Hlt|Hge].
  - rewrite (inner_app_before T base (m_offset c) (m_end c) l [c] i); [apply Hs; cbn; lia|constructor; [lia|done|by constructor]|lia].
  - rewrite (inner_app_after T base o lo l [c] i Hl) by lia. cbn. destruct (decide (i < m_offset c)%Z).
    + by rewrite covers_false, Hgap by lia.
    + by rewrite covers_true, Hcol by lia.
Qed.

Lemma take_within_ok b lo e kids : (lo <= b)%Z → chain lo e (fst <$> kids) → Forall kid_ok kids →
  ∃ cs r mid, take_within b kids = (cs, r) ∧ (fst <$> kids) = cs ++ (fst <$> r) ∧ (mid <= b)%Z ∧ chain lo mid cs ∧ chain mid e (fst <$> r) ∧ Forall kid_ok r ∧
    match r with [] => True | k :: _ => (b < m_end k.1)%Z end.
Proof.
  intros Hlo Hc Hk. induction Hk as [|[c f] kids Hk1 Hk IH] in lo, Hlo, Hc |- *; cbn [take_within].
  - exists [], [], lo. repeat split; try done. constructor. lia.
  - inversion Hc as [|? ? ? ? H1 H2 H3]; subst. cbn in H1, H2, H3. destruct (Z.leb_spec (m_end c) b) as [He|He].
    + destruct (IH (m_end c)) as (cs & r & mid & E & El & Hm & Ha & Hb & Hr); [done|done|]. rewrite E.
      exists (c :: cs), r, mid. split; [done|]. split; [cbn in *; by f_equal|]. split; [done|]. split; [by constructor|done].
    + exists [], ((c, f) :: kids), lo. repeat split; try done; [constructor; lia|by constructor].
Qed.

(** The pieces of a child, each in its piece. *)
Fixpoint push_all (cs ps : list node) : list node :=
  match cs, ps with c :: cs', p :: ps' => push_child c p :: push_all cs' ps' | _, _ => ps end.

Lemma push_nones parts i c : push_parts parts i (replicate c None) = Ret parts.
Proof. induction c as [|c IH] in i |- *; [done|]. apply IH. Qed.

Lemma push_parts_all dn cs ps rest c : length cs <= length ps →
  push_parts (dn ++ (Some <$> ps) ++ rest) (Z.of_nat (length dn)) ((Some <$> cs) ++ replicate c None) = Ret (dn ++ (Some <$> push_all cs ps) ++ rest).
Proof.
  induction cs as [|x cs IH] in dn, ps |- *; intros Hl; [by apply push_nones|]. destruct ps as [|p ps]; [cbn in Hl; lia|].
  cbn [fmap list_fmap app push_parts push_all]. unfold push_to. destruct (Z.ltb_spec (Z.of_nat (length dn)) 0); [lia|].
  rewrite Nat2Z.id, list_lookup_middle by done. cbn [mbind res_bind]. rewrite insert_app_r_alt, Nat.sub_diag by done. cbn [list_insert].
  pose proof (IH (dn ++ [Some (push_child x p)]) ps) as IH'. rewrite <- !app_assoc in IH'.
  rewrite length_app, Nat2Z.inj_add in IH'. apply IH'. cbn in Hl. lia.
Qed.

(** The piece that the loop is at may have children up to [lo]; those after it have none. *)
Definition ready (x : expression) (col : Z → list (option string)) (a lo : Z) (ps : list node) : Prop :=
  match ps with
  | [] => True
  | p :: ps' => chain a lo (m_children p) ∧ (lo <= m_end p)%Z ∧ shown_to col p lo ∧ m_expr p = x ∧ Forall (fresh x) ps'
  end.

Lemma ready_fresh x col a bs ps : tiles a bs ps → rising a bs → Forall (fresh x) ps → ready x col a a ps.
Proof.
  destruct bs as [|b bs], ps as [|p ps]; try done. intros (H1 & H2 & H3 & H4) [H5 H6] H. inversion H as [|? ? [Hp1 Hp2] Hps]; subst. cbn. rewrite Hp1.
  split; [constructor; lia|]. split; [lia|]. split; [|done]. intros i Hi. lia.
Qed.

(** A finished piece. *)
Definition finished (x : expression) (col : Z → list (option string)) (n : node) : Prop := m_expr n = x ∧ shown_to col n (m_end n).

(** A child from [oc] to [e'] over the pieces: those before its end are done, the
    next one has children up to its end. *)
Lemma push_all_tiles x col ks : ∀ a lo oc e' b bs p ps cs,
  tiles a (ks ++ b :: bs) (p :: ps) → ready x col a lo (p :: ps) → (lo <= oc)%Z → rising oc (ks ++ [e']) → tiles oc (ks ++ [e']) cs → (e' <= b)%Z →
  (∀ i, (lo <= i < oc)%Z → col i = []) → Forall (piece_of col) cs →
  ∃ front p' ps', push_all cs (p :: ps) = front ++ p' :: ps' ∧ length front = length ks ∧ tiles a ks front ∧ Forall (finished x col) front ∧
    tiles (end_of a ks) (b :: bs) (p' :: ps') ∧ ready x col (end_of a ks) e' (p' :: ps').
Proof.
  induction ks as [|k ks IH]; intros a lo oc e' b bs p ps cs Ht (Hr1 & Hr2 & Hr3 & Hr4 & Hr5) Hlo Hri Hcs He Hgap Hpc.
  - destruct cs as [|c [|c2 cs]]; [done| |by destruct Hcs as (_ & _ & _ & [])].
    destruct Ht as (H1 & <- & <- & H4), Hcs as (G1 & <- & <- & _). cbn [app push_all]. inversion Hpc as [|? ? Hpc1 _]; subst.
    destruct (push_child_ok p c lo col) as (K1 & K2 & K3 & K4); [done..|]. exists [], (push_child c p), ps.
    split; [by destruct ps|]. split; [done|]. split; [done|]. split; [constructor|]. cbn [end_of tiles ready]. destruct p. cbn in *. done.
  - destruct cs as [|c cs]; [done|]. destruct Ht as (H1 & <- & <- & H4), Hcs as (G1 & G2 & G3 & G4), Hri as [R1 R2]. inversion Hpc as [|? ? Hpc1 Hpc2]; subst.
    destruct (push_child_ok p c lo col) as (K1 & K2 & K3 & K4); [done|done|lia|done|lia|done|done|done|].
    destruct ps as [|p2 ps]; [by destruct ks|]. inversion Hr5 as [|? ? [Hp2 Hx2] Hps]; subst.
    destruct (IH (m_end p) (m_end p) (m_end p) e' b bs p2 ps cs) as (front & p' & ps' & E & El & F1 & F2 & F3 & F4); [done| |lia|done|done|done|lia|done|].
    { cbn. rewrite Hp2. split; [constructor; lia|]. assert (Hoff : m_offset p2 = m_end p) by (destruct ks; by destruct H4 as (J1 & J2 & _)).
      split; [destruct ks; destruct H4 as (J1 & J2 & J3 & _); pose proof (node_range _ _ _ J1); lia|]. split; [intros i Hi; lia|done]. }
    exists (push_child c p :: front), p', ps'. cbn [push_all app length end_of]. rewrite E, El. split; [done|]. split; [done|].
    split; [cbn [tiles]; destruct p; cbn in *; done|]. split; [|done]. constructor; [|done]. split; [done|]. destruct p. cbn in *. by rewrite G3 in K3.
Qed.

Lemma deal_past fuel parts i splits kids : (Z.of_nat (length parts) <= i)%Z → deal fuel parts i splits kids = Ret parts.
Proof. intros H. destruct fuel; [done|]. cbn [deal]. by destruct (Z.leb_spec (Z.of_nat (length parts)) i); [|lia]. Qed.

Lemma deal_nones fuel dn d splits kids : deal fuel (dn ++ replicate d None) (Z.of_nat (length dn)) splits kids = Ret (dn ++ replicate d None).
Proof.
  induction d as [|d IH] in fuel, dn |- *; [apply deal_past; rewrite app_nil_r; lia|].
  destruct fuel; [done|]. cbn [deal replicate]. destruct (Z.leb_spec (Z.of_nat (length (dn ++ None :: replicate d None))) (Z.of_nat (length dn))); [done|].
  rewrite Nat2Z.id, list_lookup_middle by done.
  replace (Z.of_nat (length dn) + 1)%Z with (Z.of_nat (length (dn ++ [None : option node]))) by (rewrite length_app; cbn; lia).
  rewrite cons_middle, app_assoc. apply IH.
Qed.

(** How the splits that are left cut a child across the first of them. *)
Lemma kid_cut f col a b bs e d oc e' : cuts f oc e' col → rising a (b :: bs) → end_of b bs = e → (oc < b)%Z → (b < e')%Z → (e' <= e)%Z →
  ∃ ks b' bs' c ns, b :: bs = ks ++ b' :: bs' ∧ 1 <= length ks ∧ (e' <= b')%Z ∧
    f ((b :: bs) ++ replicate d e) = Ret ((Some <$> ns) ++ replicate c None) ∧ rising oc (ks ++ [e']) ∧ tiles oc (ks ++ [e']) ns ∧
    Forall (piece_of col) ns ∧ (c = 0 ∨ c = 1 ∧ e' = b' ∨ bs' = [] ∧ c = S d ∧ e' = b').
Proof.
  intros Hf Hr He Ho Hb He'. destruct (rising_at a (b :: bs) e' Hr) as (ks & b' & bs' & E & Hks & Hb'); [done|by cbn; rewrite He|].
  assert (Hk : 1 <= length ks). { destruct ks as [|k ks]; [|cbn; lia]. injection E as <- <-. lia. }
  rewrite E in Hr. apply rising_app in Hr as [Hr1 [Hr2 Hr3]].
  assert (Hro : rising oc (ks ++ [e'])).
  { destruct ks as [|k ks]; [cbn in Hk; lia|]. injection E as <- _. destruct Hr1 as [_ Hr1]. split; [done|]. apply rising_app. split; [done|].
    split; [|done]. by apply (end_of_below (b :: ks) e' oc). }
  assert (Hend : end_of b' bs' = e). { rewrite <- He. transitivity (end_of a (b :: bs)); [|done]. rewrite E, end_of_app. done. }
  exists ks, b', bs'. rewrite E, <- app_assoc. destruct (decide (e' = b')) as [->|Hne].
  - destruct bs' as [|b2 bs'].
    + cbn in Hend. subst b'. destruct (Hf ks (S d) []) as (ns & F1 & F2 & F3); [done|done|]. rewrite app_nil_r in F1. exists (S d), ns. cbn [app]. repeat split; try done. by right; right.
    + destruct (Hf ks 1 ((b2 :: bs') ++ replicate d e)) as (ns & F1 & F2 & F3); [done| |].
      { apply Forall_app. pose proof (rising_bounds _ _ Hr3) as Hbd. split; [by eapply Forall_impl; [exact Hbd|cbn; lia]|].
        apply Forall_replicate. destruct Hr3 as [Hr3 Hr4]. apply rising_end in Hr4. cbn in Hend. lia. }
      exists 1, ns. cbn [app replicate] in *. repeat split; try done. by right; left.
  - destruct (Hf ks 0 ((b' :: bs') ++ replicate d e)) as (ns & F1 & F2 & F3); [done| |].
    { apply Forall_app. pose proof (rising_bounds _ _ Hr3) as Hbd. split.
      - constructor; [lia|]. eapply Forall_impl; [exact Hbd|cbn; lia].
      - apply Forall_replicate. apply rising_end in Hr3. lia. }
    exists 0, ns. cbn [app replicate] in *. repeat split; try done. by left.
Qed.

(** The piece the loop is at, with the children that end in it. *)
Lemma fill_ok p a lo b cs mid e r col : node_ok p → m_offset p = a → m_end p = b → chain a lo (m_children p) → chain lo mid cs → (mid <= b)%Z →
  chain mid e r → shown_to col p lo → (∀ i, (lo <= i)%Z → col i = inner_classes (cs ++ r) i) →
  let p' := set_children (m_children p ++ cs) p in
  node_ok p' ∧ m_offset p' = a ∧ m_end p' = b ∧ chain a mid (m_children p') ∧ shown_to col p' mid ∧ m_expr p' = m_expr p.
Proof.
  intros Hp <- <- H1 H2 H3 Hr Hs Hcol. assert (H : chain (m_offset p) mid (m_children p ++ cs)) by (apply chain_app; by exists lo).
  assert (Hsh : ∀ i, (m_offset p <= i < mid)%Z → inner_classes (m_children p ++ cs) i = col i).
  { intros i Hi. destruct (decide (i < lo)%Z); [rewrite (inner_app_before T base lo mid) by done; apply Hs; lia|].
    rewrite (inner_app_after T base (m_offset p) lo) by (done || lia). rewrite Hcol by lia. by rewrite (inner_app_before T base mid e) by (done || lia). }
  inversion Hp; subst. cbn in *. split; [|done]. constructor; try done. by apply (chain_weaken _ _ o o mid e0).
Qed.

Lemma last_piece dn (p : node) ps rest : dn ++ (Some <$> p :: ps) ++ rest = (dn ++ [Some p]) ++ (Some <$> ps) ++ rest.
Proof. by rewrite <- app_assoc. Qed.
Lemma front_pieces dn (front ps : list node) rest : dn ++ (Some <$> front ++ ps) ++ rest = (dn ++ (Some <$> front)) ++ (Some <$> ps) ++ rest.
Proof. by rewrite fmap_app, <- !app_assoc. Qed.

(** The classes of the children that are left. *)
Definition left_classes (col : Z → list (option string)) (lo : Z) (kids : list kid) : Prop :=
  ∀ i, (lo <= i)%Z → col i = inner_classes (fst <$> kids) i.

(** The loop with this fuel fills the pieces that are left. *)
Definition deals (x : expression) (col : Z → list (option string)) (e : Z) (d fuel : nat) : Prop := ∀ dn a lo bs ps kids,
  length ps <= fuel → tiles a bs ps → rising a bs → ready x col a lo ps → end_of a bs = e → chain lo e (fst <$> kids) → Forall kid_ok kids →
  left_classes col lo kids →
  ∃ ns, deal fuel (dn ++ (Some <$> ps) ++ replicate d None) (Z.of_nat (length dn)) (bs ++ replicate d e) kids
        = Ret (dn ++ (Some <$> ns) ++ replicate d None) ∧ tiles a bs ns ∧ Forall (finished x col) ns.

(** From a finished piece to the next one. *)
Lemma deal_next x col e d fuel dn a b bs p ps kids : deals x col e d fuel →
  length ps <= fuel → tiles a (b :: bs) (p :: ps) → rising a (b :: bs) → finished x col p → Forall (fresh x) ps → end_of b bs = e →
  chain b e (fst <$> kids) → Forall kid_ok kids → left_classes col b kids →
  ∃ ns, deal fuel (dn ++ (Some <$> p :: ps) ++ replicate d None) (Z.of_nat (length dn) + 1) (bs ++ replicate d e) kids
        = Ret (dn ++ (Some <$> ns) ++ replicate d None) ∧ tiles a (b :: bs) ns ∧ Forall (finished x col) ns.
Proof.
  intros IH Hf (Hp & Ha & Hb & Ht) [_ Hr] Hfin Hps He Hk Hok Hl. destruct (IH (dn ++ [Some p]) b b bs ps kids) as (ns & E & Hns & Hfs); try done.
  { by eapply ready_fresh. }
  exists (p :: ns). split; [|split; [done|by constructor]]. rewrite !last_piece, <- E. f_equal. rewrite length_app. cbn. lia.
Qed.

(** The loop after a child that ends in this piece, or at its end. *)
Lemma deal_after x col e d fuel dn a e' b bs p ps kids c : deals x col e d fuel → S (length ps) <= fuel →
  tiles a (b :: bs) (p :: ps) → rising a (b :: bs) → ready x col a e' (p :: ps) → end_of b bs = e → chain e' e (fst <$> kids) → Forall kid_ok kids →
  left_classes col e' kids → (c = 0 ∨ c = 1 ∧ e' = b ∨ bs = [] ∧ c = S d ∧ e' = b) →
  ∃ ns, deal fuel (dn ++ (Some <$> p :: ps) ++ replicate d None) (Z.of_nat (length dn + c)) (drop c ((b :: bs) ++ replicate d e)) kids
        = Ret (dn ++ (Some <$> ns) ++ replicate d None) ∧ tiles a (b :: bs) ns ∧ Forall (finished x col) ns.
Proof.
  intros IH Hl Ht Hr Hrd He Hk Hok Hlc Hcase. assert (Hfin : e' = b → finished x col p).
  { intros ->. destruct Ht as (_ & _ & <- & _), Hrd as (_ & _ & H3 & H4 & _). done. }
  destruct Hcase as [->|[[-> ->]|(-> & -> & ->)]].
  - rewrite Nat.add_0_r. by apply (IH dn a e').
  - replace (Z.of_nat (length dn + 1)) with (Z.of_nat (length dn) + 1)%Z by lia. apply deal_next; try done; [lia|by apply Hfin|apply Hrd].
  - destruct ps as [|q ps]; [|by destruct Ht as (_ & _ & _ & [])]. exists [p]. split; [apply deal_past; rewrite !length_app, length_replicate; cbn; lia|].
    split; [done|]. constructor; [by apply Hfin|constructor].
Qed.

(** The pieces of a child have the classes that are left. *)
Lemma pieces_within child col lo bs ns : ∀ a, tiles a bs ns → rising a bs → (lo <= m_offset child)%Z → (m_offset child <= a)%Z →
  (end_of a bs <= m_end child)%Z → (∀ i, (m_offset child <= i < m_end child)%Z → col i = classes child i) →
  Forall (piece_of (classes child)) ns → Forall (piece_of col) ns.
Proof.
  induction bs as [|b bs IH] in ns |- *; intros a Ht Hr Hlo Ha He Hcol Hns; (destruct ns as [|n ns]; [constructor|]); [done|].
  destruct Ht as (H1 & H2 & H3 & H4), Hr as [R1 R2]. inversion Hns as [|? ? Hn1 Hn2]; subst. pose proof (rising_end _ _ R2). cbn [end_of] in He.
  constructor; [|by apply (IH ns (m_end n)); try done; lia]. intros i Hi. rewrite Hcol by lia. by apply Hn1.
Qed.

(** A child that goes over the end of the piece. *)
Lemma deal_cross x col e d fuel dn a lo b bs p ps child cut kids : deals x col e d fuel →
  length ps <= fuel → tiles a (b :: bs) (p :: ps) → rising a (b :: bs) → ready x col a lo (p :: ps) → end_of b bs = e →
  chain lo e (child :: (fst <$> kids)) → kid_ok (child, cut) → Forall kid_ok kids → (m_offset child < b)%Z → (b < m_end child)%Z →
  left_classes col lo ((child, cut) :: kids) →
  ∃ ns, (child_parts ← cut ((b :: bs) ++ replicate d e);
         parts ← push_parts (dn ++ (Some <$> p :: ps) ++ replicate d None) (Z.of_nat (length dn)) child_parts;
         let n := (Z.of_nat (length child_parts) - 2)%Z in
         deal fuel parts (Z.of_nat (length dn) + n + 1) (drop 1 (drop (Z.to_nat n) ((b :: bs) ++ replicate d e))) kids)
        = Ret (dn ++ (Some <$> ns) ++ replicate d None) ∧ tiles a (b :: bs) ns ∧ Forall (finished x col) ns.
Proof.
  intros IH Hf Ht Hr Hrd He Hk Hkid Hok Hlt Hgt Hlc. inversion Hk as [|? ? ? ? K1 K2 K3]; subst.
  assert (Hcol : ∀ i, (lo <= i)%Z → col i = if covers child i then classes child i else inner_classes (fst <$> kids) i) by apply Hlc.
  destruct (kid_cut cut (classes child) a b bs (end_of b bs) d (m_offset child) (m_end child))
    as (ks & b' & bs' & c & ns & Ebs & Hks & Hbb & Ecut & Hrise & Hns & Hpc & Hcase); try done.
  { apply Hkid. cbn. lia. }
  { by eapply chain_le. }
  rewrite Ecut. cbn [mbind res_bind]. set (e := end_of b bs) in *.
  assert (Hlen : length ns = S (length ks)) by (rewrite (tiles_length _ _ _ Hns), length_app; cbn; lia).
  assert (Hlps : length (p :: ps) = length ks + S (length bs')) by (rewrite (tiles_length _ _ _ Ht), Ebs, length_app; cbn; lia).
  rewrite push_parts_all by (rewrite Hlen; cbn [length] in *; lia). cbn [mbind res_bind].
  rewrite Ebs in Ht, Hr |- *.
  destruct (push_all_tiles x col ks a lo (m_offset child) (m_end child) b' bs' p ps ns) as (front & p' & ps' & E & El & F1 & Ff & F2 & F3); try done.
  { intros i Hi. rewrite Hcol, covers_false by lia. by apply (inner_before T base (m_end child) e); [|lia]. }
  { apply (pieces_within child col lo (ks ++ [m_end child]) ns (m_offset child)); try done; [by rewrite end_of_app|].
    intros i Hi. by rewrite Hcol, covers_true by lia. }
  rewrite E. rewrite length_app, length_fmap, length_replicate, Hlen.
  replace (Z.of_nat (length dn) + (Z.of_nat (S (length ks) + c) - 2) + 1)%Z with (Z.of_nat (length dn + length ks + c)) by lia.
  rewrite drop_drop. replace (Z.to_nat (Z.of_nat (S (length ks) + c) - 2) + 1) with (length ks + c) by lia.
  rewrite front_pieces. replace (length dn + length ks) with (length (dn ++ (Some <$> front))) by (rewrite length_app, length_fmap; lia).
  rewrite <- (app_assoc ks), <- drop_drop, drop_app_length.
  assert (Hl' : S (length ps') <= fuel) by (apply tiles_length in F2; cbn [length] in *; lia).
  apply rising_app in Hr as [Hr1 Hr2].
  assert (He : end_of b' bs' = e). { change e with (end_of a (b :: bs)). rewrite Ebs, end_of_app. done. }
  destruct (deal_after x col e d fuel (dn ++ (Some <$> front)) (end_of a ks) (m_end child) b' bs' p' ps' kids c) as (ns2 & E2 & F4 & F5); try done.
  { intros i Hi. rewrite Hcol by lia. by rewrite covers_false by lia. }
  exists (front ++ ns2). rewrite E2, front_pieces. split; [done|]. split; [by apply tiles_app|by apply Forall_app].
Qed.

Lemma deal_ok x col e d fuel : deals x col e d fuel.
Proof.
  induction fuel as [|fuel IH]; intros dn a lo bs ps kids Hf Ht Hr Hrd He Hk Hok Hlc.
  { destruct ps as [|p ps]; [|cbn in Hf; lia]. destruct bs; [|done]. exists []. done. }
  destruct ps as [|p ps].
  { destruct bs; [|done]. exists []. split; [|done]. cbn [fmap list_fmap app]. apply deal_nones. }
  destruct bs as [|b bs]; [done|]. destruct Ht as (Hp & Ha & Hb & Ht), Hrd as (Hc & Hlo & Hsh & Hx & Hps). cbn [end_of] in He. cbn [length] in Hf.
  destruct (take_within_ok b lo e kids) as (cs & r & mid & Et & El & Hm & Hcs & Hrk & Hrok & Hr1); [lia|done|done|].
  destruct (fill_ok p a lo b cs mid e (fst <$> r) col) as (Hp' & Ha' & Hb' & Hc' & Hsh' & Hx'); try done.
  { intros i Hi. by rewrite <- El, Hlc. }
  assert (Hlr : left_classes col mid r).
  { intros i Hi. pose proof (chain_le _ _ _ _ _ Hcs). rewrite Hlc, El by lia. by apply (inner_app_after T base lo mid). }
  cbn [deal]. destruct (Z.leb_spec (Z.of_nat (length (dn ++ (Some <$> p :: ps) ++ replicate d None))) (Z.of_nat (length dn))) as [Hxx|_].
  { rewrite length_app in Hxx. cbn in Hxx. lia. }
  rewrite Nat2Z.id. cbn [fmap list_fmap app]. rewrite list_lookup_middle by done. rewrite Hb, Et.
  rewrite insert_app_r_alt, Nat.sub_diag by done. cbn [list_insert].
  set (p' := set_children (m_children p ++ cs) p) in *. rewrite Hx in Hx'.
  assert (Htp : tiles a (b :: bs) (p' :: ps)) by done.
  assert (Hnext : chain b e (fst <$> r) → finished x col p' ∧ left_classes col b r).
  { intros Hbr. split; [|intros i Hi; apply Hlr; lia]. split; [done|]. rewrite Hb'. intros i Hi. destruct (decide (i < mid)%Z); [apply Hsh'; lia|].
    rewrite Hlr by lia. rewrite (inner_before T base b e (fst <$> r)) by (done || lia). by apply (inner_after T base a mid); [|lia]. }
  destruct r as [|[child cut] r].
  { assert (Hbr : chain b e []) by (constructor; rewrite <- He; apply rising_end; by destruct Hr). destruct (Hnext Hbr) as [N1 N2].
    apply (deal_next x col e d fuel dn a b bs p' ps []); try done. lia. }
  destruct (Z.ltb_spec (m_offset child) b) as [Hlt|Hge].
  - inversion Hrok. apply (deal_cross x col e d fuel dn a mid b bs p' ps child cut r); try done; [lia|]. cbn [ready]. rewrite Hb'. done.
  - assert (Hbr : chain b e (fst <$> (child, cut) :: r)) by (inversion Hrk; subst; by constructor). destruct (Hnext Hbr) as [N1 N2].
    apply (deal_next x col e d fuel dn a b bs p' ps ((child, cut) :: r)); try done. lia.
Qed.

(** Cutting a tree in order. *)
Lemma bisect_cuts n : node_ok n → (m_offset n < m_end n)%Z → cuts (bisectAtOffsets n) (m_offset n) (m_end n) (classes n).
Proof.
  revert n. apply (node_ok_mut _ _ (λ n _, (m_offset n < m_end n)%Z → cuts (bisectAtOffsets n) (m_offset n) (m_end n) (classes n))
    (λ _ _ l _, Forall kid_ok (List.map (λ c, (c, bisectAtOffsets c)) l))).
  - intros o e k x v l b Ho Hoe He Hk Hv Hl Hkids Hlt ins c outs Hr Hout. cbn [bisectAtOffsets m_offset m_end] in *.
    rewrite (sort_rising o) by done. set (n := Node o e k x v l b).
    assert (Hn : node_ok n) by by constructor.
    destruct (make_parts_tiles n o (ins ++ [e]) (replicate c e ++ sort_splits outs)) as (ps & E & Ht & Hps); [done|done|done|by rewrite end_of_app|].
    rewrite <- app_assoc in E. cbn [app] in E. rewrite E, end_of_app. cbn [end_of].
    rewrite (make_parts_ends n c) by (try done; by apply Forall_sort).
    pose proof (tiles_length _ _ _ Ht) as Hlen.
    replace (take _ _) with ((ins ++ [e]) ++ replicate c e).
    2:{ symmetry. rewrite cons_middle, !app_assoc. apply take_app_length'. rewrite !length_app, length_fmap, !length_replicate, Hlen, length_app. done. }
    set (kids := List.map (λ c, (c, bisectAtOffsets c)) l) in *.
    assert (Ek : fst <$> kids = l) by (unfold kids; rewrite <- list_fmap_compose; by rewrite list_fmap_id).
    destruct (deal_ok x (inner_classes l) e c (length ((Some <$> ps) ++ replicate c None) + length l) [] o o (ins ++ [e]) ps kids) as (ns & Ed & Hns & Hf); try done.
    + rewrite length_app, length_fmap. lia.
    + by eapply ready_fresh.
    + by rewrite end_of_app.
    + by rewrite Ek.
    + intros i _. by rewrite Ek.
    + exists ns. split; [exact Ed|]. split; [done|]. apply (Forall_impl _ _ _ Hf). intros q [Q1 Q2] i Hi.
      rewrite !classes_eq, Q1. cbn [m_expr m_children n]. f_equal. by apply Q2.
  - intros. constructor.
  - intros lo hi c l Hlo Hc IHc Hl IHl. constructor; [exact IHc|done].
Qed.

Lemma tiles_ok a bs ns : tiles a bs ns → Forall node_ok ns.
Proof. induction bs as [|b bs IH] in a, ns |- *; destruct ns as [|n ns]; try done. cbn. intros (H1 & H2 & H3 & H4). constructor; [done|by eapply IH]. Qed.

Lemma tiles_ends a bs ns : tiles a bs ns → m_end <$> ns = bs.
Proof. induction bs as [|b bs IH] in a, ns |- *; destruct ns as [|n ns]; try done. cbn. intros (H1 & H2 & H3 & H4). f_equal; [done|by eapply IH]. Qed.

(** The elements of the pieces show the characters of the whole. *)
Lemma tiles_styled col bs ns : ∀ a, tiles a bs ns → rising a bs → Forall (piece_of col) ns →
  concat ((λ n, styled [] (reduce (λ h _, h) n)) <$> ns) = styles T base (λ i, shown_class <$> col i) a (end_of a bs).
Proof.
  induction bs as [|b bs IH] in ns |- *; intros a; destruct ns as [|n ns]; try done; cbn [tiles rising end_of fmap list_fmap concat].
  - intros _ _ _. unfold styles. by rewrite seqZ_nil by lia.
  - intros (H1 & H2 & H3 & H4) [R1 R2] H. inversion H as [|? ? Hn Hns]; subst. rewrite (IH ns (m_end n)) by done.
    rewrite (reduce_styled _ _ _ H1). rewrite <- (styles_app _ _ _ (m_offset n) (m_end n) (end_of (m_end n) bs)) by (pose proof (rising_end _ _ R2); lia). f_equal.
    apply styles_ext. intros i Hi. cbn. by rewrite Hn.
Qed.

Lemma somes_nones ns c : somes ((Some <$> ns) ++ replicate c None) = ns.
Proof. induction ns as [|n ns IH]; cbn; [by induction c|]. by rewrite <- IH at 2. Qed.
End cut.

(** ** Lines *)

(** The lines of a text, each with the newline at its end. *)
Fixpoint lines_of (t : text) : list text :=
  match t with
  | [] => []
  | c :: t' =>
      if Ascii.eqb c newline then [c] :: lines_of t'
      else match lines_of t' with [] => [[c]] | l :: ls => (c :: l) :: ls end
  end.

(** The end of the text and the ends of its lines, without repetition. *)
Fixpoint cut_ends (i : Z) (t : text) : list Z :=
  match t with
  | [] => []
  | c :: t' =>
      if Ascii.eqb c newline then (i + 1)%Z :: cut_ends (i + 1) t'
      else match cut_ends (i + 1) t' with [] => [(i + 1)%Z] | l => l end
  end.

Fixpoint ranges (T : text) (base a : Z) (bs : list Z) : list text :=
  match bs with [] => [] | b :: bs' => range T base a b :: ranges T base b bs' end.

Lemma tiles_values T base a bs ns : tiles T base a bs ns → m_value <$> ns = ranges T base a bs.
Proof.
  induction bs as [|b bs IH] in a, ns |- *; destruct ns as [|n ns]; try done. cbn. intros (H1 & <- & <- & H4).
  by rewrite (node_value _ _ _ H1), (IH _ _ H4).
Qed.

Lemma cut_ends_nil i t : cut_ends i t = [] → t = [].
Proof. destruct t as [|c t]; [done|]. cbn. destruct (Ascii.eqb c newline); [done|]. by destruct (cut_ends (i + 1) t). Qed.
Lemma cut_ends_rising i t : rising i (cut_ends i t).
Proof.
  induction t as [|c t IH] in i |- *; [done|]. cbn. destruct (Ascii.eqb c newline); [split; [lia|done]|].
  specialize (IH (i + 1)%Z). destruct (cut_ends (i + 1) t) as [|b bs]; cbn [rising] in *; [by split; [lia|]|]. destruct IH as [H1 H2]. by split; [lia|].
Qed.
Lemma ends_cut i t : t ≠ [] → ∃ ins c, line_ends i t = ins ++ replicate c (i + Z.of_nat (length t))%Z ∧
  cut_ends i t = ins ++ [(i + Z.of_nat (length t))%Z].
Proof.
  induction t as [|c t IH] in i |- *; [done|]. intros _. cbn [line_ends cut_ends length]. destruct t as [|c2 t].
  - cbn. destruct (Ascii.eqb c newline); [by exists [], 1|by exists [], 0].
  - destruct (IH (i + 1)%Z) as (ins & k & E1 & E2); [done|]. set (t2 := c2 :: t) in *. rewrite E1, E2.
    replace (i + Z.of_nat (S (length t2)))%Z with (i + 1 + Z.of_nat (length t2))%Z by lia.
    destruct (Ascii.eqb c newline); [by exists ((i + 1)%Z :: ins), k|]. exists ins, k. split; [done|]. by destruct ins.
Qed.

Lemma ranges_cons c T base a bs : (base + 1 <= a)%Z → rising a bs → ranges (c :: T) base a bs = ranges T (base + 1) a bs.
Proof.
  induction bs as [|b bs IH] in a |- *; [done|]. intros Ha [H1 H2]. cbn. rewrite IH by (try done; lia). f_equal.
  unfold range. replace (Z.to_nat (a - base)) with (S (Z.to_nat (a - (base + 1)))) by lia. done.
Qed.

Lemma cut_lines t : ∀ i, ranges t i i (cut_ends i t) = lines_of t.
Proof.
  induction t as [|c t IH]; intros i; [done|]. cbn [cut_ends lines_of]. specialize (IH (i + 1)%Z).
  pose proof (cut_ends_rising (i + 1) t) as Hr.
  assert (H1 : range (c :: t) i i (i + 1) = [c]). { unfold range. by replace (i + 1 - i)%Z with 1%Z by lia; rewrite Z.sub_diag. }
  destruct (Ascii.eqb c newline).
  - cbn [ranges]. rewrite ranges_cons by (try done; lia). by rewrite IH, H1.
  - rewrite <- IH. destruct (cut_ends (i + 1) t) as [|b bs] eqn:E.
    + cbn [ranges]. by rewrite H1.
    + cbn [ranges]. destruct Hr as [Hb Hr]. rewrite ranges_cons by (try done; lia). f_equal.
      unfold range. rewrite !Z.sub_diag. replace (Z.to_nat (b - i)) with (S (Z.to_nat (b - (i + 1)))) by lia. done.
Qed.

(** The pieces that the lines are shown from. *)
Lemma split_lines_ok T top : node_ok T 0 top → m_offset top = 0%Z → m_end top = Z.of_nat (length T) →
  ∃ ns, split_lines top = Ret ns ∧ m_value <$> ns = lines_of T ∧ Forall (node_ok T 0) ns ∧ Forall (piece_of (classes top)) ns ∧
    (T = [] ∧ ns = [] ∨ ∃ bs, tiles T 0 0 bs ns ∧ rising 0 bs ∧ end_of 0 bs = Z.of_nat (length T)).
Proof.
  intros Hok Ho He. unfold split_lines, split. rewrite (node_value _ _ _ Hok), Ho, He.
  assert (Hv : range T 0 0 (Z.of_nat (length T)) = T). { unfold range. rewrite Z.sub_diag, Z.sub_0_r, Nat2Z.id. apply take_ge. done. }
  rewrite Hv. destruct (decide (T = [])) as [->|Hne].
  - exists []. destruct top as [o e k x v l b]. cbn in Ho, He. subst. cbn [bisectAtOffsets line_ends].
    change (make_parts _ _ _) with [None : option node]. rewrite (deal_nones _ [] 1). repeat split; try done. by left.
  - destruct (ends_cut 0 T Hne) as (ins & c & E1 & E2). rewrite Z.add_0_l in E1, E2.
    destruct (bisect_cuts T 0 top Hok) with (ins := ins) (c := c) (outs := [] : list Z) as (ns & F1 & F2 & F3); [|..|done|].
    + rewrite Ho, He. destruct T; [done|cbn; lia].
    + rewrite Ho, He, <- E2. apply cut_ends_rising.
    + rewrite He, app_nil_r, <- E1 in F1. rewrite Ho, He in F2. rewrite F1. exists ns. cbn [mbind res_bind]. rewrite somes_nones. split; [done|].
      rewrite (tiles_values _ _ _ _ _ F2), <- E2, cut_lines. split; [done|]. split; [by eapply tiles_ok|]. split; [done|]. right.
      exists (ins ++ [Z.of_nat (length T)]). split; [done|]. rewrite <- E2. split; [apply cut_ends_rising|]. by rewrite E2, end_of_app.
Qed.

(** ** The claims *)



(** C11. Cutting the tree over a text into lines changes neither the characters that
    are shown nor their classes: the lines have the text of the lines of the text, and
    the elements of the lines show, in order, what the elements of the whole tree do. *)
Theorem lines_keep_highlighting T top : node_ok T 0 top → m_offset top = 0%Z → m_end top = Z.of_nat (length T) →
  ∃ ns, split_lines top = Ret ns ∧ m_value <$> ns = lines_of T ∧
    concat ((λ n, styled [] (reduce (λ h _, h) n)) <$> ns) = styled [] (reduce (λ h _, h) top).
Proof.
  intros Hok Ho He. destruct (split_lines_ok T top Hok Ho He) as (ns & E & Hv & Hns & Hpc & Ht). exists ns. split; [done|]. split; [done|].
  rewrite (reduce_styled _ _ _ Hok), Ho, He. destruct Ht as [[-> ->]|(bs & Ht & Hr & Hend)]; [done|].
  rewrite <- Hend. apply (tiles_styled T 0 (classes top) bs ns 0); done.
Qed.

Lemma lines_keep_highlighting_witness : ∃ ns, split_lines some_tree = Ret ns ∧ m_value <$> ns = [some_text].
Proof.
  destruct (lines_keep_highlighting some_text some_tree some_tree_ok eq_refl eq_refl) as (ns & E & Hv & _). exists ns. split; [exact E|]. rewrite Hv. vm_compute. reflexivity.
Defined.
