(* ===== verification/Patterns.v ===== *)
(** * Patterns given by their sources (RegExp of the language)

    The brushes of the syntax highlighter give their rules as the sources of regular
    expressions, and jQuery puts the sources of its own together.  Here are the expressions those sources denote, their parser, and the
    backtracking matcher of the language with its flags: classes, lazy and greedy
    repetition, captures and references back to them, lookahead, line anchors and word boundaries.  A match is a
    range of the text, and so is a capture.

    Characters are those up to 255.  Braces as quantifiers and the escapes that no
    pattern of the programs uses are refused by the parser. *)

From S2P Require Import Prelude.

(** ** Characters *)

Definition in_range (lo hi c : ascii) : bool := (N_of_ascii lo <=? N_of_ascii c)%N && (N_of_ascii c <=? N_of_ascii hi)%N.
(** [\w] *)
Definition is_word (c : ascii) : bool := in_range "a" "z" c || in_range "A" "Z" c || in_range "0" "9" c || Ascii.eqb c "_".
(** [\s] *)
Definition is_space (c : ascii) : bool := in_range "009" "013" c || Ascii.eqb c " " || Ascii.eqb c "160".
(** What ends a line for [^], [$] and [.] *)
Definition is_line_end (c : ascii) : bool := Ascii.eqb c "010" || Ascii.eqb c "013".

(** The letter that stands for a letter when case is ignored. *)
Definition canonicalize (c : ascii) : ascii :=
  if in_range "a" "z" c || (in_range "224" "254" c && negb (Ascii.eqb c "247")) then ascii_of_N (N_of_ascii c - 32) else c.
(** The other letter with that one. *)
Definition uncanonicalize (c : ascii) : ascii :=
  if in_range "A" "Z" c || (in_range "192" "222" c && negb (Ascii.eqb c "215")) then ascii_of_N (N_of_ascii c + 32) else c.

(** ** Syntax *)

Inductive item :=
| IRange (lo hi : ascii)
| IWord (neg : bool)
| ISpace (neg : bool)
| IDigit (neg : bool).

Inductive pat :=
| PEmpty
| PSet (neg : bool) (l : list item)
| PDot
| PSeq (a b : pat)
| PAlt (a b : pat)
| PStar (lazy : bool) (a : pat)
| POpt (lazy : bool) (a : pat)
| PGroup (i : nat) (a : pat)
| PLook (neg : bool) (a : pat)
| PBol
| PEol
| PBound (neg : bool)
| PBack (i : nat).

Definition PChar (c : ascii) : pat := PSet false [IRange c c].
Definition PPlus (lazy : bool) (a : pat) : pat := PSeq a (PStar lazy a).

Record flags := { ignoreCase : bool; multiline : bool; global : bool }.

Definition item_has (c : ascii) (i : item) : bool :=
  match i with
  | IRange lo hi => in_range lo hi c
  | IWord neg => xorb neg (is_word c)
  | ISpace neg => xorb neg (is_space c)
  | IDigit neg => xorb neg (is_digit c)
  end.

(** Whether the character is one of the set, up to case when that is ignored. *)
Definition set_has (f : flags) (l : list item) (c : ascii) : bool :=
  if ignoreCase f then
    let u := canonicalize c in existsb (item_has u) l || existsb (item_has (uncanonicalize u)) l
  else existsb (item_has c) l.

Fixpoint pat_groups (p : pat) : list nat :=
  match p with
  | PSeq a b | PAlt a b => pat_groups a ++ pat_groups b
  | PStar _ a | POpt _ a | PLook _ a => pat_groups a
  | PGroup i a => i :: pat_groups a
  | _ => []
  end.

(** ** Matching *)

(** A position in the text, and the ranges of the captures. *)
Record pstate := PSt { at_pos : nat; p_caps : list (option (nat * nat)) }.

Definition clear_groups (gs : list nat) (x : pstate) : pstate :=
  PSt (at_pos x) (foldr (λ i c, <[i := None]> c) (p_caps x) gs).
Definition set_group (i : nat) (from : nat) (x : pstate) : pstate :=
  PSt (at_pos x) (<[i := Some (from, at_pos x)]> (p_caps x)).

Definition first_of (a b : option pstate) : option pstate := match a with Some x => Some x | None => b end.

(** The repetitions of a body, at most [n] more of them; one that does not move is refused. *)
Fixpoint pat_loop (body : pstate → (pstate → option pstate) → option pstate) (gs : list nat) (lazy : bool)
    (k : pstate → option pstate) (n : nat) (x : pstate) : option pstate :=
  match n with
  | O => k x
  | S n' =>
      let more := body (clear_groups gs x) (λ y, if (at_pos y =? at_pos x)%nat then None else pat_loop body gs lazy k n' y) in
      if lazy then first_of (k x) more else first_of more (k x)
  end.

Section matching.
Context (f : flags) (t : list ascii).

Definition word_at (i : nat) : bool := match t !! i with Some c => is_word c | None => false end.
Definition word_before (i : nat) : bool := match i with O => false | S j => word_at j end.
Definition line_starts (i : nat) : bool :=
  match i with O => true | S j => multiline f && match t !! j with Some c => is_line_end c | None => false end end.
Definition line_stops (i : nat) : bool :=
  match t !! i with None => true | Some c => multiline f && is_line_end c end.

Definition step_if (b : ascii → bool) (x : pstate) (k : pstate → option pstate) : option pstate :=
  match t !! at_pos x with
  | Some c => if b c then k (PSt (S (at_pos x)) (p_caps x)) else None
  | None => None
  end.

(** The text that a group has captured, once more. *)
Definition step_back (i : nat) (x : pstate) (k : pstate → option pstate) : option pstate :=
  match mjoin (p_caps x !! i) with
  | None => k x
  | Some (a, b) =>
      let fold := if ignoreCase f then canonicalize else id in
      let s := take (b - a) (drop a t) in
      if decide (fold <$> take (length s) (drop (at_pos x) t) = fold <$> s) then k (PSt (at_pos x + length s) (p_caps x)) else None
  end.

Fixpoint pm (p : pat) (x : pstate) (k : pstate → option pstate) {struct p} : option pstate :=
  match p with
  | PEmpty => k x
  | PSet neg l => step_if (λ c, xorb neg (set_has f l c)) x k
  | PDot => step_if (λ c, negb (is_line_end c)) x k
  | PSeq a b => pm a x (λ y, pm b y k)
  | PAlt a b => first_of (pm a x k) (pm b x k)
  | PStar lazy a => pat_loop (pm a) (pat_groups a) lazy k (length t - at_pos x) x
  | POpt lazy a =>
      let more := pm a (clear_groups (pat_groups a) x) (λ y, if (at_pos y =? at_pos x)%nat then None else k y) in
      if lazy then first_of (k x) more else first_of more (k x)
  | PGroup i a => pm a x (λ y, k (set_group i (at_pos x) y))
  | PLook neg a =>
      match pm a x Some with
      | Some y => if neg then None else k (PSt (at_pos x) (p_caps y))
      | None => if neg then k x else None
      end
  | PBol => if line_starts (at_pos x) then k x else None
  | PEol => if line_stops (at_pos x) then k x else None
  | PBound neg => if xorb neg (xorb (word_before (at_pos x)) (word_at (at_pos x))) then k x else None
  | PBack i => step_back i x k
  end.
End matching.

(** An expression with its flags and the number of its groups. *)
Record pattern := { p_pat : pat; p_flags : flags; p_groups : nat }.

(** A match: its range, and those of the groups from 1 on. *)
Record pmatch := { mt_index : nat; mt_end : nat; mt_caps : list (option (nat * nat)) }.

Definition match_here (p : pattern) (t : list ascii) (i : nat) : option pmatch :=
  y ← pm (p_flags p) t (p_pat p) (PSt i (replicate (S (p_groups p)) None)) Some;
  Some {| mt_index := i; mt_end := at_pos y; mt_caps := p_caps y |}.

Fixpoint find_match (p : pattern) (t : list ascii) (n i : nat) : option pmatch :=
  match match_here p t i with
  | Some mt => Some mt
  | None => match n with O => None | S n' => find_match p t n' (S i) end
  end.

(** [pattern.exec(text)] of a global pattern with this [lastIndex]. *)
Definition pattern_exec (p : pattern) (t : list ascii) (lastIndex : nat) : option pmatch :=
  if (length t <? lastIndex)%nat then None else find_match p t (length t - lastIndex) lastIndex.

(** ** Parsing *)

(** A letter after a backslash, when it is a set. *)
Definition set_escape (c : ascii) : option item :=
  match c with
  | "w"%char => Some (IWord false)
  | "W"%char => Some (IWord true)
  | "s"%char => Some (ISpace false)
  | "S"%char => Some (ISpace true)
  | "d"%char => Some (IDigit false)
  | "D"%char => Some (IDigit true)
  | _ => None
  end.

(** A letter after a backslash, when it is a character. *)
Definition char_escape (c : ascii) : option ascii :=
  match c with
  | "n"%char => Some "010"%char
  | "r"%char => Some "013"%char
  | "t"%char => Some "009"%char
  | "f"%char => Some "012"%char
  | _ => if is_word c then None else Some c
  end.

(** One member of a class; a dash between characters makes a range. *)
Definition class_char (s : list ascii) : option ((ascii + item) * list ascii) :=
  match s with
  | "\"%char :: "x"%char :: a :: b :: s' => a ← hex_digit_value a; b ← hex_digit_value b; Some (inl (ascii_of_N (16 * a + b)), s')
  | "\"%char :: c :: s' =>
      match set_escape c with
      | Some i => Some (inr i, s')
      | None => c' ← char_escape c; Some (inl c', s')
      end
  | "\"%char :: [] => None
  | c :: s' => Some (inl c, s')
  | [] => None
  end.

Fixpoint parse_class (fuel : nat) (s : list ascii) : option (list item * list ascii) :=
  match fuel with
  | O => None
  | S fuel =>
      match s with
      | "]"%char :: s' => Some ([], s')
      | _ =>
          '(m, s1) ← class_char s;
          match m, s1 with
          | inl lo, "-"%char :: "]"%char :: _ => '(l, s') ← parse_class fuel s1; Some (IRange lo lo :: l, s')
          | inl lo, "-"%char :: s2 =>
              '(m2, s3) ← class_char s2;
              match m2 with
              | inl hi => '(l, s') ← parse_class fuel s3; Some (IRange lo hi :: l, s')
              | inr _ => None
              end
          | inl c, _ => '(l, s') ← parse_class fuel s1; Some (IRange c c :: l, s')
          | inr i, _ => '(l, s') ← parse_class fuel s1; Some (i :: l, s')
          end
      end
  end.

(** A quantifier after an atom. *)
Definition quantify (a : pat) (s : list ascii) : pat * list ascii :=
  match s with
  | "*"%char :: "?"%char :: s' => (PStar true a, s')
  | "*"%char :: s' => (PStar false a, s')
  | "+"%char :: "?"%char :: s' => (PPlus true a, s')
  | "+"%char :: s' => (PPlus false a, s')
  | "?"%char :: "?"%char :: s' => (POpt true a, s')
  | "?"%char :: s' => (POpt false a, s')
  | _ => (a, s)
  end.

(** [g] is the number of the next group. *)
Definition parsed := option (pat * nat * list ascii).

Definition quantified (r : parsed) : parsed := '(a, g, s) ← r; let '(a', s') := quantify a s in Some (a', g, s').

(** What follows a backslash outside a class. *)
Definition parse_escape (g : nat) (c : ascii) (s : list ascii) : parsed :=
  match c with
  | "b"%char => Some (PBound false, g, s)
  | "B"%char => Some (PBound true, g, s)
  | "1"%char | "2"%char | "3"%char | "4"%char | "5"%char | "6"%char | "7"%char | "8"%char | "9"%char =>
      quantified (Some (PBack (N.to_nat (N_of_ascii c - 48)), g, s))
  | _ =>
      quantified match set_escape c with
                 | Some i => Some (PSet false [i], g, s)
                 | None => c' ← char_escape c; Some (PChar c', g, s)
                 end
  end.

Definition closing (r : parsed) (wrap : pat → pat) : parsed :=
  '(a, g, s) ← r; match s with ")"%char :: s' => Some (wrap a, g, s') | _ => None end.

Fixpoint parse_alt (fuel : nat) (g : nat) (s : list ascii) : parsed :=
  match fuel with
  | O => None
  | S fuel =>
      '(a, g, s) ← parse_seq fuel g s;
      match s with
      | "|"%char :: s' => '(b, g, s) ← parse_alt fuel g s'; Some (PAlt a b, g, s)
      | _ => Some (a, g, s)
      end
  end
with parse_seq (fuel : nat) (g : nat) (s : list ascii) : parsed :=
  match fuel with
  | O => None
  | S fuel =>
      match s with
      | [] | ")"%char :: _ | "|"%char :: _ => Some (PEmpty, g, s)
      | _ => '(a, g, s) ← parse_term fuel g s; '(b, g, s) ← parse_seq fuel g s; Some (PSeq a b, g, s)
      end
  end
with parse_term (fuel : nat) (g : nat) (s : list ascii) : parsed :=
  match fuel with
  | O => None
  | S fuel =>
      match s with
      | "("%char :: "?"%char :: "="%char :: s' => closing (parse_alt fuel g s') (PLook false)
      | "("%char :: "?"%char :: "!"%char :: s' => closing (parse_alt fuel g s') (PLook true)
      | "("%char :: "?"%char :: ":"%char :: s' => quantified (closing (parse_alt fuel g s') id)
      | "("%char :: "?"%char :: _ => None
      | "("%char :: s' => quantified (closing (parse_alt fuel (S g) s') (PGroup g))
      | "["%char :: "^"%char :: s' => quantified ('(l, s) ← parse_class fuel s'; Some (PSet true l, g, s))
      | "["%char :: s' => quantified ('(l, s) ← parse_class fuel s'; Some (PSet false l, g, s))
      | "."%char :: s' => quantified (Some (PDot, g, s'))
      | "^"%char :: s' => Some (PBol, g, s')
      | "$"%char :: s' => Some (PEol, g, s')
      | "\"%char :: c :: s' => parse_escape g c s'
      | "\"%char :: [] | "*"%char :: _ | "+"%char :: _ | "?"%char :: _ | "{"%char :: _ | "}"%char :: _ | "]"%char :: _ => None
      | c :: s' => quantified (Some (PChar c, g, s'))
      | [] => None
      end
  end.

(** [new RegExp(source, flags)] *)
Definition RegExp (source : list ascii) (f : flags) : option pattern :=
  '(p, g, s) ← parse_alt (4 * length source + 4) 1 source;
  match s with [] => Some {| p_pat := p; p_flags := f; p_groups := g - 1 |} | _ => None end.
