(* ===== verification/PatternFacts.v ===== *)
(** * What a match of a pattern is (about Patterns)

    Every match found by the backtracking matcher is a way through the pattern, so
    that static facts about a pattern hold of all its matches: they lie in the text,
    those of a pattern that always moves are not empty, and a group that is not in a
    lookahead has captured a range inside of the match. *)

From S2P Require Import Prelude Patterns.

Section facts.
Context (f : flags) (t : list ascii).

(** ** Ways through a pattern *)

Fixpoint reach (p : pat) : pstate → pstate → Prop :=
  match p with
  | PEmpty => eq
  | PSet neg l => λ x y, ∃ c, t !! at_pos x = Some c ∧ xorb neg (set_has f l c) = true ∧ y = PSt (S (at_pos x)) (p_caps x)
  | PDot => λ x y, ∃ c, t !! at_pos x = Some c ∧ negb (is_line_end c) = true ∧ y = PSt (S (at_pos x)) (p_caps x)
  | PSeq a b => λ x y, ∃ z, reach a x z ∧ reach b z y
  | PAlt a b => λ x y, reach a x y ∨ reach b x y
  | PStar _ a => rtc (λ x y, reach a (clear_groups (pat_groups a) x) y ∧ at_pos y ≠ at_pos x)
  | POpt _ a => λ x y, y = x ∨ reach a (clear_groups (pat_groups a) x) y
  | PGroup i a => λ x y, ∃ z, reach a x z ∧ y = set_group i (at_pos x) z
  | PLook neg a => λ x y, y = x ∨ ∃ z, reach a x z ∧ y = PSt (at_pos x) (p_caps z)
  | PBol => λ x y, y = x ∧ line_starts f t (at_pos x) = true
  | PEol => λ x y, y = x ∧ line_stops f t (at_pos x) = true
  | PBound neg => λ x y, y = x ∧ xorb neg (xorb (word_before t (at_pos x)) (word_at t (at_pos x))) = true
  | PBack i => λ x y, ∃ k, y = PSt (at_pos x + k) (p_caps x) ∧ (k = 0 ∨ at_pos x + k <= length t)
  end.

Lemma first_of_inv a b x : first_of a b = Some x → a = Some x ∨ b = Some x.
Proof. destruct a; cbn; auto. Qed.

Lemma step_if_inv b x k z : step_if t b x k = Some z →
  ∃ c, t !! at_pos x = Some c ∧ b c = true ∧ k (PSt (S (at_pos x)) (p_caps x)) = Some z.
Proof. unfold step_if. destruct (t !! at_pos x) as [c|]; [|done]. destruct (b c) eqn:E; [|done]. eauto. Qed.

Lemma pat_loop_reach (R : pstate → pstate → Prop) body gs lazy k n x z :
  (∀ x k z, body x k = Some z → ∃ y, R x y ∧ k y = Some z) → pat_loop body gs lazy k n x = Some z →
  ∃ y, rtc (λ x y, R (clear_groups gs x) y ∧ at_pos y ≠ at_pos x) x y ∧ k y = Some z.
Proof.
  intros Hb. induction n as [|n IH] in x |- *; cbn [pat_loop]; [by exists x|]. intros H.
  assert (k x = Some z ∨ body (clear_groups gs x) (λ y, if (at_pos y =? at_pos x)%nat then None else pat_loop body gs lazy k n y) = Some z) as [Hk|Hm].
  { destruct lazy; apply first_of_inv in H; tauto. }
  - by exists x.
  - apply Hb in Hm as (y & Hy & Hm). destruct (Nat.eqb_spec (at_pos y) (at_pos x)); [done|].
    apply IH in Hm as (y' & Hy' & Hk). exists y'. split; [|done]. by eapply rtc_l.
Qed.

Lemma pm_reach p : ∀ x k z, pm f t p x k = Some z → ∃ y, reach p x y ∧ k y = Some z.
Proof.
  induction p as [|neg l| |a IHa b IHb|a IHa b IHb|lazy a IHa|lazy a IHa|i a IHa|neg a IHa| | |neg|bk]; intros x k z; cbn [pm reach]; intros H.
  - by exists x.
  - apply step_if_inv in H as (c & Hc & Hb & Hk). eauto 10.
  - apply step_if_inv in H as (c & Hc & Hb & Hk). eauto 10.
  - apply IHa in H as (y & Hy & H). apply IHb in H as (y' & Hy' & H). eauto.
  - apply first_of_inv in H as [H|H]; [apply IHa in H|apply IHb in H]; destruct H as (y & Hy & H); eauto.
  - by eapply pat_loop_reach.
  - assert (k x = Some z ∨ pm f t a (clear_groups (pat_groups a) x) (λ y, if (at_pos y =? at_pos x)%nat then None else k y) = Some z) as [Hk|Hm].
    { destruct lazy; apply first_of_inv in H; tauto. }
    + eauto.
    + apply IHa in Hm as (y & Hy & Hm). destruct (at_pos y =? at_pos x)%nat; [done|]. eauto.
  - apply IHa in H as (y & Hy & H). eauto 10.
  - destruct (pm f t a x Some) as [y|] eqn:E; destruct neg; try done; [|by eauto].
    apply IHa in E as (y' & Hy' & [= ->]). eauto 10.
  - destruct (line_starts f t (at_pos x)) eqn:E; [|done]. eauto.
  - destruct (line_stops f t (at_pos x)) eqn:E; [|done]. eauto.
  - destruct (xorb _ _) eqn:E; [|done]. eauto.
  - unfold step_back in H. destruct (mjoin _) as [[a b]|]; [|exists x; split; [exists 0; destruct x; cbn; rewrite Nat.add_0_r; by auto|done]]. set (s := take (b - a) (drop a t)) in *.
    destruct (decide _) as [E|]; [|done]. eexists. split; [|done]. exists (length s). split; [done|]. apply (f_equal length) in E. rewrite !length_fmap, length_take, length_drop in E. lia.
Qed.

(** ** Positions *)

Lemma reach_pos p : ∀ x y, reach p x y → at_pos x <= length t → at_pos x <= at_pos y <= length t.
Proof.
  assert (Hstep : ∀ (x : pstate) c, t !! at_pos x = Some c → S (at_pos x) <= length t) by (intros x c ?%lookup_lt_Some; lia).
  induction p as [|neg l| |a IHa b IHb|a IHa b IHb|lazy a IHa|lazy a IHa|i a IHa|neg a IHa| | |neg|bk]; cbn [reach]; intros x y H Hx.
  - subst. lia.
  - destruct H as (c & Hc & _ & ->). cbn. apply Hstep in Hc. lia.
  - destruct H as (c & Hc & _ & ->). cbn. apply Hstep in Hc. lia.
  - destruct H as (z & Hz & Hy). apply IHa in Hz; [|lia]. apply IHb in Hy; lia.
  - destruct H as [H|H]; [by apply IHa|by apply IHb].
  - induction H as [x|x z y [H1 H2] H3 IH]; [lia|]. apply IHa in H1; [|done]. cbn in H1. lia.
  - destruct H as [->|H]; [lia|]. by apply IHa in H.
  - destruct H as (z & Hz & ->). apply IHa in Hz; [|done]. done.
  - destruct H as [->|(z & Hz & ->)]; cbn; lia.
  - destruct H as [-> _]. lia.
  - destruct H as [-> _]. lia.
  - destruct H as [-> _]. lia.
  - destruct H as (k & -> & [->|H]); cbn; lia.
Qed.

(** Patterns whose matches are not empty. *)
Fixpoint moves (p : pat) : bool :=
  match p with
  | PSet _ _ | PDot => true
  | PSeq a b => moves a || moves b
  | PAlt a b => moves a && moves b
  | PGroup _ a => moves a
  | _ => false
  end.

Lemma reach_moves p : moves p = true → ∀ x y, reach p x y → at_pos x <= length t → at_pos x < at_pos y.
Proof.
  induction p as [|neg l| |a IHa b IHb|a IHa b IHb|lazy a IHa|lazy a IHa|i a IHa|neg a IHa| | |neg|bk]; cbn [moves reach]; intros Hm x y H Hx; try done.
  - destruct H as (c & Hc & _ & ->). cbn. lia.
  - destruct H as (c & Hc & _ & ->). cbn. lia.
  - destruct H as (z & Hz & Hy). pose proof (reach_pos _ _ _ Hz Hx). pose proof (reach_pos _ _ _ Hy). apply orb_true_iff in Hm as [Hm|Hm].
    + apply IHa in Hz; [|done|done]. lia.
    + apply IHb in Hy; [|done|lia]. lia.
  - apply andb_true_iff in Hm as [Ha Hb]. destruct H as [H|H]; [by apply IHa|by apply IHb].
  - destruct H as (z & Hz & ->). cbn. by apply IHa.
Qed.

(** ** Captures *)

Definition cap (x : pstate) (i : nat) : option (nat * nat) := mjoin (p_caps x !! i).

Lemma clear_length gs x : length (p_caps (clear_groups gs x)) = length (p_caps x).
Proof. unfold clear_groups. cbn. induction gs as [|i gs IH]; cbn; [done|]. by rewrite length_insert. Qed.
Lemma clear_cap gs x i : cap (clear_groups gs x) i = if bool_decide (i ∈ gs) then None else cap x i.
Proof.
  unfold cap, clear_groups. cbn. induction gs as [|j gs IH]; [done|]. cbn [foldr]. destruct (decide (i = j)) as [->|Hne].
  - rewrite bool_decide_true by set_solver. clear IH. rewrite list_lookup_insert. case_decide as Hd; [done|]. by rewrite lookup_ge_None_2 by (apply Nat.nlt_ge; tauto).
  - rewrite list_lookup_insert_ne, IH by done. by erewrite (bool_decide_ext (i ∈ j :: gs) (i ∈ gs)) by set_solver.
Qed.
Lemma set_group_cap i from x j : i < length (p_caps x) → cap (set_group i from x) j = if decide (j = i) then Some (from, at_pos x) else cap x j.
Proof.
  intros Hi. unfold cap, set_group. cbn. case_decide as Hj; [subst; by rewrite list_lookup_insert_eq|].
  by rewrite list_lookup_insert_ne.
Qed.

Lemma reach_length p : ∀ x y, reach p x y → length (p_caps y) = length (p_caps x).
Proof.
  induction p as [|neg l| |a IHa b IHb|a IHa b IHb|lazy a IHa|lazy a IHa|i a IHa|neg a IHa| | |neg|bk]; cbn [reach]; intros x y H; try (by subst); try (by destruct H as [-> _]).
  - by destruct H as (c & _ & _ & ->).
  - by destruct H as (c & _ & _ & ->).
  - destruct H as (z & Hz & Hy). by rewrite (IHb _ _ Hy), (IHa _ _ Hz).
  - destruct H as [H|H]; [by apply IHa|by apply IHb].
  - induction H as [x|x z y [H1 H2] H3 IH]; [done|]. by rewrite IH, (IHa _ _ H1), clear_length.
  - destruct H as [->|H]; [done|]. by rewrite (IHa _ _ H), clear_length.
  - destruct H as (z & Hz & ->). cbn. by rewrite length_insert, (IHa _ _ Hz).
  - destruct H as [->|(z & Hz & ->)]; [done|]. cbn. by apply IHa.
  - by destruct H as (k & -> & _).
Qed.

(** A pattern leaves the other groups alone. *)
Lemma reach_other i p : ∀ x y, i ∉ pat_groups p → reach p x y → cap y i = cap x i.
Proof.
  induction p as [|neg l| |a IHa b IHb|a IHa b IHb|lazy a IHa|lazy a IHa|j a IHa|neg a IHa| | |neg|bk]; cbn [reach pat_groups]; intros x y Hi H;
    try (by subst); try (by destruct H as [-> _]).
  - by destruct H as (c & _ & _ & ->).
  - by destruct H as (c & _ & _ & ->).
  - destruct H as (z & Hz & Hy). rewrite (IHb z y), (IHa x z); set_solver.
  - destruct H as [H|H]; [apply IHa|apply IHb]; set_solver.
  - induction H as [x|x z y [H1 H2] H3 IH]; [done|]. rewrite IH, (IHa _ _ Hi H1), clear_cap. by rewrite bool_decide_false.
  - destruct H as [->|H]; [done|]. rewrite (IHa _ _ Hi H), clear_cap. by rewrite bool_decide_false.
  - destruct H as (z & Hz & ->). unfold cap, set_group. cbn. rewrite list_lookup_insert_ne by set_solver. apply (IHa x z); [set_solver|done].
  - destruct H as [->|(z & Hz & ->)]; [done|]. by apply (IHa x z).
  - by destruct H as (k & -> & _).
Qed.

(** A group that is not in a lookahead. *)
Fixpoint inside (i : nat) (p : pat) : bool :=
  match p with
  | PSeq a b | PAlt a b => inside i a && inside i b
  | PStar _ a | POpt _ a | PGroup _ a => inside i a
  | PLook _ a => bool_decide (i ∉ pat_groups a)
  | _ => true
  end.

(** What such a group has captured lies between the start and the position. *)
Definition cap_in (lo i : nat) (x : pstate) : Prop := ∀ a b, cap x i = Some (a, b) → lo <= a <= b ∧ b <= at_pos x.

Lemma cap_in_clear lo i gs x : cap_in lo i x → cap_in lo i (clear_groups gs x).
Proof. intros H a b. rewrite clear_cap. case_bool_decide; [done|]. apply H. Qed.
Lemma cap_in_later lo i x y : cap y i = cap x i → at_pos x <= at_pos y → cap_in lo i x → cap_in lo i y.
Proof. intros Hc Hp H a b. rewrite Hc. intros Hab%H. lia. Qed.

Lemma reach_inside lo i p : ∀ x y, inside i p = true → reach p x y → lo <= at_pos x → at_pos x <= length t → cap_in lo i x → cap_in lo i y.
Proof.
  induction p as [|neg l| |a IHa b IHb|a IHa b IHb|lazy a IHa|lazy a IHa|j a IHa|neg a IHa| | |neg|bk]; cbn [reach inside]; intros x y Hi H Hlo Hx Hc;
    try (by subst); try (by destruct H as [-> _]).
  - destruct H as (c & _ & _ & ->). apply (cap_in_later _ _ x); [done|cbn; lia|done].
  - destruct H as (c & _ & _ & ->). apply (cap_in_later _ _ x); [done|cbn; lia|done].
  - apply andb_true_iff in Hi as [Ia Ib]. destruct H as (z & Hz & Hy). pose proof (reach_pos _ _ _ Hz Hx).
    apply (IHb z y); [done|done|lia|lia|]. by apply (IHa x z).
  - apply andb_true_iff in Hi as [Ia Ib]. destruct H as [H|H]; [by apply (IHa x y)|by apply (IHb x y)].
  - induction H as [x|x z y [H1 H2] H3 IH]; [done|]. pose proof (reach_pos _ _ _ H1 Hx) as Hp. cbn in Hp. apply IH; [lia|lia|].
    apply (IHa (clear_groups (pat_groups a) x) z); try done. by apply cap_in_clear.
  - destruct H as [->|H]; [done|]. apply (IHa (clear_groups (pat_groups a) x) y); try done. by apply cap_in_clear.
  - destruct H as (z & Hz & ->). pose proof (reach_pos _ _ _ Hz Hx). pose proof (IHa x z Hi Hz Hlo Hx Hc) as Hz'. intros c d.
    unfold cap, set_group. cbn. destruct (decide (i = j)) as [->|Hne]; [|rewrite list_lookup_insert_ne by done; apply Hz'].
    rewrite list_lookup_insert. case_decide; [|apply Hz']. cbn. intros [= <- <-]. lia.
  - apply bool_decide_eq_true in Hi. destruct H as [->|(z & Hz & ->)]; [done|].
    apply (cap_in_later _ _ x); [by apply (reach_other i a x z)|done|done].
  - destruct H as (k & -> & _). apply (cap_in_later _ _ x); [done|cbn; lia|done].
Qed.

(** A group that every match sets. *)
Fixpoint sets (i : nat) (p : pat) : bool :=
  match p with
  | PSeq a b => sets i b || (sets i a && bool_decide (i ∉ pat_groups b))
  | PAlt a b => sets i a && sets i b
  | PGroup j a => (i =? j)%nat || sets i a
  | _ => false
  end.

Lemma reach_sets i p : ∀ x y, sets i p = true → i < length (p_caps x) → reach p x y → is_Some (cap y i).
Proof.
  induction p as [|neg l| |a IHa b IHb|a IHa b IHb|lazy a IHa|lazy a IHa|j a IHa|neg a IHa| | |neg|bk]; cbn [reach sets]; intros x y Hi Hl H; try done.
  - destruct H as (z & Hz & Hy). pose proof (reach_length _ _ _ Hz). apply orb_true_iff in Hi as [Hi|Hi].
    + apply (IHb z y); [done|lia|done].
    + apply andb_true_iff in Hi as [Hi Hb]. apply bool_decide_eq_true in Hb. rewrite (reach_other i b z y Hb Hy). by apply (IHa x z).
  - apply andb_true_iff in Hi as [Ia Ib]. destruct H as [H|H]; [by apply (IHa x y)|by apply (IHb x y)].
  - destruct H as (z & Hz & ->). pose proof (reach_length _ _ _ Hz). unfold cap, set_group. cbn. destruct (Nat.eqb_spec i j) as [->|Hne].
    + rewrite list_lookup_insert_eq by lia. by eexists.
    + rewrite list_lookup_insert_ne by done. by apply (IHa x z).
Qed.
End facts.

(** ** Matches *)

Lemma find_match_inv p t n i mt : find_match p t n i = Some mt → i <= mt_index mt ∧ mt_index mt <= i + n ∧ match_here p t (mt_index mt) = Some mt.
Proof.
  induction n as [|n IH] in i |- *; cbn [find_match]; destruct (match_here p t i) as [mt'|] eqn:E; try done; intros H.
  - injection H as ->. unfold match_here in E. apply bind_Some in E as (y & Hy & [= <-]). cbn. split; [lia|]. split; [lia|]. unfold match_here. by rewrite Hy.
  - injection H as ->. unfold match_here in E. apply bind_Some in E as (y & Hy & [= <-]). cbn. split; [lia|]. split; [lia|]. unfold match_here. by rewrite Hy.
  - apply IH in H as (H1 & H2 & H3). split; [lia|]. split; [lia|done].
Qed.

(** The range of a match, and its way through the pattern. *)
Lemma exec_reach p t from mt : pattern_exec p t from = Some mt → ∃ y, reach (p_flags p) t (p_pat p) (PSt (mt_index mt) (replicate (S (p_groups p)) None)) y ∧
  mt_end mt = at_pos y ∧ mt_caps mt = p_caps y ∧ from <= mt_index mt <= length t.
Proof.
  unfold pattern_exec. destruct (Nat.ltb_spec (length t) from); [done|]. intros (H1 & H2 & H3)%find_match_inv.
  unfold match_here in H3. apply bind_Some in H3 as (y & Hy & [= E]). apply pm_reach in Hy as (y' & Hr & [= ->]).
  exists y. rewrite <- E in *. cbn in *. split; [done|]. split; [done|]. split; [done|lia].
Qed.

Definition mt_cap (mt : pmatch) (i : nat) : option (nat * nat) := mjoin (mt_caps mt !! i).

Lemma exec_range p t from mt : pattern_exec p t from = Some mt → from <= mt_index mt <= mt_end mt ∧ mt_end mt <= length t.
Proof. intros (y & Hr & -> & _ & Hi)%exec_reach. apply reach_pos in Hr; cbn in *; lia. Qed.
Lemma exec_moves p t from mt : moves (p_pat p) = true → pattern_exec p t from = Some mt → mt_index mt < mt_end mt.
Proof. intros Hm (y & Hr & -> & _ & Hi)%exec_reach. apply (reach_moves _ _ _ Hm) in Hr; cbn in *; lia. Qed.
Lemma exec_inside p t from mt i a b : inside i (p_pat p) = true → pattern_exec p t from = Some mt → mt_cap mt i = Some (a, b) →
  mt_index mt <= a <= b ∧ b <= mt_end mt.
Proof.
  intros Hin (y & Hr & -> & Hc & Hi)%exec_reach. unfold mt_cap. rewrite Hc.
  apply (reach_inside _ _ (mt_index mt) i _ _ _ Hin) in Hr; cbn; try lia; [apply Hr|].
  intros a' b'. unfold cap. cbn [p_caps]. destruct (_ !! i) as [o|] eqn:E; [|done]. apply (lookup_replicate (S (p_groups p))) in E as [-> _]. done.
Qed.
Lemma exec_sets p t from mt i : sets i (p_pat p) = true → i <= p_groups p → pattern_exec p t from = Some mt → is_Some (mt_cap mt i).
Proof.
  intros Hs Hi (y & Hr & _ & Hc & _)%exec_reach. unfold mt_cap. rewrite Hc. eapply reach_sets; [exact Hs| |exact Hr].
  cbn. rewrite length_replicate. lia.
Qed.

(** ** Patterns at the start of the text *)

Definition anchored (p : pattern) : bool := match p_pat p with PSeq PBol _ => negb (multiline (p_flags p)) | _ => false end.
Lemma exec_anchored p t from mt : anchored p = true → pattern_exec p t from = Some mt → mt_index mt = 0.
Proof.
  unfold anchored. destruct (p_pat p) as [| | |[] b| | | | | | | | |] eqn:Ep; try done. intros Hm (y & Hr & _)%exec_reach. rewrite Ep in Hr.
  destruct Hr as (z & [_ Hl] & _). unfold line_starts in Hl. cbn in Hl. destruct (mt_index mt); [done|]. by destruct (multiline (p_flags p)).
Qed.

(** What holds of all characters *)
Definition all_ascii (b : ascii → bool) : bool := forallb (λ n, b (ascii_of_nat n)) (seq 0 256).
Lemma all_ascii_spec b : all_ascii b = true → ∀ c, b c = true.
Proof.
  intros H c. unfold all_ascii in H. rewrite forallb_forall in H. rewrite <- (ascii_nat_embedding c). apply H. apply in_seq. pose proof (nat_ascii_bounded c). lia.
Qed.

Section characters.
Context (f : flags) (t : list ascii) (b : ascii → bool).

Definition set_within (neg : bool) (l : list item) : bool := all_ascii (λ c, implb (xorb neg (set_has f l c)) (b c)).
Lemma set_within_spec neg l c : set_within neg l = true → xorb neg (set_has f l c) = true → b c = true.
Proof. intros H Hc. apply all_ascii_spec with (c := c) in H. by rewrite Hc in H. Qed.

(** The text starts with such a character. *)
Fixpoint starts_with (p : pat) : bool :=
  match p with
  | PSet neg l => set_within neg l
  | PSeq PBol q => starts_with q
  | PSeq a _ => starts_with a
  | PAlt x y => starts_with x && starts_with y
  | PGroup _ a => starts_with a
  | _ => false
  end.
Lemma reach_starts p : starts_with p = true → ∀ x y, reach f t p x y → ∃ c, t !! at_pos x = Some c ∧ b c = true.
Proof.
  induction p as [|neg l| |a IHa q IHq|a IHa q IHq|lazy a IHa|lazy a IHa|i a IHa|neg a IHa| | |neg|bk]; cbn [starts_with reach]; intros Hs x y H; try done.
  - destruct H as (c & Hc & Hl & _). exists c. split; [done|]. by eapply set_within_spec.
  - destruct H as (z & Hz & Hy). assert (starts_with a = true ∨ (a = PBol ∧ starts_with q = true)) as [Ha|[-> Hq]] by (destruct a; auto).
    + by apply (IHa Ha x z).
    + destruct Hz as [-> _]. by apply (IHq Hq x y).
  - apply andb_true_iff in Hs as [H1 H2]. destruct H as [H|H]; [by eapply IHa|by eapply IHq].
  - destruct H as (z & Hz & _). by eapply IHa.
Qed.

(** It is made of such characters. *)
Fixpoint made_of (p : pat) : bool :=
  match p with
  | PSet neg l => set_within neg l
  | PSeq x y | PAlt x y => made_of x && made_of y
  | PStar _ a | POpt _ a | PGroup _ a => made_of a
  | PEmpty | PLook _ _ | PBol | PEol | PBound _ => true
  | PDot | PBack _ => false
  end.
Definition filled (x y : pstate) : Prop := ∀ i, at_pos x <= i < at_pos y → ∃ c, t !! i = Some c ∧ b c = true.
Lemma filled_trans x y z : filled x y → filled y z → filled x z.
Proof. intros H1 H2 i Hi. destruct (decide (i < at_pos y)); [apply H1|apply H2]; lia. Qed.
Lemma reach_made p : made_of p = true → ∀ x y, reach f t p x y → filled x y.
Proof.
  induction p as [|neg l| |a IHa q IHq|a IHa q IHq|lazy a IHa|lazy a IHa|i a IHa|neg a IHa| | |neg|bk]; cbn [made_of reach]; intros Hs x y H; try done;
    try (by (subst || destruct H as [-> _]); intros j Hj; lia).
  - destruct H as (c & Hc & Hl & ->). intros j Hj. cbn in Hj. assert (j = at_pos x) as -> by lia. exists c. split; [done|]. by eapply set_within_spec.
  - apply andb_true_iff in Hs as [H1 H2]. destruct H as (z & Hz & Hy). by eapply filled_trans; [apply IHa|apply IHq].
  - apply andb_true_iff in Hs as [H1 H2]. destruct H as [H|H]; [by apply IHa|by apply IHq].
  - induction H as [x|x z y [Hz _] _ IH]; [intros j Hj; lia|]. apply (filled_trans x z y); [|done]. by apply (IHa Hs _ _ Hz).
  - destruct H as [->|H]; [intros j Hj; lia|]. by apply (IHa Hs _ _ H).
  - destruct H as (z & Hz & ->). by apply (IHa Hs _ _ Hz).
  - destruct H as [->|(z & _ & ->)]; intros j Hj; cbn in *; lia.
Qed.
End characters.

(** A loop over a set at the end takes all that it can. *)
Section greedy.
Context (f : flags) (t : list ascii) (neg : bool) (l : list item).

Lemma loop_goes gs n x : ∃ y, pat_loop (pm f t (PSet neg l)) gs false Some n x = Some y.
Proof. destruct n as [|n]; cbn [pat_loop]; [by eexists|]. destruct (pm _ _ _ _ _); by eexists. Qed.
Lemma loop_takes_all gs n x y : length t - at_pos x <= n → pat_loop (pm f t (PSet neg l)) gs false Some n x = Some y → ∀ c, t !! at_pos y = Some c → xorb neg (set_has f l c) = false.
Proof.
  induction n as [|n IH] in x |- *; intros Hn H c Hc.
  - injection H as <-. apply lookup_lt_Some in Hc. lia.
  - change (first_of (step_if t (λ c, xorb neg (set_has f l c)) (clear_groups gs x)
      (λ y, if (at_pos y =? at_pos x)%nat then None else pat_loop (pm f t (PSet neg l)) gs false Some n y)) (Some x) = Some y) in H. unfold step_if in H. cbn [at_pos clear_groups] in H. destruct (t !! at_pos x) as [c'|] eqn:Ex; [|injection H as <-; by rewrite Hc in Ex].
    destruct (xorb neg (set_has f l c')) eqn:El; [|injection H as <-; rewrite Hc in Ex; by injection Ex as <-].
    cbn [at_pos] in H. rewrite (proj2 (Nat.eqb_neq _ _)) in H by lia. set (x' := PSt _ _) in H. destruct (loop_goes gs n x') as [z Hz].
    rewrite Hz in H. cbn in H. injection H as ->. apply (IH x'); [|done..]. cbn. apply lookup_lt_Some in Ex. lia.
Qed.
End greedy.
