(* ===== verification/SyntaxBrush.v ===== *)
(** * Brushes (jquery.syntax.core.js: Syntax.Brush, Syntax.extractMatches)

    A brush is a list of rules.  A rule finds the pieces of a text that its pattern
    matches; the captures of the pattern may be pieces of their own, a piece may be
    given to another brush, and a brush may take over the rules of another.  The
    pieces are sorted and put into a tree, which is cut into lines and shown.

    Brushes are named; the table of those that are loaded is an argument.  The code keeps
    the match it works on in a global variable, which is the state here: whether it is
    there.  Rules may call brushes for ever, so the depth of calls is bounded by an
    argument, and [Unfinished] stands for work that has not ended within it. *)

From S2P Require Import Prelude SyntaxTree Patterns.

(** ** Work *)

(** Work that reads and sets the global [match]. *)
Definition work (A : Type) : Type := bool → outcome (A * bool).

#[export] Instance work_ret : MRet work := λ A a g, Done (a, g).
#[export] Instance work_bind : MBind work := λ A B f w g, '(a, g) ← w g; f a g.

Definition set_match (there : bool) : work unit := λ _, Done (tt, there).
Definition get_match : work bool := λ g, Done (g, g).
Definition fails {A} (e : exn) : work A := λ _, Fails e.
Definition unfinished {A} : work A := λ _, Unfinished.
Definition from_res {A} (r : res A) : work A := λ g, a ← of_res r; Done (a, g).

(** ** The sources of patterns *)

Abbreviation chars := list_ascii_of_string.

(** The characters of the class in [RegExp.escape]. *)
Definition is_special (c : ascii) : bool := existsb (Ascii.eqb c) (chars "-[]{}()*+?.\^$|,#") || is_space c.

(** [RegExp.escape(pattern)] *)
Fixpoint escape (s : text) : text :=
  match s with [] => [] | c :: s' => if is_special c then "\"%char :: c :: escape s' else c :: escape s' end.

Definition starts_word (s : text) : bool := match s with c :: _ => is_word c | [] => false end.
Fixpoint ends_word (s : text) : bool := match s with [] => false | [c] => is_word c | _ :: s' => ends_word s' end.

(** [Syntax.Brush.convertStringToTokenPattern(pattern, true)] *)
Definition convertStringToTokenPattern (s : text) : text :=
  let '(prefix, postfix) :=
    if starts_word s then (chars "\b", if ends_word s then chars "\b" else chars "\B")
    else if ends_word s then (chars "\B", chars "\b") else ([], []) in
  prefix ++ escape s ++ postfix.

(** ** Rules *)

Record subrule := { s_index : option nat; s_brush : option string; s_expr : expression }.

Record rule := {
  r_pattern : option pattern;
  r_expr : expression;
  r_incremental : bool;
  r_matches : option (list (option subrule));   (* the arguments of [extractMatches] *)
  r_brush : option string;
  r_derives : option string                      (* the rule that [derives] makes *)
}.

Record brush := { b_klass : string; b_rules : list rule; b_parents : list string }.
Definition add_rule (r : rule) (b : brush) : brush :=
  {| b_klass := b_klass b; b_rules := b_rules b ++ [r]; b_parents := b_parents b |}.

Definition set_owner (o : string) (x : expression) : expression :=
  {| e_klass := e_klass x; e_allow := e_allow x; e_disallow := e_disallow x; e_only := e_only x; e_force := e_force x;
     e_owner := match e_owner x with Some o' => Some o' | None => Some o end |}.

Definition no_expr : expression :=
  {| e_klass := None; e_allow := NoAllow; e_disallow := None; e_only := None; e_force := false; e_owner := None |}.

(** [brush.derives(name)] *)
Definition derives (name : string) (b : brush) : brush :=
  {| b_klass := b_klass b; b_parents := b_parents b ++ [name];
     b_rules := b_rules b ++ [{| r_pattern := None; r_expr := no_expr; r_incremental := false; r_matches := None; r_brush := None; r_derives := Some name |}] |}.

(** A pattern as a brush writes it. *)
Inductive written :=
| WString (s : string)
| WRegExp (source : string) (options : string).

Definition flags_of (options : string) : flags :=
  let has c := existsb (Ascii.eqb c) (chars options) in
  {| ignoreCase := has "i"%char; multiline := has "m"%char; global := has "g"%char |}.

(** The rule given to [push], its pattern apart. *)
Record spec := {
  sp_expr : expression;
  sp_options : option string;
  sp_incremental : bool;
  sp_matches : option (list (option subrule));
  sp_brush : option string
}.

Definition rule_of (sp : spec) (p : option pattern) (owner : string) : rule :=
  {| r_pattern := p; r_expr := set_owner owner (sp_expr sp); r_incremental := sp_incremental sp; r_matches := sp_matches sp;
     r_brush := sp_brush sp; r_derives := None |}.

Definition source_options (sp : spec) : string := match sp_options sp with Some "" | None => "g" | Some o => o end.

(** [brush.push(rule)]; [None] for a pattern whose syntax is not covered. *)
Definition push (w : option written) (sp : spec) (b : brush) : option brush :=
  match w with
  | None => Some (add_rule (rule_of sp None (b_klass b)) b)
  | Some w =>
      p ← match w with
          | WString s => RegExp (convertStringToTokenPattern (chars s)) (flags_of (source_options sp))
          | WRegExp source options => RegExp (chars source) (flags_of options)
          end;
      Some (if global (p_flags p) then add_rule (rule_of sp (Some p) (b_klass b)) b else b)
  end.

(** The source of [brush.push(patterns, rule)]. *)
Definition token_source (w : written) : text :=
  match w with WString s => convertStringToTokenPattern (chars s) | WRegExp source _ => chars source end.
Fixpoint joined (l : list text) : text :=
  match l with [] => [] | [s] => s | s :: l' => s ++ "|"%char :: joined l' end.
Definition all_source (ws : list written) : text := "("%char :: joined (List.map token_source ws) ++ [")"%char].

Definition push_all_of (ws : list written) (sp : spec) (b : brush) : option brush :=
  p ← RegExp (all_source ws) (flags_of (source_options sp));
  Some (if global (p_flags p) then add_rule (rule_of sp (Some p) (b_klass b)) b else b).

(** ** Matches *)

Fixpoint is_prefix (u s : text) : bool :=
  match u, s with [], _ => true | c :: u', d :: s' => Ascii.eqb c d && is_prefix u' s' | _, [] => false end.

(** [s.indexOf(u)] *)
Fixpoint index_of (u s : text) (i : Z) : Z :=
  if is_prefix u s then i else match s with [] => (-1)%Z | _ :: s' => index_of u s' (i + 1) end.

Definition slice (t : text) (a b : nat) : text := take (b - a) (drop a t).

(** [match[i]] *)
Definition group (t : text) (mt : pmatch) (i : nat) : option text :=
  match i with
  | O => Some (slice t (mt_index mt) (mt_end mt))
  | _ => match mt_caps mt !! i with Some (Some (a, b)) => Some (slice t a b) | _ => None end
  end.

(** [RegExp.indexOf(match, index)] for a group with this text *)
Definition RegExp_indexOf (t : text) (mt : pmatch) (g : text) : Z :=
  (index_of g (slice t (mt_index mt) (mt_end mt)) 0 + Z.of_nat (mt_index mt))%Z.

Section brushes.
Context (brushes : list (string * brush)).

(** [Syntax.brushes[name]], of which a method is called *)
Definition the_brush (name : string) : work brush :=
  match assoc name brushes with Some b => mret b | None => fails TypeError end.

(** [owner.getRuleForKlass(klass)], the expression of the rule *)
Definition getRuleForKlass (b : brush) (k : option string) : option expression :=
  r_expr <$> List.find (λ r, bool_decide (e_klass (r_expr r) = k)) (b_rules b).
Definition rule_for (owner : string) (k : option string) : option expression := b ← assoc owner brushes; getRuleForKlass b k.

(** [jQuery.extend(match.expression, rule)] *)
Definition extend_expr (x y : expression) : expression :=
  {| e_klass := match e_klass y with Some k => Some k | None => e_klass x end;
     e_allow := match e_allow y with NoAllow => e_allow x | a => a end;
     e_disallow := match e_disallow y with Some l => Some l | None => e_disallow x end;
     e_only := match e_only y with Some l => Some l | None => e_only x end;
     e_force := e_force y || e_force x;
     e_owner := match e_owner y with Some o => Some o | None => e_owner x end |}.

Section calls.
(** [Syntax.brushes[name].buildTree(text, offset)] and [Syntax.brushes[name].getMatches(text)] *)
Context (build : string → text → Z → work node) (get : string → text → work (list node)).

(** [Syntax.Brush.buildTree(rule, text, offset)] *)
Definition build_for (name : string) (x : expression) (t : text) (offset : Z) : work node :=
  n ← build name t offset; mret (set_expr (extend_expr (m_expr n) x) n).

(** The function made by [Syntax.extractMatches(rules...)] on a match in [t]. *)
Fixpoint extractMatches (t : text) (mt : pmatch) (owner : option string) (i : nat) (rules : list (option subrule)) : work (list node) :=
  match rules with
  | [] => mret []
  | None :: rules' => extractMatches t mt owner (S i) rules'
  | Some r :: rules' =>
      match group t mt (default (S i) (s_index r)) with
      | None => fails TypeError
      | Some [] => extractMatches t mt owner (S i) rules'
      | Some g =>
          n ← match s_brush r with
              | Some name => build_for name (s_expr r) g (RegExp_indexOf t mt g)
              | None =>
                  let x := match owner with Some o => set_owner o (s_expr r) | None => s_expr r end in
                  mret (new_Match (RegExp_indexOf t mt g) (Z.of_nat (length g)) x g)
              end;
          ns ← extractMatches t mt owner (S i) rules';
          mret (n :: ns)
      end
  end.

Definition match_nodes (t : text) (r : rule) (mt : pmatch) : work (list node) :=
  let g := slice t (mt_index mt) (mt_end mt) in
  match r_matches r with
  | Some rules => extractMatches t mt (e_owner (r_expr r)) 0 rules
  | None =>
      match r_brush r with
      | Some name => n ← build_for name (r_expr r) g (Z.of_nat (mt_index mt)); mret [n]
      | None => mret [new_Match (Z.of_nat (mt_index mt)) (Z.of_nat (length g)) (r_expr r) g]
      end
  end.

(** The loop of [MatchPattern]; it ends when a pattern moves on at each round. *)
Fixpoint match_loop (fuel : nat) (t : text) (r : rule) (p : pattern) (lastIndex : nat) : work (list node) :=
  match fuel with
  | O => unfinished
  | S fuel =>
      match pattern_exec p t lastIndex with
      | None => set_match false;; mret []
      | Some mt =>
          set_match true;;
          ns ← match_nodes t r mt;
          next ← (if r_incremental r then there ← get_match; if there : bool then mret (S (mt_index mt)) else fails TypeError
                  else mret (mt_end mt));
          ns' ← match_loop fuel t r p next;
          mret (ns ++ ns')
      end
  end.

(** [Syntax.Brush.MatchPattern(text, rule)] *)
Definition MatchPattern (t : text) (r : rule) : work (list node) :=
  match r_pattern r with None => mret [] | Some p => match_loop (S (S (length t))) t r p 0 end.

Definition getMatchesForRule (t : text) (r : rule) : work (list node) :=
  match r_derives r with Some name => get name t | None => MatchPattern t r end.

Fixpoint matches_of (t : text) (rules : list rule) : work (list node) :=
  match rules with [] => mret [] | r :: rules' => ns ← getMatchesForRule t r; ns' ← matches_of t rules'; mret (ns ++ ns') end.

(** [matches.sort(Syntax.Match.sort)], which keeps the order of those that compare equal *)
Fixpoint insert_match (n : node) (l : list node) : list node :=
  match l with [] => [n] | m :: l' => if (compare_matches n m <=? 0)%Z then n :: l else m :: insert_match n l' end.
Definition sort_matches (l : list node) : list node := foldr insert_match [] l.

Definition insert_all (top : node) (ms : list node) : node := foldl (λ top m, default top (insertAtEnd [] top m)) top ms.

(** [text.replace(/\r/g, "")] *)
Definition remove_cr (t : text) : text := List.filter (λ c, negb (Ascii.eqb c "013")) t.

Fixpoint insert_extra (top : node) (ms : list node) : res node :=
  match ms with [] => Ret top | m :: ms' => top ← insert rule_for top m; insert_extra top ms' end.

(** [brush.buildTree(text, offset, additionalMatches)], given the names of its classes *)
Definition build_tree (b : brush) (klasses : work (list string)) (t : text) (offset : Z) (extra : list node) : work node :=
  let t := remove_cr t in
  ms ← matches_of t (b_rules b);
  let ms := if (0 <? offset)%Z then List.map (shift offset) ms else ms in
  ks ← klasses;
  let x := {| e_klass := Some (String.concat " " ks); e_allow := AllowAll; e_disallow := None; e_only := None; e_force := false;
              e_owner := Some (b_klass b) |} in
  let top := insert_all (new_Match offset (Z.of_nat (length t)) x t) (sort_matches ms) in
  top ← from_res (insert_extra top extra);
  mret (set_complete top).
End calls.

(** [brush.allKlasses()] *)
Fixpoint allKlasses (depth : nat) (b : brush) : work (list string) :=
  match depth with
  | O => unfinished
  | S depth =>
      ks ← (fix go (ps : list string) : work (list string) :=
        match ps with
        | [] => mret []
        | p :: ps' => b ← the_brush p; ks ← allKlasses depth b; ks' ← go ps'; mret (ks ++ ks')
        end) (b_parents b);
      mret (b_klass b :: ks)
  end.

(** The calls of brushes down to a depth. *)
Fixpoint getMatches (depth : nat) (name : string) (t : text) : work (list node) :=
  match depth with
  | O => unfinished
  | S depth => b ← the_brush name; matches_of (buildTree depth) (getMatches depth) t (b_rules b)
  end
with buildTree (depth : nat) (name : string) (t : text) (offset : Z) : work node :=
  match depth with
  | O => unfinished
  | S depth => b ← the_brush name; build_tree (buildTree depth) (getMatches depth) b (allKlasses depth b) t offset []
  end.

(** [brush.buildTree(text, 0, matches)] of the brush that the text is shown with *)
Definition top_tree (depth : nat) (b : brush) (t : text) (extra : list node) : work node :=
  build_tree (buildTree depth) (getMatches depth) b (allKlasses depth b) t 0 extra.

(** ** Elements *)

Section show.
(** [expression.process] and [owner.processes[klass]] *)
Context (own_process : expression → option (html → node → html)) (processes : string → option string → option (html → node → html)).

Definition element_process (h : html) (n : node) : html :=
  let x := m_expr n in
  let h := match own_process x with Some f => f h n | None => h end in
  match e_owner x with
  | Some o => match processes o (e_klass x) with Some f => f h n | None => h end
  | None => h
  end.

(** [brush.process(text, matches, options)]: the children of the [pre] element. *)
Definition process (depth : nat) (b : brush) (t : text) (extra : list node) : work (list html) :=
  top ← top_tree depth b t extra;
  lines ← from_res (split_lines top);
  mret (List.map (reduce element_process) lines).
End show.
End brushes.
