(* ===== verification/SyntaxClang.v ===== *)
(** * The brush for C, C++ and Objective-C (jquery.syntax.brush.clang.js, Syntax.lib)

    The rules of the brush as the file pushes them, from the sources of
    their patterns. *)

From S2P Require Import Prelude SyntaxTree Patterns SyntaxBrush.

Definition klass_expr (k : string) (allow : allowed) : expression :=
  {| e_klass := Some k; e_allow := allow; e_disallow := None; e_only := None; e_force := false; e_owner := None |}.
Definition only_expr (k : string) (only : list string) : expression :=
  {| e_klass := Some k; e_allow := NoAllow; e_disallow := None; e_only := Some only; e_force := false; e_owner := None |}.
Definition plain_spec (x : expression) : spec :=
  {| sp_expr := x; sp_options := None; sp_incremental := false; sp_matches := None; sp_brush := None |}.
Definition sub (index : option nat) (k : string) : option subrule :=
  Some {| s_index := index; s_brush := None; s_expr := klass_expr k NoAllow |}.
Definition extract_spec (subs : list (option subrule)) : spec :=
  {| sp_expr := no_expr; sp_options := None; sp_incremental := false; sp_matches := Some subs; sp_brush := None |}.

(** The quotation mark, in sources. *)
Definition dq : string := String "034" "".

(** ** Syntax.lib *)

Definition lib_rule := (written * spec)%type.

Definition cStyleComment : lib_rule := (WRegExp "\/\*[\s\S]*?\*\/" "gm", plain_spec (klass_expr "comment" (AllowList ["href"]))).
Definition cppStyleComment : lib_rule := (WRegExp "\/\/.*$" "gm", plain_spec (klass_expr "comment" (AllowList ["href"]))).
Definition perlStyleComment : lib_rule := (WRegExp "#.*$" "gm", plain_spec (klass_expr "comment" (AllowList ["href"]))).
Definition perlStyleRegularExpression : lib_rule :=
  (WRegExp ("\B\/([^\/]|\\\/)*?\/[a-z]*(?=\s*($|[^\w\s'" +:+ dq +:+ "\(]))") "gm",
   {| sp_expr := klass_expr "constant" NoAllow; sp_options := None; sp_incremental := true; sp_matches := None; sp_brush := None |}).
Definition cStyleFunction : lib_rule := (WRegExp "([a-z_][a-z0-9_]*)\s*\(" "gi", extract_spec [sub None "function"]).
Definition camelCaseType : lib_rule := (WRegExp "\b_*[A-Z][\w]*\b" "g", plain_spec (klass_expr "type" NoAllow)).
Definition cStyleType : lib_rule := (WRegExp "\b[_a-z][_\w]*_t\b" "gi", plain_spec (klass_expr "type" NoAllow)).
Definition xmlComment : lib_rule := (WRegExp "(&lt;|<)!--[\s\S]*?--(&gt;|>)" "gm", plain_spec (klass_expr "comment" NoAllow)).
Definition webLink : lib_rule := (WRegExp "\w+:\/\/[\w\-.\/?%&=@:;#]*" "g", plain_spec (klass_expr "href" NoAllow)).
Definition hexNumber : lib_rule := (WRegExp "\b0x[0-9a-fA-F]+" "g", plain_spec (klass_expr "constant" NoAllow)).
Definition decimalNumber : lib_rule := (WRegExp "\b[-+]?[0-9]*\.?[0-9]+([eE][-+]?[0-9]+)?" "g", plain_spec (klass_expr "constant" NoAllow)).
Definition doubleQuotedString : lib_rule := (WRegExp (dq +:+ "([^\\" +:+ dq +:+ "\n]|\\.)*" +:+ dq) "g", plain_spec (klass_expr "string" NoAllow)).
Definition singleQuotedString : lib_rule := (WRegExp "'([^\\'\n]|\\.)*'" "g", plain_spec (klass_expr "string" NoAllow)).
Definition multiLineDoubleQuotedString : lib_rule := (WRegExp (dq +:+ "([^\\" +:+ dq +:+ "]|\\.)*" +:+ dq) "g", plain_spec (klass_expr "string" NoAllow)).
Definition multiLineSingleQuotedString : lib_rule := (WRegExp "'([^\\']|\\.)*'" "g", plain_spec (klass_expr "string" NoAllow)).
Definition stringEscape : lib_rule := (WRegExp "\\." "g", plain_spec (only_expr "escape" ["string"])).

Definition push_lib (l : lib_rule) (b : brush) : option brush := push (Some l.1) l.2 b.

(** ** The brush *)

Definition keywords : list string := ["@interface"; "@implementation"; "@protocol"; "@end"; "@try"; "@throw"; "@catch"; "@finally";
  "@class"; "@selector"; "@encode"; "@synchronized"; "@property"; "@synthesize"; "@dynamic"; "struct"; "break"; "continue"; "else"; "for";
  "switch"; "case"; "default"; "enum"; "goto"; "register"; "sizeof"; "typedef"; "volatile"; "do"; "extern"; "if"; "return"; "static";
  "union"; "while"; "asm"; "dynamic_cast"; "namespace"; "reinterpret_cast"; "try"; "explicit"; "static_cast"; "typeid"; "catch";
  "operator"; "template"; "class"; "const_cast"; "inline"; "throw"; "virtual"; "IBOutlet"].
Definition access_words : list string :=
  ["@private"; "@protected"; "@public"; "@required"; "@optional"; "private"; "protected"; "public"; "friend"; "using"].
Definition typeModifiers : list string := ["mutable"; "auto"; "const"; "register"; "typename"; "abstract"].
Definition types : list string := ["double"; "float"; "int"; "short"; "char"; "long"; "signed"; "unsigned"; "bool"; "void"; "id"].
Definition operators : list string := ["+"; "*"; "/"; "-"; "&"; "|"; "~"; "!"; "%"; "<"; "="; ">"; "["; "]"; "new"; "delete"; "in"].
Definition values : list string := ["this"; "true"; "false"; "NULL"; "YES"; "NO"; "nil"].
Definition propertyAttributes : list string := ["getter"; "setter"; "readwrite"; "readonly"; "assign"; "retain"; "copy"; "nonatomic"].

Definition push_words (l : list string) (x : expression) (b : brush) : option brush :=
  push_all_of (List.map WString l) (plain_spec x) b.
Definition push_source (source options : string) (sp : spec) (b : brush) : option brush := push (Some (WRegExp source options)) sp b.

(** The steps of the callback of [Syntax.register("clang", ...)]. *)
Definition clang_steps : list (brush → option brush) := [
  push_words values (klass_expr "constant" NoAllow);
  push_words typeModifiers (klass_expr "keyword" NoAllow);
  push_words types (klass_expr "type" NoAllow);
  push_words keywords (klass_expr "keyword" NoAllow);
  push_words operators (klass_expr "operator" NoAllow);
  push_words access_words (klass_expr "access" NoAllow);
  push_source "@property\((.*)\)[^;]+;" "gmi" (plain_spec (klass_expr "objective-c-property" AllowAll));
  push_words propertyAttributes (only_expr "keyword" ["objective-c-property"]);
  push_source ("@(?=" +:+ dq +:+ ")") "g" (plain_spec (klass_expr "string" NoAllow));
  push_lib camelCaseType;
  push_lib cStyleType;
  push_source "(?:class|struct|enum|namespace)\s+([^{;\s]+)" "gmi" (extract_spec [sub None "type"]);
  push_source "#.*$" "gmi" (plain_spec (klass_expr "preprocessor" (AllowList ["string"])));
  push_lib cStyleComment;
  push_lib cppStyleComment;
  push_lib webLink;
  push_source "\w+:(?=.*(\]|;|\{))(?!:)" "g" (plain_spec (klass_expr "function" NoAllow));
  push_source "[^:\[]\s+(\w+)(?=\])" "g" (extract_spec [sub None "function"]);
  push_source "-\s*(\([^\)]+?\))?\s*(\w+)\s*\{" "g" (extract_spec [sub (Some 2) "function"]);
  push_lib singleQuotedString;
  push_lib doubleQuotedString;
  push_lib stringEscape;
  push_lib decimalNumber;
  push_lib hexNumber;
  push_lib cStyleFunction ].

(** [Syntax.register(name, callback)] *)
Definition register (name : string) (steps : list (brush → option brush)) : option brush :=
  foldl (λ b step, b ← b; step b) (Some {| b_klass := name; b_rules := []; b_parents := [] |}) steps.

Definition no_brush (name : string) : brush := {| b_klass := name; b_rules := []; b_parents := [] |}.
Definition clang : brush := Eval vm_compute in default (no_brush "clang") (register "clang" clang_steps).

Lemma clang_registered : register "clang" clang_steps = Some clang.
Proof. vm_compute. reflexivity. Qed.
