(* ===== verification/SyntaxBrushFacts.v ===== *)
(** * Brushes show the text (about SyntaxBrush)

    Whatever the rules of its brushes are, as long as the captures they use are not
    those of a lookahead, the lines that a brush shows are the lines of the text.
    A brush whose patterns move on and set the captures they use, and which does not call
    other brushes, always ends, and ends without an error. *)

From S2P Require Import Prelude SyntaxTree SyntaxTreeFacts SyntaxCut Patterns PatternFacts SyntaxBrush.

(** ** Work that ends as it should *)

(** Whenever the work is done, its result is as it should be. *)
Definition if_done {A} (w : work A) (Q : A → Prop) : Prop := ∀ g a g', w g = Done (a, g') → Q a.
(** The work is done, and its result is as it should be. *)
Definition is_done {A} (w : work A) (Q : A → Prop) : Prop := ∀ g, ∃ a g', w g = Done (a, g') ∧ Q a.

Lemma if_done_ret {A} (a : A) (Q : A → Prop) : Q a → if_done (mret a) Q.
Proof. by intros H g a' g' [= <- <-]. Qed.
Lemma if_done_bind {A B} (w : work A) (k : A → work B) P Q : if_done w P → (∀ a, P a → if_done (k a) Q) → if_done (w ≫= k) Q.
Proof.
  intros Hw Hk g b g'. unfold mbind, work_bind. destruct (w g) as [[a g1]|e|] eqn:E; try done. apply Hk. by eapply Hw.
Qed.
Lemma if_done_true {A} (w : work A) : if_done w (λ _, True).
Proof. done. Qed.
Lemma if_done_weaken {A} (w : work A) (P Q : A → Prop) : if_done w P → (∀ a, P a → Q a) → if_done w Q.
Proof. intros H HPQ g a g' E. by eapply HPQ, H. Qed.
Lemma if_done_fails {A} e (Q : A → Prop) : if_done (fails e) Q.
Proof. done. Qed.
Lemma if_done_unfinished {A} (Q : A → Prop) : if_done unfinished Q.
Proof. done. Qed.
Lemma if_done_res {A} (r : res A) (Q : A → Prop) : (∀ a, r = Ret a → Q a) → if_done (from_res r) Q.
Proof. intros H g a g'. unfold from_res. destruct r as [x|e]; [|done]. intros [= <- <-]. by apply H. Qed.

Lemma work_step {A B} (w : work A) (k : A → work B) g a g' : w g = Done (a, g') → (w ≫= k) g = k a g'.
Proof. intros E. unfold mbind, work_bind. by rewrite E. Qed.
Lemma is_done_ret {A} (a : A) (Q : A → Prop) : Q a → is_done (mret a) Q.
Proof. intros H g. by exists a, g. Qed.
Lemma is_done_bind {A B} (w : work A) (k : A → work B) P Q : is_done w P → (∀ a, P a → is_done (k a) Q) → is_done (w ≫= k) Q.
Proof.
  intros Hw Hk g. destruct (Hw g) as (a & g1 & E & Ha). destruct (Hk a Ha g1) as (b & g2 & E2 & Hb). exists b, g2. split; [|done].
  by etrans; [eapply work_step|].
Qed.
Lemma is_done_res {A} (a : A) (Q : A → Prop) : Q a → is_done (from_res (Ret a)) Q.
Proof. intros H g. by exists a, g. Qed.

Create HintDb done_db.
#[export] Hint Resolve if_done_true if_done_fails if_done_unfinished : done_db.

(** ** Pieces of a text *)

(** A tree over a part of the text is one over the text. *)
Lemma part_of_text T base T' off : (base <= off)%Z → (off + Z.of_nat (length T') <= base + Z.of_nat (length T))%Z →
  T' = range T base off (off + Z.of_nat (length T')) → ∀ n, node_ok T' off n → node_ok T base n.
Proof.
  intros Hb He HT. apply (node_ok_mut _ _ (λ n _, node_ok T base n) (λ lo hi l _, chain T base lo hi l)).
  - intros o e k x v l b Ho Hoe Hee Hk Hv Hl IH. constructor; try done; try lia. rewrite Hv, HT. unfold range.
    rewrite skipn_firstn_comm, firstn_firstn, drop_drop. f_equal; [lia|]. f_equal. lia.
  - intros. by constructor.
  - intros. by constructor.
Qed.

Lemma shift_ok T base off n : node_ok T base n → node_ok T (base + off) (shift off n).
Proof.
  revert n. apply (node_ok_mut _ _ (λ n _, node_ok T (base + off) (shift off n)) (λ lo hi l _, chain T (base + off) (lo + off) (hi + off) (List.map (shift off) l))).
  - intros o e k x v l b Ho Hoe He Hk Hv Hl IH. cbn [shift]. constructor; try lia; [|done].
    rewrite Hv. unfold range. f_equal; [lia|]. f_equal. lia.
  - intros. constructor. lia.
  - intros lo hi c l Hlo Hc IHc Hl IHl. cbn [List.map]. destruct c as [o e k x v cs b]. constructor; [cbn in *; lia|done|done].
Qed.

Lemma Forall_insert_match (P : node → Prop) n l : P n → Forall P l → Forall P (insert_match n l).
Proof. intros Hn. induction 1 as [|m l Hm Hl IH]; cbn; [by constructor|]. destruct (compare_matches n m <=? 0)%Z; by repeat constructor. Qed.
Lemma Forall_sort_matches (P : node → Prop) l : Forall P l → Forall P (sort_matches l).
Proof. induction 1; [constructor|]. by apply Forall_insert_match. Qed.

(** The tree over the whole text [T] from [base]. *)
Definition tree_over (T : text) (base : Z) (n : node) : Prop :=
  node_ok T base n ∧ m_offset n = base ∧ m_end n = (base + Z.of_nat (length T))%Z.

Lemma new_tree T base x : tree_over T base (new_Match base (Z.of_nat (length T)) x T).
Proof.
  split; [|done]. constructor; try lia; [|constructor; lia].
  unfold range. rewrite Z.sub_diag. replace (base + Z.of_nat (length T) - base)%Z with (Z.of_nat (length T)) by lia.
  rewrite Nat2Z.id. cbn. symmetry. by apply take_ge.
Qed.

Lemma insert_all_over T base ms top : Forall (node_ok T base) ms → tree_over T base top → tree_over T base (insert_all top ms).
Proof.
  intros Hms. induction Hms as [|m ms Hm Hms IH] in top |- *; [done|]. intros (H1 & H2 & H3). apply IH. unfold tree_over.
  destruct (insertAtEnd [] top m) as [n|] eqn:E; [|done]. destruct (insertAtEnd_ok _ _ _ Hm _ H1 _ _ E) as [Hn [E1 E2]].
  cbn. by rewrite E1, E2.
Qed.

Lemma set_complete_over T base n : tree_over T base n → tree_over T base (set_complete n).
Proof. intros (H1 & H2 & H3). destruct n. inversion H1; subst. split; [by constructor|done]. Qed.
Lemma set_expr_over T base x n : tree_over T base n → tree_over T base (set_expr x n).
Proof. intros (H1 & H2 & H3). split; [by apply set_expr_ok|by destruct n]. Qed.

(** ** Slices *)

Lemma slice_length t a b : a <= b <= length t → length (slice t a b) = b - a.
Proof. intros. unfold slice. rewrite length_take, length_drop. lia. Qed.
Lemma slice_range t a b : slice t a b = range t 0 (Z.of_nat a) (Z.of_nat b).
Proof. unfold slice, range. f_equal; [lia|]. f_equal. lia. Qed.

(** The node of a piece of the text. *)
Lemma piece_ok t a g x : (Z.of_nat a + Z.of_nat (length g) <= Z.of_nat (length t))%Z → g = slice t a (a + length g) →
  node_ok t 0 (new_Match (Z.of_nat a) (Z.of_nat (length g)) x g).
Proof.
  intros Hl Hg. constructor; try lia; [|constructor; lia]. rewrite Hg at 1. rewrite slice_range. f_equal. lia.
Qed.

(** The tree of a piece of the text. *)
Lemma part_ok t a g n : (Z.of_nat a + Z.of_nat (length g) <= Z.of_nat (length t))%Z → g = slice t a (a + length g) →
  tree_over g (Z.of_nat a) n → node_ok t 0 n.
Proof.
  intros Hl Hg (H & _). apply (part_of_text t 0 g (Z.of_nat a)); [lia|lia| |done]. rewrite Hg at 1. rewrite slice_range. f_equal. lia.
Qed.

Lemma is_prefix_spec u s : is_prefix u s = true ↔ take (length u) s = u ∧ length u <= length s.
Proof.
  induction u as [|c u IH] in s |- *; destruct s as [|d s]; cbn; try (by intuition lia).
  rewrite andb_true_iff, Ascii.eqb_eq, IH. split; [intros [-> [-> ?]]; split; [done|lia]|intros [[= -> ->] ?]; split; [done|split; [done|lia]]].
Qed.

(** A text that occurs is found, where it occurs. *)
Lemma index_of_found u s i : (∃ p, is_prefix u (drop p s) = true) →
  ∃ p, index_of u s i = (i + Z.of_nat p)%Z ∧ take (length u) (drop p s) = u ∧ p + length u <= length s.
Proof.
  induction s as [|c s IH] in i |- *; intros [p Hp]; cbn [index_of].
  - rewrite drop_nil in Hp. rewrite Hp. apply is_prefix_spec in Hp as [H1 H2]. exists 0. split; [lia|done].
  - destruct (is_prefix u (c :: s)) eqn:E.
    + apply is_prefix_spec in E as [H1 H2]. exists 0. split; [lia|done].
    + destruct p as [|p]; [by cbn in Hp; rewrite Hp in E|]. destruct (IH (i + 1)%Z) as (q & E1 & E2 & E3); [by exists p|].
      exists (S q). split; [lia|]. split; [done|]. cbn. lia.
Qed.

Lemma indexOf_piece t mt g a b : mt_index mt <= a <= b → b <= mt_end mt → mt_end mt <= length t → g = slice t a b →
  ∃ p, RegExp_indexOf t mt g = Z.of_nat p ∧ g = slice t p (p + length g) ∧ p + length g <= length t.
Proof.
  intros Ha Hb He Hg. unfold RegExp_indexOf. set (m0 := slice t (mt_index mt) (mt_end mt)).
  assert (Hlen : length g = b - a) by (rewrite Hg; apply slice_length; lia).
  assert (Hl0 : length m0 = mt_end mt - mt_index mt) by (apply slice_length; lia).
  assert (Hdrop : ∀ p, p + length g <= length m0 → take (length g) (drop p m0) = slice t (mt_index mt + p) (mt_index mt + p + length g)).
  { intros p Hp. unfold m0, slice. rewrite skipn_firstn_comm, firstn_firstn, drop_drop. f_equal. lia. }
  destruct (index_of_found g m0 0) as (p & E1 & E2 & E3).
  { exists (a - mt_index mt). apply is_prefix_spec. rewrite Hdrop by lia. split; [|rewrite length_drop; lia].
    transitivity (slice t a b); [f_equal; lia|done]. }
  exists (mt_index mt + p). rewrite E1. split; [lia|]. rewrite <- Hdrop, E2 by lia. split; [done|lia].
Qed.

(** ** Rules *)

(** The captures that are used are not in lookaheads. *)
Fixpoint uses_inside (p : pat) (i : nat) (rules : list (option subrule)) : bool :=
  match rules with
  | [] => true
  | None :: rules' => uses_inside p (S i) rules'
  | Some r :: rules' => inside (default (S i) (s_index r)) p && uses_inside p (S i) rules'
  end.
Definition rule_inside (r : rule) : bool :=
  match r_pattern r, r_matches r with Some p, Some rules => uses_inside (p_pat p) 0 rules | _, _ => true end.

Definition no_cr (t : text) : Prop := Forall (λ c, c ≠ "013"%char) t.

Lemma remove_cr_none t : no_cr (remove_cr t).
Proof.
  unfold remove_cr. induction t as [|c t IH]; cbn; [constructor|]. destruct (Ascii.eqb_spec c "013"); cbn; [done|]. by constructor.
Qed.
Lemma remove_cr_id t : no_cr t → remove_cr t = t.
Proof. induction 1 as [|c t Hc Ht IH]; [done|]. cbn. destruct (Ascii.eqb_spec c "013"); [done|]. cbn. by f_equal. Qed.
Lemma no_cr_slice t a b : no_cr t → no_cr (slice t a b).
Proof. intros H. unfold slice. by apply Forall_take, Forall_drop. Qed.

Lemma group_piece p t from mt i g : pattern_exec p t from = Some mt → inside i (p_pat p) = true → group t mt i = Some g →
  ∃ a b, mt_index mt <= a <= b ∧ b <= mt_end mt ∧ g = slice t a b.
Proof.
  intros He Hi Hg. pose proof (exec_range _ _ _ _ He). destruct i as [|i]; cbn [group] in Hg.
  - injection Hg as <-. exists (mt_index mt), (mt_end mt). split; [lia|]. split; [lia|done].
  - destruct (mt_caps mt !! S i) as [[[a b]|]|] eqn:E; try done. injection Hg as <-.
    assert (mt_cap mt (S i) = Some (a, b)) as Hc by (unfold mt_cap; by rewrite E).
    destruct (exec_inside _ _ _ _ _ _ _ Hi He Hc). by exists a, b.
Qed.

Section rules.
Context (build : string → text → Z → work node) (get : string → text → work (list node)).
Context (Hbuild : ∀ name t off, no_cr t → (0 <= off)%Z → if_done (build name t off) (tree_over t off)).
Context (Hget : ∀ name t, no_cr t → if_done (get name t) (Forall (node_ok t 0))).

Lemma build_for_over name x t off : no_cr t → (0 <= off)%Z → if_done (build_for build name x t off) (tree_over t off).
Proof.
  intros Ht Ho. eapply if_done_bind; [by apply Hbuild|]. intros n Hn. apply if_done_ret. by apply set_expr_over.
Qed.

Lemma extract_ok p t from mt owner rules i : no_cr t → pattern_exec p t from = Some mt → uses_inside (p_pat p) i rules = true →
  if_done (extractMatches build t mt owner i rules) (Forall (node_ok t 0)).
Proof.
  intros Ht He. pose proof (exec_range _ _ _ _ He). induction rules as [|[r|] rules IH] in i |- *; cbn [uses_inside extractMatches]; intros Hu.
  - apply if_done_ret. constructor.
  - apply andb_true_iff in Hu as [Hin Hu]. destruct (group t mt (default (S i) (s_index r))) as [g|] eqn:Eg; [|apply if_done_fails].
    destruct (group_piece _ _ _ _ _ _ He Hin Eg) as (a & b & Ha & Hb & Hg). destruct g as [|c g0]; [by apply IH|]. set (g := c :: g0) in *.
    destruct (indexOf_piece t mt g a b) as (q & Eq & Hq & Hl); [done|done|lia|done|]. rewrite Eq.
    assert (Hgr : no_cr g) by (rewrite Hg; by apply no_cr_slice).
    eapply if_done_bind with (P := node_ok t 0).
    + destruct (s_brush r) as [name|].
      * eapply if_done_weaken; [apply build_for_over; [done|lia]|]. intros n Hn. eapply part_ok; [|exact Hq|exact Hn]. lia.
      * apply if_done_ret. apply piece_ok; [lia|done].
    + intros n Hn. eapply if_done_bind; [by apply IH|]. intros ns Hns. apply if_done_ret. by constructor.
  - by apply IH.
Qed.

Lemma match_nodes_ok r p t from mt : no_cr t → rule_inside r = true → r_pattern r = Some p → pattern_exec p t from = Some mt →
  if_done (match_nodes build t r mt) (Forall (node_ok t 0)).
Proof.
  intros Ht Hr Hp He. unfold rule_inside in Hr. rewrite Hp in Hr. unfold match_nodes. pose proof (exec_range _ _ _ _ He).
  destruct (r_matches r) as [rules|]; [by eapply extract_ok|]. set (g := slice t (mt_index mt) (mt_end mt)).
  assert (Hlen : length g = mt_end mt - mt_index mt) by (apply slice_length; lia).
  assert (Hg : g = slice t (mt_index mt) (mt_index mt + length g)) by (unfold g at 1; f_equal; lia).
  destruct (r_brush r) as [name|].
  - eapply if_done_bind; [apply build_for_over; [by apply no_cr_slice|lia]|]. intros n Hn. apply if_done_ret. constructor; [|constructor].
    eapply part_ok; [|exact Hg|exact Hn]. lia.
  - apply if_done_ret. constructor; [|constructor]. apply piece_ok; [lia|done].
Qed.

Lemma match_loop_ok fuel r p t : no_cr t → rule_inside r = true → r_pattern r = Some p →
  ∀ from, if_done (match_loop build fuel t r p from) (Forall (node_ok t 0)).
Proof.
  intros Ht Hr Hp. induction fuel as [|fuel IH]; intros from; cbn [match_loop]; [apply if_done_unfinished|].
  destruct (pattern_exec p t from) as [mt|] eqn:He.
  - eapply if_done_bind; [apply if_done_true|]. intros _ _. eapply if_done_bind; [by eapply match_nodes_ok|]. intros ns Hns.
    eapply if_done_bind; [apply if_done_true|]. intros next _. eapply if_done_bind; [apply IH|]. intros ns' Hns'.
    apply if_done_ret. by apply Forall_app.
  - eapply if_done_bind; [apply if_done_true|]. intros _ _. apply if_done_ret. constructor.
Qed.

Lemma matches_of_ok t rules : no_cr t → Forall (λ r, rule_inside r = true) rules → if_done (matches_of build get t rules) (Forall (node_ok t 0)).
Proof.
  intros Ht Hr. induction Hr as [|r rules Hr Hrs IH]; cbn [matches_of]; [apply if_done_ret; constructor|].
  eapply if_done_bind with (P := Forall (node_ok t 0)).
  - unfold getMatchesForRule. destruct (r_derives r) as [name|]; [by apply Hget|].
    unfold MatchPattern. destruct (r_pattern r) as [p|] eqn:Ep; [by apply match_loop_ok|]. apply if_done_ret. constructor.
  - intros ns Hns. eapply if_done_bind; [exact IH|]. intros ns' Hns'. apply if_done_ret. by apply Forall_app.
Qed.

Lemma shifted_ok t off ms : (0 <= off)%Z → Forall (node_ok t 0) ms → Forall (node_ok t off) (if (0 <? off)%Z then List.map (shift off) ms else ms).
Proof.
  intros Ho H. destruct (Z.ltb_spec 0 off).
  - apply Forall_map. apply (Forall_impl _ _ _ H). intros n Hn. by apply (shift_ok t 0 off n).
  - by replace off with 0%Z by lia.
Qed.

Lemma build_tree_over brushes b klasses t off : (0 <= off)%Z → Forall (λ r, rule_inside r = true) (b_rules b) →
  if_done (build_tree brushes build get b klasses t off []) (tree_over (remove_cr t) off).
Proof.
  intros Ho Hr. eapply if_done_bind; [apply matches_of_ok; [apply remove_cr_none|done]|]. intros ms Hms.
  eapply if_done_bind; [apply if_done_true|]. intros ks _. eapply if_done_bind with (P := tree_over (remove_cr t) off).
  - apply if_done_res. intros n [= <-]. apply insert_all_over; [|apply new_tree]. by apply Forall_sort_matches, shifted_ok.
  - intros n Hn. apply if_done_ret. by apply set_complete_over.
Qed.
End rules.

(** ** Brushes that call each other *)

Section brushes.
Context (brushes : list (string * brush)).

Definition brush_inside (b : brush) : Prop := Forall (λ r, rule_inside r = true) (b_rules b).
Context (Hbrushes : Forall (λ nb, brush_inside nb.2) brushes).

Lemma the_brush_inside name : if_done (the_brush brushes name) brush_inside.
Proof.
  unfold the_brush. destruct (assoc name brushes) as [b|] eqn:E; [|apply if_done_fails]. apply if_done_ret.
  apply assoc_elem in E. rewrite Forall_forall in Hbrushes. by apply (Hbrushes (name, b)).
Qed.

Lemma calls_ok depth : (∀ name t, no_cr t → if_done (getMatches brushes depth name t) (Forall (node_ok t 0))) ∧
  (∀ name t off, no_cr t → (0 <= off)%Z → if_done (buildTree brushes depth name t off) (tree_over t off)).
Proof.
  induction depth as [|depth [IH1 IH2]]; (split; [intros name t Ht|intros name t off Ht Ho]); cbn [getMatches buildTree]; auto with done_db.
  - eapply if_done_bind; [apply the_brush_inside|]. intros b Hb. by apply matches_of_ok.
  - eapply if_done_bind; [apply the_brush_inside|]. intros b Hb. rewrite <- (remove_cr_id t Ht) at 2. by apply build_tree_over.
Qed.

Lemma top_tree_over depth b t : brush_inside b → if_done (top_tree brushes depth b t []) (tree_over (remove_cr t) 0).
Proof. intros Hb. destruct (calls_ok depth). by apply build_tree_over. Qed.

Section show.
Context (own : expression → option (html → node → html)) (procs : string → option string → option (html → node → html)).
Context (Hown : ∀ x f h n, own x = Some f → html_text (f h n) = html_text h).
Context (Hprocs : ∀ o k f h n, procs o k = Some f → html_text (f h n) = html_text h).

Lemma element_process_text h n : html_text (element_process own procs h n) = html_text h.
Proof.
  unfold element_process. destruct (own (m_expr n)) as [f|] eqn:E1; destruct (e_owner (m_expr n)) as [o|]; try done.
  - destruct (procs o (e_klass (m_expr n))) as [f2|] eqn:E2; [by rewrite (Hprocs _ _ _ _ _ E2), (Hown _ _ _ _ E1)|by apply (Hown _ _ _ _ E1)].
  - by apply (Hown _ _ _ _ E1).
  - destruct (procs o (e_klass (m_expr n))) as [f2|] eqn:E2; [by apply (Hprocs _ _ _ _ _ E2)|done].
Qed.

(** The elements of the lines have the lines' text. *)
Lemma process_lines depth b t : brush_inside b →
  if_done (process brushes own procs depth b t []) (λ l, html_text <$> l = lines_of (remove_cr t)).
Proof.
  intros Hb. eapply if_done_bind; [by apply top_tree_over|]. intros top (Hok & Ho & He).
  destruct (split_lines_ok _ _ Hok Ho He) as (ns & E & Ev & Hns & _). rewrite E. eapply if_done_bind with (P := λ x, x = ns); [by apply if_done_res; intros ? [= ->]|].
  intros ? ->. apply if_done_ret. rewrite <- Ev. clear - Hns Hown Hprocs. induction Hns as [|n ns Hn Hns IH]; [done|]. cbn. f_equal; [|done].
  by eapply reduce_text; [apply element_process_text|].
Qed.
End show.
End brushes.

(** ** Brushes that end *)

(** The captures that are used are always there, and are not given to a brush. *)
Fixpoint uses_set (p : pattern) (i : nat) (rules : list (option subrule)) : bool :=
  match rules with
  | [] => true
  | None :: rules' => uses_set p (S i) rules'
  | Some r :: rules' =>
      let j := default (S i) (s_index r) in
      match s_brush r with
      | None => ((j =? 0)%nat || (sets j (p_pat p) && (j <=? p_groups p)%nat)) && uses_set p (S i) rules'
      | Some _ => false
      end
  end.

Definition rule_ends (r : rule) : bool :=
  match r_derives r, r_pattern r with
  | Some _, _ => false
  | None, None => true
  | None, Some p =>
      (r_incremental r || moves (p_pat p)) &&
      match r_matches r with Some rules => uses_set p 0 rules | None => match r_brush r with None => true | Some _ => false end end
  end.

Section ends.
Context (build : string → text → Z → work node) (get : string → text → work (list node)).

Lemma group_there p t from mt j : pattern_exec p t from = Some mt → ((j =? 0)%nat || (sets j (p_pat p) && (j <=? p_groups p)%nat)) = true →
  is_Some (group t mt j).
Proof.
  intros He Hj. destruct j as [|j]; [by eexists|]. cbn [group Nat.eqb orb] in *. apply andb_true_iff in Hj as [H1 H2]. apply Nat.leb_le in H2.
  destruct (exec_sets _ _ _ _ _ H1 H2 He) as [[a b] Hc]. unfold mt_cap in Hc. destruct (mt_caps mt !! S j) as [[[a' b']|]|]; done.
Qed.

Lemma extract_ends p t from mt owner rules i : pattern_exec p t from = Some mt → uses_set p i rules = true →
  ∀ g, ∃ ns, extractMatches build t mt owner i rules g = Done (ns, g).
Proof.
  intros He. induction rules as [|[r|] rules IH] in i |- *; cbn [uses_set extractMatches]; intros Hu g.
  - by exists [].
  - destruct (s_brush r); [done|]. apply andb_true_iff in Hu as [Hj Hu]. destruct (group_there _ _ _ _ _ He Hj) as [[|c gr] ->]; [by apply IH|].
    destruct (IH _ Hu g) as [ns E]. eexists. etrans; [by eapply work_step|]. by etrans; [eapply work_step|].
  - by apply IH.
Qed.

Lemma match_nodes_ends p t from mt r : r_pattern r = Some p → pattern_exec p t from = Some mt → rule_ends r = true →
  ∀ g, ∃ ns, match_nodes build t r mt g = Done (ns, g).
Proof.
  intros Hp He Hr g. unfold rule_ends in Hr. destruct (r_derives r); [done|]. rewrite Hp in Hr. apply andb_true_iff in Hr as [_ Hr]. unfold match_nodes.
  destruct (r_matches r) as [rules|]; [by eapply extract_ends|]. destruct (r_brush r); [done|]. by eexists.
Qed.

(** Each round of the loop moves on. *)
Lemma match_loop_ends p t r : r_pattern r = Some p → rule_ends r = true → ∀ fuel from, length t + 1 - from < fuel →
  is_done (match_loop build fuel t r p from) (λ _, True).
Proof.
  intros Hp Hr. induction fuel as [|fuel IH]; intros from Hf g; [lia|]. cbn [match_loop].
  destruct (pattern_exec p t from) as [mt|] eqn:He; [|by exists [], false].
  pose proof (exec_range _ _ _ _ He). destruct (match_nodes_ends _ _ _ _ _ Hp He Hr true) as [ns Ens].
  assert (∃ next, (if r_incremental r then there ← get_match; if there : bool then mret (S (mt_index mt)) else fails TypeError
                   else mret (mt_end mt)) true = Done (next, true) ∧ from < next) as (next & Enext & Hn).
  { unfold rule_ends in Hr. destruct (r_derives r); [done|]. rewrite Hp in Hr. apply andb_true_iff in Hr as [Hr _]. destruct (r_incremental r).
    - exists (S (mt_index mt)). split; [done|lia].
    - exists (mt_end mt). split; [done|]. pose proof (exec_moves _ _ _ _ Hr He). lia. }
  destruct (IH next ltac:(lia) true) as (ns' & g' & E' & _).
  exists (ns ++ ns'), g'. split; [|done]. etrans; [by eapply work_step|]. etrans; [by eapply work_step|].
  etrans; [by eapply work_step|]. by etrans; [eapply work_step|].
Qed.

Lemma matches_of_ends t rules : Forall (λ r, rule_ends r = true) rules → is_done (matches_of build get t rules) (λ _, True).
Proof.
  induction 1 as [|r rules Hr Hrs IH]; cbn [matches_of]; [by apply is_done_ret|]. eapply is_done_bind with (P := λ _, True).
  - unfold getMatchesForRule. destruct (r_derives r) eqn:Ed; [unfold rule_ends in Hr; by rewrite Ed in Hr|].
    unfold MatchPattern. destruct (r_pattern r) as [p|] eqn:Ep; [|by apply is_done_ret]. apply match_loop_ends; [done|done|lia].
  - intros ns _. eapply is_done_bind; [exact IH|]. intros ns' _. by apply is_done_ret.
Qed.
End ends.

Lemma is_done_and {A} (w : work A) (P Q : A → Prop) : is_done w P → if_done w Q → is_done w (λ a, P a ∧ Q a).
Proof. intros H1 H2 g. destruct (H1 g) as (a & g' & E & Ha). exists a, g'. split; [done|]. split; [done|]. by eapply H2. Qed.

(** A brush that stands alone and ends shows the lines of every text. *)
Lemma process_ends brushes own procs depth b t : Forall (λ nb, brush_inside nb.2) brushes → brush_inside b →
  Forall (λ r, rule_ends r = true) (b_rules b) → b_parents b = [] →
  is_done (process brushes own procs (S depth) b t []) (λ _, True).
Proof.
  intros Hbs Hb Hr Hp. eapply is_done_bind.
  - apply is_done_and with (P := λ _, True); [|by apply top_tree_over]. eapply is_done_bind; [by apply matches_of_ends|]. intros ms _.
    eapply is_done_bind with (P := λ _, True); [cbn [allKlasses]; rewrite Hp; by apply is_done_ret|]. intros ks _.
    eapply is_done_bind with (P := λ _, True); [by apply is_done_res|]. intros n _. by apply is_done_ret.
  - intros top (_ & Hok & Ho & He). destruct (split_lines_ok _ _ Hok Ho He) as (ns & E & _). rewrite E.
    eapply is_done_bind with (P := λ _, True); [by apply is_done_res|]. intros l _. by apply is_done_ret.
Qed.

(** ** The claim *)


(** A brush that gives what is in brackets to another one. *)
Definition demo_rule (p : pattern) (inner : option string) : rule :=
  {| r_pattern := Some p; r_expr := some_expr "x" AllowAll; r_incremental := false; r_matches := None; r_brush := inner; r_derives := None |}.
Definition demo_pattern (source : string) : pattern :=
  default {| p_pat := PEmpty; p_flags := flags_of "g"; p_groups := 0 |} (RegExp (chars source) (flags_of "g")).
Definition demo_outer : brush := {| b_klass := "outer"; b_rules := [demo_rule (demo_pattern "<[a-z]+>") (Some "inner")]; b_parents := [] |}.
Definition demo_inner : brush := {| b_klass := "inner"; b_rules := [demo_rule (demo_pattern "[aeiou]") None]; b_parents := [] |}.
Definition demo_text : text := chars "a <bac> " ++ newline :: chars "z".


(** The variable that the match is kept in is a global one: a rule that gives its matches
    to a brush and is incremental fails as soon as that brush has looked for matches. *)
Lemma incremental_brush_fails :
  let r := {| r_pattern := Some (demo_pattern "<[a-z]+>"); r_expr := some_expr "x" AllowAll; r_incremental := true; r_matches := None;
              r_brush := Some "inner"; r_derives := None |} in
  process [("inner", demo_inner)] (λ _, None) (λ _ _, None) 3 {| b_klass := "outer"; b_rules := [r]; b_parents := [] |} demo_text [] false = Fails TypeError.
Proof. vm_compute. reflexivity. Qed.

(** A pattern that matches the empty text where it stands is matched there for ever. *)
Lemma empty_match_hangs fuel g : match_loop (λ _ _ _, unfinished) fuel (chars "b") (demo_rule (demo_pattern "a*") None) (demo_pattern "a*") 0 g = Unfinished.
Proof.
  induction fuel as [|fuel IH] in g |- *; [done|]. cbn [match_loop]. change (pattern_exec (demo_pattern "a*") (chars "b") 0) with (Some {| mt_index := 0; mt_end := 0; mt_caps := [None] |}).
  unfold mbind, work_bind. cbn. unfold mbind, work_bind in IH. by rewrite IH.
Qed.
