(* ===== verification/SyntaxTabs.v ===== *)
(** * Tabs (jquery.syntax.core.js: convertTabsToSpaces and the offsets)

    Before a text is shown, its tabs become the spaces up to the next tab stop.
    Annotations were made for the text with the tabs, and are moved: the code keeps, for
    each tab, how far what follows it has moved, and unfolds that into a table. *)

From S2P Require Import Prelude SyntaxTree SyntaxTreeFacts.

Definition tab : ascii := "009".
Definition ends_line (c : ascii) : bool := Ascii.eqb c "010" || Ascii.eqb c "013".

(** ** The code *)

(** [space[width]], for the spaces made for a tab size *)
Definition space (tabSize width : Z) : text :=
  if (0 <=? width)%Z && (width <=? tabSize)%Z then replicate (Z.to_nat width) " "%char else list_ascii_of_string "undefined".

(** A tab: its offset, its width, and how far the text after it has moved. *)
Definition tab_entry := (Z * Z * Z)%type.

(** The replacement from the offset [i] on. *)
Fixpoint replace_tabs (tabSize i tabOffset totalOffset : Z) (t : text) : text * list tab_entry :=
  match t with
  | [] => ([], [])
  | c :: t' =>
      if ends_line c then let '(s, l) := replace_tabs tabSize (i + 1) (- (i + 1)) totalOffset t' in (c :: s, l)
      else if Ascii.eqb c tab then
        let width := (tabSize - Z.rem (tabOffset + i) tabSize)%Z in
        let '(s, l) := replace_tabs tabSize (i + 1) (tabOffset + (width - 1)) (totalOffset + (width - 1)) t' in
        (space tabSize width ++ s, (i, width, totalOffset + (width - 1))%Z :: l)
      else let '(s, l) := replace_tabs tabSize (i + 1) tabOffset totalOffset t' in (c :: s, l)
  end.

(** [Syntax.convertTabsToSpaces(text, tabSize)] *)
Definition convertTabsToSpaces (t : text) (tabSize : Z) : text * list tab_entry :=
  replace_tabs (if (tabSize =? 0)%Z then 4 else tabSize)%Z 0 0 0 t.

(** The loop of [convertToLinearOffsets]: a round either adds a change or goes to the
    next tab.  [last] is the last change. *)
Fixpoint linear_loop (fuel : nat) (i len : Z) (last : Z) (offsets : list tab_entry) : list Z :=
  match fuel with
  | O => []
  | S fuel =>
      if (len <=? i)%Z then []
      else
        let same := last :: linear_loop fuel (i + 1) len last offsets in
        match offsets with
        | (o, _, total) :: rest =>
            if (o <? i)%Z then
              match rest with
              | (o2, _, _) :: _ =>
                  if (i <=? o2)%Z then total :: linear_loop fuel (i + 1) len total offsets
                  else linear_loop fuel i len last rest
              | [] => total :: linear_loop fuel (i + 1) len total offsets
              end
            else same
        | [] => same
        end
  end.

(** [Syntax.convertToLinearOffsets(offsets, length)] *)
Definition convertToLinearOffsets (offsets : list tab_entry) (len : nat) : list Z :=
  linear_loop (len + length offsets) 0 (Z.of_nat len) 0 offsets.

(** [linearOffsets[i]] *)
Definition linear_at (l : list Z) (i : Z) : option Z := if (i <? 0)%Z then None else l !! Z.to_nat i.

(** A match without children in [updateMatchesWithOffsets]: past the table there is
    no number, and a match whose offset is not a number is in no node. *)
Definition update_match (l : list Z) (t : text) (n : node) : option node :=
  d ← linear_at l (m_offset n);
  let e := (m_offset n + m_length n)%Z in
  let len := d2 ← linear_at l e; Some (e + d2 - (m_offset n + d))%Z in
  Some (adjust d len (Some t) n).

Definition updateMatchesWithOffsets (ms : list node) (l : list Z) (t : text) : list node := omap (update_match l t) ms.

(** ** Tab stops *)

(** The text with each tab replaced by the spaces up to the next column that is a
    multiple of the size. *)
Fixpoint expand (size : nat) (col : nat) (t : text) : text :=
  match t with
  | [] => []
  | c :: t' =>
      if ends_line c then c :: expand size 0 t'
      else if Ascii.eqb c tab then
        let w := size - col mod size in replicate w " "%char ++ expand size (col + w) t'
      else c :: expand size (S col) t'
  end.

Lemma replace_expand size t : 0 < size → ∀ i off total, (0 <= off + i)%Z →
  (replace_tabs (Z.of_nat size) i off total t).1 = expand size (Z.to_nat (off + i)) t.
Proof.
  intros Hs. induction t as [|c t IH]; intros i off total H; [done|]. cbn [replace_tabs expand].
  destruct (ends_line c) eqn:El.
  - specialize (IH (i + 1) (- (i + 1)) total)%Z. destruct (replace_tabs _ _ _ _ t) as [s l]. cbn in *. f_equal. rewrite IH by lia. f_equal. lia.
  - destruct (Ascii.eqb c tab) eqn:Et.
    + rewrite Z.rem_mod_nonneg by lia. set (col := Z.to_nat (off + i)).
      assert (Hm : ((off + i) mod Z.of_nat size)%Z = Z.of_nat (col mod size)).
      { unfold col. rewrite Nat2Z.inj_mod. f_equal. lia. }
      pose proof (Nat.mod_upper_bound col size ltac:(lia)) as Hub. rewrite Hm. set (w := size - col mod size).
      replace (Z.of_nat size - Z.of_nat (col mod size))%Z with (Z.of_nat w) by lia.
      specialize (IH (i + 1) (off + (Z.of_nat w - 1)) (total + (Z.of_nat w - 1)))%Z. destruct (replace_tabs _ _ _ _ t) as [s l]. cbn in *.
      f_equal.
      * unfold space. destruct (Z.leb_spec 0 (Z.of_nat w)); [|lia]. destruct (Z.leb_spec (Z.of_nat w) (Z.of_nat size)); [|lia]. cbn. by rewrite Nat2Z.id.
      * rewrite IH by lia. f_equal. lia.
    + specialize (IH (i + 1) off total)%Z. destruct (replace_tabs _ _ _ _ t) as [s l]. cbn in *. f_equal. rewrite IH by lia. f_equal. lia.
Qed.

(** The text that is shown has the tab stops of the text. *)
Lemma tabs_expanded size t : 0 < size → (convertTabsToSpaces t (Z.of_nat size)).1 = expand size 0 t.
Proof.
  intros Hs. unfold convertTabsToSpaces. destruct (Z.eqb_spec (Z.of_nat size) 0); [lia|]. by rewrite replace_expand by lia.
Qed.

(** ** The table of offsets *)

(** How far the character at [i] has moved, by the entries. *)
Fixpoint moved_at (start : Z) (l : list tab_entry) (i : Z) : Z :=
  match l with [] => start | (o, _, total) :: l' => if (o <? i)%Z then moved_at total l' i else start end.

Lemma linear_moved fuel : ∀ i len last offsets, (len - i + Z.of_nat (length offsets) <= Z.of_nat fuel)%Z →
  linear_loop fuel i len last offsets = List.map (moved_at last offsets) (seqZ i (len - i)).
Proof.
  induction fuel as [|fuel IH]; intros i len last offsets Hf; cbn [linear_loop].
  - by rewrite seqZ_nil by lia.
  - destruct (Z.leb_spec len i) as [Hle|Hlt]; [by rewrite seqZ_nil by lia|].
    rewrite seqZ_cons by lia. replace (Z.succ i) with (i + 1)%Z by lia. replace (Z.pred (len - i)) with (len - (i + 1))%Z by lia. cbn [List.map].
    destruct offsets as [|[[o w] total] rest]; [cbn [moved_at]; f_equal; by apply IH; cbn in *; lia|].
    destruct (Z.ltb_spec o i) as [Ho|Ho].
    + assert (Hnext : ∀ l, (∀ j, (i < j)%Z → moved_at total ((o, w, total) :: l) j = moved_at last ((o, w, total) :: l) j) ∧
        List.map (moved_at total ((o, w, total) :: l)) (seqZ (i + 1) (len - (i + 1))) = List.map (moved_at last ((o, w, total) :: l)) (seqZ (i + 1) (len - (i + 1)))).
      { intros l. assert (H : ∀ j, (i < j)%Z → moved_at total ((o, w, total) :: l) j = moved_at last ((o, w, total) :: l) j).
        { intros j Hj. cbn [moved_at]. by destruct (Z.ltb_spec o j); [|lia]. }
        split; [done|]. apply map_ext_in. intros j Hj. apply list_elem_of_In, elem_of_seqZ in Hj. apply H. lia. }
      destruct rest as [|[[o2 w2] total2] rest].
      * cbn [moved_at]. destruct (Z.ltb_spec o i); [|lia]. f_equal. rewrite IH by (cbn in *; lia). apply Hnext.
      * destruct (Z.leb_spec i o2) as [H2|H2].
        -- f_equal; [|rewrite IH by (cbn in *; lia); apply Hnext]. cbn [moved_at]. destruct (Z.ltb_spec o i); [|lia]. by destruct (Z.ltb_spec o2 i); [lia|].
        -- rewrite IH by (cbn in *; lia). rewrite (seqZ_cons i) by lia. replace (Z.succ i) with (i + 1)%Z by lia.
           replace (Z.pred (len - i)) with (len - (i + 1))%Z by lia. cbn [List.map].
           assert (H : ∀ j, (i <= j)%Z → moved_at last ((o2, w2, total2) :: rest) j = moved_at last ((o, w, total) :: (o2, w2, total2) :: rest) j).
           { intros j Hj. cbn [moved_at]. destruct (Z.ltb_spec o j); [|lia]. by destruct (Z.ltb_spec o2 j); [|lia]. }
           f_equal; [apply H; lia|]. apply map_ext_in. intros j Hj. apply list_elem_of_In, elem_of_seqZ in Hj. apply H. lia.
    + f_equal; [|by apply IH; cbn in *; lia]. cbn [moved_at]. by destruct (Z.ltb_spec o i); [lia|].
Qed.

(** The entries lie after where the replacement starts. *)
Lemma entries_from size t : ∀ i off total j, (j <= i)%Z → moved_at total (replace_tabs size i off total t).2 j = total.
Proof.
  induction t as [|c t IH]; intros i off total j Hj; [done|]. cbn [replace_tabs].
  destruct (ends_line c); [|destruct (Ascii.eqb c tab)].
  - specialize (IH (i + 1) (- (i + 1)) total j)%Z. destruct (replace_tabs _ _ _ _ t) as [s l]. apply IH. lia.
  - destruct (replace_tabs _ _ _ _ t) as [s l]. cbn. by destruct (Z.ltb_spec i j); [lia|].
  - specialize (IH (i + 1) off total j)%Z. destruct (replace_tabs _ _ _ _ t) as [s l]. apply IH. lia.
Qed.

(** The width of a prefix of the text when its tabs are expanded. *)
Definition width_of (size col : nat) (t : text) : Z := Z.of_nat (length (expand size col t)).

Lemma entries_moved size t : 0 < size → ∀ i off total k, (0 <= off + i)%Z → k <= length t →
  moved_at total (replace_tabs (Z.of_nat size) i off total t).2 (i + Z.of_nat k)
  = (total + width_of size (Z.to_nat (off + i)) (take k t) - Z.of_nat k)%Z.
Proof.
  intros Hs. induction t as [|c t IH]; intros i off total k Ho Hk; unfold width_of in *; [cbn in *; rewrite take_nil; cbn; lia|].
  destruct k as [|k]; [rewrite entries_from by lia; cbn; lia|]. cbn [replace_tabs take expand].
  replace (i + Z.of_nat (S k))%Z with (i + 1 + Z.of_nat k)%Z by lia. cbn in Hk. destruct (ends_line c); [|destruct (Ascii.eqb c tab)].
  - specialize (IH (i + 1) (- (i + 1)) total k)%Z. destruct (replace_tabs _ _ _ _ t) as [s l]. cbn [snd length] in *. rewrite IH by lia.
    replace (Z.to_nat (- (i + 1) + (i + 1))) with 0 by lia. lia.
  - rewrite Z.rem_mod_nonneg by lia. set (col := Z.to_nat (off + i)).
    assert (Hm : ((off + i) mod Z.of_nat size)%Z = Z.of_nat (col mod size)) by (unfold col; rewrite Nat2Z.inj_mod; f_equal; lia).
    pose proof (Nat.mod_upper_bound col size ltac:(lia)) as Hub. rewrite Hm. set (w := size - col mod size).
    replace (Z.of_nat size - Z.of_nat (col mod size))%Z with (Z.of_nat w) by lia.
    specialize (IH (i + 1) (off + (Z.of_nat w - 1)) (total + (Z.of_nat w - 1)) k)%Z. destruct (replace_tabs _ _ _ _ t) as [s l]. cbn [snd moved_at] in *.
    destruct (Z.ltb_spec i (i + 1 + Z.of_nat k)); [|lia]. rewrite IH by lia. rewrite length_app, length_replicate.
    replace (Z.to_nat (off + (Z.of_nat w - 1) + (i + 1))) with (col + w) by lia. lia.
  - specialize (IH (i + 1) off total k)%Z. destruct (replace_tabs _ _ _ _ t) as [s l]. cbn [snd length] in *. rewrite IH by lia.
    replace (Z.to_nat (off + (i + 1))) with (S (Z.to_nat (off + i))) by lia. lia.
Qed.

(** Where a character of the text is after the expansion. *)
Definition place (size : nat) (t : text) (i : nat) : nat := length (expand size 0 (take i t)).

(** The table has, for each character, how far it has moved. *)
Lemma table_moved size t i : 0 < size → i < length t →
  convertToLinearOffsets (convertTabsToSpaces t (Z.of_nat size)).2 (length t) !! i = Some (Z.of_nat (place size t i) - Z.of_nat i)%Z.
Proof.
  intros Hs Hi. unfold convertToLinearOffsets. rewrite linear_moved by lia.
  change (List.map ?f ?l) with (f <$> l). rewrite list_lookup_fmap, lookup_seqZ_lt by lia. cbn [fmap option_fmap option_map]. f_equal.
  unfold convertTabsToSpaces. destruct (Z.eqb_spec (Z.of_nat size) 0); [lia|].
  rewrite entries_moved by lia. unfold width_of, place. change (Z.to_nat (0 + 0)) with 0. lia.
Qed.

(** The column after a text. *)
Fixpoint column (size col : nat) (t : text) : nat :=
  match t with
  | [] => col
  | c :: t' => column size (if ends_line c then 0 else if Ascii.eqb c tab then col + (size - col mod size) else S col) t'
  end.

Lemma expand_app size s : ∀ col t, expand size col (s ++ t) = expand size col s ++ expand size (column size col s) t.
Proof.
  induction s as [|c s IH]; intros col t; [done|]. cbn [app expand column]. destruct (ends_line c); [cbn; by rewrite IH|].
  destruct (Ascii.eqb c tab); [by rewrite IH, app_assoc|]. cbn. by rewrite IH.
Qed.
Lemma expand_longer size t : 0 < size → ∀ col, length t <= length (expand size col t).
Proof.
  intros Hs. induction t as [|c t IH]; intros col; [done|]. cbn [expand]. destruct (ends_line c); [cbn; specialize (IH 0); lia|].
  destruct (Ascii.eqb c tab); [|cbn; specialize (IH (S col)); lia]. rewrite length_app, length_replicate.
  pose proof (Nat.mod_upper_bound col size ltac:(lia)). specialize (IH (col + (size - col mod size))). cbn. lia.
Qed.

(** The places of a piece of the text, and what is there. *)
Lemma place_piece size t a b : a <= b <= length t → let col := column size 0 (take a t) in
  let piece := take (b - a) (drop a t) in
  place size t b = place size t a + length (expand size col piece) ∧
  take (place size t b - place size t a) (drop (place size t a) (expand size 0 t)) = expand size col piece.
Proof.
  intros Hab. cbn zeta. set (col := column size 0 (take a t)). set (piece := take (b - a) (drop a t)).
  assert (Hb : take b t = take a t ++ piece). { unfold piece. rewrite take_take_drop. f_equal. lia. }
  assert (Hp : place size t b = place size t a + length (expand size col piece)). { unfold place. by rewrite Hb, expand_app, length_app. }
  split; [done|]. rewrite Hp. replace (place size t a + _ - _) with (length (expand size col piece)) by lia.
  assert (He : expand size 0 t = expand size 0 (take a t) ++ expand size col piece ++ expand size (column size col piece) (drop b t)).
  { unfold col at 1. rewrite <- expand_app. unfold col. rewrite <- expand_app, app_assoc, <- Hb, take_drop. done. }
  rewrite He. unfold place. rewrite drop_app_length. apply take_app_length.
Qed.

(** ** The claims *)

(** The text that is shown is the text with each tab replaced by the spaces up to
    the next tab stop of its line, and the table unfolded from the entries has, for each
    character of the text, how far it has moved: its place is the width of what is before
    it. *)
Theorem tab_stops size t i : 0 < size → i < length t →
  let '(s, offsets) := convertTabsToSpaces t (Z.of_nat size) in
  s = expand size 0 t ∧ convertToLinearOffsets offsets (length t) !! i = Some (Z.of_nat (place size t i) - Z.of_nat i)%Z.
Proof.
  intros Hs Hi. pose proof (tabs_expanded size t Hs). pose proof (table_moved size t i Hs Hi). by destruct (convertTabsToSpaces t (Z.of_nat size)) as [s offsets].
Qed.

Definition tabbed : text := ["a"; tab; "b"; newline; tab; "c"]%char.

Lemma tab_stops_witness : let '(s, offsets) := convertTabsToSpaces tabbed 4 in
  s = expand 4 0 tabbed ∧ convertToLinearOffsets offsets 6 !! 5 = Some 5%Z.
Proof. exact (tab_stops 4 tabbed 5 ltac:(lia) ltac:(cbn; lia)). Defined.

(** An annotation of a piece of the text that ends before the text does is moved to
    where that piece is after the tabs have been expanded: its range is that of the expanded
    piece, and its text is the expanded piece. *)
Theorem annotation_moved size t a b x v : 0 < size → a < b → b < length t →
  let s := (convertTabsToSpaces t (Z.of_nat size)).1 in
  let l := convertToLinearOffsets (convertTabsToSpaces t (Z.of_nat size)).2 (length t) in
  ∃ n, update_match l s (new_Match (Z.of_nat a) (Z.of_nat (b - a)) x v) = Some n ∧ node_ok s 0 n ∧
    m_offset n = Z.of_nat (place size t a) ∧ m_end n = Z.of_nat (place size t b) ∧
    m_value n = expand size (column size 0 (take a t)) (take (b - a) (drop a t)).
Proof.
  intros Hs Hab Hb s l. destruct (place_piece size t a b) as [Hp Hv]; [lia|]. unfold s. rewrite (tabs_expanded size t Hs) in *.
  pose proof (expand_longer size (take (b - a) (drop a t)) Hs (column size 0 (take a t))) as Hlong. rewrite length_take, length_drop in Hlong.
  assert (Hend : place size t b <= length (expand size 0 t)).
  { transitivity (length (expand size 0 (take b t ++ drop b t))); [rewrite expand_app, length_app; unfold place; lia|by rewrite take_drop]. }
  unfold update_match, linear_at. cbn [m_offset m_length new_Match].
  destruct (Z.ltb_spec (Z.of_nat a) 0); [lia|]. rewrite Nat2Z.id. unfold l. rewrite (table_moved size t a Hs) by lia. cbn [mbind option_bind].
  destruct (Z.ltb_spec (Z.of_nat a + Z.of_nat (b - a)) 0); [lia|]. replace (Z.to_nat (Z.of_nat a + Z.of_nat (b - a))) with b by lia.
  rewrite (table_moved size t b Hs) by lia. cbn [mbind option_bind]. eexists. split; [reflexivity|]. cbn [adjust new_Match].
  set (k := (Z.of_nat a + Z.of_nat (b - a) + _ - _)%Z). assert (Hk : k = Z.of_nat (place size t b - place size t a)) by (unfold k; lia).
  destruct (Z.eqb_spec k 0); [lia|]. replace (Z.of_nat a + (Z.of_nat (place size t a) - Z.of_nat a))%Z with (Z.of_nat (place size t a)) by lia.
  assert (Hval : match expand size 0 t with [] => v | _ :: _ => substr (expand size 0 t) (Z.of_nat (place size t a)) k end
    = expand size (column size 0 (take a t)) (take (b - a) (drop a t))).
  { destruct (expand size 0 t) eqn:E; [cbn in Hend; lia|]. rewrite <- Hv, <- E. unfold substr. destruct (Z.ltb_spec (Z.of_nat (place size t a)) 0); [lia|].
    rewrite Nat2Z.id, Hk, Nat2Z.id. done. }
  split; [|cbn [m_offset m_end m_value]; split; [done|split; [lia|exact Hval]]]. constructor; try lia; [|constructor; lia].
  rewrite Hval, <- Hv. unfold range. f_equal; [lia|]. f_equal. lia.
Qed.

Lemma annotation_moved_witness : ∃ n, update_match (convertToLinearOffsets (convertTabsToSpaces tabbed 4).2 6) (convertTabsToSpaces tabbed 4).1
    (new_Match 0 3 (some_expr "mark" AllowAll) []) = Some n ∧ m_end n = 5%Z.
Proof.
  destruct (annotation_moved 4 tabbed 0 3 (some_expr "mark" AllowAll) []) as (n & E & _ & _ & He & _); [lia|lia|cbn; lia|].
  exists n. split; [exact E|]. rewrite He. vm_compute. reflexivity.
Defined.

Example tabs_shown : expand 4 0 tabbed = list_ascii_of_string "a   b" ++ newline :: list_ascii_of_string "    c" ∧
  convertToLinearOffsets (convertTabsToSpaces tabbed 4).2 6 = [0; 0; 2; 2; 2; 5]%Z.
Proof. by vm_compute. Qed.

(** An annotation with a tab in it that goes up to the end of the text keeps its length, and
    loses the end of the text that it was made for. *)
Lemma annotation_to_the_end : m_end <$> update_match (convertToLinearOffsets (convertTabsToSpaces (take 3 tabbed) 4).2 3) (convertTabsToSpaces (take 3 tabbed) 4).1
    (new_Match 0 3 (some_expr "mark" AllowAll) []) = Some 3%Z ∧ length (convertTabsToSpaces (take 3 tabbed) 4).1 = 5.
Proof. by vm_compute. Qed.
