(* ===== verification/SyntaxAnnotate.v ===== *)
(** * Annotations (jquery.syntax.core.js: innerText, extractElementMatches, insert)

    The elements inside of the code to be shown are annotations of it: each becomes a
    match with its range of the text, and is put into the tree by cutting the tree.
    An annotation that lies inside of the node it falls into is put there, and
    the tree stays in order. *)

From S2P Require Import Prelude SyntaxTree SyntaxTreeFacts SyntaxCut SyntaxBrush SyntaxBrushFacts.

(** ** The code *)

Inductive dom :=
| DText (s : text)
| DElem (klass : string) (l : list dom)
| DBr (klass : string)
| DComment (s : text).

(** [elem.textContent] *)
Fixpoint textContent (d : dom) : text :=
  match d with
  | DText s => s
  | DElem _ l => (fix go l := match l with [] => [] | d :: l' => textContent d ++ go l' end) l
  | _ => []
  end.

(** [text.replace(/\r\n?/g, "\n")] *)
Fixpoint normalize (t : text) : text :=
  match t with
  | [] => []
  | c :: t' =>
      if Ascii.eqb c "013" then newline :: match t' with d :: t'' => if Ascii.eqb d newline then normalize t'' else normalize t' | [] => [] end
      else c :: normalize t'
  end.

Section dom.
(** [elem.innerText] where it is looked at, if the browser has it *)
Context (rendered : dom → option text).

(** [Syntax.innerText(elem)]; without any text there is nothing to call [replace] on. *)
Definition innerText (d : dom) : res text :=
  match d with
  | DBr _ => Ret [newline]
  | _ =>
      match textContent d with
      | [] => match rendered d with Some t => Ret (normalize t) | None => Throw TypeError end
      | t => Ret (normalize t)
      end
  end.

Definition annotation_expr (k : string) : expression :=
  {| e_klass := Some k; e_allow := AllowAll; e_disallow := None; e_only := None; e_force := true; e_owner := None |}.

(** The walk of [extractElementMatches] over a node, from an offset to the next. *)
Fixpoint walk (d : dom) (offset : Z) : res (list node * Z) :=
  match d with
  | DText s => Ret ([], (offset + Z.of_nat (length s))%Z)
  | DComment _ => Ret ([], offset)
  | DBr k => t ← innerText d; Ret ([new_Match offset (Z.of_nat (length t)) (annotation_expr k) t], offset)
  | DElem k l =>
      t ← innerText d;
      '(ms, offset') ← (fix go (l : list dom) (offset : Z) : res (list node * Z) :=
        match l with
        | [] => Ret ([], offset)
        | d :: l' => '(ms, o) ← walk d offset; '(ms', o') ← go l' o; Ret (ms ++ ms', o')
        end) l offset;
      Ret (new_Match offset (Z.of_nat (length t)) (annotation_expr k) t :: ms, offset')
  end.

(** [Syntax.extractElementMatches(container)] *)
Definition extractElementMatches (container : dom) : res (list node) := '(ms, _) ← walk container 0; Ret (drop 1 ms).
End dom.

(** ** The ranges of annotations *)

(** Text without carriage returns, and elements only. *)
Fixpoint plain_dom (d : dom) : Prop :=
  match d with
  | DText s => no_cr s
  | DElem _ l => (fix go l := match l with [] => True | d :: l' => plain_dom d ∧ go l' end) l
  | DBr _ => False
  | DComment _ => True
  end.

Lemma normalize_id t : no_cr t → normalize t = t.
Proof. induction 1 as [|c t Hc Ht IH]; [done|]. cbn. destruct (Ascii.eqb_spec c "013"); [done|]. by f_equal. Qed.

(** A node without text. *)
Definition textless (d : dom) : Prop := plain_dom d ∧ textContent d = [].

Lemma dom_ind' (P : dom → Prop) : (∀ s, P (DText s)) → (∀ k l, Forall P l → P (DElem k l)) → (∀ k, P (DBr k)) → (∀ s, P (DComment s)) → ∀ d, P d.
Proof.
  intros H1 H2 H3 H4. fix IH 1. intros [s|k l|k|s]; [apply H1| |apply H3|apply H4]. apply H2. induction l as [|d l IHl]; constructor; [apply IH|exact IHl].
Qed.

Lemma plain_no_cr d : plain_dom d → no_cr (textContent d).
Proof.
  induction d as [s|k l IH|k|s] using dom_ind'; cbn; [done| |done|by constructor].
  induction IH as [|d l Hd Hl IHl]; [by constructor|]. intros [H1 H2]. apply Forall_app. split; [by apply Hd|by apply IHl].
Qed.

Section ranges.
Context (rendered : dom → option text) (Hrendered : ∀ d, textless d → rendered d = Some []).

Lemma innerText_plain d : plain_dom d → (∀ k, d ≠ DBr k) → innerText rendered d = Ret (textContent d).
Proof.
  intros Hp Hb. pose proof (plain_no_cr _ Hp) as Hn. unfold innerText. destruct d as [s|k l|k|s]; try done.
  all: match goal with |- context [textContent ?d] => destruct (textContent d) as [|c t] eqn:E; [rewrite Hrendered by done; done|by rewrite normalize_id] end.
Qed.

(** The matches of a node that starts at an offset of the text. *)
Lemma walk_pieces d : plain_dom d → ∀ T pre post, T = pre ++ textContent d ++ post →
  ∃ ms, walk rendered d (Z.of_nat (length pre)) = Ret (ms, Z.of_nat (length pre + length (textContent d))) ∧ Forall (node_ok T 0) ms.
Proof.
  induction d as [s|k l IH|k|s] using dom_ind'; intros Hp T pre post HT; try done.
  - exists []. split; [|constructor]. cbn. do 2 f_equal. lia.
  - assert (Hin := innerText_plain (DElem k l) Hp ltac:(done)). cbn [walk]. rewrite Hin. cbn [mbind res_bind]. set (tx := textContent (DElem k l)) in *.
    assert (Hself : node_ok T 0 (new_Match (Z.of_nat (length pre)) (Z.of_nat (length tx)) (annotation_expr k) tx)).
    { apply piece_ok; rewrite HT; [rewrite !length_app; lia|]. unfold slice. rewrite drop_app_length.
      replace (length pre + length tx - length pre) with (length tx) by lia. by rewrite take_app_length. }
    assert (Hkids : ∀ pre post, T = pre ++ tx ++ post → ∃ ms, (fix go (l : list dom) (offset : Z) : res (list node * Z) :=
      match l with [] => Ret ([], offset) | d :: l' => '(ms, o) ← walk rendered d offset; '(ms', o') ← go l' o; Ret (ms ++ ms', o') end) l (Z.of_nat (length pre))
      = Ret (ms, Z.of_nat (length pre + length tx)) ∧ Forall (node_ok T 0) ms).
    { clear pre post HT Hin Hself. unfold tx. clear tx. induction IH as [|d l Hd Hl IHl]; intros pre post HT.
      - exists []. split; [|constructor]. cbn. do 2 f_equal. lia.
      - destruct Hp as [Hp1 Hp2]. change (textContent (DElem k (d :: l))) with (textContent d ++ textContent (DElem k l)) in *. rewrite <- app_assoc in HT.
        destruct (Hd Hp1 T pre (textContent (DElem k l) ++ post) HT) as (ms & E & Hms). rewrite E. cbn [mbind res_bind].
        destruct (IHl Hp2 (pre ++ textContent d) post) as (ms' & E' & Hms'); [by rewrite <- app_assoc|]. rewrite length_app in E'. rewrite E'. cbn [mbind res_bind].
        exists (ms ++ ms'). split; [|by apply Forall_app]. rewrite length_app. do 2 f_equal. lia. }
    destruct (Hkids pre post HT) as (ms & E & Hms). rewrite E. cbn [mbind res_bind]. eexists. split; [reflexivity|]. by constructor.
  - exists []. split; [|constructor]. cbn. do 2 f_equal. lia.
Qed.

End ranges.

(** ** Putting annotations into the tree *)

(** The node that an annotation is put into. *)
Fixpoint host (this m : node) {struct this} : node :=
  let '(Node o e k x v l b) := this in
  match (fix scan (l : list node) : option node :=
    match l with [] => None | c :: l' => if contains c m then Some (host c m) else scan l' end) l with
  | Some h => h
  | None => this
  end.

(** It starts after the start of that node. *)
Definition fits (this m : node) : Prop := (m_offset (host this m) < m_offset m)%Z.

Lemma rule_for_class brushes o k x : rule_for brushes o k = Some x → e_klass x = k.
Proof.
  unfold rule_for, getRuleForKlass. destruct (assoc o brushes) as [b|]; [|done]. cbn. destruct (List.find _ (b_rules b)) as [r|] eqn:E; [|done]. intros [= <-].
  apply find_some in E as [_ E]. by apply bool_decide_eq_true in E.
Qed.

Section insert.
Context (T : text) (base : Z) (rule_for : string → option string → option expression).

Lemma chain_filter (f : node → bool) lo hi l : chain T base lo hi l → chain T base lo hi (List.filter f l).
Proof.
  induction l as [|c l IH] in lo |- *; [done|]. intros H. inversion H as [|? ? ? ? H1 H2 H3]; subst. cbn. apply IH in H3. destruct (f c); [by constructor|].
  pose proof (node_range _ _ _ H2). eapply chain_weaken; [exact H3|lia|lia].
Qed.

Lemma children_chain n : node_ok T base n → chain T base (m_offset n) (m_end n) (m_children n).
Proof. intros H. by inversion H. Qed.

Lemma set_children_ok n l : node_ok T base n → chain T base (m_offset n) (m_end n) l → node_ok T base (set_children l n).
Proof. intros H Hl. inversion H; subst. by constructor. Qed.

(** What the insertion of an annotation makes of a node. *)
Definition annotated (n m n' : node) : Prop :=
  node_ok T base n' ∧ same_range n n' ∧ (∀ i, covers m i = false → classes n' i = classes n i) ∧
  (∀ i, covers m i = true → e_klass (m_expr m) ∈ classes n' i).

(** The three pieces of the node, with the annotation over the middle one. *)
Lemma around_ok n m l0 l1 l2 x : node_ok T base n → node_ok T base m → chain T base (m_offset n) (m_offset m) l0 → chain T base (m_offset m) (m_end m) l1 →
  chain T base (m_end m) (m_end n) l2 → e_klass x = e_klass (m_expr m) →
  (∀ i, (m_offset n <= i < m_offset m)%Z → inner_classes l0 i = inner_classes (m_children n) i) →
  (∀ i, (m_end m <= i < m_end n)%Z → inner_classes l2 i = inner_classes (m_children n) i) →
  annotated n m (set_children (l0 ++ [set_children l1 (set_expr x (set_children [] m))] ++ l2) n).
Proof.
  intros Hn Hm H0 H1 H2 Hx C0 C2. set (m' := set_children l1 (set_expr x (set_children [] m))).
  assert (Hm' : node_ok T base m') by (inversion Hm; subst; by constructor).
  assert (Hr : same_range m m') by by destruct m. destruct Hr as [R1 R2].
  assert (Hmid : chain T base (m_offset m) (m_end n) ([m'] ++ l2)) by (constructor; [by rewrite R1|done|by rewrite R2]).
  split; [|split; [by destruct n|]]. { apply set_children_ok; [done|]. apply chain_app. by exists (m_offset m). }
  assert (Hin : ∀ i, classes (set_children (l0 ++ [m'] ++ l2) n) i = e_klass (m_expr n) :: inner_classes (l0 ++ [m'] ++ l2) i) by (intros i; rewrite classes_eq; by destruct n).
  pose proof (node_range _ _ _ Hm) as Hmr. split; intros i Hi; rewrite Hin.
  - rewrite classes_eq. f_equal. apply andb_false_iff in Hi. rewrite Z.leb_gt, Z.ltb_ge in Hi. destruct (decide (i < m_offset m)%Z) as [Hlt|Hge].
    + rewrite (inner_app_before T base (m_offset m) (m_end n)) by done. destruct (decide (m_offset n <= i)%Z); [by apply C0|].
      rewrite (inner_before T base (m_offset n) (m_offset m) l0) by (done || lia). symmetry. apply (inner_before T base (m_offset n) (m_end n)); [by apply children_chain|lia].
    + rewrite (inner_app_after T base (m_offset n) (m_offset m)) by (done || lia). cbn [app inner_classes]. rewrite covers_false by lia.
      destruct (decide (i < m_end n)%Z); [apply C2; lia|]. rewrite (inner_after T base (m_end m) (m_end n) l2) by (done || lia).
      symmetry. apply (inner_after T base (m_offset n) (m_end n)); [by apply children_chain|lia].
  - pose proof Hi as Hi'. apply andb_true_iff in Hi'. rewrite Z.leb_le, Z.ltb_lt in Hi'. rewrite (inner_app_after T base (m_offset n) (m_offset m)) by (done || lia).
    cbn [app inner_classes]. rewrite covers_true, classes_eq by lia. right. rewrite <- Hx. replace (m_expr m') with x by by destruct m. left.
Qed.

Context (Hrule : ∀ o k x, rule_for o k = Some x → e_klass x = k).

Lemma chosen_class n m : e_klass (match e_owner (m_expr n) with
  | Some owner => default (m_expr m) (rule_for owner (e_klass (m_expr m)))
  | None => m_expr m
  end) = e_klass (m_expr m).
Proof. destruct (e_owner (m_expr n)) as [o|]; [|done]. destruct (rule_for o (e_klass (m_expr m))) as [x|] eqn:E; [|done]. by apply (Hrule o). Qed.

Lemma piece_inner n q : piece_of (classes n) q → ∀ i, (m_offset q <= i < m_end q)%Z → inner_classes (m_children q) i = inner_classes (m_children n) i.
Proof. intros H i Hi. specialize (H i Hi). rewrite !classes_eq in H. by injection H. Qed.

Lemma insertWhole_ok n m : node_ok T base n → node_ok T base m → (m_offset n < m_offset m)%Z → (m_offset m < m_end m)%Z → (m_end m <= m_end n)%Z →
  ∃ n', insertWhole rule_for n m = Ret n' ∧ annotated n m n'.
Proof.
  intros Hn Hm Ho Hm1 He. unfold insertWhole. destruct (decide (m_end m = m_end n)) as [Ee|Ee].
  - destruct (bisect_cuts T base n Hn ltac:(lia) [m_offset m] 1 []) as (ns & E & Ht & Hp); [cbn; lia|done|]. rewrite app_nil_r in E. cbn [app replicate] in E. rewrite Ee, E.
    destruct ns as [|p0 [|p1 [|p2 ns]]]; [done|by destruct Ht as (_ & _ & _ & [])| |by destruct Ht as (_ & _ & _ & _ & _ & _ & [])].
    destruct Ht as (K0 & A0 & B0 & K1 & A1 & B1 & _). inversion Hp as [|? ? P0 Hp1]; subst. inversion Hp1 as [|? ? P1 _]; subst.
    eexists. split; [reflexivity|]. cbn [default part_children lookup list_lookup].
    apply around_ok; try done; [rewrite <- A0, <- B0; by apply children_chain| | |apply chosen_class| |]; [|constructor; lia| |intros i Hi; lia].
    + apply chain_filter. rewrite <- A1, Ee, <- B1. by apply children_chain.
    + intros i Hi. apply (piece_inner _ _ P0). lia.
  - destruct (bisect_cuts T base n Hn ltac:(lia) [m_offset m; m_end m] 0 []) as (ns & E & Ht & Hp); [cbn; lia|done|]. cbn [app replicate] in E. rewrite E.
    destruct ns as [|p0 [|p1 [|p2 [|p3 ns]]]]; [done|by destruct Ht as (_ & _ & _ & [])|by destruct Ht as (_ & _ & _ & _ & _ & _ & [])| |by destruct Ht as (_ & _ & _ & _ & _ & _ & _ & _ & _ & [])].
    destruct Ht as (K0 & A0 & B0 & K1 & A1 & B1 & K2 & A2 & B2 & _). inversion Hp as [|? ? P0 Hp1]; subst. inversion Hp1 as [|? ? P1 Hp2]; subst. inversion Hp2 as [|? ? P2 _]; subst.
    eexists. split; [reflexivity|]. cbn [default part_children lookup list_lookup].
    apply around_ok; try done; [rewrite <- A0, <- B0; by apply children_chain| |rewrite <- A2, <- B2; by apply children_chain|apply chosen_class| |].
    + apply chain_filter. rewrite <- A1, <- B1. by apply children_chain.
    + intros i Hi. apply (piece_inner _ _ P0). lia.
    + intros i Hi. apply (piece_inner _ _ P2). lia.
Qed.

(** The searches of [host] and [insert_at] over children. *)
Definition scan_host (m : node) : list node → option node :=
  fix scan (l : list node) : option node := match l with [] => None | c :: l' => if contains c m then Some (host c m) else scan l' end.
Definition scan_insert (m : node) : list node → option (res (list node)) :=
  fix scan (l : list node) : option (res (list node)) :=
    match l with
    | [] => None
    | c :: l' =>
        if contains c m then Some (c' ← insert_at rule_for c m; Ret (c' :: l'))
        else match scan l' with Some r => Some (l2 ← r; Ret (c :: l2)) | None => None end
    end.

Lemma scans_agree m l : scan_host m l = None → scan_insert m l = None.
Proof. induction l as [|c l IH]; [done|]. cbn. destruct (contains c m); [done|]. intros H. by rewrite IH. Qed.

Lemma insert_at_ok m : node_ok T base m → (m_offset m < m_end m)%Z → ∀ n, node_ok T base n → contains n m = true → fits n m →
  ∃ n', insert_at rule_for n m = Ret n' ∧ annotated n m n'.
Proof.
  intros Hm Hm1. apply (node_ok_mut T base (λ n _, contains n m = true → fits n m → ∃ n', insert_at rule_for n m = Ret n' ∧ annotated n m n')
    (λ lo hi l _, ∀ h, scan_host m l = Some h → (m_offset h < m_offset m)%Z → (lo <= m_offset m)%Z ∧ ∃ l', scan_insert m l = Some (Ret l') ∧ chain T base lo hi l' ∧
      (∀ i, covers m i = false → inner_classes l' i = inner_classes l i) ∧ (∀ i, covers m i = true → e_klass (m_expr m) ∈ inner_classes l' i))).
  - intros o e k x v l b Ho Hoe He Hk Hv Hl IH Hcon Hfit. unfold fits in Hfit. cbn [host] in Hfit. fold (scan_host m) in Hfit. cbn [insert_at]. fold (scan_insert m).
    destruct (scan_host m l) as [h|] eqn:Eh.
    + destruct (IH h eq_refl Hfit) as (_ & l' & -> & Hl' & C1 & C2). eexists. split; [reflexivity|]. split; [by constructor|]. split; [done|].
      split; intros i Hi; rewrite !classes_eq; cbn [m_expr m_children]; [by rewrite C1|]. right. by apply C2.
    + rewrite (scans_agree _ _ Eh). unfold contains in Hcon. apply andb_true_iff in Hcon as [C1 C2]. cbn in C1, C2, Hfit.
      apply insertWhole_ok; [by constructor|done|cbn; lia|done|cbn; lia].
  - done.
  - intros lo hi c l Hlo Hc IHc Hl IHl h Hh Hfit. cbn [scan_host scan_insert] in *. destruct (contains c m) eqn:Ec.
    + injection Hh as <-. destruct (IHc eq_refl Hfit) as (c' & -> & Hc' & R & C1 & C2). pose proof R as [R1 R2]. apply andb_true_iff in Ec. rewrite !Z.leb_le in Ec.
      split; [lia|]. eexists. split; [reflexivity|]. split; [constructor; [by rewrite R1|done|by rewrite R2]|].
      split; intros i Hi; cbn [inner_classes]; rewrite (covers_range _ _ _ R); [by rewrite C1|].
      rewrite covers_true; [by apply C2|]. apply andb_true_iff in Hi. rewrite Z.leb_le, Z.ltb_lt in Hi. lia.
    + destruct (IHl h Hh Hfit) as (Hlo' & l' & El & Hl' & C1 & C2). fold (scan_insert m). rewrite El. pose proof (node_range _ _ _ Hc).
      split; [lia|]. eexists. split; [reflexivity|]. split; [by constructor|].
      split; intros i Hi; cbn [inner_classes]; [by rewrite C1|]. rewrite covers_false; [by apply C2|].
      apply andb_true_iff in Hi. rewrite Z.leb_le, Z.ltb_lt in Hi. lia.
Qed.
End insert.

(** ** The claims *)

(** When the code has no carriage returns and no line break elements, its text is that
    of its text nodes, and every element inside of it becomes an annotation with its own
    range of that text and with the text that is there. *)
Theorem annotations_are_pieces rendered k l : (∀ d, textless d → rendered d = Some []) → plain_dom (DElem k l) →
  ∃ t ms, innerText rendered (DElem k l) = Ret t ∧ extractElementMatches rendered (DElem k l) = Ret ms ∧ t = textContent (DElem k l) ∧ Forall (node_ok t 0) ms.
Proof.
  intros Hr Hp. exists (textContent (DElem k l)).
  destruct (walk_pieces rendered Hr _ Hp (textContent (DElem k l)) [] []) as (ms & E & Hms); [by rewrite app_nil_r|].
  exists (drop 1 ms). split; [by apply innerText_plain|]. split; [|split; [done|by apply Forall_drop]].
  unfold extractElementMatches. change (Z.of_nat (length [])) with 0%Z in E. by rewrite E.
Qed.

Definition some_code : dom := DElem "syntax" [DText (chars "ab "); DElem "mark" [DText (chars "c"); DElem "deep" []]; DText (chars "d")].

Lemma annotations_are_pieces_witness : ∃ t ms, innerText (λ _, Some []) some_code = Ret t ∧ extractElementMatches (λ _, Some []) some_code = Ret ms ∧
  t = chars "ab cd" ∧ m_offset <$> ms = [3; 4]%Z.
Proof.
  destruct (annotations_are_pieces (λ _, Some []) "syntax" [DText (chars "ab "); DElem "mark" [DText (chars "c"); DElem "deep" []]; DText (chars "d")])
    as (t & ms & E1 & E2 & E3 & _); [done|by repeat constructor|].
  exists t, ms. split; [exact E1|]. split; [exact E2|]. split; [exact E3|]. vm_compute in E2. by injection E2 as <-.
Defined.

(** An annotation that starts after the start of the node it falls into is put into the
    tree: the tree stays in order with its range, the characters of the annotation get its
    class, and all others keep the classes they had. *)
Theorem annotation_inserted T base brushes n m : node_ok T base n → node_ok T base m → (m_offset m < m_end m)%Z → contains n m = true → fits n m →
  ∃ n', insert (rule_for brushes) n m = Ret n' ∧ node_ok T base n' ∧ m_offset n' = m_offset n ∧ m_end n' = m_end n ∧
    (∀ i, covers m i = false → classes n' i = classes n i) ∧ (∀ i, covers m i = true → e_klass (m_expr m) ∈ classes n' i).
Proof.
  intros Hn Hm Hm1 Hc Hf. unfold insert. rewrite Hc.
  destruct (insert_at_ok T base (rule_for brushes) (rule_for_class brushes) m Hm Hm1 n Hn Hc Hf) as (n' & E & H1 & [H2 H3] & H4 & H5).
  by exists n'.
Qed.

Lemma annotation_inserted_witness : ∃ n', insert (rule_for []) some_tree (new_Match 1 3 (annotation_expr "mark") (chars "b c")) = Ret n' ∧
  classes n' 1 = [Some "b"; Some "mark"; Some "word"] ∧ Some "mark" ∈ classes n' 3.
Proof.
  destruct (annotation_inserted some_text 0 [] some_tree (new_Match 1 3 (annotation_expr "mark") (chars "b c"))) as (n' & E & _ & _ & _ & _ & H);
    [apply some_tree_ok|constructor; try done; by constructor|done|done|done|].
  exists n'. split; [exact E|]. split; [|by apply H]. vm_compute in E. injection E as <-. vm_compute. reflexivity.
Defined.

(** An annotation from the start of the node it falls into, which ends inside of a piece of
    that node, is not put there: the pieces get out of step, and the code fails. *)
Lemma annotation_at_the_start_fails :
  let n := Node 0 5 5 (some_expr "b" AllowAll) some_text [some_match] false in
  insert (rule_for []) n (new_Match 0 4 (annotation_expr "mark") (chars "ab c")) = Throw TypeError.
Proof. vm_compute. reflexivity. Qed.

(** The line breaks of line break elements are not in the text. *)
Lemma line_breaks_lost : innerText (λ _, Some []) (DElem "syntax" [DText (chars "a"); DBr ""; DText (chars "b")]) = Ret (chars "ab") ∧
  innerText (λ _, Some []) (DBr "") = Ret [newline].
Proof. by vm_compute. Qed.
