(* ===== verification/SyntaxHighlight.v ===== *)
(** * Highlighting (jquery.syntax.core.js: highlightText, webLinkProcess)

    The text is given its tab stops, its annotations are moved with it, the
    brush makes the elements of its lines, and pieces of the class "href" become links.
    Whatever the text, the brush for C ends and shows it, line by line. *)

From S2P Require Import Prelude SyntaxTree SyntaxTreeFacts SyntaxCut Patterns PatternFacts SyntaxBrush SyntaxBrushFacts SyntaxTabs SyntaxAnnotate SyntaxClang JQueryParam.

(** ** Links *)

(** Characters as [innerHTML] gives them. *)
Definition escape_char (c : ascii) : text :=
  if Ascii.eqb c "&" then chars "&amp;"
  else if Ascii.eqb c "<" then chars "&lt;"
  else if Ascii.eqb c ">" then chars "&gt;"
  else if Ascii.eqb c "160" then chars "&nbsp;"
  else [c].
Definition escape_quoted (c : ascii) : text := if Ascii.eqb c "034" then chars "&quot;" else escape_char c.
Definition escaped (t : text) : text := concat (escape_char <$> t).
Definition attribute (name : string) (t : text) : text := chars (" " +:+ name +:+ "=" +:+ dq) ++ concat (escape_quoted <$> t) ++ chars dq.
Definition class_attribute (k : option string) : text := match k with Some k => attribute "class" (chars k) | None => [] end.

Fixpoint outer_html (h : html) : text :=
  match h with
  | HText t => escaped t
  | HSpan k l =>
      chars "<span" ++ class_attribute k ++ chars ">" ++ (fix go l := match l with [] => [] | h :: l' => outer_html h ++ go l' end) l ++ chars "</span>"
  | HLink u k l =>
      chars "<a" ++ attribute "href" u ++ class_attribute k ++ chars ">" ++
      (fix go l := match l with [] => [] | h :: l' => outer_html h ++ go l' end) l ++ chars "</a>"
  end.
(** [elem.innerHTML] of an element with these children *)
Definition innerHTML (l : list html) : text := concat (outer_html <$> l).

Definition has_class (c : string) (k : option string) : bool :=
  match k with Some k => existsb (String.eqb c) (split_char " " k) | None => false end.

(** Each [span.href] is replaced by a link to its [innerHTML], with that as its text. *)
Fixpoint linkify (h : html) : html :=
  match h with
  | HText t => HText t
  | HSpan k l => if has_class "href" k then let u := innerHTML l in HLink u None [HText u] else HSpan k (List.map linkify l)
  | HLink u k l => HLink u k (List.map linkify l)
  end.

(** [Syntax.lib.webLinkProcess(queryURI, lucky)], the function it makes *)
Definition webLinkProcess (queryURI : string) (lucky : bool) (linkified : bool) (h : html) (n : node) : html :=
  let uri := if lucky then "http://www.google.com/search?btnI=I&q=" +:+ encodeURIComponent (queryURI +:+ " ") else queryURI in
  if linkified then
    match h with
    | HSpan k l | HLink _ k l => HLink (chars uri ++ chars (encodeURIComponent (string_of_list_ascii (normalize (html_text h))))) k l
    | HText t => h
    end
  else h.

(** ** Highlighting *)

Record options := { o_tabWidth : option Z; o_matches : list node; o_linkify : bool }.

(** The text and the annotations that the brush is given. *)
Definition prepared (t : text) (o : options) : text * list node :=
  match o_tabWidth o with
  | Some w =>
      if (w =? 0)%Z then (t, o_matches o)
      else
        let '(s, offsets) := convertTabsToSpaces t w in
        (s, match o_matches o with [] => [] | ms => updateMatchesWithOffsets ms (convertToLinearOffsets offsets (length t)) s end)
  | None => (t, o_matches o)
  end.

Section highlight.
Context (brushes : list (string * brush)).
Context (own_process : expression → option (html → node → html)) (processes : string → option string → option (html → node → html)).

(** [Syntax.highlightText(text, options, callback)] once the brush is there: what the callback is given *)
Definition highlightText (depth : nat) (b : brush) (t : text) (o : options) : work (list html * text) :=
  let '(s, ms) := prepared t o in
  l ← process brushes own_process processes depth b s ms;
  mret (if o_linkify o then List.map linkify l else l, s).
End highlight.

(** ** Links keep the text *)

Definition plain_char (c : ascii) : Prop := escape_char c = [c].
(** The links are made of plain text. *)
Fixpoint links_plain (h : html) : Prop :=
  match h with
  | HText _ => True
  | HSpan k l =>
      if has_class "href" k then Forall (λ h, ∃ t, h = HText t ∧ Forall plain_char t) l
      else (fix go l := match l with [] => True | h :: l' => links_plain h ∧ go l' end) l
  | HLink _ _ l => (fix go l := match l with [] => True | h :: l' => links_plain h ∧ go l' end) l
  end.

Lemma html_ind' (P : html → Prop) : (∀ t, P (HText t)) → (∀ k l, Forall P l → P (HSpan k l)) → (∀ u k l, Forall P l → P (HLink u k l)) → ∀ h, P h.
Proof.
  intros H1 H2 H3. fix IH 1. intros [t|k l|u k l]; [apply H1|apply H2|apply H3]; (induction l as [|h l IHl]; constructor; [apply IH|exact IHl]).
Qed.

Lemma plain_escaped t : Forall plain_char t → escaped t = t.
Proof. unfold escaped. induction 1 as [|c t Hc Ht IH]; [done|]. cbn. unfold plain_char in Hc. rewrite Hc. cbn. by f_equal. Qed.

Lemma html_link u k l : html_text (HLink u k l) = concat (html_text <$> l).
Proof. induction l as [|h l IH]; [done|]. cbn [fmap list_fmap concat]. by rewrite <- IH. Qed.

(** A link to documentation shows what it was made from. *)
Lemma webLink_text uri lucky b h n : html_text (webLinkProcess uri lucky b h n) = html_text h.
Proof. unfold webLinkProcess. destruct b; [|done]. by destruct h. Qed.

(** ** The brush for C *)

Definition clang_table : list (string * brush) := [("clang", clang)].

Lemma clang_inside : brush_inside clang.
Proof. apply Forall_forall. intros r Hr. assert (forallb rule_inside (b_rules clang) = true) as H by (vm_compute; reflexivity).
  rewrite forallb_forall in H. apply H. by apply list_elem_of_In. Qed.
Lemma clang_ends : Forall (λ r, rule_ends r = true) (b_rules clang).
Proof. apply Forall_forall. intros r Hr. assert (forallb rule_ends (b_rules clang) = true) as H by (vm_compute; reflexivity).
  rewrite forallb_forall in H. apply H. by apply list_elem_of_In. Qed.

(** The brush for C ends on every text, and shows it. *)
Lemma clang_highlights size t g : 0 < size → ∃ l g',
  highlightText clang_table (λ _, None) (λ _ _, None) 1 clang t {| o_tabWidth := Some (Z.of_nat size); o_matches := []; o_linkify := false |} g
  = Done ((l, expand size 0 t), g') ∧ html_text <$> l = lines_of (remove_cr (expand size 0 t)).
Proof.
  intros Hs. unfold highlightText, prepared. cbn [o_tabWidth o_matches o_linkify].
  destruct (Z.eqb_spec (Z.of_nat size) 0); [lia|]. pose proof (tabs_expanded size t Hs) as Ht. destruct (convertTabsToSpaces t (Z.of_nat size)) as [s offsets]. cbn in Ht. subst s.
  assert (Hbs : Forall (λ nb : string * brush, brush_inside nb.2) clang_table) by (constructor; [apply clang_inside|constructor]).
  destruct (process_ends clang_table (λ _, None) (λ _ _, None) 0 clang (expand size 0 t) Hbs clang_inside clang_ends eq_refl g) as (l & g' & E & _).
  exists l, g'. split; [by etrans; [eapply work_step|]|].
  by eapply (process_lines clang_table Hbs (λ _, None) (λ _ _, None)); [..|exact clang_inside|exact E].
Qed.

(** ** The claims *)



(** The links that are made of the pieces of the class "href" show what those pieces
    show, as long as these are plain text without markup characters. *)
Theorem links_keep_text h : links_plain h → html_text (linkify h) = html_text h.
Proof.
  induction h as [t|k l IH|u k l IH] using html_ind'; intros Hp; [done| |].
  - cbn [linkify links_plain] in *. destruct (has_class "href" k).
    + rewrite html_link, html_span. cbn [fmap list_fmap concat html_text]. rewrite app_nil_r. unfold innerHTML. f_equal. clear IH. induction Hp as [|h l (t & -> & Ht) Hl IHl]; [done|]. cbn. f_equal; [by apply plain_escaped|done].
    + rewrite !html_span. f_equal. clear k. induction IH as [|h l Hh Hl IHl]; [done|]. destruct Hp as [H1 H2]. cbn. f_equal; auto.
  - cbn [linkify links_plain] in *. rewrite !html_link. f_equal. clear k. induction IH as [|h l Hh Hl IHl]; [done|]. destruct Hp as [H1 H2]. cbn. f_equal; auto.
Qed.

Definition some_link : html := HSpan (Some "clang") [HText (chars "see "); HSpan (Some "href") [HText (chars "http://a/b")]; HText (chars "!")].
Lemma links_keep_text_witness : html_text (linkify some_link) = chars "see http://a/b!".
Proof.
  etrans; [apply (links_keep_text some_link)|vm_compute; reflexivity]. cbn. repeat split. constructor; [|constructor].
  eexists. split; [reflexivity|]. repeat (apply Forall_cons; split; [reflexivity|]). constructor.
Defined.

(** ** What is shown *)

Definition highlight_c (linkified : bool) (t : text) : outcome (list html * text * bool) :=
  highlightText clang_table (λ _, None) (λ _ _, None) 1 clang t {| o_tabWidth := Some 4%Z; o_matches := []; o_linkify := linkified |} false.

Definition shown_classes (r : outcome (list html * text * bool)) (i : nat) : option (list (option string)) :=
  match r with Done (l, _, _) => snd <$> concat (styled [] <$> l) !! i | _ => None end.
Definition shown_text (r : outcome (list html * text * bool)) : option text := match r with Done (l, _, _) => Some (concat (html_text <$> l)) | _ => None end.

(** A function, a comment with a link in it, and an escape in a string. *)
Example c_text_shown :
  let r := highlight_c false (chars ("f(" +:+ dq +:+ "\n" +:+ dq +:+ "); // http://a")) in
  shown_classes r 0 = Some [Some "clang"; Some "function"] ∧ shown_classes r 3 = Some [Some "clang"; Some "string"; Some "escape"] ∧
  shown_classes r 9 = Some [Some "clang"; Some "comment"] ∧ shown_classes r 14 = Some [Some "clang"; Some "comment"; Some "href"].
Proof. by vm_compute. Qed.

(** The text of a link is given as markup is written, so that what is shown is not the
    text of the code. *)
Example link_not_shown_as_is : shown_text (highlight_c true (chars "http://a/?b&c")) = Some (chars "http://a/?b&amp;c") ∧
  shown_text (highlight_c false (chars "http://a/?b&c")) = Some (chars "http://a/?b&c").
Proof. by vm_compute. Qed.

(** A capture is looked for in its match by its text: a class named with a letter of the
    keyword before it is taken for that letter, and is not shown as a type. *)
Example class_name_missed : shown_classes (highlight_c false (chars "class t;")) 6 = Some [Some "clang"; Some "type"] ∧
  shown_classes (highlight_c false (chars "class s;")) 6 = Some [Some "clang"].
Proof. by vm_compute. Qed.
