(* ===== verification/SyntaxTokens.v ===== *)
(** * Words as patterns (about RegExp.escape, convertStringToTokenPattern and push)

    A brush gives its keywords as texts.  They are escaped into the source of a pattern,
    which is parsed again: the pattern matches the text itself, where no word goes on on
    either side of it. *)

From S2P Require Import Prelude SyntaxTree Patterns PatternFacts SyntaxBrush SyntaxBrushFacts.

(** ** Parsing escaped text *)

(** The characters of a text, and then a pattern. *)
Definition literal (s : text) (p : pat) : pat := foldr (λ c p, PSeq (PChar c) p) p s.

Definition then_pat (f : pat → pat) (r : parsed) : parsed := '(p, g, s) ← r; Some (f p, g, s).

Definition unquantified (s : text) : bool :=
  match s with c :: _ => negb (existsb (Ascii.eqb c) (chars "*+?")) | [] => true end.

Lemma quantify_none a s : unquantified s = true → quantify a s = (a, s).
Proof. destruct s as [|c s]; [done|]. destruct c as [[] [] [] [] [] [] [] []]; done. Qed.
Lemma quantified_none a g s : unquantified s = true → quantified (Some (a, g, s)) = Some (a, g, s).
Proof. intros H. unfold quantified. cbn. by rewrite quantify_none. Qed.

Lemma parse_term_char n g c s : is_special c = false → parse_term (S n) g (c :: s) = quantified (Some (PChar c, g, s)).
Proof. destruct c as [[] [] [] [] [] [] [] []]; done. Qed.
Lemma parse_escape_char g c s : is_special c = true → parse_escape g c s = quantified (Some (PChar c, g, s)).
Proof. destruct c as [[] [] [] [] [] [] [] []]; done. Qed.
Lemma parse_seq_char n g c s : is_special c = false →
  parse_seq (S n) g (c :: s) = '(a, g, s) ← parse_term n g (c :: s); '(b, g, s) ← parse_seq n g s; Some (PSeq a b, g, s).
Proof. destruct c as [[] [] [] [] [] [] [] []]; done. Qed.

Lemma parse_seq_escape n g c s :
  parse_seq (S (S n)) g ("\"%char :: c :: s) = '(a, g, s) ← parse_escape g c s; '(b, g, s) ← parse_seq (S n) g s; Some (PSeq a b, g, s).
Proof. done. Qed.

Lemma escape_unquantified s r : unquantified r = true → unquantified (escape s ++ r) = true.
Proof.
  destruct s as [|c s]; [done|]. intros _. cbn. destruct (is_special c) eqn:E; [done|]. revert E. destruct c as [[] [] [] [] [] [] [] []]; done.
Qed.

Lemma parse_seq_escaped s r : unquantified r = true → ∀ n g, 0 < n →
  parse_seq (length s + n) g (escape s ++ r) = then_pat (literal s) (parse_seq n g r).
Proof.
  intros Hr. induction s as [|c s IH]; intros n g Hn; [cbn; by destruct (parse_seq n g r) as [[[p g'] s']|]|].
  pose proof (escape_unquantified s r Hr) as Hu. cbn [length plus escape]. destruct (length s + n) as [|k] eqn:Ek; [lia|].
  destruct (is_special c) eqn:Ec.
  - cbn [app]. rewrite parse_seq_escape, parse_escape_char, quantified_none by done. cbn [mbind option_bind]. rewrite <- Ek, IH by done.
    by destruct (parse_seq n g r) as [[[p g'] s']|].
  - cbn [app]. rewrite parse_seq_char, parse_term_char, quantified_none by done. cbn [mbind option_bind]. rewrite <- Ek, IH by done.
    by destruct (parse_seq n g r) as [[[p g'] s']|].
Qed.

Lemma escape_length s : length s <= length (escape s).
Proof. induction s as [|c s IH]; [done|]. cbn. destruct (is_special c); cbn; lia. Qed.

(** ** Parsing tokens *)

Definition before_word (s : text) (p : pat) : pat :=
  if starts_word s then PSeq (PBound false) p else if ends_word s then PSeq (PBound true) p else p.
Definition after_word (s : text) (p : pat) : pat :=
  if ends_word s then PSeq (PBound false) p else if starts_word s then PSeq (PBound true) p else p.
Definition token_pat (s : text) : pat := before_word s (literal s (after_word s PEmpty)).

Lemma parse_bound (neg : bool) n g s : parse_seq (S (S n)) g ((if neg then chars "\B" else chars "\b") ++ s)
  = then_pat (PSeq (PBound neg)) (parse_seq (S n) g s).
Proof. by destruct neg. Qed.

(** What may follow a token in a source. *)
Definition closes (r : text) : bool := match r with [] => true | c :: _ => Ascii.eqb c ")" || Ascii.eqb c "|" end.
Lemma closes_unquantified r : closes r = true → unquantified r = true.
Proof. destruct r as [|c r]; [done|]. destruct c as [[] [] [] [] [] [] [] []]; done. Qed.
Lemma parse_seq_closes n g r : closes r = true → parse_seq (S n) g r = Some (PEmpty, g, r).
Proof. destruct r as [|c r]; [done|]. destruct c as [[] [] [] [] [] [] [] []]; done. Qed.

Lemma parse_token s r n g : closes r = true → length s + 3 <= n →
  parse_seq n g (convertStringToTokenPattern s ++ r) = Some (token_pat s, g, r).
Proof.
  intros Hr Hn. pose proof (closes_unquantified r Hr) as Hu. unfold convertStringToTokenPattern, token_pat, before_word, after_word.
  destruct n as [|n]; [lia|].
  assert (Hlit : ∀ m, length s < m → parse_seq m g (escape s ++ r) = Some (literal s PEmpty, g, r)).
  { intros m Hm. replace m with (length s + S (m - length s - 1)) by lia. by rewrite parse_seq_escaped, parse_seq_closes by (done || lia). }
  assert (Hb : ∀ neg m, length s + 1 < m → parse_seq m g (escape s ++ (if neg : bool then chars "\B" else chars "\b") ++ r) = Some (literal s (PSeq (PBound neg) PEmpty), g, r)).
  { intros neg m Hm. replace m with (length s + S (S (m - length s - 2))) by lia. rewrite parse_seq_escaped by (first [lia|by destruct neg]).
    by rewrite parse_bound, parse_seq_closes. }
  destruct (starts_word s), (ends_word s); rewrite <- ?app_assoc; destruct n as [|n]; try lia.
  - rewrite (parse_bound false), (Hb false) by lia. done.
  - rewrite (parse_bound false), (Hb true) by lia. done.
  - rewrite (parse_bound true), (Hb false) by lia. done.
  - apply Hlit. lia.
Qed.

Lemma token_length s : length s <= length (convertStringToTokenPattern s).
Proof.
  pose proof (escape_length s). unfold convertStringToTokenPattern. destruct (starts_word s), (ends_word s); rewrite ?length_app; cbn; lia.
Qed.

(** A text pushed as a pattern is the pattern of its own characters. *)
Lemma RegExp_token s f : RegExp (convertStringToTokenPattern s) f = Some {| p_pat := token_pat s; p_flags := f; p_groups := 0 |}.
Proof.
  pose proof (token_length s). unfold RegExp. replace (4 * length (convertStringToTokenPattern s) + 4) with (S (4 * length (convertStringToTokenPattern s) + 3)) by lia.
  cbn [parse_alt]. rewrite <- (app_nil_r (convertStringToTokenPattern s)) at 2. rewrite parse_token by (done || lia). done.
Qed.

Fixpoint alternatives (l : list text) : pat :=
  match l with [] => PEmpty | [s] => token_pat s | s :: l' => PAlt (token_pat s) (alternatives l') end.

Lemma joined_cons s s2 l : joined (s :: s2 :: l) = s ++ "|"%char :: joined (s2 :: l).
Proof. done. Qed.

Lemma parse_words l r n g : l ≠ [] → (∃ r', r = ")"%char :: r') → length (joined (convertStringToTokenPattern <$> l)) + 4 + length l <= n →
  parse_alt n g (joined (convertStringToTokenPattern <$> l) ++ r) = Some (alternatives l, g, r).
Proof.
  intros Hl [r' ->]. induction l as [|s [|s2 l] IH] in n, Hl |- *; [done| |]; intros Hn; (destruct n as [|n]; [lia|]).
  - cbn [fmap list_fmap joined parse_alt alternatives length] in *. pose proof (token_length s). rewrite parse_token by (done || lia). done.
  - cbn [fmap list_fmap] in *. rewrite joined_cons in *. rewrite length_app in Hn. cbn [length] in Hn. pose proof (token_length s).
    cbn [parse_alt alternatives]. rewrite <- app_assoc. cbn [app]. rewrite parse_token by (done || lia). cbn [mbind option_bind].
    change (convertStringToTokenPattern s2 :: list_fmap _ _ convertStringToTokenPattern l) with (convertStringToTokenPattern <$> s2 :: l) in *.
    rewrite IH; [done|done|cbn in *; lia].
Qed.

(** The pattern of a list of words. *)
Definition words_pat (l : list text) : pat := PSeq (PGroup 1 (alternatives l)) PEmpty.

Lemma parse_seq_group n g s : unquantified s = true →
  parse_seq (S (S n)) g ("("%char :: s) =
  '(a, g, s) ← quantified (closing (parse_alt n (S g) s) (PGroup g)); '(b, g, s) ← parse_seq (S n) g s; Some (PSeq a b, g, s).
Proof. destruct s as [|c s]; [done|]. destruct c as [[] [] [] [] [] [] [] []]; done. Qed.

Lemma token_unquantified s r : unquantified r = true → unquantified (convertStringToTokenPattern s ++ r) = true.
Proof.
  intros Hr. unfold convertStringToTokenPattern. destruct (starts_word s), (ends_word s); rewrite <- ?app_assoc; try done. cbn [app]. by apply escape_unquantified.
Qed.
Lemma joined_unquantified l r : unquantified r = true → unquantified (joined (convertStringToTokenPattern <$> l) ++ r) = true.
Proof.
  intros Hr. destruct l as [|s [|s2 l]]; [done|by apply token_unquantified|]. cbn [fmap list_fmap]. rewrite joined_cons, <- app_assoc. by apply token_unquantified.
Qed.
Lemma joined_long (l : list text) : length l <= length (joined (convertStringToTokenPattern <$> l)) + 1.
Proof.
  induction l as [|s [|s2 l] IH]; [cbn; lia|cbn; lia|]. cbn [fmap list_fmap] in *. rewrite joined_cons, length_app. cbn [length] in *. lia.
Qed.

Lemma RegExp_words (l : list string) f : l ≠ [] →
  RegExp (all_source (List.map WString l)) f = Some {| p_pat := words_pat (chars <$> l); p_flags := f; p_groups := 1 |}.
Proof.
  intros Hl. unfold RegExp, all_source. set (ts := (chars <$> l : list text)).
  assert (Esrc : List.map token_source (List.map WString l) = convertStringToTokenPattern <$> ts).
  { unfold ts. rewrite List.map_map, <- list_fmap_compose. done. }
  rewrite Esrc. set (src := joined _). pose proof (joined_long ts) as Hlong. fold src in Hlong.
  replace (4 * length ("("%char :: src ++ [")"%char]) + 4) with (S (S (S (4 * length src + 9)))) by (cbn; rewrite length_app; cbn; lia).
  cbn [parse_alt]. rewrite parse_seq_group by by apply joined_unquantified.
  assert (E : ∀ n, length src + 4 + length ts <= n → parse_alt n 2 (src ++ [")"%char]) = Some (alternatives ts, 2, [")"%char])).
  { intros n Hn. apply parse_words; [unfold ts; by destruct l|by eexists|done]. }
  rewrite E by lia. done.
Qed.

(** ** What tokens match *)

Section tokens.
Context (f : flags) (t : list ascii) (Hcase : ignoreCase f = false).

Lemma char_step c x k : pm f t (PChar c) x k =
  if is_prefix [c] (drop (at_pos x) t) then k (PSt (S (at_pos x)) (p_caps x)) else None.
Proof.
  cbn [pm PChar]. unfold step_if, set_has. rewrite Hcase. destruct (t !! at_pos x) as [d|] eqn:E.
  - rewrite (drop_S _ _ _ E). cbn. rewrite orb_false_r, andb_true_r. unfold in_range.
    destruct (Ascii.eqb_spec c d) as [->|Hne]; [by rewrite N.leb_refl|].
    destruct (N.leb_spec (N_of_ascii c) (N_of_ascii d)), (N.leb_spec (N_of_ascii d) (N_of_ascii c)); try done.
    exfalso. apply Hne. rewrite <- (ascii_N_embedding c), <- (ascii_N_embedding d). f_equal. lia.
  - rewrite drop_ge by by apply lookup_ge_None. done.
Qed.

Lemma literal_step s p : ∀ x k, pm f t (literal s p) x k =
  if is_prefix s (drop (at_pos x) t) then pm f t p (PSt (at_pos x + length s) (p_caps x)) k else None.
Proof.
  induction s as [|c s IH]; intros x k.
  - cbn. rewrite Nat.add_0_r. by destruct x.
  - change (pm f t (PChar c) x (λ y, pm f t (literal s p) y k) = if is_prefix (c :: s) (drop (at_pos x) t) then pm f t p (PSt (at_pos x + length (c :: s)) (p_caps x)) k else None).
    rewrite char_step, IH. cbn [at_pos p_caps length]. replace (at_pos x + S (length s)) with (S (at_pos x) + length s) by lia.
    replace (drop (S (at_pos x)) t) with (drop 1 (drop (at_pos x) t)) by (rewrite drop_drop; f_equal; lia).
    destruct (drop (at_pos x) t) as [|d u]; cbn [is_prefix drop]; [done|]. rewrite andb_true_r. destruct (Ascii.eqb c d); [|done]. by rewrite drop_0.
Qed.

(** The text is there, and if it starts or ends like a word, no word goes on. *)
Definition token_here (s : text) (i : nat) : bool :=
  is_prefix s (drop i t) && (negb (starts_word s || ends_word s) || (negb (word_before t i) && negb (word_at t (i + length s)))).

Lemma prefix_at s i j c : is_prefix s (drop i t) = true → s !! j = Some c → t !! (i + j) = Some c.
Proof.
  intros [H1 H2]%is_prefix_spec Hj. rewrite <- lookup_drop. pose proof (lookup_lt_Some _ _ _ Hj) as Hl. rewrite <- (lookup_take_lt (drop i t) (length s) j) by done.
  by rewrite H1.
Qed.
Lemma prefix_first s i : is_prefix s (drop i t) = true → s ≠ [] → word_at t i = starts_word s.
Proof. intros Hp Hs. destruct s as [|c s]; [done|]. pose proof (prefix_at _ _ 0 c Hp eq_refl) as H. rewrite Nat.add_0_r in H. unfold word_at. by rewrite H. Qed.
Lemma ends_word_last s : ends_word s = match last s with Some c => is_word c | None => false end.
Proof. induction s as [|c [|d s] IH]; [done|done|]. exact IH. Qed.
Lemma prefix_last s i : is_prefix s (drop i t) = true → s ≠ [] → word_before t (i + length s) = ends_word s.
Proof.
  intros Hp Hs. rewrite ends_word_last. destruct s as [|c s] using rev_ind; [done|]. rewrite last_snoc, length_app. cbn [length].
  rewrite Nat.add_1_r, Nat.add_succ_r. cbn [word_before]. unfold word_at. rewrite (prefix_at _ _ (length s) c Hp); [done|]. by apply list_lookup_middle.
Qed.

Lemma bound_step neg x k : pm f t (PBound neg) x k = if xorb neg (xorb (word_before t (at_pos x)) (word_at t (at_pos x))) then k x else None.
Proof. done. Qed.

(** A token matches where it stands, and takes its own length. *)
Lemma token_step s x k : pm f t (token_pat s) x k =
  if token_here s (at_pos x) then k (PSt (at_pos x + length s) (p_caps x)) else None.
Proof.
  unfold token_pat, before_word, after_word, token_here. destruct (is_prefix s (drop (at_pos x) t)) eqn:Ep; cbn [andb].
  2:{ assert (∀ p k, pm f t (literal s p) x k = None) as Hn by (intros; by rewrite literal_step, Ep).
      destruct (starts_word s); [cbn [pm]; rewrite Hn; by case_match|]. destruct (ends_word s); [cbn [pm]; rewrite Hn; by case_match|]. by apply Hn. }
  assert (Hlit : ∀ p k, pm f t (literal s p) x k = pm f t p (PSt (at_pos x + length s) (p_caps x)) k) by (intros; by rewrite literal_step, Ep).
  destruct (starts_word s) eqn:Es, (ends_word s) eqn:Ee; cbn [orb negb].
  all: try (assert (Hs : s ≠ []) by by destruct s).
  all: try (pose proof (prefix_first _ _ Ep Hs) as H1; pose proof (prefix_last _ _ Ep Hs) as H2; rewrite Es in H1; rewrite Ee in H2).
  all: cbn [pm]; rewrite Hlit; cbn [pm at_pos]; rewrite ?H1, ?H2; try done.
  all: by destruct (word_before t (at_pos x)), (word_at t (at_pos x + length s)).
Qed.

Lemma alternatives_step l x k : l ≠ [] → (∀ y, is_Some (k y)) → pm f t (alternatives l) x k =
  match List.find (λ w, token_here w (at_pos x)) l with Some w => k (PSt (at_pos x + length w) (p_caps x)) | None => None end.
Proof.
  intros Hl Hk. induction l as [|s [|s2 l] IH]; [done| |].
  - cbn [alternatives List.find]. rewrite token_step. by destruct (token_here s (at_pos x)).
  - change (alternatives (s :: s2 :: l)) with (PAlt (token_pat s) (alternatives (s2 :: l))). cbn [pm]. rewrite token_step, IH by done.
    cbn [List.find]. destruct (token_here s (at_pos x)); [|done]. by destruct (Hk (PSt (at_pos x + length s) (p_caps x))) as [z ->].
Qed.
End tokens.

(** ** The claim *)

(** A list of words that is pushed to a brush becomes one rule, whose pattern matches
    at a place exactly when one of the words stands there, the first such word of the list:
    its characters are there, and if it starts or ends like a word, no word goes on before
    or after it.  Escaping a word and parsing the result gives the word back. *)
Theorem words_stand_alone (l : list string) sp b : l ≠ [] → ignoreCase (flags_of (source_options sp)) = false → global (flags_of (source_options sp)) = true →
  ∃ p, push_all_of (List.map WString l) sp b = Some (add_rule (rule_of sp (Some p) (b_klass b)) b) ∧
    ∀ t i, match_here p t i =
      (λ w, {| mt_index := i; mt_end := i + length w; mt_caps := [None; Some (i, i + length w)] |}) <$> List.find (λ w, token_here t w i) (chars <$> l).
Proof.
  intros Hl Hc Hg. eexists. split; [unfold push_all_of; rewrite RegExp_words by done; cbn [mbind option_bind p_flags]; rewrite Hg; reflexivity|]. intros t i.
  unfold match_here. cbn [p_flags p_pat p_groups words_pat pm].
  rewrite alternatives_step by (first [done|by destruct l|by intros]). cbn [at_pos]. destruct (List.find _ _) as [w|]; done.
Qed.

Definition word_spec : spec := {| sp_expr := no_expr; sp_options := None; sp_incremental := false; sp_matches := None; sp_brush := None |}.

Lemma words_stand_alone_witness : ∃ p, mt_end <$> match_here p (chars "x @in in") 6 = Some 8 ∧ match_here p (chars "x @in int") 6 = None.
Proof.
  destruct (words_stand_alone ["@in"; "in"] word_spec {| b_klass := "b"; b_rules := []; b_parents := [] |}) as (p & _ & H); [done|reflexivity|reflexivity|].
  exists p. rewrite !H. vm_compute. done.
Defined.
