(* ===== verification/ResourceLoader.v ===== *)
(** * Loading brushes (jquery.syntax.js: ResourceLoader)

    A loader gets resources by name: scripts that register themselves with it when they
    are run.  Those who ask for a resource while its script is on its way wait in a list, and
    are called back when it is there.  A script may say that it needs other resources; then
    the callbacks wait for those as well, by a chain of functions that get one after the other.

    The functions the code binds are data here: [this._loaded.bind(this, name)] and
    [this.get.bind(this, name, chain)].  Calls run to their end, so a list of the calls that
    are still to be made stands for the stack.  Scripts arrive by steps of the browser. *)

From S2P Require Import Prelude.

Inductive callback :=
| CUser (id : nat)                          (* a function of the page *)
| CLoaded (name : string)                   (* [this._loaded.bind(this, name)] *)
| CGet (name : string) (k : callback).      (* [this.get.bind(this, name, k)] *)

(** What is seen from outside: a function of the page is called with a resource, a script is
    asked for, the page is told that a script has not registered, with the functions that are
    not called then. *)
Inductive event :=
| ECall (id : nat) (name : string)
| EAsk (name : string)
| EAlert (name : string) (lost : list callback).

Record loader := {
  l_there : gset string;                    (* the names for which [this[name]] is set *)
  l_deps : gmap string (list string);
  l_loading : gmap string (list callback);
  l_pending : list string;                  (* the scripts that are on their way *)
  l_log : list event
}.

(** The properties that a loader has from the start. *)
Definition builtin : gset string := list_to_set ["dependencies"; "loading"; "loader"; "_finish"; "_loaded"; "dependency"; "get"].
Definition new_loader : loader := {| l_there := builtin; l_deps := ∅; l_loading := ∅; l_pending := []; l_log := [] |}.

Definition set_loading (m : gmap string (list callback)) (s : loader) : loader :=
  {| l_there := l_there s; l_deps := l_deps s; l_loading := m; l_pending := l_pending s; l_log := l_log s |}.
Definition set_pending (l : list string) (s : loader) : loader :=
  {| l_there := l_there s; l_deps := l_deps s; l_loading := l_loading s; l_pending := l; l_log := l_log s |}.
Definition log (e : event) (s : loader) : loader :=
  {| l_there := l_there s; l_deps := l_deps s; l_loading := l_loading s; l_pending := l_pending s; l_log := l_log s ++ [e] |}.

(** The calls that are still to be made; a function is called with the resource of a name. *)
Inductive action :=
| ADo (k : callback) (from : string)
| AGet (name : string) (k : callback)
| AFinish (name : string).

(** [this.loader(name, ...)]: the script is asked for. *)
Definition ask (name : string) (s : loader) : loader := log (EAsk name) (set_pending (l_pending s ++ [name]) s).

(** [loader.get(name, k)] *)
Definition l_get (name : string) (k : callback) (s : loader) : list action * loader :=
  match l_loading s !! name with
  | Some ks => ([], set_loading (<[name := ks ++ [k]]> (l_loading s)) s)
  | None =>
      if decide (name ∈ l_there s) then ([ADo k name], s)
      else ([], ask name (set_loading (<[name := [k]]> (l_loading s)) s))
  end.

(** [loader._loaded(name)] *)
Definition l_loaded (name : string) (s : loader) : res (list action * loader) :=
  let s' := set_loading (delete name (l_loading s)) s in
  if decide (name ∈ l_there s) then
    match l_loading s !! name with
    | Some ks => Ret (List.map (λ k, ADo k name) ks, s')
    | None => Throw TypeError
    end
  else Ret ([], log (EAlert name (default [] (l_loading s !! name))) s').

(** The chain of [loader._finish(name)] *)
Definition chain_of (name : string) (deps : list string) : callback := foldl (λ k d, CGet d k) (CLoaded name) deps.

Definition l_finish (name : string) (s : loader) : callback :=
  match l_deps s !! name with Some deps => chain_of name deps | None => CLoaded name end.

Definition act (a : action) (s : loader) : res (list action * loader) :=
  match a with
  | ADo (CUser id) from => Ret ([], log (ECall id from) s)
  | ADo (CLoaded name) _ => l_loaded name s
  | ADo (CGet name k) _ => Ret ([AGet name k], s)
  | AGet name k => Ret (l_get name k s)
  | AFinish name => Ret ([ADo (l_finish name s) name], s)
  end.

(** The calls until none is left; [None] when the fuel is used up. *)
Fixpoint run_calls (fuel : nat) (acts : list action) (s : loader) : option (res loader) :=
  match acts with
  | [] => Some (Ret s)
  | a :: acts' =>
      match fuel with
      | O => None
      | S fuel =>
          match act a s with
          | Ret (new, s') => run_calls fuel (new ++ acts') s'
          | Throw e => Some (Throw e)
          end
      end
  end.

(** [loader.dependency(current, next)]; the code looks at the list of the global [name]
    instead of that of [next]. *)
Definition dependency (global_name current next : string) (s : loader) : loader :=
  if decide (next ∈ l_there s ∧ l_loading s !! global_name = None) then s
  else {| l_there := l_there s; l_loading := l_loading s; l_pending := l_pending s; l_log := l_log s;
          l_deps := <[current := default [] (l_deps s !! current) ++ [next]]> (l_deps s) |}.

(** The script of [name] is run: it says what it needs, and registers itself. *)
Definition run_script (global_name name : string) (needs : list string) (registers : bool) (s : loader) : loader :=
  let s := foldl (λ s d, dependency global_name name d s) s needs in
  if registers then {| l_there := {[name]} ∪ l_there s; l_deps := l_deps s; l_loading := l_loading s; l_pending := l_pending s; l_log := l_log s |} else s.

(** ** Sizes *)

Fixpoint size_of (k : callback) : nat := match k with CGet _ k => S (size_of k) | _ => 1 end.
Definition weight (s : loader) (a : action) : nat :=
  match a with
  | ADo k _ => 2 * size_of k
  | AGet _ k => 2 * size_of k + 1
  | AFinish name => 2 * size_of (l_finish name s) + 1
  end.
(** All functions that wait. *)
Definition waiting (m : gmap string (list callback)) : list callback := concat (map_to_list m).*2.
Definition total (acts : list action) (s : loader) : nat :=
  sum_list_with (weight s) acts + sum_list_with (λ k, 2 * size_of k) (waiting (l_loading s)).

(** ** Steps of the page and the browser *)

Inductive input :=
| IGet (name : string) (id : nat)                                         (* the page asks *)
| IScript (name : string) (needs : list string) (registers : bool).       (* a script arrives *)

Fixpoint remove_one (n : string) (l : list string) : list string :=
  match l with [] => [] | m :: l' => if String.eqb n m then l' else m :: remove_one n l' end.

(** The script of [getScript] runs, and then its [onload]; only a script that is on its way arrives. *)
Definition take_in (global_name : string) (i : input) (s : loader) : option (res loader) :=
  match i with
  | IGet name id => let a := AGet name (CUser id) in run_calls (total [a] s) [a] s
  | IScript name needs registers =>
      if decide (name ∈ l_pending s) then
        let s' := run_script global_name name needs registers (set_pending (remove_one name (l_pending s)) s) in
        run_calls (total [AFinish name] s') [AFinish name] s'
      else Some (Ret s)
  end.

Fixpoint take_all (global_name : string) (ins : list input) (s : loader) : option (res loader) :=
  match ins with
  | [] => Some (Ret s)
  | i :: ins' => match take_in global_name i s with Some (Ret s') => take_all global_name ins' s' | r => r end
  end.
