(* ===== verification/LoaderFacts.v ===== *)
(** * Loading brushes keeps its callbacks (about ResourceLoader)

    However requests and scripts come, the calls of the loader end without an error, every
    function of the page is called at most once, and only when the resource it asked for
    and what that resource needs are there. *)

From S2P Require Import Prelude ResourceLoader.

(** ** Functions that wait *)

Lemma waiting_insert m n ks : m !! n = None → waiting (<[n := ks]> m) ≡ₚ ks ++ waiting m.
Proof. intros H. unfold waiting. by rewrite (map_to_list_insert m n ks H). Qed.
Lemma waiting_delete m n ks : m !! n = Some ks → waiting m ≡ₚ ks ++ waiting (delete n m).
Proof. intros H. rewrite <- (waiting_insert (delete n m) n ks) by apply lookup_delete_eq. by rewrite insert_delete_id. Qed.
Lemma waiting_push m n ks k : m !! n = Some ks → waiting (<[n := ks ++ [k]]> m) ≡ₚ k :: waiting m.
Proof.
  intros H. rewrite (waiting_delete m n ks H). rewrite <- insert_delete_eq, waiting_insert by apply lookup_delete_eq.
  rewrite <- app_assoc. cbn. by rewrite <- Permutation_middle.
Qed.

Definition names (m : gmap string (list callback)) : list string := (map_to_list m).*1.
Lemma names_insert m n ks : m !! n = None → names (<[n := ks]> m) ≡ₚ n :: names m.
Proof. intros H. unfold names. by rewrite (map_to_list_insert m n ks H). Qed.
Lemma names_delete m n ks : m !! n = Some ks → names m ≡ₚ n :: names (delete n m).
Proof. intros H. rewrite <- (names_insert (delete n m) n ks) by apply lookup_delete_eq. by rewrite insert_delete_id. Qed.
Lemma names_push m n ks ks' : m !! n = Some ks → names (<[n := ks']> m) ≡ₚ names m.
Proof. intros H. rewrite (names_delete m n ks H). by rewrite <- insert_delete_eq, names_insert by apply lookup_delete_eq. Qed.
Lemma elem_of_names m n : n ∈ names m → is_Some (m !! n).
Proof. unfold names. rewrite list_elem_of_fmap. intros ([n' ks] & -> & H). apply elem_of_map_to_list in H. by eexists. Qed.

(** ** The calls end *)

Lemma weight_deps s s' a : l_deps s' = l_deps s → weight s' a = weight s a.
Proof. intros H. destruct a; [done|done|]. cbn. unfold l_finish. by rewrite H. Qed.

Lemma act_deps a s new s' : act a s = Ret (new, s') → l_deps s' = l_deps s.
Proof.
  destruct a as [[id|n|n k] from|n k|n]; cbn; try (by intros [= <- <-]).
  - unfold l_loaded. repeat case_match; by intros [= <- <-].
  - unfold l_get. destruct (l_loading s !! n) as [ks|]; [by intros [= <- <-]|]. case_decide; by intros [= <- <-].
Qed.

Lemma weights_deps s s' acts : l_deps s' = l_deps s → sum_list_with (weight s') acts = sum_list_with (weight s) acts.
Proof. intros H. induction acts as [|a acts IH]; [done|]. cbn. by rewrite (weight_deps s s' a H), IH. Qed.
Lemma weights_called s ks n : sum_list_with (weight s) (List.map (λ k, ADo k n) ks) = sum_list_with (λ k, 2 * size_of k) ks.
Proof. induction ks as [|k ks IH]; [done|]. cbn [List.map sum_list_with]. by rewrite IH. Qed.
Lemma size_pos k : 0 < size_of k.
Proof. destruct k; cbn; lia. Qed.

(** Each call leaves less to do. *)
Lemma act_smaller a s new s' acts : act a s = Ret (new, s') → total (new ++ acts) s' < total (a :: acts) s.
Proof.
  intros E. pose proof (act_deps _ _ _ _ E) as Hd. unfold total. rewrite sum_list_with_app, !(weights_deps s s') by done. cbn [sum_list_with].
  destruct a as [[id|n|n k] from|n k|n]; cbn [act weight size_of] in *.
  - injection E as <- <-. cbn. lia.
  - unfold l_loaded in E. case_decide.
    + destruct (l_loading s !! n) as [ks|] eqn:El; [|done]. injection E as <- <-. cbn [l_loading set_loading].
      rewrite (waiting_delete _ _ _ El), sum_list_with_app, weights_called. lia.
    + injection E as <- <-. cbn [l_loading set_loading log sum_list_with]. destruct (l_loading s !! n) as [ks|] eqn:El; [|by rewrite delete_id by done; lia].
      rewrite (waiting_delete _ _ _ El). rewrite sum_list_with_app. lia.
  - injection E as <- <-. cbn [sum_list_with weight]. lia.
  - injection E as E. unfold l_get in E. destruct (l_loading s !! n) as [ks|] eqn:El.
    + injection E as <- <-. cbn [l_loading set_loading sum_list_with]. rewrite (waiting_push _ _ _ _ El). cbn. lia.
    + case_decide; injection E as <- <-; cbn [l_loading set_loading log ask set_pending sum_list_with weight]; [lia|].
      rewrite (waiting_insert _ _ _ El). cbn. lia.
  - injection E as <- <-. cbn [sum_list_with weight]. lia.
Qed.

(** ** Functions are kept *)

Fixpoint ids_of (k : callback) : list nat := match k with CUser id => [id] | CLoaded _ => [] | CGet _ k => ids_of k end.
Definition ids (ks : list callback) : list nat := concat (ids_of <$> ks).
Definition act_ids (a : action) : list nat := match a with ADo k _ | AGet _ k => ids_of k | AFinish _ => [] end.
Definition event_ids (e : event) : list nat := match e with ECall id _ => [id] | EAsk _ => [] | EAlert _ lost => ids lost end.

(** The functions that were called or lost, that are about to be called, and that wait. *)
Definition all_ids (acts : list action) (s : loader) : list nat :=
  concat (event_ids <$> l_log s) ++ concat (act_ids <$> acts) ++ ids (waiting (l_loading s)).

#[export] Instance ids_perm : Proper ((≡ₚ) ==> (≡ₚ)) ids.
Proof. intros l l' H. unfold ids. by rewrite H. Qed.
Lemma ids_app l l' : ids (l ++ l') = ids l ++ ids l'.
Proof. unfold ids. by rewrite fmap_app, concat_app. Qed.
Lemma ids_called ks n : concat (act_ids <$> List.map (λ k, ADo k n) ks) = ids ks.
Proof. unfold ids. change (List.map (λ k, ADo k n) ks) with ((λ k, ADo k n) <$> ks). by rewrite <- list_fmap_compose. Qed.
Lemma chain_ids name deps : ids_of (chain_of name deps) = [].
Proof. unfold chain_of. assert (H : ids_of (CLoaded name) = []) by done. revert H. generalize (CLoaded name). induction deps as [|d deps IH]; intros k H; [done|]. cbn. by apply IH. Qed.

Lemma log_ids e s : concat (event_ids <$> l_log (log e s)) = concat (event_ids <$> l_log s) ++ event_ids e.
Proof. cbn. by rewrite fmap_app, concat_app; cbn; rewrite app_nil_r. Qed.

Lemma act_keeps_ids a s new s' acts : act a s = Ret (new, s') → all_ids (new ++ acts) s' ≡ₚ all_ids (a :: acts) s.
Proof.
  intros E. unfold all_ids. rewrite fmap_app, concat_app. cbn [fmap list_fmap concat].
  destruct a as [[id|n|n k] from|n k|n]; cbn [act act_ids ids_of] in *.
  - injection E as <- <-. rewrite log_ids. cbn [fmap list_fmap concat app event_ids l_loading log]. by rewrite <- app_assoc.
  - unfold l_loaded in E. case_decide.
    + destruct (l_loading s !! n) as [ks|] eqn:El; [|done]. injection E as <- <-. cbn [l_loading set_loading l_log].
      rewrite (waiting_delete _ _ _ El), ids_app, ids_called. solve_Permutation.
    + injection E as <- <-. rewrite log_ids. cbn [l_loading set_loading log l_log event_ids fmap list_fmap concat app].
      destruct (l_loading s !! n) as [ks|] eqn:El; cbn [default].
      * rewrite (waiting_delete _ _ _ El). rewrite ids_app. solve_Permutation.
      * rewrite delete_id by done. by rewrite app_nil_r.
  - injection E as <- <-. cbn. by rewrite app_nil_r.
  - injection E as E. unfold l_get in E. destruct (l_loading s !! n) as [ks|] eqn:El.
    + injection E as <- <-. cbn [l_loading set_loading l_log fmap list_fmap concat app]. rewrite (waiting_push _ _ _ _ El). unfold ids at 1. cbn. fold (ids (waiting (l_loading s))).
      solve_Permutation.
    + case_decide; injection E as <- <-; [cbn; by rewrite app_nil_r|]. unfold ask. rewrite log_ids. cbn [l_loading set_loading set_pending log l_log event_ids fmap list_fmap concat app].
      rewrite (waiting_insert _ _ _ El), ids_app. unfold ids at 1. cbn. rewrite !app_nil_r. solve_Permutation.
  - injection E as <- <-. unfold l_finish. destruct (l_deps s !! n) as [deps|]; cbn; [|done]. by rewrite chain_ids.
Qed.

(** ** Each name that is loading is loaded once *)

Fixpoint target (k : callback) : list string := match k with CUser _ => [] | CLoaded n => [n] | CGet _ k => target k end.
Definition targets (ks : list callback) : list string := concat (target <$> ks).
Definition act_target (a : action) : list string := match a with ADo k _ | AGet _ k => target k | AFinish n => [n] end.
Definition event_target (e : event) : list string := match e with EAlert _ lost => targets lost | _ => [] end.

#[export] Instance targets_perm : Proper ((≡ₚ) ==> (≡ₚ)) targets.
Proof. intros l l' H. unfold targets. by rewrite H. Qed.
Lemma targets_app l l' : targets (l ++ l') = targets l ++ targets l'.
Proof. unfold targets. by rewrite fmap_app, concat_app. Qed.
Lemma targets_called ks n : concat (act_target <$> List.map (λ k, ADo k n) ks) = targets ks.
Proof. unfold targets. change (List.map (λ k, ADo k n) ks) with ((λ k, ADo k n) <$> ks). by rewrite <- list_fmap_compose. Qed.
Lemma chain_target name deps : target (chain_of name deps) = [name].
Proof. unfold chain_of. assert (H : target (CLoaded name) = [name]) by done. revert H. generalize (CLoaded name). induction deps as [|d deps IH]; intros k H; [done|]. cbn. by apply IH. Qed.
Lemma finish_target name s : target (l_finish name s) = [name].
Proof. unfold l_finish. destruct (l_deps s !! name); [apply chain_target|done]. Qed.

(** Those that will still be loaded, those that never will, and those whose script is on
    its way: together, the names that are loading, each once. *)
Definition all_targets (acts : list action) (s : loader) : list string :=
  concat (event_target <$> l_log s) ++ concat (act_target <$> acts) ++ targets (waiting (l_loading s)) ++ l_pending s.
Definition accounted (acts : list action) (s : loader) : Prop := all_targets acts s ≡ₚ names (l_loading s).

Lemma log_target e s : concat (event_target <$> l_log (log e s)) = concat (event_target <$> l_log s) ++ event_target e.
Proof. cbn. by rewrite fmap_app, concat_app; cbn; rewrite app_nil_r. Qed.

Lemma act_accounted a s new s' acts : act a s = Ret (new, s') → accounted (a :: acts) s → accounted (new ++ acts) s'.
Proof.
  intros E. unfold accounted, all_targets. rewrite fmap_app, concat_app. cbn [fmap list_fmap concat]. intros H.
  destruct a as [[id|n|n k] from|n k|n]; cbn [act act_target target] in *.
  - injection E as <- <-. rewrite log_target. cbn [fmap list_fmap concat app event_target l_loading log]. by rewrite app_nil_r.
  - assert (Hn : n ∈ names (l_loading s)) by (rewrite <- H; set_solver). apply elem_of_names in Hn as [ks El].
    unfold l_loaded in E. rewrite El in E. rewrite (waiting_delete _ _ _ El), targets_app, (names_delete _ _ _ El) in H. case_decide; injection E as <- <-.
    + cbn [l_loading set_loading l_log l_pending]. rewrite targets_called. apply (Permutation_app_inv_l [n]). cbn [app]. rewrite <- H. solve_Permutation.
    + rewrite log_target. cbn [l_loading set_loading log l_log l_pending event_target fmap list_fmap concat app default].
      apply (Permutation_app_inv_l [n]). cbn [app]. rewrite <- H. solve_Permutation.
  - injection E as <- <-. cbn. by rewrite app_nil_r.
  - injection E as E. unfold l_get in E. destruct (l_loading s !! n) as [ks|] eqn:El.
    + injection E as <- <-. cbn [l_loading set_loading l_log l_pending fmap list_fmap concat app]. rewrite (waiting_push _ _ _ _ El), (names_push _ _ _ _ El), <- H.
      unfold targets at 1. cbn. fold (targets (waiting (l_loading s))). solve_Permutation.
    + case_decide; injection E as <- <-; [cbn; by rewrite app_nil_r|]. unfold ask. rewrite log_target.
      cbn [l_loading set_loading set_pending log l_log l_pending event_target fmap list_fmap concat app].
      rewrite (waiting_insert _ _ _ El), (names_insert _ _ _ El), targets_app, <- H. unfold targets at 1. cbn. rewrite !app_nil_r. solve_Permutation.
  - injection E as <- <-. cbn. by rewrite finish_target.
Qed.

(** A call never fails. *)
Lemma act_returns a s acts : accounted (a :: acts) s → ∃ new s', act a s = Ret (new, s').
Proof.
  intros H. destruct a as [[id|n|n k] from|n k|n]; cbn [act]; try (by eexists _, _).
  - assert (Hn : n ∈ names (l_loading s)) by (unfold accounted, all_targets in H; rewrite <- H; cbn; set_solver). apply elem_of_names in Hn as [ks El].
    unfold l_loaded. rewrite El. case_decide; by eexists _, _.
  - destruct (l_get n k s) as [new s']. by eexists _, _.
Qed.

(** ** What a function is called with *)

Definition needs_of (s : loader) (n : string) : list string := default [] (l_deps s !! n).
(** A resource with what it needs, and that is not loading. *)
Definition complete (s : loader) (n : string) : Prop := n ∈ l_there s ∧ l_loading s !! n = None ∧ ∀ d, d ∈ needs_of s n → d ∈ l_there s.

Fixpoint gets (k : callback) : list string := match k with CGet n k => n :: gets k | _ => [] end.

(** What the target of a chain needs is there, or the chain gets it. *)
Definition on_the_way (s : loader) (k : callback) (now : list string) : Prop :=
  ∀ n d, n ∈ target k → d ∈ needs_of s n → d ∈ gets k ∨ d ∈ now ∨ d ∈ l_there s.

Definition act_ok (s : loader) (a : action) : Prop :=
  match a with
  | ADo k from => on_the_way s k [] ∧ match k with CUser _ => complete s from | _ => True end
  | AGet n k => on_the_way s k [n]
  | AFinish n => True
  end.

Record in_step (acts : list action) (s : loader) : Prop := {
  step_waiting n ks k : l_loading s !! n = Some ks → k ∈ ks → on_the_way s k [n];
  step_there n : n ∈ l_there s → l_loading s !! n = None → complete s n;
  step_called id n : ECall id n ∈ l_log s → complete s n;
  step_acts : Forall (act_ok s) acts
}.

Lemma on_the_way_same s s' k now : l_deps s' = l_deps s → l_there s' = l_there s → on_the_way s k now → on_the_way s' k now.
Proof. intros Hd Ht H n d. unfold needs_of. rewrite Hd, Ht. apply H. Qed.
Lemma on_the_way_there s k n : n ∈ l_there s → on_the_way s k [n] → on_the_way s k [].
Proof. intros Hn H m d Hm Hd. destruct (H m d Hm Hd) as [?|[->%list_elem_of_singleton|?]]; auto. Qed.

Lemma act_there a s new s' : act a s = Ret (new, s') → l_there s' = l_there s.
Proof.
  destruct a as [[id|n|n k] from|n k|n]; cbn; try (by intros [= <- <-]).
  - unfold l_loaded. repeat case_match; by intros [= <- <-].
  - unfold l_get. destruct (l_loading s !! n) as [ks|]; [by intros [= <- <-]|]. case_decide; by intros [= <- <-].
Qed.
Lemma act_not_loading a s new s' n : act a s = Ret (new, s') → n ∈ l_there s → l_loading s !! n = None → l_loading s' !! n = None.
Proof.
  intros E Hn Hl. destruct a as [[id|m|m k] from|m k|m]; cbn in E; try (by injection E as <- <-).
  - unfold l_loaded in E. repeat case_match; try done; injection E as <- <-; cbn; apply lookup_delete_None; by right.
  - unfold l_get in E. destruct (l_loading s !! m) as [ks|] eqn:Em; [|case_decide]; injection E as <- <-; cbn; [|done|]; rewrite lookup_insert_ne; congruence.
Qed.
Lemma act_complete a s new s' n : act a s = Ret (new, s') → complete s n → complete s' n.
Proof.
  intros E (H1 & H2 & H3). split; [by rewrite (act_there _ _ _ _ E)|]. split; [by eapply act_not_loading|]. unfold needs_of. rewrite (act_deps _ _ _ _ E), (act_there _ _ _ _ E). done.
Qed.
Lemma act_ok_kept a b s new s' : act a s = Ret (new, s') → act_ok s b → act_ok s' b.
Proof.
  intros E. pose proof (act_deps _ _ _ _ E) as Hd. pose proof (act_there _ _ _ _ E) as Ht. destruct b as [k from|n k|n]; cbn; [|by apply on_the_way_same|done].
  intros [H1 H2]. split; [by apply (on_the_way_same s)|]. destruct k; try done. by eapply act_complete.
Qed.

Lemma chain_gets name deps d : d ∈ deps → d ∈ gets (chain_of name deps).
Proof.
  unfold chain_of. generalize (CLoaded name). induction deps as [|e deps IH]; intros k Hd; [by apply not_elem_of_nil in Hd|]. cbn. apply elem_of_cons in Hd as [->|Hd]; [|by apply IH].
  assert (e ∈ gets (CGet e k)) as H by left. revert H. generalize (CGet e k). clear. induction deps as [|d deps IH]; intros k Hk; [done|]. cbn. apply IH. by right.
Qed.

(** The calls that a call leaves are in step. *)
Lemma act_new_ok a s new s' acts : act a s = Ret (new, s') → in_step (a :: acts) s → Forall (act_ok s') new.
Proof.
  intros E [J1 J2 J3 J4]. inversion J4 as [|? ? Ha _]; subst. pose proof (act_deps _ _ _ _ E) as Hd. pose proof (act_there _ _ _ _ E) as Ht.
  destruct a as [[id|n|n k] from|n k|n]; cbn [act act_ok] in *.
  - injection E as <- <-. constructor.
  - unfold l_loaded in E. case_decide as Hn; [|injection E as <- <-; constructor]. destruct (l_loading s !! n) as [ks|] eqn:El; [|done]. injection E as <- <-.
    apply Forall_map, Forall_forall. intros k Hk. cbn. split.
    + apply on_the_way_there with n; [done|]. apply (on_the_way_same s); try done. by eapply J1.
    + destruct k; try done. split; [done|]. split; [cbn; apply lookup_delete_eq|]. intros d Hd'.
      destruct Ha as [Ha _]. destruct (Ha n d) as [?|[?|?]]; try done; [by left|by apply not_elem_of_nil in H|by apply not_elem_of_nil in H].
  - injection E as <- <-. constructor; [|constructor]. intros m d Hm Hdm. destruct Ha as [Ha _]. destruct (Ha m d Hm Hdm) as [Hg|[?|?]]; [|by apply not_elem_of_nil in H|auto].
    cbn in Hg. apply elem_of_cons in Hg as [->|Hg]; [right; left; by left|by left].
  - injection E as E. unfold l_get in E. destruct (l_loading s !! n) as [ks|] eqn:El; [injection E as <- <-; constructor|].
    case_decide as Hn; injection E as <- <-; constructor; [|constructor]. split; [by apply on_the_way_there with n|]. destruct k; try done. by apply J2.
  - injection E as <- <-. constructor; [|constructor]. unfold l_finish. split.
    + intros m d Hm Hdm. left. unfold needs_of in Hdm. destruct (l_deps s !! n) as [deps|] eqn:Ed.
      * rewrite chain_target in Hm. apply list_elem_of_singleton in Hm as ->. rewrite Ed in Hdm. by apply chain_gets.
      * apply list_elem_of_singleton in Hm as ->. rewrite Ed in Hdm. by apply not_elem_of_nil in Hdm.
    + destruct (l_deps s !! n) as [deps|]; [|done]. assert (H : target (chain_of n deps) = [n]) by apply chain_target. by destruct (chain_of n deps).
Qed.

Lemma act_in_step a s new s' acts : act a s = Ret (new, s') → in_step (a :: acts) s → in_step (new ++ acts) s'.
Proof.
  intros E J. pose proof (act_new_ok _ _ _ _ _ E J) as Hnew. pose proof (λ n, act_complete _ _ _ _ n E) as Hkeep. destruct J as [J1 J2 J3 J4]. inversion J4 as [|? ? Ha J5]; subst.
  pose proof (act_deps _ _ _ _ E) as Hd. pose proof (act_there _ _ _ _ E) as Ht. split.
  - intros m ks k Hm Hk. apply (on_the_way_same s); [done|done|].
    destruct a as [[id|n|n k2] from|n k2|n]; cbn [act act_ok] in *; try (injection E as <- <-; by eapply J1).
    + unfold l_loaded in E. repeat case_match; try done; injection E as <- <-; cbn in Hm; apply lookup_delete_Some in Hm as [_ Hm]; by eapply J1.
    + injection E as E. unfold l_get in E. destruct (l_loading s !! n) as [ks2|] eqn:El; [|case_decide]; injection E as <- <-; cbn in Hm; [| by eapply J1|].
      * apply lookup_insert_Some in Hm as [[<- <-]|[_ Hm]]; [|by eapply J1]. apply elem_of_app in Hk as [Hk|Hk%list_elem_of_singleton]; [by eapply J1|by subst].
      * apply lookup_insert_Some in Hm as [[<- <-]|[_ Hm]]; [|by eapply J1]. apply list_elem_of_singleton in Hk. by subst.
  - intros m Hm Hl. rewrite Ht in Hm. destruct (l_loading s !! m) as [ks|] eqn:Em; [|by apply Hkeep, J2].
    destruct a as [[id|n|n k2] from|n k2|n]; cbn [act act_ok] in *; try (injection E as <- <-; cbn in Hl; congruence).
    + unfold l_loaded in E. assert (m = n) as ->.
      { destruct (decide (m = n)); [done|]. repeat case_match; try done; injection E as <- <-; cbn in Hl; rewrite lookup_delete_ne in Hl by done; congruence. }
      split; [by rewrite Ht|]. split; [done|]. intros d Hdn. rewrite Ht. unfold needs_of in Hdn. rewrite Hd in Hdn. destruct Ha as [Ha _].
      destruct (Ha n d) as [H|[H|?]]; try done; [by left|by apply not_elem_of_nil in H|by apply not_elem_of_nil in H].
    + injection E as E. unfold l_get in E. destruct (l_loading s !! n) as [ks2|] eqn:El; [|case_decide]; injection E as <- <-; cbn in Hl; [|congruence|];
        (destruct (decide (m = n)) as [->|]; [by rewrite lookup_insert_eq in Hl|rewrite lookup_insert_ne in Hl by done; congruence]).
  - intros id m Hm. destruct a as [[id2|n|n k2] from|n k2|n]; cbn [act act_ok] in *.
    + injection E as <- <-. cbn in Hm. apply elem_of_app in Hm as [Hm|Hm%list_elem_of_singleton]; [by apply (J3 id)|]. injection Hm as -> ->. by destruct Ha.
    + apply Hkeep, (J3 id). unfold l_loaded in E. repeat case_match; try done; injection E as <- <-; [done|]. cbn in Hm.
      apply elem_of_app in Hm as [Hm|Hm%list_elem_of_singleton]; done.
    + injection E as <- <-. by apply (J3 id).
    + apply Hkeep, (J3 id). injection E as E. unfold l_get in E. destruct (l_loading s !! n); [|case_decide]; injection E as <- <-; try done.
      cbn in Hm. apply elem_of_app in Hm as [Hm|Hm%list_elem_of_singleton]; done.
    + injection E as <- <-. by apply (J3 id).
  - apply Forall_app. split; [done|]. apply (Forall_impl _ _ _ J5). intros b. by apply (act_ok_kept a b s new s' E).
Qed.

(** ** Runs *)

Definition settled (acts : list action) (s : loader) : Prop := accounted acts s ∧ in_step acts s.

Lemma run_calls_settled fuel : ∀ acts s, total acts s <= fuel → settled acts s →
  ∃ s', run_calls fuel acts s = Some (Ret s') ∧ settled [] s' ∧ all_ids [] s' ≡ₚ all_ids acts s.
Proof.
  induction fuel as [|fuel IH]; intros acts s Hf [Hw Hj]; (destruct acts as [|a acts]; [by exists s|]); destruct (act_returns _ _ _ Hw) as (new & s' & E);
    pose proof (act_smaller _ _ _ _ acts E); [lia|].
  cbn [run_calls]. rewrite E. destruct (IH (new ++ acts) s') as (s2 & E2 & H2 & Hi); [lia|split; [by eapply act_accounted|by eapply act_in_step]|].
  exists s2. split; [done|]. split; [done|]. by rewrite Hi, (act_keeps_ids _ _ _ _ _ E).
Qed.

(** A script changes what its own name needs, and what is there. *)
Lemma needs_script g name needs s : let s' := foldl (λ s d, dependency g name d s) s needs in
  l_there s' = l_there s ∧ l_loading s' = l_loading s ∧ l_pending s' = l_pending s ∧ l_log s' = l_log s ∧ ∀ n, n ≠ name → needs_of s' n = needs_of s n.
Proof.
  induction needs as [|d needs IH] in s |- *; [done|]. cbn. destruct (IH (dependency g name d s)) as (H1 & H2 & H3 & H4 & H5).
  assert (H : let s' := dependency g name d s in l_there s' = l_there s ∧ l_loading s' = l_loading s ∧ l_pending s' = l_pending s ∧ l_log s' = l_log s ∧
    ∀ n, n ≠ name → needs_of s' n = needs_of s n).
  { unfold dependency. case_decide; [done|]. cbn. repeat split. intros n Hn. unfold needs_of. cbn. by rewrite lookup_insert_ne by done. }
  destruct H as (G1 & G2 & G3 & G4 & G5). rewrite H1, H2, H3, H4. repeat split; try done. intros n Hn. by rewrite H5, G5.
Qed.

Lemma script_effect g name needs r s : let s' := run_script g name needs r s in
  l_there s ⊆ l_there s' ∧ l_there s' ⊆ {[name]} ∪ l_there s ∧ l_loading s' = l_loading s ∧ l_pending s' = l_pending s ∧ l_log s' = l_log s ∧
  ∀ n, n ≠ name → needs_of s' n = needs_of s n.
Proof.
  destruct (needs_script g name needs s) as (H1 & H2 & H3 & H4 & H5). unfold run_script. destruct r; cbn; rewrite ?H1; repeat split; try done; try set_solver.
Qed.

Lemma remove_one_perm n l : n ∈ l → l ≡ₚ n :: remove_one n l.
Proof.
  induction l as [|m l IH]; [by intros ?%not_elem_of_nil|]. intros Hn. cbn. destruct (String.eqb_spec n m) as [->|Hne]; [done|].
  apply elem_of_cons in Hn as [|Hn]; [done|]. rewrite (IH Hn) at 1. apply Permutation_swap.
Qed.

Lemma names_nodup m : NoDup (names m).
Proof. apply NoDup_fst_map_to_list. Qed.

(** The arrival of a script that was on its way. *)
Lemma script_settled g name needs r s : name ∈ l_pending s → settled [] s →
  settled [AFinish name] (run_script g name needs r (set_pending (remove_one name (l_pending s)) s)).
Proof.
  intros Hp [Hw [J1 J2 J3 J4]]. set (s0 := set_pending (remove_one name (l_pending s)) s). pose proof (script_effect g name needs r s0) as (E1 & E2 & E3 & E4 & E5 & E6).
  set (s' := run_script g name needs r s0) in *. assert (Hnd : NoDup (all_targets [] s)) by (unfold accounted in Hw; rewrite Hw; apply names_nodup).
  assert (Hl : is_Some (l_loading s !! name)). { apply elem_of_names. unfold accounted in Hw. rewrite <- Hw. unfold all_targets. set_solver. }
  assert (Hnt : ∀ n ks k, l_loading s !! n = Some ks → k ∈ ks → name ∉ target k).
  { intros n ks k Hn Hk Ht. unfold all_targets in Hnd. cbn in Hnd. apply NoDup_app in Hnd as (_ & _ & Hnd). apply NoDup_app in Hnd as (_ & Hdis & _). apply (Hdis name); [|done].
    rewrite (waiting_delete _ _ _ Hn), targets_app. apply elem_of_app. left. unfold targets. apply list_elem_of_In, in_concat. exists (target k).
    split; [|by apply list_elem_of_In]. apply list_elem_of_In, list_elem_of_fmap. by exists k. }
  assert (Hc : ∀ n, complete s n → complete s' n).
  { intros n (C1 & C2 & C3). assert (n ≠ name) by (intros ->; destruct Hl; congruence). split; [by apply E1|]. split; [by rewrite E3|]. intros d. rewrite E6 by done. intros Hd. by apply E1, C3. }
  split; [|split].
  - unfold accounted, all_targets in *. rewrite E3, E4, E5. cbn [l_log set_pending s0 l_loading l_pending fmap list_fmap concat app act_target] in *. rewrite <- Hw.
    rewrite (remove_one_perm name (l_pending s)) at 2 by done. solve_Permutation.
  - rewrite E3. intros n ks k Hn Hk m d Hm Hd. destruct (decide (m = name)) as [->|Hne]; [by destruct (Hnt n ks k)|]. rewrite E6 in Hd by done.
    destruct (J1 n ks k Hn Hk m d Hm Hd) as [?|[?|?]]; auto.
  - intros n Hn Hnl. rewrite E3 in Hnl. apply Hc, J2; [|done]. apply E2, elem_of_union in Hn as [->%elem_of_singleton|]; [|done]. destruct Hl; cbn in Hnl; congruence.
  - intros id n Hn. rewrite E5 in Hn. by apply Hc, (J3 id).
  - constructor; [done|constructor].
Qed.

Definition asked_ids (i : input) : list nat := match i with IGet _ id => [id] | IScript _ _ _ => [] end.

Lemma take_in_settled g i s : settled [] s → ∃ s', take_in g i s = Some (Ret s') ∧ settled [] s' ∧ all_ids [] s' ≡ₚ asked_ids i ++ all_ids [] s.
Proof.
  intros Hs. destruct i as [name id|name needs r]; cbn [take_in asked_ids].
  - destruct (run_calls_settled (total [AGet name (CUser id)] s) [AGet name (CUser id)] s) as (s' & E & H & Hi); [done| |].
    + destruct Hs as [Hw [J1 J2 J3 J4]]. split; [done|]. split; try done. constructor; [|constructor]. intros n d Hn. by apply not_elem_of_nil in Hn.
    + exists s'. split; [done|]. split; [done|]. rewrite Hi. unfold all_ids. cbn. by rewrite <- Permutation_middle.
  - case_decide as Hp; [|by exists s]. pose proof (script_settled g name needs r s Hp Hs) as Hs'. set (s0 := run_script _ _ _ _ _) in *.
    destruct (run_calls_settled (total [AFinish name] s0) [AFinish name] s0) as (s' & E & H & Hi); [done|done|]. exists s'. split; [done|]. split; [done|]. rewrite Hi.
    destruct (script_effect g name needs r (set_pending (remove_one name (l_pending s)) s)) as (_ & _ & E3 & _ & E5 & _). unfold all_ids, s0. rewrite E3, E5. done.
Qed.

Lemma new_settled : settled [] new_loader.
Proof.
  split; [unfold accounted, all_targets, names, waiting; cbn; by rewrite map_to_list_empty|]. split; cbn.
  - intros n ks k H. by rewrite lookup_empty in H.
  - intros n Hn _. split; [done|]. split; [apply lookup_empty|]. intros d Hd. unfold needs_of in Hd. cbn in Hd. by apply not_elem_of_nil in Hd.
  - intros id n H. by apply not_elem_of_nil in H.
  - constructor.
Qed.

Lemma take_all_settled g ins : ∀ s, settled [] s → ∃ s', take_all g ins s = Some (Ret s') ∧ settled [] s' ∧ all_ids [] s' ≡ₚ concat (asked_ids <$> ins) ++ all_ids [] s.
Proof.
  induction ins as [|i ins IH]; intros s Hs; [by exists s|]. destruct (take_in_settled g i s Hs) as (s1 & E1 & H1 & P1).
  destruct (IH s1 H1) as (s2 & E2 & H2 & P2). exists s2. cbn. rewrite E1. split; [done|]. split; [done|]. rewrite P2, P1. solve_Permutation.
Qed.

(** ** The claims *)

Definition called (s : loader) : list nat := omap (λ e, match e with ECall id _ => Some id | _ => None end) (l_log s).
Definition lost (s : loader) : list nat := concat ((λ e, match e with EAlert _ ks => ids ks | _ => [] end) <$> l_log s).

Lemma log_split l : concat (event_ids <$> l) ≡ₚ omap (λ e, match e with ECall id _ => Some id | _ => None end) l ++ concat ((λ e, match e with EAlert _ ks => ids ks | _ => [] end) <$> l).
Proof. induction l as [|[id n|n|n ks] l IH]; cbn; [done|by rewrite IH|exact IH|]. rewrite IH. solve_Permutation. Qed.

(** C14. However the page asks for resources and scripts arrive, the calls of the loader end
    without an error, and no function is forgotten or called twice: the functions that were
    asked with are those that have been called, those that wait, and those that were given
    up when a script had not registered its resource. *)
Theorem loader_keeps_callbacks g ins : ∃ s, take_all g ins new_loader = Some (Ret s) ∧
  called s ++ ids (waiting (l_loading s)) ++ lost s ≡ₚ concat (asked_ids <$> ins).
Proof.
  destruct (take_all_settled g ins new_loader new_settled) as (s & E & _ & H). exists s. split; [done|].
  assert (H0 : all_ids [] new_loader = []) by (unfold all_ids, waiting; cbn; by rewrite map_to_list_empty). rewrite H0, app_nil_r in H.
  unfold all_ids in H. rewrite log_split in H. rewrite <- H. cbn [fmap list_fmap concat app]. unfold called, lost. solve_Permutation.
Qed.

(** A function of the page is called only with a resource that is there, when all that
    the script of that resource was to wait for is there too. *)
Theorem called_when_there g ins s id n : take_all g ins new_loader = Some (Ret s) → ECall id n ∈ l_log s →
  n ∈ l_there s ∧ ∀ d, d ∈ default [] (l_deps s !! n) → d ∈ l_there s.
Proof.
  intros E Hc. destruct (take_all_settled g ins new_loader new_settled) as (s' & E' & [_ J] & _). rewrite E in E'. injection E' as <-.
  destruct (step_called _ _ J id n Hc) as (H1 & _ & H3). done.
Qed.

Definition some_inputs : list input := [IGet "a" 1; IGet "a" 2; IScript "a" ["b"] true; IScript "b" [] true; IGet "a" 3].
Lemma called_when_there_witness : ∃ s, take_all "" some_inputs new_loader = Some (Ret s) ∧ called s = [1; 2; 3] ∧ "b" ∈ l_there s.
Proof.
  eexists. split; [vm_compute; reflexivity|]. split; [vm_compute; reflexivity|].
  apply (proj2 (called_when_there "" some_inputs _ 1 "a" eq_refl ltac:(vm_compute; set_solver)) "b"). vm_compute. set_solver.
Defined.

(** The resource [b] has registered but still waits for [c]; [a] needs [b], and is loaded
    all the same: [dependency] looks at the list of another name. *)
Lemma dependency_not_waited_for : ∃ s, take_all "" [IGet "b" 1; IGet "a" 2; IScript "b" ["c"] true; IScript "a" ["b"] true] new_loader = Some (Ret s) ∧
  called s = [2] ∧ l_loading s !! "b" = Some [CUser 1] ∧ l_pending s = ["c"].
Proof. eexists. split; [vm_compute; reflexivity|]. by vm_compute. Qed.
