(* ===== verification/SyntaxPage.v ===== *)
(** * Highlighting a page (jquery.syntax.core.js: highlight; jquery.syntax.js: aliases)

    Elements of a page are highlighted with the options of the call: the brush is named
    by the class of the element or by a line for editors in its text, which may also set
    the width of tabs.  All elements of one call share one object of options. *)

From S2P Require Import Prelude JSValue Forms SyntaxTree SyntaxTreeFacts SyntaxCut Patterns PatternFacts SyntaxBrush SyntaxBrushFacts SyntaxTabs SyntaxAnnotate SyntaxClang SyntaxHighlight.

(** ** Names of brushes *)

(** The own properties of [Syntax.aliases]; names that every object has are not looked up. *)
Definition aliases := list (string * string).

(** [Syntax.alias(name, aliases)] *)
Definition add_aliases (name : string) (others : list string) (l : aliases) : aliases :=
  foldl (λ l a, prop_put a name l) (prop_put name name l) others.

(** [Syntax.brushAliases(brush)] and [Syntax.brushNames()] *)
Definition brushAliases (brush : string) (l : aliases) : list string := (List.filter (λ an, String.eqb an.2 brush) l).*1.
Definition brushNames (l : aliases) : list string := (List.filter (λ an, String.eqb an.1 an.2) l).*1.

Definition class_pattern : pattern :=
  Eval vm_compute in default {| p_pat := PEmpty; p_flags := flags_of ""; p_groups := 0 |} (RegExp (chars "brush-([\S]+)") (flags_of "")).

(** The first of the classes that is an alias. *)
Fixpoint first_alias (l : aliases) (classes : list string) : option string :=
  match classes with
  | [] => None
  | c :: cs => match assoc c l with Some "" | None => first_alias l cs | Some n => Some n end
  end.

(** [Syntax.extractBrushName(className)] *)
Definition extractBrushName (l : aliases) (className : string) : option string :=
  let c := lower className in
  match pattern_exec class_pattern (chars c) 0 with
  | Some mt => string_of_list_ascii <$> group (chars c) mt 1
  | None => let cs := split_char " " c in if existsb (String.eqb "syntax") cs then first_alias l cs else None
  end.

(** ** The line for editors *)

Definition mode_pattern : pattern :=
  Eval vm_compute in default {| p_pat := PEmpty; p_flags := flags_of ""; p_groups := 0 |} (RegExp (chars "-\*- mode: (.+?);(.*?)-\*-") (flags_of "i")).
Definition setting_pattern : pattern :=
  Eval vm_compute in default {| p_pat := PEmpty; p_flags := flags_of ""; p_groups := 0 |} (RegExp (chars "([a-z\-]+)\:(.*?)\;") (flags_of "gi")).

(** [parseInt(value, 10)]; not a number is [None]. *)
Definition parse_width (s : string) : option Z :=
  let '(neg, t) := match ltrim s with String "-" t => (true, t) | String "+" t => (false, t) | t => (false, t) end in
  let ds := (span_digits t).1 in
  if String.eqb ds "" then None else Some (if neg : bool then - Z.of_N (nat_of_digits ds) else Z.of_N (nat_of_digits ds))%Z.

Record page_options := { po_brush : option string; po : options }.
Definition set_width (w : option Z) (o : page_options) : page_options :=
  {| po_brush := po_brush o; po := {| o_tabWidth := w; o_matches := o_matches (po o); o_linkify := o_linkify (po o) |} |}.
Definition set_matches (ms : list node) (o : page_options) : page_options :=
  {| po_brush := po_brush o; po := {| o_tabWidth := o_tabWidth (po o); o_matches := ms; o_linkify := o_linkify (po o) |} |}.

Definition group_string (t : text) (mt : pmatch) (i : nat) : string := string_of_list_ascii (default [] (group t mt i)).

(** Functions that all objects have, and that fail when they are called without one. *)
Definition fails_alone (name : string) : bool := existsb (String.eqb name) ["valueOf"; "hasOwnProperty"; "propertyIsEnumerable"; "toLocaleString"].

(** The settings of the line, by the functions in [Syntax.modeLineOptions]. *)
Fixpoint read_settings (fuel : nat) (t : text) (last : nat) (o : page_options) : res page_options :=
  match fuel with
  | O => Ret o
  | S fuel =>
      match pattern_exec setting_pattern t last with
      | None => Ret o
      | Some mt =>
          let name := group_string t mt 1 in
          if fails_alone name then Throw TypeError
          else read_settings fuel t (mt_end mt) (if String.eqb name "tab-width" then set_width (parse_width (group_string t mt 2)) o else o)
      end
  end.

(** [text.indexOf("\n", text.indexOf("\n") + 1)] *)
Definition second_line_end (t : text) : Z :=
  let i := (index_of [newline] t 0 + 1)%Z in index_of [newline] (drop (Z.to_nat i) t) i.

Definition read_mode (t : text) (o : page_options) : res page_options :=
  match pattern_exec mode_pattern t 0 with
  | Some mt =>
      if (Z.of_nat (mt_index mt) <? second_line_end t)%Z then
        let b := match po_brush o with Some "" | None => Some (group_string t mt 1) | b => b end in
        let line := default [] (group t mt 2) in
        read_settings (S (length line)) line 0 {| po_brush := b; po := po o |}
      else Ret o
  | None => Ret o
  end.

(** ** Elements *)

(** What replaces an element: the classes of the [pre], and its lines. *)
Record block := { bl_classes : list string; bl_lines : list html }.

(** [addClass], for one class *)
Definition addClass (c : string) (b : block) : block :=
  if existsb (String.eqb c) (bl_classes b) then b else {| bl_classes := bl_classes b ++ [c]; bl_lines := bl_lines b |}.

(** [Syntax.layouts]: the layout of the core, and the one of the help pages *)
Definition layouts (name : string) : option (block → block) :=
  if String.eqb name "preformatted" then Some (λ b, b)
  else if String.eqb name "yelp" then Some (addClass "contents")
  else None.

(** The classes of a theme and of those it depends on. *)
Definition add_theme (themes : list (string * list string)) (theme : string) (b : block) : res block :=
  if String.eqb theme "" then Ret b
  else match assoc theme themes with
       | None => Throw TypeError
       | Some ts => Ret (addClass ("syntax-theme-" +:+ theme) (foldl (λ b t, addClass ("syntax-theme-" +:+ t) b) b ts))
       end.

(** [jQuery(this).syntax(options)] as [jQuery.syntax] calls it on one element: the options are
    a copy made for that element, with the brush its class names. *)
Record page := { pg_tabWidth : option (option Z); pg_linkify : bool; pg_theme : string; pg_layout : string }.

Section page.
Context (rendered : dom → option text) (brushes : list (string * brush)) (known : aliases) (themes : list (string * list string)).
Context (own_process : expression → option (html → node → html)) (processes : string → option string → option (html → node → html)).

(** The name of the brush in [Syntax.highlightText]. *)
Definition brush_name (o : page_options) : string :=
  let n := lower (match po_brush o with Some "" | None => "plain" | Some b => b end) in
  match assoc n known with Some "" | None => n | Some n' => n' end.

(** The options that [Syntax.highlight] starts with, and those after the element is read. *)
Definition options_for (pg : page) (className : string) : page_options :=
  {| po_brush := extractBrushName known className;
     po := {| o_tabWidth := default (Some 4%Z) (pg_tabWidth pg); o_matches := []; o_linkify := pg_linkify pg |} |}.

Definition read_element (d : dom) (o : page_options) : res (text * page_options) :=
  ms ← extractElementMatches rendered d;
  t ← innerText rendered d;
  o ← read_mode t (set_matches (o_matches (po o) ++ ms) o);
  Ret (t, o).

(** [Syntax.highlight] on the element, with its brush and its layout: [None] while one of
    them is not loaded. *)
Definition highlight (depth : nat) (pg : page) (className : string) (d : dom) : work (option block) :=
  '(t, o) ← from_res (read_element d (options_for pg className));
  match assoc (brush_name o) brushes with
  | None => mret None
  | Some b =>
      '(l, _) ← highlightText brushes own_process processes depth b t (po o);
      match layouts (pg_layout pg) with
      | None => mret None
      | Some layout => h ← from_res (add_theme themes (pg_theme pg) (layout {| bl_classes := ["syntax"]; bl_lines := l |})); mret (Some h)
      end
  end.
End page.

(** ** Aliases *)

Lemma add_aliases_spec name others l a :
  assoc a (add_aliases name others l) = if existsb (String.eqb a) (name :: others) then Some name else assoc a l.
Proof.
  unfold add_aliases. change (foldl _ _ others) with (foldl (λ l a, prop_put a name l) l (name :: others)).
  generalize (name :: others) as names. intros names. induction names as [|b names IH] in l |- *; cbn [foldl existsb]; [done|].
  rewrite IH, assoc_prop_put. by destruct (String.eqb a b), (existsb (String.eqb a) names).
Qed.

Lemma add_aliases_NoDup name others l : NoDup l.*1 → NoDup (add_aliases name others l).*1.
Proof.
  intros Hl. unfold add_aliases. apply (prop_put_NoDup name name) in Hl. revert Hl. generalize (prop_put name name l) as l'.
  induction others as [|b others IH]; intros l' Hl; cbn [foldl]; [done|]. by apply IH, prop_put_NoDup.
Qed.

Lemma brushAliases_spec b l a : NoDup l.*1 → a ∈ brushAliases b l ↔ assoc a l = Some b.
Proof.
  intros Hl. unfold brushAliases. rewrite list_elem_of_fmap. split.
  - intros ([a' b'] & -> & H). apply list_elem_of_In, List.filter_In in H as [H E]. apply String.eqb_eq in E. cbn in E. subst b'.
    apply list_elem_of_In in H. cbn. induction l as [|[k v] l IH]; [by apply elem_of_nil in H|]. cbn [assoc]. cbn in Hl. apply NoDup_cons in Hl as [Hk Hl].
    apply elem_of_cons in H as [[= -> ->]|H]; [by rewrite String.eqb_refl|]. rewrite IH by done. destruct (String.eqb_spec a' k); [|done]. subst k.
    destruct Hk. apply list_elem_of_fmap. by exists (a', b).
  - intros H. exists (a, b). split; [done|]. apply list_elem_of_In, List.filter_In. split; [by apply list_elem_of_In, assoc_elem|]. cbn. apply String.eqb_refl.
Qed.

(** What a brush is called after [Syntax.alias]: its name and the aliases given now, whatever
    they stood for before, and what it was called already. *)
Theorem aliases_of_brush name others l a : NoDup l.*1 →
  a ∈ brushAliases name (add_aliases name others l) ↔ a ∈ name :: others ∨ a ∈ brushAliases name l.
Proof.
  intros Hl. rewrite !brushAliases_spec by auto using add_aliases_NoDup. rewrite add_aliases_spec.
  destruct (existsb (String.eqb a) (name :: others)) eqn:E.
  - apply existsb_exists in E as (b & Hb & <-%String.eqb_eq). apply list_elem_of_In in Hb. naive_solver.
  - split; [by right|]. intros [H|H]; [|done]. apply list_elem_of_In in H. exfalso. apply not_true_iff_false in E. apply E, existsb_exists.
    exists a. split; [done|]. apply String.eqb_refl.
Qed.

Lemma aliases_of_brush_witness : "cpp" ∈ brushAliases "clang" (add_aliases "clang" ["c"; "cpp"] [("cpp", "other")]).
Proof. apply (aliases_of_brush "clang" ["c"; "cpp"] [("cpp", "other")] "cpp"); [apply NoDup_singleton|]. left. right. right. left. Defined.

(** ** The line for editors *)

(** The line changes neither a brush that is named nor what the options have besides the width. *)
Lemma read_settings_keeps fuel t last o o' : read_settings fuel t last o = Ret o' →
  po_brush o' = po_brush o ∧ o_matches (po o') = o_matches (po o) ∧ o_linkify (po o') = o_linkify (po o).
Proof.
  induction fuel as [|fuel IH] in last, o |- *; cbn [read_settings]; [by intros [= <-]|].
  destruct (pattern_exec setting_pattern t last) as [mt|]; [|by intros [= <-]]. destruct (fails_alone _); [done|].
  intros H. apply IH in H as (-> & -> & ->). by destruct (String.eqb _ _).
Qed.

Lemma read_mode_keeps t o o' b : read_mode t o = Ret o' → po_brush o = Some b → b ≠ "" →
  po_brush o' = Some b ∧ o_matches (po o') = o_matches (po o) ∧ o_linkify (po o') = o_linkify (po o).
Proof.
  unfold read_mode. intros H Hb Hn. destruct (pattern_exec mode_pattern t 0) as [mt|]; [|by injection H as <-].
  destruct (_ <? _)%Z; [|by injection H as <-]. apply read_settings_keeps in H as (H1 & H2 & H3). cbn in H1, H2, H3.
  rewrite H1, Hb. by destruct b.
Qed.

(** The settings are read to the end: more rounds do not change the outcome. *)
Lemma read_settings_enough t fuel : ∀ last o n, length t + 1 - last <= fuel → last <= length t →
  read_settings (fuel + n) t last o = read_settings fuel t last o.
Proof.
  induction fuel as [|fuel IH]; intros last o n Hf Hl; [lia|]. cbn [read_settings Nat.add].
  destruct (pattern_exec setting_pattern t last) as [mt|] eqn:E; [|done]. destruct (fails_alone _); [done|].
  pose proof (exec_range _ _ _ _ E). pose proof (exec_moves setting_pattern _ _ _ eq_refl E). apply IH; lia.
Qed.

(** ** Code of the help pages *)

(** The options that the help pages give. *)
Definition help_pages : page := {| pg_tabWidth := None; pg_linkify := false; pg_theme := ""; pg_layout := "yelp" |}.

Lemma normalize_no_cr t : no_cr (normalize t).
Proof.
  unfold no_cr. enough (∀ n t, length t <= n → Forall (λ c, c ≠ "013"%char) (normalize t)) as H by (by apply (H (length t))).
  clear t. induction n as [|n IH]; intros [|c t] Hn; cbn in *; try lia; try constructor. destruct (Ascii.eqb_spec c "013").
  - constructor; [done|]. destruct t as [|d t]; [constructor|]. cbn in Hn. destruct (Ascii.eqb d newline); apply IH; cbn; lia.
  - constructor; [done|]. apply IH. lia.
Qed.

Lemma expand_no_cr size t : ∀ col, no_cr t → no_cr (expand size col t).
Proof.
  unfold no_cr. induction t as [|c t IH]; intros col Ht; cbn [expand]; [done|]. apply Forall_cons in Ht as [Hc Ht].
  destruct (ends_line c); [by constructor; auto|]. destruct (Ascii.eqb c tab); [|by constructor; auto].
  apply Forall_app. split; [|auto]. by apply Forall_replicate.
Qed.

Lemma read_text rendered k t o : t ≠ [] → o_matches (po o) = [] →
  read_element rendered (DElem k [DText t]) o = (o' ← read_mode (normalize t) o; Ret (normalize t, o')).
Proof.
  intros Ht Ho. unfold read_element, extractElementMatches. cbn [walk innerText textContent mbind]. rewrite app_nil_r.
  destruct t as [|c t]; [done|]. cbn [mbind res_bind drop app]. rewrite Ho. by destruct o as [b [w ms li]]; cbn in Ho; subst.
Qed.


Definition lines (ls : list text) : text := concat ((λ l, l ++ [newline]) <$> ls).
Definition some_code : text := lines [chars "/* -*- mode: C; tab-width: 2; -*- */"; tab :: chars "int x;"].


(** The line for editors is only seen when two lines end in the text: in a text of two lines
    without an end of the second, it is left unread. *)
Lemma mode_line_left_unread : let o := options_for [] help_pages "syntax" in
  (o_tabWidth ∘ po <$> match read_mode some_code o with Ret o => Some o | Throw _ => None end) = Some (Some 2%Z) ∧
  read_mode (take (length some_code - 1) some_code) o = Ret o.
Proof. vm_compute. done. Qed.

(** A theme that is not registered is an error, the one of the default options as well. *)
Lemma theme_not_there b : add_theme [] "base" b = Throw TypeError.
Proof. done. Qed.

(** The class may name the brush in capitals; an alias counts only beside the class "syntax". *)
Lemma names_of_brushes : let l := add_aliases "clang" ["cpp"] [] in
  extractBrushName l "contents syntax Brush-CLang x" = Some "clang" ∧ extractBrushName l "syntax cpp" = Some "clang" ∧
  extractBrushName l "cpp" = None ∧ brushNames l = ["clang"].
Proof. vm_compute. done. Qed.
