(* ===== verification/JQueryData.v ===== *)
(** * The data of elements (jquery-1.9.1.js: internalData, internalRemoveData, cleanData)

    jQuery keeps data for elements in one cache, by a number that it writes on the element,
    and gives numbers of elements whose data is gone to others again; data for plain objects is kept on the
    object.  Each has private data, for the library, and inside of it the data of the
    page.  The model has no event handlers among the private data, and no names that
    every object inherits; the private object that holds the data of the page
    under the name "data" is the field [c_data]. *)

From S2P Require Import Prelude JSNum JSValue JSON Forms.

(** ** Names *)

Definition is_alnum (c : ascii) : bool :=
  let n := N_of_ascii c in (48 <=? n)%N && (n <=? 57)%N || (65 <=? n)%N && (n <=? 90)%N || (97 <=? n)%N && (n <=? 122)%N.
Definition is_upper (c : ascii) : bool := let n := N_of_ascii c in (65 <=? n)%N && (n <=? 90)%N.
Definition upper_char (c : ascii) : ascii :=
  let n := N_of_ascii c in if (97 <=? n)%N && (n <=? 122)%N then ascii_of_N (n - 32) else c.

(** [string.replace(rmsPrefix, "ms-")] *)
Definition ms_prefix (s : string) : string :=
  match s with String "-" (String "m" (String "s" (String "-" _)) as s') => s' | _ => s end.

(** [string.replace(rdashAlpha, fcamelCase)] *)
Fixpoint dash_alpha (s : string) : string :=
  match s with
  | EmptyString => ""
  | String c s' =>
      match s' with
      | String d s'' => if Ascii.eqb c "-" && is_alnum d then String (upper_char d) (dash_alpha s'') else String c (dash_alpha s')
      | EmptyString => String c ""
      end
  end.

(** [jQuery.camelCase(string)] *)
Definition camelCase (s : string) : string := dash_alpha (ms_prefix s).

(** ** The cache *)

(** What has data: nodes of the document and plain objects. *)
Inductive holder := Node (n : nat) | Object (o : nat).
#[export] Instance holder_eq_dec : EqDecision holder.
Proof. solve_decision. Defined.

Record node_kind := { nodeType : nat; nodeName : string; classid : option string }.

(** [jQuery.noData] and [jQuery.acceptData(elem)] *)
Definition acceptNode (k : node_kind) : bool :=
  if negb ((nodeType k =? 1)%nat || (nodeType k =? 9)%nat) then false
  else let name := lower (nodeName k) in
    if String.eqb name "embed" || String.eqb name "applet" then false
    else if String.eqb name "object" then match classid k with Some c => String.eqb c "clsid:D27CDB6E-AE6D-11cf-96B8-444553540000" | None => false end
    else true.

(** Data by name, in the order of the language. *)
Abbreviation props V := (list (string * V)).

Record entry V := { c_own : props V; c_data : option (props V) }.
Arguments c_own {V} _.
Arguments c_data {V} _.
Arguments Build_entry {V} _ _.

(** [expando]: the numbers on the nodes; [deletedIds]: the last one that was pushed is first. *)
Record store V := { expando : gmap nat N; cache : gmap N (entry V); on_objects : gmap nat (entry V); deletedIds : list N; guid : N }.
Arguments expando {V} _.
Arguments cache {V} _.
Arguments on_objects {V} _.
Arguments deletedIds {V} _.
Arguments guid {V} _.
Arguments Build_store {V} _ _ _ _ _.

Definition remove_prop {V} (k : string) (ps : props V) : props V := List.filter (λ kv, negb (String.eqb kv.1 k)) ps.
Definition is_nil {A} (l : list A) : bool := match l with [] => true | _ => false end.

Section data.
Context {V : Type} (nullish : V → bool) (kind : nat → node_kind).
Implicit Types (w : store V) (e : entry V) (t : holder) (ps : props V).

Definition new_store : store V := {| expando := ∅; cache := ∅; on_objects := ∅; deletedIds := []; guid := 1 |}.
Definition empty_entry : entry V := {| c_own := []; c_data := None |}.

Definition acceptData t : bool := match t with Node n => acceptNode (kind n) | Object _ => true end.

(** [isEmptyDataObject(obj)] for what is in the cache *)
Definition isEmptyDataObject e : bool :=
  forallb (λ kv, String.eqb kv.1 "toJSON") (c_own e) && match c_data e with Some ps => is_nil ps | None => true end.

(** [cache[id]] of an element or object *)
Definition entry_of t w : option (entry V) :=
  match t with Node n => id ← expando w !! n; cache w !! id | Object o => on_objects w !! o end.

Definition put_cache (id : N) e w : store V :=
  {| expando := expando w; cache := <[id := e]> (cache w); on_objects := on_objects w; deletedIds := deletedIds w; guid := guid w |}.
Definition put_entry t e w : store V :=
  match t with
  | Node n => match expando w !! n with Some id => put_cache id e w | None => w end
  | Object o => {| expando := expando w; cache := cache w; on_objects := <[o := e]> (on_objects w); deletedIds := deletedIds w; guid := guid w |}
  end.

(** [elem[internalKey] = id = core_deletedIds.pop() || jQuery.guid++] *)
Definition new_id (n : nat) w : store V :=
  match deletedIds w with
  | id :: ids => {| expando := <[n := id]> (expando w); cache := cache w; on_objects := on_objects w; deletedIds := ids; guid := guid w |}
  | [] => {| expando := <[n := guid w]> (expando w); cache := cache w; on_objects := on_objects w; deletedIds := []; guid := (guid w + 1)%N |}
  end.

(** There is an id, and something in the cache. *)
Definition ensure t w : store V :=
  let w := match t with Node n => match expando w !! n with Some _ => w | None => new_id n w end | Object _ => w end in
  match entry_of t w with Some _ => w | None => put_entry t empty_entry w end.

(** [jQuery.extend(target, source)] *)
Definition extend_all (target source : props V) : props V := foldl (λ ps kv, prop_put kv.1 kv.2 ps) target source.

(** The argument [name]: a name, an object, or nothing. *)
Inductive data_name := ByName (s : string) | ByProps (ps : props V) | NoName.
Inductive data_result := Value (v : option V) | All (ps : props V).

Definition look_up (name : string) ps : option V :=
  match assoc name ps with
  | Some v => if nullish v then assoc (camelCase name) ps else Some v
  | None => assoc (camelCase name) ps
  end.

(** The object of private data, or of the data of the page. *)
Definition part (pvt : bool) e : props V := if pvt then c_own e else default [] (c_data e).
Definition set_part (pvt : bool) ps e : entry V :=
  if pvt then {| c_own := ps; c_data := c_data e |} else {| c_own := c_own e; c_data := Some ps |}.
Definition has_part (pvt : bool) e : bool := pvt || match c_data e with Some _ => true | None => false end.

(** [internalData(elem, name, data, pvt)] *)
Definition internalData t (name : data_name) (data : option V) (pvt : bool) : M (store V) data_result := λ w,
  if negb (acceptData t) then (Ret (Value None), w)
  else if match name, data, entry_of t w with
          | ByName _, None, Some e => negb (has_part pvt e)
          | ByName _, None, None => true
          | _, _, _ => false
          end then (Ret (Value None), w)
  else
    let w := ensure t w in
    let e := default empty_entry (entry_of t w) in
    let ps := match name with ByProps src => extend_all (part pvt e) src | _ => part pvt e end in
    match name, data with
    | ByName s, Some v => let ps := prop_put (camelCase s) v ps in (Ret (Value (look_up s ps)), put_entry t (set_part pvt ps e) w)
    | ByName s, None => (Ret (Value (look_up s ps)), put_entry t (set_part pvt ps e) w)
    | _, Some _ => (Throw TypeError, put_entry t (set_part pvt ps e) w)
    | _, None => (Ret (All ps), put_entry t (set_part pvt ps e) w)
    end.

(** ** Removal *)

Definition drop_node (n : nat) (id : N) w : store V :=
  {| expando := delete n (expando w); cache := delete id (cache w); on_objects := on_objects w; deletedIds := id :: deletedIds w; guid := guid w |}.

(** [jQuery.cleanData(elems, acceptData)] *)
Definition clean_one (accepted : bool) (n : nat) w : store V :=
  if accepted || acceptData (Node n) then
    match expando w !! n with
    | Some id => match cache w !! id with Some _ => drop_node n id w | None => w end
    | None => w
    end
  else w.
Definition cleanData (ns : list nat) (accepted : bool) w : store V := foldl (λ w n, clean_one accepted n w) w ns.

Definition destroy t w : store V :=
  match t with
  | Node n => cleanData [n] true w
  | Object o => {| expando := expando w; cache := cache w; on_objects := delete o (on_objects w); deletedIds := deletedIds w; guid := guid w |}
  end.

Inductive removed_name := RName (s : string) | RNames (l : list string).

(** The test [if ( name )]: the empty name counts as none. *)
Definition if_given (name : option removed_name) : option removed_name := match name with Some (RName "") => None | _ => name end.

(** The keys that are deleted. *)
Definition removed_keys (name : removed_name) (has : string → bool) : list string :=
  match name with
  | RName s => if has s then [s] else let s := camelCase s in if has s then [s] else split_char " " s
  | RNames l => l ++ (camelCase <$> l)
  end.

Definition has_key ps (k : string) : bool := match assoc k ps with Some _ => true | None => false end.

(** From [if ( !pvt )] to the end: the part is deleted, and what is empty is destroyed. *)
Definition remove_part t (pvt : bool) w : store V :=
  match entry_of t w with
  | None => w
  | Some e =>
      if pvt then destroy t w
      else
        let e := {| c_own := c_own e; c_data := None |} in
        let w := put_entry t e w in
        if isEmptyDataObject e then destroy t w else w
  end.

(** [internalRemoveData(elem, name, pvt)] *)
Definition internalRemoveData t (name : option removed_name) (pvt : bool) w : store V :=
  if negb (acceptData t) then w
  else match entry_of t w with
  | None => w
  | Some e =>
      match if_given name with
      | None => remove_part t pvt w
      | Some name =>
          if has_part pvt e then
            let ps := foldl (λ ps k, remove_prop k ps) (part pvt e) (removed_keys name (has_key (part pvt e))) in
            let e := set_part pvt ps e in
            let w := put_entry t e w in
            if if pvt then isEmptyDataObject e else is_nil ps then remove_part t pvt w else w
          else remove_part t pvt w
      end
  end.

(** [jQuery.hasData(elem)] *)
Definition hasData t w : bool := match entry_of t w with Some e => negb (isEmptyDataObject e) | None => false end.
End data.

(** ** Data in attributes *)

Fixpoint string_last (s : string) : option ascii :=
  match s with EmptyString => None | String c "" => Some c | String _ s' => string_last s' end.
Definition has_char (c : ascii) (s : string) : bool := negb (str_forallb (λ d, negb (Ascii.eqb d c)) s).

(** [rbrace.test(data)] *)
Definition rbrace (s : string) : bool :=
  match string_last s with
  | Some "}"%char => has_char "{" s
  | Some "]"%char => has_char "[" s
  | _ => false
  end.

(** The value of an attribute: a constant, a number that is printed as it stands, JSON, or a string *)
Definition attribute_value (s : string) : value :=
  if String.eqb s "true" then VBool true
  else if String.eqb s "false" then VBool false
  else if String.eqb s "null" then VNull
  else if String.eqb (num_to_string (string_to_num s)) s then VNum (string_to_num s)
  else if rbrace s then match parse s with Some v => v | None => VStr s end
  else VStr s.

(** [key.replace(rmultiDash, "-$1").toLowerCase()] *)
Fixpoint dashed (s : string) : string :=
  match s with EmptyString => "" | String c s' => if is_upper c then String "-" (String (lower_char c) (dashed s')) else String (lower_char c) (dashed s') end.

Definition is_null_value (v : value) : bool := match v with VNull | VUndef => true | _ => false end.

Section attributes.
Context (kind : nat → node_kind).

Definition data (t : holder) (name : data_name) (v : option value) : M (store value) data_result := internalData is_null_value kind t name v false.
Definition get_data (t : holder) (name : string) : M (store value) (option value) :=
  r ← data t (ByName name) None; mret (match r with Value v => v | All _ => None end).

(** [dataAttr(elem, key, data)], where [attrs] are the attributes of the element *)
Definition dataAttr (attrs : list (string * string)) (n : nat) (key : string) (v : option value) : M (store value) (option value) :=
  match v with
  | Some v => mret (Some v)
  | None =>
      if (nodeType (kind n) =? 1)%nat then
        match assoc ("data-" +:+ dashed key) attrs with
        | Some s => let v := attribute_value s in data (Node n) (ByName key) (Some v);; mret (Some v)
        | None => mret None
        end
      else mret None
  end.

(** [jQuery(elems).data(key)], with the attributes of the nodes; nothing is [null] without elements. *)
Definition fn_data_get (attrs : nat → list (string * string)) (elems : list nat) (key : string) : M (store value) (option value) :=
  match elems with
  | [] => mret (Some VNull)
  | n :: _ => v ← get_data (Node n) key; dataAttr (attrs n) n key v
  end.

(** [jQuery(elems).data(key, value)] *)
Fixpoint fn_data_set (elems : list nat) (key : string) (v : value) : M (store value) unit :=
  match elems with [] => mret tt | n :: ns => data (Node n) (ByName key) (Some v);; fn_data_set ns key v end.

(** The loop over the attributes in [jQuery(elems).data()]. *)
Fixpoint parse_attrs (attrs : list (string * string)) (n : nat) (l : list (string * string)) : M (store value) unit :=
  match l with
  | [] => mret tt
  | (name, _) :: l' =>
      (match name with
       | String "d" (String "a" (String "t" (String "a" (String "-" name')))) =>
           let key := camelCase name' in
           r ← data (Node n) NoName None;
           (match r with All ps => dataAttr attrs n key (assoc key ps);; mret tt | Value _ => lift (Throw TypeError) end)
       | _ => mret tt
       end);;
      parse_attrs attrs n l'
  end.

(** [jQuery(elems).data()]: the object is the one in the cache, so it has what the attributes gave. *)
Definition fn_data_all (attrs : nat → list (string * string)) (elems : list nat) : M (store value) (option (props value)) :=
  match elems with
  | [] => mret None
  | n :: _ =>
      data (Node n) NoName None;;
      parsed ← internalData is_null_value kind (Node n) (ByName "parsedAttrs") None true;
      (if (nodeType (kind n) =? 1)%nat && negb (match parsed with Value (Some v) => truthy v | _ => false end)
       then parse_attrs (attrs n) n (attrs n);; internalData is_null_value kind (Node n) (ByName "parsedAttrs") (Some (VBool true)) true;; mret tt
       else mret tt);;
      r ← data (Node n) NoName None; mret (match r with All ps => Some ps | Value _ => None end)
  end.

(** [jQuery(elems).removeData(key)] *)
Definition fn_removeData (elems : list nat) (name : option removed_name) (w : store value) : store value :=
  foldl (λ w n, internalRemoveData kind (Node n) name false w) w elems.
End attributes.
