(* ===== verification/DataFacts.v ===== *)
(** * The data of elements is their own (about JQueryData)

    Numbers of elements whose data is gone are used again; still no element sees the data
    of another.  The cache refines a table by element, part and name. *)

From S2P Require Import Prelude JSValue JSON Forms JQueryData.

Section facts.
Context {V : Type} (nullish : V → bool) (kind : nat → node_kind).
Implicit Types (w : store V) (e : entry V) (t : holder) (ps : props V).

(** ** Numbers *)

(** No two nodes have the same number, all numbers were given out, those that were
    taken back are on no node, and what is in the cache is that of a node. *)
Record ids_ok w : Prop := {
  ids_inj : ∀ n n' id, expando w !! n = Some id → expando w !! n' = Some id → n = n';
  ids_live : ∀ n id, expando w !! n = Some id → is_Some (cache w !! id) ∧ id ∉ deletedIds w ∧ (id < guid w)%N;
  ids_used : ∀ id, is_Some (cache w !! id) → (∃ n, expando w !! n = Some id);
  ids_back : NoDup (deletedIds w) ∧ Forall (λ id, id < guid w)%N (deletedIds w);
}.

Lemma new_ids_ok : ids_ok new_store.
Proof.
  split; cbn; [by intros n n' id; rewrite lookup_empty|by intros n id; rewrite lookup_empty| |by split; constructor].
  intros id. rewrite lookup_empty. by intros [].
Qed.

Lemma put_entry_ok t e w : ids_ok w → is_Some (entry_of t w) → ids_ok (put_entry t e w).
Proof.
  intros [Hi Hl Hu Hb] He. destruct t as [n|o]; [|by split]. unfold entry_of in He. cbn [put_entry]. destruct (expando w !! n) as [id|] eqn:E; [|by destruct He].
  cbn in He. split; cbn; [done| |intros i|done].
  - intros n' i H. destruct (Hl _ _ H) as (H1 & H2 & H3). split; [|done]. destruct (decide (i = id)) as [->|]; [by rewrite lookup_insert_eq|by rewrite lookup_insert_ne].
  - destruct (decide (i = id)) as [->|]; [by exists n|]. rewrite lookup_insert_ne by done. auto.
Qed.

Lemma put_entry_entry t t' e w : ids_ok w → is_Some (entry_of t w) →
  entry_of t' (put_entry t e w) = if decide (t' = t) then Some e else entry_of t' w.
Proof.
  intros [Hi Hl Hu Hb] He. destruct t as [n|o].
  - cbn [entry_of put_entry] in *. destruct (expando w !! n) as [id|] eqn:E; [|by destruct He]. destruct t' as [n'|o']; [|by destruct (decide _)].
    cbn. destruct (expando w !! n') as [id'|] eqn:E'; cbn.
    + destruct (decide (id' = id)) as [->|Hne].
      * assert (n' = n) as -> by eauto. by rewrite lookup_insert_eq, decide_True.
      * rewrite lookup_insert_ne by done. rewrite decide_False; [done|]. intros [= ->]. congruence.
    + rewrite decide_False; [done|]. intros [= ->]. congruence.
  - destruct t' as [n'|o']; cbn; [by rewrite decide_False|]. destruct (decide (o' = o)) as [->|]; [by rewrite lookup_insert_eq, decide_True|].
    rewrite lookup_insert_ne, decide_False; congruence.
Qed.

(** A new number: it is nobody else's, and nothing is kept for it. *)
Lemma new_id_fresh n w : ids_ok w → expando w !! n = None → ∃ id, expando (new_id n w) = <[n := id]> (expando w) ∧
  cache (new_id n w) = cache w ∧ on_objects (new_id n w) = on_objects w ∧ cache w !! id = None ∧ (∀ n', expando w !! n' ≠ Some id) ∧
  id ∉ deletedIds (new_id n w) ∧ NoDup (deletedIds (new_id n w)) ∧ (∀ i, i ∈ deletedIds (new_id n w) → i ∈ deletedIds w) ∧
  (guid w <= guid (new_id n w))%N ∧ (id < guid (new_id n w))%N.
Proof.
  intros [Hi Hl Hu [Hb Hg]] Hn. unfold new_id. destruct (deletedIds w) as [|id ids] eqn:E.
  - assert (Hf : ∀ n', expando w !! n' ≠ Some (guid w)) by (intros n' H; apply Hl in H as (_ & _ & H); lia).
    exists (guid w). cbn. repeat split; try done; try lia; [|by apply not_elem_of_nil].
    destruct (cache w !! guid w) eqn:Ec; [|done]. destruct (Hu (guid w)) as [n' H]; [by rewrite Ec|]. by apply Hf in H.
  - apply NoDup_cons in Hb as [Hb1 Hb2]. apply Forall_cons in Hg as [Hg1 Hg2].
    assert (Hf : ∀ n', expando w !! n' ≠ Some id) by (intros n' H; apply Hl in H as (_ & H & _); apply H; rewrite ?E; set_solver).
    exists id. cbn. repeat split; try done; try lia; [|set_solver].
    destruct (cache w !! id) eqn:Ec; [|done]. destruct (Hu id) as [n' H]; [by rewrite Ec|]. by apply Hf in H.
Qed.

Lemma entry_live n w : ids_ok w → expando w !! n = None ∨ is_Some (entry_of (Node n) w).
Proof. intros H. cbn. destruct (expando w !! n) as [id|] eqn:E; [|by left]. right. by apply (ids_live w H n id). Qed.

Lemma ensure_ok t w : ids_ok w → ids_ok (ensure t w) ∧
  ∀ t', entry_of t' (ensure t w) = if decide (t' = t) then Some (default empty_entry (entry_of t w)) else entry_of t' w.
Proof.
  intros H. destruct (entry_of t w) as [e|] eqn:Et.
  - assert (ensure t w = w) as ->.
    { unfold ensure. destruct t as [n|o]; [|by rewrite Et]. pose proof Et as Et'. cbn [entry_of] in Et'. destruct (expando w !! n); [by rewrite Et|done]. }
    split; [done|]. intros t'. destruct (decide _) as [->|]; done.
  - destruct t as [n|o].
    + destruct (entry_live n w H) as [E|E]; [|by rewrite Et in E; destruct E]. unfold ensure. rewrite E.
      destruct (new_id_fresh n w H E) as (id & H1 & H2 & H3 & H4 & H5 & H6 & H7 & H8 & H9 & H10). destruct H as [Hi Hl Hu [Hb Hg]].
      cbn [entry_of put_entry]. rewrite H1, lookup_insert_eq. cbn [mbind option_bind]. rewrite H2, H4. split.
      * split; unfold put_cache; cbn; rewrite ?H1, ?H2.
        -- intros a b i. rewrite !lookup_insert_Some. intros [[<- <-]|[Ha Ea]] [[<- E2]|[Hb2 Eb]]; subst; try done; try (by destruct (H5 b)); try (by destruct (H5 a)). eauto.
        -- intros a i. rewrite lookup_insert_Some. intros [[<- <-]|[Ha Ea]]; [by rewrite lookup_insert_eq|]. destruct (Hl _ _ Ea) as (L1 & L2 & L3).
           split_and!; [|by auto|lia]. rewrite lookup_insert_ne; [done|]. intros ->. by apply (H5 a).
        -- intros i. destruct (decide (i = id)) as [->|]; [exists n; by rewrite lookup_insert_eq|]. rewrite lookup_insert_ne by done. intros Hc.
           destruct (Hu _ Hc) as [n' Hn]. exists n'. rewrite lookup_insert_ne; [done|]. congruence.
        -- split; [done|]. apply Forall_forall. intros i Hin. apply H8 in Hin. rewrite Forall_forall in Hg. specialize (Hg _ Hin). cbn in Hg. lia.
      * intros [n'|o']; cbn; [|by rewrite H3]. unfold put_cache; cbn. rewrite H1, H2. destruct (decide (n' = n)) as [->|Hne].
        -- rewrite lookup_insert_eq. cbn. by rewrite lookup_insert_eq, decide_True.
        -- rewrite lookup_insert_ne by done. rewrite decide_False by congruence. destruct (expando w !! n') as [id'|] eqn:E'; [|done]. cbn.
           rewrite lookup_insert_ne; [done|]. intros ->. by apply (H5 n').
    + unfold ensure. rewrite Et. split; [by destruct H|]. intros [n'|o']; cbn; [by rewrite decide_False|].
      destruct (decide (o' = o)) as [->|]; [by rewrite lookup_insert_eq, decide_True|]. rewrite lookup_insert_ne, decide_False; congruence.
Qed.

Lemma clean_ok n accepted w : ids_ok w → ids_ok (clean_one kind accepted n w) ∧
  ∀ t', entry_of t' (clean_one kind accepted n w) = if decide (t' = Node n ∧ accepted || acceptData kind (Node n) = true) then None else entry_of t' w.
Proof.
  intros H. unfold clean_one. destruct (accepted || acceptData kind (Node n)); [|split; [done|]; intros t'; rewrite decide_False; [done|naive_solver]].
  destruct (expando w !! n) as [id|] eqn:E; [|split; [done|]; intros t'; destruct (decide _) as [[-> _]|]; [by cbn; rewrite E|done]].
  destruct H as [Hi Hl Hu [Hb Hg]]. destruct (Hl _ _ E) as ([e He] & H2 & H3). rewrite He. split.
  - split; cbn.
    + intros a b i. rewrite !lookup_delete_Some. intros [_ Ha] [_ Hb']. eauto.
    + intros a i. rewrite lookup_delete_Some. intros [Hne Ha]. destruct (Hl _ _ Ha) as (L1 & L2 & L3).
      assert (i ≠ id) by (intros ->; apply Hne; eauto). split_and!; [by rewrite lookup_delete_ne|set_solver|done].
    + intros i. intros [x Hx]. apply lookup_delete_Some in Hx as [Hne Hx]. destruct (Hu i) as [a Ha]; [by rewrite Hx|]. exists a. rewrite lookup_delete_ne; [done|]. congruence.
    + split; [by constructor|]. by constructor.
  - intros [n'|o']; cbn; [|by rewrite decide_False by naive_solver]. destruct (decide (n' = n)) as [->|Hne].
    + rewrite lookup_delete_eq, decide_True by done. done.
    + rewrite lookup_delete_ne by done. rewrite decide_False by naive_solver. destruct (expando w !! n') as [id'|] eqn:E'; [|done]. cbn.
      rewrite lookup_delete_ne; [done|]. intros ->. apply Hne. eauto.
Qed.

Lemma destroy_ok t w : ids_ok w → ids_ok (destroy kind t w) ∧
  ∀ t', entry_of t' (destroy kind t w) = if decide (t' = t) then None else entry_of t' w.
Proof.
  intros H. destruct t as [n|o]; cbn [destroy].
  - destruct (clean_ok n true w H) as [H1 H2]. split; [done|]. intros t'. cbn. rewrite H2. destruct (decide (t' = Node n)); [by rewrite decide_True|by rewrite decide_False by naive_solver].
  - split; [by destruct H|]. intros [n'|o']; cbn; [by rewrite decide_False|].
    destruct (decide (o' = o)) as [->|]; [by rewrite lookup_delete_eq, decide_True|]. rewrite lookup_delete_ne, decide_False; congruence.
Qed.

(** ** The table *)

(** What is kept for an element or object, in its private part or that of the page, under a name. *)
Definition table := holder → bool → string → option V.
Definition kept w : table := λ t pvt k, e ← entry_of t w; assoc k (part pvt e).

(** The steps of a page. *)
Inductive data_op :=
| OSet t (s : string) (v : V) (pvt : bool)
| OExtend t ps (pvt : bool)
| OGet t (s : string) (pvt : bool)
| OAll t (pvt : bool)
| ORemove t (name : option removed_name) (pvt : bool)
| OClean (ns : list nat).

Definition data_step (op : data_op) w : store V :=
  match op with
  | OSet t s v pvt => (internalData nullish kind t (ByName s) (Some v) pvt w).2
  | OExtend t ps pvt => (internalData nullish kind t (ByProps ps) None pvt w).2
  | OGet t s pvt => (internalData nullish kind t (ByName s) None pvt w).2
  | OAll t pvt => (internalData nullish kind t NoName None pvt w).2
  | ORemove t name pvt => internalRemoveData kind t name pvt w
  | OClean ns => cleanData kind ns false w
  end.
Definition data_run (ops : list data_op) w : store V := foldl (λ w op, data_step op w) w ops.

(** The table with one part replaced. *)
Definition with_part t (pvt : bool) (f : string → option V) (T : table) : table :=
  λ t' pvt' k, if decide (t' = t ∧ pvt' = pvt) then f k else T t' pvt' k.
Definition has (T : table) t (pvt : bool) (k : string) : bool := match T t pvt k with Some _ => true | None => false end.

(** What the steps mean. *)
Definition table_step (op : data_op) (T : table) : table :=
  match op with
  | OSet t s v pvt => if acceptData kind t then with_part t pvt (λ k, if String.eqb k (camelCase s) then Some v else T t pvt k) T else T
  | OExtend t ps pvt => if acceptData kind t then with_part t pvt (λ k, match assoc k (rev ps) with Some v => Some v | None => T t pvt k end) T else T
  | OGet _ _ _ | OAll _ _ => T
  | ORemove t name pvt =>
      if acceptData kind t then
        match if_given name with
        | None => λ t' pvt' k, if decide (t' = t ∧ (pvt = true ∨ pvt' = false)) then None else T t' pvt' k
        | Some name => with_part t pvt (λ k, if existsb (String.eqb k) (removed_keys name (has T t pvt)) then None else T t pvt k) T
        end
      else T
  | OClean ns => λ t' pvt' k, if decide (t' ∈ Node <$> ns ∧ acceptData kind t' = true) then None else T t' pvt' k
  end.

(** ** One table after another *)

Lemma assoc_remove_prop k k' ps : assoc k' (remove_prop k ps) = if String.eqb k' k then None else assoc k' ps.
Proof. apply assoc_deleted. Qed.

Lemma assoc_remove_all ks ps k : assoc k (foldl (λ ps k, remove_prop k ps) ps ks) = if existsb (String.eqb k) ks then None else assoc k ps.
Proof.
  induction ks as [|k' ks IH] in ps |- *; cbn [foldl existsb]; [done|]. rewrite IH, assoc_remove_prop.
  by destruct (String.eqb k k'), (existsb _ ks).
Qed.

Lemma assoc_extend_all (tgt src : props V) k : assoc k (extend_all tgt src) = match assoc k (rev src) with Some v => Some v | None => assoc k tgt end.
Proof.
  unfold extend_all. induction src as [|[k' v] src IH] in tgt |- *; cbn [foldl rev fst snd]; [done|].
  rewrite IH, assoc_prop_put, assoc_app. cbn [assoc]. by destruct (assoc k (rev src)), (String.eqb k k').
Qed.

Lemma part_set_part pvt pvt' ps e : part pvt' (set_part pvt ps e) = if decide (pvt' = pvt) then ps else part pvt' e.
Proof. by destruct pvt, pvt'. Qed.

Lemma kept_entry t w e pvt k : entry_of t w = Some e → kept w t pvt k = assoc k (part pvt e).
Proof. unfold kept. by intros ->. Qed.

(** Nothing is left in what is empty. *)
Lemma empty_nothing e : isEmptyDataObject e = true → assoc "toJSON" (c_own e) = None → ∀ pvt k, assoc k (part pvt e) = None.
Proof.
  intros [H1 H2]%andb_true_iff Hj [] k; cbn [part].
  - destruct (assoc k (c_own e)) as [v|] eqn:E; [|done]. pose proof (assoc_elem _ _ _ E) as Hin. rewrite forallb_forall in H1.
    apply list_elem_of_In, H1, String.eqb_eq in Hin. cbn in Hin. subst k. congruence.
  - destruct (c_data e) as [[|]|]; done.
Qed.

Definition no_toJSON w : Prop := ∀ t, kept w t true "toJSON" = None.
(** The steps that keep private data do not keep it under the name that [isEmptyDataObject] skips. *)
Definition op_ok (op : data_op) : Prop :=
  match op with
  | OSet _ s _ true => camelCase s ≠ "toJSON"
  | OExtend _ ps true => "toJSON" ∉ ps.*1
  | _ => True
  end.

Definition steps_to (T T' : table) : Prop := ∀ t pvt k, T t pvt k = T' t pvt k.

(** A part that is replaced. *)
Lemma put_part t pvt ps w e : ids_ok w → entry_of t w = Some e →
  ids_ok (put_entry t (set_part pvt ps e) w) ∧ steps_to (kept (put_entry t (set_part pvt ps e) w)) (with_part t pvt (λ k, assoc k ps) (kept w)).
Proof.
  intros H He. split; [by apply put_entry_ok; [|rewrite He]|]. intros t' pvt' k. unfold kept, with_part. rewrite put_entry_entry by (try done; by rewrite He).
  destruct (decide (t' = t)) as [->|]; [|by rewrite decide_False by naive_solver]. cbn. rewrite part_set_part, He. cbn.
  destruct (decide (pvt' = pvt)); [by rewrite decide_True|by rewrite decide_False by naive_solver].
Qed.

Lemma ensure_kept t w : ids_ok w → steps_to (kept (ensure t w)) (kept w).
Proof.
  intros H t' pvt k. destruct (ensure_ok t w H) as [_ E]. unfold kept. rewrite E. destruct (decide (t' = t)) as [->|]; [|done].
  cbn. destruct (entry_of t w) as [e|]; [done|]. by destruct pvt.
Qed.

(** What [internalData] leaves behind, when it does not return at once. *)
Lemma ensure_part t pvt (f : props V → props V) w : ids_ok w →
  let e := default empty_entry (entry_of t (ensure t w)) in
  let w' := put_entry t (set_part pvt (f (part pvt e)) e) (ensure t w) in
  ids_ok w' ∧ (∀ k, assoc k (part pvt e) = kept w t pvt k) ∧ steps_to (kept w') (with_part t pvt (λ k, assoc k (f (part pvt e))) (kept w)).
Proof.
  intros H. destruct (ensure_ok t w H) as [H1 H2]. set (e := default empty_entry (entry_of t w)).
  assert (E : entry_of t (ensure t w) = Some e) by (rewrite H2, decide_True; done). rewrite E. cbn [default].
  destruct (put_part t pvt (f (part pvt e)) _ _ H1 E) as [H3 H4]. split; [done|]. split.
  - intros k. rewrite <- (ensure_kept t w H t pvt k). symmetry. by apply kept_entry.
  - intros t' pvt' k. rewrite H4. unfold with_part. destruct (decide _); [done|]. by apply ensure_kept.
Qed.

Lemma with_part_same t pvt f T : (∀ k, f k = T t pvt k) → steps_to (with_part t pvt f T) T.
Proof. intros H t' pvt' k. unfold with_part. destruct (decide _) as [[-> ->]|]; [apply H|done]. Qed.
Lemma with_part_ext t pvt f g T : (∀ k, f k = g k) → steps_to (with_part t pvt f T) (with_part t pvt g T).
Proof. intros H t' pvt' k. unfold with_part. by destruct (decide _). Qed.

#[local] Instance steps_to_equiv : Equivalence steps_to.
Proof. split; [by intros T t pvt k|by intros T T' H t pvt k; rewrite H|by intros T1 T2 T3 H1 H2 t pvt k; rewrite H1, H2]. Qed.

Lemma removed_keys_ext name (f g : string → bool) : (∀ k, f k = g k) → removed_keys name f = removed_keys name g.
Proof. intros H. destruct name; cbn; by rewrite ?H. Qed.

#[local] Instance table_step_proper op : Proper (steps_to ==> steps_to) (table_step op).
Proof.
  intros T T' H t pvt k. destruct op as [t0 s0 v pvt0|t0 ps pvt0| | |t0 name pvt0|ns]; cbn [table_step]; try done.
  - destruct (acceptData kind t0); [|done]. unfold with_part. destruct (decide _); by rewrite ?H.
  - destruct (acceptData kind t0); [|done]. unfold with_part. destruct (decide _); by rewrite ?H.
  - destruct (acceptData kind t0); [|done].
    assert (Hr : ∀ name, removed_keys name (has T t0 pvt0) = removed_keys name (has T' t0 pvt0)) by (intros; apply removed_keys_ext; intros ?; unfold has; by rewrite H).
    destruct (if_given name) as [name'|]; [|destruct (decide _); by rewrite ?H]. unfold with_part. rewrite Hr. destruct (decide _); by rewrite ?H.
  - destruct (decide _); by rewrite ?H.
Qed.

(** ** Removal *)

Lemma destroy_kept t w : ids_ok w → steps_to (kept (destroy kind t w)) (λ t' pvt' k, if decide (t' = t) then None else kept w t' pvt' k).
Proof. intros H t' pvt' k. destruct (destroy_ok t w H) as [_ E]. unfold kept. rewrite E. by destruct (decide _). Qed.

Lemma remove_part_ok t pvt w : ids_ok w → no_toJSON w → ids_ok (remove_part kind t pvt w) ∧
  steps_to (kept (remove_part kind t pvt w)) (λ t' pvt' k, if decide (t' = t ∧ (pvt = true ∨ pvt' = false)) then None else kept w t' pvt' k).
Proof.
  intros H Hj. unfold remove_part. destruct (entry_of t w) as [e|] eqn:E.
  2:{ split; [done|]. intros t' pvt' k. destruct (decide _) as [[-> _]|]; [|done]. unfold kept. by rewrite E. }
  destruct pvt.
  - destruct (destroy_ok t w H) as [H1 _]. split; [done|]. intros t' pvt' k. rewrite destroy_kept by done.
    destruct (decide (t' = t)); [by rewrite decide_True by auto|by rewrite decide_False by naive_solver].
  - set (e' := {| c_own := c_own e; c_data := None |}). assert (H1 : ids_ok (put_entry t e' w)) by (apply put_entry_ok; [done|by rewrite E]).
    assert (H2 : steps_to (kept (put_entry t e' w)) (λ t' pvt' k, if decide (t' = t ∧ (false = true ∨ pvt' = false)) then None else kept w t' pvt' k)).
    { intros t' pvt' k. unfold kept. rewrite put_entry_entry by (try done; by rewrite E). destruct (decide (t' = t)) as [->|]; [|by rewrite decide_False by naive_solver].
      cbn. destruct pvt'; [rewrite decide_False by naive_solver; by rewrite E|by rewrite decide_True by auto]. }
    destruct (isEmptyDataObject e') eqn:Ee; [|done]. destruct (destroy_ok t _ H1) as [H3 _]. split; [done|]. rewrite (destroy_kept t _ H1).
    intros t' pvt' k. destruct (decide (t' = t)) as [->|]; [|by rewrite H2]. destruct pvt'; [|by rewrite decide_True by auto]. rewrite decide_False by naive_solver.
    rewrite (kept_entry _ _ _ _ _ E). symmetry. specialize (Hj t). rewrite (kept_entry _ _ _ _ _ E) in Hj. exact (empty_nothing e' Ee Hj true k).
Qed.

Lemma remove_named_ok t name pvt w : ids_ok w → no_toJSON w → acceptData kind t = true → ∀ n, if_given n = Some name →
  let w' := internalRemoveData kind t n pvt w in
  ids_ok w' ∧ steps_to (kept w') (with_part t pvt (λ k, if existsb (String.eqb k) (removed_keys name (has (kept w) t pvt)) then None else kept w t pvt k) (kept w)).
Proof.
  intros H Hj Ha n Hn. cbn zeta. unfold internalRemoveData. rewrite Ha, Hn. cbn [negb].
  destruct (entry_of t w) as [e|] eqn:E.
  2:{ split; [done|]. symmetry. apply with_part_same. intros k. unfold kept. rewrite E. by destruct (existsb _ _). }
  assert (Hk : removed_keys name (has (kept w) t pvt) = removed_keys name (has_key (part pvt e))).
  { apply removed_keys_ext. intros k. unfold has, has_key. by rewrite (kept_entry _ _ _ _ _ E). }
  rewrite Hk. set (ks := removed_keys name (has_key (part pvt e))). destruct (has_part pvt e) eqn:Hp.
  - set (ps := foldl (λ ps k, remove_prop k ps) (part pvt e) ks). destruct (put_part t pvt ps w e H E) as [H1 H2].
    assert (Hw : steps_to (kept (put_entry t (set_part pvt ps e) w)) (with_part t pvt (λ k, if existsb (String.eqb k) ks then None else kept w t pvt k) (kept w))).
    { rewrite H2. apply with_part_ext. intros k. unfold ps. rewrite assoc_remove_all, (kept_entry _ _ _ _ _ E). done. }
    destruct (if pvt then _ else _) eqn:Ee; [|done].
    assert (Hj' : no_toJSON (put_entry t (set_part pvt ps e) w)).
    { intros t'. rewrite Hw. unfold with_part. destruct (decide _) as [[-> <-]|]; [|done]. by destruct (existsb _ _). }
    destruct (remove_part_ok t pvt _ H1 Hj') as [H3 H4]. split; [done|]. rewrite H4, <- Hw. intros t' pvt' k. destruct (decide _) as [[-> Hd]|]; [|done].
    assert (E' : entry_of t (put_entry t (set_part pvt ps e) w) = Some (set_part pvt ps e)) by (rewrite put_entry_entry by (try done; by rewrite E); by rewrite decide_True).
    rewrite (kept_entry _ _ _ _ _ E'). destruct pvt.
    + symmetry. apply empty_nothing; [done|]. specialize (Hj' t). by rewrite (kept_entry _ _ _ _ _ E') in Hj'.
    + destruct Hd as [?| ->]; [done|]. rewrite part_set_part, decide_True by done. by destruct ps.
  - destruct pvt; [done|]. destruct (remove_part_ok t false w H Hj) as [H3 H4]. split; [done|]. rewrite H4. intros t' pvt' k. unfold with_part.
    destruct (decide (t' = t ∧ pvt' = false)) as [[-> ->]|Hd]; [|by rewrite decide_False by naive_solver]. rewrite decide_True by auto.
    rewrite (kept_entry _ _ _ _ _ E). cbn in Hp |- *. destruct (c_data e); [done|]. by destruct (existsb _ _).
Qed.

Lemma clean_all_ok ns w : ids_ok w → ids_ok (cleanData kind ns false w) ∧ steps_to (kept (cleanData kind ns false w)) (table_step (OClean ns) (kept w)).
Proof.
  unfold cleanData. induction ns as [|n ns IH] in w |- *; intros H; cbn [foldl].
  { split; [done|]. intros t pvt k. cbn [table_step]. rewrite decide_False; [done|]. set_solver. }
  destruct (clean_ok n false w H) as [H1 H2]. destruct (IH _ H1) as [H3 H4]. split; [done|]. intros t pvt k. rewrite H4. cbn [table_step]. unfold kept. rewrite H2. cbn [orb fmap list_fmap].
  destruct (decide (t = Node n ∧ _)) as [[-> Ha]|Hd].
  - rewrite (decide_True (P := Node n ∈ Node n :: _ ∧ _)) by (split; [left|done]). by destruct (decide _).
  - destruct (decide (t ∈ Node <$> ns ∧ _)) as [[Hin Ha]|Hd2]; destruct (decide _) as [[Hin' Ha']|Hd3]; try done; exfalso.
    + apply Hd3. split; [by right|done].
    + apply elem_of_cons in Hin' as [->|Hin']; auto.
Qed.

(** Every step of the cache is the step of the table. *)
Lemma data_step_ok op w : ids_ok w → no_toJSON w → ids_ok (data_step op w) ∧ steps_to (kept (data_step op w)) (table_step op (kept w)).
Proof.
  intros H Hj. destruct op as [t s0 v pvt|t src pvt|t s0 pvt|t pvt|t name pvt|ns]; cbn [data_step table_step].
  - unfold internalData. destruct (acceptData kind t); [|done]. cbn [negb snd].
    destruct (ensure_part t pvt (λ ps, prop_put (camelCase s0) v ps) w H) as (H1 & H2 & H3). split; [done|]. rewrite H3. apply with_part_ext.
    intros k. by rewrite assoc_prop_put, H2.
  - unfold internalData. destruct (acceptData kind t); [|done]. cbn [negb snd].
    destruct (ensure_part t pvt (λ ps, extend_all ps src) w H) as (H1 & H2 & H3). split; [done|]. rewrite H3. apply with_part_ext.
    intros k. by rewrite assoc_extend_all, H2.
  - unfold internalData. destruct (acceptData kind t); [|done]. cbn [negb]. destruct (match entry_of t w with Some _ => _ | None => _ end); [done|].
    destruct (ensure_part t pvt (λ ps, ps) w H) as (H1 & H2 & H3). split; [done|]. rewrite H3. by apply with_part_same.
  - unfold internalData. destruct (acceptData kind t); [|done]. cbn [negb].
    destruct (ensure_part t pvt (λ ps, ps) w H) as (H1 & H2 & H3). split; [done|]. rewrite H3. by apply with_part_same.
  - destruct (acceptData kind t) eqn:Ha; [|unfold internalRemoveData; rewrite Ha; done]. destruct (if_given name) as [name'|] eqn:En; [by apply remove_named_ok|].
    unfold internalRemoveData. rewrite Ha, En. cbn [negb]. destruct (entry_of t w) as [e|] eqn:E; [by apply remove_part_ok|].
    split; [done|]. intros t' pvt' k. destruct (decide _) as [[-> _]|]; [|done]. unfold kept. by rewrite E.
  - by apply clean_all_ok.
Qed.

Lemma step_no_toJSON op (T : table) : op_ok op → (∀ t, T t true "toJSON" = None) → ∀ t, table_step op T t true "toJSON" = None.
Proof.
  intros Ho HT t. destruct op as [t0 s0 v pvt|t0 src pvt|t0 s0 pvt|t0 pvt|t0 name pvt|ns]; cbn [table_step]; try done.
  - destruct (acceptData kind t0); [|done]. unfold with_part. destruct (decide _) as [[-> <-]|]; [|done]. cbn in Ho. by rewrite (proj2 (String.eqb_neq _ _)) by done.
  - destruct (acceptData kind t0); [|done]. unfold with_part. destruct (decide _) as [[-> <-]|]; [|done]. cbn in Ho. rewrite (proj2 (assoc_None _ _)); [done|].
    intros Hin. apply Ho. rewrite list_elem_of_fmap in Hin |- *. destruct Hin as (kv & -> & Hin). exists kv. split; [done|]. by apply list_elem_of_In, in_rev, list_elem_of_In in Hin.
  - destruct (acceptData kind t0); [|done]. destruct (if_given name); [|by destruct (decide _)]. unfold with_part. destruct (decide _) as [[-> <-]|]; [|done]. by destruct (existsb _ _).
  - by destruct (decide _).
Qed.

Lemma data_run_ok ops : Forall op_ok ops → ∀ w (T : table), ids_ok w → no_toJSON w → steps_to (kept w) T →
  ids_ok (data_run ops w) ∧ no_toJSON (data_run ops w) ∧ steps_to (kept (data_run ops w)) (foldl (λ T op, table_step op T) T ops).
Proof.
  induction 1 as [|op ops Ho Hops IH]; intros w T H Hj HT; [done|]. cbn [data_run foldl].
  destruct (data_step_ok op w H Hj) as [H1 H2]. apply IH; [done| |by rewrite H2, HT].
  intros t. rewrite H2. by apply step_no_toJSON.
Qed.

(** ** What is read *)

(** The value for a name: as it is given, or else in camel case. *)
Definition read_table (T : table) t (pvt : bool) (s : string) : option V :=
  match T t pvt s with
  | Some v => if nullish v then T t pvt (camelCase s) else Some v
  | None => T t pvt (camelCase s)
  end.

Lemma look_up_read w t pvt s ps : (∀ k, assoc k ps = kept w t pvt k) → look_up nullish s ps = read_table (kept w) t pvt s.
Proof. intros H. unfold look_up, read_table. by rewrite !H. Qed.

Lemma get_reads w t pvt s : ids_ok w → acceptData kind t = true →
  (internalData nullish kind t (ByName s) None pvt w).1 = Ret (Value (read_table (kept w) t pvt s)).
Proof.
  intros H Ha. unfold internalData. rewrite Ha. cbn [negb]. destruct (match entry_of t w with Some _ => _ | None => _ end) eqn:E; cbn [fst].
  - assert (Hn : ∀ k, kept w t pvt k = None).
    { intros k. unfold kept. destruct (entry_of t w) as [e|]; [|done]. destruct pvt; [done|]. cbn in E |- *. by destruct (c_data e). }
    unfold read_table. by rewrite !Hn.
  - destruct (ensure_part t pvt (λ ps, ps) w H) as (_ & H2 & _). by rewrite (look_up_read w t pvt s _ H2).
Qed.
End facts.

Arguments data_op V : clear implicits.

Definition no_data {V} : table := λ _ _ _, None : option V.

(** C24. The cache refines a table: after any steps of a page on any elements and objects (keeping
    values by name or by object, reading, removing, cleaning up), what is read for a name
    is what the table of values by holder, part and name has, where each step changes only
    the row of its own holder; that numbers are given to other elements again
    is not seen. *)
Theorem data_refines {V} (nullish : V → bool) (kind : nat → node_kind) ops t s pvt : Forall op_ok ops → acceptData kind t = true →
  (internalData nullish kind t (ByName s) None pvt (data_run nullish kind ops new_store)).1
  = Ret (Value (read_table nullish (foldl (λ T op, table_step kind op T) no_data ops) t pvt s)).
Proof.
  intros Ho Ha. destruct (data_run_ok nullish kind ops Ho new_store no_data) as (H1 & _ & H3).
  - apply new_ids_ok.
  - intros t'. unfold kept. destruct t'; cbn; by rewrite lookup_empty.
  - intros t' pvt' k. unfold kept. destruct t'; cbn; by rewrite lookup_empty.
  - rewrite get_reads by done. unfold read_table. by rewrite !H3.
Qed.

Definition some_kind (n : nat) : node_kind := {| nodeType := 1; nodeName := if (n =? 9)%nat then "EMBED" else "DIV"; classid := None |}.

(** The second element gets the number of the first. *)
Definition reuse_ops : list (data_op nat) :=
  [OSet (Node 0) "my-color" 1 false; OSet (Node 0) "fxqueue" 2 true; ORemove (Node 0) (Some (RName "my-color")) false;
   ORemove (Node 0) (Some (RName "fxqueue")) true; OSet (Node 1) "myColor" 3 false; OGet (Node 0) "my-color" false].

Lemma data_refines_witness :
  (internalData (λ _ : nat, false) some_kind (Node 1) (ByName "my-color") None false (data_run (λ _, false) some_kind reuse_ops new_store)).1 = Ret (Value (Some 3)) ∧
  expando (data_run (λ _, false) some_kind reuse_ops new_store) = {[1 := 1%N]}.
Proof.
  split; [|vm_compute; reflexivity]. etrans; [apply (data_refines (λ _ : nat, false) some_kind reuse_ops (Node 1) "my-color" false)|vm_compute; reflexivity].
  - repeat constructor. discriminate.
  - reflexivity.
Defined.

(** A name with a dash that was kept by object hides what is kept under that name later. *)
Lemma dashed_name_hides :
  let ops := [OExtend (Node 0) [("my-color", 1)] false; OSet (Node 0) "my-color" 2 false] in
  (internalData (λ _ : nat, false) some_kind (Node 0) (ByName "my-color") None false (data_run (λ _, false) some_kind ops new_store)).1 = Ret (Value (Some 1)).
Proof. vm_compute. reflexivity. Qed.

(** ** Data in attributes *)

Lemma get_data_reads kind w t s : ids_ok w → acceptData kind t = true →
  get_data kind t s w = (Ret (read_table is_null_value (kept w) t false s), (internalData is_null_value kind t (ByName s) None false w).2).
Proof.
  intros H Ha. unfold get_data, data. cbv [mbind M_bind]. pose proof (get_reads is_null_value kind w t false s H Ha) as Hr.
  destruct (internalData _ _ _ _ _ _ w) as [r w']. cbn in Hr. by subst r.
Qed.

(** Data that is first read from an attribute stays as it was read: when nothing is kept under a
    name, reading gives the value of the attribute, and reading again gives the same
    value, whatever has become of the attribute. *)
Theorem attribute_read_once kind ops attrs attrs' n key s w : Forall op_ok ops → w = data_run is_null_value kind ops new_store →
  acceptData kind (Node n) = true → nodeType (kind n) = 1 → read_table is_null_value (kept w) (Node n) false key = None →
  assoc ("data-" +:+ dashed key) (attrs n) = Some s →
  ∃ w', fn_data_get kind attrs [n] key w = (Ret (Some (attribute_value s)), w') ∧
    (fn_data_get kind attrs' [n] key w').1 = Ret (Some (attribute_value s)).
Proof.
  intros Ho Ew Ha Hn Hr Hs. destruct (data_run_ok is_null_value kind ops Ho new_store no_data) as (H1 & H2 & _);
    [apply new_ids_ok|by intros []; cbv [kept]; cbn; rewrite lookup_empty|by intros [] ? ?; cbv [kept]; cbn; rewrite lookup_empty|]. rewrite <- Ew in H1, H2. clear Ew Ho.
  pose proof (data_step_ok is_null_value kind (OGet (Node n) key false) w H1 H2) as [G1 G2]. cbn [data_step table_step] in G1, G2.
  set (w1 := (internalData is_null_value kind (Node n) (ByName key) None false w).2) in *.
  assert (G3 : no_toJSON w1) by (intros t; rewrite G2; apply H2).
  pose proof (data_step_ok is_null_value kind (OSet (Node n) key (attribute_value s) false) w1 G1 G3) as [K1 K2]. cbn [data_step table_step] in K1, K2. rewrite Ha in K2.
  set (w2 := (internalData is_null_value kind (Node n) (ByName key) (Some (attribute_value s)) false w1).2) in *.
  exists w2. unfold fn_data_get. cbv [mbind M_bind]. split.
  - rewrite get_data_reads, Hr by done. unfold dataAttr. rewrite Hn, Hs. cbn [Nat.eqb]. cbv [mbind M_bind]. fold w1. unfold w2, data.
    unfold internalData at 1 2. rewrite Ha. done.
  - rewrite get_data_reads by done.
    assert (read_table is_null_value (kept w2) (Node n) false key = Some (attribute_value s)) as ->; [|done].
    unfold read_table in *. rewrite !K2. unfold with_part. rewrite !decide_True, !G2, String.eqb_refl by done. destruct (String.eqb key (camelCase key)); [by destruct (is_null_value _)|].
    destruct (kept w (Node n) false key) as [v|]; [|done]. by destruct (is_null_value v).
Qed.

Lemma attribute_read_once_witness : ∃ w', fn_data_get some_kind (λ _, [("data-max-count", "12")]) [0] "maxCount" new_store = (Ret (Some (VInt 12)), w') ∧
  (fn_data_get some_kind (λ _, [("data-max-count", "13")]) [0] "maxCount" w').1 = Ret (Some (VInt 12)).
Proof.
  destruct (attribute_read_once some_kind [] (λ _, [("data-max-count", "12")]) (λ _, [("data-max-count", "13")]) 0 "maxCount" "12" new_store) as (w' & H1 & H2);
    [constructor|reflexivity|reflexivity|reflexivity|reflexivity|reflexivity|].
  exists w'. split; [rewrite H1|rewrite H2]; vm_compute; reflexivity.
Defined.

(** Attributes are converted only when nothing is lost. *)
Lemma attributes_converted : attribute_value <$> ["007"; "7"; "1.50"; "[1"; "{x}"; "true"; "[7]"]
  = [VStr "007"; VInt 7; VStr "1.50"; VStr "[1"; VStr "{x}"; VBool true; VObj true [("0", VInt 7)]].
Proof. vm_compute. reflexivity. Qed.
