(* ===== verification/JQueryQueue.v ===== *)
(** * Queues of functions (jquery-1.9.1.js: queue, dequeue, _queueHooks, delay, promise)

    Elements have queues of functions by type, kept in their private data.  A function is
    called with [next], which goes on with the queue; the queue "fx" starts by
    itself and has a sentinel while one of its functions is in progress.  What the
    functions of the page do is the parameter [body]. *)

From S2P Require Import Prelude JQueryData.

(** ** What is kept *)

(** Functions of a queue: those of the page, and the one that [delay] makes. *)
Inductive func := Fn (f : nat) | Wait.
Inductive item := InProgress | Fun (x : func).
#[export] Instance func_eq_dec : EqDecision func.
Proof. solve_decision. Defined.
#[export] Instance item_eq_dec : EqDecision item.
Proof. solve_decision. Defined.

(** The hooks of a queue: the functions for when it is empty are the one that removes the
    data, which is there from the start, and then those of promises. *)
Record hooks := { h_empty : list nat; h_cur : option item; h_stop : option nat }.
Inductive qdata := Items (l : list item) | Hooks (h : hooks).

(** Private data, as queues use it: [pd_set] returns what [jQuery._data] returns. *)
Class PrivateData (W V : Type) := {
  pd_get : nat → string → W → option V;
  pd_set : nat → string → V → W → option V * W;
  pd_remove : nat → string → W → W;
}.

(** What a store of private data promises for the elements that accept data and for plain names. *)
Class PrivateDataLaws (W V : Type) `{PrivateData W V} (accepts : nat → Prop) (plain : string → Prop) (ok : W → Prop) := {
  pd_set_ok n k v w : accepts n → plain k → ok w → ok (pd_set n k v w).2;
  pd_remove_ok n k w : accepts n → plain k → ok w → ok (pd_remove n k w);
  pd_set_returns n k v w : accepts n → plain k → ok w → (pd_set n k v w).1 = Some v;
  pd_get_set n k v w n' k' : accepts n → plain k → accepts n' → plain k' → ok w →
    pd_get n' k' (pd_set n k v w).2 = if decide (n' = n ∧ k' = k) then Some v else pd_get n' k' w;
  pd_get_remove n k w n' k' : accepts n → plain k → accepts n' → plain k' → ok w →
    pd_get n' k' (pd_remove n k w) = if decide (n' = n ∧ k' = k) then None else pd_get n' k' w;
}.

(** The private data of jQuery. *)
Definition jquery_data (kind : nat → node_kind) : PrivateData (store qdata) qdata := {|
  pd_get n k w := match (internalData (λ _, false) kind (Node n) (ByName k) None true w).1 with Ret (Value v) => v | _ => None end;
  pd_set n k v w := let '(r, w) := internalData (λ _, false) kind (Node n) (ByName k) (Some v) true w in
    (match r with Ret (Value v) => v | _ => None end, w);
  pd_remove n k w := internalRemoveData kind (Node n) (Some (RName k)) true w;
|}.

(** ** The page *)

(** What happens, in order. *)
Inductive qevent :=
| EQueued (n : nat) (ty : string) (x : func)
| ESet (n : nat) (ty : string) (xs : list func)
| ECalled (n : nat) (ty : string) (x : func)
| EResolved (p : nat).

Record timer := { tm_id : nat; tm_node : nat; tm_type : string }.
Record qpage W := { q_data : W; q_counts : gmap nat Z; q_timers : list timer; q_fresh : nat; q_log : list qevent }.
Arguments q_data {W} _.
Arguments q_counts {W} _.
Arguments q_timers {W} _.
Arguments q_fresh {W} _.
Arguments q_log {W} _.
Arguments Build_qpage {W} _ _ _ _ _.

(** What the page asks for on its elements. *)
Inductive request :=
| RQueue (n : nat) (ty : string) (data : func + list func)
| RDequeue (n : nat) (ty : string)
| RPromise (ns : list nat) (ty : string).

(** What a function of the page does: it may call [next], or let a timer call it, or use the queues. *)
Inductive deed := Next | NextLater | Do (r : request).

(** Calls that are to be made: for the page, of a function of a queue, to set a timer for [next], and of
    the function that a promise adds. *)
Inductive call := CAsk (r : request) | CFn (n : nat) (ty : string) (x : func) | CTimer (n : nat) (ty : string) | CResolve (p : nat).

Section queue.
Context {W : Type} `{PrivateData W qdata}.
Context (body : nat → list deed) (on_done : nat → list request).
Implicit Types (q : qpage W) (n : nat) (ty : string).

Definition with_data (w : W) q : qpage W := {| q_data := w; q_counts := q_counts q; q_timers := q_timers q; q_fresh := q_fresh q; q_log := q_log q |}.
Definition note (e : qevent) q : qpage W :=
  {| q_data := q_data q; q_counts := q_counts q; q_timers := q_timers q; q_fresh := q_fresh q; q_log := q_log q ++ [e] |}.

Definition or_fx (ty : string) : string := if String.eqb ty "" then "fx" else ty.
Definition items_key ty : string := ty +:+ "queue".
Definition hooks_key ty : string := ty +:+ "queueHooks".

(** What the private data has under the key of a queue, or of its hooks. *)
Definition items_of n ty (w : W) : option (list item) := match pd_get n (items_key ty) w with Some (Items l) => Some l | _ => None end.
Definition hooks_of n ty (w : W) : option hooks := match pd_get n (hooks_key ty) w with Some (Hooks h) => Some h | _ => None end.

(** [jQuery.queue(elem, type, data)]: pushing changes the array that is kept. *)
Definition queue n ty (data : option (func + list func)) q : list item * qpage W :=
  let ty := or_fx ty in
  let l := items_of n ty (q_data q) in
  let set l q := let '(r, w) := pd_set n (items_key ty) (Items l) (q_data q) in
    (match r with Some (Items l) => l | _ => [] end, with_data w q) in
  match data, l with
  | None, _ => (default [] l, q)
  | Some (inl x), Some l => set (l ++ [Fun x]) (note (EQueued n ty x) q)
  | Some (inl x), None => set [Fun x] (note (EQueued n ty x) q)
  | Some (inr xs), _ => set (Fun <$> xs) (note (ESet n ty xs) q)
  end.

(** [jQuery._queueHooks(elem, type)] *)
Definition queueHooks n ty q : option hooks * qpage W :=
  match hooks_of n ty (q_data q) with
  | Some h => (Some h, q)
  | None => let '(r, w) := pd_set n (hooks_key ty) (Hooks {| h_empty := []; h_cur := None; h_stop := None |}) (q_data q) in
      (match r with Some (Hooks h) => Some h | _ => None end, with_data w q)
  end.

(** The array of the queue and the object of its hooks are changed where they are kept. *)
Definition put_items n ty (l : list item) q : qpage W :=
  match items_of n ty (q_data q) with Some _ => with_data (pd_set n (items_key ty) (Items l) (q_data q)).2 q | None => q end.
Definition put_hooks n ty (h : hooks) q : qpage W := with_data (pd_set n (hooks_key ty) (Hooks h) (q_data q)).2 q.

(** [hooks.empty.fire()]: the data is removed, and the promises are told. *)
Definition fire_empty n ty (h : hooks) q : list call * qpage W :=
  let w := pd_remove n (items_key ty) (q_data q) in
  (CResolve <$> h_empty h, with_data (pd_remove n (hooks_key ty) w) q).

(** [jQuery.dequeue(elem, type)]: the calls that it makes last *)
Definition dequeue n ty q : res (list call) * qpage W :=
  let ty := or_fx ty in
  let '(l, q) := queue n ty None q in
  let startLength := length l in
  let fn := head l in
  let l := tail l in
  let '(h, q) := queueHooks n ty (put_items n ty l q) in
  let '(startLength, fn, l) := if decide (fn = Some InProgress) then (startLength - 1, head l, tail l) else (startLength, fn, l) in
  let q := put_items n ty l q in
  match h with
  | None => (Throw TypeError, q)
  | Some h =>
      match fn with
      | Some x =>
          let q := put_items n ty (if String.eqb ty "fx" then InProgress :: l else l) q in
          let q := put_hooks n ty {| h_empty := h_empty h; h_cur := Some x; h_stop := None |} q in
          match x with Fun x => (Ret [CFn n ty x], note (ECalled n ty x) q) | InProgress => (Throw TypeError, q) end
      | None =>
          let q := put_hooks n ty {| h_empty := h_empty h; h_cur := None; h_stop := h_stop h |} q in
          if (startLength =? 0)%nat then let '(cs, q) := fire_empty n ty h q in (Ret cs, q) else (Ret [], q)
      end
  end.

(** [jQuery(elem).queue(type, data)] *)
Definition fn_queue n ty (data : func + list func) q : res (list call) * qpage W :=
  let '(l, q) := queue n ty (Some data) q in
  let '(_, q) := queueHooks n ty q in
  if String.eqb ty "fx" && negb (bool_decide (head l = Some InProgress)) then dequeue n ty q else (Ret [], q).

(** [setTimeout(next, time)] *)
Definition set_timer n ty q : nat * qpage W :=
  (q_fresh q, {| q_data := q_data q; q_counts := q_counts q; q_timers := q_timers q ++ [{| tm_id := q_fresh q; tm_node := n; tm_type := ty |}];
                 q_fresh := S (q_fresh q); q_log := q_log q |}).

(** A call of a function of a queue with [next] and the hooks. *)
Definition deed_call n ty (d : deed) : call := match d with Next => CAsk (RDequeue n ty) | NextLater => CTimer n ty | Do r => CAsk r end.
Definition call_fn n ty (x : func) q : list call * qpage W :=
  match x with
  | Fn f => (deed_call n ty <$> body f, q)
  | Wait =>
      let '(t, q) := set_timer n ty q in
      ([], match hooks_of n ty (q_data q) with
           | Some h => put_hooks n ty {| h_empty := h_empty h; h_cur := h_cur h; h_stop := Some t |} q
           | None => q
           end)
  end.

(** [jQuery(elems).promise(type)]: the count of the queues that are in use *)
Fixpoint add_resolve (p : nat) ty (ns : list nat) q : Z * qpage W :=
  match ns with
  | [] => (0%Z, q)
  | n :: ns' =>
      let '(c, q) := add_resolve p ty ns' q in
      match hooks_of n ty (q_data q) with
      | Some h => ((c + 1)%Z, put_hooks n ty {| h_empty := h_empty h ++ [p]; h_cur := h_cur h; h_stop := h_stop h |} q)
      | None => (c, q)
      end
  end.
Definition set_count (p : nat) (c : Z) q : qpage W :=
  {| q_data := q_data q; q_counts := <[p := c]> (q_counts q); q_timers := q_timers q; q_fresh := q_fresh q; q_log := q_log q |}.

(** [resolve()] *)
Definition resolve (p : nat) q : list call * qpage W :=
  let c := (default 0 (q_counts q !! p) - 1)%Z in
  let q := set_count p c q in
  if (c =? 0)%Z then (CAsk <$> on_done p, note (EResolved p) q) else ([], q).

Definition promise (ns : list nat) ty q : list call * qpage W :=
  let p := q_fresh q in
  let q := {| q_data := q_data q; q_counts := q_counts q; q_timers := q_timers q; q_fresh := S p; q_log := q_log q |} in
  let '(c, q) := add_resolve p (or_fx ty) ns q in
  resolve p (set_count p (c + 1)%Z q).

(** ** Steps *)

Definition ask (r : request) q : res (list call) * qpage W :=
  match r with
  | RQueue n ty data => fn_queue n ty data q
  | RDequeue n ty => dequeue n ty q
  | RPromise ns ty => let '(cs, q) := promise ns ty q in (Ret cs, q)
  end.
Definition do_call (c : call) q : res (list call) * qpage W :=
  match c with
  | CAsk r => ask r q
  | CFn n ty x => let '(cs, q) := call_fn n ty x q in (Ret cs, q)
  | CTimer n ty => (Ret [], (set_timer n ty q).2)
  | CResolve p => let '(cs, q) := resolve p q in (Ret cs, q)
  end.

(** [jQuery(elem).delay(time, type)] and [jQuery(elem).clearQueue(type)] *)
Definition delay n ty : request := RQueue n (or_fx ty) (inl Wait).
Definition clearQueue n ty : request := RQueue n (or_fx ty) (inr []).

(** The calls that are open, the next one first, and the page. *)
Record config := { c_calls : list call; c_page : qpage W }.

Definition step (c : config) : option (res config) :=
  match c_calls c with
  | [] => None
  | a :: cs => Some (let '(r, q) := do_call a (c_page c) in
      match r with Ret new => Ret {| c_calls := new ++ cs; c_page := q |} | Throw e => Throw e end)
  end.

Fixpoint run_steps (fuel : nat) (c : config) : option config :=
  match fuel with O => Some c | S fuel => match step c with Some (Ret c') => run_steps fuel c' | _ => None end end.

(** A timer that fires calls its [next]. *)
Definition fire_timer (i : nat) q : option (list call * qpage W) :=
  t ← q_timers q !! i;
  Some ([CAsk (RDequeue (tm_node t) (tm_type t))],
    {| q_data := q_data q; q_counts := q_counts q; q_timers := delete i (q_timers q); q_fresh := q_fresh q; q_log := q_log q |}).
End queue.
