(* ===== verification/QueueFacts.v ===== *)
(** * Queues are served in order (about JQueryQueue)

    Against the promises of the private data, whatever the functions of the page do:
    every queue is a first-in-first-out queue, no call fails, and no function waits in an
    idle queue "fx".  The data of jQuery keeps these promises. *)

From S2P Require Import Prelude JSValue Forms JQueryData DataFacts JQueryQueue.

Section facts.
Context {W : Type} `{PrivateData W qdata} (accepts : nat → Prop) (plain : string → Prop) (ok : W → Prop).
Context `{!PrivateDataLaws W qdata accepts plain ok}.
Context (body : nat → list deed) (on_done : nat → list request).
Implicit Types (q : qpage W) (n : nat) (ty : string) (w : W).

(** ** Keys *)

Definition good_type ty : Prop := ty ≠ "" ∧ plain (items_key ty) ∧ plain (hooks_key ty).

Lemma append_inj s a b : a +:+ s = b +:+ s → a = b.
Proof.
  intros E. assert (El : String.length a = String.length b).
  { apply (f_equal String.length) in E. rewrite !str_length_app in E. lia. }
  clear -E El. induction a as [|c a IH] in b, E, El |- *; destruct b as [|d b]; try done. cbn in *. injection E as -> E. f_equal. apply IH; [done|lia].
Qed.
Lemma string_last_app a c s : string_last (a +:+ String c s) = string_last (String c s).
Proof. induction a as [|d a IH]; [done|]. cbn [String.append]. rewrite <- IH. cbn [string_last]. by destruct (a +:+ String c s) eqn:E; [destruct a|]. Qed.

Lemma items_key_inj ty ty' : items_key ty = items_key ty' → ty = ty'.
Proof. apply append_inj. Qed.
Lemma keys_differ ty ty' : items_key ty ≠ hooks_key ty'.
Proof. intros E. apply (f_equal string_last) in E. unfold items_key, hooks_key in E. by rewrite !string_last_app in E. Qed.

(** ** What the steps do to the queues *)

(** The queue of one element and type is changed to [o], and no other. *)
Record only n ty (o : option (list item)) q q' : Prop := {
  only_ok : ok (q_data q');
  only_items n' ty' : accepts n' → good_type ty' →
    items_of n' ty' (q_data q') = if decide (n' = n ∧ ty' = ty) then o else items_of n' ty' (q_data q);
}.

Lemma only_self n ty o q q' : accepts n → good_type ty → only n ty o q q' → items_of n ty (q_data q') = o.
Proof. intros Ha Hg [_ E]. by rewrite E, decide_True. Qed.
Lemma only_refl n ty q : ok (q_data q) → only n ty (items_of n ty (q_data q)) q q.
Proof. intros Hok. split; [done|]. intros n' ty' _ _. destruct (decide _) as [[-> ->]|]; done. Qed.
Lemma only_trans n ty o o' q q1 q2 : only n ty o q q1 → only n ty o' q1 q2 → only n ty o' q q2.
Proof. intros [_ E1] [H2 E2]. split; [done|]. intros n' ty' Ha Hg. rewrite E2, E1 by done. by destruct (decide _). Qed.

Lemma set_items n ty l q : accepts n → good_type ty → ok (q_data q) →
  only n ty (Some l) q (with_data (pd_set n (items_key ty) (Items l) (q_data q)).2 q).
Proof.
  intros Ha (He & Hi & Hh) Hok. split; [by apply (pd_set_ok (plain := plain) (accepts := accepts))|]. intros n' ty' Ha' (He' & Hi' & Hh'). cbn [q_data with_data].
  unfold items_of. rewrite (pd_get_set (plain := plain) (accepts := accepts) (ok := ok)) by done.
  destruct (decide (n' = n ∧ ty' = ty)) as [[-> ->]|Hd]; [by rewrite decide_True|]. rewrite decide_False; [done|]. intros [-> E%items_key_inj]. auto.
Qed.

Lemma put_items_ok n ty l q : accepts n → good_type ty → ok (q_data q) →
  only n ty (match items_of n ty (q_data q) with Some _ => Some l | None => None end) q (put_items n ty l q).
Proof.
  intros Ha Hg Hok. unfold put_items. destruct (items_of n ty (q_data q)) eqn:E; [by apply set_items|]. rewrite <- E. by apply only_refl.
Qed.

Lemma set_hooks n ty h q : accepts n → good_type ty → ok (q_data q) → only n ty (items_of n ty (q_data q)) q (put_hooks n ty h q).
Proof.
  intros Ha (He & Hi & Hh) Hok. split; [by apply (pd_set_ok (plain := plain) (accepts := accepts))|]. intros n' ty' Ha' (He' & Hi' & Hh'). cbn [q_data with_data put_hooks].
  unfold items_of. rewrite (pd_get_set (plain := plain) (accepts := accepts) (ok := ok)) by done. rewrite (decide_False (P := n' = n ∧ items_key ty' = hooks_key ty)).
  - destruct (decide _) as [[-> ->]|]; done.
  - intros [_ E]. by apply keys_differ in E.
Qed.

Lemma queueHooks_ok n ty q : accepts n → good_type ty → ok (q_data q) → ∃ h q', queueHooks n ty q = (Some h, q') ∧
  only n ty (items_of n ty (q_data q)) q q' ∧ q_log q' = q_log q ∧ q_timers q' = q_timers q.
Proof.
  intros Ha Hg Hok. unfold queueHooks. destruct (hooks_of n ty (q_data q)) as [h|]; [exists h, q; split; [done|]; split; [by apply only_refl|done]|].
  set (h := {| h_empty := []; h_cur := None; h_stop := None |}). pose proof (set_hooks n ty h q Ha Hg Hok) as Hs. unfold put_hooks in Hs.
  destruct Hg as (He & Hi & Hh). pose proof (pd_set_returns (plain := plain) (accepts := accepts) (ok := ok) n (hooks_key ty) (Hooks h) (q_data q) Ha Hh Hok) as Hr.
  destruct (pd_set n (hooks_key ty) (Hooks h) (q_data q)) as [r w]. cbn in Hr, Hs. subst r. by exists h, (with_data w q).
Qed.

Lemma fire_empty_ok n ty h q : accepts n → good_type ty → ok (q_data q) → only n ty None q (fire_empty n ty h q).2.
Proof.
  intros Ha (He & Hi & Hh) Hok. unfold fire_empty. cbn [snd].
  assert (ok (pd_remove n (items_key ty) (q_data q))) by (by apply (pd_remove_ok (plain := plain) (accepts := accepts))).
  split; [by apply (pd_remove_ok (plain := plain) (accepts := accepts))|]. intros n' ty' Ha' (He' & Hi' & Hh'). cbn [q_data with_data]. unfold items_of.
  rewrite !(pd_get_remove (plain := plain) (accepts := accepts) (ok := ok)) by done. rewrite (decide_False (P := n' = n ∧ items_key ty' = hooks_key ty)) by (intros [_ E]; by apply keys_differ in E).
  destruct (decide (n' = n ∧ ty' = ty)) as [[-> ->]|Hd]; [by rewrite decide_True|]. rewrite decide_False; [done|]. intros [-> E%items_key_inj]. auto.
Qed.

(** ** Serving *)

(** The items that are kept for functions that wait; the queue "fx" has its sentinel in front. *)
Definition wrap ty (xs : list func) : list item := if String.eqb ty "fx" then InProgress :: (Fun <$> xs) else Fun <$> xs.
Definition served ty (o : option (list item)) (xs : list func) : Prop :=
  match o with None => xs = [] | Some l => l = [] ∧ xs = [] ∨ l = wrap ty xs end.

Lemma or_fx_good ty : good_type ty → or_fx ty = ty.
Proof. intros [He _]. unfold or_fx. destruct (String.eqb_spec ty ""); done. Qed.
Lemma or_fx_twice ty : or_fx (or_fx ty) = or_fx ty.
Proof. unfold or_fx at 2 3. by destruct (String.eqb ty "") eqn:E; unfold or_fx; rewrite ?E. Qed.

(** What is left after the start of [dequeue]: the function to call and the items after it. *)
Definition taken (l : list item) : nat * option item * list item :=
  if decide (head l = Some InProgress) then (length l - 1, head (tail l), tail (tail l)) else (length l, head l, tail l).

(** The functions that wait are those in the items, with or without a sentinel. *)
Definition waits (o : option (list item)) (xs : list func) : Prop :=
  taken (default [] o) = (length xs, head (Fun <$> xs), tail (Fun <$> xs)) ∧ (o = None → xs = []).

Lemma waits_plain xs : waits (Some (Fun <$> xs)) xs.
Proof. split; [|done]. unfold taken. cbn. rewrite decide_False by (by destruct xs). by rewrite length_fmap. Qed.
Lemma served_waits ty o xs : served ty o xs → waits o xs.
Proof.
  destruct o as [l|]; [|by intros ->]. intros [[-> ->]| ->]; [done|]. unfold wrap. destruct (String.eqb ty "fx"); [|apply waits_plain].
  split; [|done]. unfold taken. cbn. by rewrite length_fmap, Nat.sub_0_r.
Qed.

Lemma put_items_log n ty l q : q_log (put_items n ty l q) = q_log q ∧ q_timers (put_items n ty l q) = q_timers q.
Proof. unfold put_items. by destruct (items_of n ty (q_data q)). Qed.

(** [dequeue] up to the test of [fn]: the items are taken, and there are hooks. *)
Lemma dequeue_takes n ty q : accepts n → good_type ty → ok (q_data q) → ∃ h q1,
  let '(len, fn, l) := taken (default [] (items_of n ty (q_data q))) in
  dequeue n ty q = match fn with
    | Some x =>
        let q := put_items n ty (if String.eqb ty "fx" then InProgress :: l else l) q1 in
        let q := put_hooks n ty {| h_empty := h_empty h; h_cur := Some x; h_stop := None |} q in
        match x with Fun x => (Ret [CFn n ty x], note (ECalled n ty x) q) | InProgress => (Throw TypeError, q) end
    | None =>
        let q := put_hooks n ty {| h_empty := h_empty h; h_cur := None; h_stop := h_stop h |} q1 in
        if (len =? 0)%nat then let '(cs, q) := fire_empty n ty h q in (Ret cs, q) else (Ret [], q)
    end ∧
  only n ty (match items_of n ty (q_data q) with Some _ => Some l | None => None end) q q1 ∧ q_log q1 = q_log q ∧ q_timers q1 = q_timers q.
Proof.
  intros Ha Hg Hok. set (l0 := default [] (items_of n ty (q_data q))). pose proof (put_items_ok n ty (tail l0) q Ha Hg Hok) as P1.
  destruct (queueHooks_ok n ty _ Ha Hg (only_ok _ _ _ _ _ P1)) as (h & q2 & Eh & P2 & L2 & T2). rewrite (only_self _ _ _ _ _ Ha Hg P1) in P2.
  set (l := (taken l0).2). exists h, (put_items n ty l q2). destruct (taken l0) as [[len fn] l'] eqn:Et. cbn in l. subst l.
  pose proof (put_items_ok n ty l' q2 Ha Hg (only_ok _ _ _ _ _ P2)) as P3. rewrite (only_self _ _ _ _ _ Ha Hg P2) in P3.
  split_and!.
  - unfold dequeue. rewrite (or_fx_good ty Hg). unfold queue. rewrite (or_fx_good ty Hg). fold l0. rewrite Eh. unfold taken in Et.
    destruct (decide (head l0 = Some InProgress)); injection Et as <- <- <-; done.
  - eapply only_trans; [exact P1|]. eapply only_trans; [exact P2|]. by destruct (items_of n ty (q_data q)).
  - destruct (put_items_log n ty l' q2) as [-> _]. rewrite L2. apply put_items_log.
  - destruct (put_items_log n ty l' q2) as [_ ->]. rewrite T2. apply put_items_log.
Qed.

(** A queue without functions that wait is removed. *)
Lemma dequeue_empty n ty q : accepts n → good_type ty → ok (q_data q) → waits (items_of n ty (q_data q)) [] →
  ∃ ps q', dequeue n ty q = (Ret (CResolve <$> ps), q') ∧ only n ty None q q' ∧ q_log q' = q_log q ∧ q_timers q' = q_timers q.
Proof.
  intros Ha Hg Hok Hs. destruct (dequeue_takes n ty q Ha Hg Hok) as (h & q1 & Hd).
  rewrite (proj1 Hs) in Hd. destruct Hd as (E & P1 & L1 & T1). cbn [Nat.eqb] in E. pose proof (set_hooks n ty {| h_empty := h_empty h; h_cur := None; h_stop := h_stop h |} q1 Ha Hg (only_ok _ _ _ _ _ P1)) as P2.
  pose proof (fire_empty_ok n ty h _ Ha Hg (only_ok _ _ _ _ _ P2)) as P3. eexists (h_empty h), _. split; [rewrite E; reflexivity|]. split; [|done].
  eapply only_trans; [exact P1|]. by eapply only_trans.
Qed.

(** The first function that waits is called. *)
Lemma dequeue_first n ty q x xs : accepts n → good_type ty → ok (q_data q) → waits (items_of n ty (q_data q)) (x :: xs) →
  ∃ q', dequeue n ty q = (Ret [CFn n ty x], q') ∧ only n ty (Some (wrap ty xs)) q q' ∧ q_log q' = q_log q ++ [ECalled n ty x] ∧ q_timers q' = q_timers q.
Proof.
  intros Ha Hg Hok Hs. destruct (dequeue_takes n ty q Ha Hg Hok) as (h & q1 & Hd).
  destruct Hs as [Hs Hn]. rewrite Hs in Hd. destruct (items_of n ty (q_data q)) as [l|] eqn:El; [|by specialize (Hn eq_refl)].
  cbn [fmap list_fmap head tail] in Hd. destruct Hd as (E & P1 & L1 & T1).
  pose proof (put_items_ok n ty (if String.eqb ty "fx" then InProgress :: (Fun <$> xs) else Fun <$> xs) q1 Ha Hg (only_ok _ _ _ _ _ P1)) as P2.
  rewrite (only_self _ _ _ _ _ Ha Hg P1) in P2. pose proof (set_hooks n ty {| h_empty := h_empty h; h_cur := Some (Fun x); h_stop := None |} _ Ha Hg (only_ok _ _ _ _ _ P2)) as P3.
  rewrite (only_self _ _ _ _ _ Ha Hg P2) in P3. eexists. split; [rewrite E; reflexivity|]. split_and!.
  - eapply only_trans; [exact P1|]. eapply only_trans; [exact P2|]. destruct P3 as [O3 I3]. by split.
  - cbn. f_equal. by rewrite (proj1 (put_items_log _ _ _ _)).
  - cbn. by rewrite (proj2 (put_items_log _ _ _ _)).
Qed.

(** ** Histories *)

(** A queue of functions, first in first out: what waits after an event, or [None] when a function
    is called that is not the first. *)
Definition serve n ty (st : option (list func)) (e : qevent) : option (list func) :=
  xs ← st;
  match e with
  | EQueued n' ty' x => if decide (n' = n ∧ ty' = ty) then Some (xs ++ [x]) else Some xs
  | ESet n' ty' ys => if decide (n' = n ∧ ty' = ty) then Some ys else Some xs
  | ECalled n' ty' x =>
      if decide (n' = n ∧ ty' = ty) then match xs with y :: ys => if decide (x = y) then Some ys else None | [] => None end else Some xs
  | EResolved _ => Some xs
  end.
Definition replay n ty (log : list qevent) : option (list func) := foldl (serve n ty) (Some []) log.

Definition about n ty (e : qevent) : Prop :=
  match e with EQueued n' ty' _ | ESet n' ty' _ | ECalled n' ty' _ => n' = n ∧ ty' = ty | EResolved _ => True end.

Lemma serve_other n ty n' ty' es st : Forall (about n ty) es → ¬ (n' = n ∧ ty' = ty) → foldl (serve n' ty') st es = st.
Proof.
  intros He Hn. induction He as [|e es Ha He IH] in st |- *; cbn [foldl]; [done|]. rewrite IH. destruct st as [xs|]; [|done].
  destruct e as [n1 ty1 x|n1 ty1 ys|n1 ty1 x|p]; cbn in Ha |- *; [destruct Ha as [-> ->]; rewrite decide_False; [done|naive_solver]..|done].
Qed.

(** ** The invariant *)

Definition request_ok (r : request) : Prop :=
  match r with
  | RQueue n ty _ => accepts n ∧ good_type ty
  | RDequeue n ty => accepts n ∧ good_type (or_fx ty)
  | RPromise ns ty => Forall accepts ns ∧ good_type (or_fx ty)
  end.
Definition deed_ok (d : deed) : Prop := match d with Do r => request_ok r | _ => True end.
Definition call_ok (c : call) : Prop :=
  match c with CAsk r => request_ok r | CFn n ty _ | CTimer n ty => accepts n ∧ good_type ty | CResolve _ => True end.
Definition timer_ok (t : timer) : Prop := accepts (tm_node t) ∧ good_type (tm_type t).

Record page_ok q : Prop := {
  page_data : ok (q_data q);
  page_timers : Forall timer_ok (q_timers q);
  page_fifo n ty : accepts n → good_type ty → ∃ xs, replay n ty (q_log q) = Some xs ∧ served ty (items_of n ty (q_data q)) xs;
}.

Lemma page_only n ty o q q' es xs xs' : page_ok q → only n ty o q q' → q_timers q' = q_timers q → q_log q' = q_log q ++ es → Forall (about n ty) es →
  replay n ty (q_log q) = Some xs → foldl (serve n ty) (Some xs) es = Some xs' → served ty o xs' → page_ok q'.
Proof.
  intros [Hok Ht Hf] [Hok' Hi] Et El He Hr Hx Hs. split; [done|by rewrite Et|]. intros n' ty' Ha Hg. rewrite Hi, El by done. unfold replay. rewrite foldl_app. fold (replay n' ty' (q_log q)).
  destruct (decide (n' = n ∧ ty' = ty)) as [[-> ->]|Hd]; [exists xs'; by rewrite Hr|]. rewrite (serve_other n ty) by done. auto.
Qed.

Lemma page_same n ty q q' : accepts n → good_type ty → page_ok q → only n ty (items_of n ty (q_data q)) q q' → q_timers q' = q_timers q → q_log q' = q_log q → page_ok q'.
Proof.
  intros Ha Hg Hp Ho Et El. destruct (page_fifo q Hp n ty Ha Hg) as (xs & Hr & Hs). eapply (page_only n ty _ q q' []); try done. by rewrite app_nil_r.
Qed.

Lemma dequeue_page n ty o q0 q es xs0 xs : accepts n → good_type ty → page_ok q0 → only n ty o q0 q → q_timers q = q_timers q0 → q_log q = q_log q0 ++ es →
  Forall (about n ty) es → replay n ty (q_log q0) = Some xs0 → foldl (serve n ty) (Some xs0) es = Some xs → waits o xs →
  ∃ cs q', dequeue n ty q = (Ret cs, q') ∧ Forall call_ok cs ∧ page_ok q'.
Proof.
  intros Ha Hg Hp Ho Et El He Hr Hx Hw. pose proof (only_self _ _ _ _ _ Ha Hg Ho) as Ei. rewrite <- Ei in Hw. destruct xs as [|x xs].
  - destruct (dequeue_empty n ty q Ha Hg (only_ok _ _ _ _ _ Ho) Hw) as (ps & q' & E & Ho' & El' & Et'). eexists _, q'. split; [exact E|]. split; [by apply Forall_fmap, Forall_true|].
    eapply (page_only n ty None q0 q' es); [done|by eapply only_trans|congruence|congruence|done..].
  - destruct (dequeue_first n ty q x xs Ha Hg (only_ok _ _ _ _ _ Ho) Hw) as (q' & E & Ho' & El' & Et'). eexists _, q'. split; [exact E|]. split; [by apply Forall_singleton|].
    eapply (page_only n ty _ q0 q' (es ++ [ECalled n ty x]) xs0 xs); [done|by eapply only_trans|congruence|by rewrite El', El, app_assoc|by apply Forall_app; split; [|apply Forall_singleton]|done| |by right].
    rewrite foldl_app, Hx. cbn. by rewrite !decide_True.
Qed.

Lemma dequeue_step n ty q : accepts n → good_type (or_fx ty) → page_ok q → ∃ cs q', dequeue n ty q = (Ret cs, q') ∧ Forall call_ok cs ∧ page_ok q'.
Proof.
  intros Ha Hg Hp. destruct (page_fifo q Hp n _ Ha Hg) as (xs & Hr & Hs).
  assert (E : dequeue n ty q = dequeue n (or_fx ty) q) by (unfold dequeue; by rewrite or_fx_twice). rewrite E.
  eapply (dequeue_page n (or_fx ty) _ q q []); try done; [by apply only_refl, Hp|by rewrite app_nil_r|by eapply served_waits].
Qed.

(** What [jQuery.queue] does with a function or a list of functions. *)
Definition data_event n ty (data : func + list func) : qevent := match data with inl x => EQueued n ty x | inr xs => ESet n ty xs end.
Definition queued (data : func + list func) (l : list item) : list item := match data with inl x => l ++ [Fun x] | inr xs => Fun <$> xs end.

Lemma queue_sets n ty data q : accepts n → good_type ty → ok (q_data q) → ∃ q', queue n ty (Some data) q = (queued data (default [] (items_of n ty (q_data q))), q') ∧
  only n ty (Some (queued data (default [] (items_of n ty (q_data q))))) q q' ∧ q_log q' = q_log q ++ [data_event n ty data] ∧ q_timers q' = q_timers q.
Proof.
  intros Ha Hg Hok. unfold queue. rewrite (or_fx_good ty Hg). set (l := queued data (default [] (items_of n ty (q_data q)))).
  pose proof (set_items n ty l (note (data_event n ty data) q) Ha Hg Hok) as Ho. destruct Hg as (He & Hi & Hh).
  pose proof (pd_set_returns (plain := plain) (accepts := accepts) (ok := ok) n (items_key ty) (Items l) (q_data q) Ha Hi Hok) as Hr.
  destruct (pd_set n (items_key ty) (Items l) (q_data q)) as [r w] eqn:Ep. cbn in Hr. subst r. exists (with_data w (note (data_event n ty data) q)).
  split; [|split; [|done]].
  - destruct data as [x|xs]; cbn [queued] in l |- *; [destruct (items_of n ty (q_data q))|]; cbn [default from_option id] in l; subst l; cbn [app] in Ep; cbn [q_data note]; by rewrite Ep.
  - destruct Ho as [O1 O2]. cbn [q_data note] in O1, O2. rewrite Ep in O1, O2. by split.
Qed.

Lemma queue_step n ty data q : accepts n → good_type ty → page_ok q → ∃ cs q', fn_queue n ty data q = (Ret cs, q') ∧ Forall call_ok cs ∧ page_ok q'.
Proof.
  intros Ha Hg Hp. unfold fn_queue. destruct (queue_sets n ty data q Ha Hg (page_data q Hp)) as (q1 & -> & P1 & L1 & T1).
  destruct (queueHooks_ok n ty q1 Ha Hg (only_ok _ _ _ _ _ P1)) as (h & q2 & -> & P2 & L2 & T2). rewrite (only_self _ _ _ _ _ Ha Hg P1) in P2.
  pose proof (only_trans _ _ _ _ _ _ _ P1 P2) as P. rewrite L1 in L2. rewrite T1 in T2. clear q1 P1 P2 L1 T1.
  destruct (page_fifo q Hp n ty Ha Hg) as (xs & Hr & Hs). set (l0 := default [] (items_of n ty (q_data q))) in *.
  set (xs' := match data with inl x => xs ++ [x] | inr ys => ys end).
  assert (Hx : foldl (serve n ty) (Some xs) [data_event n ty data] = Some xs') by (destruct data; cbn; by rewrite decide_True).
  assert (He : Forall (about n ty) [data_event n ty data]) by (constructor; [by destruct data|constructor]).
  assert (Hl : queued data l0 = Fun <$> xs' ∨ String.eqb ty "fx" = true ∧ queued data l0 = InProgress :: (Fun <$> xs')).
  { subst xs' l0. destruct data as [x|ys]; cbn [queued]; [|by left]. rewrite fmap_app. destruct (items_of n ty (q_data q)) as [l|]; cbn [default from_option id] in *; [|cbn [served] in Hs; rewrite Hs; by left].
    destruct Hs as [[-> ->]| ->]; [by left|]. unfold wrap. destruct (String.eqb ty "fx"); [by right|by left]. }
  destruct (String.eqb ty "fx" && negb (bool_decide (head (queued data l0) = Some InProgress))) eqn:E.
  - eapply (dequeue_page n ty _ q q2 [data_event n ty data]); try done. apply andb_true_iff in E as [Efx E]. apply negb_true_iff, bool_decide_eq_false in E.
    destruct Hl as [->|[_ Hl]]; [apply waits_plain|]. rewrite Hl in E. done.
  - eexists [], q2. split; [done|]. split; [constructor|]. eapply (page_only n ty _ q q2 [data_event n ty data]); try done. right. unfold wrap.
    destruct Hl as [Hl|[Efx Hl]]; [|by rewrite Efx]. rewrite Hl in E |- *. destruct (String.eqb ty "fx"); [|done]. cbn in E. exfalso.
    apply negb_false_iff, bool_decide_eq_true in E. by destruct xs'.
Qed.

Lemma put_hooks_page n ty h q : accepts n → good_type ty → page_ok q → page_ok (put_hooks n ty h q).
Proof. intros Ha Hg Hp. eapply (page_same n ty q); try done. apply set_hooks; [done..|apply Hp]. Qed.

(** Counts, numbers and notes of promises are not about queues. *)
Lemma page_aside q counts fresh es : Forall (λ e, ∃ p, e = EResolved p) es → page_ok q →
  page_ok {| q_data := q_data q; q_counts := counts; q_timers := q_timers q; q_fresh := fresh; q_log := q_log q ++ es |}.
Proof.
  intros He [Hok Ht Hf]. split; [done..|]. intros n ty Ha Hg. cbn. destruct (Hf n ty Ha Hg) as (xs & Hr & Hs). exists xs. split; [|done].
  unfold replay. rewrite foldl_app. fold (replay n ty (q_log q)). rewrite Hr. clear -He. induction He as [|e es [p ->] He IH]; done.
Qed.

Lemma add_resolve_page p ty ns q : Forall accepts ns → good_type ty → page_ok q → page_ok (add_resolve p ty ns q).2.
Proof.
  intros Hns Hg Hp. induction Hns as [|n ns Ha Hns IH]; cbn [add_resolve]; [done|]. destruct (add_resolve p ty ns q) as [c q']. cbn in IH.
  destruct (hooks_of n ty (q_data q')); [|done]. by apply put_hooks_page.
Qed.

Lemma resolve_page p q : Forall request_ok (on_done p) → page_ok q → Forall call_ok (resolve on_done p q).1 ∧ page_ok (resolve on_done p q).2.
Proof.
  intros Hd Hp. unfold resolve. destruct (_ =? 0)%Z; cbn [fst snd]; split.
  - by apply Forall_fmap.
  - apply (page_aside q _ _ [EResolved p]); [|done]. apply Forall_singleton. by exists p.
  - constructor.
  - unfold set_count. rewrite <- (app_nil_r (q_log q)). by apply (page_aside q _ _ []).
Qed.

Lemma promise_page ns ty q : (∀ p, Forall request_ok (on_done p)) → Forall accepts ns → good_type (or_fx ty) → page_ok q →
  Forall call_ok (promise on_done ns ty q).1 ∧ page_ok (promise on_done ns ty q).2.
Proof.
  intros Hd Hns Hg Hp. unfold promise. set (q1 := {| q_data := q_data q |}).
  assert (H1 : page_ok q1) by (unfold q1; rewrite <- (app_nil_r (q_log q)); by apply page_aside).
  pose proof (add_resolve_page (q_fresh q) _ ns q1 Hns Hg H1) as H2. destruct (add_resolve _ _ _ q1) as [c q2]. cbn in H2.
  apply resolve_page; [done|]. unfold set_count. rewrite <- (app_nil_r (q_log q2)). by apply (page_aside q2 _ _ []).
Qed.

Lemma timer_page n ty q : accepts n → good_type ty → page_ok q → page_ok (set_timer n ty q).2.
Proof. intros Ha Hg [Hok Ht Hf]. split; [done| |done]. cbn. apply Forall_app. split; [done|]. by apply Forall_singleton. Qed.

Section run.
Context (Hbody : ∀ f, Forall deed_ok (body f)) (Hdone : ∀ p, Forall request_ok (on_done p)).

Lemma call_fn_page n ty x q : accepts n → good_type ty → page_ok q → Forall call_ok (call_fn body n ty x q).1 ∧ page_ok (call_fn body n ty x q).2.
Proof.
  intros Ha Hg Hp. destruct x as [f|]; cbn [call_fn].
  - split; [|done]. apply Forall_fmap. eapply Forall_impl; [apply Hbody|]. intros d Hd. destruct d; cbn; try done. by rewrite or_fx_good.
  - pose proof (timer_page n ty q Ha Hg Hp) as Ht. destruct (set_timer n ty q) as [t q']. cbn in Ht |- *. split; [constructor|].
    destruct (hooks_of n ty (q_data q')); [|done]. by apply put_hooks_page.
Qed.

(** No call fails, and each keeps the queues in order. *)
Lemma do_call_page c q : call_ok c → page_ok q → ∃ cs q', do_call body on_done c q = (Ret cs, q') ∧ Forall call_ok cs ∧ page_ok q'.
Proof.
  intros Hc Hp. destruct c as [[n ty data|n ty|ns ty]|n ty x|n ty|p]; cbn [do_call ask] in *.
  - destruct Hc as [Hx Hy]. by apply queue_step.
  - destruct Hc as [Hx Hy]. by apply dequeue_step.
  - destruct Hc as [Hx Hy]. destruct (promise_page ns ty q) as [H1 H2]; [done..|]. destruct (promise on_done ns ty q) as [cs q']. by exists cs, q'.
  - destruct Hc as [Hx Hy]. destruct (call_fn_page n ty x q) as [H1 H2]; [done..|]. destruct (call_fn body n ty x q) as [cs q']. by exists cs, q'.
  - destruct Hc as [Hx Hy]. eexists [], _. split; [done|]. split; [constructor|]. by apply timer_page.
  - destruct (resolve_page p q) as [H1 H2]; [done..|]. destruct (resolve on_done p q) as [cs q']. by exists cs, q'.
Qed.

Definition config_ok (c : config) : Prop := Forall call_ok (c_calls c) ∧ page_ok (c_page c).

Lemma step_ok c : config_ok c → match step body on_done c with None => c_calls c = [] | Some (Ret c') => config_ok c' | Some (Throw _) => False end.
Proof.
  destruct c as [[|a cs] q]; [done|]. intros [H1 H2]. cbn in H1, H2. apply Forall_cons in H1 as [H1 H3]. unfold step. cbn.
  destruct (do_call_page a q H1 H2) as (new & q' & -> & H4 & H5). split; [|done]. by apply Forall_app.
Qed.

(** The calls of the page are on elements that accept data, for types with plain names. *)
Inductive runs (w0 : W) : config → Prop :=
| runs_start : runs w0 {| c_calls := []; c_page := {| q_data := w0; q_counts := ∅; q_timers := []; q_fresh := 0; q_log := [] |} |}
| runs_page q rs : runs w0 {| c_calls := []; c_page := q |} → Forall request_ok rs → runs w0 {| c_calls := CAsk <$> rs; c_page := q |}
| runs_timer q i cs q' : runs w0 {| c_calls := []; c_page := q |} → fire_timer i q = Some (cs, q') → runs w0 {| c_calls := cs; c_page := q' |}
| runs_step c c' : runs w0 c → step body on_done c = Some (Ret c') → runs w0 c'.

Lemma runs_ok w0 c : ok w0 → (∀ n ty, accepts n → good_type ty → items_of n ty w0 = None) → runs w0 c → config_ok c.
Proof.
  intros Hw Hi. induction 1 as [|q rs Hr [_ IH] Hrs|q i cs q' Hr [_ IH] Hf|c c' Hr IH Hs].
  - split; [constructor|]. split; [done|constructor|]. intros n ty Ha Hg. exists []. split; [done|]. cbn. by rewrite Hi.
  - split; [|done]. by apply Forall_fmap.
  - unfold fire_timer in Hf. destruct (q_timers q !! i) as [t|] eqn:Et; [|done]. cbn in Hf. injection Hf as <- <-. destruct IH as [Hok Ht Hfi]. cbn in *.
    destruct (proj1 (Forall_lookup _ _) Ht _ _ Et) as [Ha Hg]. split; [apply Forall_singleton; split; [done|by rewrite or_fx_good]|].
    split; [done| |done]. cbn. by apply Forall_delete.
  - pose proof (step_ok c IH) as Hc. by rewrite Hs in Hc.
Qed.
End run.
End facts.

(** ** The private data of jQuery keeps its promises *)

Definition no_char (c : ascii) (s : string) : bool := str_forallb (λ d, negb (Ascii.eqb d c)) s.
(** Names without dashes and spaces. *)
Definition plain_name (k : string) : Prop := k ≠ "" ∧ no_char "-" k = true ∧ no_char " " k = true ∧ k ≠ "toJSON".

Lemma dash_alpha_plain s : no_char "-" s = true → dash_alpha s = s.
Proof.
  unfold no_char. induction s as [|c s IH]; [done|]. cbn [str_forallb dash_alpha]. intros [H1 H2]%andb_true_iff. apply negb_true_iff in H1. rewrite H1, IH by done. by destruct s.
Qed.
Lemma camelCase_plain k : no_char "-" k = true → camelCase k = k.
Proof.
  intros Hk. unfold camelCase. rewrite dash_alpha_plain.
  - destruct k as [|c k]; [done|]. unfold no_char in Hk. cbn in Hk. apply andb_true_iff in Hk as [Hc _]. destruct (Ascii.eqb_spec c "-"); [done|]. by destruct c as [[] [] [] [] [] [] [] []].
  - destruct k as [|c k]; [done|]. unfold no_char in *. cbn in Hk. pose proof Hk as Hk'. apply andb_true_iff in Hk as [Hc _]. destruct (Ascii.eqb_spec c "-"); [done|]. by destruct c as [[] [] [] [] [] [] [] []].
Qed.

Lemma split_char_none c s : no_char c s = true → split_char c s = [s].
Proof.
  unfold no_char. induction s as [|d s IH]; [done|]. cbn [str_forallb split_char]. intros [H1 H2]%andb_true_iff. apply negb_true_iff in H1. by rewrite H1, IH.
Qed.
Lemma removed_plain k has : plain_name k → removed_keys (RName k) has = [k].
Proof. intros (He & Hd & Hs & Hj). cbn. rewrite camelCase_plain by done. destruct (has k); [done|]. by apply split_char_none. Qed.

Section store.
Context (kind : nat → node_kind).
Implicit Types (w : store qdata).
#[local] Instance the_data : PrivateData (store qdata) qdata := jquery_data kind.

Definition accepting (n : nat) : Prop := acceptData kind (Node n) = true.
Definition store_ok w : Prop := ids_ok w ∧ no_toJSON w.

Lemma read_plain (T : table) t pvt k : plain_name k → read_table (λ _ : qdata, false) T t pvt k = T t pvt k.
Proof. intros (He & Hd & Hs & Hj). unfold read_table. rewrite camelCase_plain by done. by destruct (T t pvt k). Qed.

Lemma pd_get_kept n k w : accepting n → plain_name k → store_ok w → pd_get n k w = kept w (Node n) true k.
Proof. intros Ha Hk [Hw Hj]. cbn. by rewrite get_reads, read_plain. Qed.

(** Reading changes nothing. *)
Lemma get_unchanged n k w : store_ok w → (internalData (λ _ : qdata, false) kind (Node n) (ByName k) None true w).2 = w.
Proof.
  intros [Hw _]. unfold internalData. destruct (acceptData kind (Node n)); [|done]. cbn [negb]. destruct (entry_of (Node n) w) as [e|] eqn:E; [|done]. cbn [has_part orb negb snd].
  assert (En : ensure (Node n) w = w).
  { unfold ensure. pose proof E as E'. cbn [entry_of] in E'. destruct (expando w !! n); [by rewrite E|done]. }
  rewrite En, E. cbn [default from_option id set_part part put_entry]. cbn [entry_of] in E. destruct (expando w !! n) as [id|] eqn:Ei; [|done]. cbn in E.
  destruct w as [ex ca ob de gu], e as [own da]. unfold put_cache. cbn in *. by rewrite insert_id.
Qed.

#[local] Instance the_laws : PrivateDataLaws (store qdata) qdata accepting plain_name store_ok.
Proof.
  assert (Hset : ∀ n k v w, accepting n → plain_name k → store_ok w → store_ok (pd_set n k v w).2 ∧ (pd_set n k v w).1 = Some v ∧
    steps_to (kept (pd_set n k v w).2) (table_step kind (OSet (Node n) k v true) (kept w))).
  { intros n k v w Ha Hk [Hw Hj]. destruct (data_step_ok (λ _, false) kind (OSet (Node n) k v true) w Hw Hj) as [H1 H2].
    assert (H3 : no_toJSON (data_step (λ _, false) kind (OSet (Node n) k v true) w)).
    { intros t. rewrite H2. apply step_no_toJSON; [|done]. destruct Hk as (He & Hd & Hs & Hn). cbn. by rewrite camelCase_plain. }
    cbn [pd_set the_data jquery_data]. cbn [data_step] in H1, H2, H3.
    assert (Hr : (internalData (λ _, false) kind (Node n) (ByName k) (Some v) true w).1 = Ret (Value (Some v))).
    { unfold internalData. unfold accepting in Ha. rewrite Ha. cbn [negb fst]. do 2 f_equal. unfold look_up. destruct Hk as (He & Hd & Hs & Hn).
      rewrite camelCase_plain by done. by rewrite assoc_prop_put, String.eqb_refl. }
    destruct (internalData _ _ _ _ _ _ w) as [r w']. cbn in Hr, H1, H2, H3. subst r. done. }
  assert (Hrem : ∀ n k w, accepting n → plain_name k → store_ok w → store_ok (pd_remove n k w) ∧
    steps_to (kept (pd_remove n k w)) (table_step kind (ORemove (Node n) (Some (RName k)) true) (kept w))).
  { intros n k w Ha Hk [Hw Hj]. destruct (data_step_ok (λ _, false) kind (ORemove (Node n) (Some (RName k)) true) w Hw Hj) as [H1 H2].
    split; [|done]. split; [done|]. intros t. cbn [pd_remove the_data jquery_data data_step] in *. rewrite H2. by apply step_no_toJSON. }
  split.
  - intros n k v w Ha Hk Hw. by apply Hset.
  - intros n k w Ha Hk Hw. by apply Hrem.
  - intros n k v w Ha Hk Hw. by apply Hset.
  - intros n k v w n' k' Ha Hk Ha' Hk' Hw. destruct (Hset n k v w Ha Hk Hw) as (H1 & _ & H3). rewrite !pd_get_kept, H3 by done. cbn [table_step]. rewrite Ha. unfold with_part.
    destruct Hk as (He & Hd & Hs & Hn). rewrite camelCase_plain by done. destruct (decide (Node n' = Node n ∧ true = true)) as [[[= ->] _]|Hne].
    + destruct (String.eqb_spec k' k); [by rewrite decide_True|by rewrite decide_False by naive_solver].
    + by rewrite decide_False by naive_solver.
  - intros n k w n' k' Ha Hk Ha' Hk' Hw. destruct (Hrem n k w Ha Hk Hw) as (H1 & H3). rewrite !pd_get_kept, H3 by done. cbn [table_step]. rewrite Ha.
    assert (if_given (Some (RName k)) = Some (RName k)) as -> by (by destruct k; [destruct Hk|]). unfold with_part. rewrite removed_plain by done. cbn [existsb]. rewrite orb_false_r.
    destruct (decide (Node n' = Node n ∧ true = true)) as [[[= ->] _]|Hne].
    + destruct (String.eqb_spec k' k); [by rewrite decide_True|by rewrite decide_False by naive_solver].
    + by rewrite decide_False by naive_solver.
Qed.

Abbreviation plain_request := (request_ok accepting plain_name).
Abbreviation plain_deed := (deed_ok accepting plain_name).

Lemma fresh_store : store_ok (new_store : store qdata) ∧ ∀ n ty, accepting n → good_type plain_name ty → items_of n ty (new_store : store qdata) = None.
Proof.
  assert (Hk : ∀ t pvt k, kept (new_store : store qdata) t pvt k = None) by (intros [] ? ?; cbv [kept]; cbn; by rewrite lookup_empty).
  assert (Hs : store_ok (new_store : store qdata)) by (split; [apply new_ids_ok|by intros t]). split; [done|].
  intros n ty Ha (_ & Hi & _). unfold items_of. by rewrite pd_get_kept, Hk.
Qed.

Section page.
Context (body : nat → list deed) (on_done : nat → list request).

(** C25. Queues of functions are first in, first out: whatever the functions of the page do (go on
    with the queue at once, later, twice or never, and use this and other queues) and whenever
    timers fire, no call fails, each queue has called its functions in the order in which they came and
    holds those that are left, and in the queue "fx" no function waits unless the sentinel says that one
    is in progress. *)
Theorem queues_in_order c : (∀ f, Forall plain_deed (body f)) → (∀ p, Forall plain_request (on_done p)) →
  runs accepting plain_name body on_done (new_store : store qdata) c →
  (∀ e, step body on_done c ≠ Some (Throw e)) ∧
  ∀ n ty, accepting n → good_type plain_name ty →
    ∃ xs, replay n ty (q_log (c_page c)) = Some xs ∧ served ty (items_of n ty (q_data (c_page c))) xs.
Proof.
  intros Hb Hd Hr. destruct fresh_store as [H1 H2]. pose proof (runs_ok accepting plain_name store_ok body on_done Hb Hd _ c H1 H2 Hr) as Hc.
  split; [|apply Hc]. intros e He. pose proof (step_ok accepting plain_name store_ok body on_done Hb Hd c Hc) as Hs. by rewrite He in Hs.
Qed.

Lemma runs_steps w0 fuel c c' : runs accepting plain_name body on_done w0 c → run_steps body on_done fuel c = Some c' → runs accepting plain_name body on_done w0 c'.
Proof.
  induction fuel as [|fuel IH] in c |- *; cbn [run_steps]; [by intros H [= <-]|]. destruct (step body on_done c) as [[c1|]|] eqn:E; [|done..].
  intros Hr Hs. apply (IH c1); [|done]. by eapply runs_step.
Qed.

(** A queue whose functions all go on at once is emptied: when it goes on, all functions that wait
    are called, in their order, the data of the queue is removed, and what is left to do is to tell
    the promises for it. *)
Theorem queue_drains n ty q xs cs : accepting n → good_type plain_name ty → store_ok (q_data q) →
  served ty (items_of n ty (q_data q)) xs → Forall (λ x, ∃ f, x = Fn f ∧ body f = [Next]) xs →
  ∃ ps q', run_steps body on_done (2 * length xs + 1) {| c_calls := CAsk (RDequeue n ty) :: cs; c_page := q |}
      = Some {| c_calls := (CResolve <$> ps) ++ cs; c_page := q' |} ∧
    items_of n ty (q_data q') = None ∧ q_log q' = q_log q ++ (ECalled n ty <$> xs).
Proof.
  intros Ha Hg. induction xs as [|x xs IH] in q |- *; intros Hok Hs Hx.
  - destruct (dequeue_empty accepting plain_name store_ok n ty q Ha Hg Hok) as (ps & q' & E & Ho & El & _); [by eapply served_waits|].
    exists ps, q'. split; [cbn [length Nat.mul Nat.add run_steps]; unfold step; cbn [c_calls c_page do_call ask]; by rewrite E|]. split; [by eapply (only_self accepting plain_name store_ok)|by rewrite app_nil_r].
  - apply Forall_cons in Hx as [(f & -> & Hf) Hx].
    destruct (dequeue_first accepting plain_name store_ok n ty q (Fn f) xs Ha Hg Hok) as (q1 & E & Ho & El & _); [by eapply served_waits|].
    pose proof (only_self accepting plain_name store_ok _ _ _ _ _ Ha Hg Ho) as Ei.
    destruct (IH q1) as (ps & q' & Er & Ei' & El'); [by destruct Ho|rewrite Ei; by right|done|]. exists ps, q'. split; [|split; [done|]].
    + replace (2 * length (Fn f :: xs) + 1) with (S (S (2 * length xs + 1))) by (cbn; lia). cbn [run_steps]. unfold step at 1. cbn [c_calls c_page do_call ask]. rewrite E.
      cbn [app]. unfold step at 1. cbn [c_calls c_page do_call call_fn]. rewrite Hf. cbn [fmap list_fmap deed_call app]. done.
    + rewrite El', El. cbn. by rewrite <- app_assoc.
Qed.
End page.
End store.

(** ** A page *)

(** Function 0 waits for a timer, 1 goes on at once and queues 0 again, 2 goes on. *)
Definition some_body (f : nat) : list deed :=
  match f with 0 => [NextLater] | 1 => [Do (RQueue 0 "fx" (inl (Fn 0))); Next] | _ => [Next] end.
Definition some_requests : list request := [RQueue 0 "fx" (inl (Fn 0)); RQueue 0 "fx" (inl (Fn 1)); RQueue 0 "fx" (inl (Fn 2)); RPromise [0] "fx"].

Lemma fx_good : good_type plain_name "fx".
Proof. by split_and!. Qed.

Definition start_config (rs : list request) : config (W := store qdata) :=
  {| c_calls := CAsk <$> rs; c_page := {| q_data := new_store; q_counts := ∅; q_timers := []; q_fresh := 0; q_log := [] |} |}.
Definition config_after (fuel : nat) (rs : list request) : option config := run_steps (H := jquery_data some_kind) some_body (λ _, []) fuel (start_config rs).

Lemma some_plain f : Forall (deed_ok (accepting some_kind) plain_name) (some_body f).
Proof. destruct f as [|[|f]]; repeat constructor; done. Qed.

Lemma queues_in_order_witness : ∃ c, config_after 6 some_requests = Some c ∧ c_calls c = [] ∧
  ∃ xs, replay 0 "fx" (q_log (c_page c)) = Some xs ∧ served "fx" (items_of (H := jquery_data some_kind) 0 "fx" (q_data (c_page c))) xs.
Proof.
  destruct (config_after 6 some_requests) as [c|] eqn:E; [|vm_compute in E; discriminate]. exists c. split; [reflexivity|]. split; [vm_compute in E; by injection E as <-|].
  refine (proj2 (queues_in_order some_kind some_body (λ _, []) c _ _ _) 0 "fx" _ fx_good); [apply some_plain|done| |reflexivity].
  eapply runs_steps; [|exact E]. apply runs_page; [apply runs_start|]. repeat constructor; done.
Defined.

Lemma queue_drains_witness : ∃ c ps q', config_after 2 [RQueue 0 "work" (inl (Fn 2)); RQueue 0 "work" (inl (Fn 3))] = Some c ∧
  run_steps (H := jquery_data some_kind) some_body (λ _, []) 5 {| c_calls := [CAsk (RDequeue 0 "work")]; c_page := c_page c |}
    = Some {| c_calls := (CResolve <$> ps) ++ []; c_page := q' |} ∧
  q_log q' = q_log (c_page c) ++ [ECalled 0 "work" (Fn 2); ECalled 0 "work" (Fn 3)].
Proof.
  destruct (config_after 2 _) as [c|] eqn:E; [|vm_compute in E; discriminate]. exists c.
  assert (Hg : good_type plain_name "work") by (by split_and!).
  destruct (fresh_store some_kind) as [H1 H2].
  assert (Hc : config_ok (W := store qdata) (H := jquery_data some_kind) (accepting some_kind) plain_name store_ok c).
  { eapply (runs_ok (PrivateDataLaws0 := the_laws some_kind) _ _ _ some_body (λ _, []) some_plain (λ _, Forall_nil_2 _) new_store c H1 H2).
    eapply runs_steps; [|exact E]. apply runs_page; [apply runs_start|]. repeat constructor; done. }
  destruct (queue_drains some_kind some_body (λ _, []) 0 "work" (c_page c) [Fn 2; Fn 3] []) as (ps & q' & E1 & _ & E2);
    [reflexivity|done|apply Hc|vm_compute in E; injection E as <-; by right|repeat constructor; by eexists|].
  exists ps, q'. split; [reflexivity|]. by split.
Defined.

(** When a queue is cleared its sentinel is gone as well: the next function starts while the former one
    is still in progress. *)
Lemma cleared_queue_overlaps :
  (q_log ∘ c_page <$> config_after 7 [RQueue 0 "fx" (inl (Fn 0)); clearQueue 0 "fx"; RQueue 0 "fx" (inl (Fn 0))])
  = Some [EQueued 0 "fx" (Fn 0); ECalled 0 "fx" (Fn 0); ESet 0 "fx" []; EQueued 0 "fx" (Fn 0); ECalled 0 "fx" (Fn 0)].
Proof. vm_compute. done. Qed.
