(* ===== verification/JQueryEvents.v ===== *)
(** * Event handlers (jquery-1.9.1.js: jQuery.event, on, one, off)

    An element has lists of handlers by type, those for descendants that match a
    selector in front.  Handlers are removed by type, namespaces, selector and the number
    of their function.  An event is given to the handlers of an element in an order
    that is fixed before the first of them is called.

    The selector engine is the parameter [selects].  Handlers of the page are numbers; what they do
    (stop or prevent the event, bind and unbind handlers) and return is the
    parameter [user].  Of the special events those for focus, blur, mouseenter and mouseleave
    map their types; the others have no part in binding and dispatch. *)

From S2P Require Import Prelude JSValue Patterns JQueryData.

(** ** Types and namespaces *)

Definition or_one (l : list string) : list string := match l with [] => [""] | _ => l end.
(** [( types || "" ).match( core_rnotwhite ) || [""]] *)
Definition type_words (types : string) : list string := or_one (words_from "" types).

Fixpoint until_dot (s : string) : string * option string :=
  match s with
  | EmptyString => ("", None)
  | String c s' => if Ascii.eqb c "." then ("", Some s') else let '(a, r) := until_dot s' in (String c a, r)
  end.

(** [rtypenamespace.exec(s)]: the type and the namespaces, which are empty when there are none; a
    dot at the end does not match. *)
Definition rtypenamespace (s : string) : option (string * string) :=
  let '(a, r) := until_dot s in
  match r with None => Some (a, "") | Some "" => None | Some r => Some (a, r) end.

Fixpoint insert_string (s : string) (l : list string) : list string :=
  match l with [] => [s] | x :: l' => if String.leb s x then s :: l else x :: insert_string s l' end.
Definition sort_strings (l : list string) : list string := foldr insert_string [] l.

(** [( tmp[2] || "" ).split( "." ).sort()] *)
Definition namespaces_of (ns : string) : list string := sort_strings (split_char "." ns).

(** [new RegExp( "(^|\\.)" + namespaces.join("\\.(?:.*\\.|)") + "(\\.|$)" )] *)
Definition namespace_source (namespaces : list string) : string := "(^|\.)" +:+ join "\.(?:.*\.|)" namespaces +:+ "(\.|$)".
Definition no_flags : flags := {| ignoreCase := false; multiline := false; global := false |}.
Definition namespace_re (namespaces : list string) : res pattern :=
  match RegExp (list_ascii_of_string (namespace_source namespaces)) no_flags with Some p => Ret p | None => Throw SyntaxError end.
(** [re.test(s)] *)
Definition re_test (p : pattern) (s : string) : bool := match pattern_exec p (list_ascii_of_string s) 0 with Some _ => true | None => false end.

(** [special.delegateType] and [special.bindType] *)
Definition delegateType (type : string) : option string :=
  if String.eqb type "focus" then Some "focusin" else if String.eqb type "blur" then Some "focusout"
  else if String.eqb type "mouseenter" then Some "mouseover" else if String.eqb type "mouseleave" then Some "mouseout" else None.
Definition bindType (type : string) : option string :=
  if String.eqb type "mouseenter" then Some "mouseover" else if String.eqb type "mouseleave" then Some "mouseout" else None.
(** [( selector ? special.delegateType : special.bindType ) || type] *)
Definition mapped_type (selector : option string) (type : string) : string :=
  default type (match selector with Some _ => delegateType type | None => bindType type end).

(** ** Handlers *)

(** Functions: those of the page, and [returnFalse]. *)
Inductive fid := PageFn (f : nat) | ReturnFalse.
#[export] Instance fid_eq_dec : EqDecision fid.
Proof. solve_decision. Defined.
(** A handler is a function, or the one that [one] makes of it, which has the number of the function. *)
Inductive handler := Direct (f : fid) | Once (f : fid).
#[export] Instance handler_eq_dec : EqDecision handler.
Proof. solve_decision. Defined.
Definition origin (h : handler) : fid := match h with Direct f | Once f => f end.

(** [origType] is undefined when the type was malformed. *)
Record handleObj := {
  ho_type : string;
  ho_origType : option string;
  ho_handler : handler;
  ho_guid : N;
  ho_selector : option string;
  ho_namespace : string
}.
#[export] Instance handleObj_eq_dec : EqDecision handleObj.
Proof. solve_decision. Defined.

(** The handlers of a type: [delegateCount] and the list. *)
Record hlist := { delegateCount : nat; objs : list handleObj }.

(** [events] in the private data of the elements, the numbers of functions, and the listeners that are
    attached to elements. *)
Record eworld := { ev : gmap nat (props hlist); fn_guid : fid → option N; e_guid : N; listening : list (nat * string) }.

Definition set_ev (m : gmap nat (props hlist)) (w : eworld) : eworld :=
  {| ev := m; fn_guid := fn_guid w; e_guid := e_guid w; listening := listening w |}.
Definition set_listening (l : list (nat * string)) (w : eworld) : eworld :=
  {| ev := ev w; fn_guid := fn_guid w; e_guid := e_guid w; listening := l |}.

(** [handler.guid = jQuery.guid++] when it has none *)
Definition ensure_guid (f : fid) (w : eworld) : N * eworld :=
  match fn_guid w f with
  | Some g => (g, w)
  | None => (e_guid w, {| ev := ev w; fn_guid := λ f', if decide (f' = f) then Some (e_guid w) else fn_guid w f'; e_guid := (e_guid w + 1)%N; listening := listening w |})
  end.

Section events.
Context (accepts : nat → bool).
Implicit Types (w : eworld) (n : nat).

Definition events_of n w : props hlist := default [] (ev w !! n).

(** ** Binding *)

(** Delegates come after the delegates, in front of the others. *)
Definition insert_handler (o : handleObj) (l : hlist) : hlist :=
  match ho_selector o with
  | Some _ => {| delegateCount := S (delegateCount l); objs := take (delegateCount l) (objs l) ++ o :: drop (delegateCount l) (objs l) |}
  | None => {| delegateCount := delegateCount l; objs := objs l ++ [o] |}
  end.

(** One round of the loop of [add]. *)
Definition add_type n (h : handler) (guid : N) (selector : option string) (word : string) w : eworld :=
  let tmp := rtypenamespace word in
  let origType := fst <$> tmp in
  let namespaces := namespaces_of (match tmp with Some (_, ns) => ns | None => "" end) in
  let type := mapped_type selector (default "undefined" origType) in
  let o := {| ho_type := type; ho_origType := origType; ho_handler := h; ho_guid := guid; ho_selector := selector; ho_namespace := join "." namespaces |} in
  let evs := events_of n w in
  match assoc type evs with
  | Some l => set_ev (<[n := prop_put type (insert_handler o l) evs]> (ev w)) w
  | None =>
      set_listening (listening w ++ [(n, type)])
        (set_ev (<[n := prop_put type (insert_handler o {| delegateCount := 0; objs := [] |}) evs]> (ev w)) w)
  end.

(** A selector that is empty counts as none. *)
Definition if_selector (s : option string) : option string := match s with Some "" => None | _ => s end.

(** [jQuery.event.add(elem, types, handler, data, selector)] *)
Definition event_add n (types : string) (h : handler) (selector : option string) w : eworld :=
  if accepts n then
    let '(g, w) := ensure_guid (origin h) w in
    let w := set_ev (<[n := events_of n w]> (ev w)) w in
    foldl (λ w word, add_type n h g (if_selector selector) word w) w (rev (type_words types))
  else w.

(** ** Unbinding *)

(** The test of a handler in [remove] *)
Definition removes (mapped : bool) (origType : string) (guid : option (option N)) (re : option pattern) (selector : option string) (o : handleObj) : bool :=
  (mapped || bool_decide (ho_origType o = Some origType)) &&
  match guid with Some g => bool_decide (g = Some (ho_guid o)) | None => true end &&
  match re with Some p => re_test p (ho_namespace o) | None => true end &&
  match selector with
  | Some s => bool_decide (ho_selector o = Some s) || String.eqb s "**" && match ho_selector o with Some _ => true | None => false end
  | None => true
  end.

Definition has_selector (o : handleObj) : bool := match ho_selector o with Some _ => true | None => false end.

(** The loop over the handlers of a type: those that pass the test are taken out. *)
Definition keep_handlers (test : handleObj → bool) (l : hlist) : hlist :=
  {| delegateCount := delegateCount l - length (List.filter (λ o, test o && has_selector o) (objs l));
     objs := List.filter (λ o, negb (test o)) (objs l) |}.

Definition remove_pair (x : nat * string) (l : list (nat * string)) : list (nat * string) := List.filter (λ y, negb (bool_decide (y = x))) l.

(** The handlers of one type that pass the test are removed, and the listener with the last one. *)
Definition remove_type n (type : string) (test : handleObj → bool) w : eworld :=
  let evs := events_of n w in
  match assoc type evs with
  | None => w
  | Some l =>
      let l' := keep_handlers test l in
      if is_nil (objs l') && negb (is_nil (objs l)) then
        set_listening (remove_pair (n, type) (listening w)) (set_ev (<[n := remove_prop type evs]> (ev w)) w)
      else set_ev (<[n := prop_put type l' evs]> (ev w)) w
  end.

(** At the end of [remove]: nothing is kept without events. *)
Definition drop_empty n w : eworld := if is_nil (events_of n w) then set_ev (delete n (ev w)) w else w.

Fixpoint each_word {A B} (f : A → B → outcome B) (l : list A) (b : B) : outcome B :=
  match l with [] => Done b | a :: l' => b ← f a b; each_word f l' b end.

(** [jQuery.event.remove(elem, types, handler, selector, mappedTypes)], where [guid] is there when a
    handler is given, and is the number of its function, if it has one. *)
Fixpoint event_remove (depth : nat) n (types : string) (guid : option (option N)) (selector : option string) (mapped : bool) w : outcome eworld :=
  match depth with
  | O => Unfinished
  | S depth =>
      match ev w !! n with
      | None => Done w
      | Some _ =>
          w ← each_word (λ word w,
            match rtypenamespace word with
            | None | Some ("", _) => each_word (λ type w, event_remove depth n (type +:+ word) guid selector true w) (events_of n w).*1 w
            | Some (origType, ns) =>
                let type := mapped_type (if_selector selector) origType in
                re ← (if String.eqb ns "" then Done None else of_res (p ← namespace_re (namespaces_of ns); Ret (Some p)));
                Done (remove_type n type (removes mapped origType guid re (if_selector selector)) w)
            end) (rev (type_words types)) w;
          Done (drop_empty n w)
      end
  end.

(** ** The methods of the page *)

Inductive bind_op :=
| On (ns : list nat) (types : string) (selector : option string) (f : fid) (one : bool)
| Off (ns : list nat) (types : string) (selector : option string) (f : option fid).

(** [jQuery(ns).on(types, selector, fn)] and [one]; [false] stands for [returnFalse] *)
Definition on (ns : list nat) (types : string) (selector : option string) (f : fid) (one : bool) w : eworld :=
  let w := if one then (ensure_guid f w).2 else w in
  foldl (λ w n, event_add n types (if one then Once f else Direct f) selector w) w ns.

(** How deep [remove] calls itself: once for all types of an element. *)
Definition remove_depth : nat := 2.

(** [jQuery(ns).off(types, selector, fn)] *)
Definition off (ns : list nat) (types : string) (selector : option string) (f : option fid) w : outcome eworld :=
  each_word (λ n w, event_remove remove_depth n types (fn_guid w <$> f) selector false w) ns w.

Definition bind (ns : list nat) (types : string) (f : fid) w : eworld := on ns types None f false w.
Definition unbind (ns : list nat) (types : string) (f : option fid) w : outcome eworld := off ns types None f w.
Definition delegate (ns : list nat) (selector types : string) (f : fid) w : eworld := on ns types (Some selector) f false w.
Definition undelegate (ns : list nat) (selector types : string) (f : option fid) w : outcome eworld :=
  off ns types (Some (if String.eqb selector "" then "**" else selector)) f w.

Definition do_bind (op : bind_op) w : outcome eworld :=
  match op with On ns types sel f one => Done (on ns types sel f one w) | Off ns types sel f => off ns types sel f w end.

(** ** Dispatch *)

(** What a handler returned: nothing, [false], or something else. *)
Inductive returned := Nothing | False_ | Something.

Record event := {
  e_type : string;
  e_target : nat;
  e_related : option nat;
  e_button : bool;                   (* whether [button] is truthy *)
  e_re : option pattern;             (* [namespace_re] *)
  e_stopped : bool;
  e_stoppedNow : bool;
  e_prevented : bool;
  e_result : returned
}.
Definition set_type (t : string) (e : event) : event :=
  {| e_type := t; e_target := e_target e; e_related := e_related e; e_button := e_button e; e_re := e_re e;
     e_stopped := e_stopped e; e_stoppedNow := e_stoppedNow e; e_prevented := e_prevented e; e_result := e_result e |}.
(** What has become of the event: each of these is only ever set. *)
Definition mark (stop stopNow prevent : bool) (e : event) : event :=
  {| e_type := e_type e; e_target := e_target e; e_related := e_related e; e_button := e_button e; e_re := e_re e;
     e_stopped := e_stopped e || stop || stopNow; e_stoppedNow := e_stoppedNow e || stopNow; e_prevented := e_prevented e || prevent; e_result := e_result e |}.
Definition set_result (r : returned) (e : event) : event :=
  {| e_type := e_type e; e_target := e_target e; e_related := e_related e; e_button := e_button e; e_re := e_re e;
     e_stopped := e_stopped e; e_stoppedNow := e_stoppedNow e; e_prevented := e_prevented e; e_result := r |}.

(** What a function of the page does when it is called for an element with an event. *)
Record reaction := { u_ops : list bind_op; u_stop : bool; u_stopNow : bool; u_prevent : bool; u_returns : returned }.

(** The document: parents, and what is asked of its nodes. *)
Record document := {
  parentNode : gmap nat nat;
  is_element : nat → bool;
  is_text : nat → bool;                      (* a text or a comment *)
  disabled : nat → bool;
  is_anchor : nat → bool;
  checkbox : nat → bool;
  active : nat → bool;                       (* [document.activeElement] *)
  has_method : nat → string → bool;          (* [elem[type]] *)
  inline : nat → string → option nat;        (* [elem["on" + type]] *)
  root : nat;                                (* [document] *)
  window : nat
}.
Context (d : document).
(** [selects this sel cur]: the selector, looked for in an element, finds this one *)
Context (selects : nat → string → nat → bool).
Context (user : nat → nat → event → eworld → reaction).

Fixpoint ancestors_from (fuel : nat) (n : nat) : list nat :=
  match fuel with O => [] | S fuel => match parentNode d !! n with Some p => p :: ancestors_from fuel p | None => [] end end.
Definition ancestors (n : nat) : list nat := ancestors_from (size (parentNode d)) n.
(** [jQuery.contains(a, b)] *)
Definition contains (a b : nat) : bool := bool_decide (a ∈ ancestors b).

(** The nodes from the target up to an element, without it. *)
Fixpoint until_node (this : nat) (l : list nat) : list nat := match l with [] => [] | n :: l' => if decide (n = this) then [] else n :: until_node this l' end.
Definition path_below (this cur : nat) : list nat := until_node this (cur :: ancestors cur).

(** The delegates for one element on the way. *)
Definition matches (this : nat) (e : event) (delegates : list handleObj) (cur : nat) : option (nat * list handleObj) :=
  if is_element d cur && negb (disabled d cur && String.eqb (e_type e) "click") then
    match List.filter (λ o, match ho_selector o with Some sel => selects this sel cur | None => false end) delegates with
    | [] => None
    | l => Some (cur, l)
    end
  else None.

(** [jQuery.event.handlers.call(this, event, handlers)] *)
Definition handlers (this : nat) (e : event) (l : hlist) : list (nat * list handleObj) :=
  let delegates := take (delegateCount l) (objs l) in
  (if negb (delegateCount l =? 0)%nat && (negb (e_button e) || negb (String.eqb (e_type e) "click"))
   then omap (matches this e delegates) (path_below this (e_target e)) else []) ++
  (if (delegateCount l <? length (objs l))%nat then [(this, drop (delegateCount l) (objs l))] else []).

(** What is done with the functions of the page and by the browser. *)
Inductive ecall := Called (elem : nat) (o : handleObj) | Inline (elem f : nat) | Native (elem : nat) (type : string).

Definition run_fn (f : fid) (elem : nat) (e : event) w : outcome (returned * event * eworld) :=
  match f with
  | ReturnFalse => Done (False_, e, w)
  | PageFn k =>
      let r := user k elem e w in
      w ← each_word do_bind (u_ops r) w;
      Done (u_returns r, mark (u_stop r) (u_stopNow r) (u_prevent r) e, w)
  end.

(** The types that [off(event)] makes of a handler. *)
Definition off_types (o : handleObj) : string :=
  let t := default "" (ho_origType o) in if String.eqb (ho_namespace o) "" then t else t +:+ "." +:+ ho_namespace o.

(** [handleObj.handler.apply(elem, args)]; what [one] has made unbinds itself first. *)
Definition apply_handler (this : nat) (o : handleObj) (elem : nat) (e : event) w : outcome (returned * event * eworld) :=
  match ho_handler o with
  | Direct f => run_fn f elem e w
  | Once f => w ← off [this] (off_types o) (ho_selector o) (Some f) w; run_fn f elem e w
  end.

(** [special.handle] of mouseenter and mouseleave: the other element is outside. *)
Definition from_outside (elem : nat) (e : event) : bool :=
  match e_related e with Some r => negb (r =? elem)%nat && negb (contains elem r) | None => true end.
Definition is_enter (o : handleObj) : bool := match bindType (default "" (ho_origType o)) with Some _ => true | None => false end.
(** Whether the function of a handler is called. *)
Definition wanted (elem : nat) (e : event) (o : handleObj) : bool :=
  match e_re e with Some p => re_test p (ho_namespace o) | None => true end && (negb (is_enter o) || from_outside elem e).

Definition call_handler (this : nat) (o : handleObj) (elem : nat) (e : event) w : outcome (returned * event * eworld) :=
  if is_enter o then
    '(r, e', w) ← apply_handler this o elem (set_type (default "" (ho_origType o)) e) w; Done (r, set_type (default "" (bindType (default "" (ho_origType o)))) e', w)
  else apply_handler this o elem e w.

Definition after_return (r : returned) (e : event) : event :=
  match r with Nothing => e | False_ => mark true false true (set_result False_ e) | Something => set_result Something e end.

(** The handlers for one element, until one stops the event at once. *)
Fixpoint run_handlers (this elem : nat) (l : list handleObj) (e : event) w : outcome (list ecall * event * eworld) :=
  match l with
  | [] => Done ([], e, w)
  | o :: l' =>
      if e_stoppedNow e then Done ([], e, w)
      else if wanted elem e o then
        '(r, e, w) ← call_handler this o elem e w;
        '(cs, e, w) ← run_handlers this elem l' (after_return r e) w;
        Done (Called elem o :: cs, e, w)
      else run_handlers this elem l' e w
  end.

(** The elements, until one of the handlers stops the event. *)
Fixpoint run_queue (this : nat) (q : list (nat * list handleObj)) (e : event) w : outcome (list ecall * event * eworld) :=
  match q with
  | [] => Done ([], e, w)
  | (elem, l) :: q' =>
      if e_stopped e then Done ([], e, w)
      else
        '(cs, e, w) ← run_handlers this elem l e w;
        '(cs', e, w) ← run_queue this q' e w;
        Done (cs ++ cs', e, w)
  end.

(** [jQuery.event.dispatch.call(this, event)] *)
Definition dispatch (this : nat) (e : event) w : outcome (list ecall * event * eworld) :=
  run_queue this (handlers this e (default {| delegateCount := 0; objs := [] |} (assoc (e_type e) (events_of this w)))) e w.

(** ** Events that the page triggers *)

(** [type.split(".")] when there is a dot: the type and the namespaces in order *)
Definition trigger_type (s : string) : string * list string :=
  match split_char "." s with t :: ((_ :: _) as ns) => (t, sort_strings ns) | _ => (s, []) end.

Definition is_focus_morph (s : string) : bool := String.eqb s "focusinfocus" || String.eqb s "focusoutblur".

(** [special.trigger]: the browser makes the event itself. *)
Definition special_trigger (type : string) (n : nat) : bool :=
  String.eqb type "click" && checkbox d n && has_method d n "click"
  || String.eqb type "focus" && negb (active d n) && has_method d n "focus"
  || String.eqb type "blur" && active d n && has_method d n "blur".

(** [eventPath]: the element, and above it all nodes up to the document and the window *)
Definition event_path (type : string) (n : nat) (onlyHandlers : bool) : list nat :=
  if onlyHandlers || String.eqb type "load" || (n =? window d)%nat then [n]
  else
    let up := (if is_focus_morph (default type (delegateType type) +:+ type) then [n] else []) ++ ancestors n in
    n :: up ++ (if decide (default n (last up) = root d) then [window d] else []).

(** The handlers on the path, until the event is stopped; [first] is for the element itself. *)
Fixpoint run_path (type : string) (path : list nat) (first : bool) (e : event) w : outcome (list ecall * event * eworld) :=
  match path with
  | [] => Done ([], e, w)
  | cur :: path' =>
      if e_stopped e then Done ([], e, w)
      else
        let e := set_type (if first then default type (bindType type) else default type (delegateType type)) e in
        '(cs, e, w) ← (match assoc (e_type e) (events_of cur w) with Some _ => dispatch cur e w | None => Done ([], e, w) end);
        '(cs1, e, w) ← (match (if has_char ":" type then None else inline d cur type) with
                        | Some k => if accepts cur
                                    then '(r, e, w) ← run_fn (PageFn k) cur e w;
                                         Done ([Inline cur k], match r with False_ => mark false false true e | _ => e end, w)
                                    else Done ([], e, w)
                        | None => Done ([], e, w)
                        end);
        '(cs2, e, w) ← run_path type path' false e w;
        Done (cs ++ cs1 ++ cs2, e, w)
  end.

(** [jQuery.event.trigger(type, data, elem, onlyHandlers)] *)
Definition trigger (types : string) (n : nat) (onlyHandlers : bool) w : outcome (list ecall * event * eworld) :=
  let '(type, namespaces) := trigger_type types in
  let e re := {| e_type := type; e_target := n; e_related := None; e_button := false; e_re := re;
                 e_stopped := false; e_stoppedNow := false; e_prevented := false; e_result := Nothing |} in
  if is_text d n then Done ([], e None, w)
  else
    re ← (if String.eqb (join "." namespaces) "" then Done None else of_res (p ← namespace_re namespaces; Ret (Some p)));
    if negb onlyHandlers && special_trigger type n then Done ([Native n type], e re, w)
    else
      '(cs, e, w) ← run_path type (event_path type n onlyHandlers) true (e re) w;
      let e := set_type type e in
      Done (cs ++ (if negb onlyHandlers && negb (e_prevented e) && negb (String.eqb type "click" && is_anchor d n) && accepts n
                      && negb (has_char ":" type) && has_method d n type && negb (n =? window d)%nat
                   then [Native n type] else []), e, w).

(** [jQuery(ns).trigger(type)] and [jQuery(ns).triggerHandler(type)] *)
Fixpoint fn_trigger (types : string) (ns : list nat) w : outcome (list ecall * eworld) :=
  match ns with
  | [] => Done ([], w)
  | n :: ns' => '(cs, _, w) ← trigger types n false w; '(cs', w) ← fn_trigger types ns' w; Done (cs ++ cs', w)
  end.
Definition triggerHandler (types : string) (ns : list nat) w : outcome (list ecall * returned * eworld) :=
  match ns with
  | [] => Done ([], Nothing, w)
  | n :: _ => '(cs, e, w) ← trigger types n true w; Done (cs, e_result e, w)
  end.
End events.
