(* ===== verification/NamespaceFacts.v ===== *)
(** * Namespaces of handlers (about namespace_re of JQueryEvents)

    The pattern that is made of namespaces, in order, matches the namespaces of a handler exactly when
    they are among them. *)

From stdpp Require Import sorting.
From S2P Require Import Prelude JSValue SyntaxTree Patterns PatternFacts SyntaxBrush SyntaxBrushFacts SyntaxTokens JQueryData JQueryEvents.

(** ** Parsing *)

Definition dot_pat : pat := PChar ".".
Definition start_pat : pat := PGroup 1 (PAlt (PSeq PBol PEmpty) (PSeq dot_pat PEmpty)).
Definition end_pat : pat := PGroup 2 (PAlt (PSeq dot_pat PEmpty) (PSeq PEol PEmpty)).
Definition skip_pat : pat := PAlt (PSeq (PStar false PDot) (PSeq dot_pat PEmpty)) PEmpty.

(** The names after the start. *)
Fixpoint names_pat (l : list text) : pat :=
  match l with
  | [] => PSeq end_pat PEmpty
  | [a] => literal a (PSeq end_pat PEmpty)
  | a :: l' => literal a (PSeq dot_pat (PSeq skip_pat (names_pat l')))
  end.

Fixpoint names_source (l : list text) : text :=
  match l with
  | [] => chars "(\.|$)"
  | [a] => a ++ chars "(\.|$)"
  | a :: l' => a ++ chars "\.(?:.*\.|)" ++ names_source l'
  end.

(** Names without characters that mean something in a pattern. *)
Definition plain_text (s : text) : Prop := s ≠ [] ∧ Forall (λ c, is_special c = false ∧ c ≠ "."%char ∧ is_line_end c = false) s.

Lemma escape_plain s : Forall (λ c, is_special c = false ∧ c ≠ "."%char ∧ is_line_end c = false) s → escape s = s.
Proof. induction 1 as [|c s (Hc & _) Hs IH]; [done|]. cbn. by rewrite Hc, IH. Qed.

Lemma parse_name s r n g : plain_text s → unquantified r = true → 0 < n → parse_seq (length s + n) g (s ++ r) = then_pat (literal s) (parse_seq n g r).
Proof. intros [_ Hs] Hr Hn. rewrite <- (escape_plain s Hs) at 2. by apply parse_seq_escaped. Qed.

Lemma parse_end n : 5 < n → parse_seq n 2 (chars "(\.|$)") = Some (PSeq end_pat PEmpty, 3, []).
Proof. intros Hn. do 6 (destruct n as [|n]; [lia|]). reflexivity. Qed.

Lemma parse_skip n s : unquantified s = true → 7 < n → parse_term n 2 (chars "(?:.*\.|)" ++ s) = Some (skip_pat, 2, s).
Proof.
  intros Hs Hn. do 8 (destruct n as [|n]; [lia|]). transitivity (quantified (Some (skip_pat, 2, s))); [reflexivity|]. by apply quantified_none.
Qed.

Lemma parse_gap n s : unquantified s = true → 9 < n →
  parse_seq n 2 (chars "\.(?:.*\.|)" ++ s) = then_pat (λ p, PSeq dot_pat (PSeq skip_pat p)) (parse_seq (n - 2) 2 s).
Proof.
  intros Hs Hn. destruct n as [|[|n]]; [lia..|]. replace (S (S n) - 2) with n by lia.
  transitivity ('(a, g, s') ← parse_term n 2 (chars "(?:.*\.|)" ++ s); '(b, g, s'') ← ('(b, g, s'') ← parse_seq n g s'; Some (PSeq a b, g, s'')); Some (PSeq dot_pat b, g, s'')).
  - change (chars "\.(?:.*\.|)" ++ s) with ("\"%char :: "."%char :: (chars "(?:.*\.|)" ++ s)). rewrite parse_seq_escape. cbn [parse_escape set_escape char_escape is_word in_range].
    transitivity ('(b, g, s'') ← parse_seq (S n) 2 (chars "(?:.*\.|)" ++ s); Some (PSeq dot_pat b, g, s'')); [reflexivity|].
    transitivity ('(b, g, s'') ← ('(a, g, s') ← parse_term n 2 (chars "(?:.*\.|)" ++ s); '(b, g, s'') ← parse_seq n g s'; Some (PSeq a b, g, s'')); Some (PSeq dot_pat b, g, s'')); [reflexivity|].
    by destruct (parse_term n 2 _) as [[[a g] s']|].
  - rewrite parse_skip by (done || lia). cbn [mbind option_bind]. by destruct (parse_seq n 2 s) as [[[p g] s']|].
Qed.

Lemma source_unquantified l : Forall plain_text l → unquantified (names_source l) = true.
Proof.
  intros Hl. destruct Hl as [|a l [Hn Ha] Hl]; [done|]. destruct a as [|c a]; [done|]. apply Forall_cons in Ha as [(Hc & _) _].
  assert (unquantified (c :: a ++ names_source []) = true) by (revert Hc; destruct c as [[] [] [] [] [] [] [] []]; done). by destruct l.
Qed.

Lemma parse_names l n : Forall plain_text l → sum_list_with length l + 3 * length l + 12 < n → parse_seq n 2 (names_source l) = Some (names_pat l, 3, []).
Proof.
  intros Hl. induction Hl as [|a l Ha Hl IH] in n |- *; intros Hn; cbn [sum_list_with length] in Hn; unfold text in *; [apply parse_end; lia|].
  assert (Hu : ∀ s, unquantified (chars "\.(?:.*\.|)" ++ s) = true) by done.
  destruct l as [|b l].
  - cbn [names_source names_pat]. replace n with (length a + (n - length a)) by lia. rewrite parse_name by (done || lia). rewrite parse_end by lia. done.
  - change (names_source (a :: b :: l)) with (a ++ chars "\.(?:.*\.|)" ++ names_source (b :: l)).
    replace n with (length a + (n - length a)) by lia. rewrite parse_name by (done || lia). rewrite parse_gap by (by apply source_unquantified || lia).
    rewrite IH by (cbn [sum_list_with length] in *; lia). done.
Qed.

Definition namespace_pat (l : list text) : pat := PSeq start_pat (names_pat l).

Lemma names_source_length l : sum_list_with length l + 6 * length l <= length (names_source l) + 4.
Proof.
  unfold text. induction l as [|a [|b l] IH]; [cbn; lia|cbn; rewrite length_app; cbn; lia|].
  change (names_source (a :: b :: l)) with (a ++ chars "\.(?:.*\.|)" ++ names_source (b :: l)). rewrite !length_app. change (length (chars "\.(?:.*\.|)")) with 11. cbn [sum_list_with length] in *. lia.
Qed.

Lemma parse_start n s : 6 < n → parse_alt n 2 (chars "^|\.)" ++ s) = Some (PAlt (PSeq PBol PEmpty) (PSeq dot_pat PEmpty), 2, ")"%char :: s).
Proof. intros Hn. do 7 (destruct n as [|n]; [lia|]). reflexivity. Qed.

Lemma parse_alt_seq n g s : parse_alt (S n) g s = '(a, g, s) ← parse_seq n g s; match s with "|"%char :: s' => '(b, g, s) ← parse_alt n g s'; Some (PAlt a b, g, s) | _ => Some (a, g, s) end.
Proof. done. Qed.

Lemma RegExp_names l : Forall plain_text l → RegExp (chars "(^|\.)" ++ names_source l) no_flags = Some {| p_pat := namespace_pat l; p_flags := no_flags; p_groups := 2 |}.
Proof.
  intros Hl. pose proof (names_source_length l) as Hlen. unfold RegExp. rewrite length_app. change (length (chars "(^|\.)")) with 6.
  remember (4 * (6 + length (names_source l)) + 4) as m eqn:Em. assert (Hm : length l * 6 + sum_list_with length l + 20 < m) by (unfold text in *; lia). clear Em Hlen.
  destruct m as [|[|[|m]]]; [lia..|]. rewrite parse_alt_seq. change (chars "(^|\.)" ++ names_source l) with ("("%char :: (chars "^|\.)" ++ names_source l)).
  rewrite parse_seq_group by done. rewrite parse_start by lia. cbn [closing mbind option_bind]. rewrite quantified_none by by apply source_unquantified.
  cbn [mbind option_bind]. rewrite parse_names by (done || (unfold text in *; lia)). done.
Qed.

(** ** What the pattern matches *)

Section matching.
Context (t : list ascii).
Abbreviation rest x := (drop (at_pos x) t).

(** Whether a continuation succeeds depends on the text that is left. *)
Definition decides (k : pstate → option pstate) (P : text → Prop) : Prop := ∀ y, is_Some (k y) ↔ P (rest y).
Definition no_line_end (s : text) : Prop := Forall (λ c, is_line_end c = false) s.

Lemma rest_next x c v : rest x = c :: v → drop (S (at_pos x)) t = v.
Proof. intros E. replace (S (at_pos x)) with (at_pos x + 1) by lia. by rewrite <- drop_drop, E. Qed.

Lemma dot_decides k P : decides k P → decides (λ x, pm no_flags t dot_pat x k) (λ r, ∃ v, r = "."%char :: v ∧ P v).
Proof.
  unfold decides. intros Hk x. unfold dot_pat. rewrite char_step by done. destruct (rest x) as [|c v] eqn:E; cbn [is_prefix].
  - split; [by intros []|]. by intros (v & ? & _).
  - rewrite andb_true_r. destruct (Ascii.eqb_spec "."%char c) as [<-|Hne].
    + rewrite Hk. cbn [at_pos]. rewrite (rest_next _ _ _ E). split; [by exists v|]. by intros (v' & [= <-] & ?).
    + split; [by intros []|]. intros (v' & [= -> <-] & _). done.
Qed.

Lemma literal_decides s p k P : decides (λ x, pm no_flags t p x k) P → decides (λ x, pm no_flags t (literal s p) x k) (λ r, ∃ v, r = s ++ v ∧ P v).
Proof.
  unfold decides. intros Hk x. rewrite literal_step by done. destruct (is_prefix s (rest x)) eqn:E.
  - apply is_prefix_spec in E as [E1 E2]. rewrite Hk. cbn [at_pos]. rewrite <- drop_drop. split.
    + intros HP. exists (drop (length s) (rest x)). split; [|done]. by rewrite <- E1 at 1; rewrite take_drop.
    + intros (v & Ev & HP). by rewrite Ev, drop_app_length.
  - split; [by intros []|]. intros (v & Ev & _). exfalso. apply not_true_iff_false in E. apply E, is_prefix_spec. rewrite Ev, take_app_length, length_app. split; [done|lia].
Qed.

Lemma seq_decides a b k P Q : decides (λ x, pm no_flags t b x k) P → (∀ k, decides k P → decides (λ x, pm no_flags t a x k) Q) → decides (λ x, pm no_flags t (PSeq a b) x k) Q.
Proof. intros H1 H2. exact (H2 _ H1). Qed.

Lemma first_of_some a b : is_Some (first_of a b) ↔ is_Some a ∨ is_Some b.
Proof. destruct a; cbn; split; auto; intros [[]|]; done. Qed.

Lemma alt_decides a b k P Q : decides (λ x, pm no_flags t a x k) P → decides (λ x, pm no_flags t b x k) Q → decides (λ x, pm no_flags t (PAlt a b) x k) (λ r, P r ∨ Q r).
Proof. unfold decides. intros H1 H2 x. cbn [pm]. by rewrite first_of_some, H1, H2. Qed.

Lemma group_decides i a k P Q : decides k P → (∀ k, decides k P → decides (λ x, pm no_flags t a x k) Q) → decides (λ x, pm no_flags t (PGroup i a) x k) Q.
Proof. intros H1 H2 x. cbn [pm]. apply (H2 (λ y, k (set_group i (at_pos x) y))). intros y. exact (H1 (set_group i (at_pos x) y)). Qed.

Lemma star_decides k P : decides k P → decides (λ x, pm no_flags t (PStar false PDot) x k) (λ r, ∃ u v, r = u ++ v ∧ no_line_end u ∧ P v).
Proof.
  unfold decides. intros Hk x. cbn [pm pat_groups]. enough (H : ∀ n x, length (rest x) <= n → is_Some (pat_loop (pm no_flags t PDot) [] false k n x) ↔ ∃ u v, rest x = u ++ v ∧ no_line_end u ∧ P v).
  { apply H. rewrite length_drop. unfold text in *. lia. }
  clear x. induction n as [|n IH]; intros x Hn; cbn [pat_loop].
  - destruct (rest x) as [|c r] eqn:E; [|cbn in Hn; lia]. rewrite Hk, E. split; [intros HP; exists [], []; repeat split; [constructor|done]|].
    intros (u & v & Ev & _ & HP). symmetry in Ev. by apply app_nil in Ev as [-> ->].
  - rewrite first_of_some, Hk. cbn [pm]. unfold step_if, clear_groups. cbn [at_pos foldr p_caps].
    destruct (rest x) as [|c r] eqn:E.
    + assert (t !! at_pos x = None) as ->. { apply lookup_ge_None. apply (f_equal length) in E. rewrite length_drop in E. cbn in E. unfold text in *. lia. }
      split; [intros [[]|HP]; [done|]; exists [], []; repeat split; [constructor|done]|]. intros (u & v & Ev & _ & HP). symmetry in Ev. apply app_nil in Ev as [-> ->]. by right.
    + assert (t !! at_pos x = Some c) as -> by (rewrite <- (Nat.add_0_r (at_pos x)), <- lookup_drop, E; done). cbn [p_caps].
      assert ((S (at_pos x) =? at_pos x)%nat = false) as -> by (apply Nat.eqb_neq; lia).
      pose proof (IH (PSt (S (at_pos x)) (p_caps x))) as IH'. cbn [at_pos] in IH'. rewrite (rest_next _ _ _ E) in IH'. specialize (IH' ltac:(cbn in Hn; lia)).
      destruct (is_line_end c) eqn:Ec; cbn [negb].
      * split; [intros [[]|HP]; [done|]; exists [], (c :: r); repeat split; [constructor|done]|]. intros ([|c' u] & v & Ev & Hu & HP); [cbn in Ev; subst v; by right|].
        injection Ev as <- ->. apply Forall_cons in Hu as [Hu _]. congruence.
      * rewrite IH'. split.
        -- intros [(u & v & -> & Hu & HP)|HP]; [exists (c :: u), v; repeat split; [by constructor|done]|exists [], (c :: r); repeat split; [constructor|done]].
        -- intros ([|c' u] & v & Ev & Hu & HP); [cbn in Ev; subst v; by right|]. injection Ev as <- ->. apply Forall_cons in Hu as [_ Hu]. left. by exists u, v.
Qed.

Definition at_end (r : text) : Prop := r = [] ∨ ∃ v, r = "."%char :: v.
(** The names stand at the start of the text, each between dots. *)
Fixpoint stand (l : list text) (r : text) : Prop :=
  match l with
  | [] => at_end r
  | [a] => ∃ v, r = a ++ v ∧ at_end v
  | a :: l' => ∃ v, r = a ++ v ∧ ∃ v1, v = "."%char :: v1 ∧ ((∃ u v2, v1 = u ++ v2 ∧ no_line_end u ∧ ∃ v3, v2 = "."%char :: v3 ∧ stand l' v3) ∨ stand l' v1)
  end.

Lemma some_decides : decides Some (λ _, True).
Proof. intros y. by split. Qed.
Lemma empty_decides k P : decides k P → decides (λ x, pm no_flags t PEmpty x k) P.
Proof. done. Qed.

Lemma end_decides : decides (λ x, pm no_flags t (PSeq end_pat PEmpty) x Some) at_end.
Proof.
  eapply seq_decides; [apply empty_decides, some_decides|]. intros k Hk. eapply group_decides; [exact Hk|]. clear k Hk. intros k Hk.
  assert (H1 : decides (λ x, pm no_flags t (PSeq dot_pat PEmpty) x k) (λ r, ∃ v, r = "."%char :: v ∧ True)) by (eapply seq_decides; [apply empty_decides, Hk|]; intros; by apply dot_decides).
  assert (H2 : decides (λ x, pm no_flags t (PSeq PEol PEmpty) x k) (λ r, r = [])).
  { intros x. cbn [pm]. unfold line_stops. destruct (t !! at_pos x) as [c|] eqn:E.
    - cbn. rewrite (drop_S _ _ _ E). split; [by intros []|done].
    - rewrite drop_ge by by apply lookup_ge_None. split; [done|]. intros _. by apply Hk. }
  intros x. rewrite (alt_decides _ _ _ _ _ H1 H2 x). unfold at_end. naive_solver.
Qed.

Lemma names_decide l : decides (λ x, pm no_flags t (names_pat l) x Some) (stand l).
Proof.
  induction l as [|a [|b l] IH]; [apply end_decides|apply literal_decides, end_decides|].
  change (names_pat (a :: b :: l)) with (literal a (PSeq dot_pat (PSeq skip_pat (names_pat (b :: l))))).
  change (stand (a :: b :: l)) with (λ r, ∃ v, r = a ++ v ∧ ∃ v1, v = "."%char :: v1 ∧ ((∃ u v2, v1 = u ++ v2 ∧ no_line_end u ∧ ∃ v3, v2 = "."%char :: v3 ∧ stand (b :: l) v3) ∨ stand (b :: l) v1)).
  apply literal_decides. eapply seq_decides; [|intros; by apply dot_decides]. eapply seq_decides; [exact IH|]. intros k Hk. apply alt_decides; [|done].
  eapply seq_decides; [|intros; by apply star_decides]. eapply seq_decides; [apply empty_decides, Hk|]. intros. by apply dot_decides.
Qed.

(** The start: nothing is before the names, or a dot. *)
Lemma names_found l caps i : is_Some (pm no_flags t (namespace_pat l) (PSt i caps) Some) ↔ (i = 0 ∧ stand l t) ∨ ∃ v, drop i t = "."%char :: v ∧ stand l v.
Proof.
  unfold namespace_pat, start_pat. cbn [pm at_pos]. rewrite first_of_some. set (k := λ y, pm no_flags t (names_pat l) (set_group 1 i y) Some).
  assert (Hk : decides k (stand l)). { intros y. exact (names_decide l (set_group 1 i y)). }
  assert (H1 : is_Some (pm no_flags t (PSeq dot_pat PEmpty) (PSt i caps) k) ↔ ∃ v, drop i t = "."%char :: v ∧ stand l v).
  { refine (seq_decides dot_pat PEmpty k _ (λ r, ∃ v, r = "."%char :: v ∧ stand l v) (empty_decides _ _ Hk) _ (PSt i caps)). intros; by apply dot_decides. }
  cbn [pm at_pos] in H1 |- *. rewrite <- H1. fold k. apply or_iff_compat_r. unfold line_starts. destruct i as [|i].
  - pose proof (Hk (PSt 0 caps)) as Hk0. unfold k in Hk0. cbn [at_pos] in Hk0. rewrite drop_0 in Hk0. cbn. rewrite Hk0. naive_solver.
  - cbn. split; [by intros []|naive_solver].
Qed.

Lemma find_match_some p n i : is_Some (find_match p t n i) ↔ ∃ j, i <= j <= i + n ∧ is_Some (match_here p t j).
Proof.
  induction n as [|n IH] in i |- *; cbn [find_match].
  - destruct (match_here p t i) as [mt|] eqn:E; split; try done.
    + intros _. exists i. split; [lia|by rewrite E].
    + intros (j & Hj & Hs). replace j with i in Hs by lia. by rewrite E in Hs.
  - destruct (match_here p t i) as [mt|] eqn:E.
    + split; [|done]. intros _. exists i. split; [lia|by rewrite E].
    + rewrite IH. split; intros (j & Hj & Hs); exists j; (split; [|done]); [lia|]. destruct (decide (j = i)) as [->|]; [by rewrite E in Hs; destruct Hs|lia].
Qed.

Lemma pattern_found l : is_Some (pattern_exec {| p_pat := namespace_pat l; p_flags := no_flags; p_groups := 2 |} t 0) ↔
  stand l t ∨ ∃ u v, t = u ++ "."%char :: v ∧ stand l v.
Proof.
  unfold pattern_exec. cbn [Nat.ltb Nat.leb]. destruct (length t <? 0)%nat eqn:E0; [apply Nat.ltb_lt in E0; lia|]. rewrite find_match_some.
  assert (Hm : ∀ j, is_Some (match_here {| p_pat := namespace_pat l; p_flags := no_flags; p_groups := 2 |} t j) ↔ (j = 0 ∧ stand l t) ∨ ∃ v, drop j t = "."%char :: v ∧ stand l v).
  { intros j. rewrite <- (names_found l (replicate 3 None) j). unfold match_here. cbn [p_flags p_pat p_groups]. destruct (pm _ _ _ _ _); cbn; split; try done; by intros []. }
  split.
  - intros (j & _ & Hj). apply Hm in Hj as [[_ Hj]|(v & Ev & Hv)]; [by left|]. right. exists (take j t), v. split; [|done]. by rewrite <- Ev, take_drop.
  - intros [Hs|(u & v & -> & Hv)].
    + exists 0. split; [lia|]. apply Hm. by left.
    + exists (length u). rewrite length_app. split; [cbn; lia|]. apply Hm. right. exists v. split; [by rewrite drop_app_length|done].
Qed.
End matching.

(** ** Components *)

Definition dot_free (s : text) : Prop := "."%char ∉ s.

Fixpoint dotted (l : list text) : text := match l with [] => [] | [b] => b | b :: l' => b ++ "."%char :: dotted l' end.
Lemma dotted_cons b l : dotted (b :: l) = b ++ match l with [] => [] | _ => "."%char :: dotted l end.
Proof. destruct l; [by rewrite app_nil_r|done]. Qed.

Lemma dot_split a b v w : dot_free a → dot_free b → at_end v → at_end w → a ++ v = b ++ w → a = b ∧ v = w.
Proof.
  unfold dot_free, at_end. induction a as [|c a IH] in b |- *; intros Ha Hb Hv Hw E.
  - destruct b as [|d b]; [done|]. cbn in E. destruct Hv as [->|[v' ->]]; [done|]. injection E as <- _. set_solver.
  - destruct b as [|d b]; cbn in E.
    + destruct Hw as [->|[w' ->]]; [done|]. injection E as -> _. set_solver.
    + injection E as -> E. destruct (IH b) as [-> ->]; try done; set_solver.
Qed.

Lemma dotted_app l1 l2 : l1 ≠ [] → l2 ≠ [] → dotted (l1 ++ l2) = dotted l1 ++ "."%char :: dotted l2.
Proof.
  intros H1 H2. induction l1 as [|b l1 IH]; [done|]. destruct l1 as [|c l1]; [destruct l2; [done|reflexivity]|].
  change (dotted ((b :: c :: l1) ++ l2)) with (b ++ "."%char :: dotted ((c :: l1) ++ l2)). change (dotted (b :: c :: l1)) with (b ++ "."%char :: dotted (c :: l1)).
  rewrite IH by done. by rewrite <- app_assoc.
Qed.

(** What stands after a dot is a part of the components. *)
Lemma dotted_dot l u v : Forall dot_free l → dotted l = u ++ "."%char :: v → ∃ l1 l2, l = l1 ++ l2 ∧ l1 ≠ [] ∧ l2 ≠ [] ∧ v = dotted l2.
Proof.
  intros Hl. induction Hl as [|b l Hb Hl IH] in u |- *; [by destruct u|]. rewrite dotted_cons. intros E. apply app_eq_inv in E as [(k & E1 & E2)|(k & E1 & E2)].
  - destruct k as [|c k].
    + destruct l as [|c l]; [done|]. assert (v = dotted (c :: l)) as -> by (cbn [app] in E2; congruence). by exists [b], (c :: l).
    + injection E2 as <- _. exfalso. apply Hb. rewrite E1. apply elem_of_app. right. left.
  - destruct l as [|c l]; [by destruct k|]. destruct k as [|x k].
    + assert (v = dotted (c :: l)) as -> by (cbn [app] in E2; congruence). by exists [b], (c :: l).
    + assert (E3 : dotted (c :: l) = k ++ "."%char :: v) by (cbn [app] in E2; congruence).
      destruct (IH k E3) as (l1 & l2 & E & H1 & H2 & ->). exists (b :: l1), l2. by rewrite E.
Qed.

Definition at_end_of (l : list text) : text := match l with [] => [] | _ => "."%char :: dotted l end.
Lemma at_end_rest l : at_end (at_end_of l).
Proof. destruct l; [by left|right; by eexists]. Qed.

Lemma first_component a b l v : dot_free a → dot_free b → at_end v → dotted (b :: l) = a ++ v → a = b ∧ v = at_end_of l.
Proof. intros Ha Hb Hv E. rewrite dotted_cons in E. destruct (dot_split b a (at_end_of l) v) as [-> <-]; try done. apply at_end_rest. Qed.

(** Names stand at the start of components when the first is the first one, and the others come after it in order. *)
Lemma stand_components a l bs : Forall dot_free (a :: l) → Forall dot_free bs → Forall no_line_end bs → bs ≠ [] →
  stand (a :: l) (dotted bs) ↔ ∃ bs', bs = a :: bs' ∧ sublist l bs'.
Proof.
  intros Hl. induction l as [|a2 l IH] in a, Hl, bs |- *; intros Hb Hn Hne; destruct bs as [|b bs]; try done; apply Forall_cons in Hl as [Ha Hl]; apply Forall_cons in Hb as [Hb Hbs]; apply Forall_cons in Hn as [Hn Hns].
  - cbn [stand]. split.
    + intros (v & E & Hv). destruct (first_component a b bs v Ha Hb Hv E) as [-> _]. exists bs. split; [done|apply sublist_nil_l].
    + intros (bs' & [= -> ->] & _). exists (at_end_of bs'). split; [by rewrite dotted_cons; destruct bs'|apply at_end_rest].
  - change (stand (a :: a2 :: l) (dotted (b :: bs))) with (∃ v, dotted (b :: bs) = a ++ v ∧ ∃ v1, v = "."%char :: v1 ∧ ((∃ u v2, v1 = u ++ v2 ∧ no_line_end u ∧ ∃ v3, v2 = "."%char :: v3 ∧ stand (a2 :: l) v3) ∨ stand (a2 :: l) v1)).
    split.
    + intros (v & E & v1 & -> & Hv). destruct (first_component a b bs ("."%char :: v1) Ha Hb) as [-> E2]; [right; by eexists|done|]. exists bs. split; [done|].
      destruct bs as [|b2 bs]; [done|]. assert (v1 = dotted (b2 :: bs)) as -> by (unfold at_end_of in E2; congruence). destruct Hv as [(u & v2 & E3 & _ & v3 & -> & Hv)|Hv].
      * destruct (dotted_dot _ u v3 Hbs E3) as (l1 & l2 & El & H1 & H2 & ->). rewrite El in Hbs, Hns. apply Forall_app in Hbs as [_ Hbs]. apply Forall_app in Hns as [_ Hns].
        apply IH in Hv as (bs' & -> & Hs); [|done..]. rewrite El. apply sublist_inserts_l. by apply sublist_skip.
      * apply IH in Hv as (bs' & [= -> ->] & Hs); [|done..]. by apply sublist_skip.
    + intros (bs' & [= -> ->] & Hs). destruct bs' as [|b2 bs]; [by apply sublist_nil_r in Hs|]. exists ("."%char :: dotted (b2 :: bs)). split; [done|]. eexists. split; [done|].
      apply sublist_cons_l in Hs as (k1 & k2 & E & Hs). rewrite E in Hbs, Hns |- *. apply Forall_app in Hbs as [_ Hbs]. pose proof Hns as Hns0. apply Forall_app in Hns as [Hns1 Hns].
      assert (Hst : stand (a2 :: l) (dotted (a2 :: k2))) by (apply IH; [done..|]; by exists k2).
      destruct k1 as [|c k1]; [by right|]. left. exists (dotted (c :: k1)), ("."%char :: dotted (a2 :: k2)). rewrite dotted_app by done. split; [done|]. split; [|by eexists].
      clear -Hns1. induction Hns1 as [|x xs Hx Hxs IHx]; [constructor|]. rewrite dotted_cons. apply Forall_app. split; [done|]. destruct xs; [constructor|]. constructor; [done|exact IHx].
Qed.

(** The pattern of some names matches some components exactly when the names are among them, in order. *)
Lemma names_among a l bs : Forall dot_free (a :: l) → Forall dot_free bs → Forall no_line_end bs → bs ≠ [] →
  is_Some (pattern_exec {| p_pat := namespace_pat (a :: l); p_flags := no_flags; p_groups := 2 |} (dotted bs) 0) ↔ sublist (a :: l) bs.
Proof.
  intros Hl Hb Hn Hne. rewrite pattern_found. split.
  - intros [H|(u & v & E & H)].
    + apply stand_components in H as (bs' & -> & Hs); [|done..]. by apply sublist_skip.
    + destruct (dotted_dot bs u v Hb E) as (l1 & l2 & El & H1 & H2 & ->). rewrite El in Hb, Hn |- *. apply Forall_app in Hb as [_ Hb]. apply Forall_app in Hn as [_ Hn].
      apply stand_components in H as (bs' & -> & Hs); [|done..]. apply sublist_inserts_l. by apply sublist_skip.
  - intros Hs. apply sublist_cons_l in Hs as (k1 & k2 & E & Hs). rewrite E in Hb, Hn |- *. apply Forall_app in Hb as [_ Hb]. apply Forall_app in Hn as [_ Hn].
    assert (Hst : stand (a :: l) (dotted (a :: k2))) by (apply stand_components; [done..|]; by exists k2).
    destruct k1 as [|c k1]; [by left|]. right. exists (dotted (c :: k1)), (dotted (a :: k2)). by rewrite dotted_app.
Qed.

(** ** Names in order *)

Lemma insert_string_perm s l : insert_string s l ≡ₚ s :: l.
Proof. induction l as [|x l IH]; cbn; [done|]. destruct (String.leb s x); [done|]. rewrite IH. apply perm_swap. Qed.
Lemma sort_strings_perm l : sort_strings l ≡ₚ l.
Proof. induction l as [|s l IH]; [done|]. cbn. by rewrite insert_string_perm, IH. Qed.
Lemma insert_string_sorted s l : StronglySorted String.le l → StronglySorted String.le (insert_string s l).
Proof.
  induction 1 as [|x l Hl IH Hx]; cbn; [repeat constructor|]. destruct (String.leb s x) eqn:E.
  - constructor; [by constructor|]. constructor; [by apply Is_true_eq_left|]. eapply Forall_impl; [exact Hx|]. intros y Hy. etrans; [|exact Hy]. by apply Is_true_eq_left.
  - constructor; [done|]. rewrite insert_string_perm. constructor; [|done]. destruct (String.leb_total s x) as [H|H]; [congruence|]. by apply Is_true_eq_left.
Qed.
Lemma sort_strings_sorted l : StronglySorted String.le (sort_strings l).
Proof. induction l as [|s l IH]; [constructor|]. by apply insert_string_sorted. Qed.

(** In order, to be among the others is to come in their order. *)
Lemma sorted_sublist l k : StronglySorted String.le l → StronglySorted String.le k → l ⊆+ k → sublist l k.
Proof.
  intros Hl Hk. induction Hk as [|x k Hk IH Hx] in l, Hl |- *; intros Hs; [apply submseteq_nil_r in Hs as ->; constructor|].
  destruct Hl as [|y l Hl Hy]; [apply sublist_nil_l|]. destruct (decide (x = y)) as [->|Hne].
  - apply sublist_skip, IH; [done|]. by apply (submseteq_app_inv_l _ _ [y]).
  - apply sublist_cons, IH; [by constructor|]. assert (Hnx : x ∉ y :: l).
    { intros Hin. apply elem_of_cons in Hin as [->|Hin]; [done|]. rewrite Forall_forall in Hy, Hx. specialize (Hy x Hin).
      assert (y ∈ x :: k) as [->|Hyk]%elem_of_cons by (eapply elem_of_submseteq; [left|done]); [done|]. specialize (Hx y Hyk). apply Hne. by apply (anti_symm String.le). }
    apply submseteq_cons_r in Hs as [Hs|(k' & E & _)]; [done|]. destruct Hnx. rewrite E. left.
Qed.
Lemma sublist_sorted l k : StronglySorted String.le l → StronglySorted String.le k → sublist l k ↔ l ⊆+ k.
Proof. intros Hl Hk. split; [apply sublist_submseteq|by apply sorted_sublist]. Qed.

(** ** Namespaces of events and handlers *)

Lemma chars_join l : chars (join "." l) = dotted (chars <$> l).
Proof.
  induction l as [|s [|s2 l] IH]; [done|done|]. change (join "." (s :: s2 :: l)) with (s +:+ "." +:+ join "." (s2 :: l)). rewrite !list_ascii_app, IH. done.
Qed.
Lemma chars_source l : l ≠ [] → chars (namespace_source l) = chars "(^|\.)" ++ names_source (chars <$> l).
Proof.
  intros Hl. unfold namespace_source. rewrite list_ascii_app. f_equal. rewrite list_ascii_app. induction l as [|s [|s2 l] IH]; [done|done|].
  change (join "\.(?:.*\.|)" (s :: s2 :: l)) with (s +:+ "\.(?:.*\.|)" +:+ join "\.(?:.*\.|)" (s2 :: l)). rewrite !list_ascii_app, <- !app_assoc, IH by done. done.
Qed.

Lemma split_char_free c s : Forall (λ p, c ∉ chars p) (split_char c s).
Proof.
  induction s as [|d s IH]; cbn [split_char]; [repeat constructor; apply not_elem_of_nil|]. destruct (Ascii.eqb_spec d c); [by constructor; [apply not_elem_of_nil|]|].
  destruct (split_char c s) as [|p l]; [repeat constructor; cbn; set_solver|]. apply Forall_cons in IH as [H1 H2]. constructor; [|done]. cbn. set_solver.
Qed.

(** Names that stand for themselves in a pattern. *)
Definition plain_namespaces (ns : string) : Prop := Forall (λ s, plain_text (chars s)) (split_char "." ns).
Definition one_line (ns : string) : Prop := Forall (λ s, no_line_end (chars s)) (split_char "." ns).

Lemma Forall_sorted (P : string → Prop) ns : Forall P (split_char "." ns) → Forall P (namespaces_of ns).
Proof. unfold namespaces_of. by rewrite sort_strings_perm. Qed.
Lemma namespaces_some ns : namespaces_of ns ≠ [].
Proof.
  unfold namespaces_of. intros E. pose proof (sort_strings_perm (split_char "." ns)) as Hp. rewrite E in Hp. apply Permutation_nil_l in Hp.
  destruct ns as [|c ns]; cbn [split_char] in Hp; [done|]. destruct (Ascii.eqb c "."); [done|]. by destruct (split_char "." ns).
Qed.

Lemma sublist_fmap_inj (l k : list string) : sublist (chars <$> l) (chars <$> k) ↔ sublist l k.
Proof.
  split; [|intros H; induction H; cbn; by constructor]. intros H. remember (chars <$> l) as l' eqn:El. remember (chars <$> k) as k' eqn:Ek.
  induction H as [|x l1 k1 H IH|x l1 k1 H IH] in l, k, El, Ek |- *.
  - symmetry in El, Ek. apply fmap_nil_inv in El as ->. apply sublist_nil_l.
  - destruct l as [|s l], k as [|s' k]; try done. cbn in El, Ek. injection El as -> El. injection Ek as E Ek. apply chars_inj in E as ->. apply sublist_skip. by apply IH.
  - destruct k as [|s' k]; [done|]. cbn in Ek. injection Ek as _ Ek. apply sublist_cons. by apply IH.
Qed.

(** The pattern for namespaces matches those of a handler exactly when all of them are among them. *)
Lemma namespace_re_spec ns ns' : plain_namespaces ns → one_line ns' →
  ∃ p, namespace_re (namespaces_of ns) = Ret p ∧ (re_test p (join "." (namespaces_of ns')) = true ↔ split_char "." ns ⊆+ split_char "." ns').
Proof.
  intros Hp Ho. pose proof (namespaces_some ns) as Hn. pose proof (namespaces_some ns') as Hn'.
  assert (Hpt : Forall plain_text (chars <$> namespaces_of ns)) by (apply Forall_fmap; by apply Forall_sorted).
  unfold namespace_re. rewrite chars_source, RegExp_names by done. eexists. split; [done|]. unfold re_test. rewrite chars_join.
  assert (Hdot : ∀ s, Forall dot_free (chars <$> namespaces_of s)) by (intros s; apply Forall_fmap, Forall_sorted, split_char_free).
  assert (Hline : Forall no_line_end (chars <$> namespaces_of ns')) by (apply Forall_fmap; by apply Forall_sorted).
  transitivity (sublist (chars <$> namespaces_of ns) (chars <$> namespaces_of ns')).
  - specialize (Hdot ns) as Hd. destruct (chars <$> namespaces_of ns) as [|a l] eqn:E; [by apply fmap_nil_inv in E|]. rewrite <- names_among; try done.
    + destruct (pattern_exec _ _ 0); split; try done; by intros [].
    + intros E2. by apply fmap_nil_inv in E2.
  - rewrite sublist_fmap_inj. unfold namespaces_of. rewrite sublist_sorted by apply sort_strings_sorted. by rewrite !sort_strings_perm.
Qed.
