(* ===== verification/EventFacts.v ===== *)
(** * Handlers are called in order (about JQueryEvents)

    Binding and unbinding keep the lists of handlers in order, and a listener exactly where there
    are handlers.  Unbinding removes the handlers that are meant and no others.  An event goes to the handlers in
    the order of the document and of their binding, whatever they bind and unbind meanwhile. *)

From stdpp Require Import sorting.
From S2P Require Import Prelude JSValue SyntaxTree Patterns SyntaxBrush JQueryData DataFacts JQueryEvents NamespaceFacts.

Section facts.
Implicit Types (w : eworld) (n : nat) (type : string).

(** ** Lists of handlers *)

(** There are handlers, all for the type, and the delegates, which are counted, are in front. *)
Record list_ok type (l : hlist) : Prop := {
  lo_some : objs l ≠ [];
  lo_type : Forall (λ o, ho_type o = type) (objs l);
  lo_front : Forall (λ o, has_selector o = true) (take (delegateCount l) (objs l)) ∧ Forall (λ o, has_selector o = false) (drop (delegateCount l) (objs l));
  lo_count : delegateCount l <= length (objs l)
}.

Lemma insert_ok type o l : ho_type o = type → (list_ok type l ∨ l = {| delegateCount := 0; objs := [] |}) → list_ok type (insert_handler o l).
Proof.
  intros Ht Hl. assert (Hl' : Forall (λ o, ho_type o = type) (objs l) ∧ (Forall (λ o, has_selector o = true) (take (delegateCount l) (objs l)) ∧
    Forall (λ o, has_selector o = false) (drop (delegateCount l) (objs l))) ∧ delegateCount l <= length (objs l)).
  { destruct Hl as [[? ? ? ?]| ->]; [done|]. cbn. repeat split; try constructor. }
  destruct Hl' as (H1 & [H2 H3] & H4). unfold insert_handler. destruct (ho_selector o) as [s|] eqn:Es; split; cbn [objs delegateCount].
  - intros E. by apply app_eq_nil in E as [_ ?].
  - apply Forall_app. split; [by apply Forall_take|]. constructor; [done|by apply Forall_drop].
  - assert (Hlen : length (take (delegateCount l) (objs l)) = delegateCount l) by (rewrite length_take; lia).
    assert (E : take (delegateCount l) (objs l) ++ o :: drop (delegateCount l) (objs l) = (take (delegateCount l) (objs l) ++ [o]) ++ drop (delegateCount l) (objs l)) by (by rewrite <- app_assoc).
    assert (Ec : S (delegateCount l) = length (take (delegateCount l) (objs l) ++ [o])) by (rewrite length_app, Hlen; cbn; lia).
    rewrite E, Ec, take_app_length, drop_app_length. split; [|done]. apply Forall_app. split; [done|]. constructor; [|constructor]. unfold has_selector. by rewrite Es.
  - rewrite length_app, length_take. cbn. rewrite length_drop. lia.
  - intros E. by apply app_eq_nil in E as [_ ?].
  - apply Forall_app. split; [done|]. by constructor.
  - split; [by rewrite take_app_le|]. rewrite drop_app_le by done. apply Forall_app. split; [done|]. constructor; [|constructor]. unfold has_selector. by rewrite Es.
  - rewrite length_app. cbn. lia.
Qed.

Lemma filter_length_all {A} (f g : A → bool) l : Forall (λ x, g x = true) l → length (List.filter (λ x, f x && g x) l) + length (List.filter (λ x, negb (f x)) l) = length l.
Proof. induction 1 as [|x l Hx Hl IH]; [done|]. cbn. rewrite Hx. destruct (f x); cbn; lia. Qed.
Lemma filter_none {A} (f g : A → bool) l : Forall (λ x, g x = false) l → List.filter (λ x, f x && g x) l = [].
Proof. induction 1 as [|x l Hx Hl IH]; [done|]. cbn. by rewrite Hx, andb_false_r, IH. Qed.
Lemma Forall_filter {A} (P : A → Prop) f (l : list A) : Forall P l → Forall P (List.filter f l).
Proof. induction 1; cbn; [constructor|]. by case_match; [constructor|]. Qed.

Lemma keep_ok type test l : list_ok type l → objs (keep_handlers test l) ≠ [] → list_ok type (keep_handlers test l).
Proof.
  intros [H1 H2 [H3 H4] H5] Hne. set (ds := take (delegateCount l) (objs l)) in *. set (hs := drop (delegateCount l) (objs l)) in *.
  assert (Eo : objs l = ds ++ hs) by (unfold ds, hs; by rewrite take_drop). assert (Ed : length ds = delegateCount l) by (unfold ds; rewrite length_take; lia).
  assert (Ec : delegateCount (keep_handlers test l) = length (List.filter (λ o, negb (test o)) ds)).
  { cbn [keep_handlers delegateCount]. rewrite Eo, List.filter_app, length_app, (filter_none test has_selector hs) by done. pose proof (filter_length_all test has_selector ds H3). cbn. lia. }
  assert (Ek : objs (keep_handlers test l) = List.filter (λ o, negb (test o)) ds ++ List.filter (λ o, negb (test o)) hs) by (cbn [keep_handlers objs]; by rewrite Eo, List.filter_app).
  split; [done| | |].
  - rewrite Ek. rewrite Eo in H2. apply Forall_app in H2 as [? ?]. apply Forall_app. split; by apply Forall_filter.
  - rewrite Ec, Ek. rewrite take_app_length, drop_app_length. split; by apply Forall_filter.
  - rewrite Ec, Ek, length_app. lia.
Qed.

(** ** Words *)

(** Without white space. *)
Definition tight (s : string) : Prop := Forall (λ c, JSValue.is_space c = false) (chars s).

Lemma words_tight cur s : tight cur → Forall tight (words_from cur s).
Proof.
  unfold tight. induction s as [|c s IH] in cur |- *; intros Hc; cbn [words_from].
  - destruct (String.eqb cur ""); repeat constructor. done.
  - destruct (JSValue.is_space c) eqn:E.
    + apply Forall_app. split; [destruct (String.eqb cur ""); repeat constructor; done|]. apply IH. constructor.
    + apply IH. rewrite list_ascii_app. apply Forall_app. split; [done|]. by repeat constructor.
Qed.
Lemma type_words_tight types : Forall tight (type_words types).
Proof.
  unfold type_words. pose proof (words_tight "" types ltac:(constructor)) as H. destruct (words_from "" types); [|done]. repeat constructor.
Qed.

Lemma until_dot_tight s a r : tight s → until_dot s = (a, r) → tight a ∧ "."%char ∉ chars a ∧ (∀ ns, r = Some ns → tight ns).
Proof.
  unfold tight. induction s as [|c s IH] in a, r |- *; cbn [until_dot chars]; intros Hs.
  - intros [= <- <-]. repeat split; [constructor|apply not_elem_of_nil|done].
  - apply Forall_cons in Hs as [Hc Hs]. destruct (Ascii.eqb_spec c ".").
    + intros [= <- <-]. repeat split; [constructor|apply not_elem_of_nil|by intros ns [= <-]].
    + destruct (until_dot s) as [a' r'] eqn:E. intros [= <- <-]. destruct (IH a' r' Hs eq_refl) as (H1 & H2 & H3). repeat split; [by constructor| |done]. cbn. set_solver.
Qed.

Lemma rtype_tight s a ns : tight s → rtypenamespace s = Some (a, ns) → tight a ∧ "."%char ∉ chars a ∧ tight ns.
Proof.
  unfold rtypenamespace. intros Hs. destruct (until_dot s) as [a' r] eqn:E. destruct (until_dot_tight s a' r Hs E) as (H1 & H2 & H3).
  destruct r as [[|c r]|]; [done|..]; intros [= <- <-]; repeat split; try done; [by apply H3|constructor].
Qed.

Lemma tight_one_line ns : tight ns → one_line ns.
Proof.
  unfold tight, one_line, no_line_end. intros H.
  assert (Hs : ∀ c, JSValue.is_space c = false → is_line_end c = false) by (intros c; destruct c as [[] [] [] [] [] [] [] []]; done).
  induction ns as [|c ns IH]; cbn [split_char]; [repeat constructor|]. cbn in H. apply Forall_cons in H as [Hc H]. specialize (IH H).
  destruct (Ascii.eqb c "."); [by constructor|]. destruct (split_char "." ns) as [|p l]; [repeat constructor; auto|]. apply Forall_cons in IH as [H1 H2]. constructor; [|done]. cbn. constructor; auto.
Qed.

(** ** The invariant *)

Definition list_at w n type : option hlist := assoc type (events_of n w).

(** The number of a handler is that of its function, and its namespaces are in order. *)
Definition obj_ok w (o : handleObj) : Prop :=
  fn_guid w (origin (ho_handler o)) = Some (ho_guid o) ∧ ∃ ns, ho_namespace o = join "." (namespaces_of ns) ∧ tight ns.

Record events_ok w : Prop := {
  eo_lists n type l : list_at w n type = Some l → list_ok type l;
  eo_types n type l : list_at w n type = Some l → tight type ∧ "."%char ∉ chars type;
  eo_objs n type l : list_at w n type = Some l → Forall (obj_ok w) (objs l);
  eo_listen n type : (n, type) ∈ listening w ↔ is_Some (list_at w n type);
  eo_once : NoDup (listening w);
  eo_given f g : fn_guid w f = Some g → (g < e_guid w)%N;
  eo_own f f' g : fn_guid w f = Some g → fn_guid w f' = Some g → f = f'
}.

(** The handlers of one element and type are replaced. *)
Lemma list_at_put w n type l n' type' : list_at (set_ev (<[n := prop_put type l (events_of n w)]> (ev w)) w) n' type' =
  if decide (n' = n ∧ type' = type) then Some l else list_at w n' type'.
Proof.
  unfold list_at, events_of. cbn [ev set_ev]. destruct (decide (n' = n)) as [->|Hn].
  - rewrite lookup_insert_eq. cbn. rewrite assoc_prop_put. destruct (String.eqb_spec type' type); [by rewrite decide_True|by rewrite decide_False by naive_solver].
  - rewrite lookup_insert_ne by done. by rewrite decide_False by naive_solver.
Qed.
Lemma list_at_remove w n type n' type' : list_at (set_ev (<[n := remove_prop type (events_of n w)]> (ev w)) w) n' type' =
  if decide (n' = n ∧ type' = type) then None else list_at w n' type'.
Proof.
  unfold list_at, events_of. cbn [ev set_ev]. destruct (decide (n' = n)) as [->|Hn].
  - rewrite lookup_insert_eq. cbn. unfold remove_prop. rewrite assoc_deleted. destruct (String.eqb_spec type' type); [by rewrite decide_True|by rewrite decide_False by naive_solver].
  - rewrite lookup_insert_ne by done. by rewrite decide_False by naive_solver.
Qed.
Lemma list_at_same w n n' type' : list_at (set_ev (<[n := events_of n w]> (ev w)) w) n' type' = list_at w n' type'.
Proof.
  unfold list_at, events_of. cbn [ev set_ev]. destruct (decide (n' = n)) as [->|Hn]; [by rewrite lookup_insert_eq|by rewrite lookup_insert_ne].
Qed.
Lemma list_at_drop w n n' type' : list_at (drop_empty n w) n' type' = list_at w n' type'.
Proof.
  unfold drop_empty, list_at, events_of. destruct (default [] (ev w !! n)) eqn:E; [|done]. cbn [ev set_ev is_nil]. destruct (decide (n' = n)) as [->|Hn]; [by rewrite lookup_delete_eq, E|by rewrite lookup_delete_ne].
Qed.

(** Worlds with the same lists. *)
Lemma events_ok_same w w' : (∀ n type, list_at w' n type = list_at w n type) → fn_guid w' = fn_guid w → e_guid w' = e_guid w → listening w' = listening w → events_ok w → events_ok w'.
Proof.
  intros Hl Hf Hg Hs [H1 H2 H3 H4 H5 H6 H7]. split; intros *; rewrite ?Hl, ?Hf, ?Hg, ?Hs; eauto.
  intros Hx. specialize (H3 _ _ _ Hx). eapply Forall_impl; [exact H3|]. intros o. unfold obj_ok. by rewrite Hf.
Qed.

Lemma put_ok w n type l w' : events_ok w → (∀ n' type', list_at w' n' type' = if decide (n' = n ∧ type' = type) then Some l else list_at w n' type') →
  list_ok type l → tight type → "."%char ∉ chars type → Forall (obj_ok w) (objs l) → fn_guid w' = fn_guid w → e_guid w' = e_guid w →
  listening w' = (match list_at w n type with Some _ => listening w | None => listening w ++ [(n, type)] end) → events_ok w'.
Proof.
  intros [H1 H2 H3 H4 H5 H6 H7] Hl Hlo Ht Hd Ho Hf Hg Hs. split.
  - intros n' type' l'. rewrite Hl. destruct (decide _) as [[-> ->]|]; [by intros [= <-]|by apply H1].
  - intros n' type' l'. rewrite Hl. destruct (decide _) as [[-> ->]|]; [by intros [= <-]|by apply H2].
  - intros n' type' l'. rewrite Hl. intros Hx. assert (Forall (obj_ok w) (objs l')) as Hy by (destruct (decide _) as [[-> ->]|]; [by injection Hx as <-|by eapply H3]).
    eapply Forall_impl; [exact Hy|]. intros o. unfold obj_ok. by rewrite Hf.
  - intros n' type'. rewrite Hl, Hs. destruct (decide (n' = n ∧ type' = type)) as [[-> ->]|Hne].
    + split; [done|]. intros _. destruct (list_at w n type) eqn:E; [apply H4; by rewrite E|]. apply elem_of_app. right. left.
    + rewrite <- H4. destruct (list_at w n type); [done|]. rewrite elem_of_app, list_elem_of_singleton. naive_solver.
  - rewrite Hs. destruct (list_at w n type) eqn:E; [done|]. apply NoDup_app. split; [done|]. split; [|apply NoDup_singleton]. intros x Hx ->%list_elem_of_singleton. apply H4 in Hx. rewrite E in Hx. by destruct Hx.
  - intros f g. rewrite Hf, Hg. apply H6.
  - intros f f' g. rewrite Hf. apply H7.
Qed.

(** ** Binding *)

Lemma ensure_guid_ok f w : events_ok w → let '(g, w') := ensure_guid f w in
  events_ok w' ∧ fn_guid w' f = Some g ∧ (∀ n type, list_at w' n type = list_at w n type) ∧ (∀ f' g', fn_guid w f' = Some g' → fn_guid w' f' = Some g') ∧ listening w' = listening w.
Proof.
  intros Hw. unfold ensure_guid. destruct (fn_guid w f) as [g|] eqn:E; [done|]. set (w' := {| ev := ev w |}).
  assert (Hkeep : ∀ f' g', fn_guid w f' = Some g' → fn_guid w' f' = Some g') by (intros f' g' H; cbn; by destruct (decide _) as [->|]; [congruence|]).
  split; [|cbn; by rewrite decide_True]. destruct Hw as [H1 H2 H3 H4 H5 H6 H7]. split; try done.
  - intros n type l Hl. eapply Forall_impl; [by eapply H3|]. intros o [Ho Hn]. split; [by apply Hkeep|done].
  - intros f' g'. cbn. destruct (decide (f' = f)); [intros [= <-]; lia|]. intros Hg%H6. lia.
  - intros f1 f2 g. cbn. destruct (decide (f1 = f)) as [->|], (decide (f2 = f)) as [->|]; [done| | |apply H7].
    + intros [= <-] Hg%H6. lia.
    + intros Hg%H6 [= <-]. lia.
Qed.

(** What a word of the types stands for. *)
Definition orig_of (word : string) : option string := fst <$> rtypenamespace word.
Definition ns_of (word : string) : string := match rtypenamespace word with Some (_, ns) => ns | None => "" end.
Definition type_of (selector : option string) (word : string) : string := mapped_type selector (default "undefined" (orig_of word)).
Definition obj_of (h : handler) (g : N) (selector : option string) (word : string) : handleObj :=
  {| ho_type := type_of selector word; ho_origType := orig_of word; ho_handler := h; ho_guid := g; ho_selector := selector; ho_namespace := join "." (namespaces_of (ns_of word)) |}.

Lemma mapped_tight selector type : tight type → "."%char ∉ chars type → tight (mapped_type selector type) ∧ "."%char ∉ chars (mapped_type selector type).
Proof.
  intros H1 H2. unfold mapped_type, delegateType, bindType. assert (Hc : ∀ s, forallb (λ c, negb (JSValue.is_space c) && negb (Ascii.eqb c ".")) (chars s) = true → tight s ∧ "."%char ∉ chars s).
  { intros s Hs. rewrite forallb_forall in Hs. split.
    - apply Forall_forall. intros c Hin%list_elem_of_In. specialize (Hs c Hin). apply andb_true_iff in Hs as [Hs _]. by apply negb_true_iff.
    - intros Hin%list_elem_of_In. specialize (Hs _ Hin). by apply andb_true_iff in Hs as [_ Hs]. }
  destruct selector; repeat case_match; cbn; first [done|by apply Hc].
Qed.
Lemma type_of_tight selector word : tight word → tight (type_of selector word) ∧ "."%char ∉ chars (type_of selector word).
Proof.
  intros Hw. unfold type_of, orig_of. apply mapped_tight; destruct (rtypenamespace word) as [[a ns]|] eqn:E; cbn.
  - by apply (rtype_tight _ _ _ Hw E).
  - repeat constructor.
  - by apply (rtype_tight _ _ _ Hw E).
  - set_solver.
Qed.
Lemma ns_of_tight word : tight word → tight (ns_of word).
Proof. intros Hw. unfold ns_of. destruct (rtypenamespace word) as [[a ns]|] eqn:E; [by apply (rtype_tight _ _ _ Hw E)|constructor]. Qed.

Lemma add_type_eq n h g selector word w : add_type n h g selector word w =
  let type := type_of selector word in
  let w1 := set_ev (<[n := prop_put type (insert_handler (obj_of h g selector word) (default {| delegateCount := 0; objs := [] |} (list_at w n type))) (events_of n w)]> (ev w)) w in
  match list_at w n type with Some _ => w1 | None => set_listening (listening w ++ [(n, type)]) w1 end.
Proof.
  cbn zeta. unfold add_type, list_at. fold (orig_of word). fold (ns_of word). fold (type_of selector word). fold (obj_of h g selector word). by destruct (assoc _ (events_of n w)).
Qed.

Lemma add_type_ok n h g selector word w : events_ok w → fn_guid w (origin h) = Some g → tight word →
  let w' := add_type n h g selector word w in
  events_ok w' ∧ fn_guid w' = fn_guid w ∧ ∀ n' type', list_at w' n' type' =
    if decide (n' = n ∧ type' = type_of selector word) then Some (insert_handler (obj_of h g selector word) (default {| delegateCount := 0; objs := [] |} (list_at w n (type_of selector word))))
    else list_at w n' type'.
Proof.
  intros Hw Hg Ht. cbn zeta. rewrite add_type_eq. cbn zeta. set (type := type_of selector word). set (l := insert_handler _ _).
  destruct (type_of_tight selector word Ht) as [T1 T2]. fold type in T1, T2. set (w1 := set_ev _ w).
  assert (Hl : ∀ w', ev w' = ev w1 → ∀ n' type', list_at w' n' type' = if decide (n' = n ∧ type' = type) then Some l else list_at w n' type').
  { intros w' E n' type'. unfold list_at, events_of. rewrite E. apply list_at_put. }
  assert (Hlo : list_ok type l). { apply insert_ok; [done|]. destruct (list_at w n type) eqn:E; [left; by eapply eo_lists|by right]. }
  assert (Ho : Forall (obj_ok w) (objs l)).
  { assert (obj_ok w (obj_of h g selector word)) by (split; [done|]; exists (ns_of word); split; [done|by apply ns_of_tight]).
    assert (Forall (obj_ok w) (objs (default {| delegateCount := 0; objs := [] |} (list_at w n type)))) by (destruct (list_at w n type) eqn:E; [by eapply eo_objs|constructor]).
    unfold l, insert_handler. destruct (ho_selector _); cbn [objs]; apply Forall_app; split; try done; [by apply Forall_take|constructor; [done|by apply Forall_drop]|by constructor]. }
  destruct (list_at w n type) eqn:E.
  - split; [|split; [done|by apply Hl]]. eapply (put_ok w n type l); try done; [by apply Hl|by rewrite E].
  - split; [|split; [done|by apply Hl]]. eapply (put_ok w n type l); try done; [by apply Hl|by rewrite E].
Qed.

Lemma add_types_ok n h g selector words w : events_ok w → fn_guid w (origin h) = Some g → Forall tight words →
  events_ok (foldl (λ w word, add_type n h g selector word w) w words) ∧ fn_guid (foldl (λ w word, add_type n h g selector word w) w words) = fn_guid w.
Proof.
  intros Hw Hg Ht. induction Ht as [|word words Hword Hwords IH] in w, Hw, Hg |- *; cbn [foldl]; [done|].
  destruct (add_type_ok n h g selector word w Hw Hg Hword) as (H1 & H2 & _). rewrite <- H2. apply IH; [done|by rewrite H2].
Qed.

(** ** Unbinding *)

Definition handlers_at w n type : list handleObj := match list_at w n type with Some l => objs l | None => [] end.

Lemma handlers_nil w n type : events_ok w → handlers_at w n type = [] ↔ list_at w n type = None.
Proof.
  intros Hw. unfold handlers_at. destruct (list_at w n type) as [l|] eqn:E; [|done]. split; [|done]. intros El. by destruct (lo_some _ _ (eo_lists _ Hw _ _ _ E)).
Qed.

Lemma drop_list_ok w n type w' : events_ok w → (∀ n' type', list_at w' n' type' = if decide (n' = n ∧ type' = type) then None else list_at w n' type') →
  fn_guid w' = fn_guid w → e_guid w' = e_guid w → listening w' = remove_pair (n, type) (listening w) → events_ok w'.
Proof.
  intros [H1 H2 H3 H4 H5 H6 H7] Hl Hf Hg Hs. split.
  - intros n' type' l'. rewrite Hl. destruct (decide _); [done|apply H1].
  - intros n' type' l'. rewrite Hl. destruct (decide _); [done|apply H2].
  - intros n' type' l'. rewrite Hl. destruct (decide _); [done|]. intros Hx. eapply Forall_impl; [by eapply H3|]. intros o. unfold obj_ok. by rewrite Hf.
  - intros n' type'. rewrite Hl, Hs. unfold remove_pair. rewrite list_elem_of_In, List.filter_In, <- list_elem_of_In, H4.
    destruct (decide (n' = n ∧ type' = type)) as [[-> ->]|Hne]; [rewrite bool_decide_true by done|rewrite bool_decide_false by naive_solver]; cbn; split; try done; by intros [].
  - rewrite Hs. apply NoDup_ListNoDup. apply NoDup_ListNoDup in H5. by apply List.NoDup_filter.
  - intros f g. rewrite Hf, Hg. apply H6.
  - intros f f' g. rewrite Hf. apply H7.
Qed.

Lemma remove_type_ok n type test w : events_ok w → let w' := remove_type n type test w in
  events_ok w' ∧ fn_guid w' = fn_guid w ∧ ∀ n' type', handlers_at w' n' type' =
    if decide (n' = n ∧ type' = type) then List.filter (λ o, negb (test o)) (handlers_at w n type) else handlers_at w n' type'.
Proof.
  intros Hw. cbn zeta. unfold remove_type. fold (list_at w n type). destruct (list_at w n type) as [l|] eqn:E.
  2:{ split; [done|]. split; [done|]. intros n' type'. destruct (decide _) as [[-> ->]|]; [|done]. unfold handlers_at. by rewrite E. }
  pose proof (eo_lists _ Hw _ _ _ E) as Hlo. assert (El : handlers_at w n type = objs l) by (unfold handlers_at; by rewrite E).
  assert (is_nil (objs l) = false) as -> by (destruct (objs l) eqn:El'; [by destruct (lo_some _ _ Hlo)|done]). rewrite andb_true_r.
  destruct (is_nil (objs (keep_handlers test l))) eqn:En.
  - set (w' := set_listening _ _). assert (Hl : ∀ n' type', list_at w' n' type' = if decide (n' = n ∧ type' = type) then None else list_at w n' type') by apply list_at_remove.
    split; [by eapply drop_list_ok|]. split; [done|]. intros n' type'. unfold handlers_at at 1. rewrite Hl. destruct (decide _) as [[-> ->]|]; [|done].
    rewrite El. cbn [keep_handlers objs] in En. by destruct (List.filter _ (objs l)).
  - set (w' := set_ev _ w). assert (Hl : ∀ n' type', list_at w' n' type' = if decide (n' = n ∧ type' = type) then Some (keep_handlers test l) else list_at w n' type') by apply list_at_put.
    split.
    + eapply (put_ok w n type (keep_handlers test l)); try done; [apply keep_ok; [done|]; intros E2; by rewrite E2 in En|by eapply eo_types|by eapply eo_types| |by rewrite E].
      cbn [keep_handlers objs]. apply Forall_filter. by eapply eo_objs.
    + split; [done|]. intros n' type'. unfold handlers_at at 1. rewrite Hl. destruct (decide _) as [[-> ->]|]; [|done]. by rewrite El.
Qed.

Lemma drop_empty_ok n w : events_ok w → events_ok (drop_empty n w) ∧ ∀ n' type', handlers_at (drop_empty n w) n' type' = handlers_at w n' type'.
Proof.
  intros Hw. assert (Hl : ∀ n' type', list_at (drop_empty n w) n' type' = list_at w n' type') by apply list_at_drop. split.
  - eapply (events_ok_same w); try done; unfold drop_empty; by destruct (is_nil _).
  - intros n' type'. unfold handlers_at. by rewrite Hl.
Qed.

Lemma each_word_inv {A B} (P : B → Prop) (f : A → B → outcome B) l : (∀ a b b', P b → f a b = Done b' → P b') → ∀ b b', P b → each_word f l b = Done b' → P b'.
Proof.
  intros Hf. induction l as [|a l IH]; intros b b' Hb; cbn [each_word]; [by intros [= <-]|]. destruct (f a b) as [b1| |] eqn:E; [|done..]. cbn. apply IH. by eapply Hf.
Qed.

Lemma event_remove_ok depth n types guid selector mapped w w' : events_ok w → event_remove depth n types guid selector mapped w = Done w' → events_ok w'.
Proof.
  induction depth as [|depth IH] in types, mapped, w, w' |- *; intros Hw; cbn [event_remove]; [done|]. destruct (ev w !! n); [|by intros [= <-]].
  destruct (each_word _ _ w) as [w1| |] eqn:E; [|done..]. cbn. intros [= <-]. apply drop_empty_ok. revert E. apply each_word_inv; [|done]. clear w Hw w1.
  intros word w w1 Hw. assert (Hall : each_word (λ type w, event_remove depth n (type +:+ word) guid selector true w) (events_of n w).*1 w = Done w1 → events_ok w1).
  { apply each_word_inv; [|done]. intros type w2 w3 Hw2. by apply IH. }
  destruct (rtypenamespace word) as [[[|c t] ns]|]; [done| |done].
  destruct (if String.eqb ns "" then _ else _) as [re| |]; [|done..]. cbn. intros [= <-]. by apply remove_type_ok.
Qed.

(** ** The methods of the page *)

Context (accepts : nat → bool).

Lemma event_add_ok n types h selector w : events_ok w → events_ok (event_add accepts n types h selector w).
Proof.
  intros Hw. unfold event_add. destruct (accepts n); [|done]. pose proof (ensure_guid_ok (origin h) w Hw) as Hg. destruct (ensure_guid (origin h) w) as [g w1]. destruct Hg as (H1 & H2 & _).
  apply add_types_ok; [|done|]. { eapply (events_ok_same w1); try done. apply list_at_same. } apply Forall_rev. apply type_words_tight.
Qed.
Lemma on_ok ns types selector f one w : events_ok w → events_ok (on accepts ns types selector f one w).
Proof.
  intros Hw. unfold on. assert (H1 : events_ok (if one then (ensure_guid f w).2 else w)).
  { destruct one; [|done]. pose proof (ensure_guid_ok f w Hw) as Hg. destruct (ensure_guid f w). by destruct Hg. }
  revert H1. generalize (if one then (ensure_guid f w).2 else w) as w1. induction ns as [|n ns IH]; intros w1 H1; cbn [foldl]; [done|]. by apply IH, event_add_ok.
Qed.

Lemma do_bind_ok op w w' : events_ok w → do_bind accepts op w = Done w' → events_ok w'.
Proof.
  intros Hw. destruct op as [ns types selector f one|ns types selector f]; cbn [do_bind]; [intros [= <-]; by apply on_ok|].
  unfold off. apply each_word_inv; [|done]. intros n w1 w2 H1. by apply event_remove_ok.
Qed.

(** ** Dispatch *)

Context (d : document) (selects : nat → string → nat → bool) (user : nat → nat → event → eworld → reaction).

(** What handlers do not change of an event, and what they only ever set. *)
Record goes_on (e e' : event) : Prop := {
  go_re : e_re e' = e_re e;
  go_related : e_related e' = e_related e;
  go_now : e_stoppedNow e = true → e_stoppedNow e' = true;
  go_calm : (e_stoppedNow e = true → e_stopped e = true) → e_stoppedNow e' = true → e_stopped e' = true;
  go_stopped : e_stopped e = true → e_stopped e' = true
}.
#[local] Instance goes_on_refl : Reflexive goes_on.
Proof. intros e. by split. Qed.
#[local] Instance goes_on_trans : Transitive goes_on.
Proof. intros e1 e2 e3 [] []. split; [congruence|congruence|auto..]. Qed.

Lemma mark_goes_on stop now prevent e : goes_on e (mark stop now prevent e).
Proof.
  split; cbn; try done.
  - by intros ->.
  - intros Hc [H|H]%orb_true_iff; [by rewrite (Hc H)|rewrite H; by rewrite !orb_true_r].
  - by intros ->.
Qed.
Lemma after_goes_on r e : goes_on e (after_return r e).
Proof. destruct r; [done|etrans; [|apply mark_goes_on]; by split|by split]. Qed.

Lemma run_fn_ok f elem e w r e' w' : run_fn accepts user f elem e w = Done (r, e', w') → goes_on e e' ∧ (events_ok w → events_ok w').
Proof.
  destruct f as [k|]; cbn [run_fn]; [|by intros [= <- <- <-]]. destruct (each_word _ _ w) as [w1| |] eqn:E; [|done..]. cbn. intros [= <- <- <-]. split; [apply mark_goes_on|].
  intros Hw. revert E. apply each_word_inv; [|done]. intros op w2 w3 H2. by apply do_bind_ok.
Qed.
Lemma apply_handler_ok this o elem e w r e' w' : apply_handler accepts user this o elem e w = Done (r, e', w') → goes_on e e' ∧ (events_ok w → events_ok w').
Proof.
  unfold apply_handler. destruct (ho_handler o) as [f|f]; [apply run_fn_ok|]. destruct (off _ _ _ _ w) as [w1| |] eqn:E; [|done..]. cbn. intros H. apply run_fn_ok in H as [H1 H2].
  split; [done|]. intros Hw. apply H2. by apply (do_bind_ok (Off [this] (off_types o) (ho_selector o) (Some f)) w).
Qed.
Lemma call_handler_ok this o elem e w r e' w' : call_handler accepts user this o elem e w = Done (r, e', w') → goes_on e e' ∧ (events_ok w → events_ok w').
Proof.
  unfold call_handler. destruct (is_enter o); [|apply apply_handler_ok]. destruct (apply_handler _ _ _ _ _ _ w) as [[[r1 e1] w1]| |] eqn:E; [|done..]. cbn. intros [= <- <- <-].
  apply apply_handler_ok in E as [H1 H2]. split; [|done]. etrans; [|etrans; [exact H1|]]; by split.
Qed.

Lemma wanted_same elem e e' o : goes_on e e' → wanted d elem e' o = wanted d elem e o.
Proof. intros [H1 H2 _ _ _]. unfold wanted, from_outside. by rewrite H1, H2. Qed.
Lemma filter_wanted elem e e' l : goes_on e e' → List.filter (wanted d elem e') l = List.filter (wanted d elem e) l.
Proof. intros H. apply List.filter_ext. intros o. by apply wanted_same. Qed.

(** The handlers for one element: a first part of those that are wanted, and all of them if the event is not stopped at once. *)
Lemma run_handlers_order this elem l : ∀ e w cs e' w', run_handlers accepts d user this elem l e w = Done (cs, e', w') →
  goes_on e e' ∧ (events_ok w → events_ok w') ∧ cs `prefix_of` (Called elem <$> List.filter (wanted d elem e) l) ∧ (e_stoppedNow e' = false → cs = Called elem <$> List.filter (wanted d elem e) l).
Proof.
  induction l as [|o l IH]; intros e w cs e' w'; cbn [run_handlers List.filter]; [by intros [= <- <- <-]|].
  destruct (e_stoppedNow e) eqn:En; [intros [= <- <- <-]; split; [done|]; split; [done|]; split; [apply prefix_nil|congruence]|].
  destruct (wanted d elem e o); [|apply IH].
  destruct (call_handler _ _ _ _ _ _ w) as [[[r e1] w1]| |] eqn:Ec; [|done..]. cbn. destruct (run_handlers _ _ _ _ _ l _ w1) as [[[cs2 e2] w2]| |] eqn:Er; [|done..]. cbn. intros [= <- <- <-].
  apply call_handler_ok in Ec as [G1 K1]. apply IH in Er as (G2 & K2 & P2 & A2). assert (G : goes_on e (after_return r e1)) by (etrans; [exact G1|apply after_goes_on]).
  rewrite (filter_wanted elem _ _ l G) in P2, A2. split; [by etrans|]. split; [auto|]. split; [by apply prefix_cons|]. intros H. by rewrite (A2 H).
Qed.

Definition in_order (e : event) (q : list (nat * list handleObj)) : list ecall := concat ((λ el, Called el.1 <$> List.filter (wanted d el.1 e) el.2) <$> q).
Lemma in_order_same e e' q : goes_on e e' → in_order e' q = in_order e q.
Proof. intros H. unfold in_order. f_equal. apply list_fmap_ext. intros i [elem l] _. cbn. by rewrite (filter_wanted elem e e'). Qed.

Lemma run_queue_order this q : ∀ e w cs e' w', (e_stoppedNow e = true → e_stopped e = true) → run_queue accepts d user this q e w = Done (cs, e', w') →
  goes_on e e' ∧ (events_ok w → events_ok w') ∧ cs `prefix_of` in_order e q ∧ (e_stopped e' = false → cs = in_order e q).
Proof.
  induction q as [|[elem l] q IH]; intros e w cs e' w' Hc; cbn [run_queue]; [by intros [= <- <- <-]|].
  destruct (e_stopped e) eqn:Es; [intros [= <- <- <-]; split; [done|]; split; [done|]; split; [apply prefix_nil|congruence]|].
  destruct (run_handlers _ _ _ _ _ l e w) as [[[cs1 e1] w1]| |] eqn:E1; [|done..]. cbn. destruct (run_queue _ _ _ _ q e1 w1) as [[[cs2 e2] w2]| |] eqn:E2; [|done..]. cbn. intros [= <- <- <-].
  apply run_handlers_order in E1 as (G1 & K1 & P1 & A1). rewrite <- Es in Hc. pose proof (go_calm _ _ G1 Hc) as Hc1. pose proof E2 as E2'. apply IH in E2 as (G2 & K2 & P2 & A2); [|done]. rewrite (in_order_same e e1) in P2, A2 by done.
  split; [by etrans|]. split; [auto|]. change (in_order e ((elem, l) :: q)) with ((Called elem <$> List.filter (wanted d elem e) l) ++ in_order e q).
  destruct (e_stoppedNow e1) eqn:En.
  - assert (cs2 = [] ∧ e_stopped e2 = true) as [-> Hs]. { specialize (Hc1 eq_refl). split; [|by apply (go_stopped _ _ G2)]. destruct q as [|[elem2 l2] q]; cbn [run_queue] in E2'; [by injection E2'|]. rewrite Hc1 in E2'. by injection E2'. }
    rewrite app_nil_r. split; [by apply prefix_app_r|]. congruence.
  - rewrite (A1 eq_refl). split; [destruct P2 as [k Ek]; exists k; rewrite <- app_assoc; by rewrite <- Ek|]. intros H. by rewrite (A2 H).
Qed.

(** ** The order *)

(** The elements on the way from the target that are looked at for delegates. *)
Definition looked_at this (e : event) : list nat :=
  if e_button e && String.eqb (e_type e) "click" then []
  else List.filter (λ cur, is_element d cur && negb (disabled d cur && String.eqb (e_type e) "click")) (path_below d this (e_target e)).
Definition delegate_for this cur (o : handleObj) : bool := match ho_selector o with Some sel => selects this sel cur | None => false end.

(** From the target upwards the delegates for each element, then the handlers of the element itself; those of
    each in the order of their binding, and only those that the namespaces of the event allow. *)
Definition planned this (e : event) w : list ecall :=
  let hs := handlers_at w this (e_type e) in
  concat ((λ cur, Called cur <$> List.filter (λ o, delegate_for this cur o && wanted d cur e o) hs) <$> looked_at this e) ++
  (Called this <$> List.filter (λ o, negb (has_selector o) && wanted d this e o) hs).

Lemma filter_filter {A} (f g : A → bool) l : List.filter g (List.filter f l) = List.filter (λ x, f x && g x) l.
Proof. induction l as [|x l IH]; [done|]. cbn. destruct (f x); cbn; [|done]. destruct (g x); by rewrite IH. Qed.
Lemma filter_ext_Forall {A} (f g : A → bool) l : Forall (λ x, f x = g x) l → List.filter f l = List.filter g l.
Proof. induction 1 as [|x l Hx Hl IH]; [done|]. cbn. by rewrite Hx, IH. Qed.
Lemma filter_false {A} (l : list A) f : Forall (λ x, f x = false) l → List.filter f l = [].
Proof. induction 1 as [|x l Hx Hl IH]; [done|]. cbn. by rewrite Hx. Qed.
Lemma filter_true {A} (l : list A) f : Forall (λ x, f x = true) l → List.filter f l = l.
Proof. induction 1 as [|x l Hx Hl IH]; [done|]. cbn. by rewrite Hx, IH. Qed.

Lemma in_order_app e q1 q2 : in_order e (q1 ++ q2) = in_order e q1 ++ in_order e q2.
Proof. unfold in_order. by rewrite fmap_app, concat_app. Qed.

Lemma delegates_in_order this e ds l : in_order e (omap (matches d selects this e ds) l) =
  concat ((λ cur, Called cur <$> List.filter (λ o, delegate_for this cur o && wanted d cur e o) ds) <$>
    List.filter (λ cur, is_element d cur && negb (disabled d cur && String.eqb (e_type e) "click")) l).
Proof.
  induction l as [|cur l IH]; [done|]. cbn [omap list_omap List.filter]. unfold matches at 1. destruct (is_element d cur && _); [|done]. cbn [fmap list_fmap concat].
  change (λ o, match ho_selector o with Some sel => selects this sel cur | None => false end) with (delegate_for this cur).
  rewrite <- IH, <- filter_filter. destruct (List.filter (delegate_for this cur) ds) as [|o os]; done.
Qed.

Lemma planned_order this e w : events_ok w →
  in_order e (handlers d selects this e (default {| delegateCount := 0; objs := [] |} (list_at w this (e_type e)))) = planned this e w.
Proof.
  intros Hw. unfold handlers, planned, handlers_at. destruct (list_at w this (e_type e)) as [l|] eqn:E.
  2:{ cbn. clear. induction (looked_at this e); [done|]. cbn. done. }
  destruct (eo_lists _ Hw _ _ _ E) as [H1 H2 [H3 H4] H5]. cbn [default from_option id]. set (ds := take (delegateCount l) (objs l)) in *. set (hs := drop (delegateCount l) (objs l)) in *.
  assert (Eo : objs l = ds ++ hs) by (unfold ds, hs; by rewrite take_drop). rewrite in_order_app. f_equal.
  - assert (Hd : ∀ cur, List.filter (λ o, delegate_for this cur o && wanted d cur e o) (objs l) = List.filter (λ o, delegate_for this cur o && wanted d cur e o) ds).
    { intros cur. rewrite Eo, List.filter_app, (filter_false hs), app_nil_r; [done|]. eapply Forall_impl; [exact H4|]. intros o. unfold has_selector, delegate_for. by destruct (ho_selector o). }
    unfold looked_at. destruct (delegateCount l =? 0)%nat eqn:Ez; cbn [negb andb].
    + apply Nat.eqb_eq in Ez. assert (ds = []) as Eds by (unfold ds; by rewrite Ez). clear -Hd Eds. destruct (e_button e && _); [done|]. induction (List.filter _ (path_below _ _ _)) as [|cur q IH]; [done|].
      cbn. rewrite Hd, Eds. exact IH.
    + rewrite <- negb_andb. destruct (e_button e && String.eqb (e_type e) "click"); cbn [negb]; [done|]. rewrite delegates_in_order. f_equal. apply list_fmap_ext. intros i cur _. by rewrite Hd.
  - rewrite Eo, List.filter_app, (filter_false ds); [|eapply Forall_impl; [exact H3|]; intros o ->; done]. rewrite app_nil_l.
    assert (Eh : List.filter (λ o, negb (has_selector o) && wanted d this e o) hs = List.filter (wanted d this e) hs).
    { apply filter_ext_Forall. eapply Forall_impl; [exact H4|]. intros o ->. done. }
    rewrite Eh. assert (Ed : length ds = delegateCount l) by (unfold ds; rewrite length_take; lia). rewrite length_app, Ed. destruct hs as [|o hs'] eqn:Ehs.
    + assert ((delegateCount l <? delegateCount l + length (@nil handleObj))%nat = false) as -> by (apply Nat.ltb_ge; cbn; lia). done.
    + assert ((delegateCount l <? delegateCount l + length (o :: hs'))%nat = true) as -> by (apply Nat.ltb_lt; cbn; lia). unfold in_order. cbn [fmap list_fmap concat fst snd]. by rewrite app_nil_r.
Qed.

Lemma handlers_all (P : handleObj → Prop) this e l : Forall P (objs l) → Forall (λ el, Forall P el.2) (handlers d selects this e l).
Proof.
  intros H. unfold handlers. apply Forall_app. split.
  - destruct (_ && _); [|constructor]. induction (path_below d this (e_target e)) as [|cur q IH]; [constructor|]. cbn [omap list_omap]. unfold matches at 1. destruct (is_element d cur && _); [|done].
    pose proof (Forall_filter P (λ o, match ho_selector o with Some sel => selects this sel cur | None => false end) _ (Forall_take _ (delegateCount l) _ H)) as Hf.
    destruct (List.filter _ _); [done|]. by constructor.
  - destruct (_ <? _)%nat; [|constructor]. constructor; [|constructor]. by apply Forall_drop.
Qed.
End facts.
