(* ===== verification/EventPages.v ===== *)
(** * Pages with handlers (about JQueryEvents)

    When the types that a page uses are well formed, every operation ends, and what the page binds
    and unbinds comes out as meant: a listener exactly where there are handlers, no handler removed
    that was not meant, all handlers of an event called in order. *)

From S2P Require Import Prelude JSValue Patterns SyntaxBrush JQueryData DataFacts JQueryEvents NamespaceFacts EventFacts.

Section pages.
Context (accepts : nat → bool).
Implicit Types (w : eworld) (n : nat) (type : string).

(** ** Types that are well formed *)

(** Names that stand for themselves in a pattern, or none. *)
Definition well_named (ns : string) : Prop := ns = "" ∨ plain_namespaces ns.
(** A type may be left out when handlers are removed, not when one is bound. *)
Definition word_ok (word : string) : Prop := ∃ t ns, rtypenamespace word = Some (t, ns) ∧ well_named ns.
Definition bind_word (word : string) : Prop := ∃ t ns, rtypenamespace word = Some (t, ns) ∧ t ≠ "" ∧ well_named ns.
Definition op_ok (op : bind_op) : Prop :=
  match op with On _ types _ _ _ => Forall bind_word (type_words types) | Off _ types _ _ => Forall word_ok (type_words types) end.

Lemma words_one cur s : tight s → words_from cur s = if String.eqb (cur +:+ s) "" then [] else [cur +:+ s].
Proof.
  induction s as [|c s IH] in cur |- *; intros H; cbn [words_from]; [by rewrite str_app_nil_r|]. apply Forall_cons in H as [Hc H]. rewrite Hc, IH by done.
  by rewrite str_app_assoc.
Qed.
Lemma type_words_one word : tight word → type_words word = [word].
Proof. intros H. unfold type_words. rewrite words_one by done. cbn. by destruct (String.eqb_spec word "") as [->|]. Qed.

Lemma until_dot_app t s : "."%char ∉ chars t → until_dot (t +:+ s) = (t +:+ (until_dot s).1, (until_dot s).2).
Proof.
  induction t as [|c t IH]; cbn [chars]; intros H; [cbn; by destruct (until_dot s)|]. apply not_elem_of_cons in H as [Hc H]. cbn. destruct (Ascii.eqb_spec c "."); [congruence|]. by rewrite IH.
Qed.
Lemma typed_word t word ns : "."%char ∉ chars t → rtypenamespace word = Some ("", ns) → rtypenamespace (t +:+ word) = Some (t, ns).
Proof.
  intros Ht. unfold rtypenamespace. rewrite until_dot_app by done. destruct (until_dot word) as [a r]. cbn. destruct r as [[|c r]|]; [done|..]; intros [= -> <-]; by rewrite str_app_nil_r.
Qed.
Lemma tight_app s s' : tight s → tight s' → tight (s +:+ s').
Proof. unfold tight. intros H1 H2. rewrite list_ascii_app. by apply Forall_app. Qed.

(** The pattern for namespaces, if there are some. *)
Definition re_of (ns : string) : option pattern :=
  if String.eqb ns "" then None else match namespace_re (namespaces_of ns) with Ret p => Some p | Throw _ => None end.
Lemma re_of_ok ns : well_named ns → (if String.eqb ns "" then Done None else of_res (p ← namespace_re (namespaces_of ns); Ret (Some p))) = Done (re_of ns).
Proof.
  intros H. unfold re_of. destruct (String.eqb_spec ns ""); [done|]. destruct H as [|H]; [done|]. destruct (namespace_re_spec ns "" H) as (p & -> & _); [|done]. repeat constructor.
Qed.

Lemma split_join ns : split_char "." (join "." (namespaces_of ns)) = namespaces_of ns.
Proof.
  change "." with (String "."%char ""). apply split_char_join; [apply namespaces_some|]. apply Forall_sorted. eapply Forall_impl; [apply split_char_free|]. cbn beta.
  intros s Hs. induction s as [|c s IH]; [done|]. cbn in Hs |- *. apply not_elem_of_cons in Hs as [Hc Hs]. rewrite IH by done. destruct (Ascii.eqb_spec c "."); [congruence|done].
Qed.

(** Joined in another order, namespaces are still well formed, and the others as much among them. *)
Lemma well_joined ns : well_named ns → well_named (join "." (namespaces_of ns)).
Proof.
  intros [->|H]; [by left|]. right. unfold plain_namespaces. rewrite split_join. by apply Forall_sorted.
Qed.

(** ** Handlers that are well formed *)

Definition obj_named (o : handleObj) : Prop :=
  ∃ t, ho_origType o = Some t ∧ t ≠ "" ∧ tight t ∧ "."%char ∉ chars t ∧ well_named (ho_namespace o) ∧ tight (ho_namespace o).
Definition named w : Prop := ∀ n type o, o ∈ handlers_at w n type → type ≠ "" ∧ obj_named o.
Definition bound_ok w : Prop := events_ok w ∧ named w.
(** No handler has been added. *)
Definition fewer w w' : Prop := ∀ n type o, o ∈ handlers_at w' n type → o ∈ handlers_at w n type.
Lemma fewer_named w w' : fewer w w' → named w → named w'.
Proof. intros Hf Hn n type o Ho. by apply (Hn n), Hf. Qed.

Lemma each_word_done {A B} (P : B → Prop) (f : A → B → outcome B) l :
  (∀ a b, a ∈ l → P b → ∃ b', f a b = Done b' ∧ P b') → ∀ b, P b → ∃ b', each_word f l b = Done b' ∧ P b'.
Proof.
  intros Hf. induction l as [|a l IH]; intros b Hb; cbn [each_word]; [by eexists|]. destruct (Hf a b) as (b1 & -> & H1); [left|done|]. cbn. apply IH; [|done].
  intros a' b' Ha'. apply Hf. by right.
Qed.

(** ** Unbinding ends *)

Lemma remove_type_fewer n type test w : events_ok w → fewer w (remove_type n type test w).
Proof.
  intros Hw n' type' o. destruct (remove_type_ok n type test w Hw) as (_ & _ & ->). destruct (decide _) as [[-> ->]|]; [|done].
  intros Ho%list_elem_of_In. apply List.filter_In in Ho as [Ho _]. by apply list_elem_of_In.
Qed.

(** Words with a type: the handlers of the type are looked through. *)
Lemma remove_typed depth n word t ns guid selector mapped w : tight word → rtypenamespace word = Some (t, ns) → t ≠ "" → well_named ns → is_Some (ev w !! n) →
  event_remove (S depth) n word guid selector mapped w =
  Done (drop_empty n (remove_type n (mapped_type (if_selector selector) t) (removes mapped t guid (re_of ns) (if_selector selector)) w)).
Proof.
  intros Ht Hr Hne Hn [evs Hev]. cbn [event_remove]. rewrite Hev, type_words_one by done. cbn [rev app each_word]. rewrite Hr. destruct t as [|c t]; [done|]. by rewrite re_of_ok by done.
Qed.

Lemma remove_typed_fewer depth n word t ns guid selector mapped w : events_ok w → tight word → rtypenamespace word = Some (t, ns) → t ≠ "" → well_named ns →
  ∃ w', event_remove (S depth) n word guid selector mapped w = Done w' ∧ events_ok w' ∧ fewer w w'.
Proof.
  intros Hw Ht Hr Hne Hn. destruct (ev w !! n) as [evs|] eqn:E.
  - rewrite (remove_typed depth n word t ns) by done. eexists. split; [done|]. set (type := mapped_type _ t). set (test := removes _ _ _ _ _).
    destruct (remove_type_ok n type test w Hw) as (H1 & _ & _). destruct (drop_empty_ok n _ H1) as [H2 H3]. split; [done|]. intros n' type' o. rewrite H3. by apply remove_type_fewer.
  - cbn [event_remove]. rewrite E. eexists. split; [done|]. split; [done|]. by intros n' type' o.
Qed.

Lemma events_key n w type : type ∈ (events_of n w).*1 → is_Some (list_at w n type).
Proof.
  unfold list_at. induction (events_of n w) as [|[k l] evs IH]; [by intros ?%not_elem_of_nil|]. cbn [fmap list_fmap fst assoc]. intros [->|H]%elem_of_cons; [rewrite String.eqb_refl; by eexists|].
  destruct (String.eqb type k); [by eexists|by apply IH].
Qed.

(** Without a type [remove] calls itself for the types of the element, which are there, have a name and no dot. *)
Lemma event_remove_done n types guid selector w : bound_ok w → Forall word_ok (type_words types) →
  ∃ w', event_remove remove_depth n types guid selector false w = Done w' ∧ events_ok w' ∧ fewer w w'.
Proof.
  intros [Hw Hn] Ht. unfold remove_depth. set (depth := 1). cbn [event_remove]. destruct (ev w !! n) as [evs|]; [|eexists; split; [done|]; split; [done|]; by intros n' type' o].
  destruct (each_word_done (λ w', events_ok w' ∧ fewer w w') (λ word w, match rtypenamespace word with
      | None | Some ("", _) => each_word (λ type w, event_remove depth n (type +:+ word) guid selector true w) (events_of n w).*1 w
      | Some (origType, ns) => re ← (if String.eqb ns "" then Done None else of_res (p ← namespace_re (namespaces_of ns); Ret (Some p)));
          Done (remove_type n (mapped_type (if_selector selector) origType) (removes false origType guid re (if_selector selector)) w) end)
    (rev (type_words types))) with (b := w) as (w' & E & H1 & H2).
  - intros word w1 Hin [H1 H2]. apply list_elem_of_In, in_rev, list_elem_of_In in Hin. rewrite Forall_forall in Ht. destruct (Ht _ Hin) as (t & ns & Hr & Hns). rewrite Hr.
    assert (Hword : tight word) by (pose proof (type_words_tight types) as H; rewrite Forall_forall in H; by apply H). destruct t as [|c t].
    + apply each_word_done; [|done]. intros type w2 Htype [H3 H4]. destruct (events_key _ _ _ Htype) as [l Hl]. destruct (eo_types _ H1 _ _ _ Hl) as [T1 T2].
      assert (type ≠ "") as T3. { destruct (handlers_at w1 n type) as [|o os] eqn:E; [apply handlers_nil in E; [congruence|done]|]. apply (Hn n type o). apply H2. rewrite E. left. }
      subst depth. destruct (remove_typed_fewer 0 n (type +:+ word) type ns guid selector true w2) as (w3 & -> & H5 & H6); try done; [by apply tight_app|by apply typed_word|].
      eexists. split; [done|]. split; [done|]. intros n' type' o Ho. by apply H4, H6.
    + rewrite re_of_ok by done. eexists. split; [done|]. split; [by apply remove_type_ok|]. intros n' type' o Ho. apply H2. by apply remove_type_fewer in Ho.
  - split; [done|]. by intros n' type' o.
  - rewrite E. cbn. eexists. split; [done|]. destruct (drop_empty_ok n w' H1) as [H3 H4]. split; [done|]. intros n' type' o. rewrite H4. apply H2.
Qed.

Lemma off_done ns types selector f w : bound_ok w → Forall word_ok (type_words types) → ∃ w', off ns types selector f w = Done w' ∧ bound_ok w'.
Proof.
  intros Hw Ht. unfold off. apply (each_word_done bound_ok); [|done]. intros n w1 _ H1. destruct (event_remove_done n types (fn_guid w1 <$> f) selector w1 H1 Ht) as (w2 & -> & H2 & H3).
  eexists. split; [done|]. split; [done|]. destruct H1. by eapply fewer_named.
Qed.

(** ** Binding *)

Lemma mapped_some selector t : t ≠ "" → mapped_type selector t ≠ "".
Proof. intros H. unfold mapped_type, delegateType, bindType. destruct selector; repeat case_match; done. Qed.

Lemma insert_in o o' l : o' ∈ objs (insert_handler o l) ↔ o' = o ∨ o' ∈ objs l.
Proof.
  unfold insert_handler. destruct (ho_selector o); cbn [objs]; [|rewrite elem_of_app, list_elem_of_singleton; tauto].
  rewrite <- (take_drop (delegateCount l) (objs l)) at 3. rewrite !elem_of_app, elem_of_cons. tauto.
Qed.

Lemma join_tight l : Forall tight l → tight (join "." l).
Proof.
  induction 1 as [|s l Hs Hl IH]; [constructor|]. destruct l as [|s' l]; [done|]. change (join "." (s :: s' :: l)) with (s +:+ "." +:+ join "." (s' :: l)). apply tight_app; [done|]. apply tight_app; [repeat constructor|done].
Qed.
Lemma split_tight ns : tight ns → Forall tight (split_char "." ns).
Proof.
  induction ns as [|c ns IH]; cbn [split_char]; [repeat constructor|]. intros H. apply Forall_cons in H as [Hc H]. specialize (IH H). destruct (Ascii.eqb c "."); [constructor; [constructor|done]|].
  destruct (split_char "." ns) as [|p l]; [repeat constructor; done|]. apply Forall_cons in IH as [H1 H2]. constructor; [|done]. by constructor.
Qed.

Lemma add_type_named n h g selector word w : bound_ok w → fn_guid w (origin h) = Some g → tight word → bind_word word →
  bound_ok (add_type n h g selector word w) ∧ fn_guid (add_type n h g selector word w) = fn_guid w.
Proof.
  intros [Hw Hn] Hg Ht (t & ns & Hr & Hne & Hns). destruct (add_type_ok n h g selector word w Hw Hg Ht) as (H1 & H2 & H3). split; [|done]. split; [done|].
  intros n' type' o. unfold handlers_at. rewrite H3. destruct (decide _) as [[-> ->]|]; [|apply (Hn n' type')]. assert (Ho : orig_of word = Some t) by (unfold orig_of; by rewrite Hr).
  assert (Hnew : type_of selector word ≠ "") by (unfold type_of; rewrite Ho; by apply mapped_some). rewrite insert_in. intros [->|Hin]; (split; [done|]).
  - destruct (rtype_tight _ _ _ Ht Hr) as (T1 & T2 & T3). exists t. cbn. unfold ns_of. rewrite Hr. split; [done|]. split; [done|]. split; [done|]. split; [done|]. split; [by apply well_joined|].
    apply join_tight, Forall_sorted. by apply split_tight.
  - apply (Hn n (type_of selector word)). unfold handlers_at. by destruct (list_at w n (type_of selector word)).
Qed.

Lemma ensure_named f w : bound_ok w → bound_ok (ensure_guid f w).2 ∧ fn_guid (ensure_guid f w).2 f = Some (ensure_guid f w).1.
Proof.
  intros [Hw Hn]. pose proof (ensure_guid_ok f w Hw) as Hg. destruct (ensure_guid f w) as [g w1]. destruct Hg as (H1 & H2 & H3 & _). split; [|done]. split; [done|].
  intros n type o. unfold handlers_at. cbn. rewrite H3. apply (Hn n type).
Qed.

Lemma event_add_named n types h selector w : bound_ok w → Forall bind_word (type_words types) → bound_ok (event_add accepts n types h selector w).
Proof.
  intros Hw Ht. unfold event_add. destruct (accepts n); [|done]. destruct (ensure_named (origin h) w Hw) as [[H1 H2] H3]. destruct (ensure_guid (origin h) w) as [g w1]. cbn [fst snd] in *.
  set (w2 := set_ev _ w1). assert (Hw2 : bound_ok w2 ∧ fn_guid w2 (origin h) = Some g).
  { split; [|done]. split; [eapply (events_ok_same w1); try done; apply list_at_same|]. intros n' type' o. unfold handlers_at, w2. rewrite list_at_same. apply (H2 n' type'). }
  assert (Hwords : Forall (λ word, tight word ∧ bind_word word) (rev (type_words types))).
  { apply Forall_rev. rewrite Forall_forall in Ht |- *. intros word Hin. pose proof (type_words_tight types) as Htw. rewrite Forall_forall in Htw. auto. }
  clearbody w2. clear -Hw2 Hwords. induction Hwords as [|word words [T1 T2] Hwords IH] in w2, Hw2 |- *; cbn [foldl]; [apply Hw2|]. apply IH. destruct Hw2 as [H1 H2].
  destruct (add_type_named n h g (if_selector selector) word w2) as [H3 H4]; try done. by rewrite H4.
Qed.
Lemma on_named ns types selector f one w : bound_ok w → Forall bind_word (type_words types) → bound_ok (on accepts ns types selector f one w).
Proof.
  intros Hw Ht. unfold on. assert (H1 : bound_ok (if one then (ensure_guid f w).2 else w)) by (destruct one; [by apply ensure_named|done]).
  revert H1. generalize (if one then (ensure_guid f w).2 else w) as w1. induction ns as [|n ns IH]; intros w1 H1; cbn [foldl]; [done|]. by apply IH, event_add_named.
Qed.

Lemma do_bind_done op w : bound_ok w → op_ok op → ∃ w', do_bind accepts op w = Done w' ∧ bound_ok w'.
Proof.
  intros Hw. destruct op as [ns types selector f one|ns types selector f]; cbn [do_bind op_ok]; intros Ht; [eexists; split; [done|]; by apply on_named|by apply off_done].
Qed.

(** ** Dispatch ends *)

Context (d : document) (selects : nat → string → nat → bool) (user : nat → nat → event → eworld → reaction).
(** The functions of the page bind and unbind with types that are well formed. *)
Hypothesis user_ok : ∀ k elem e w, Forall op_ok (u_ops (user k elem e w)).

Lemma run_fn_done f elem e w : bound_ok w → ∃ r e' w', run_fn accepts user f elem e w = Done (r, e', w') ∧ bound_ok w'.
Proof.
  intros Hw. destruct f as [k|]; cbn [run_fn]; [|by do 3 eexists]. destruct (each_word_done bound_ok (do_bind accepts) (u_ops (user k elem e w))) with (b := w) as (w' & -> & H); [|done|by do 3 eexists].
  intros op w1 Hin H1. apply do_bind_done; [done|]. pose proof (user_ok k elem e w) as Hu. rewrite Forall_forall in Hu. by apply Hu.
Qed.

Lemma off_types_ok o : obj_named o → Forall word_ok (type_words (off_types o)).
Proof.
  intros (t & Ho & T1 & T2 & T3 & T4 & T5). unfold off_types. rewrite Ho. cbn [default from_option id]. destruct (String.eqb_spec (ho_namespace o) "") as [E|E].
  - rewrite type_words_one by done. repeat constructor. exists t, "". split; [|by left]. pose proof (typed_word t "" "" T3 eq_refl) as H. by rewrite str_app_nil_r in H.
  - rewrite type_words_one by (apply tight_app; [done|]; apply tight_app; [repeat constructor|done]). repeat constructor. exists t, (ho_namespace o). split; [|done]. apply typed_word; [done|].
    unfold rtypenamespace. cbn. by destruct (ho_namespace o).
Qed.

Lemma apply_handler_done this o elem e w : bound_ok w → obj_named o → ∃ r e' w', apply_handler accepts user this o elem e w = Done (r, e', w') ∧ bound_ok w'.
Proof.
  intros Hw Ho. unfold apply_handler. destruct (ho_handler o) as [f|f]; [by apply run_fn_done|]. destruct (off_done [this] (off_types o) (ho_selector o) (Some f) w) as (w1 & -> & H1); [done|by apply off_types_ok|].
  by apply run_fn_done.
Qed.
Lemma call_handler_done this o elem e w : bound_ok w → obj_named o → ∃ r e' w', call_handler accepts user this o elem e w = Done (r, e', w') ∧ bound_ok w'.
Proof.
  intros Hw Ho. unfold call_handler. destruct (is_enter o); [|by apply apply_handler_done].
  destruct (apply_handler_done this o elem (set_type (default "" (ho_origType o)) e) w Hw Ho) as (r & e' & w' & -> & H). by do 3 eexists.
Qed.
Lemma run_handlers_done this elem l : Forall obj_named l → ∀ e w, bound_ok w → ∃ cs e' w', run_handlers accepts d user this elem l e w = Done (cs, e', w') ∧ bound_ok w'.
Proof.
  induction 1 as [|o l Ho Hl IH]; intros e w Hw; cbn [run_handlers]; [by do 3 eexists|]. destruct (e_stoppedNow e); [by do 3 eexists|]. destruct (wanted d elem e o); [|by apply IH].
  destruct (call_handler_done this o elem e w Hw Ho) as (r & e1 & w1 & -> & H1). cbn. destruct (IH (after_return r e1) w1 H1) as (cs & e2 & w2 & -> & H2). cbn. by do 3 eexists.
Qed.
Lemma run_queue_done this q : Forall (λ el, Forall obj_named el.2) q → ∀ e w, bound_ok w → ∃ cs e' w', run_queue accepts d user this q e w = Done (cs, e', w') ∧ bound_ok w'.
Proof.
  induction 1 as [|[elem l] q Hl Hq IH]; intros e w Hw; cbn [run_queue]; [by do 3 eexists|]. destruct (e_stopped e); [by do 3 eexists|].
  destruct (run_handlers_done this elem l Hl e w Hw) as (cs & e1 & w1 & -> & H1). cbn. destruct (IH e1 w1 H1) as (cs2 & e2 & w2 & -> & H2). cbn. by do 3 eexists.
Qed.
Lemma dispatch_done this e w : bound_ok w → ∃ cs e' w', dispatch accepts d selects user this e w = Done (cs, e', w') ∧ bound_ok w'.
Proof.
  intros Hw. unfold dispatch. apply run_queue_done; [|done]. apply handlers_all. apply Forall_forall. intros o Ho. destruct Hw as [_ Hn]. apply (Hn this (e_type e)).
  unfold handlers_at, list_at. by destruct (assoc (e_type e) (events_of this w)).
Qed.

(** ** Pages *)

(** The namespaces of a type that is triggered stand for themselves. *)
Definition trigger_ok (types : string) : Prop := Forall (λ s, plain_text (chars s)) (trigger_type types).2.


Lemma run_path_done type path : ∀ first e w, bound_ok w → ∃ cs e' w', run_path accepts d selects user type path first e w = Done (cs, e', w') ∧ bound_ok w'.
Proof.
  induction path as [|cur path IH]; intros first e w Hw; cbn [run_path]; [by do 3 eexists|]. destruct (e_stopped e); [by do 3 eexists|]. set (e1 := set_type _ e).
  assert (∃ cs e' w', match assoc (e_type e1) (events_of cur w) with Some _ => dispatch accepts d selects user cur e1 w | None => Done ([], e1, w) end = Done (cs, e', w') ∧ bound_ok w') as (cs & e2 & w2 & -> & H2).
  { destruct (assoc _ _); [by apply dispatch_done|by do 3 eexists]. }
  rewrite Done_bind. destruct (if has_char ":" type then None else inline d cur type) as [k|]; [destruct (accepts cur)|].
  - destruct (run_fn_done (PageFn k) cur e2 w2 H2) as (r & e3 & w3 & -> & H3). rewrite !Done_bind. destruct (IH false (match r with False_ => mark false false true e3 | _ => e3 end) w3 H3) as (cs' & e4 & w4 & -> & H4). cbn. by do 3 eexists.
  - rewrite Done_bind. destruct (IH false e2 w2 H2) as (cs' & e4 & w4 & -> & H4). cbn. by do 3 eexists.
  - rewrite Done_bind. destruct (IH false e2 w2 H2) as (cs' & e4 & w4 & -> & H4). cbn. by do 3 eexists.
Qed.

Lemma trigger_done types n onlyHandlers w : bound_ok w → trigger_ok types → ∃ cs e' w', trigger accepts d selects user types n onlyHandlers w = Done (cs, e', w') ∧ bound_ok w'.
Proof.
  intros Hw. unfold trigger_ok, trigger. destruct (trigger_type types) as [type namespaces]. cbn [snd]. intros Ht. destruct (is_text d n); [by do 3 eexists|].
  assert (∃ re, (if String.eqb (join "." namespaces) "" then Done None else of_res (p ← namespace_re namespaces; Ret (Some p))) = Done re) as [re ->].
  { destruct (String.eqb_spec (join "." namespaces) ""); [by eexists|]. unfold namespace_re. rewrite chars_source by (by intros ->). rewrite RegExp_names by (by apply Forall_fmap). by eexists. }
  rewrite Done_bind. destruct (negb onlyHandlers && special_trigger d type n); [by do 3 eexists|].
  match goal with |- context[run_path _ _ _ _ _ ?p true ?e w] => destruct (run_path_done type p true e w Hw) as (cs & e1 & w1 & -> & H1) end. cbn. by do 3 eexists.
Qed.

(** What happens to a page: it binds and unbinds, events come from the browser to an element, and it triggers events. *)
Inductive page_op := Bind (op : bind_op) | Comes (this : nat) (e : event) | Triggers (types : string) (n : nat) (onlyHandlers : bool).
Definition page_op_ok (op : page_op) : Prop := match op with Bind op => op_ok op | Comes _ _ => True | Triggers types _ _ => trigger_ok types end.
Definition page_step (op : page_op) w : outcome (list ecall * eworld) :=
  match op with
  | Bind op => w ← do_bind accepts op w; Done ([], w)
  | Comes this e => '(cs, _, w) ← dispatch accepts d selects user this e w; Done (cs, w)
  | Triggers types n onlyHandlers => '(cs, _, w) ← trigger accepts d selects user types n onlyHandlers w; Done (cs, w)
  end.
Definition page_run (ops : list page_op) (cw : list ecall * eworld) : outcome (list ecall * eworld) :=
  each_word (λ op cw, '(cs, w) ← page_step op cw.2; Done (cw.1 ++ cs, w)) ops cw.
Definition no_handlers : eworld := {| ev := ∅; fn_guid := λ _, None; e_guid := 1; listening := [] |}.

Lemma no_handlers_ok : bound_ok no_handlers.
Proof.
  assert (H : ∀ n type, list_at no_handlers n type = None) by (intros n type; unfold list_at, events_of; cbn; by rewrite lookup_empty). split.
  - split; try (intros *; by rewrite H); [|constructor|done|done]. intros n type. rewrite H. split; [by intros ?%not_elem_of_nil|by intros []].
  - intros n type o. unfold handlers_at. rewrite H. by intros ?%not_elem_of_nil.
Qed.

Lemma page_step_done op w : bound_ok w → page_op_ok op → ∃ cs w', page_step op w = Done (cs, w') ∧ bound_ok w'.
Proof.
  intros Hw. destruct op as [op|this e|types n onlyHandlers]; cbn [page_op_ok page_step]; intros Ho.
  - destruct (do_bind_done op w Hw Ho) as (w' & -> & H). by do 2 eexists.
  - destruct (dispatch_done this e w Hw) as (cs & e' & w' & -> & H). by do 2 eexists.
  - destruct (trigger_done types n onlyHandlers w Hw Ho) as (cs & e' & w' & -> & H). by do 2 eexists.
Qed.

(** C16. Whatever a page binds, unbinds and triggers with types that are well formed, and whatever events come
    meanwhile, every operation ends; then an element listens for a type, once, exactly when it has handlers for it, the handlers
    of a list are for its type, its delegates are in front and counted, and no two functions have the same number. *)
Theorem bindings_kept ops : Forall page_op_ok ops → ∃ cs w, page_run ops ([], no_handlers) = Done (cs, w) ∧
  (∀ n type, (n, type) ∈ listening w ↔ handlers_at w n type ≠ []) ∧ NoDup (listening w) ∧
  (∀ n type l, list_at w n type = Some l → list_ok type l) ∧ (∀ f f' g, fn_guid w f = Some g → fn_guid w f' = Some g → f = f').
Proof.
  intros Ho. destruct (each_word_done (λ cw : list ecall * eworld, bound_ok cw.2) (λ op cw, '(cs, w) ← page_step op cw.2; Done (cw.1 ++ cs, w)) ops) with (b := (@nil ecall, no_handlers)) as ([cs w] & E & Hw & _).
  - intros op [cs w] Hin Hw. rewrite Forall_forall in Ho. destruct (page_step_done op w Hw (Ho _ Hin)) as (cs' & w' & E & H). cbn [fst snd]. rewrite E. by eexists.
  - apply no_handlers_ok.
  - exists cs, w. cbn [snd] in Hw. split; [exact E|]. split; [|split; [by apply eo_once|split; [apply (eo_lists _ Hw)|apply (eo_own _ Hw)]]].
    intros n type. rewrite (eo_listen _ Hw), handlers_nil by done. rewrite <- not_eq_None_Some. done.
Qed.

Lemma dispatch_planned this e w cs e' w' : events_ok w → e_stoppedNow e = false → dispatch accepts d selects user this e w = Done (cs, e', w') →
  cs `prefix_of` planned d selects this e w ∧ (e_stopped e' = false → cs = planned d selects this e w).
Proof using Type.
  intros Hw Hs E. unfold dispatch in E. apply run_queue_order in E as (_ & _ & H1 & H2); [|by rewrite Hs]. by rewrite <- planned_order.
Qed.

End pages.

(** ** What is unbound *)

(** The pattern for namespaces asks for all of them. *)
Lemma re_meant ns o w : well_named ns → obj_ok w o → match re_of ns with Some p => re_test p (ho_namespace o) | None => true end = String.eqb ns "" || bool_decide (split_char "." ns ⊆+ split_char "." (ho_namespace o)).
Proof.
  intros Hn [_ (ns' & En & Ht)]. unfold re_of. destruct (String.eqb_spec ns ""); [done|]. destruct Hn as [|Hp]; [done|]. destruct (namespace_re_spec ns ns' Hp (tight_one_line _ Ht)) as (p & -> & H). cbn [orb].
  rewrite En. apply eq_bool_prop_intro. rewrite bool_decide_spec, Is_true_true, H, split_join. unfold namespaces_of. by rewrite sort_strings_perm.
Qed.

Section meant.
Context (t ns : string) (selector : option string).
Hypothesis (t_some : t ≠ "") (t_tight : tight t) (t_plain : ("."%char ∉ chars t)) (ns_tight : tight ns) (ns_named : well_named ns).
Implicit Types (w : eworld) (n : nat) (type : string).

(** The type with its namespaces, as a page writes it. *)
Definition word_of : string := if String.eqb ns "" then t else t +:+ "." +:+ ns.

(** The handlers that are meant: of this type, of the function if one is given, with all of the namespaces, and with the
    selector if one is given, or with any if it is [**]. *)
Definition meant (f : option fid) (o : handleObj) : bool :=
  bool_decide (ho_origType o = Some t) && match f with Some f => bool_decide (origin (ho_handler o) = f) | None => true end &&
  (String.eqb ns "" || bool_decide (split_char "." ns ⊆+ split_char "." (ho_namespace o))) &&
  match if_selector selector with Some s => bool_decide (ho_selector o = Some s) || String.eqb s "**" && has_selector o | None => true end.

Lemma word_of_tight : tight word_of.
Proof using ns_tight t_tight. unfold word_of. destruct (String.eqb ns ""); [done|]. apply tight_app; [done|]. apply tight_app; [repeat constructor|done]. Qed.
Lemma word_of_parts : rtypenamespace word_of = Some (t, ns).
Proof using t_plain.
  clear ns_tight ns_named. unfold word_of. destruct (String.eqb_spec ns "") as [E|E]; [pose proof (typed_word t "" "" t_plain eq_refl) as H; rewrite str_app_nil_r in H; by rewrite E|].
  apply typed_word; [done|]. unfold rtypenamespace. cbn. by destruct ns.
Qed.

(** The test of [remove] is true of the handlers that are meant. *)
Lemma removes_meant f w o : events_ok w → obj_ok w o → removes false t (fn_guid w <$> f) (re_of ns) (if_selector selector) o = meant f o.
Proof using ns_named.
  intros Hw Ho. pose proof Ho as [Hg _]. unfold removes, meant. cbn [orb]. f_equal. f_equal; [f_equal|].
  - destruct f as [f|]; [|done]. cbn. apply bool_decide_ext. split; [intros E; by apply (eo_own _ Hw _ _ (ho_guid o))|by intros <-].
  - by apply (re_meant ns o w).
Qed.

(** The handlers of one element. *)
Lemma remove_exact n f w : events_ok w → ∃ w', event_remove remove_depth n word_of (fn_guid w <$> f) selector false w = Done w' ∧ events_ok w' ∧
  ∀ n' type', handlers_at w' n' type' = if decide (n' = n ∧ type' = mapped_type (if_selector selector) t) then List.filter (λ o, negb (meant f o)) (handlers_at w n' type') else handlers_at w n' type'.
Proof using ns_named ns_tight t_plain t_some t_tight.
  intros Hw. set (type := mapped_type _ t). destruct (ev w !! n) as [evs|] eqn:E.
  - unfold remove_depth. rewrite (remove_typed 1 n word_of t ns) by (first [apply word_of_tight|apply word_of_parts|done|rewrite E; by eexists]). fold type. eexists. split; [done|].
    destruct (remove_type_ok n type (removes false t (fn_guid w <$> f) (re_of ns) (if_selector selector)) w Hw) as (H1 & _ & H3). destruct (drop_empty_ok n _ H1) as [H4 H5]. split; [done|].
    intros n' type'. rewrite H5, H3. destruct (decide _) as [[-> ->]|]; [|done]. apply filter_ext_Forall. unfold handlers_at. destruct (list_at w n type) as [l|] eqn:El; [|constructor].
    eapply Forall_impl; [exact (eo_objs _ Hw _ _ _ El)|]. intros o Ho. cbn beta. by rewrite removes_meant.
  - unfold remove_depth. cbn [event_remove]. rewrite E. eexists. split; [done|]. split; [done|]. intros n' type'. destruct (decide _) as [[-> _]|]; [|done]. unfold handlers_at, list_at, events_of. by rewrite E.
Qed.

(** C18. Unbinding removes exactly the handlers that are meant, those with the type, the function, all
    of the namespaces and the selector that are given; all others of the elements, of their other types and of other elements
    are kept in order. *)
Theorem off_exact ns' f w : events_ok w → ∃ w', off ns' word_of selector f w = Done w' ∧ events_ok w' ∧
  ∀ n type, handlers_at w' n type = if decide (n ∈ ns' ∧ type = mapped_type (if_selector selector) t) then List.filter (λ o, negb (meant f o)) (handlers_at w n type) else handlers_at w n type.
Proof using ns_named ns_tight t_plain t_some t_tight.
  unfold off. induction ns' as [|n ns' IH] in w |- *; intros Hw; cbn [each_word].
  - eexists. split; [done|]. split; [done|]. intros n type. rewrite decide_False; [done|]. by intros [?%not_elem_of_nil _].
  - destruct (remove_exact n f w Hw) as (w1 & -> & H1 & H2). rewrite Done_bind. destruct (IH w1 H1) as (w2 & -> & H3 & H4). exists w2. split; [done|]. split; [done|].
    intros n' type. rewrite H4, H2. destruct (decide (type = mapped_type (if_selector selector) t)) as [->|Ht]; [|by rewrite !decide_False by (by intros [_ ?])].
    destruct (decide (n' = n)) as [->|Hn].
    + rewrite (decide_True (P := n = n ∧ _)), (decide_True (P := n ∈ n :: ns' ∧ _)) by (split; [first [done|left]|done]). destruct (decide _); [|done]. rewrite filter_filter. apply List.filter_ext. intros o. apply andb_diag.
    + rewrite (decide_False (P := n' = n ∧ _)) by (by intros [? _]). destruct (decide (n' ∈ ns' ∧ _)) as [[Hin _]|Hin].
      * rewrite decide_True; [done|]. split; [by right|done].
      * rewrite decide_False; [done|]. intros [[?|?]%elem_of_cons _]; [done|]. by apply Hin.
Qed.

(** A handler that is bound is one that is meant. *)
Lemma bound_meant h g : meant (Some (origin h)) (obj_of h g (if_selector selector) word_of) = true.
Proof using t_plain.
  clear ns_tight ns_named. unfold meant, obj_of, orig_of, ns_of. cbn [ho_origType ho_handler ho_namespace ho_selector]. rewrite word_of_parts. cbn [fmap option_fmap option_map fst].
  rewrite !bool_decide_true by done. rewrite split_join, (bool_decide_true (split_char "." ns ⊆+ _)) by (unfold namespaces_of; by rewrite sort_strings_perm). rewrite orb_true_r. destruct (if_selector selector); [|done]. by rewrite bool_decide_true.
Qed.

Lemma insert_filter o l f : f o = true → Forall (λ o, f o = false) (objs l) → List.filter (λ o, negb (f o)) (objs (insert_handler o l)) = objs l.
Proof.
  intros Ho Hl. assert (Hall : ∀ k, Forall (λ o, f o = false) k → List.filter (λ o, negb (f o)) k = k) by (intros k Hk; apply filter_true; eapply Forall_impl; [exact Hk|]; by intros x ->).
  unfold insert_handler. destruct (ho_selector o); cbn [objs]; rewrite List.filter_app; cbn [List.filter]; rewrite Ho; cbn [negb].
  - rewrite !Hall by (first [by apply Forall_take|by apply Forall_drop]). apply take_drop.
  - by rewrite Hall, app_nil_r.
Qed.

(** One handler is bound. *)
Lemma event_add_one accepts n h w : events_ok w → accepts n = true → ∃ g, events_ok (event_add accepts n word_of h selector w) ∧ ∀ n' type', list_at (event_add accepts n word_of h selector w) n' type' =
  if decide (n' = n ∧ type' = type_of (if_selector selector) word_of) then Some (insert_handler (obj_of h g (if_selector selector) word_of) (default {| delegateCount := 0; objs := [] |} (list_at w n type')))
  else list_at w n' type'.
Proof using ns_tight t_tight.
  intros Hw Ha. unfold event_add. rewrite Ha. pose proof (ensure_guid_ok (origin h) w Hw) as Hg. destruct (ensure_guid (origin h) w) as [g w1]. destruct Hg as (H1 & H2 & H3 & _).
  rewrite type_words_one by apply word_of_tight. cbn [rev app foldl]. set (w2 := set_ev _ w1). assert (events_ok w2) as Hw2 by (eapply (events_ok_same w1); try done; apply list_at_same).
  destruct (add_type_ok n h g (if_selector selector) word_of w2 Hw2 H2 word_of_tight) as (H4 & _ & H5). exists g. split; [done|]. intros n' type'. rewrite H5. unfold w2. rewrite !list_at_same, !H3.
  by destruct (decide _) as [[-> ->]|].
Qed.
Lemma on_one accepts n f one w : events_ok w → accepts n = true → let w1 := on accepts [n] word_of selector f one w in ∃ h g, origin h = f ∧ events_ok w1 ∧ ∀ n' type', list_at w1 n' type' =
  if decide (n' = n ∧ type' = type_of (if_selector selector) word_of) then Some (insert_handler (obj_of h g (if_selector selector) word_of) (default {| delegateCount := 0; objs := [] |} (list_at w n type')))
  else list_at w n' type'.
Proof using ns_tight t_tight.
  intros Hw Ha. cbn zeta. unfold on. cbn [foldl]. set (h := if one then Once f else Direct f). set (w0 := if one then (ensure_guid f w).2 else w).
  assert (events_ok w0 ∧ ∀ n type, list_at w0 n type = list_at w n type) as [H0 Hl].
  { subst w0. destruct one; [|done]. pose proof (ensure_guid_ok f w Hw) as Hg. destruct (ensure_guid f w). by destruct Hg as (H1 & _ & H2 & _). }
  destruct (event_add_one accepts n h w0 H0 Ha) as (g & H1 & H2). exists h, g. split; [by destruct one|]. split; [done|]. intros n' type'. by rewrite H2, !Hl.
Qed.

(** A function that an element does not have yet, bound and unbound again with the same type, namespaces
    and selector, leaves the handlers as they were. *)
Theorem on_off accepts n f one w : events_ok w → accepts n = true → (∀ type o, o ∈ handlers_at w n type → origin (ho_handler o) ≠ f) →
  ∃ w', off [n] word_of selector (Some f) (on accepts [n] word_of selector f one w) = Done w' ∧ ∀ n' type', handlers_at w' n' type' = handlers_at w n' type'.
Proof using ns_named ns_tight t_plain t_some t_tight.
  intros Hw Ha Hnew. destruct (on_one accepts n f one w Hw Ha) as (h & g & Eh & H1 & Hl). set (w1 := on accepts [n] word_of selector f one w) in *.
  destruct (remove_exact n (Some f) w1 H1) as (w2 & E & _ & H2). exists w2. split; [unfold off; cbn [each_word]; by rewrite E|]. intros n' type'. rewrite H2. unfold handlers_at. rewrite Hl.
  assert (type_of (if_selector selector) word_of = mapped_type (if_selector selector) t) as -> by (unfold type_of, orig_of; by rewrite word_of_parts).
  destruct (decide _) as [[-> ->]|]; [|done]. rewrite insert_filter; [|rewrite <- Eh; apply bound_meant|].
  - by destruct (list_at w n _).
  - set (type := mapped_type _ t). destruct (list_at w n type) as [l|] eqn:El; [|constructor]. cbn. apply Forall_forall. intros o Ho. unfold meant.
    rewrite (bool_decide_false (origin (ho_handler o) = f)); [by rewrite andb_false_r|]. apply (Hnew type). unfold handlers_at. by rewrite El.
Qed.
End meant.

(** ** What is triggered *)

Section triggered.
Context (accepts : nat → bool) (d : document) (selects : nat → string → nat → bool) (user : nat → nat → event → eworld → reaction).
Hypothesis user_ok : ∀ k elem e w, Forall op_ok (u_ops (user k elem e w)).
Implicit Types (w : eworld) (n : nat).

Lemma split_free c s : c ∉ chars s → split_char c s = [s].
Proof using Type.
  induction s as [|a s IH]; [done|]. intros [Ha H]%not_elem_of_cons. cbn [split_char]. destruct (Ascii.eqb_spec a c); [congruence|]. by rewrite IH.
Qed.
Lemma trigger_word t ns : ("."%char ∉ chars t) → trigger_type (word_of t ns) = (t, if String.eqb ns "" then [] else namespaces_of ns).
Proof using Type.
  intros Ht. unfold trigger_type, word_of. destruct (String.eqb_spec ns ""); [by rewrite split_free|]. change (t +:+ "." +:+ ns) with (t +:+ String "." ns). rewrite split_char_line.
  - unfold namespaces_of. pose proof (namespaces_some ns) as Hn. unfold namespaces_of in Hn. by destruct (split_char "." ns).
  - clear -Ht. induction t as [|c t IH]; [done|]. apply not_elem_of_cons in Ht as [Hc Ht]. cbn. rewrite IH by done. destruct (Ascii.eqb_spec c "."); [congruence|done].
Qed.
Lemma trigger_re ns : well_named ns → let namespaces := if String.eqb ns "" then [] else namespaces_of ns in
  (if String.eqb (join "." namespaces) "" then Done None else of_res (p ← namespace_re namespaces; Ret (Some p))) = Done (re_of ns).
Proof using Type.
  intros Hn. cbn zeta. rewrite <- re_of_ok by done. destruct (String.eqb_spec ns ""); [done|]. destruct (String.eqb_spec (join "." (namespaces_of ns)) "") as [E|]; [|done].
  destruct Hn as [|Hp]; [done|]. apply Forall_sorted in Hp. rewrite <- split_join, E in Hp. cbn in Hp. apply Forall_cons in Hp as [[? _] _]. done.
Qed.

(** The handlers of the element itself with all of the namespaces. *)
Definition triggered t ns n w : list ecall :=
  Called n <$> List.filter (λ o, negb (has_selector o) && (String.eqb ns "" || bool_decide (split_char "." ns ⊆+ split_char "." (ho_namespace o)))) (handlers_at w n t).

Lemma planned_triggered t ns n e w : events_ok w → well_named ns → e_type e = t → e_target e = n → e_related e = None → e_re e = re_of ns → planned d selects n e w = triggered t ns n w.
Proof using Type.
  intros Hw Hn <- <- Hr He. unfold planned, triggered, looked_at, path_below. cbn [until_node]. rewrite decide_True by done. assert (∀ b : bool, (if b then [] else List.filter (λ cur, is_element d cur && negb (disabled d cur && String.eqb (e_type e) "click")) []) = []) as -> by (by intros []).
  cbn [fmap list_fmap concat app]. f_equal. apply filter_ext_Forall. unfold handlers_at. destruct (list_at w (e_target e) (e_type e)) as [l|] eqn:El; [|constructor].
  eapply Forall_impl; [exact (eo_objs _ Hw _ _ _ El)|]. intros o Ho. cbn beta. f_equal. unfold wanted, from_outside. rewrite He, Hr, (re_meant ns o w) by done. by rewrite orb_true_r, andb_true_r.
Qed.

End triggered.

(** ** A page *)

(** A document with a body, a box in it and a button in the box. *)
Definition some_page : document := {|
  parentNode := {[ 3 := 2; 2 := 1; 1 := 0 ]}; is_element n := negb (n =? 0); is_text _ := false; disabled _ := false; is_anchor _ := false; checkbox _ := false;
  active _ := false; has_method _ _ := false; inline _ _ := None; root := 0; window := 9 |}.
Definition some_selects (this : nat) (sel : string) (cur : nat) : bool := String.eqb sel "button" && (cur =? 3) || String.eqb sel "div" && (cur =? 2).
(** The first function unbinds the second and binds the third; the fourth stops the event. *)
Definition some_user (k elem : nat) (e : event) (w : eworld) : reaction := {|
  u_ops := if k =? 1 then [Off [2] "click" None (Some (PageFn 2)); On [2] "click.late" None (PageFn 3) false] else [];
  u_stop := k =? 4; u_stopNow := false; u_prevent := false; u_returns := Nothing |}.
Definition some_click : event := {|
  e_type := "click"; e_target := 3; e_related := None; e_button := false; e_re := None; e_stopped := false; e_stoppedNow := false; e_prevented := false; e_result := Nothing |}.
Definition some_ops : list page_op :=
  [Bind (On [2; 1] "click.b.a" None (PageFn 1) false); Bind (On [2] "click mouseenter" None (PageFn 2) true); Bind (On [2] "click" (Some "button") (PageFn 2) false);
   Comes 2 some_click; Triggers "click.a" 3 false; Bind (Off [1] ".b" None None)].

(** Types and namespaces of a concrete page are well formed. *)
Ltac plain_names := first [by left | right; repeat constructor; done].
Ltac formed_words := repeat (constructor; [do 2 eexists; split; [reflexivity|]; first [plain_names | split; [done|plain_names]]|]); constructor.

Lemma some_user_ok k elem e w : Forall op_ok (u_ops (some_user k elem e w)).
Proof.
  unfold some_user. cbn [u_ops]. destruct (k =? 1); [|constructor]. constructor; [|constructor; [|constructor]]; formed_words.
Qed.

Definition some_world : eworld :=
  on (λ _, true) [2] "click" (Some "button") (PageFn 2) false (on (λ _, true) [2] "click mouseenter" None (PageFn 2) true (on (λ _, true) [2; 1] "click.b.a" None (PageFn 1) false no_handlers)).
Lemma some_world_ok : bound_ok some_world.
Proof. apply on_named; [apply on_named; [apply on_named; [apply no_handlers_ok|]|]|]; formed_words. Qed.

(** What is seen of an end: the functions that were called, and whether the event was stopped. *)
Definition functions (cs : list ecall) : list (nat * fid) := omap (λ c, match c with Called elem o => Some (elem, origin (ho_handler o)) | _ => None end) cs.
Definition seen (o : outcome (list ecall * event * eworld)) : option (list (nat * fid) * bool) :=
  match o with Done (cs, e, _) => Some (functions cs, e_stopped e) | _ => None end.
Definition seen_run (o : outcome (list ecall * eworld)) : option (list (nat * fid) * list (nat * string)) :=
  match o with Done (cs, w) => Some (functions cs, listening w) | _ => None end.

Lemma bindings_kept_witness : ∃ cs w, page_run (λ _, true) some_page some_selects some_user some_ops ([], no_handlers) = Done (cs, w) ∧
  functions cs = [(3, PageFn 2); (2, PageFn 1); (2, PageFn 2); (2, PageFn 1); (1, PageFn 1)] ∧ listening w = [(2, "click"); (2, "mouseover")] ∧
  (∀ n type, (n, type) ∈ listening w ↔ handlers_at w n type ≠ []).
Proof.
  assert (Forall page_op_ok some_ops) as Ho by (repeat (constructor; [first [done|formed_words|by repeat constructor]|]); constructor).
  destruct (bindings_kept (λ _, true) some_page some_selects some_user some_user_ok some_ops Ho) as (cs & w & E & H & _).
  assert (seen_run (page_run (λ _, true) some_page some_selects some_user some_ops ([], no_handlers)) =
    Some ([(3, PageFn 2); (2, PageFn 1); (2, PageFn 2); (2, PageFn 1); (1, PageFn 1)], [(2, "click"); (2, "mouseover")])) as Hs by (vm_compute; reflexivity).
  rewrite E in Hs. injection Hs as H1 H2. exists cs, w. split; [exact E|]. split; [exact H1|]. split; [exact H2|exact H].
Defined.


Lemma click_plain : ("."%char ∉ chars "click").
Proof. intros H. apply list_elem_of_In in H. cbn in H. intuition discriminate. Qed.

Lemma off_exact_witness : ∃ w', off [2; 1] "click.a" None None some_world = Done w' ∧ handlers_at w' 1 "click" = [] ∧ (origin ∘ ho_handler <$> handlers_at some_world 2 "click") = [PageFn 2; PageFn 1; PageFn 2] ∧
  (origin ∘ ho_handler <$> handlers_at w' 2 "click") = [PageFn 2; PageFn 2].
Proof.
  destruct (off_exact "click" "a" None ltac:(done) ltac:(repeat constructor) click_plain ltac:(repeat constructor) ltac:(plain_names) [2; 1] None some_world) as (w' & E & _ & H); [apply some_world_ok|].
  exists w'. split; [exact E|]. rewrite !H. split; [vm_compute; reflexivity|]. split; vm_compute; reflexivity.
Defined.

Definition other_world : eworld := on (λ _, true) [2] "click.b.a" None (PageFn 1) false no_handlers.
Lemma other_world_fn type o : o ∈ handlers_at other_world 2 type → origin (ho_handler o) = PageFn 1.
Proof.
  destruct (on_one "click" "b.a" None) with (accepts := λ _ : nat, true) (n := 2) (f := PageFn 1) (one := false) (w := no_handlers) as (h & g & Eh & _ & Hl); [repeat constructor|repeat constructor|apply no_handlers_ok|done|].
  unfold handlers_at. change other_world with (on (λ _, true) [2] (word_of "click" "b.a") None (PageFn 1) false no_handlers). rewrite Hl.
  assert (Hn : ∀ type, list_at no_handlers 2 type = None) by (intros type'; unfold list_at, events_of; cbn; by rewrite lookup_empty). rewrite Hn.
  destruct (decide _); [|by intros ?%not_elem_of_nil]. rewrite insert_in. intros [->|?%not_elem_of_nil]; [|done]. exact Eh.
Qed.

Lemma on_off_witness : ∃ w', off [2] "click.x" (Some "div") (Some (PageFn 7)) (on (λ _, true) [2] "click.x" (Some "div") (PageFn 7) true other_world) = Done w' ∧
  ∀ n' type', handlers_at w' n' type' = handlers_at other_world n' type'.
Proof.
  apply (on_off "click" "x" (Some "div") ltac:(done) ltac:(repeat constructor) click_plain ltac:(repeat constructor) ltac:(plain_names) (λ _, true)); [|reflexivity|].
  - apply on_ok. apply no_handlers_ok.
  - intros type o Ho. rewrite (other_world_fn type o Ho). discriminate.
Defined.


(** A type that ends in a dot is malformed, and for it [remove] calls itself with longer and longer ones: it does not end on any
    element that has handlers. *)
Lemma malformed_never_ends depth n a guid selector mapped w : events_ok w → events_of n w ≠ [] → tight a → ("."%char ∉ chars a) →
  event_remove depth n (a +:+ ".") guid selector mapped w = Unfinished.
Proof.
  intros Hw Hne. induction depth as [|depth IH] in a, mapped |- *; intros Ht Hd; [done|]. cbn [event_remove]. unfold events_of in Hne. destruct (ev w !! n) as [evs|] eqn:E; [|done]. cbn in Hne.
  rewrite type_words_one by (apply tight_app; [done|repeat constructor]). cbn [rev app each_word].
  assert (rtypenamespace (a +:+ ".") = None) as -> by (unfold rtypenamespace; by rewrite until_dot_app).
  assert (events_of n w = evs) as -> by (unfold events_of; by rewrite E). destruct evs as [|[k l] evs]; [done|]. cbn [fmap list_fmap fst each_word]. rewrite <- str_app_assoc.
  assert (list_at w n k = Some l) as Hl by (unfold list_at, events_of; rewrite E; cbn; by rewrite String.eqb_refl). destruct (eo_types _ Hw _ _ _ Hl) as [T1 T2].
  rewrite IH; [done|by apply tight_app|]. rewrite list_ascii_app. by apply not_elem_of_app.
Qed.

(** The handler that [one] has made has the number of its function: when it is called it unbinds the handlers that
    [on] has bound for the function as well. *)
Example once_removes_both : let w := on (λ _, true) [2] "click" None (PageFn 5) true (on (λ _, true) [2] "click" None (PageFn 5) false no_handlers) in
  length (handlers_at w 2 "click") = 2 ∧ match dispatch (λ _, true) some_page some_selects some_user 2 some_click w with Done (cs, _, w') => (length cs, handlers_at w' 2 "click") | _ => (0, []) end = (2, []).
Proof. split; vm_compute; reflexivity. Qed.
