(* ===== verification/Sizzle.v ===== *)
(** * Matchers of the selector engine (jquery-1.9.1.js: Sizzle)

    A selector is compiled into matchers, which look from an element upwards and to its left
    for what the selector asks for.  On the way they write on the elements what they have found out,
    and read it again for the next elements of the same run.

    The model is for documents in HTML.  Pseudo-classes, which may call the engine again, and the
    matchers for sets of elements are not modelled; the value of an attribute, as
    [jQuery.attr] gives it, is part of the document. *)

From S2P Require Import Prelude JSValue Forms Patterns.

(** ** The document *)

(** Nodes are numbers; [position] is their place in the order of the document. *)
Record dom := {
  nodeType : nat → nat;
  nodeName : nat → string;
  className : nat → string;                           (* [className], or else the attribute, or else nothing *)
  attr : nat → string → option string;
  parentNode : nat → option nat;
  childNodes : nat → list nat;
  position : nat → nat;
  document : nat
}.

Inductive dir := ParentNode | PreviousSibling.
#[export] Instance dir_eq_dec : EqDecision dir.
Proof. solve_decision. Defined.
#[export] Instance dir_countable : Countable dir.
Proof. refine (inj_countable' (λ d, match d with ParentNode => true | PreviousSibling => false end) (λ b, if b then ParentNode else PreviousSibling) _). by intros []. Defined.

(** [Expr.relative] *)
Record relative := { r_dir : dir; r_first : bool }.
Definition relative_of (type : string) : option relative :=
  if String.eqb type ">" then Some {| r_dir := ParentNode; r_first := true |}
  else if String.eqb type " " then Some {| r_dir := ParentNode; r_first := false |}
  else if String.eqb type "+" then Some {| r_dir := PreviousSibling; r_first := true |}
  else if String.eqb type "~" then Some {| r_dir := PreviousSibling; r_first := false |}
  else None.

(** ** Filters *)

(** What a filter asks of an element: any name or one, a class that its pattern finds, an attribute; the numbers of
    CHILD are those of an+b. *)
Inductive filter :=
| TAG (name : option string)
| CLASS (p : pattern)
| ID (id : string)
| ATTR (name : string) (operator : option string) (check : string)
| CHILD (type : string) (ofType : bool) (nth : option (Z * Z)).

(** ** What is written on elements *)

(** [cache[1]]: not there yet, [true], or the number of the run of an element *)
Inductive cached := Pending | Yes | No (run : N).

Record sworld := {
  dirruns : N;
  cachedruns : N;
  done : N;
  outermostContext : option nat;
  dir_cache : gmap (nat * dir) ((N * N) * cached);    (* [elem[expando][dir]] *)
  nth_cache : gmap nat (N * nat * nat);               (* [parent[expando].nth] *)
  nth_last_cache : gmap nat (N * nat)                 (* [elem[expando]["nth-last"]] *)
}.

Definition put_dir (k : nat * dir) (v : (N * N) * cached) (w : sworld) : sworld :=
  {| dirruns := dirruns w; cachedruns := cachedruns w; done := done w; outermostContext := outermostContext w;
     dir_cache := <[k := v]> (dir_cache w); nth_cache := nth_cache w; nth_last_cache := nth_last_cache w |}.
Definition put_nth (n : nat) (v : N * nat * nat) (w : sworld) : sworld :=
  {| dirruns := dirruns w; cachedruns := cachedruns w; done := done w; outermostContext := outermostContext w;
     dir_cache := dir_cache w; nth_cache := <[n := v]> (nth_cache w); nth_last_cache := nth_last_cache w |}.
Definition put_nth_last (n : nat) (v : N * nat) (w : sworld) : sworld :=
  {| dirruns := dirruns w; cachedruns := cachedruns w; done := done w; outermostContext := outermostContext w;
     dir_cache := dir_cache w; nth_cache := nth_cache w; nth_last_cache := <[n := v]> (nth_last_cache w) |}.
Definition set_runs (runs : N) (w : sworld) : sworld :=
  {| dirruns := dirruns w; cachedruns := runs; done := done w; outermostContext := outermostContext w;
     dir_cache := dir_cache w; nth_cache := nth_cache w; nth_last_cache := nth_last_cache w |}.
Definition set_outermost (c : option nat) (w : sworld) : sworld :=
  {| dirruns := dirruns w; cachedruns := cachedruns w; done := done w; outermostContext := c;
     dir_cache := dir_cache w; nth_cache := nth_cache w; nth_last_cache := nth_last_cache w |}.
Definition next_run (w : sworld) : sworld :=
  {| dirruns := (dirruns w + 1)%N; cachedruns := cachedruns w; done := done w; outermostContext := outermostContext w;
     dir_cache := dir_cache w; nth_cache := nth_cache w; nth_last_cache := nth_last_cache w |}.
(** [done++] *)
Definition next_done (w : sworld) : N * sworld :=
  (done w, {| dirruns := dirruns w; cachedruns := cachedruns w; done := (done w + 1)%N; outermostContext := outermostContext w;
              dir_cache := dir_cache w; nth_cache := nth_cache w; nth_last_cache := nth_last_cache w |}).

Section document.
Context (d : dom).
Implicit Types (n p : nat) (w : sworld).

(** ** Ways through the document *)

Fixpoint before (n : nat) (l : list nat) : option nat :=
  match l with
  | p :: ((x :: _) as l') => if decide (x = n) then Some p else before n l'
  | _ => None
  end.
Definition previousSibling n : option nat := p ← parentNode d n; before n (childNodes d p).
(** [elem[dir]] *)
Definition next (dr : dir) n : option nat := match dr with ParentNode => parentNode d n | PreviousSibling => previousSibling n end.

(** The nodes that [while ( (elem = elem[ dir ]) )] comes to. *)
Fixpoint steps (fuel : nat) (dr : dir) n : list nat :=
  match fuel with O => [] | S fuel => match next dr n with Some p => p :: steps fuel dr p | None => [] end end.
Definition along (dr : dir) n : list nat := steps (position d n) dr n.

Fixpoint siblings_before (n : nat) (l : list nat) : list nat :=
  match l with [] => [] | x :: l' => if decide (x = n) then [] else x :: siblings_before n l' end.
Fixpoint siblings_after (n : nat) (l : list nat) : list nat :=
  match l with [] => [] | x :: l' => if decide (x = n) then l' else siblings_after n l' end.

Definition is_element n : bool := (nodeType d n =? 1)%nat.

(** ** Filters *)

(** [elem.nodeName.toLowerCase() === name] *)
Definition same_name (name : string) n : bool := String.eqb (lower (nodeName d n)) name.

(** [whitespace] *)
Definition whitespace : string := "[\x20\t\r\n\f]".
Definition plain_flags : flags := {| ignoreCase := false; multiline := false; global := false |}.
(** [new RegExp( "(^|" + whitespace + ")" + className + "(" + whitespace + "|$)" )] *)
Definition class_re (name : string) : option pattern :=
  RegExp (list_ascii_of_string ("(^|" +:+ whitespace +:+ ")" +:+ name +:+ "(" +:+ whitespace +:+ "|$)")) plain_flags.
Definition tests (p : pattern) (s : string) : bool := match pattern_exec p (list_ascii_of_string s) 0 with Some _ => true | None => false end.

(** [result.indexOf( check ) > -1] and [=== 0] *)
Fixpoint has_within (check s : string) : bool :=
  String.prefix check s || match s with EmptyString => false | String _ s' => has_within check s' end.
(** [result.slice( -check.length ) === check], for a check that is not empty *)
Fixpoint has_suffix (check s : string) : bool :=
  String.eqb check s || match s with EmptyString => false | String _ s' => has_suffix check s' end.

(** [Expr.filter.ATTR]; the check for [~=] has spaces around it. *)
Definition attr_passes (operator : option string) (check : string) (result : option string) : bool :=
  match result, operator with
  | None, Some op => String.eqb op "!="
  | None, None => false
  | Some _, None => true
  | Some r, Some op =>
      if String.eqb op "=" then String.eqb r check
      else if String.eqb op "!=" then negb (String.eqb r check)
      else if String.eqb op "^=" then negb (String.eqb check "") && String.prefix check r
      else if String.eqb op "*=" then negb (String.eqb check "") && has_within check r
      else if String.eqb op "$=" then negb (String.eqb check "") && has_suffix check r
      else if String.eqb op "~=" then has_within check (" " +:+ r +:+ " ")
      else if String.eqb op "|=" then String.eqb r check || String.prefix (check +:+ "-") r
      else false
  end.

(** *** Children by their number *)

(** The loop through the nodes from a place on: the index and the number of the element when it is found. *)
Fixpoint seek (counts : nat → bool) (elem : nat) (l : list nat) (nodeIndex diff : nat) : option (nat * nat) :=
  match l with
  | [] => None
  | node :: l' =>
      if counts node then if decide (node = elem) then Some (nodeIndex, S diff) else seek counts elem l' (S nodeIndex) (S diff)
      else seek counts elem l' (S nodeIndex) diff
  end.

(** [:nth-child]: the search goes on from the element that was found last below the same parent, and starts
    again when it comes to the end. *)
Definition nth_child (elem parent : nat) w : nat * sworld :=
  let l := childNodes d parent in
  let again :=
    match nth_cache w !! parent with
    | Some (run, S i, diff) => if (run =? dirruns w)%N && (S i <? length l)%nat then seek is_element elem (drop (S (S i)) l) (S (S i)) diff else None
    | _ => None
    end in
  match (match again with Some r => Some r | None => seek is_element elem l 0 0 end) with
  | Some (i, diff) => (diff, put_nth parent (dirruns w, i, diff) w)
  | None => (0, w)
  end.

(** [:nth-last-child]: from the end, and each element that is passed gets its number. *)
Fixpoint seek_last (elem : nat) (l : list nat) (diff : nat) w : nat * sworld :=
  match l with
  | [] => (0, w)
  | node :: l' =>
      if is_element node then
        let w := put_nth_last node (dirruns w, S diff) w in
        if decide (node = elem) then (S diff, w) else seek_last elem l' (S diff) w
      else seek_last elem l' diff w
  end.
Definition nth_last_child (elem parent : nat) w : nat * sworld :=
  match nth_last_cache w !! elem with
  | Some (run, diff) => if (run =? dirruns w)%N then (diff, w) else seek_last elem (reverse (childNodes d parent)) 0 w
  | None => seek_last elem (reverse (childNodes d parent)) 0 w
  end.

(** [diff === first || ( diff % first === 0 && diff / first >= 0 )] after [diff -= last] *)
Definition nth_passes (first last : Z) (diff : nat) : bool :=
  let diff := (Z.of_nat diff - last)%Z in
  (diff =? first)%Z || (negb (first =? 0)%Z && (Z.rem diff first =? 0)%Z && (0 <=? diff * first)%Z).

Definition is_nth (type : string) : bool := String.prefix "nth" type.
Definition is_last (type : string) : bool := has_suffix "last" type.

(** [Expr.filter.CHILD] *)
Definition child_passes (type : string) (ofType : bool) (nth : option (Z * Z)) n w : bool * sworld :=
  let kin := if ofType then same_name (lower (nodeName d n)) else is_element in
  match parentNode d n with
  | None => (false, w)
  | Some p =>
      if decide (nth = Some (1, 0)%Z) then (true, w)
      else match nth with
      | None =>
          let none l := negb (existsb kin l) in
          (if String.eqb type "only" then none (siblings_before n (childNodes d p)) && none (siblings_after n (childNodes d p))
           else if is_last type then none (siblings_after n (childNodes d p))
           else none (siblings_before n (childNodes d p)), w)
      | Some (first, last) =>
          let '(diff, w) :=
            if ofType then (match seek kin n (if is_last type then reverse (childNodes d p) else childNodes d p) 0 0 with Some (_, diff) => diff | None => 0 end, w)
            else if is_last type then nth_last_child n p w
            else nth_child n p w in
          (nth_passes first last diff, w)
      end
  end.

Definition filter_passes (f : filter) n w : bool * sworld :=
  match f with
  | TAG name => (match name with None => true | Some name => same_name name n end, w)
  | CLASS p => (tests p (className d n), w)
  | ID id => (bool_decide (attr d n "id" = Some id), w)
  | ATTR name operator check => (attr_passes operator check (attr d n (lower name)), w)
  | CHILD type ofType nth => child_passes type ofType nth n w
  end.

(** Filters from the last to the first, until one fails. *)
Fixpoint all_pass (fs : list filter) n w : bool * sworld :=
  match fs with
  | [] => (true, w)
  | f :: fs' => let '(b, w) := filter_passes f n w in if b then all_pass fs' n w else (false, w)
  end.

(** ** Combinators *)

(** [elem.nodeType === 1 || checkNonElements] *)
Definition eligible (base : bool) (dr : dir) n : bool := is_element n || base && bool_decide (dr = ParentNode).

(** The matchers of a selector: the one for the context and then the filters of the first part, or that of a
    combinator and then the filters that follow it. *)
Inductive chain :=
| Base (leading : option relative) (doneName doneAny : N) (fs : list filter)
| Step (inner : chain) (r : relative) (doneName : N) (fs : list filter).

(** The closest one decides. *)
Definition closest (matcher : nat → sworld → bool * sworld) (base : bool) (dr : dir) n w : bool * sworld :=
  match List.find (eligible base dr) (along dr n) with Some p => matcher p w | None => (false, w) end.

(** [cache[1] = matcher( elem, context, xml ) || cachedruns], in the array that was put there before *)
Definition settle (key : N * N) (k : nat * dir) (b : bool) w : sworld :=
  match dir_cache w !! k with
  | Some (key', Pending) => if decide (key' = key) then put_dir k (key, if b then Yes else No (cachedruns w)) w else w
  | _ => w
  end.

(** Any of them will do; what has been found out about one under this key is not found out again. *)
Fixpoint walk (matcher : nat → sworld → bool * sworld) (key : N * N) (base : bool) (dr : dir) (l : list nat) w : bool * sworld :=
  match l with
  | [] => (false, w)
  | p :: l' =>
      if eligible base dr p then
        let fresh :=
          let w := put_dir (p, dr) (key, Pending) w in
          let '(b, w) := matcher p w in
          let w := settle key (p, dr) b w in
          if b : bool then (true, w) else walk matcher key base dr l' w in
        match dir_cache w !! (p, dr) with
        | Some (key', v) =>
            if decide (key' = key) then
              match v with
              | Yes => (true, w)
              | No run => if (run =? cachedruns w)%N then (false, w) else walk matcher key base dr l' w
              | Pending => walk matcher key base dr l' w
              end
            else fresh
        | None => fresh
        end
      else walk matcher key base dr l' w
  end.

(** [addCombinator( matcher, combinator, base )] *)
Definition combine (matcher : nat → sworld → bool * sworld) (r : relative) (base : bool) (doneName : N) n w : bool * sworld :=
  if r_first r then closest matcher base (r_dir r) n w
  else walk matcher (dirruns w, doneName) base (r_dir r) (along (r_dir r) n) w.

(** The matcher at the root: the element can be reached from the context. *)
Definition from_context (leading : option relative) (doneName : N) (context : nat) n w : bool * sworld :=
  if (match leading with None => true | Some _ => false end) && negb (bool_decide (outermostContext w = Some context)) then (true, w)
  else combine (λ p w, (bool_decide (p = context), w)) (default {| r_dir := ParentNode; r_first := false |} leading) true doneName n w.

(** [elementMatcher( matchers )] of a chain *)
Fixpoint run (c : chain) (context : nat) n w : bool * sworld :=
  match c with
  | Base leading doneName _ fs => let '(b, w) := all_pass (rev fs) n w in if b then from_context leading doneName context n w else (false, w)
  | Step inner r doneName fs => let '(b, w) := all_pass (rev fs) n w in if b then combine (run inner context) r false doneName n w else (false, w)
  end.

(** One of the matchers of a group, in their order *)
Fixpoint run_any (cs : list chain) (context : nat) n w : bool * sworld :=
  match cs with
  | [] => (false, w)
  | c :: cs' => let '(b, w) := run c context n w in if b then (true, w) else run_any cs' context n w
  end.

(** [for ( ; (elem = elems[i]) != null; i++ )] of an outermost run; the number of the run goes on with each element. *)
Fixpoint run_elements (cs : list chain) (context : nat) (elems : list nat) w : list nat * sworld :=
  match elems with
  | [] => ([], w)
  | n :: elems' =>
      let '(b, w) := run_any cs context n w in
      let '(l, w) := run_elements cs context elems' (set_runs (cachedruns w + 1) w) in
      (if b then n :: l else l, w)
  end.

(** [superMatcher( seed, context, xml, results, expandContext )] called by [select], where [runs] is
    [matcherCachedRuns]; it returns the results and the counter. *)
Definition superMatcher (cs : list chain) (context : nat) (runs : N) (elems : list nat) w : list nat * N * sworld :=
  let w := set_runs runs (set_outermost (if decide (context = document d) then None else Some context) (next_run w)) in
  let '(l, w) := run_elements cs context elems w in
  (l, cachedruns w, set_outermost None w).
End document.
