(* ===== verification/SizzleFacts.v ===== *)
(** * What matchers find (about Sizzle)

    With all that they write on elements and read again, the matchers of a selector find the
    elements that the selector says. *)

From S2P Require Import Prelude JSValue Forms Patterns Sizzle.

(** A document: parents come before their children, and these are in order. *)
Record dom_ok (d : dom) : Prop := {
  do_parent n p : parentNode d n = Some p → position d p < position d n;
  do_child n p : parentNode d n = Some p ↔ n ∈ childNodes d p;
  do_nodup p : NoDup (childNodes d p);
  do_sorted p i j x y : childNodes d p !! i = Some x → childNodes d p !! j = Some y → i < j → position d x < position d y
}.

(** Between runs, whatever happens to the document: what is written is of earlier runs. *)
Record world_ok (w : sworld) : Prop := {
  wo_nth p r i k : nth_cache w !! p = Some (r, i, k) → (r <= dirruns w)%N;
  wo_last n r k : nth_last_cache w !! n = Some (r, k) → (r <= dirruns w)%N;
  wo_dir k r dn v : dir_cache w !! k = Some ((r, dn), v) → (r <= dirruns w)%N;
  wo_outer : outermostContext w = None
}.

Section facts.
Context (d : dom) (d_ok : dom_ok d).
Implicit Types (n p : nat) (w : sworld) (dr : dir).

(** ** Ways through the document *)

Lemma before_position n p l : before n l = Some p → ∃ i, l !! i = Some p ∧ l !! S i = Some n.
Proof using Type.
  induction l as [|x l IH]; [done|]. cbn [before]. destruct l as [|y l]; [done|]. destruct (decide (y = n)) as [->|]; [intros [= ->]; by exists 0|].
  intros H. apply IH in H as (i & H1 & H2). by exists (S i).
Qed.

Lemma next_position dr n p : next d dr n = Some p → position d p < position d n.
Proof using d_ok.
  destruct dr; cbn [next]; [apply (do_parent d d_ok)|]. unfold previousSibling. intros (q & Hq & Hb)%bind_Some. apply before_position in Hb as (i & H1 & H2). by apply (do_sorted d d_ok q i (S i)); [..|lia].
Qed.

Lemma steps_enough fuel dr n : position d n <= fuel → steps d fuel dr n = along d dr n.
Proof using d_ok.
  assert (H : ∀ k n fuel fuel', position d n <= k → k <= fuel → k <= fuel' → steps d fuel dr n = steps d fuel' dr n).
  { induction k as [|k IH]; intros m f1 f2 Hk H1 H2.
    - destruct f1, f2; cbn [steps]; try done; destruct (next d dr m) as [p|] eqn:E; try done; apply next_position in E; lia.
    - destruct f1 as [|f1], f2 as [|f2]; [lia..|]. cbn [steps]. destruct (next d dr m) as [p|] eqn:E; [|done]. f_equal. apply IH; [apply next_position in E; lia|lia..]. }
  intros Hn. unfold along. by apply (H (position d n)).
Qed.

Lemma along_next dr n : along d dr n = match next d dr n with Some p => p :: along d dr p | None => [] end.
Proof using d_ok.
  unfold along at 1. destruct (next d dr n) as [p|] eqn:E.
  - pose proof (next_position _ _ _ E) as Hp. destruct (position d n) as [|k] eqn:Ek; [lia|]. cbn [steps]. rewrite E. f_equal. apply steps_enough. lia.
  - destruct (position d n); cbn [steps]; [done|]. by rewrite E.
Qed.

Lemma along_rest dr n vis p l : along d dr n = vis ++ p :: l → along d dr p = l.
Proof using d_ok.
  induction vis as [|q vis IH] in n |- *; rewrite along_next; destruct (next d dr n) as [p'|]; try done; cbn; intros [= -> H]; [done|]. by apply (IH q).
Qed.

(** ** Children by their number *)

Lemma siblings_split n l : n ∈ l → l = siblings_before n l ++ n :: siblings_after n l.
Proof using Type.
  induction l as [|x l IH]; [by intros ?%not_elem_of_nil|]. cbn. destruct (decide (x = n)) as [->|Hne]; [done|]. intros [->|H]%elem_of_cons; [done|]. cbn. f_equal. by apply IH.
Qed.
Lemma siblings_before_app n l1 l2 : n ∉ l1 → siblings_before n (l1 ++ l2) = l1 ++ siblings_before n l2.
Proof using Type.
  induction l1 as [|x l1 IH]; [done|]. intros [Hx Hl]%not_elem_of_cons. cbn. rewrite decide_False by done. by rewrite IH.
Qed.
Lemma siblings_before_take n l i : NoDup l → l !! i = Some n → siblings_before n l = take i l.
Proof using Type.
  intros Hd Hi. pose proof (take_drop_middle l i n Hi) as E. rewrite <- E in Hd. apply NoDup_app in Hd as (_ & Hd & _).
  rewrite <- E at 1. rewrite siblings_before_app by (intros H; apply (Hd n H); left). cbn. rewrite decide_True by done. apply app_nil_r.
Qed.

(** The number of an element among those that count. *)
Definition number (counts : nat → bool) (l : list nat) n : nat := S (length (List.filter counts (siblings_before n l))).

Lemma seek_spec counts n l : counts n = true → ∀ i k, seek counts n l i k =
  if decide (n ∈ l) then Some (i + length (siblings_before n l), k + number counts l n) else None.
Proof using Type.
  intros Hc. induction l as [|x l IH]; intros i k; [done|]. cbn [seek]. unfold number. cbn [siblings_before]. destruct (decide (x = n)) as [->|Hne].
  - rewrite Hc, decide_True by left. cbn. do 2 f_equal; lia.
  - assert (Hd : ∀ (A : Type) (a b : A), (if decide (n ∈ x :: l) then a else b) = if decide (n ∈ l) then a else b).
    { intros A a b. destruct (decide (n ∈ l)); [by rewrite decide_True by (by right)|]. rewrite decide_False; [done|]. by intros [->|?]%elem_of_cons. }
    rewrite Hd. cbn [List.filter]. unfold number in IH. destruct (counts x); rewrite IH; destruct (decide (n ∈ l)); try done; cbn [length]; do 2 f_equal; lia.
Qed.

(** What is written down about children is true in this run. *)
Record nth_ok w : Prop := {
  no_nth p r i k : nth_cache w !! p = Some (r, i, k) → (r <= dirruns w)%N ∧ (r = dirruns w → is_Some (childNodes d p !! i) ∧ k = length (List.filter (is_element d) (take (S i) (childNodes d p))));
  no_last n r k : nth_last_cache w !! n = Some (r, k) → (r <= dirruns w)%N ∧ (r = dirruns w → ∀ p, parentNode d n = Some p → k = number (is_element d) (reverse (childNodes d p)) n)
}.

(** Only what is written about children has changed. *)
Record same_core w w' : Prop := {
  sc_dir : dir_cache w' = dir_cache w;
  sc_runs : dirruns w' = dirruns w;
  sc_cached : cachedruns w' = cachedruns w;
  sc_done : done w' = done w;
  sc_outer : outermostContext w' = outermostContext w
}.
#[local] Instance same_core_refl : Reflexive same_core.
Proof. by split. Qed.
#[local] Instance same_core_trans : Transitive same_core.
Proof. intros w1 w2 w3 [] []. split; congruence. Qed.

Lemma number_taken n l i : NoDup l → is_element d n = true → l !! i = Some n → number (is_element d) l n = length (List.filter (is_element d) (take (S i) l)).
Proof using Type.
  intros Hd He Hi. unfold number. rewrite (siblings_before_take n l i Hd Hi), (take_S_r l i n Hi), List.filter_app, length_app. cbn. rewrite He. cbn. lia.
Qed.

Lemma nth_child_ok n p w : nth_ok w → is_element d n = true → parentNode d n = Some p →
  let '(k, w') := nth_child d n p w in k = number (is_element d) (childNodes d p) n ∧ nth_ok w' ∧ same_core w w'.
Proof using d_ok.
  intros Hw He Hp. set (l := childNodes d p). assert (Hin : n ∈ l) by (by apply (do_child d d_ok)). pose proof (do_nodup d d_ok p) as Hd. fold l in Hd.
  set (i0 := length (siblings_before n l)). assert (Hi0 : l !! i0 = Some n) by (rewrite (siblings_split n l Hin) at 1; by apply list_lookup_middle).
  assert (Hfound : ∀ again, (again = None ∨ again = Some (i0, number (is_element d) l n)) →
    let '(k, w') := match (match again with Some r => Some r | None => seek (is_element d) n l 0 0 end) with Some (i, diff) => (diff, put_nth p (dirruns w, i, diff) w) | None => (0, w) end in
    k = number (is_element d) l n ∧ nth_ok w' ∧ same_core w w').
  { intros again Ha. assert ((match again with Some r => Some r | None => seek (is_element d) n l 0 0 end) = Some (i0, number (is_element d) l n)) as ->.
    { destruct Ha as [->| ->]; [|done]. by rewrite seek_spec, decide_True. }
    split; [done|]. split; [|by split]. split; [|apply Hw]. intros q r i k. cbn. destruct (decide (q = p)) as [->|Hq].
    - rewrite lookup_insert_eq. intros [= <- <- <-]. split; [done|]. intros _. fold l. split; [by rewrite Hi0|]. by apply number_taken.
    - rewrite lookup_insert_ne by done. apply Hw. }
  unfold nth_child. fold l. apply Hfound. destruct (nth_cache w !! p) as [[[r [|i]] k]|] eqn:E; [by left| |by left]. destruct (N.eqb_spec r (dirruns w)) as [Er|]; [|by left]. cbn [andb].
  destruct (Nat.ltb_spec (S i) (length l)) as [Hlen|]; [|by left]. apply (no_nth _ Hw) in E as [_ E]. destruct (E Er) as [_ Hk]. fold l in Hk.
  rewrite seek_spec by done. destruct (decide (n ∈ drop (S (S i)) l)) as [Hd2|]; [right|by left]. f_equal.
  assert (Hb : siblings_before n l = take (S (S i)) l ++ siblings_before n (drop (S (S i)) l)).
  { rewrite <- (take_drop (S (S i)) l) at 1. apply siblings_before_app. intros H. rewrite <- (take_drop (S (S i)) l) in Hd. apply NoDup_app in Hd as (_ & Hd & _). by apply (Hd n). }
  unfold i0, number. rewrite Hb, List.filter_app, !length_app, length_take, Hk. f_equal; lia.
Qed.

Lemma seek_last_ok n p l : l = reverse (childNodes d p) → is_element d n = true → ∀ vis rest w, l = vis ++ rest → n ∈ rest → nth_ok w →
  let '(k, w') := seek_last d n rest (length (List.filter (is_element d) vis)) w in k = number (is_element d) l n ∧ nth_ok w' ∧ same_core w w'.
Proof using d_ok.
  intros El He. assert (Hd : NoDup l) by (rewrite El, reverse_Permutation; apply (do_nodup d d_ok)).
  intros vis rest. induction rest as [|x rest IH] in vis |- *; intros w E Hin Hw; [by apply not_elem_of_nil in Hin|]. cbn [seek_last].
  assert (Hnext : length (List.filter (is_element d) (vis ++ [x])) = (if is_element d x then S else id) (length (List.filter (is_element d) vis))).
  { rewrite List.filter_app, length_app. cbn. destruct (is_element d x); cbn; lia. }
  assert (Hvis : l = (vis ++ [x]) ++ rest) by (by rewrite <- app_assoc). destruct (is_element d x) eqn:Ex.
  - set (w1 := put_nth_last x _ w). assert (Hx : number (is_element d) l x = S (length (List.filter (is_element d) vis))).
    { unfold number. rewrite (siblings_before_take x l (length vis) Hd) by (rewrite E; by apply list_lookup_middle). by rewrite E, take_app_length. }
    assert (Hw1 : nth_ok w1).
    { split; [apply Hw|]. intros q r k. cbn. destruct (decide (q = x)) as [->|Hq]; [|rewrite lookup_insert_ne by done; apply Hw]. rewrite lookup_insert_eq. intros [= <- <-]. split; [done|].
      intros _ q Hq. rewrite <- Hx. assert (q = p) as ->; [|by rewrite El]. assert (x ∈ childNodes d p) as Hxp%(do_child d d_ok); [|congruence]. apply elem_of_reverse. rewrite <- El, E. apply elem_of_app. right. left. }
    destruct (decide (x = n)) as [->|Hne]; [split; [by rewrite Hx|]; split; [done|by split]|]. cbn in Hnext. rewrite <- Hnext. assert (n ∈ rest) as Hr by (by apply elem_of_cons in Hin as [->|]).
    specialize (IH (vis ++ [x]) w1 Hvis Hr Hw1). destruct (seek_last _ _ _ _ w1) as [k w']. destruct IH as (H1 & H2 & H3). split; [done|]. split; [done|]. etrans; [|exact H3]. by split.
  - assert (n ∈ rest) as Hr by (apply elem_of_cons in Hin as [->|]; [congruence|done]). cbn in Hnext. rewrite <- Hnext. by apply IH.
Qed.

Lemma nth_last_child_ok n p w : nth_ok w → is_element d n = true → parentNode d n = Some p →
  let '(k, w') := nth_last_child d n p w in k = number (is_element d) (reverse (childNodes d p)) n ∧ nth_ok w' ∧ same_core w w'.
Proof using d_ok.
  intros Hw He Hp. assert (Hin : n ∈ reverse (childNodes d p)) by (apply elem_of_reverse; by apply (do_child d d_ok)).
  pose proof (seek_last_ok n p _ eq_refl He [] _ w eq_refl Hin Hw) as Hs. cbn [List.filter length] in Hs. unfold nth_last_child.
  destruct (nth_last_cache w !! n) as [[r k]|] eqn:E; [|done]. destruct (N.eqb_spec r (dirruns w)); [|done]. apply (no_last _ Hw) in E as [_ E]. split; [by apply E|]. by split.
Qed.

(** ** Filters *)

(** What a filter says of an element. *)
Definition filter_holds (f : filter) n : bool :=
  match f with
  | TAG name => match name with None => true | Some name => same_name d name n end
  | CLASS p => tests p (className d n)
  | ID id => bool_decide (attr d n "id" = Some id)
  | ATTR name operator check => attr_passes operator check (attr d n (lower name))
  | CHILD type ofType nth =>
      let kin := if ofType then same_name d (lower (nodeName d n)) else is_element d in
      match parentNode d n with
      | None => false
      | Some p =>
          let l := childNodes d p in
          match nth with
          | Some (first, last) => nth_passes first last (number kin (if is_last type then reverse l else l) n)
          | None =>
              let none l := negb (existsb kin l) in
              if String.eqb type "only" then none (siblings_before n l) && none (siblings_after n l)
              else if is_last type then none (siblings_after n l) else none (siblings_before n l)
          end
      end
  end.

Lemma nth_all k : nth_passes 1 0 (S k) = true.
Proof using Type. unfold nth_passes. rewrite Z.sub_0_r, Z.rem_1_r, Z.mul_1_r. cbn [negb Z.eqb andb]. apply orb_true_iff. right. apply Z.leb_le. lia. Qed.

Lemma child_passes_ok type ofType nth n w : nth_ok w → is_element d n = true →
  let '(b, w') := child_passes d type ofType nth n w in b = filter_holds (CHILD type ofType nth) n ∧ nth_ok w' ∧ same_core w w'.
Proof using d_ok.
  intros Hw He. cbn [filter_holds]. unfold child_passes. set (kin := if ofType then _ else _). assert (kin n = true) as Hk by (unfold kin; destruct ofType; [apply String.eqb_refl|done]).
  destruct (parentNode d n) as [p|] eqn:Ep; [|done]. destruct (decide (nth = Some (1, 0)%Z)) as [->|Hne]; [split; [unfold number; by rewrite nth_all|done]|]. destruct nth as [[first last]|]; [|done].
  destruct ofType.
  - rewrite seek_spec by done. rewrite decide_True; [done|]. apply (do_child d d_ok) in Ep. destruct (is_last type); [by apply elem_of_reverse|done].
  - destruct (is_last type).
    + pose proof (nth_last_child_ok n p w Hw He Ep) as H. destruct (nth_last_child d n p w). by destruct H as (-> & H2 & H3).
    + pose proof (nth_child_ok n p w Hw He Ep) as H. destruct (nth_child d n p w). by destruct H as (-> & H2 & H3).
Qed.

Lemma filter_passes_ok f n w : nth_ok w → is_element d n = true → let '(b, w') := filter_passes d f n w in b = filter_holds f n ∧ nth_ok w' ∧ same_core w w'.
Proof using d_ok. intros Hw He. destruct f; [done..|]. by apply child_passes_ok. Qed.

Lemma all_pass_ok fs n w : nth_ok w → is_element d n = true → let '(b, w') := all_pass d fs n w in b = forallb (λ f, filter_holds f n) fs ∧ nth_ok w' ∧ same_core w w'.
Proof using d_ok.
  intros Hw He. induction fs as [|f fs IH] in w, Hw |- *; cbn [all_pass forallb]; [done|]. pose proof (filter_passes_ok f n w Hw He) as H. destruct (filter_passes d f n w) as [b w1]. destruct H as (<- & H2 & H3).
  destruct b; [|done]. specialize (IH w1 H2). destruct (all_pass d fs n w1) as [b w2]. destruct IH as (H4 & H5 & H6). split; [done|]. split; [done|]. by etrans.
Qed.

Lemma forallb_rev {A} (P : A → bool) l : forallb P (rev l) = forallb P l.
Proof using Type. induction l as [|x l IH]; [done|]. cbn. rewrite forallb_app, IH. cbn. by rewrite andb_true_r, andb_comm. Qed.

(** ** What a selector says *)

(** The closest one, or any one, of the nodes that count. *)
Definition related (r : relative) (base : bool) (P : nat → bool) n : bool :=
  let l := List.filter (eligible d base (r_dir r)) (along d (r_dir r) n) in
  if r_first r then match l with p :: _ => P p | [] => false end else existsb P l.

Definition descendant : relative := {| r_dir := ParentNode; r_first := false |}.

(** An element is what the filters say, and related to one that is what the rest says; at the root it is below the
    context, or stands to it as a leading combinator says. *)
Fixpoint sat (c : chain) (context n : nat) : bool :=
  match c with
  | Base leading _ _ fs => forallb (λ f, filter_holds f n) fs &&
      (match leading with None => bool_decide (context = document d) | Some _ => false end
       || related (default descendant leading) true (λ p, bool_decide (p = context)) n)
  | Step inner r _ fs => forallb (λ f, filter_holds f n) fs && related r false (sat inner context) n
  end.

(** ** What is written on elements *)

(** A combinator that writes: its number, its way, and what it looks for. *)
Record cell := { c_name : N; c_dir : dir; c_base : bool; c_looks : nat → bool }.

Fixpoint cells (c : chain) (context : nat) : list cell :=
  match c with
  | Base leading dn _ _ => [{| c_name := dn; c_dir := r_dir (default descendant leading); c_base := true; c_looks := λ p, bool_decide (p = context) |}]
  | Step inner r dn _ => {| c_name := dn; c_dir := r_dir r; c_base := false; c_looks := sat inner context |} :: cells inner context
  end.

(** What is written under the number in this run is true. *)
Definition told w (e : cell) : Prop := ∀ p v, dir_cache w !! (p, c_dir e) = Some ((dirruns w, c_name e), v) →
  match v with Yes => c_looks e p = true | No k => c_looks e p = false ∧ (k <= cachedruns w)%N | Pending => False end.
(** From this node on there is nothing. *)
Definition nothing_from (e : cell) p : Prop := ∀ q, q ∈ along d (c_dir e) p → eligible d (c_base e) (c_dir e) q = true → c_looks e q = false.
(** And where it is written for this element that there is nothing, nothing comes after either. *)
Definition closed w (e : cell) : Prop := ∀ p, dir_cache w !! (p, c_dir e) = Some ((dirruns w, c_name e), No (cachedruns w)) → nothing_from e p.

(** Only these numbers are written. *)
Record writes (names : list N) w w' : Prop := {
  wr_dir k r dn v : dir_cache w' !! k = Some ((r, dn), v) → (dn ∈ names ∧ r = dirruns w) ∨ dir_cache w !! k = Some ((r, dn), v);
  wr_runs : dirruns w' = dirruns w;
  wr_cached : cachedruns w' = cachedruns w;
  wr_done : done w' = done w;
  wr_outer : outermostContext w' = outermostContext w
}.
#[local] Instance writes_refl names : Reflexive (writes names).
Proof. split; auto. Qed.
#[local] Instance writes_trans names : Transitive (writes names).
Proof.
  intros w1 w2 w3 [A1 A2 A3 A4 A5] [B1 B2 B3 B4 B5]. split; try congruence. intros k r dn v H. apply B1 in H as [[H1 H2]|H]; [left; split; [done|congruence]|]. by apply A1.
Qed.
Lemma writes_more names names' w w' : names ⊆ names' → writes names w w' → writes names' w w'.
Proof using Type. intros Hs [A1 A2 A3 A4 A5]. split; try done. intros k r dn v H. apply A1 in H as [[H1 H2]|H]; [left; split; [by apply Hs|done]|by right]. Qed.
Lemma same_writes names w w' : same_core w w' → writes names w w'.
Proof using Type. intros [A1 A2 A3 A4 A5]. split; try done. intros k r dn v. rewrite A1. by right. Qed.

Lemma told_writes names w w' e : writes names w w' → c_name e ∉ names → told w e → told w' e.
Proof using Type.
  intros [A1 A2 A3 A4 A5] Hn Ht p v. rewrite A2. intros H. apply A1 in H as [[? _]|H]; [done|]. apply Ht in H. by rewrite A3.
Qed.
Lemma closed_writes names w w' e : writes names w w' → c_name e ∉ names → closed w e → closed w' e.
Proof using Type.
  intros [A1 A2 A3 A4 A5] Hn Ht p. rewrite A2, A3. intros H. apply A1 in H as [[? _]|H]; [done|]. by apply Ht in H.
Qed.
Lemma told_same w w' e : same_core w w' → told w e → told w' e.
Proof using Type. intros [A1 A2 A3 A4 A5] Ht p v. rewrite A1, A2, A3. apply Ht. Qed.
Lemma closed_same w w' e : same_core w w' → closed w e → closed w' e.
Proof using Type. intros [A1 A2 A3 A4 A5] Ht p. rewrite A1, A2, A3. apply Ht. Qed.

(** ** Matchers *)

Lemma along_order dr n vis p l q : along d dr n = vis ++ p :: l → q ∈ vis → position d p < position d q.
Proof using d_ok.
  induction vis as [|x vis IH] in n |- *; [by intros _ ?%not_elem_of_nil|]. rewrite along_next by done. destruct (next d dr n) as [y|]; [|done]. cbn. intros [= -> H] Hq.
  apply elem_of_cons in Hq as [->|Hq]; [|by apply (IH x)]. clear IH. induction vis as [|z vis IH] in x, H |- *; rewrite along_next in H by done; destruct (next d dr x) as [y|] eqn:E; try done; cbn in H; injection H as -> H.
  - by apply (next_position dr).
  - etrans; [by apply (IH z)|by apply (next_position dr)].
Qed.
Lemma along_in_rest dr n vis p l q : along d dr n = vis ++ p :: l → q ∈ along d dr p → q ∈ l.
Proof using d_ok. intros H. by rewrite (along_rest dr n vis p l H). Qed.

(** What a matcher does that looks for [P] and writes these cells; [oc] is the outermost context. *)
Definition works (oc : option nat) (K : list cell) (can P : nat → bool) (matcher : nat → sworld → bool * sworld) : Prop :=
  ∀ p w, can p = true → outermostContext w = oc → nth_ok w → Forall (told w) K → Forall (closed w) K →
  let '(b, w') := matcher p w in b = P p ∧ nth_ok w' ∧ writes (c_name <$> K) w w' ∧ Forall (told w') K ∧ (b = false → Forall (closed w') K).

Lemma put_writes k r dn v w : r = dirruns w → writes [dn] w (put_dir k ((r, dn), v) w).
Proof using Type.
  intros ->. split; try done. intros k' r' dn' v'. cbn. destruct (decide (k' = k)) as [->|Hk]; [rewrite lookup_insert_eq; intros [= <- <- <-]; left; split; [left|done]|]. rewrite lookup_insert_ne by done. by right.
Qed.
Lemma settle_writes r dn k b w : r = dirruns w → writes [dn] w (settle (r, dn) k b w).
Proof using Type. intros Hr. unfold settle. destruct (dir_cache w !! k) as [[key' []]|]; try done. destruct (decide _); [by apply put_writes|done]. Qed.
Lemma nth_ok_dir k v w : nth_ok w → nth_ok (put_dir k v w).
Proof using Type. intros [H1 H2]. by split. Qed.
Lemma nth_ok_settle key k b w : nth_ok w → nth_ok (settle key k b w).
Proof using Type. intros H. unfold settle. destruct (dir_cache w !! k) as [[key' []]|]; try done. destruct (decide _); [by apply nth_ok_dir|done]. Qed.
Lemma Forall_told_writes dn w w' K : writes [dn] w w' → dn ∉ c_name <$> K → Forall (told w) K → Forall (told w') K.
Proof using Type.
  intros Hw Hn HK. rewrite Forall_forall in HK |- *. intros e He. eapply told_writes; [exact Hw| |by apply HK]. intros E%list_elem_of_singleton. apply Hn. rewrite <- E. by apply list_elem_of_fmap_2.
Qed.
Lemma Forall_closed_writes dn w w' K : writes [dn] w w' → dn ∉ c_name <$> K → Forall (closed w) K → Forall (closed w') K.
Proof using Type.
  intros Hw Hn HK. rewrite Forall_forall in HK |- *. intros e He. eapply closed_writes; [exact Hw| |by apply HK]. intros E%list_elem_of_singleton. apply Hn. rewrite <- E. by apply list_elem_of_fmap_2.
Qed.

(** What a combinator has found out about one node is written there. *)
Lemma settled e p b w w1 w2 : told w e → b = c_looks e p → w1 = put_dir (p, c_dir e) ((dirruns w, c_name e), Pending) w → (∃ names, writes names w1 w2 ∧ c_name e ∉ names) →
  let w3 := settle (dirruns w, c_name e) (p, c_dir e) b w2 in
  told w3 e ∧ ∀ q, dir_cache w3 !! (q, c_dir e) = Some ((dirruns w, c_name e), No (cachedruns w)) → q = p ∨ dir_cache w !! (q, c_dir e) = Some ((dirruns w, c_name e), No (cachedruns w)).
Proof using Type.
  intros Ht Hb Hw1 (names & [A1 A2 A3 A4 A5] & Hn). cbn zeta. assert (A2' : dirruns w2 = dirruns w) by (by rewrite A2, Hw1). assert (A3' : cachedruns w2 = cachedruns w) by (by rewrite A3, Hw1).
  assert (Hold : ∀ q v, dir_cache w2 !! (q, c_dir e) = Some ((dirruns w, c_name e), v) → (q = p ∧ v = Pending) ∨ dir_cache w !! (q, c_dir e) = Some ((dirruns w, c_name e), v)).
  { intros q v H. apply A1 in H as [[? _]|H]; [done|]. rewrite Hw1 in H. cbn in H. destruct (decide (q = p)) as [->|Hq]; [rewrite lookup_insert_eq in H; injection H as <-; by left|].
    rewrite lookup_insert_ne in H by congruence. by right. }
  assert (Hnew : ∀ q v, dir_cache (settle (dirruns w, c_name e) (p, c_dir e) b w2) !! (q, c_dir e) = Some ((dirruns w, c_name e), v) →
    (q = p ∧ v = if b then Yes else No (cachedruns w)) ∨ dir_cache w !! (q, c_dir e) = Some ((dirruns w, c_name e), v)).
  { intros q v. unfold settle. destruct (dir_cache w2 !! (p, c_dir e)) as [[key' v']|] eqn:Ep; [|intros H; destruct (Hold q v H) as [[-> ->]|]; [congruence|by right]].
    destruct v'; try (intros H; destruct (Hold q v H) as [[-> ->]|]; [congruence|by right]). destruct (decide (key' = _)) as [->|]; [|intros H; destruct (Hold q v H) as [[-> ->]|]; [congruence|by right]].
    cbn. destruct (decide (q = p)) as [->|Hq]; [rewrite lookup_insert_eq, A3'; intros [= <-]; by left|]. rewrite lookup_insert_ne by congruence. intros H. destruct (Hold q v H) as [[-> ->]|]; [done|by right]. }
  destruct (settle_writes (dirruns w) (c_name e) (p, c_dir e) b w2 (eq_sym A2')) as [_ B2 B3 _ _]. split.
  - intros q v. rewrite B2, B3, A2', A3'. intros H. apply Hnew in H as [[-> ->]|H]; [|by apply Ht in H]. destruct b; [by rewrite <- Hb|]. split; [by rewrite <- Hb|done].
  - intros q H. apply Hnew in H as [[-> _]|H]; [by left|by right].
Qed.

(** Going through nodes without finding anything shows that there is nothing behind those that were passed. *)
Lemma passed_nothing e n l p : along d (c_dir e) n = l → (∀ q, q ∈ l → eligible d (c_base e) (c_dir e) q = true → c_looks e q = false) → p ∈ l → nothing_from e p.
Proof using d_ok.
  intros El Hl Hp q Hq Hel. apply Hl; [|done]. apply list_elem_of_split in Hp as (vis & rest & E). rewrite E in El |- *. apply elem_of_app. right. right. by apply (along_in_rest (c_dir e) n vis p rest).
Qed.

(** The walk of a combinator, after some nodes [vis] with nothing among them. *)
Lemma walk_ok oc K can matcher e n : works oc K can (c_looks e) matcher → (∀ p, eligible d (c_base e) (c_dir e) p = true → can p = true) → c_name e ∉ c_name <$> K →
  ∀ rest vis w, along d (c_dir e) n = vis ++ rest → (∀ q, q ∈ vis → eligible d (c_base e) (c_dir e) q = true → c_looks e q = false) →
  outermostContext w = oc → nth_ok w → Forall (told w) K → Forall (closed w) K → told w e →
  (∀ p, dir_cache w !! (p, c_dir e) = Some ((dirruns w, c_name e), No (cachedruns w)) → p ∈ vis ∨ nothing_from e p) →
  let '(b, w') := walk d matcher (dirruns w, c_name e) (c_base e) (c_dir e) rest w in
  b = existsb (c_looks e) (List.filter (eligible d (c_base e) (c_dir e)) rest) ∧ nth_ok w' ∧ writes (c_name e :: (c_name <$> K)) w w' ∧ Forall (told w') K ∧ told w' e ∧
  (b = false → Forall (closed w') K ∧ closed w' e).
Proof using d_ok.
  intros Hm Hcan Hname. induction rest as [|p rest IH]; intros vis w El Hvis Hoc Hn HtK HcK Ht Hc; cbn [walk List.filter].
  { split; [done|]. do 4 (split; [done|]). intros _. split; [done|]. intros p Hp. apply Hc in Hp as [Hp|Hp]; [|done]. rewrite app_nil_r in El. by apply (passed_nothing e n vis). }
  assert (El' : along d (c_dir e) n = (vis ++ [p]) ++ rest) by (by rewrite <- app_assoc).
  assert (Hskip : (eligible d (c_base e) (c_dir e) p = true → c_looks e p = false) →
    let '(b, w') := walk d matcher (dirruns w, c_name e) (c_base e) (c_dir e) rest w in
    b = existsb (c_looks e) (List.filter (eligible d (c_base e) (c_dir e)) rest) ∧ nth_ok w' ∧ writes (c_name e :: (c_name <$> K)) w w' ∧ Forall (told w') K ∧ told w' e ∧ (b = false → Forall (closed w') K ∧ closed w' e)).
  { intros Hp. apply (IH (vis ++ [p])); try done; [intros q [Hq|Hq%list_elem_of_singleton]%elem_of_app; [by apply Hvis|by rewrite Hq]|]. intros q Hq. apply Hc in Hq as [Hq|Hq]; [|by right]. left. apply elem_of_app. by left. }
  destruct (eligible d (c_base e) (c_dir e) p) eqn:Ee; [|by apply Hskip]. cbn [existsb]. set (key := (dirruns w, c_name e)).
  set (fresh := let w := put_dir (p, c_dir e) (key, Pending) w in let '(b, w) := matcher p w in let w := settle key (p, c_dir e) b w in if b : bool then (true, w) else walk d matcher key (c_base e) (c_dir e) rest w).
  assert (Hfresh : let '(b, w') := fresh in b = c_looks e p || existsb (c_looks e) (List.filter (eligible d (c_base e) (c_dir e)) rest) ∧ nth_ok w' ∧ writes (c_name e :: (c_name <$> K)) w w' ∧ Forall (told w') K ∧ told w' e ∧
    (b = false → Forall (closed w') K ∧ closed w' e)).
  { unfold fresh. cbn zeta. set (w1 := put_dir (p, c_dir e) (key, Pending) w). assert (Hw1 : writes [c_name e] w w1) by (by apply put_writes).
    assert (H1 : Forall (told w1) K ∧ Forall (closed w1) K) by (split; [by eapply Forall_told_writes|by eapply Forall_closed_writes]).
    pose proof (Hm p w1 (Hcan p Ee) Hoc (nth_ok_dir _ _ _ Hn) (proj1 H1) (proj2 H1)) as Hmp. destruct (matcher p w1) as [b w2]. destruct Hmp as (Hb & Hn2 & Hw2 & Ht2 & Hc2).
    destruct (settled e p b w w1 w2 Ht Hb eq_refl) as [Ht3 Hold]; [by exists (c_name <$> K)|]. cbn zeta in Ht3, Hold. fold key in Ht3, Hold. set (w3 := settle key (p, c_dir e) b w2) in *.
    assert (Er : dirruns w = dirruns w2) by (by rewrite (wr_runs _ _ _ Hw2)). assert (Hw3 : writes [c_name e] w2 w3) by (by apply settle_writes).
    assert (Hall : writes (c_name e :: (c_name <$> K)) w w3).
    { etrans; [eapply writes_more; [|exact Hw1]; set_solver|]. etrans; [eapply writes_more; [|exact Hw2]; set_solver|]. eapply writes_more; [|exact Hw3]. set_solver. }
    assert (HtK3 : Forall (told w3) K) by (by eapply Forall_told_writes). rewrite <- Hb. destruct b; [cbn [orb]; repeat (split; [by first [done|apply nth_ok_settle]|]); done|]. cbn [orb].
    assert (Er3 : dirruns w3 = dirruns w) by apply Hall. assert (Ec3 : cachedruns w3 = cachedruns w) by apply Hall.
    assert (HIH : let '(b, w') := walk d matcher (dirruns w3, c_name e) (c_base e) (c_dir e) rest w3 in
      b = existsb (c_looks e) (List.filter (eligible d (c_base e) (c_dir e)) rest) ∧ nth_ok w' ∧ writes (c_name e :: (c_name <$> K)) w3 w' ∧ Forall (told w') K ∧ told w' e ∧ (b = false → Forall (closed w') K ∧ closed w' e)).
    { apply (IH (vis ++ [p])); try done.
      - intros q [Hq|Hq%list_elem_of_singleton]%elem_of_app; [by apply Hvis|by rewrite Hq].
      - by rewrite (wr_outer _ _ _ Hall).
      - by apply nth_ok_settle.
      - eapply Forall_closed_writes; [exact Hw3|done|by apply Hc2].
      - intros q. rewrite Er3, Ec3. intros Hq. apply Hold in Hq as [->|Hq]; [left; apply elem_of_app; right; left|]. apply Hc in Hq as [Hq|Hq]; [|by right]. left. apply elem_of_app. by left. }
    rewrite Er3 in HIH. fold key in HIH. destruct (walk d matcher key (c_base e) (c_dir e) rest w3) as [b w']. destruct HIH as (R1 & R2 & R3 & R4). split; [done|]. split; [done|]. split; [by etrans|done]. }
  destruct (dir_cache w !! (p, c_dir e)) as [[key' v]|] eqn:Ep; [|exact Hfresh]. destruct (decide (key' = key)) as [->|]; [|exact Hfresh]. pose proof (Ht p v Ep) as Hv. destruct v as [| |k]; [done| |].
  - rewrite Hv. cbn [orb]. by repeat (split; [done|]).
  - destruct Hv as [Hv Hk]. rewrite Hv. cbn [orb]. destruct (N.eqb_spec k (cachedruns w)) as [->|Hne]; [|by apply Hskip].
    assert (Hp : nothing_from e p). { apply Hc in Ep as [Hin|Hp]; [|done]. pose proof (along_order _ _ _ _ _ p El Hin). lia. }
    assert (Hrest : ∀ q, q ∈ rest → eligible d (c_base e) (c_dir e) q = true → c_looks e q = false) by (intros q Hq; apply Hp; by rewrite (along_rest _ _ _ _ _ El)).
    split. { symmetry. apply not_true_iff_false. intros (q & Hq & Hlq)%existsb_exists. apply List.filter_In in Hq as [Hq Heq]. apply list_elem_of_In in Hq. by rewrite (Hrest q Hq Heq) in Hlq. }
    do 4 (split; [done|]). intros _. split; [done|]. intros q Hq. apply Hc in Hq as [Hq|Hq]; [|done]. apply (passed_nothing e n _ q El); [|apply elem_of_app; by left].
    intros z [Hz|[->|Hz]%elem_of_cons]%elem_of_app; [by apply Hvis|done|by apply Hrest].
Qed.

Lemma find_first {A} (f : A → bool) l : List.find f l = head (List.filter f l).
Proof using Type. induction l as [|x l IH]; [done|]. cbn. by destruct (f x). Qed.

Lemma combine_ok oc K can matcher r base dn P : works oc K can P matcher → (∀ p, eligible d base (r_dir r) p = true → can p = true) → dn ∉ c_name <$> K →
  works oc ({| c_name := dn; c_dir := r_dir r; c_base := base; c_looks := P |} :: K) (λ _, true) (related r base P) (combine d matcher r base dn).
Proof using d_ok.
  intros Hm Hcan Hname n w _ Hoc Hn Ht Hc. apply Forall_cons in Ht as [Hte HtK]. apply Forall_cons in Hc as [Hce HcK]. unfold combine, related. set (e := {| c_name := dn |}) in *. destruct (r_first r).
  - unfold closest. rewrite find_first. pose proof (List.filter_In (eligible d base (r_dir r))) as Hf. destruct (List.filter (eligible d base (r_dir r)) (along d (r_dir r) n)) as [|p l] eqn:El; cbn [head].
    { split; [done|]. split; [done|]. split; [done|]. split; [by constructor|]. by constructor. }
    assert (Hp : eligible d base (r_dir r) p = true) by (apply (Hf p (along d (r_dir r) n)); rewrite El; by left).
    pose proof (Hm p w (Hcan p Hp) Hoc Hn HtK HcK) as Hmp. destruct (matcher p w) as [b w']. destruct Hmp as (R1 & R2 & R3 & R4 & R5). split; [done|]. split; [done|].
    split; [eapply writes_more; [|exact R3]; cbn; set_solver|]. split; [constructor; [by eapply told_writes|done]|]. intros Hb. constructor; [by eapply closed_writes|auto].
  - pose proof (walk_ok oc K can matcher e n Hm Hcan Hname (along d (r_dir r) n) [] w eq_refl) as H. cbn [c_dir c_base c_looks e c_name] in H.
    assert (Hv : ∀ q, q ∈ @nil nat → eligible d base (r_dir r) q = true → P q = false) by (by intros q ?%not_elem_of_nil).
    specialize (H Hv Hoc Hn HtK HcK Hte (λ p Hp, or_intror (Hce p Hp))). destruct (walk _ _ _ _ _ _ w) as [b w']. destruct H as (R1 & R2 & R3 & R4 & R5 & R6). split; [done|]. split; [done|]. split; [done|]. split; [by constructor|].
    intros Hb. destruct (R6 Hb). by constructor.
Qed.

(** After filters, the rest. *)
Lemma after_filters oc K P fs matcher : works oc K (λ _, true) P matcher →
  works oc K (is_element d) (λ n, forallb (λ f, filter_holds f n) fs && P n) (λ n w, let '(b, w) := all_pass d (rev fs) n w in if b then matcher n w else (false, w)).
Proof using d_ok.
  intros Hm n w He Hoc Hn Ht Hc. pose proof (all_pass_ok (rev fs) n w Hn He) as H. destruct (all_pass d (rev fs) n w) as [b w1]. destruct H as (Hb & Hn1 & Hs). rewrite forallb_rev in Hb. rewrite <- Hb.
  assert (Forall (told w1) K ∧ Forall (closed w1) K) as [Ht1 Hc1] by (split; eapply Forall_impl; [exact Ht|intros e; by apply told_same|exact Hc|intros e; by apply closed_same]).
  destruct b; cbn [andb].
  - pose proof (Hm n w1 eq_refl) as Hmp. rewrite (sc_outer _ _ Hs) in Hmp. specialize (Hmp Hoc Hn1 Ht1 Hc1). destruct (matcher n w1) as [b w2]. destruct Hmp as (R1 & R2 & R3 & R4). split; [done|]. split; [done|]. split; [|done]. etrans; [by apply same_writes|done].
  - split; [done|]. split; [done|]. split; [by apply same_writes|]. by split.
Qed.

(** The outermost context, when matchers run in a context. *)
Definition outer (context : nat) : option nat := if decide (context = document d) then None else Some context.

Lemma from_context_ok leading dn context : works (outer context) (cells (Base leading dn 0 []) context) (λ _, true)
  (λ n, match leading with None => bool_decide (context = document d) | Some _ => false end || related (default descendant leading) true (λ p, bool_decide (p = context)) n) (from_context d leading dn context).
Proof using d_ok.
  assert (Hc : works (outer context) (cells (Base leading dn 0 []) context) (λ _, true) (related (default descendant leading) true (λ p, bool_decide (p = context)))
    (combine d (λ p w, (bool_decide (p = context), w)) (default descendant leading) true dn)).
  { cbn [cells]. apply (combine_ok _ [] (λ _, true)); [|done|apply not_elem_of_nil]. intros p w _ _ Hn _ _. by repeat (split; [done|]). }
  intros n w Hcan Hoc Hn Ht Hcl. specialize (Hc n w Hcan Hoc Hn Ht Hcl). unfold from_context. destruct leading as [r|]; cbn [default from_option id andb orb] in *; [done|].
  rewrite Hoc. unfold outer. destruct (decide (context = document d)) as [E|E].
  - rewrite bool_decide_false by done. cbn [negb]. rewrite bool_decide_true by done. split; [done|]. by repeat (split; [done|]).
  - rewrite bool_decide_true by done. cbn [negb]. by rewrite bool_decide_false.
Qed.

Lemma chain_run_ok context c : NoDup (c_name <$> cells c context) → works (outer context) (cells c context) (is_element d) (sat c context) (run d c context).
Proof using d_ok.
  induction c as [leading dn da fs|inner IH r dn fs]; cbn [cells]; intros Hd.
  - apply (after_filters (outer context) (cells (Base leading dn da fs) context) _ fs (from_context d leading dn context)). apply from_context_ok.
  - cbn in Hd. apply NoDup_cons in Hd as [Hn Hd]. apply (after_filters (outer context) _ (related r false (sat inner context)) fs (combine d (run d inner context) r false dn)).
    apply (combine_ok _ _ (is_element d)); [by apply IH| |done]. intros p. unfold eligible. cbn. by rewrite orb_false_r.
Qed.

(** ** Runs *)

Definition all_cells (cs : list chain) (context : nat) : list cell := concat ((λ c, cells c context) <$> cs).

Lemma run_any_ok context cs : NoDup (c_name <$> all_cells cs context) →
  works (outer context) (all_cells cs context) (is_element d) (λ n, existsb (λ c, sat c context n) cs) (run_any d cs context).
Proof using d_ok.
  induction cs as [|c cs IH]; intros Hd n w He Hoc Hn Ht Hc; cbn [run_any existsb]; [by repeat (split; [done|])|]. cbn [all_cells fmap list_fmap concat] in *. fold (all_cells cs context) in *.
  rewrite fmap_app in Hd. apply NoDup_app in Hd as (Hd1 & Hd2 & Hd3). apply Forall_app in Ht as [Ht1 Ht2]. apply Forall_app in Hc as [Hc1 Hc2].
  assert (Hother : ∀ (F : sworld → cell → Prop) w1 w2 names K, (∀ e, writes names w1 w2 → c_name e ∉ names → F w1 e → F w2 e) → writes names w1 w2 → (∀ x, x ∈ names → x ∉ c_name <$> K) → Forall (F w1) K → Forall (F w2) K).
  { intros F w1 w2 names K HF Hw HK HFK. rewrite Forall_forall in HFK |- *. intros e Hin. apply HF; [done| |by apply HFK]. intros Hx. apply (HK _ Hx). by apply list_elem_of_fmap_2. }
  pose proof (chain_run_ok context c Hd1 n w He Hoc Hn Ht1 Hc1) as H. destruct (run d c context n w) as [b w1]. destruct H as (R1 & R2 & R3 & R4 & R5). rewrite <- R1.
  assert (Ht2' : Forall (told w1) (all_cells cs context)) by (eapply Hother; [intros e; apply told_writes|exact R3|exact Hd2|done]).
  destruct b; cbn [orb].
  - split; [done|]. split; [done|]. split; [eapply writes_more; [|exact R3]; rewrite fmap_app; set_solver|]. split; [|done]. by apply Forall_app.
  - assert (Hc2' : Forall (closed w1) (all_cells cs context)) by (eapply Hother; [intros e; apply closed_writes|exact R3|exact Hd2|done]).
    pose proof (IH Hd3 n w1 He) as H. rewrite (wr_outer _ _ _ R3) in H. specialize (H Hoc R2 Ht2' Hc2'). destruct (run_any d cs context n w1) as [b w2]. destruct H as (S1 & S2 & S3 & S4 & S5).
    assert (Hd2' : ∀ x, x ∈ c_name <$> all_cells cs context → x ∉ c_name <$> cells c context) by (intros x Hx Hy; by apply (Hd2 x)).
    split; [done|]. split; [done|]. rewrite fmap_app. split; [etrans; [eapply writes_more; [|exact R3]|eapply writes_more; [|exact S3]]; set_solver|]. split.
    + apply Forall_app. split; [|done]. by eapply Hother; [intros e; apply told_writes|exact S3|..].
    + intros Hb. apply Forall_app. split; [|by apply S5]. eapply Hother; [intros e; apply closed_writes|exact S3|done|by apply R5].
Qed.

Lemma run_elements_ok context cs elems : NoDup (c_name <$> all_cells cs context) → Forall (λ n, is_element d n = true) elems →
  ∀ w, outermostContext w = outer context → nth_ok w → Forall (told w) (all_cells cs context) → Forall (closed w) (all_cells cs context) →
  let '(l, w') := run_elements d cs context elems w in l = List.filter (λ n, existsb (λ c, sat c context n) cs) elems ∧ nth_ok w' ∧
    dirruns w' = dirruns w ∧ ∀ k r dn v, dir_cache w' !! k = Some ((r, dn), v) → r = dirruns w ∨ dir_cache w !! k = Some ((r, dn), v).
Proof using d_ok.
  intros Hd. induction 1 as [|n elems He Hel IH]; intros w Hoc Hn Ht Hc; cbn [run_elements List.filter]; [split; [done|]; split; [done|]; split; [done|]; auto|].
  pose proof (run_any_ok context cs Hd n w He Hoc Hn Ht Hc) as H. destruct (run_any d cs context n w) as [b w1]. destruct H as (R1 & R2 & R3 & R4 & R5). set (w2 := set_runs _ w1).
  assert (Ht2 : Forall (told w2) (all_cells cs context)).
  { eapply Forall_impl; [exact R4|]. intros e H p v Hv. specialize (H p v Hv). destruct v; [done..|]. destruct H as [H1 H2]. split; [done|]. cbn. lia. }
  assert (Hc2 : Forall (closed w2) (all_cells cs context)).
  { eapply Forall_impl; [exact R4|]. intros e H p Hv. specialize (H p _ Hv). destruct H as [_ H]. cbn in H. lia. }
  assert (Hn2 : nth_ok w2) by (destruct R2; by split). specialize (IH w2 (eq_trans (wr_outer _ _ _ R3) Hoc) Hn2 Ht2 Hc2). destruct (run_elements d cs context elems w2) as [l w']. destruct IH as (S1 & S2 & S3 & S4).
  rewrite <- R1. split; [destruct b; by rewrite S1|]. split; [done|]. split; [rewrite S3; apply R3|]. intros k r dn v Hk. apply S4 in Hk as [Hk|Hk]; [left; rewrite Hk; apply R3|]. apply R3 in Hk as [[_ Hk]|Hk]; auto.
Qed.

Lemma superMatcher_ok cs context runs elems w : world_ok w → NoDup (c_name <$> all_cells cs context) → Forall (λ n, is_element d n = true) elems →
  let '(l, _, w') := superMatcher d cs context runs elems w in
  l = List.filter (λ n, existsb (λ c, sat c context n) cs) elems ∧ world_ok w'.
Proof using d_ok.
  intros [Hn1 Hn2 Hdir Hout] Hd Hel. unfold superMatcher. fold (outer context). set (w1 := set_runs runs _).
  assert (Hold : ∀ k r dn v, dir_cache w1 !! k = Some ((r, dn), v) → (r < dirruns w1)%N) by (intros k r dn v Hk; apply Hdir in Hk; cbn; lia).
  assert (Hn : nth_ok w1).
  { split.
    - intros p r i k Hk. apply Hn1 in Hk. cbn. split; [lia|]. intros ->. lia.
    - intros p r k Hk. apply Hn2 in Hk. cbn. split; [lia|]. intros ->. lia. }
  assert (Ht : Forall (told w1) (all_cells cs context)) by (apply Forall_forall; intros e _ p v Hk; apply Hold in Hk; lia).
  assert (Hc : Forall (closed w1) (all_cells cs context)) by (apply Forall_forall; intros e _ p Hk; apply Hold in Hk; lia).
  pose proof (run_elements_ok context cs elems Hd Hel w1 eq_refl Hn Ht Hc) as H. destruct (run_elements d cs context elems w1) as [l w2]. destruct H as (R1 & [R2 R2'] & R3 & R4). split; [done|].
  split; [intros * Hk; by apply R2 in Hk as [? _]|intros * Hk; by apply R2' in Hk as [? _]| |done]. intros k r dn v Hk. cbn in Hk |- *. rewrite R3. apply R4 in Hk as [->|Hk]; [done|]. apply Hold in Hk. lia.
Qed.

(** The numbers a*m + b, for m from 0 on. *)
Lemma nth_formula a b k : nth_passes a b k = true ↔ ∃ m : Z, (0 <= m)%Z ∧ Z.of_nat k = (a * m + b)%Z.
Proof using Type.
  unfold nth_passes. set (diff := (Z.of_nat k - b)%Z). rewrite orb_true_iff, !andb_true_iff, negb_true_iff, Z.eqb_eq, Z.eqb_neq, Z.eqb_eq, Z.leb_le. split.
  - intros [E|[[Ha Hr] Hs]]; [exists 1%Z; lia|]. apply Z.rem_divide in Hr as [m Hm]; [|done]. exists m. split; [|lia]. nia.
  - intros (m & Hm & E). assert (Ed : diff = (a * m)%Z) by lia. destruct (Z.eq_dec a 0%Z) as [->|Ha]; [left; lia|right]. rewrite Ed. split; [split; [done|]|nia]. rewrite Z.mul_comm. by apply Z.rem_mul.
Qed.

(** C21. Matching with what is written on elements is exact: for any compiled selector whose combinators have numbers of
    their own, whatever earlier runs have left on the elements and however the document was then, a run returns those of the elements, in order, for which one of
    the selectors of the group holds, as read off the document. *)
Theorem matching_exact cs context runs elems w : world_ok w → NoDup (c_name <$> all_cells cs context) → Forall (λ n, is_element d n = true) elems →
  let '(l, _, w') := superMatcher d cs context runs elems w in
  l = List.filter (λ n, existsb (λ c, sat c context n) cs) elems ∧ world_ok w'.
Proof using d_ok. apply superMatcher_ok. Qed.
End facts.

(** ** A document *)

(** A list of two items with text between them; the second one holds a bold word. *)
Definition some_dom : dom := {|
  nodeType n := nth n [9; 1; 1; 3; 1; 1] 0;
  nodeName n := nth n ["#document"; "UL"; "LI"; "#text"; "LI"; "B"] "";
  className n := nth n [""; ""; "odd"; ""; "even last"; ""] "";
  attr _ _ := None;
  parentNode n := nth n [None; Some 0; Some 1; Some 1; Some 1; Some 4] None;
  childNodes n := nth n [[1]; [2; 3; 4]; []; []; [5]; []] [];
  position n := n;
  document := 0
|}.
Lemma some_dom_child n p : parentNode some_dom n = Some p ↔ n ∈ childNodes some_dom p.
Proof.
  split; intros H.
  - do 6 (destruct n as [|n]; [cbn in H; simplify_eq; cbn; set_solver|]). by destruct n.
  - do 6 (destruct p as [|p]; [cbn in H; repeat (apply elem_of_cons in H as [->|H]; [done|]); by apply not_elem_of_nil in H|]).
    destruct p; by apply not_elem_of_nil in H.
Qed.
Lemma some_dom_ok : dom_ok some_dom.
Proof.
  split; [|apply some_dom_child|..].
  - intros n p H. do 6 (destruct n as [|n]; [cbn in H; simplify_eq; cbn; lia|]). by destruct n.
  - intros p. do 6 (destruct p as [|p]; [cbn; apply (bool_decide_unpack _); vm_compute; exact I|]). destruct p; constructor.
  - intros p i j x y Hx Hy Hij. do 6 (destruct p as [|p]; [do 4 (destruct i as [|i]; [do 4 (destruct j as [|j]; [cbn in Hx, Hy; simplify_eq; cbn; lia|]); by cbn in Hy|]); by cbn in Hx|]).
    by destruct p.
Qed.

(** What earlier runs wrote is still there: that the list is no item's parent. *)
Definition written_world : sworld := {| dirruns := 5; cachedruns := 2; done := 9; outermostContext := None;
  dir_cache := {[ (1, ParentNode) := ((4%N, 0%N), No 1); (4, ParentNode) := ((5%N, 2%N), Yes) ]}; nth_cache := {[ 1 := (5%N, 2, 7) ]}; nth_last_cache := ∅ |}.

Lemma matching_exact_witness :
  (superMatcher some_dom [Step (Base None 0 1 [TAG (Some "ul")]) {| r_dir := ParentNode; r_first := true |} 2 [CHILD "last" false None]] 0 0 [2; 4; 5] written_world).1.1 =
  List.filter (λ n, existsb (λ c, sat some_dom c 0 n) [Step (Base None 0 1 [TAG (Some "ul")]) {| r_dir := ParentNode; r_first := true |} 2 [CHILD "last" false None]]) [2; 4; 5] ∧
  (superMatcher some_dom [Step (Base None 0 1 [TAG (Some "ul")]) {| r_dir := ParentNode; r_first := true |} 2 [CHILD "last" false None]] 0 0 [2; 4; 5] written_world).1.1 = [4].
Proof.
  split; [|vm_compute; reflexivity].
  pose proof (matching_exact some_dom some_dom_ok [Step (Base None 0 1 [TAG (Some "ul")]) {| r_dir := ParentNode; r_first := true |} 2 [CHILD "last" false None]] 0 0 [2; 4; 5] written_world) as H.
  destruct (superMatcher _ _ _ _ _ _) as [[l r] w']. destruct H as [H _]; [| | |exact H].
  - split; [..|reflexivity]; cbn; intros * H.
    + apply lookup_singleton_Some in H as [_ H]. simplify_eq. lia.
    + by rewrite lookup_empty in H.
    + apply lookup_insert_Some in H as [[_ H]|[_ [_ H]%lookup_singleton_Some]]; simplify_eq; lia.
  - apply (bool_decide_unpack _). vm_compute. exact I.
  - repeat constructor.
Defined.
