(* ===== verification/SizzleTokens.v ===== *)
(** * Selectors into tokens and matchers (jquery-1.9.1.js: Sizzle)

    The patterns of the engine are put together from their sources.  A selector is cut into groups of
    tokens, these are compiled into matchers, and both are kept in caches of limited size.

    What needs pseudo-classes or characters above 255 is outside of the model: there the work is
    [Unfinished]. *)

From S2P Require Import Prelude JSValue Forms Patterns Sizzle.

(** ** Patterns *)

Definition quote : string := String "034" "".
Definition characterEncoding : string := "(?:\\.|[\w-]|[^\x00-\xa0])+".
Definition identifier : string := "(?:\\.|[\w#-]|[^\x00-\xa0])+".
Definition operators : string := "([*^$|!~]?=)".
(** [attributes], with the number of the group for its quotes *)
Definition attributes (ref : string) : string :=
  "\[" +:+ whitespace +:+ "*(" +:+ characterEncoding +:+ ")" +:+ whitespace +:+ "*(?:" +:+ operators +:+ whitespace +:+
  "*(?:(['" +:+ quote +:+ "])((?:\\.|[^\\])*?)\" +:+ ref +:+ "|(" +:+ identifier +:+ ")|)|)" +:+ whitespace +:+ "*\]".
Definition pseudos : string :=
  ":(" +:+ characterEncoding +:+ ")(?:\(((['" +:+ quote +:+ "])((?:\\.|[^\\])*?)\3|((?:\\.|[^\\()[\]]|" +:+ attributes "8" +:+ ")*)|.*)\)|)".

Definition rtrim : string := "^" +:+ whitespace +:+ "+|((?:^|[^\\])(?:\\.)*)" +:+ whitespace +:+ "+$".
Definition rcomma : string := "^" +:+ whitespace +:+ "*," +:+ whitespace +:+ "*".
Definition rcombinators : string := "^" +:+ whitespace +:+ "*([\x20\t\r\n\f>+~])" +:+ whitespace +:+ "*".

Definition match_ID : string := "^#(" +:+ characterEncoding +:+ ")".
Definition match_CLASS : string := "^\.(" +:+ characterEncoding +:+ ")".
Definition match_TAG : string := "^((?:\\.|[\w*-]|[^\x00-\xa0])+)".
Definition match_ATTR : string := "^" +:+ attributes "3".
Definition match_PSEUDO : string := "^" +:+ pseudos.
Definition match_CHILD : string :=
  "^:(only|first|last|nth|nth-last)-(child|of-type)(?:\(" +:+ whitespace +:+ "*(even|odd|(([+-]|)(\d*)n|)" +:+ whitespace +:+
  "*(?:([+-]|)" +:+ whitespace +:+ "*(\d+)|))" +:+ whitespace +:+ "*\)|)".

Definition ignoring_case : flags := {| ignoreCase := true; multiline := false; global := false |}.
Definition no_pattern : pattern := {| p_pat := PSet false []; p_flags := plain_flags; p_groups := 0 |}.
Definition re (source : string) (f : flags) : pattern := default no_pattern (RegExp (list_ascii_of_string source) f).

Definition piece (t : list ascii) (a b : nat) : string := string_of_list_ascii (take (b - a) (drop a t)).

(** [exec]: the match and its groups *)
Definition exec (p : pattern) (s : string) : option (list (option string)) :=
  mt ← pattern_exec p (list_ascii_of_string s) 0;
  Some (Some (piece (list_ascii_of_string s) (mt_index mt) (mt_end mt))
        :: ((λ i, ab ← mjoin (mt_caps mt !! i); Some (piece (list_ascii_of_string s) ab.1 ab.2)) <$> seq 1 (p_groups p))).

(** [match[i]] *)
Definition group (m : list (option string)) (i : nat) : option string := mjoin (m !! i).
Definition group_or (m : list (option string)) (i : nat) : string := default "" (group m i).
Definition given (o : option string) : bool := match o with None | Some "" => false | Some _ => true end.

(** [s.replace( rtrim, "$1" )] *)
Fixpoint trim_from (fuel : nat) (t : list ascii) (i : nat) : list ascii :=
  match fuel with
  | O => drop i t
  | S fuel =>
      match pattern_exec (re rtrim plain_flags) t i with
      | None => drop i t
      | Some mt =>
          take (mt_index mt - i) (drop i t) ++
          (match mjoin (mt_caps mt !! 1) with Some (a, b) => take (b - a) (drop a t) | None => [] end) ++ trim_from fuel t (mt_end mt)
      end
  end.
Definition trimmed (s : string) : string := string_of_list_ascii (trim_from (S (String.length s)) (list_ascii_of_string s) 0).

(** ** Escapes *)

Definition is_white (c : ascii) : bool := Ascii.eqb c " " || Ascii.eqb c "009" || Ascii.eqb c "013" || Ascii.eqb c "010" || Ascii.eqb c "012".

(** At most [k] digits. *)
Fixpoint hex_prefix (k : nat) (acc : N) (s : string) : N * string :=
  match k, s with
  | S k, String c s' => match hex_digit_value c with Some h => hex_prefix k (16 * acc + h)%N s' | None => (acc, s) end
  | _, _ => (acc, s)
  end.

(** [s.replace( runescape, funescape )] *)
Fixpoint unescape_from (fuel : nat) (s : string) : option string :=
  match fuel with
  | O => Some s
  | S fuel =>
      match s with
      | EmptyString => Some ""
      | String "\" (String c s') =>
          match hex_digit_value c with
          | Some _ =>
              let '(n, r) := hex_prefix 6 0 (String c s') in
              let r := match r with String b r' => if is_white b then r' else r | _ => r end in
              if (n <? 256)%N then String (ascii_of_N n) <$> unescape_from fuel r else None
          | None => if is_line_end c then String "\" <$> unescape_from fuel (String c s') else String c <$> unescape_from fuel s'
          end
      | String c s' => String c <$> unescape_from fuel s'
      end
  end.
Definition unescape (s : string) : option string := unescape_from (S (String.length s)) s.
Definition unescaped (s : string) : outcome string := match unescape s with Some s => Done s | None => Unfinished end.

(** ** Tokens *)

Record token := { tk_value : string; tk_type : string; tk_matches : list (option string); tk_nth : option (Z * Z) }.

(** [Expr.filter] in the order of the language *)
Definition filter_types : list string := ["TAG"; "CLASS"; "ATTR"; "CHILD"; "PSEUDO"; "ID"].
Definition matchExpr (type : string) : pattern :=
  if String.eqb type "TAG" then re match_TAG plain_flags
  else if String.eqb type "CLASS" then re match_CLASS plain_flags
  else if String.eqb type "ATTR" then re match_ATTR plain_flags
  else if String.eqb type "CHILD" then re match_CHILD ignoring_case
  else if String.eqb type "PSEUDO" then re match_PSEUDO plain_flags
  else if String.eqb type "ID" then re match_ID plain_flags
  else no_pattern.

(** [Sizzle.error( msg )] *)
Definition syntax_error {A} (msg : string) : outcome A := Fails (Raised ("Syntax error, unrecognized expression: " +:+ msg)).

(** A sign and digits as a number *)
Definition signed (s : string) : Z :=
  match s with
  | String "-" d => - Z.of_N (nat_of_digits d)
  | String "+" d => Z.of_N (nat_of_digits d)
  | d => Z.of_N (nat_of_digits d)
  end.

Definition after (k : nat) (s : string) : string := string_of_list_ascii (drop k (list_ascii_of_string s)).
(** [s.slice( 0, e )] *)
Definition slice_to (e : Z) (s : string) : string :=
  let n := if (e <? 0)%Z then Z.max 0 (Z.of_nat (String.length s) + e) else e in string_of_list_ascii (take (Z.to_nat n) (list_ascii_of_string s)).
(** [s.indexOf( ")", from )] *)
Fixpoint index_close (s : string) (i from : nat) : Z :=
  match s with
  | EmptyString => -1
  | String c s' => if Ascii.eqb c ")" && (from <=? i)%nat then Z.of_nat i else index_close s' (S i) from
  end.

(** [preFilter.ATTR] *)
Definition pre_ATTR (m : list (option string)) : outcome (option token) :=
  name ← unescaped (group_or m 1);
  v ← unescaped (if given (group m 4) then group_or m 4 else group_or m 5);
  let v := if decide (group m 2 = Some "~=") then " " +:+ v +:+ " " else v in
  Done (Some {| tk_value := group_or m 0; tk_type := "ATTR"; tk_matches := [Some name; group m 2; Some v]; tk_nth := None |}).

(** [preFilter.CHILD] *)
Definition pre_CHILD (m : list (option string)) : outcome (option token) :=
  let type := lower (group_or m 1) in
  let arg := group m 3 in
  if String.prefix "nth" type then
    if given arg then
      let half := bool_decide (arg = Some "even") || bool_decide (arg = Some "odd") in
      let first := if given (group m 4) then signed (group_or m 5 +:+ (if given (group m 6) then group_or m 6 else "1")) else if half then 2%Z else 0%Z in
      let last := match group m 7, group m 8 with
                  | Some a, Some b => signed (a +:+ b)
                  | _, _ => if decide (arg = Some "odd") then 1%Z else 0%Z
                  end in
      Done (Some {| tk_value := group_or m 0; tk_type := "CHILD"; tk_matches := Some type :: drop 2 m; tk_nth := Some (first, last) |})
    else syntax_error (group_or m 0)
  else if given arg then syntax_error (group_or m 0)
  else Done (Some {| tk_value := group_or m 0; tk_type := "CHILD"; tk_matches := Some type :: drop 2 m; tk_nth := None |}).

(** [preFilter.PSEUDO]; [parse_only] is [tokenize( _, true )]. *)
Definition pre_PSEUDO (parse_only : string → outcome nat) (m : list (option string)) : outcome (option token) :=
  let token value arg := Done (Some {| tk_value := value; tk_type := "PSEUDO"; tk_matches := [group m 1; arg]; tk_nth := None |}) in
  let unquoted := if given (group m 5) then "" else group_or m 2 in
  if match exec (re match_CHILD ignoring_case) (group_or m 0) with Some _ => true | None => false end then Done None
  else if given (group m 4) then token (group_or m 0) (group m 4)
  else if given (Some unquoted) && match exec (re pseudos plain_flags) unquoted with Some _ => true | None => false end then
    n ← parse_only unquoted;
    let excess := (index_close unquoted 0 (String.length unquoted - n) - Z.of_nat (String.length unquoted))%Z in
    if (n =? 0)%nat || (excess =? 0)%Z then token (group_or m 0) (group m 2)
    else token (slice_to excess (group_or m 0)) (Some (slice_to excess unquoted))
  else token (group_or m 0) (group m 2).

Definition preFilter (parse_only : string → outcome nat) (type : string) (m : list (option string)) : outcome (option token) :=
  if String.eqb type "ATTR" then pre_ATTR m
  else if String.eqb type "CHILD" then pre_CHILD m
  else if String.eqb type "PSEUDO" then pre_PSEUDO parse_only m
  else Done (Some {| tk_value := group_or m 0; tk_type := type; tk_matches := tail m; tk_nth := None |}).

(** [for ( type in Expr.filter )]: the rest of the selector and the tokens so far *)
Fixpoint take_filters (parse_only : string → outcome nat) (types : list string) (soFar : string) (tokens : list token) : outcome (string * list token) :=
  match types with
  | [] => Done (soFar, tokens)
  | type :: types' =>
      match exec (matchExpr type) soFar with
      | None => take_filters parse_only types' soFar tokens
      | Some m =>
          o ← preFilter parse_only type m;
          match o with
          | None => take_filters parse_only types' soFar tokens
          | Some tk => take_filters parse_only types' (after (String.length (tk_value tk)) soFar) (tokens ++ [tk])
          end
      end
  end.

Definition take_combinator (soFar : string) : option (string * token) :=
  m ← exec (re rcombinators plain_flags) soFar;
  let c := group_or m 1 in
  let type := match c with String b _ => if is_white b then " " else c | EmptyString => c end in
  Some (after (String.length (group_or m 0)) soFar, {| tk_value := group_or m 0; tk_type := type; tk_matches := []; tk_nth := None |}).

(** Comma and first run: the groups before the last one, which is [tokens]. *)
Definition take_comma (soFar : string) (groups : list (list token)) (tokens : option (list token)) : string * list (list token) * list token :=
  match tokens with
  | None => (soFar, groups, [])
  | Some l =>
      match exec (re rcomma plain_flags) soFar with
      | Some m => let s := after (String.length (group_or m 0)) soFar in (if String.eqb s "" then soFar else s, groups ++ [l], [])
      | None => (soFar, groups, l)
      end
  end.

(** The loop of [tokenize]: [groups] are those before the last one, which is [tokens]; it returns what could not be
    read. *)
Fixpoint tokenize_loop (fuel : nat) (soFar : string) (groups : list (list token)) (tokens : option (list token)) : outcome (string * list (list token)) :=
  match fuel with
  | O => Unfinished
  | S fuel =>
      if String.eqb soFar "" then Done (soFar, groups ++ match tokens with Some l => [l] | None => [] end)
      else
        let '(soFar, groups, tokens) := take_comma soFar groups tokens in
        let '(s1, tokens1) := match take_combinator soFar with Some (s, tk) => (s, tokens ++ [tk]) | None => (soFar, tokens) end in
        '(s2, tokens2) ← take_filters (λ u, '(rest, _) ← tokenize_loop fuel u [] None; Done (String.length rest)) filter_types s1 tokens1;
        if (length tokens2 =? length tokens)%nat then Done (s2, groups ++ [tokens2])
        else tokenize_loop fuel s2 groups (Some tokens2)
  end.

(** [tokenize( selector )] *)
Definition tokenize (selector : string) : outcome (list (list token)) :=
  '(rest, groups) ← tokenize_loop (S (String.length selector)) selector [] None;
  if String.eqb rest "" then Done groups else syntax_error selector.

(** [toSelector( tokens )] *)
Definition toSelector (tokens : list token) : string := foldr (λ tk s, tk_value tk +:+ s) "" tokens.

(** ** Matchers from tokens *)

(** [Expr.filter[ type ].apply( null, matches )] *)
Definition filter_of (tk : token) : outcome filter :=
  let type := tk_type tk in
  let arg := group_or (tk_matches tk) 0 in
  if String.eqb type "TAG" then if String.eqb arg "*" then Done (TAG None) else name ← unescaped arg; Done (TAG (Some (lower name)))
  else if String.eqb type "CLASS" then match class_re arg with Some p => Done (CLASS p) | None => Unfinished end
  else if String.eqb type "ID" then id ← unescaped arg; Done (ID id)
  else if String.eqb type "ATTR" then Done (ATTR arg (group (tk_matches tk) 1) (group_or (tk_matches tk) 2))
  else if String.eqb type "CHILD" then Done (CHILD arg (bool_decide (group (tk_matches tk) 1 = Some "of-type")) (tk_nth tk))
  else Unfinished.

(** [matchers.push( matcher )] *)
Definition push_filter (f : filter) (c : chain) : chain :=
  match c with Base leading dn da fs => Base leading dn da (fs ++ [f]) | Step inner r dn fs => Step inner r dn (fs ++ [f]) end.

Fixpoint extend_chain (c : chain) (tokens : list token) (w : sworld) : outcome (chain * sworld) :=
  match tokens with
  | [] => Done (c, w)
  | tk :: tokens' =>
      match relative_of (tk_type tk) with
      | Some r => let '(dn, w) := next_done w in extend_chain (Step c r dn []) tokens' w
      | None => f ← filter_of tk; extend_chain (push_filter f c) tokens' w
      end
  end.

(** [matcherFromTokens( tokens )] *)
Definition matcherFromTokens (tokens : list token) (w : sworld) : outcome (chain * sworld) :=
  match tokens with
  | [] => Fails TypeError
  | tk :: tokens' =>
      let '(d1, w) := next_done w in
      let '(d2, w) := next_done w in
      match relative_of (tk_type tk) with
      | Some r => extend_chain (Base (Some r) d1 d2 []) tokens' w
      | None => extend_chain (Base None d1 d2 []) tokens w
      end
  end.

(** The groups, from the last to the first *)
Fixpoint matchers_of (groups : list (list token)) (w : sworld) : outcome (list chain * sworld) :=
  match groups with
  | [] => Done ([], w)
  | g :: groups' => '(c, w) ← matcherFromTokens g w; '(cs, w) ← matchers_of groups' w; Done (c :: cs, w)
  end.

(** ** Caches of limited size *)

(** [createCache()] *)
Record scache V := { ca_keys : list string; ca_values : gmap string V }.
Arguments ca_keys {V} _.
Arguments ca_values {V} _.
Arguments Build_scache {V} _ _.
Definition cacheLength : nat := 50.
Definition no_cache {V} : scache V := {| ca_keys := []; ca_values := ∅ |}.
Definition cache_get {V} (key : string) (c : scache V) : option V := ca_values c !! (key +:+ " ").
Definition cache_put {V} (key : string) (v : V) (c : scache V) : scache V :=
  let key := key +:+ " " in
  let keys := ca_keys c ++ [key] in
  if (cacheLength <? length keys)%nat then {| ca_keys := tail keys; ca_values := <[key := v]> (match keys with k :: _ => delete k (ca_values c) | [] => ca_values c end) |}
  else {| ca_keys := keys; ca_values := <[key := v]> (ca_values c) |}.

(** ** The engine *)

(** A compiled selector: its number, by which its [matcherCachedRuns] is found, and its matchers. *)
Record compiled := { cp_id : N; cp_chains : list chain }.
Record engine := {
  en_world : sworld;
  en_tokens : scache (list (list token));
  en_compiled : scache compiled;
  en_runs : gmap N N;
  en_fresh : N
}.

(** [tokenize( selector )] with its cache *)
Definition tokenize_cached (selector : string) (e : engine) : outcome (list (list token) * engine) :=
  match cache_get selector (en_tokens e) with
  | Some groups => Done (groups, e)
  | None =>
      groups ← tokenize selector;
      Done (groups, {| en_world := en_world e; en_tokens := cache_put selector groups (en_tokens e); en_compiled := en_compiled e; en_runs := en_runs e; en_fresh := en_fresh e |})
  end.

(** [compile( selector, group )] *)
Definition compile (selector : string) (groups : list (list token)) (e : engine) : outcome (compiled * engine) :=
  match cache_get selector (en_compiled e) with
  | Some c => Done (c, e)
  | None =>
      '(cs, w) ← matchers_of (rev groups) (en_world e);
      let c := {| cp_id := en_fresh e; cp_chains := cs |} in
      Done (c, {| en_world := w; en_tokens := en_tokens e; en_compiled := cache_put selector c (en_compiled e); en_runs := en_runs e; en_fresh := (en_fresh e + 1)%N |})
  end.

(** [select( selector, context, [], seed )] *)
Definition select_seed (d : dom) (selector : string) (context : nat) (seed : list nat) (e : engine) : outcome (list nat * engine) :=
  '(groups, e) ← tokenize_cached selector e;
  '(c, e) ← compile selector groups e;
  let '(l, runs, w) := superMatcher d (cp_chains c) context (default 0%N (en_runs e !! cp_id c)) seed (en_world e) in
  Done (l, {| en_world := w; en_tokens := en_tokens e; en_compiled := en_compiled e; en_runs := <[cp_id c := runs]> (en_runs e); en_fresh := en_fresh e |}).

(** [Sizzle( selector, context, null, seed )] *)
Definition Sizzle_seed (d : dom) (selector : string) (context : nat) (seed : list nat) (e : engine) : outcome (list nat * engine) :=
  if String.eqb selector "" then Done ([], e)
  else if (nodeType d context =? 1)%nat || (nodeType d context =? 9)%nat then select_seed d (trimmed selector) context seed e
  else Done ([], e).

Definition new_engine : engine := {|
  en_world := {| dirruns := 0; cachedruns := 0; done := 0; outermostContext := None; dir_cache := ∅; nth_cache := ∅; nth_last_cache := ∅ |};
  en_tokens := no_cache; en_compiled := no_cache; en_runs := ∅; en_fresh := 0 |}.
