(* ===== verification/TokenFacts.v ===== *)
(** * Tokens make up the selector (about SizzleTokens)

    What a token holds is a part of the text that is not empty, cut off at its front.  So the tokens
    of a selector, with the commas between groups, are the selector, and cutting ends. *)

From S2P Require Import Prelude JSValue Forms Patterns PatternFacts Sizzle SizzleTokens.

#[local] Abbreviation chars := list_ascii_of_string.

(** ** Parts of strings *)

Lemma length_chars s : length (chars s) = String.length s.
Proof. induction s as [|c s IH]; [done|]. cbn. by rewrite IH. Qed.
Lemma chars_string l : chars (string_of_list_ascii l) = l.
Proof. apply list_ascii_of_string_of_list_ascii. Qed.

(** [v] is at the front of [s]. *)
Definition front (v s : string) : Prop := s = v +:+ after (String.length v) s.
Lemma front_take k s : front (string_of_list_ascii (take k (chars s))) s.
Proof.
  unfold front, after. apply chars_inj. rewrite list_ascii_app, !chars_string, <- length_chars, chars_string, length_take.
  destruct (decide (k <= length (chars s))); [by rewrite Nat.min_l, take_drop by done|]. rewrite Nat.min_r, take_ge, drop_all by lia. by rewrite app_nil_r.
Qed.
Lemma front_app v r : front v (v +:+ r) ∧ after (String.length v) (v +:+ r) = r.
Proof.
  assert (E : after (String.length v) (v +:+ r) = r) by (unfold after; apply chars_inj; rewrite chars_string, list_ascii_app, <- length_chars; by rewrite drop_app_length).
  split; [|done]. unfold front. by rewrite E.
Qed.
Lemma front_trans v u s : front v u → front u s → front v s.
Proof. unfold front at 1 2. intros E1 E2. rewrite E2, E1, str_app_assoc. apply front_app. Qed.
Lemma front_length v s : front v s → String.length s = String.length v + String.length (after (String.length v) s).
Proof. intros E. etrans; [exact (f_equal String.length E)|]. apply str_length_app. Qed.
Lemma slice_front e s : front (slice_to e s) s.
Proof. apply front_take. Qed.

(** ** Matches at the front *)

Lemma exec_inv p s m : exec p s = Some m → ∃ mt, pattern_exec p (chars s) 0 = Some mt ∧
  m = Some (piece (chars s) (mt_index mt) (mt_end mt)) :: ((λ i, ab ← mt_cap mt i; Some (piece (chars s) ab.1 ab.2)) <$> seq 1 (p_groups p)).
Proof. unfold exec. intros (mt & E & [= <-])%bind_Some. by exists mt. Qed.
#[local] Opaque exec re matchExpr.
Lemma exec_group p s m mt i : m = Some (piece (chars s) (mt_index mt) (mt_end mt)) :: ((λ i, ab ← mt_cap mt i; Some (piece (chars s) ab.1 ab.2)) <$> seq 1 (p_groups p)) → 1 <= i <= p_groups p →
  group m i = (ab ← mt_cap mt i; Some (piece (chars s) ab.1 ab.2)).
Proof.
  intros -> Hi. unfold group. rewrite lookup_cons_ne_0 by lia. rewrite list_lookup_fmap, lookup_seq_lt by lia. cbn. by replace (S (Nat.pred i)) with i by lia.
Qed.
Lemma length_piece t a b : a <= b → b <= length t → String.length (piece t a b) = b - a.
Proof. intros H1 H2. rewrite <- length_chars. unfold piece. rewrite chars_string, length_take, length_drop. lia. Qed.

Lemma exec_front p s m : anchored p = true → exec p s = Some m → front (group_or m 0) s.
Proof.
  intros Ha (mt & E & ->)%exec_inv. cbn. rewrite (exec_anchored _ _ _ _ Ha E). unfold piece. rewrite drop_0. apply front_take.
Qed.
Lemma exec_not_empty p s m : moves (p_pat p) = true → exec p s = Some m → group_or m 0 ≠ "".
Proof.
  intros Hm (mt & E & ->)%exec_inv. pose proof (exec_moves _ _ _ _ Hm E). pose proof (exec_range _ _ _ _ E). cbn. intros Hz.
  apply (f_equal String.length) in Hz. rewrite length_piece in Hz by lia. cbn in Hz. lia.
Qed.

(** ** Filters *)

Lemma filters_anchored : forallb (λ type, anchored (matchExpr type) && moves (p_pat (matchExpr type))) filter_types = true.
Proof. vm_compute. reflexivity. Qed.
Lemma filter_anchored type : type ∈ filter_types → anchored (matchExpr type) = true ∧ moves (p_pat (matchExpr type)) = true.
Proof. intros Hin. apply andb_true_iff. pose proof filters_anchored as H. rewrite forallb_forall in H. apply H. by apply list_elem_of_In. Qed.

(** ** A group within a match *)

Section within.
Context (f : flags) (t : list ascii) (i : nat).

(** The group ends before the match does. *)
Fixpoint ends_before (p : pat) : bool :=
  match p with
  | PSeq a b => (inside i a && moves b && bool_decide (i ∉ pat_groups b)) || (ends_before a && ends_before b)
  | PAlt a b => ends_before a && ends_before b
  | p => bool_decide (i ∉ pat_groups p)
  end.
Definition over (x : pstate) : Prop := ∀ a b, cap x i = Some (a, b) → a <= b < at_pos x.
Lemma over_in x : over x → cap_in 0 i x.
Proof. intros H a b Hab%H. lia. Qed.
Lemma over_other p x y : i ∉ pat_groups p → reach f t p x y → at_pos x <= length t → over x → over y.
Proof. intros Hi Hr Hx Ho a b. rewrite (reach_other f t i p x y Hi Hr). intros Hab%Ho. apply reach_pos in Hr; lia. Qed.
Lemma reach_over p : ends_before p = true → ∀ x y, reach f t p x y → at_pos x <= length t → over x → over y.
Proof.
  induction p as [|neg l| |a IHa b IHb|a IHa b IHb|lazy a IHa|lazy a IHa|j a IHa|neg a IHa| | |neg|bk]; cbn [ends_before]; intros He x y Hr Hx Ho;
    try (apply bool_decide_eq_true in He; by eapply over_other).
  - destruct Hr as (z & Hz & Hy). assert (Hp : at_pos z <= length t) by (apply reach_pos in Hz; lia). apply orb_true_iff in He as [He|He].
    + apply andb_true_iff in He as [[Hi Hm]%andb_true_iff Hg%bool_decide_eq_true]. intros u v Huv. rewrite (reach_other f t i b z y Hg Hy) in Huv.
      apply (reach_inside f t 0 i a x z Hi Hz) in Huv; [|lia|done|by apply over_in]. apply (reach_moves f t b Hm) in Hy; lia.
    + apply andb_true_iff in He as [H1 H2]. eapply IHb; [done|done|done|]. by eapply IHa.
  - apply andb_true_iff in He as [H1 H2]. destruct Hr as [Hr|Hr]; [by eapply IHa|by eapply IHb].
Qed.

(** It begins after the match does. *)
Definition opens (p : pat) : bool := match p with PSeq PBol (PSeq c q) => moves c && bool_decide (i ∉ pat_groups c) && inside i q | _ => false end.
Lemma reach_opens p x y : opens p = true → reach f t p x y → at_pos x <= length t → cap x i = None → ∀ a b, cap y i = Some (a, b) → at_pos x < a.
Proof.
  destruct p as [| | |[] [| | |c q| | | | | | | | |]| | | | | | | | |]; try done. cbn [opens]. intros [[Hm Hg%bool_decide_eq_true]%andb_true_iff Hi]%andb_true_iff Hr Hx Hc a b Hab.
  destruct Hr as (? & [-> _] & z & Hz & Hy). pose proof (reach_moves f t c Hm x z Hz Hx). pose proof (reach_pos f t c x z Hz Hx).
  apply (reach_inside f t (at_pos z) i q z y Hi Hy) in Hab; [lia|lia|lia|]. intros u v. by rewrite (reach_other f t i c x z Hg Hz), Hc.
Qed.
End within.

Lemma exec_within p s m i : opens i (p_pat p) = true → ends_before i (p_pat p) = true → anchored p = true → 1 <= i <= p_groups p → exec p s = Some m → group_or m i ≠ "" →
  String.length (group_or m i) + 2 <= String.length (group_or m 0).
Proof.
  intros Ho He Ha Hi (mt & E & Em)%exec_inv. unfold group_or at 1 2. rewrite (exec_group _ _ _ _ _ Em Hi). rewrite Em. cbn [group_or group lookup list_lookup mjoin option_join default].
  pose proof (exec_range _ _ _ _ E) as [Hr1 Hr2]. pose proof (exec_anchored _ _ _ _ Ha E) as H0. apply exec_reach in E as (y & Hr & Hend & Hcaps & Hix).
  assert (Hnone : cap (PSt (mt_index mt) (replicate (S (p_groups p)) None)) i = None).
  { unfold cap. cbn [p_caps]. destruct (replicate (S (p_groups p)) None !! i) as [o|] eqn:Eo; [|done]. by apply (lookup_replicate (S (p_groups p))) in Eo as [-> _]. }
  unfold mt_cap. rewrite Hcaps. fold (cap y i). destruct (cap y i) as [[a b]|] eqn:Ec; [|done]. intros _. cbn -[piece].
  pose proof (reach_opens _ _ i _ _ _ Ho Hr ltac:(cbn; lia) Hnone a b Ec) as Hlo. cbn in Hlo.
  assert (Hov : a <= b < at_pos y) by (eapply (reach_over _ _ i _ He _ _ Hr); [cbn; lia| |done]; intros u v; by rewrite Hnone).
  rewrite !length_piece by lia. lia.
Qed.

Lemma pseudo_within s m : exec (matchExpr "PSEUDO") s = Some m → group_or m 2 ≠ "" → String.length (group_or m 2) + 2 <= String.length (group_or m 0).
Proof. apply exec_within; [vm_compute; reflexivity..|]. vm_compute. lia. Qed.

(** ** Tokens *)

Lemma index_close_range u from i : (- 1 <= index_close u i from < Z.of_nat (i + String.length u) ∨ index_close u i from = -1)%Z.
Proof. induction u as [|c u IH] in i |- *; cbn [index_close String.length]; [lia|]. destruct (_ && _); [lia|]. specialize (IH (S i)). lia. Qed.
Lemma pre_value parse_only type m tk : preFilter parse_only type m = Done (Some tk) → tk_value tk = group_or m 0 ∨
  type = "PSEUDO" ∧ group_or m 2 ≠ "" ∧ ∃ k, (- 1 <= k < Z.of_nat (String.length (group_or m 2)))%Z ∧ tk_value tk = slice_to (k - Z.of_nat (String.length (group_or m 2))) (group_or m 0).
Proof.
  unfold preFilter. destruct (String.eqb_spec type "ATTR").
  { unfold pre_ATTR. destruct (unescaped (group_or m 1)); [|done..]. rewrite Done_bind. destruct (unescaped _); [|done..]. cbn. intros [= <-]. by left. }
  destruct (String.eqb_spec type "CHILD").
  { unfold pre_CHILD. repeat case_match; intros [= <-]; by left. }
  destruct (String.eqb_spec type "PSEUDO"); [|intros [= <-]; by left]. unfold pre_PSEUDO. destruct (match exec _ _ with Some _ => true | None => false end); [done|].
  destruct (given (group m 4)); [intros [= <-]; by left|]. destruct (given (group m 5)).
  { cbn. intros [= <-]. by left. }
  destruct (given (Some (group_or m 2)) && _) eqn:Eg; [|intros [= <-]; by left]. destruct (parse_only (group_or m 2)) as [j| |]; [|done..]. rewrite Done_bind.
  destruct (_ || _); [intros [= <-]; by left|]. cbn [tk_value]. intros [= <-]. right. split; [done|]. split; [intros Ez; by rewrite Ez in Eg|].
  eexists. split; [|reflexivity]. pose proof (index_close_range (group_or m 2) (String.length (group_or m 2) - j) 0). lia.
Qed.
Lemma slice_not_empty e s : (- Z.of_nat (String.length s) < e)%Z → (e < 0)%Z → slice_to e s ≠ "".
Proof.
  intros He Hz E. apply (f_equal String.length) in E. revert E. unfold slice_to. rewrite <- length_chars, chars_string, length_take, length_chars. cbn.
  destruct (Z.ltb_spec e 0); lia.
Qed.
Lemma token_front parse_only type s m tk : type ∈ filter_types → exec (matchExpr type) s = Some m → preFilter parse_only type m = Done (Some tk) → front (tk_value tk) s ∧ tk_value tk ≠ "".
Proof.
  intros [Ha Hm]%filter_anchored E Hp. pose proof (exec_front _ _ _ Ha E). pose proof (exec_not_empty _ _ _ Hm E). apply pre_value in Hp as [->|(-> & Hg & k & Hk & ->)]; [done|].
  split; [by eapply front_trans; [apply slice_front|]|]. pose proof (pseudo_within _ _ E Hg). apply slice_not_empty; lia.
Qed.

Definition full (tk : token) : Prop := tk_value tk ≠ "".
Lemma toSelector_app l k : toSelector (l ++ k) = toSelector l +:+ toSelector k.
Proof. induction l as [|tk l IH]; [done|]. cbn. unfold toSelector in *. cbn in *. by rewrite IH, str_app_assoc. Qed.
Lemma toSelector_length l : Forall full l → length l <= String.length (toSelector l).
Proof. induction 1 as [|tk l Hf _ IH]; [done|]. unfold toSelector in *. cbn. rewrite str_length_app. unfold full in Hf. destruct (tk_value tk); [done|]. cbn. lia. Qed.

(** What is taken off, in order *)
Definition taken (s s' : string) (l l' : list token) : Prop := ∃ new, l' = l ++ new ∧ s = toSelector new +:+ s' ∧ Forall full new.
Lemma taken_refl s l : taken s s l l.
Proof. exists []. by rewrite app_nil_r. Qed.
Lemma taken_one tk s l : front (tk_value tk) s → full tk → taken s (after (String.length (tk_value tk)) s) l (l ++ [tk]).
Proof. intros Hf Hn. exists [tk]. split; [done|]. unfold toSelector. cbn. rewrite str_app_nil_r. split; [done|by constructor]. Qed.
Lemma taken_trans s1 s2 s3 l1 l2 l3 : taken s1 s2 l1 l2 → taken s2 s3 l2 l3 → taken s1 s3 l1 l3.
Proof.
  intros (n1 & -> & -> & F1) (n2 & -> & -> & F2). exists (n1 ++ n2). rewrite toSelector_app, str_app_assoc, app_assoc. split; [done|]. split; [done|]. by apply Forall_app.
Qed.
Lemma taken_length s s' l l' : taken s s' l l' → length l' - length l + String.length s' <= String.length s ∧ length l <= length l'.
Proof. intros (new & -> & -> & F%toSelector_length). rewrite length_app, str_length_app. lia. Qed.

Lemma take_filters_taken parse_only types : types ⊆ filter_types → ∀ s l s' l', take_filters parse_only types s l = Done (s', l') → taken s s' l l'.
Proof.
  induction types as [|type types IH]; intros Ht s l s' l'; cbn [take_filters]; [intros [= <- <-]; apply taken_refl|].
  assert (Hin : type ∈ filter_types) by (apply Ht; left). assert (Hts : types ⊆ filter_types) by (intros x Hx; apply Ht; by right). destruct (exec (matchExpr type) s) as [m|] eqn:E; [|by apply IH].
  destruct (preFilter parse_only type m) as [[tk|]| |] eqn:Ep; rewrite ?Done_bind; [|by apply IH|done..]. intros H%IH; [|done].
  destruct (token_front _ _ _ _ _ Hin E Ep). by eapply taken_trans; [apply taken_one|].
Qed.

Lemma combinator_patterns : anchored (re rcombinators plain_flags) = true ∧ moves (p_pat (re rcombinators plain_flags)) = true ∧ anchored (re rcomma plain_flags) = true.
Proof. vm_compute. done. Qed.
Lemma take_combinator_taken s s' tk l : take_combinator s = Some (s', tk) → taken s s' l (l ++ [tk]).
Proof.
  unfold take_combinator. intros (m & E & [= <- <-])%bind_Some. destruct combinator_patterns as (Ha & Hm & _).
  apply (taken_one {| tk_value := group_or m 0 |}); [by eapply exec_front|by eapply exec_not_empty].
Qed.

(** ** Cutting ends *)

Lemma preFilter_ext p1 p2 type s m : type ∈ filter_types → exec (matchExpr type) s = Some m → (∀ u, String.length u < String.length s → p1 u = p2 u) → preFilter p1 type m = preFilter p2 type m.
Proof.
  intros [Ha _]%filter_anchored E Hp. pose proof (front_length _ _ (exec_front _ _ _ Ha E)) as Hl. unfold preFilter. destruct (String.eqb type "ATTR"), (String.eqb type "CHILD"); try reflexivity.
  destruct (String.eqb_spec type "PSEUDO") as [->|]; [|reflexivity]. unfold pre_PSEUDO. destruct (match exec _ _ with Some _ => true | None => false end), (given (group m 4)); try reflexivity.
  destruct (given (group m 5)); [reflexivity|]. destruct (given (Some (group_or m 2)) && _) eqn:Eg; [|reflexivity]. rewrite Hp; [reflexivity|].
  pose proof (pseudo_within _ _ E). destruct (decide (group_or m 2 = "")) as [Ez|Hn]; [by rewrite Ez in Eg|]. specialize (H Hn). lia.
Qed.
Lemma take_filters_ext p1 p2 types : types ⊆ filter_types → ∀ s l, (∀ u, String.length u < String.length s → p1 u = p2 u) → take_filters p1 types s l = take_filters p2 types s l.
Proof.
  induction types as [|type types IH]; intros Ht s l Hp; [done|]. cbn [take_filters]. assert (Hin : type ∈ filter_types) by (apply Ht; left). assert (Hts : types ⊆ filter_types) by (intros x Hx; apply Ht; by right).
  destruct (exec (matchExpr type) s) as [m|] eqn:E; [|by apply IH]. rewrite (preFilter_ext p1 p2 _ _ _ Hin E Hp).
  destruct (preFilter p2 type m) as [[tk|]| |] eqn:Ep; rewrite ?Done_bind; [|by apply IH|done..]. apply IH; [done|]. intros u Hu. apply Hp.
  destruct (token_front _ _ _ _ _ Hin E Ep) as [Hf%front_length _]. lia.
Qed.

Lemma after_le k s : String.length (after k s) <= String.length s.
Proof. unfold after. rewrite <- !length_chars, chars_string, length_drop. lia. Qed.
Lemma take_comma_le s groups tokens s' groups' l : take_comma s groups tokens = (s', groups', l) → String.length s' <= String.length s.
Proof.
  unfold take_comma. destruct tokens as [l0|]; [|by intros [= <- _ _]]. destruct (exec _ s) as [m|]; [|by intros [= <- _ _]]. intros [= <- _ _]. destruct (String.eqb _ ""); [done|apply after_le].
Qed.
Lemma combinator_round s l s' l' : match take_combinator s with Some (s', tk) => (s', l ++ [tk]) | None => (s, l) end = (s', l') → taken s s' l l'.
Proof. destruct (take_combinator s) as [[s1 tk]|] eqn:E; intros [= <- <-]; [by apply take_combinator_taken|apply taken_refl]. Qed.

Lemma loop_enough f1 : ∀ f2 s groups tokens, String.length s < f1 → String.length s < f2 → tokenize_loop f1 s groups tokens = tokenize_loop f2 s groups tokens.
Proof.
  induction f1 as [|f1 IH]; intros f2 s groups tokens H1 H2; [lia|]. destruct f2 as [|f2]; [lia|]. cbn [tokenize_loop]. destruct (String.eqb s ""); [done|].
  destruct (take_comma s groups tokens) as [[s0 g0] l0] eqn:Ec. apply take_comma_le in Ec. destruct (match take_combinator s0 with Some _ => _ | None => _ end) as [s1 l1] eqn:E1. apply combinator_round in E1.
  pose proof (taken_length _ _ _ _ E1) as [L1 L1']. rewrite (take_filters_ext _ (λ u, '(rest, _) ← tokenize_loop f2 u [] None; Done (String.length rest))); [|done|].
  2: { intros u Hu. by rewrite (IH f2 u [] None) by lia. }
  destruct (take_filters _ filter_types s1 l1) as [[s2 l2]| |] eqn:E2; [|done..]. rewrite !Done_bind. apply take_filters_taken in E2 as [L2 L2']%taken_length; [|done].
  destruct (Nat.eqb_spec (length l2) (length l0)); [done|]. apply IH; lia.
Qed.

(** ** Commas *)

Abbreviation white := (λ c, is_white c = true).
(** A comma, with white space around it *)
Definition is_comma (v : string) : Prop := ∃ pre post, Forall white pre ∧ Forall white post ∧ chars v = pre ++ ","%char :: post.

Lemma filled_piece t b x y : filled t b x y → Forall (λ c, b c = true) (take (at_pos y - at_pos x) (drop (at_pos x) t)).
Proof.
  intros H. apply Forall_lookup. intros i c Hc. apply lookup_take_Some in Hc as [Hc Hi]. rewrite lookup_drop in Hc. destruct (H (at_pos x + i)) as (c' & Hc' & Hb); [lia|]. congruence.
Qed.
Lemma exec_made p s m b : made_of (p_flags p) b (p_pat p) = true → exec p s = Some m → Forall (λ c, b c = true) (chars (group_or m 0)).
Proof.
  intros Hm (mt & E & ->)%exec_inv. cbn. unfold piece. rewrite chars_string. apply exec_reach in E as (y & Hr & -> & _). exact (filled_piece _ _ _ _ (reach_made _ _ _ _ Hm _ _ Hr)).
Qed.
Lemma exec_starts p s m b : starts_with (p_flags p) b (p_pat p) = true → anchored p = true → exec p s = Some m → ∃ c, chars s !! 0 = Some c ∧ b c = true.
Proof.
  intros Hs Ha (mt & E & _)%exec_inv. pose proof (exec_anchored _ _ _ _ Ha E) as H0. apply exec_reach in E as (y & Hr & _). rewrite H0 in Hr. by apply (reach_starts _ _ _ _ Hs) in Hr.
Qed.

Definition white_set : pat := PSet false [IRange " " " "; IRange "009" "009"; IRange "013" "013"; IRange "010" "010"; IRange "012" "012"].
Lemma rcomma_pattern : re rcomma plain_flags = {| p_pat := PSeq PBol (PSeq (PStar false white_set) (PSeq (PChar ",") (PSeq (PStar false white_set) PEmpty))); p_flags := plain_flags; p_groups := 0 |}.
Proof. vm_compute. reflexivity. Qed.
Lemma white_made : made_of plain_flags is_white (PStar false white_set) = true.
Proof. vm_compute. reflexivity. Qed.
Lemma white_meant c : set_has plain_flags [IRange " " " "; IRange "009" "009"; IRange "013" "013"; IRange "010" "010"; IRange "012" "012"] c = is_white c.
Proof. apply eqb_prop. revert c. apply all_ascii_spec. vm_compute. reflexivity. Qed.

Lemma comma_meant c : set_has plain_flags [IRange "," ","] c = true → c = ","%char.
Proof. intros H. apply Ascii.eqb_eq. revert H. apply implb_true_iff. revert c. apply all_ascii_spec. vm_compute. reflexivity. Qed.
Lemma take_at {A} (t : list A) a e c : t !! a = Some c → a < e → take e t = take a t ++ c :: take (e - S a) (drop (S a) t).
Proof.
  intros Hc He. rewrite <- (take_drop a t) at 1. rewrite (drop_S _ _ _ Hc). apply lookup_lt_Some in Hc. rewrite take_app, length_take, Nat.min_l by lia.
  rewrite take_ge by (rewrite length_take; lia). f_equal. by replace (e - a) with (S (e - S a)) by lia.
Qed.

(** It is a comma, and no white space follows. *)
Lemma rcomma_match s m : exec (re rcomma plain_flags) s = Some m → is_comma (group_or m 0) ∧ ∀ c, chars (after (String.length (group_or m 0)) s) !! 0 = Some c → is_white c = false.
Proof.
  rewrite rcomma_pattern. intros (mt & E & ->)%exec_inv. cbn -[piece]. pose proof (exec_range _ _ _ _ E) as [Hr1 Hr2]. set (t := chars s) in *. unfold pattern_exec in E. destruct (_ <? _)%nat; [done|].
  apply find_match_inv in E as (_ & _ & E). unfold match_here in E. apply bind_Some in E as (y & Hy & E). set (p0 := PSt _ _) in Hy.
  change (pm plain_flags t PBol p0 (λ x1, pm plain_flags t (PStar false white_set) x1 (λ x2, pm plain_flags t (PChar ",") x2 (λ x3, pm plain_flags t (PStar false white_set) x3 Some))) = Some y) in Hy.
  apply pm_reach in Hy as (x1 & [-> Hl] & Hy). apply pm_reach in Hy as (x2 & H2 & Hy). apply pm_reach in Hy as (x3 & (c & Hc & Hcc & ->) & Hy).
  pose proof Hy as Hy'. apply pm_reach in Hy' as (x4 & H4 & [= ->]). injection E as E. assert (Hi : mt_index mt = 0).
  { unfold line_starts in Hl. cbn in Hl. destruct (mt_index mt); [done|]. done. }
  assert (Hend : mt_end mt = at_pos y) by (by rewrite <- E). cbn in Hcc. rewrite Hi, Hend in *. clear E Hl.
  assert (Hlt : at_pos x2 < at_pos y) by (apply reach_pos in H4; cbn in *; [lia|by apply lookup_lt_Some in Hc]). apply lookup_lt_Some in Hc as Hlen.
  pose proof (filled_piece _ _ _ _ (reach_made _ _ is_white _ white_made _ _ H2)) as F2. pose proof (filled_piece _ _ _ _ (reach_made _ _ is_white _ white_made _ _ H4)) as F4.
  cbn [at_pos p0] in F2, F4. rewrite Hi, Nat.sub_0_r, drop_0 in F2. split.
  - exists (take (at_pos x2) t), (take (at_pos y - S (at_pos x2)) (drop (S (at_pos x2)) t)). split; [done|]. split; [done|]. unfold piece. rewrite chars_string, Nat.sub_0_r, drop_0. rewrite (take_at _ _ _ _ Hc Hlt). do 2 f_equal.
    apply comma_meant in Hcc. by rewrite Hcc.
  - intros d Hd. unfold after in Hd. rewrite length_piece, Nat.sub_0_r, chars_string, lookup_drop, Nat.add_0_r in Hd by lia.
    rewrite <- white_meant. eapply (loop_takes_all plain_flags t false); [|exact Hy|exact Hd]. done.
Qed.

(** ** A comma at the end is not read *)

Lemma comma_unique pre post pre' post' : Forall white pre → Forall white pre' → pre ++ ","%char :: post = pre' ++ ","%char :: post' → post = post'.
Proof.
  intros H H'. revert pre' H'. induction H as [|c pre Hc _ IH]; intros pre' [|c' pre'' Hc' Hp] E; cbn in E; simplify_eq; try done. by eapply IH.
Qed.
Lemma comma_whole s m : is_comma s → exec (re rcomma plain_flags) s = Some m → after (String.length (group_or m 0)) s = "".
Proof.
  intros (pre & post & Hpre & Hpost & Es) E. destruct (rcomma_match _ _ E) as [(pre' & post' & Hpre' & Hpost' & Ev) Hmax].
  assert (Hf : front (group_or m 0) s) by (eapply exec_front; [apply combinator_patterns|exact E]). unfold front in Hf. set (r := after _ s) in *. clearbody r. apply (f_equal chars) in Hf. rewrite list_ascii_app, Ev, Es, <- app_assoc in Hf.
  apply comma_unique in Hf; [|done..]. apply chars_inj. destruct (chars r) as [|c k] eqn:Er; [done|]. specialize (Hmax c eq_refl). rewrite Hf in Hpost. apply Forall_app in Hpost as [_ Hk]. apply Forall_cons in Hk as [Hc _]. by rewrite Hc in Hmax.
Qed.
Lemma comma_kept s groups tokens : is_comma s → (take_comma s groups tokens).1.1 = s.
Proof.
  intros Hs. unfold take_comma. destruct tokens as [l|]; [|done]. destruct (exec _ s) as [m|] eqn:E; [|done]. by rewrite (comma_whole _ _ Hs E).
Qed.

Lemma combinator_made : made_of plain_flags (λ c, negb (Ascii.eqb c ",")) (p_pat (re rcombinators plain_flags)) = true ∧ p_flags (re rcombinators plain_flags) = plain_flags.
Proof. by split; vm_compute. Qed.
Lemma comma_combinator s s' tk : is_comma s → take_combinator s = Some (s', tk) → is_comma s'.
Proof.
  intros (pre & post & Hpre & Hpost & Es) (m & E & [= <- _])%bind_Some. destruct combinator_made as [Hm Hfl], combinator_patterns as (Ha & _).
  pose proof (exec_front _ _ _ Ha E) as Hf. rewrite <- Hfl in Hm. apply (exec_made _ _ _ _ Hm) in E as Hv. clear Hm E Ha Hfl. unfold front in Hf. set (r := after _ s) in *. clearbody r. apply (f_equal chars) in Hf. rewrite list_ascii_app, Es in Hf.
  apply app_eq_inv in Hf as [(k & Ek & Er)|(k & Ek & Er)].
  - exists k, post. rewrite Ek in Hpre. apply Forall_app in Hpre as [_ Hk]. done.
  - destruct k as [|c k]; [exists [], post; done|]. cbn in Er. injection Er as <- _. rewrite Ek in Hv. apply Forall_app in Hv as [_ Hv]. apply Forall_cons in Hv as [Hv _]. done.
Qed.

Lemma filters_start : forallb (λ type, starts_with (p_flags (matchExpr type)) (λ c, negb (is_white c || Ascii.eqb c ",")) (p_pat (matchExpr type))) filter_types = true.
Proof. vm_compute. reflexivity. Qed.
Lemma comma_filter s type : is_comma s → type ∈ filter_types → exec (matchExpr type) s = None.
Proof.
  intros (pre & post & Hpre & Hpost & Es) Hin. destruct (exec (matchExpr type) s) as [m|] eqn:E; [exfalso|done]. pose proof filters_start as Hs. rewrite forallb_forall in Hs. apply list_elem_of_In in Hin as Hin'.
  apply (exec_starts _ _ _ _ (Hs _ Hin')) in E as (c & Hc & Hb); [|apply filter_anchored, Hin]. clear Hs. rewrite Es in Hc. destruct pre as [|c' pre]; cbn in Hc; injection Hc as <-; [done|]. apply Forall_cons in Hpre as [Hw _]. by rewrite Hw in Hb.
Qed.
Lemma comma_filters parse_only s l types : is_comma s → types ⊆ filter_types → take_filters parse_only types s l = Done (s, l).
Proof.
  intros Hs. induction types as [|type types IH]; intros Ht; [done|]. cbn [take_filters]. rewrite comma_filter by (done || apply Ht; left). apply IH. intros x Hx. apply Ht. by right.
Qed.
Lemma comma_not_empty s : is_comma s → s ≠ "".
Proof. intros (pre & post & _ & _ & E) ->. by destruct pre. Qed.

Lemma comma_stays fuel s groups tokens out : is_comma s → tokenize_loop fuel s groups tokens ≠ Done ("", out).
Proof.
  induction fuel as [|fuel IH] in s, groups, tokens |- *; intros Hs; [done|]. cbn [tokenize_loop]. destruct (String.eqb_spec s "") as [->|_]; [by apply comma_not_empty in Hs|].
  pose proof (comma_kept s groups tokens Hs) as Ek. destruct (take_comma s groups tokens) as [[s0 g0] l0]. cbn in Ek. subst s0.
  assert (∃ s1 l1, match take_combinator s with Some (s', tk) => (s', l0 ++ [tk]) | None => (s, l0) end = (s1, l1) ∧ is_comma s1) as (s1 & l1 & -> & H1).
  { destruct (take_combinator s) as [[s' tk]|] eqn:E; [|by eauto]. eexists _, _. split; [done|]. by eapply comma_combinator. }
  rewrite comma_filters, Done_bind by done. destruct (_ =? _)%nat; [|by apply IH]. intros [= E _]. by apply comma_not_empty in H1.
Qed.

(** ** The selector and its tokens *)

(** A text and the groups it is made of *)
Inductive cut : string → list (list token) → Prop :=
| cut_last g : Forall full g → cut (toSelector g) [g]
| cut_more g comma s gs : Forall full g → is_comma comma → cut s gs → cut (toSelector g +:+ comma +:+ s) (g :: gs).

Lemma taken_same s s' l l' : taken s s' l l' → length l' = length l → s' = s.
Proof. intros ([|tk new] & -> & -> & _); [done|]. rewrite length_app. cbn. lia. Qed.
Lemma taken_more s s' l l' : taken s s' l l' → Forall full l → Forall full l' ∧ toSelector l' +:+ s' = toSelector l +:+ s.
Proof. intros (new & -> & -> & F) Hl. split; [by apply Forall_app|]. by rewrite toSelector_app, str_app_assoc. Qed.

Lemma loop_cut fuel : ∀ s groups tokens out, tokenize_loop fuel s groups tokens = Done ("", out) → Forall full (default [] tokens) →
  (s = "" ∧ tokens = None ∧ out = groups) ∨ ∃ gs, out = groups ++ gs ∧ cut (toSelector (default [] tokens) +:+ s) gs.
Proof.
  induction fuel as [|fuel IH]; intros s groups tokens out H Hfull; [done|]. pose proof H as Hloop. cbn [tokenize_loop] in H. destruct (String.eqb_spec s "") as [->|Hs].
  { injection H as <-. destruct tokens as [l|]; [|rewrite app_nil_r; auto]. right. exists [l]. split; [done|]. rewrite str_app_nil_r. by constructor. }
  right. destruct (take_comma s groups tokens) as [[s0 g0] l0] eqn:Ec. destruct (match take_combinator s0 with Some _ => _ | None => _ end) as [s1 l1] eqn:E1. apply combinator_round in E1.
  destruct (take_filters _ filter_types s1 l1) as [[s2 l2]| |] eqn:E2; [|done..]. rewrite Done_bind in H. apply take_filters_taken in E2; [|done].
  pose proof (taken_trans _ _ _ _ _ _ E1 E2) as Ht. assert (Hround : s0 ≠ "" → Forall full l0 → ∃ gs, out = g0 ++ gs ∧ cut (toSelector l0 +:+ s0) gs).
  { intros Hs0 Hl0. destruct (Nat.eqb_spec (length l2) (length l0)) as [El|]; [injection H as -> _; by apply taken_same in Ht|].
    destruct (taken_more _ _ _ _ Ht Hl0) as [Hl2 <-]. apply IH in H as [(_ & ? & _)|H]; [done|exact H|done]. }
  unfold take_comma in Ec. destruct tokens as [l|]; [|injection Ec as <- <- <-; by apply Hround]. destruct (exec (re rcomma plain_flags) s) as [m|] eqn:Em; [|injection Ec as <- <- <-; by apply Hround].
  destruct (rcomma_match _ _ Em) as [Hcomma _]. assert (Hf : front (group_or m 0) s) by (eapply exec_front; [apply combinator_patterns|exact Em]). unfold front in Hf. destruct (String.eqb_spec (after (String.length (group_or m 0)) s) "") as [Ea|Ha].
  - rewrite Ea, str_app_nil_r in Hf. rewrite <- Hf in Hcomma. by destruct (comma_stays (S fuel) s groups (Some l) out Hcomma).
  - injection Ec as <- <- <-. destruct Hround as (gs & -> & Hc); [done|constructor|]. exists (l :: gs). split; [by rewrite <- app_assoc|]. cbn [default]. rewrite Hf. by constructor.
Qed.

Lemma tokenize_cut selector groups : tokenize selector = Done groups → (selector = "" ∧ groups = []) ∨ cut selector groups.
Proof.
  unfold tokenize. destruct (tokenize_loop _ selector [] None) as [[rest out]| |] eqn:E; [|done..]. rewrite Done_bind. destruct (String.eqb_spec rest "") as [->|]; [|done]. intros [= <-].
  apply loop_cut in E as [(-> & _ & ->)|(gs & -> & Hc)]; [by left|by right|constructor].
Qed.

(** C22. Nothing of a selector is lost or added when it is cut into tokens: when it is accepted, the texts of its tokens, in order
    and none of them empty, with a comma (and white space around it) between two groups, are the selector. *)
Theorem tokens_make_selector selector groups : tokenize selector = Done groups → selector ≠ "" → cut selector groups.
Proof. intros [[-> _]|H]%tokenize_cut; done. Qed.

(** ** Without escapes the work ends *)

Definition plain (s : string) : Prop := "\"%char ∉ chars s.
Lemma unescape_plain s : plain s → unescape s = Some s.
Proof.
  unfold unescape. generalize (S (String.length s)) as fuel. intros fuel. revert s. induction fuel as [|fuel IH]; intros s Hs; [done|]. destruct s as [|c s]; [done|].
  assert (Hc : c ≠ "\"%char ∧ plain s) by (unfold plain in *; cbn in Hs; rewrite not_elem_of_cons in Hs; naive_solver). destruct Hc as [Hc Hp]. cbn [unescape_from].
  assert (H : String c <$> unescape_from fuel s = Some (String c s)) by (rewrite IH by done; done).
  destruct c as [[] [] [] [] [] [] [] []]; try exact H. done.
Qed.
Lemma exec_part p s m i c : exec p s = Some m → c ∈ chars (group_or m i) → c ∈ chars s.
Proof.
  intros (mt & _ & ->)%exec_inv. assert (Hp : ∀ a b, c ∈ chars (piece (chars s) a b) → c ∈ chars s).
  { intros a b. unfold piece. rewrite chars_string. intros [j [Hj _]%lookup_take_Some]%list_elem_of_lookup_1. rewrite lookup_drop in Hj. by eapply list_elem_of_lookup_2. }
  unfold group_or, group. destruct (_ !! i) as [[v|]|] eqn:Ei; [|intros H; by apply not_elem_of_nil in H..]. cbn. destruct i as [|i]; [injection Ei as <-; apply Hp|].
  rewrite lookup_cons_ne_0 in Ei by done. apply list_lookup_fmap_Some in Ei as (j & Ej & _). symmetry in Ej. apply bind_Some in Ej as (ab & _ & [= <-]). apply Hp.
Qed.
Lemma exec_plain p s m i : exec p s = Some m → plain s → plain (group_or m i).
Proof. intros E Hs Hc. eapply Hs, exec_part; done. Qed.
Lemma after_plain k s : plain s → plain (after k s).
Proof. intros Hs. unfold plain, after. rewrite chars_string. intros [j Hj]%list_elem_of_lookup_1. rewrite lookup_drop in Hj. eapply Hs, list_elem_of_lookup_2, Hj. Qed.

(** It ends, or a syntax error is thrown. *)
Definition ends {A} (o : outcome A) : Prop :=
  match o with Done _ => True | Fails e => ∃ msg, e = Raised ("Syntax error, unrecognized expression: " +:+ msg) | Unfinished => False end.
Lemma ends_bind {A B} (o : outcome A) (k : A → outcome B) : ends o → (∀ a, o = Done a → ends (k a)) → ends (o ≫= k).
Proof. destruct o; cbn; auto. Qed.
Lemma unescaped_ends s : plain s → unescaped s = Done s.
Proof. intros H. unfold unescaped. by rewrite unescape_plain. Qed.

Lemma preFilter_ends parse_only type s m : type ∈ filter_types → exec (matchExpr type) s = Some m → plain s → (∀ u, String.length u < String.length s → plain u → ends (parse_only u)) → ends (preFilter parse_only type m).
Proof.
  intros Hin E Hs Hp. assert (Hg : ∀ i, plain (group_or m i)) by (intros i; by eapply exec_plain). assert (Hl : String.length (group_or m 0) <= String.length s).
  { destruct (filter_anchored _ Hin) as [Ha _]. pose proof (front_length _ _ (exec_front _ _ _ Ha E)). lia. }
  unfold preFilter. destruct (String.eqb type "ATTR").
  { unfold pre_ATTR. rewrite (unescaped_ends (group_or m 1)) by apply Hg. rewrite Done_bind, unescaped_ends; [exact I|]. destruct (given _); apply Hg. }
  destruct (String.eqb type "CHILD"). { unfold pre_CHILD. repeat case_match; try exact I; by eexists. }
  destruct (String.eqb_spec type "PSEUDO") as [->|_]; [|exact I]. unfold pre_PSEUDO. destruct (match exec _ _ with Some _ => true | None => false end), (given (group m 4)); try exact I.
  destruct (given (group m 5)); [exact I|]. destruct (given (Some (group_or m 2)) && _) eqn:Eg; [|exact I]. apply ends_bind.
  - apply Hp, Hg. pose proof (pseudo_within _ _ E) as Hw. destruct (decide (group_or m 2 = "")) as [Ez|Hn]; [by rewrite Ez in Eg|]. specialize (Hw Hn). lia.
  - intros n _. destruct (_ || _); exact I.
Qed.
Lemma take_filters_ends parse_only types : types ⊆ filter_types → ∀ s l, plain s → (∀ u, String.length u < String.length s → plain u → ends (parse_only u)) → ends (take_filters parse_only types s l).
Proof.
  induction types as [|type types IH]; intros Ht s l Hs Hp; [exact I|]. cbn [take_filters]. assert (Hin : type ∈ filter_types) by (apply Ht; left). assert (Hts : types ⊆ filter_types) by (intros x Hx; apply Ht; by right).
  destruct (exec (matchExpr type) s) as [m|] eqn:E; [|by apply IH]. apply ends_bind; [by eapply preFilter_ends|]. intros [tk|] Ep; [|by apply IH]. apply IH; [done|by apply after_plain|]. intros u Hu. apply Hp.
  destruct (token_front _ _ _ _ _ Hin E Ep) as [Hf%front_length _]. lia.
Qed.
Lemma take_filters_plain parse_only types : ∀ s l s' l', take_filters parse_only types s l = Done (s', l') → plain s → plain s'.
Proof.
  induction types as [|type types IH]; intros s l s' l'; cbn [take_filters]; [by intros [= <- _]|]. destruct (exec _ s) as [m|]; [|apply IH].
  destruct (preFilter parse_only type m) as [[tk|]| |]; rewrite ?Done_bind; [|apply IH|done..]. intros H Hs. eapply IH; [exact H|by apply after_plain].
Qed.
Lemma loop_ends fuel : ∀ s groups tokens, String.length s < fuel → plain s → ends (tokenize_loop fuel s groups tokens).
Proof.
  induction fuel as [|fuel IH]; intros s groups tokens Hf Hs; [lia|]. cbn [tokenize_loop]. destruct (String.eqb s ""); [exact I|].
  assert (H0 : plain (take_comma s groups tokens).1.1).
  { unfold take_comma. destruct tokens as [l|]; [|done]. destruct (exec _ s) as [m|]; [|done]. cbn. destruct (String.eqb _ ""); [done|by apply after_plain]. }
  destruct (take_comma s groups tokens) as [[s0 g0] l0] eqn:Ec. apply take_comma_le in Ec. cbn in H0. assert (H1 : plain (match take_combinator s0 with Some (s', tk) => (s', l0 ++ [tk]) | None => (s0, l0) end).1).
  { destruct (take_combinator s0) as [[s' tk]|] eqn:Et; [|done]. unfold take_combinator in Et. apply bind_Some in Et as (m & _ & [= <- _]). by apply after_plain. }
  destruct (match take_combinator s0 with Some _ => _ | None => _ end) as [s1 l1] eqn:E1. cbn in H1. apply combinator_round in E1. pose proof (taken_length _ _ _ _ E1) as [L1 L1'].
  apply ends_bind. { apply take_filters_ends; [done|done|]. intros u Hu Hup. apply ends_bind; [apply IH; [lia|done]|]. by intros [rest ?] _. }
  intros [s2 l2] E2. pose proof (take_filters_taken _ _ (reflexivity filter_types) _ _ _ _ E2) as Ht. apply taken_length in Ht as [L2 L2']. destruct (Nat.eqb_spec (length l2) (length l0)); [exact I|].
  apply IH; [lia|]. eapply take_filters_plain; [exact E2|done].
Qed.

(** C23. Cutting a selector into tokens ends.  More rounds than the selector has characters make no difference; and when no
    character is escaped, there are tokens, or the syntax error is thrown. *)
Theorem tokenize_ends selector : (∀ fuel, String.length selector < fuel → tokenize_loop fuel selector [] None = tokenize_loop (S (String.length selector)) selector [] None) ∧
  (plain selector → (∃ groups, tokenize selector = Done groups) ∨ ∃ msg, tokenize selector = Fails (Raised ("Syntax error, unrecognized expression: " +:+ msg))).
Proof.
  split; [intros fuel Hf; apply loop_enough; lia|]. intros Hs. pose proof (loop_ends (S (String.length selector)) selector [] None ltac:(lia) Hs) as He. unfold tokenize.
  destruct (tokenize_loop _ selector [] None) as [[rest out]|e|]; [|destruct He as [msg ->]; right; by eexists|done]. rewrite Done_bind. destruct (String.eqb rest ""); [left|right]; by eexists.
Qed.

(** ** Examples *)

Definition some_selector : string := "ul > li.odd:nth-child(2n + 1) , #last".
Definition some_groups : list (list token) := match tokenize some_selector with Done groups => groups | _ => [] end.

Lemma tokens_make_selector_witness : cut some_selector some_groups ∧ (toSelector <$> some_groups) = ["ul > li.odd:nth-child(2n + 1)"; "#last"] ∧
  ((λ tk, tk_type tk) <$> some_groups !!! 0) = ["TAG"; ">"; "TAG"; "CLASS"; "CHILD"].
Proof.
  split; [|split; vm_compute; reflexivity]. apply (tokens_make_selector some_selector some_groups); [vm_compute; reflexivity|discriminate].
Defined.

Lemma tokenize_ends_witness : (∃ msg, tokenize "ul,,li" = Fails (Raised ("Syntax error, unrecognized expression: " +:+ msg))) ∧
  tokenize_loop 90 some_selector [] None = tokenize_loop (S (String.length some_selector)) some_selector [] None.
Proof.
  split; [|apply (proj1 (tokenize_ends some_selector)); vm_compute; lia].
  assert (H : plain "ul,,li") by (unfold plain; apply (bool_decide_unpack _); vm_compute; exact I). destruct (proj2 (tokenize_ends "ul,,li") H) as [[groups E]|E]; [|exact E].
  exfalso. assert (Hn : match tokenize "ul,,li" with Done _ => false | _ => true end = true) by (vm_compute; reflexivity). rewrite E in Hn. discriminate Hn.
Defined.

(** The pattern of CHILD does not mind case, but what it found is compared with "even" and "odd" as they stand: then no
    number fits. *)
Lemma nth_child_case : ∃ tk, tokenize ":nth-child(ODD)" = Done [[tk]] ∧ tk_nth tk = Some (0, 0)%Z ∧ ∀ k, 0 < k → nth_passes 0 0 k = false.
Proof.
  eexists. split; [vm_compute; reflexivity|]. split; [reflexivity|]. intros k Hk. unfold nth_passes. apply orb_false_iff. split; [apply Z.eqb_neq; lia|done].
Qed.
(** Likewise for the type: it is that of "-child". *)
Lemma of_type_case : ∃ tk, tokenize ":first-OF-TYPE" = Done [[tk]] ∧ filter_of tk = Done (CHILD "first" false None).
Proof. eexists. split; [vm_compute; reflexivity|]. vm_compute. reflexivity. Qed.
