(* ===== verification/SizzleEngine.v ===== *)
(** * The engine does not show its caches (about SizzleTokens)

    Tokens and compiled selectors are kept, in limited number, and runs write on elements: what is
    found is what the selector says of the document at hand all the same. *)

From S2P Require Import Prelude JSValue Forms Patterns Sizzle SizzleTokens SizzleFacts.

(** ** Chains without their numbers *)

Fixpoint erase (c : chain) : chain :=
  match c with Base leading _ _ fs => Base leading 0 0 fs | Step inner r _ fs => Step (erase inner) r 0 fs end.

Lemma sat_erase d c context n : sat d (erase c) context n = sat d c context n.
Proof.
  induction c as [leading dn da fs|inner IH r dn fs] in n |- *; [done|]. cbn [erase sat]. f_equal. unfold related. destruct (r_first r).
  - by destruct (List.filter _ _).
  - induction (List.filter _ _) as [|p l IHl]; [done|]. cbn. by rewrite IH, IHl.
Qed.

Lemma existsb_erase d cs context n : existsb (λ c, sat d c context n) (erase <$> cs) = existsb (λ c, sat d c context n) cs.
Proof. induction cs as [|c cs IH]; [done|]. cbn. by rewrite sat_erase, <- IH. Qed.

Definition erased (o : outcome (chain * sworld)) : outcome chain := match o with Done (c, _) => Done (erase c) | Fails x => Fails x | Unfinished => Unfinished end.
Definition erased_all (o : outcome (list chain * sworld)) : outcome (list chain) := match o with Done (cs, _) => Done (erase <$> cs) | Fails x => Fails x | Unfinished => Unfinished end.

Lemma erase_push f c : erase (push_filter f c) = push_filter f (erase c).
Proof. by destruct c. Qed.
Lemma extend_erased tokens : ∀ c1 c2 w1 w2, erase c1 = erase c2 → erased (extend_chain c1 tokens w1) = erased (extend_chain c2 tokens w2).
Proof.
  induction tokens as [|tk tokens IH]; intros c1 c2 w1 w2 E; cbn [extend_chain]; [cbn; by rewrite E|]. destruct (relative_of (tk_type tk)) as [r|].
  - cbn. apply IH. cbn. by rewrite E.
  - destruct (filter_of tk) as [f| |]; [|done..]. cbn. apply IH. by rewrite !erase_push, E.
Qed.
Lemma matcher_erased tokens w1 w2 : erased (matcherFromTokens tokens w1) = erased (matcherFromTokens tokens w2).
Proof.
  destruct tokens as [|tk tokens]; [done|]. cbn -[extend_chain]. destruct (relative_of (tk_type tk)); by apply extend_erased.
Qed.
Lemma matchers_erased groups : ∀ w1 w2, erased_all (matchers_of groups w1) = erased_all (matchers_of groups w2).
Proof.
  induction groups as [|g groups IH]; intros w1 w2; cbn [matchers_of]; [done|]. pose proof (matcher_erased g w1 w2) as E.
  destruct (matcherFromTokens g w1) as [[c1 w1']| |], (matcherFromTokens g w2) as [[c2 w2']| |]; cbn in E; simplify_eq; try done. specialize (IH w1' w2'). cbn.
  destruct (matchers_of groups w1') as [[cs1 ?]| |], (matchers_of groups w2') as [[cs2 ?]| |]; cbn in IH; simplify_eq; try done. cbn. congruence.
Qed.

(** ** Numbers of combinators *)

Fixpoint names (c : chain) : list N := match c with Base _ dn _ _ => [dn] | Step inner _ dn _ => dn :: names inner end.
Lemma names_cells d c context : c_name <$> cells d c context = names c.
Proof. induction c as [|inner IH r dn fs]; [done|]. cbn. by rewrite IH. Qed.
Lemma names_all d cs context : c_name <$> all_cells d cs context = concat (names <$> cs).
Proof. induction cs as [|c cs IH]; [done|]. cbn. rewrite fmap_app, names_cells. f_equal. exact IH. Qed.

(** Numbers between two others, each once. *)
Definition between (lo hi : N) (l : list N) : Prop := NoDup l ∧ Forall (λ x, (lo <= x < hi)%N) l.
(** Only the counter has changed. *)
Record counts_on (w w' : sworld) : Prop := {
  co_done : (done w <= done w')%N;
  co_runs : dirruns w' = dirruns w;
  co_dir : dir_cache w' = dir_cache w;
  co_nth : nth_cache w' = nth_cache w;
  co_last : nth_last_cache w' = nth_last_cache w;
  co_outer : outermostContext w' = outermostContext w
}.
#[local] Instance counts_on_refl : Reflexive counts_on.
Proof. by split. Qed.
#[local] Instance counts_on_trans : Transitive counts_on.
Proof. intros w1 w2 w3 [] []. split; [lia|congruence..]. Qed.
Lemma counts_next w : counts_on w (next_done w).2.
Proof. split; cbn; try done. lia. Qed.
Lemma counts_world w w' : counts_on w w' → world_ok w → world_ok w'.
Proof. intros [A1 A2 A3 A4 A5 A6] [B1 B2 B3 B4]. split; rewrite ?A2, ?A3, ?A4, ?A5, ?A6; done. Qed.

Lemma between_more lo hi hi' l : (hi <= hi')%N → between lo hi l → between lo hi' l.
Proof. intros Hh [H1 H2]. split; [done|]. eapply Forall_impl; [exact H2|]. cbn. lia. Qed.
Lemma between_cons lo hi l : (lo <= hi)%N → between lo hi l → between lo (hi + 1) (hi :: l).
Proof.
  intros Hl [H1 H2]. split; [constructor; [|done]|constructor; [lia|]]. { intros Hin. rewrite Forall_forall in H2. specialize (H2 _ Hin). cbn in H2. lia. }
  eapply Forall_impl; [exact H2|]. cbn. lia.
Qed.

Lemma chain_names_push f c : names (push_filter f c) = names c.
Proof. by destruct c. Qed.
Lemma extend_names lo tokens : ∀ c w c' w', (lo <= done w)%N → between lo (done w) (names c) → extend_chain c tokens w = Done (c', w') → counts_on w w' ∧ between lo (done w') (names c').
Proof.
  induction tokens as [|tk tokens IH]; intros c w c' w' Hlo Hc; cbn [extend_chain]; [by intros [= <- <-]|]. destruct (relative_of (tk_type tk)) as [r|].
  - cbn. intros E. apply IH in E as [E1 E2]; [|cbn; lia|by apply between_cons]. split; [|done]. etrans; [apply counts_next|done].
  - destruct (filter_of tk) as [f| |]; [|done..]. cbn. apply IH; [done|]. by rewrite chain_names_push.
Qed.
Lemma matcher_names tokens w c w' : matcherFromTokens tokens w = Done (c, w') → counts_on w w' ∧ between (done w) (done w') (names c).
Proof.
  destruct tokens as [|tk tokens]; [done|]. cbn -[extend_chain]. set (w2 := {| done := (done w + 1 + 1)%N |}). assert (Hw2 : counts_on w w2) by (split; cbn; try done; lia).
  assert (Hb : ∀ leading, between (done w) (done w2) (names (Base leading (done w) (done w + 1) []))) by (intros leading; split; [apply NoDup_singleton|]; repeat constructor; cbn; lia).
  intros E. assert (counts_on w2 w' ∧ between (done w) (done w') (names c)) as [H1 H2]; [|split; [by etrans|done]].
  destruct (relative_of (tk_type tk)) as [r|]; eapply extend_names in E; try done; cbn; lia.
Qed.
Lemma matchers_names groups : ∀ w cs w', matchers_of groups w = Done (cs, w') → counts_on w w' ∧ between (done w) (done w') (concat (names <$> cs)).
Proof.
  induction groups as [|g groups IH]; intros w cs w'; cbn [matchers_of]; [intros [= <- <-]; split; [done|]; split; constructor|].
  destruct (matcherFromTokens g w) as [[c w1]| |] eqn:Ec; [|done..]. cbn. destruct (matchers_of groups w1) as [[cs1 w2]| |] eqn:Es; [|done..]. cbn. intros [= <- <-].
  apply matcher_names in Ec as [H1 [H2 H3]]. apply IH in Es as [H4 [H5 H6]]. split; [by etrans|]. cbn. pose proof (co_done _ _ H1). pose proof (co_done _ _ H4). split.
  - apply NoDup_app. split; [done|]. split; [|done]. intros x Hx Hy. rewrite Forall_forall in H3, H6. specialize (H3 _ Hx). specialize (H6 _ Hy). cbn in *. lia.
  - apply Forall_app. split; (eapply Forall_impl; [eassumption|]; cbn; lia).
Qed.

(** ** The caches *)

(** What is kept is listed, and the list is short: at most fifty are kept. *)
Definition cache_ok {V} (c : scache V) : Prop := length (ca_keys c) <= cacheLength ∧ ∀ k, is_Some (ca_values c !! k) → k ∈ ca_keys c.

Lemma suffix_inj (k k' t : string) : k +:+ t = k' +:+ t → k = k'.
Proof. intros E. apply chars_inj. apply (f_equal list_ascii_of_string) in E. rewrite !list_ascii_app in E. by apply app_inv_tail in E. Qed.
Lemma cache_get_put {V} key key' (v x : V) c : cache_get key (cache_put key' v c) = Some x → (key = key' ∧ x = v) ∨ cache_get key c = Some x.
Proof.
  unfold cache_get, cache_put. set (ks := ca_keys c ++ _). assert (H : ∀ m : gmap string V, (∀ y, m !! (key +:+ " ") = Some y → ca_values c !! (key +:+ " ") = Some y) → <[key' +:+ " " := v]> m !! (key +:+ " ") = Some x → (key = key' ∧ x = v) ∨ ca_values c !! (key +:+ " ") = Some x).
  { intros m Hm [[E1 E2]|[_ E]]%lookup_insert_Some; [left; split; [by apply suffix_inj in E1|done]|right; by apply Hm]. }
  destruct (_ <? _)%nat; cbn; [|by apply H]. apply H. intros y. destruct ks; [done|]. by intros [_ ?]%lookup_delete_Some.
Qed.
Lemma cache_hit {V} key (v : V) c : cache_get key (cache_put key v c) = Some v.
Proof. unfold cache_get, cache_put. destruct (_ <? _)%nat; cbn; apply lookup_insert_eq. Qed.
Lemma cache_put_ok {V} key (v : V) c : cache_ok c → cache_ok (cache_put key v c).
Proof.
  intros [Hl Hk]. unfold cache_put. set (key' := key +:+ " "). destruct (_ <? _)%nat eqn:El.
  - apply Nat.ltb_lt in El. destruct (ca_keys c) as [|k ks] eqn:Ek; [cbn in El; unfold cacheLength in El; lia|]. split; cbn in *; [rewrite length_app; cbn; lia|]. intros j [<-|[Hj [Hj' Hs]%lookup_delete_is_Some]]%lookup_insert_is_Some.
    + apply elem_of_app. right. by apply list_elem_of_singleton.
    + apply elem_of_app. left. apply Hk in Hs. by apply elem_of_cons in Hs as [->|].
  - apply Nat.ltb_ge in El. split; [done|]. cbn. intros j [<-|[_ Hs]]%lookup_insert_is_Some; apply elem_of_app; [right; by apply list_elem_of_singleton|left; by apply Hk].
Qed.
Lemma cache_size {V} (c : scache V) : cache_ok c → size (ca_values c) <= cacheLength.
Proof.
  intros [Hl Hk]. rewrite <- size_dom. etrans; [|exact Hl]. unfold size, set_size. cbn. apply submseteq_length, NoDup_submseteq; [apply NoDup_elements|].
  intros k Hin%elem_of_elements. apply Hk. by apply elem_of_dom.
Qed.

(** ** What a selector says, and the engine *)

(** The selectors of the group as they are read from the text, without numbers *)
Definition reading (selector : string) : outcome (list chain) := groups ← tokenize selector; erased_all (matchers_of (rev groups) (en_world new_engine)).
(** The elements of the seed for which one of them holds *)
Definition selected (d : dom) (selector : string) (context : nat) (seed : list nat) : outcome (list nat) :=
  if String.eqb selector "" then Done []
  else if (nodeType d context =? 1)%nat || (nodeType d context =? 9)%nat then
    cs ← reading (trimmed selector); Done (List.filter (λ n, existsb (λ c, sat d c context n) cs) seed)
  else Done [].

#[local] Opaque tokenize reading.

Record engine_ok (e : engine) : Prop := {
  eo_world : world_ok (en_world e);
  eo_tokens key groups : cache_get key (en_tokens e) = Some groups → tokenize key = Done groups;
  eo_compiled key c : cache_get key (en_compiled e) = Some c → NoDup (concat (names <$> cp_chains c)) ∧ reading key = Done (erase <$> cp_chains c);
  eo_kept : cache_ok (en_tokens e) ∧ cache_ok (en_compiled e)
}.
Lemma new_engine_ok : engine_ok new_engine.
Proof.
  assert (Hc : ∀ V, cache_ok (no_cache (V := V))) by (split; [apply Nat.le_0_l|]; intros k [x Hx]; discriminate Hx).
  split; [split; [..|reflexivity]; intros * E; discriminate E|intros * E; discriminate E|intros * E; discriminate E|by split; apply Hc].
Qed.

Lemma tokenize_cached_ok selector e : engine_ok e →
  match tokenize_cached selector e with
  | Done (groups, e') => tokenize selector = Done groups ∧ engine_ok e' ∧ en_compiled e' = en_compiled e
  | Fails x => tokenize selector = Fails x
  | Unfinished => tokenize selector = Unfinished
  end.
Proof.
  intros [A B C D]. unfold tokenize_cached. destruct (cache_get selector (en_tokens e)) as [groups|] eqn:E; [split; [by apply B|done]|].
  destruct (tokenize selector) as [groups| |] eqn:Et; [|done..]. cbn. split; [done|]. split; [|done]. split; cbn; [done| |done|split; [apply cache_put_ok, D|apply D]].
  intros key g [[-> ->]|H]%cache_get_put; [done|by apply B].
Qed.
Lemma compile_ok selector groups e : engine_ok e → tokenize selector = Done groups →
  match compile selector groups e with
  | Done (c, e') => NoDup (concat (names <$> cp_chains c)) ∧ reading selector = Done (erase <$> cp_chains c) ∧ engine_ok e'
  | Fails x => reading selector = Fails x
  | Unfinished => reading selector = Unfinished
  end.
Proof.
  intros [A B C D] Et. unfold compile. destruct (cache_get selector (en_compiled e)) as [c|] eqn:E; [destruct (C _ _ E); split; [done|]; by split|].
  pose proof (matchers_erased (rev groups) (en_world e) (en_world new_engine)) as Hr. assert (Er : reading selector = erased_all (matchers_of (rev groups) (en_world new_engine))) by (with_strategy transparent [reading] unfold reading; rewrite Et; reflexivity).
  rewrite <- Hr in Er. destruct (matchers_of (rev groups) (en_world e)) as [[cs w]| |] eqn:Em; [|done..]. apply matchers_names in Em as [H1 [H2 H3]].
  cbn. do 2 (split; [done|]). split; cbn; [by eapply counts_world|done| |split; [apply D|apply cache_put_ok, D]].
  intros key c [[-> ->]|H]%cache_get_put; [done|by apply C].
Qed.

Definition found (o : outcome (list nat * engine)) : outcome (list nat) := match o with Done (l, _) => Done l | Fails x => Fails x | Unfinished => Unfinished end.

Lemma select_seed_ok d selector context seed e : dom_ok d → engine_ok e → Forall (λ n, is_element d n = true) seed →
  found (select_seed d selector context seed e) = (cs ← reading selector; Done (List.filter (λ n, existsb (λ c, sat d c context n) cs) seed)) ∧
  ∀ l e', select_seed d selector context seed e = Done (l, e') → engine_ok e'.
Proof.
  intros Hd He Hs. unfold select_seed. pose proof (tokenize_cached_ok selector e He) as Ht.
  destruct (tokenize_cached selector e) as [[groups e1]|x|].
  2-3: (split; [|done]); with_strategy transparent [reading] unfold reading; by rewrite Ht.
  destruct Ht as (Ht & He1 & _). rewrite Done_bind. pose proof (compile_ok selector groups e1 He1 Ht) as Hc.
  destruct (compile selector groups e1) as [[c e2]|x|]; [|split; [by rewrite Hc|done]..]. destruct Hc as (Hn & Er & He2). rewrite Done_bind, Er, Done_bind.
  pose proof (superMatcher_ok d Hd (cp_chains c) context (default 0%N (en_runs e2 !! cp_id c)) seed (en_world e2) (eo_world _ He2)) as H. rewrite names_all in H. specialize (H Hn Hs).
  destruct (superMatcher d (cp_chains c) context _ seed (en_world e2)) as [[l runs] w]. destruct H as [-> Hw]. split.
  - cbn. f_equal. apply filter_ext. intros n. symmetry. apply existsb_erase.
  - intros l' e' [= <- <-]. destruct He2 as [? ? ? ?]. by split.
Qed.

(** The engines there are: new, or one that has answered; the document may have changed in between. *)
Inductive answered : engine → Prop :=
| answered_none : answered new_engine
| answered_one d selector context seed e l e' : answered e → dom_ok d → Forall (λ n, is_element d n = true) seed →
    Sizzle_seed d selector context seed e = Done (l, e') → answered e'.

Lemma Sizzle_seed_ok d selector context seed e : dom_ok d → engine_ok e → Forall (λ n, is_element d n = true) seed →
  found (Sizzle_seed d selector context seed e) = selected d selector context seed ∧
  ∀ l e', Sizzle_seed d selector context seed e = Done (l, e') → engine_ok e'.
Proof.
  intros Hd He Hs. unfold Sizzle_seed, selected. destruct (String.eqb selector ""); [split; [done|by intros ? ? [= _ <-]]|].
  destruct (_ || _); [by apply select_seed_ok|split; [done|by intros ? ? [= _ <-]]].
Qed.
Lemma answered_ok e : answered e → engine_ok e.
Proof. induction 1; [apply new_engine_ok|]. by eapply Sizzle_seed_ok. Qed.

(** C20. What has been asked before does not change what is found: whatever selectors an engine has answered, on whatever
    documents, the elements of a seed it finds are those for which one of the selectors of the group, read from the text
    anew, holds in the document as it is now; a selector that is refused is refused as by a new engine; and the tokens and
    the compiled selectors that are kept are those of at most fifty selectors. *)
Theorem caches_do_not_show d selector context seed e : answered e → dom_ok d → Forall (λ n, is_element d n = true) seed →
  found (Sizzle_seed d selector context seed e) = selected d selector context seed ∧
  size (ca_values (en_tokens e)) <= 50 ∧ size (ca_values (en_compiled e)) <= 50.
Proof.
  intros He%answered_ok Hd Hs. split; [by apply Sizzle_seed_ok|]. destruct (eo_kept _ He). split; by apply cache_size.
Qed.

(** An engine that has found the last item; then the page gives the class to the first one. *)
Definition asked_engine : engine := match Sizzle_seed some_dom "ul > li.last" 0 [2; 4; 5] new_engine with Done (_, e) => e | _ => new_engine end.
Definition later_dom : dom := {|
  nodeType := nodeType some_dom; nodeName := nodeName some_dom; className n := nth n [""; ""; "odd last"; ""; "even"; ""] "";
  attr := attr some_dom; parentNode := parentNode some_dom; childNodes := childNodes some_dom; position := position some_dom; document := 0
|}.
Lemma later_dom_ok : dom_ok later_dom.
Proof. destruct some_dom_ok. by split. Qed.
Lemma asked_engine_answered : answered asked_engine.
Proof.
  assert (E : found (Sizzle_seed some_dom "ul > li.last" 0 [2; 4; 5] new_engine) = Done [4]) by (vm_compute; reflexivity).
  unfold asked_engine. destruct (Sizzle_seed some_dom "ul > li.last" 0 [2; 4; 5] new_engine) as [[l e]| |] eqn:Es; [|discriminate E..].
  refine (answered_one _ _ _ _ _ _ _ answered_none some_dom_ok _ Es). by repeat constructor.
Qed.

Lemma caches_do_not_show_witness :
  found (Sizzle_seed later_dom "ul > li.last" 0 [2; 4; 5] asked_engine) = selected later_dom "ul > li.last" 0 [2; 4; 5] ∧
  found (Sizzle_seed later_dom "ul > li.last" 0 [2; 4; 5] asked_engine) = Done [2] ∧ size (ca_values (en_compiled asked_engine)) = 1.
Proof.
  split; [|split; vm_compute; reflexivity].
  refine (proj1 (caches_do_not_show later_dom "ul > li.last" 0 [2; 4; 5] asked_engine asked_engine_answered later_dom_ok _)). by repeat constructor.
Defined.
